(* ===== verification/_CoqProject ===== *)
-Q . S2P
Prelude.v
Memory.v
Bytes.v
Allocator.v
AllocatorInv.v
PageAllocator.v
PageMapper.v
Dump.v
UserMem.v
Dtb.v
DtbPrint.v
Boot.v
KernelMap.v
KernelInit.v
Collections.v
Thread.v
Dispatcher.v
Block.v
File.v
Ext2.v
Ramfs.v
Cpio.v
Vfs.v
Procfs.v
Uaccess.v
Space.v
Syscall.v
Amo.v
Asm.v
Trap.v
KernelTrap.v
Switch.v
Start.v
Elf.v
Loader.v
Move.v
LoaderInv.v
Spawn.v
Menu.v
Plic.v
Uart.v
Sd.v
VirtioDev.v
BlockInit.v
PageBox.v
Disk.v
KernelMain.v
Main.v
Polled.v
Inspect.v
Console.v
Listings.v
Ext2Inspect.v
Waiting.v
Probe.v
BootMenu.v
Demos.v
