(* ===== verification/Prelude.v ===== *)
(** * nano-os: a verification library

    nano-os (https://github.com/ratdaddy/nano-os) is a small RISC-V kernel in
    Rust for the QEMU virt machine and the LicheeRV Nano: it brings up Sv39
    paging, a kernel heap, cooperative kernel threads, a block layer with a
    cache, ext2, a RAM disk, /proc, and loads ELF programs that run in user
    mode and make Linux-numbered system calls.  This library is a model of the
    kernel with theorems on its parts and on their composition.

    ** How the parts fit together, and where they are

    Boot.  [_start] (trampoline.rs, [Start]) maps the first gigabyte and enters
    [rust_main]; the device tree (dtb.rs, [Dtb], printed by [DtbPrint]) says
    where RAM is; [compute_usable_regions] (memory.rs, [Memory]) subtracts what is reserved;
    page_allocator.rs ([PageAllocator]) hands out frames, and its [init] over
    the other two is [Boot].  kernel_memory_map.rs ([KernelMap]) builds the
    kernel's map with page_mapper.rs ([PageMapper], its listings in [Dump]) and
    grows the kernel heap, kernel_allocator/ ([Allocator], proofs in
    [AllocatorInv]); the map it ends with is in [KernelInit].  [kernel_main] up
    to its menu and kthread/fs_init.rs are [KernelMain], and [rust_main], which
    composes all of these over one memory, is [Main].

    Threads.  thread.rs and kthread/idle.rs are [Thread]: the thread table, the
    ready queue, messages, and switching as steps of one hart; the assembly
    behind the steps is [Switch], on the machine of [Asm].  The idle loop, one
    instruction at a time with the trap handler and the scheduler, and the loop
    in which the demos wait for a transfer are [Waiting].  collections/ are
    [Collections]: the interrupt-safe ring and the LRU map.

    Traps.  trap.rs is [Trap], kernel_trap.rs is [KernelTrap], amo.rs is [Amo],
    process_trampoline.rs is in [Start]; build.rs and types/src/lib.rs give the
    offsets of the frames.  syscall/ is [Syscall], over the user copies of
    uaccess.rs ([Uaccess]) and address spaces ([UserMem], [Space]).

    Storage.  drivers/block.rs, the request path of drivers/virtio_blk.rs and
    block/disk/dispatcher.rs are [Dispatcher]; partitions, volumes and the block
    cache (block/) are [Block]; fs/ext2/ is [Ext2] over any volume; fs/ramfs.rs
    is [Ramfs], fs/initramfs.rs [Cpio], fs/procfs.rs and dev/block.rs [Procfs];
    vfs.rs and dev/char.rs are [Vfs] over any file system; file.rs is [File].
    [Disk] runs the reading threads, the dispatcher, a device with direct access
    to memory and its interrupt as one step relation.

    Processes.  read_elf.rs is [Elf]; process_memory_map.rs is [Loader], with
    its proofs in [Move] and [LoaderInv]; process.rs and
    kthread/user_process.rs are [Spawn].

    The menu.  The loop at the end of [kernel_main] is [BootMenu]; its entries
    that start processes are [Menu], the listings of file systems, mounts and
    ELF headers (demos/) are [Listings], kthread/ext2_inspect.rs, which the
    dispatcher entry starts, is [Ext2Inspect], and the demo of the polled SD card
    is [Demos].

    Devices.  drivers/plic.rs is [Plic]; drivers/uart.rs and
    kthread/uart_writer.rs are [Uart]; drivers/sd.rs is [Sd]; bringing up
    drivers/virtio_blk.rs is [VirtioDev]; block/init.rs is [BlockInit],
    with its probing of partitions in [Probe]; [alloc_within_page] of kernel_allocator/mod.rs, which the drivers' memory
    comes from, is [PageBox].  The drivers that poll, those of the demos among
    them, are [Polled]; the listing of a disk (disk_inspect.rs) over them is
    [Inspect].  console.rs, kprint.rs and cpu_info.rs are [Console].

    [Prelude] (below) and [Bytes] (bytes.rs and the core library's conversions)
    are shared by all.  Every file opens with what it models.

    ** How code becomes definitions

    A function is a function of the same name; a [&mut] argument or a static is
    a state passed in and out.  A [usize] is an integer in [0, 2^64): the kernel
    is built with overflow checks, so the operators are the checked [uadd],
    [usub], [umul] of this file and an overflow is [Panic]; where the source
    says wrapping, saturating or [as], the definition does so too.  [Result] is
    [result], a panic is [Panic], undefined behaviour ([unsafe] code that reads
    where nothing of the expected type is) is [Fault].  Heap and page memory are
    stores by address, and an [Arc] is the key of its allocation, so aliasing is
    as in the code.

    Components meet at classes: [HeaplessVec] (a third-party crate), [HeapGrower]
    and [FrameAllocator] (memory), [BlockDriver], [BlockVolume] and
    [BlockDevice] (storage), [FileOps], [Stream], [SeekFile] and [KernelFiles]
    (files), [Mmio] (device registers), [HeapMap] (the kernel's view of its
    heap).  The hardware and the firmware are [PlicDevice], [Uart16550],
    [Sdhci], [VirtioBus], [DmaDriver], [PioCard], [DmaMemory] with [DmaCard],
    [SharedMemory] with [VirtioDisk], [Sbi] with [SbiLog], [SectorDisk],
    [Capable], and [Counters] with [Ticking], each with the behaviour its specification documents as laws and a
    simulated device as an instance.  A client's theorems are proved against the
    class and the implementation is an instance: the page allocator is a
    [FrameAllocator], the kernel map a [HeapGrower], the VirtIO and SD drivers
    are [BlockDriver]s, the polled SD drivers [BlockDevice]s, partitions and
    whole disks are volumes, ramfs and ext2 files are [Stream]s that can be
    sought.

    ** What the theorems show

    Memory: usable RAM is RAM without the reserved regions; the page allocator
    refines a list of free frames; the heap's blocks always tile the heap, an
    allocation is aligned, in bounds and disjoint from all others, with the one
    case in which it panics after growing the heap, and freeing coalesces; a box
    for the hardware stays in one page and is zeroed; a page table built by the mapper translates exactly the range
    asked for.  The heap's split for alignment is shown to overlap its own block
    in one case.

    Start-up: from what the boot loader leaves in memory, [rust_main] reaches the
    menu without a panic; the address space is exactly the layout of the kernel,
    with its protections, and stays so but for the heap's new pages as the heap
    grows; the BSS is cleared and nothing else, and memory outside the free
    pages, the statics and the first stack is untouched; the archive is unpacked and mounted with /proc and the console;
    and the disk is mounted on /newroot once its partition appears.

    Threads: in every reachable state the queue holds exactly the ready threads
    once each and the running thread is the one on the hart; a thread that gives
    up the hart gets its registers back; a wake-up between checking the inbox
    and blocking is not lost, nor is an interrupt at any point of the idle loop,
    whereas the demos' wait for a transfer can sleep past it.  The ring refines a bounded queue, in every
    interleaving of one producer and one consumer.

    Traps: a process interrupted or in a system call gets every register back,
    through the whole path of assembly, handler and assembly; kernel code does
    not notice interrupts; emulated atomics agree with the instruction set where
    they do, and the cases where they do not are theorems too.

    Storage: the dispatcher serves requests one at a time in order; the cache is
    transparent; a partition confines its reads; reading an ext2 file yields its
    bytes and a directory its entries; unpacking an archive makes the insertions
    it stands for; the mount table resolves paths across mounts.  In every
    interleaving a thread that reads the disk gets the bytes of the sectors it
    asked for, in its own buffer, unless the device fails and the driver, as the
    VirtIO one, does not say so; no other memory changes; and every request with
    a buffer fit for DMA is answered in a bounded number of steps.

    Processes: copying to and from user memory by pages is copying byte by byte;
    [mmap] and [brk] give zeroed memory and leave all else alone; the descriptor
    table is a finite map; a sound executable becomes a process whose memory,
    stack and entry point are what its file says, with an address space in which
    the system calls' theorems apply; spawning keeps every other process and
    gives the new one no page of theirs; the two processes the menu starts are
    loaded apart from each other and queued for the scheduler.

    Devices: what is written to the console arrives on the line in order, with
    line feeds converted, and the writer never stalls: from every reachable
    state it can send all it was given.  Every interrupt claimed is completed.
    A read started on either block device programs exactly the transfer asked
    for; VirtIO initialisation makes the device live and breaks exactly the rules
    of the specification that are listed; the block layer comes up with exactly
    the partitions of the disk.  A polled read returns the block of the card; the
    polled VirtIO read of the demos is shown to miss a completion in one case.  A listing of a disk or of a page table
    has exactly the rows of what is there, and kernel messages reach the line
    whole.  The probe of a partition agrees with the ext2 driver unless the
    volume is bootable.

    Menu: every key shown has an action and no other; the listings show the
    directories, files and mounts of the file systems without a panic, also on
    the mounted disk, and the ELF listing panics exactly on a segment that wraps
    around the address space.

    Theorems that state a property of the program carry its number, C1, C2 and
    so on, in their comment.  Those with hypotheses have a witness, a closed
    instance on concrete data.

    ** Bounds and fuel

    Loops over data are structural.  The others have fuel that the definition
    computes from its input, and the theorem that the result is never the
    out-of-fuel [Fault]: [map_loop] the number of pages, [traverse_dtb] and the
    archive the length of the bytes, [read_exact] the bytes still to read,
    ext2 directories the length of the block, the allocator's lists the number
    of headers.  Polling loops on a device take the progress of the device as a
    law of its class.

    ** Not modelled

    How core::fmt formats numbers and the wording and column widths of messages:
    what is printed enters as rows of values or as the pieces core::fmt hands
    over.  The demos of threads and of the UART and the timing runs of the block
    demos, which call modelled parts and print; the panic handler and the boot trap handler, which print
    and stop; the on-target tests and prog_example, a user
    program.  Memory barriers and caches, as the model has one hart and coherent
    memory, except for the SD drivers' flush of the data cache.  Where in .data
    and .bss a static is: statics are values of the state.  Allocation failure of
    the kernel heap in the components above it. *)

From Stdlib Require Export ZArith Lia.
From stdpp Require Export base numbers option list sorting gmap strings.

(** [lia] decides goals with division and remainder by a constant. *)
Ltac Zify.zify_post_hook ::= Z.to_euclidean_division_equations.

(** ** Outcomes of Rust code

    The kernel is built with cargo's dev profile (Makefile, [cargo build]
    without [--release]), so integer overflow, an out-of-range index, a failed
    [assert!] and [unwrap] on the wrong variant all panic: [Panic].
    Reading memory through a raw pointer where no object of the expected type
    lives is undefined behaviour: [Fault]. *)
Inductive outcome (A : Type) : Type :=
| Ret (a : A)
| Panic
| Fault.
Arguments Ret {A} a.
Arguments Panic {A}.
Arguments Fault {A}.

(** Rust's [Result<A, E>]. *)
Inductive result (A E : Type) : Type :=
| Ok (a : A)
| Err (e : E).
Arguments Ok {A E} a.
Arguments Err {A E} e.

Definition obind {A B} (m : outcome A) (k : A -> outcome B) : outcome B :=
  match m with
  | Ret a => k a
  | Panic => Panic
  | Fault => Fault
  end.

Declare Scope rust_scope.
Delimit Scope rust_scope with rust.
Notation "'let!' x ':=' m 'in' k" := (obind m (fun x => k))
  (at level 10, x name, m at level 100, k at level 200,
   format "'[v' 'let!'  x  ':='  m  'in' '/' k ']'") : rust_scope.
Notation "'let!' ' p ':=' m 'in' k" := (obind m (fun x => match x with p => k end))
  (at level 10, p strict pattern, m at level 100, k at level 200,
   format "'[v' 'let!'  ' p  ':='  m  'in' '/' k ']'") : rust_scope.
Open Scope rust_scope.
Open Scope Z_scope.

(** The [?] operator: a fallible call inside code that may panic. *)
Definition rbind {A B E} (m : outcome (result A E)) (k : A -> outcome (result B E)) : outcome (result B E) :=
  obind m (fun r => match r with Ok a => k a | Err e => Ret (Err e) end).

Notation "'let?' x ':=' m 'in' k" := (rbind m (fun x => k))
  (at level 10, x name, m at level 100, k at level 200,
   format "'[v' 'let?'  x  ':='  m  'in' '/' k ']'") : rust_scope.
Notation "'let?' ' p ':=' m 'in' k" := (rbind m (fun x => match x with p => k end))
  (at level 10, p strict pattern, m at level 100, k at level 200,
   format "'[v' 'let?'  ' p  ':='  m  'in' '/' k ']'") : rust_scope.

(** [Result::map_err] *)
Definition map_err {A E F} (f : E -> F) (m : outcome (result A E)) : outcome (result A F) :=
  obind m (fun r => match r with Ok a => Ret (Ok a) | Err e => Ret (Err (f e)) end).

(** A [for] loop whose body may panic. *)
Fixpoint ofold {A B} (f : A -> B -> outcome A) (l : list B) (a : A) : outcome A :=
  match l with
  | [] => Ret a
  | b :: l => let! a' := f a b in ofold f l a'
  end.

(** [assert!(b)] *)
Definition oassert (b : bool) : outcome unit := if b then Ret tt else Panic.

(** [Option::expect] / [Option::unwrap] *)
Definition expect {A} (o : option A) : outcome A :=
  match o with Some a => Ret a | None => Panic end.

(** A pointer dereference that finds no object. *)
Definition deref {A} (o : option A) : outcome A :=
  match o with Some a => Ret a | None => Fault end.

(** ** Machine integers

    A [w]-bit unsigned integer is a [Z] in [0, 2^w); the checked operations
    are those of the dev profile. *)
Definition USIZE : Z := 2 ^ 64.
Definition U32 : Z := 2 ^ 32.
Definition U16 : Z := 2 ^ 16.

Definition uadd (a b : Z) : outcome Z := if a + b <? USIZE then Ret (a + b) else Panic.
Definition usub (a b : Z) : outcome Z := if b <=? a then Ret (a - b) else Panic.
Definition umul (a b : Z) : outcome Z := if a * b <? USIZE then Ret (a * b) else Panic.
Definition udiv (a b : Z) : outcome Z := if b =? 0 then Panic else Ret (a / b).
Definition urem (a b : Z) : outcome Z := if b =? 0 then Panic else Ret (a mod b).
Definition u32_add (a b : Z) : outcome Z := if a + b <? U32 then Ret (a + b) else Panic.
Definition u32_mul (a b : Z) : outcome Z := if a * b <? U32 then Ret (a * b) else Panic.

(** [x as u32], [x as u16]: truncation. *)
Definition as_u32 (x : Z) : Z := x mod U32.
Definition as_u16 (x : Z) : Z := x mod U16.

(** [a & !b] on unsigned words. *)
Definition andn (a b : Z) : Z := Z.ldiff a b.

Lemma uadd_ok a b : a + b < USIZE -> uadd a b = Ret (a + b).
Proof. intros H. unfold uadd. by rewrite (proj2 (Z.ltb_lt _ _) H). Qed.

Lemma usub_ok a b : b <= a -> usub a b = Ret (a - b).
Proof. intros H. unfold usub. by rewrite (proj2 (Z.leb_le _ _) H). Qed.

Lemma umul_ok a b : a * b < USIZE -> umul a b = Ret (a * b).
Proof. intros H. unfold umul. by rewrite (proj2 (Z.ltb_lt _ _) H). Qed.

Lemma usub_panic a b : a < b -> usub a b = Panic.
Proof. intros H. unfold usub. by rewrite (proj2 (Z.leb_gt _ _) H). Qed.

Lemma uadd_Ret_inv a b c : uadd a b = Ret c -> c = a + b /\ a + b < USIZE.
Proof. unfold uadd. destruct (Z.ltb_spec (a + b) USIZE); intros [=]; lia. Qed.

Lemma usub_Ret_inv a b c : usub a b = Ret c -> c = a - b /\ b <= a.
Proof. unfold usub. destruct (Z.leb_spec b a); intros [=]; lia. Qed.

Lemma u32_add_ok a b : a + b < U32 -> u32_add a b = Ret (a + b).
Proof. intros H. unfold u32_add. by rewrite (proj2 (Z.ltb_lt _ _) H). Qed.

Lemma u32_mul_ok a b : a * b < U32 -> u32_mul a b = Ret (a * b).
Proof. intros H. unfold u32_mul. by rewrite (proj2 (Z.ltb_lt _ _) H). Qed.

Lemma udiv_ok a b : b <> 0 -> udiv a b = Ret (a / b).
Proof. intros H. unfold udiv. by rewrite (proj2 (Z.eqb_neq _ _) H). Qed.

Lemma urem_ok a b : b <> 0 -> urem a b = Ret (a mod b).
Proof. intros H. unfold urem. by rewrite (proj2 (Z.eqb_neq _ _) H). Qed.

Lemma as_u32_small x : 0 <= x < U32 -> as_u32 x = x.
Proof. apply Z.mod_small. Qed.

Lemma obind_Ret_inv {A B} (m : outcome A) (k : A -> outcome B) b :
  obind m k = Ret b -> exists a, m = Ret a /\ k a = Ret b.
Proof. destruct m as [a| |]; simpl; intros H; [by exists a | done | done]. Qed.

(** ** Alignment to a power of two

    [(x + a - 1) & !(a - 1)], the expression of memory.rs, of
    kernel_allocator/mod.rs and of fs/initramfs.rs. *)
Definition align_up_to (x a : Z) : Z := andn (x + a - 1) (a - 1).
Definition align_down_to (x a : Z) : Z := andn x (a - 1).

Lemma andn_ones x k : 0 <= k -> andn x (2 ^ k - 1) = x / 2 ^ k * 2 ^ k.
Proof.
  intros Hk. unfold andn.
  replace (2 ^ k - 1) with (Z.ones k) by (rewrite Z.ones_equiv; lia).
  by rewrite Z.ldiff_ones_r, Z.shiftr_div_pow2, Z.shiftl_mul_pow2 by lia.
Qed.

Lemma align_up_to_eq x k : 0 <= k -> align_up_to x (2 ^ k) = (x + 2 ^ k - 1) / 2 ^ k * 2 ^ k.
Proof. apply andn_ones. Qed.

Lemma pow2_pos k : 0 <= k -> 0 < 2 ^ k.
Proof. intros. by apply Z.pow_pos_nonneg. Qed.

(** The three facts that characterise [align_up]: it is the least multiple of
    the alignment that is not below the argument. *)
Lemma align_up_to_ge x k : 0 <= k -> x <= align_up_to x (2 ^ k) < x + 2 ^ k.
Proof.
  intros Hk. rewrite align_up_to_eq by done. pose proof (pow2_pos k Hk).
  pose proof (Z.div_mod (x + 2 ^ k - 1) (2 ^ k) ltac:(lia)).
  pose proof (Z.mod_pos_bound (x + 2 ^ k - 1) (2 ^ k) ltac:(lia)). lia.
Qed.

Lemma align_up_to_mod x k : 0 <= k -> align_up_to x (2 ^ k) mod 2 ^ k = 0.
Proof.
  intros Hk. rewrite align_up_to_eq by done. apply Z.mod_mul.
  pose proof (pow2_pos k Hk). lia.
Qed.

Lemma align_up_to_least x y k :
  0 <= k -> x <= y -> y mod 2 ^ k = 0 -> align_up_to x (2 ^ k) <= y.
Proof.
  intros Hk Hxy Hy. rewrite align_up_to_eq by done. pose proof (pow2_pos k Hk).
  apply Z.mod_divide in Hy as [q ->]; [|lia].
  apply Z.mul_le_mono_nonneg_r; [lia|].
  apply Z.lt_succ_r. apply Z.div_lt_upper_bound; lia.
Qed.

Lemma align_down_to_spec x k :
  0 <= k -> align_down_to x (2 ^ k) mod 2 ^ k = 0 /\ align_down_to x (2 ^ k) <= x < align_down_to x (2 ^ k) + 2 ^ k.
Proof.
  intros Hk. unfold align_down_to. rewrite andn_ones by done. pose proof (pow2_pos k Hk).
  split; [apply Z.mod_mul; lia|].
  pose proof (Z.div_mod x (2 ^ k) ltac:(lia)).
  pose proof (Z.mod_pos_bound x (2 ^ k) ltac:(lia)). lia.
Qed.

Lemma align_up_to_fix x k : 0 <= k -> x mod 2 ^ k = 0 -> align_up_to x (2 ^ k) = x.
Proof.
  intros Hk Hx. pose proof (align_up_to_ge x k Hk).
  pose proof (align_up_to_least x x k Hk ltac:(lia) Hx). lia.
Qed.

(** ** Shared automation *)

Create Rewrite HintDb rust.
#[export] Hint Rewrite uadd_ok usub_ok umul_ok u32_add_ok using lia : rust.

(** Case analysis on a boolean comparison of integers. *)
Ltac zcases :=
  repeat match goal with
  | |- context [?a <? ?b] => destruct (Z.ltb_spec a b)
  | |- context [?a <=? ?b] => destruct (Z.leb_spec a b)
  | |- context [?a =? ?b] => destruct (Z.eqb_spec a b)
  | H : context [?a <? ?b] |- _ => destruct (Z.ltb_spec a b)
  | H : context [?a <=? ?b] |- _ => destruct (Z.leb_spec a b)
  | H : context [?a =? ?b] |- _ => destruct (Z.eqb_spec a b)
  end.

(** Run a computation in the goal whose checked operations are in range. *)
Ltac orun := repeat (progress (autorewrite with rust; cbn [obind oassert expect deref])).

(** Invert a computation known to return. *)
Ltac bind_inv H :=
  lazymatch type of H with
  | obind ?m ?k = Ret _ =>
      let a := fresh "r" in let E := fresh "E" in let H' := fresh "K" in
      apply obind_Ret_inv in H as (a & E & H'); cbn beta in H'
  end.

(** Bits of results of a width. *)
Lemma lor_lt_pow2 n a b : 0 <= a < 2 ^ n -> 0 <= b < 2 ^ n -> 0 <= Z.lor a b < 2 ^ n.
Proof.
  intros Ha Hb. assert (Hn : 0 <= n) by (destruct (decide (0 <= n)); [done|rewrite Z.pow_neg_r in Ha by lia; lia]).
  split; [apply Z.lor_nonneg; lia|]. rewrite <- (Z.mod_small a (2 ^ n)), <- (Z.mod_small b (2 ^ n)), <- !Z.land_ones, <- Z.land_lor_distr_l, Z.land_ones by lia.
  apply Z.mod_pos_bound. lia.
Qed.

Lemma land_lt_pow2 n a b : 0 <= a -> 0 <= b < 2 ^ n -> 0 <= Z.land a b < 2 ^ n.
Proof.
  intros Ha Hb. assert (Hn : 0 <= n) by (destruct (decide (0 <= n)); [done|rewrite Z.pow_neg_r in Hb by lia; lia]).
  split; [apply Z.land_nonneg; lia|]. rewrite <- (Z.mod_small b (2 ^ n)), <- Z.land_ones, Z.land_assoc, Z.land_ones by lia.
  apply Z.mod_pos_bound. lia.
Qed.

(** A word from its halves. *)
Lemma u32_halves a : 0 <= a < USIZE -> as_u32 a + as_u32 (Z.shiftr a 32) * U32 = a.
Proof. intros Ha. unfold as_u32, U32, USIZE in *. rewrite Z.shiftr_div_pow2 by lia. rewrite (Z.mod_small (a / _)) by lia. lia. Qed.

(** A word below [2 ^ k] beside a word shifted past it. *)
Lemma lor_add a b k : 0 <= k -> 0 <= a < 2 ^ k -> Z.lor a (Z.shiftl b k) = a + b * 2 ^ k.
Proof.
  intros Hk Ha. rewrite Z.shiftl_mul_pow2 by done. pose proof (Z.add_lor_land a (b * 2 ^ k)) as E. enough (Z.land a (b * 2 ^ k) = 0) by lia.
  apply Z.bits_inj'. intros n Hn. rewrite Z.land_spec, Z.bits_0, <- Z.shiftl_mul_pow2, Z.shiftl_spec by done.
  destruct (Z.ltb_spec n k); [by rewrite (Z.testbit_neg_r b), andb_false_r by lia|].
  rewrite (proj1 (Z.bounded_iff_bits_nonneg k a Hk ltac:(lia))) by lia. done.
Qed.
