(* ===== verification/Memory.v ===== *)
(** * Physical memory regions (src/src/memory.rs)

    [Region], page alignment and [compute_usable_regions], which subtracts the
    reserved regions of the device tree from RAM.  The fixed-capacity vectors
    are [heapless::Vec], a third-party crate: its [push] is a parameter, given
    by the class [HeaplessVec] with its documented behaviour as laws. *)

From S2P Require Import Prelude.

(** [let _ = v.push(x)] on a [heapless::Vec] of capacity [cap] whose contents
    are [l]: the crate appends when there is room and otherwise hands the item
    back, which the kernel drops. *)
Class HeaplessVec := {
  vec_push : forall {A : Type}, nat -> list A -> A -> list A;
  vec_push_room : forall A cap (l : list A) x,
    (length l < cap)%nat -> vec_push cap l x = l ++ [x];
  vec_push_full : forall A cap (l : list A) x,
    (cap <= length l)%nat -> vec_push cap l x = l;
}.

(** A concrete vector with that behaviour, for the witnesses. *)
Definition list_push {A} (cap : nat) (l : list A) (x : A) : list A :=
  if (length l <? cap)%nat then l ++ [x] else l.

#[export, refine] Instance list_heapless : HeaplessVec := {| vec_push := @list_push |}.
Proof.
  - intros A cap l x H. unfold list_push. by rewrite (proj2 (Nat.ltb_lt _ _) H).
  - intros A cap l x H. unfold list_push. by rewrite (proj2 (Nat.ltb_ge _ _) H).
Defined.
#[global] Remove Hints list_heapless : typeclass_instances.

Module Mem.

Definition PAGE_SIZE : Z := 4096.

Record Region := mkRegion { start : Z; end_ : Z }.

#[export] Instance region_eq_dec : EqDecision Region.
Proof. solve_decision. Defined.

Definition align_down (addr : Z) : Z := andn addr (PAGE_SIZE - 1).

Definition align_up (addr : Z) : outcome Z :=
  let! s := uadd addr PAGE_SIZE in
  Ret (andn (s - 1) (PAGE_SIZE - 1)).

Section Usable.
Context `{HeaplessVec}.

(** Step 1: clip every reserved region to RAM and drop the empty ones. *)
Definition clip_step (R : nat) (ram : Region) (clipped : list Region) (r : Region) : list Region :=
  let s := Z.max (start r) (start ram) in
  let e := Z.min (end_ r) (end_ ram) in
  if s <? e then vec_push R clipped (mkRegion s e) else clipped.

Definition clip (R : nat) (ram : Region) (reserved : list Region) : list Region :=
  foldl (clip_step R ram) [] reserved.

(** Step 2: the quadratic exchange sort. *)
Definition cmp_swap (i : nat) (c : list Region) (j : nat) : outcome (list Region) :=
  let! ci := expect (c !! i) in
  let! cj := expect (c !! j) in
  if start cj <? start ci then Ret (<[i := cj]> (<[j := ci]> c)) else Ret c.

Definition sort_from (c : list Region) (i : nat) : outcome (list Region) :=
  ofold (cmp_swap i) (seq (S i) (length c - S i)) c.

Definition sort_by_start (c : list Region) : outcome (list Region) :=
  ofold sort_from (seq 0 (length c)) c.

(** Step 3: merge overlapping or adjacent regions. *)
Definition merge_step (R : nat) (merged : list Region) (r : Region) : list Region :=
  match last merged with
  | Some lst =>
      if start r <=? end_ lst then
        if end_ lst <? end_ r
        then <[(length merged - 1)%nat := mkRegion (start lst) (end_ r)]> merged
        else merged
      else vec_push R merged r
  | None => vec_push R merged r
  end.

Definition merge (R : nat) (clipped : list Region) : list Region :=
  foldl (merge_step R) [] clipped.

(** Step 4: the gaps. *)
Definition carve_step (U : nat) (st : list Region * Z) (r : Region) : list Region * Z :=
  let '(usable, cursor) := st in
  (if cursor <? start r then vec_push U usable (mkRegion cursor (start r)) else usable,
   Z.max cursor (end_ r)).

Definition compute_usable_regions (R U : nat) (ram : Region) (reserved usable : list Region)
  : outcome (list Region) :=
  let! clipped := sort_by_start (clip R ram reserved) in
  let merged := merge R clipped in
  let '(usable, cursor) := foldl (carve_step U) (usable, start ram) merged in
  Ret (if cursor <? end_ ram then vec_push U usable (mkRegion cursor (end_ ram)) else usable).

(** The set of addresses a list of regions covers. *)
Definition inside (r : Region) (x : Z) : Prop := start r <= x < end_ r.
Definition covers (l : list Region) (x : Z) : Prop := exists r, r ∈ l /\ inside r x.

(** Non-empty regions, in increasing order, with a gap between neighbours. *)
Fixpoint separated (lo : Z) (l : list Region) : Prop :=
  match l with
  | [] => True
  | r :: l => lo <= start r /\ start r < end_ r /\ separated (end_ r + 1) l
  end.

(** *** Sorting *)

(** One pass of the inner loop as a recursive function: the minimum sinks to
    the front, the displaced regions keep their slots. *)
Fixpoint bubble (x : Region) (ys : list Region) : Region * list Region :=
  match ys with
  | [] => (x, [])
  | y :: ys =>
      if start y <? start x
      then let '(m, zs) := bubble y ys in (m, x :: zs)
      else let '(m, zs) := bubble x ys in (m, y :: zs)
  end.

Lemma cmp_swap_at pre x mid y rest :
  cmp_swap (length pre) (pre ++ x :: mid ++ y :: rest) (length pre + S (length mid)) =
  Ret (if start y <? start x then pre ++ y :: mid ++ x :: rest else pre ++ x :: mid ++ y :: rest).
Proof.
  unfold cmp_swap.
  rewrite (list_lookup_middle pre _ x _ eq_refl). cbn [expect obind].
  replace (pre ++ x :: mid ++ y :: rest) with ((pre ++ x :: mid) ++ y :: rest)
    by by rewrite <- app_assoc.
  rewrite (list_lookup_middle (pre ++ x :: mid) _ y (length pre + S (length mid)))
    by (rewrite length_app; done).
  cbn [expect obind]. destruct (start y <? start x); [|by rewrite <- app_assoc].
  f_equal.
  replace (length pre + S (length mid))%nat with (length (pre ++ x :: mid) + 0)%nat
    by (rewrite length_app; simpl; lia).
  rewrite insert_app_r. simpl. rewrite <- app_assoc.
  rewrite <- (Nat.add_0_r (length pre)), insert_app_r. done.
Qed.

Lemma sort_inner pre rest : forall x mid,
  ofold (cmp_swap (length pre)) (seq (length pre + S (length mid)) (length rest))
    (pre ++ x :: mid ++ rest)
  = Ret (pre ++ (bubble x rest).1 :: mid ++ (bubble x rest).2).
Proof.
  induction rest as [|y rest IH]; intros x mid; [done|].
  cbn [ofold seq length]. rewrite cmp_swap_at. cbn [obind].
  replace (S (length pre + S (length mid)))%nat with (length pre + S (length (mid ++ [x])))%nat
    by (rewrite length_app; simpl; lia).
  simpl bubble. destruct (start y <? start x).
  - replace (mid ++ x :: rest) with ((mid ++ [x]) ++ rest) by by rewrite <- app_assoc.
    rewrite IH. destruct (bubble y rest) as [m zs]. by rewrite <- app_assoc.
  - replace (mid ++ y :: rest) with ((mid ++ [y]) ++ rest) by by rewrite <- app_assoc.
    replace (length (mid ++ [x])) with (length (mid ++ [y])) by (rewrite !length_app; done).
    rewrite IH. destruct (bubble x rest) as [m zs]. by rewrite <- app_assoc.
Qed.

Lemma bubble_spec ys : forall x,
  x :: ys ≡ₚ (bubble x ys).1 :: (bubble x ys).2 /\
  length (bubble x ys).2 = length ys /\
  start (bubble x ys).1 <= start x /\
  Forall (fun z => start (bubble x ys).1 <= start z) (bubble x ys).2.
Proof.
  induction ys as [|y ys IH]; intros x; [simpl; repeat split; [done|lia|constructor]|].
  simpl. destruct (Z.ltb_spec (start y) (start x)).
  - specialize (IH y). destruct (bubble y ys) as [m zs]. simpl in *.
    destruct IH as (Hp & Hl & Hy & Hall). rewrite Hl. split_and!; [|done|lia|].
    + by rewrite (Permutation_swap x m zs), <- Hp.
    + constructor; [lia|done].
  - specialize (IH x). destruct (bubble x ys) as [m zs]. simpl in *.
    destruct IH as (Hp & Hl & Hx & Hall). rewrite Hl. split_and!; [|done|lia|].
    + rewrite (Permutation_swap y m zs), <- Hp. apply Permutation_swap.
    + constructor; [lia|done].
Qed.

Definition by_start (a b : Region) : Prop := start a <= start b.

Lemma sort_outer n : forall pre rest, length rest = n ->
  exists rest', ofold sort_from (seq (length pre) (length rest)) (pre ++ rest) = Ret (pre ++ rest')
    /\ rest ≡ₚ rest' /\ StronglySorted by_start rest'.
Proof.
  induction n as [|n IH]; intros pre rest Hn.
  - destruct rest; [|done]. exists []. split_and!; [done|done|constructor].
  - destruct rest as [|x ys]; [done|]. cbn [ofold seq length].
    unfold sort_from at 1. rewrite length_app. cbn [length].
    replace (length pre + S (length ys) - S (length pre))%nat with (length ys) by lia.
    pose proof (sort_inner pre ys x []) as Hin. cbn [length app] in Hin.
    rewrite Nat.add_1_r in Hin. rewrite Hin. cbn [obind].
    destruct (bubble_spec ys x) as (Hp & Hl & _ & Hall).
    destruct (bubble x ys) as [m zs]. simpl in *.
    destruct (IH (pre ++ [m]) zs ltac:(lia)) as (rest' & Hrun & Hperm & Hsort).
    rewrite length_app in Hrun. simpl in Hrun. rewrite Nat.add_1_r, Hl, <- !app_assoc in Hrun.
    simpl in Hrun. exists (m :: rest'). split_and!; [done|by rewrite Hp, Hperm|].
    constructor; [done|]. apply Forall_forall. intros z Hz.
    rewrite <- Hperm in Hz. eapply Forall_forall in Hall; [exact Hall|done].
Qed.

Lemma sort_by_start_spec c :
  exists c', sort_by_start c = Ret c' /\ c ≡ₚ c' /\ StronglySorted by_start c'.
Proof. exact (sort_outer (length c) [] c eq_refl). Qed.

(** *** Separation and coverage *)

Lemma covers_nil x : ~ covers [] x.
Proof. intros (r & Hr & _). by apply elem_of_nil in Hr. Qed.

Lemma covers_cons r l x : covers (r :: l) x <-> inside r x \/ covers l x.
Proof. unfold covers. setoid_rewrite elem_of_cons. naive_solver. Qed.

Lemma covers_app l k x : covers (l ++ k) x <-> covers l x \/ covers k x.
Proof. unfold covers. setoid_rewrite elem_of_app. naive_solver. Qed.

Lemma covers_perm l k x : l ≡ₚ k -> covers l x <-> covers k x.
Proof. intros Hp. unfold covers. by setoid_rewrite Hp. Qed.

Lemma separated_weaken lo lo' l : lo' <= lo -> separated lo l -> separated lo' l.
Proof. destruct l; simpl; [done|]. intros ? (? & ? & ?). split_and!; [lia|done|done]. Qed.

Lemma separated_ge lo l r : separated lo l -> r ∈ l -> lo <= start r /\ start r < end_ r.
Proof.
  revert lo; induction l as [|q l IH]; intros lo; [by rewrite elem_of_nil|].
  simpl. intros (? & ? & Hl) [->|Hr]%elem_of_cons; [lia|].
  specialize (IH _ Hl Hr). lia.
Qed.

Lemma separated_snoc lo l r :
  separated lo (l ++ [r]) <->
  separated lo l /\ lo <= start r /\ start r < end_ r /\ (forall q, q ∈ l -> end_ q + 1 <= start r).
Proof.
  revert lo; induction l as [|q l IH]; intros lo; simpl.
  - split; [intros (?&?&_); split_and!; try done; by intros ? ?%elem_of_nil|naive_solver].
  - rewrite IH. split.
    + intros (?&?&?&?&?&Hall). split_and!; try done; [lia|].
      intros p [->|Hp]%elem_of_cons; [lia|auto].
    + intros ((?&?&?)&?&?&Hall). split_and!; try done; [apply Hall; set_solver|].
      intros p Hp. apply Hall. set_solver.
Qed.

Definition clip1 (ram r : Region) : Region :=
  mkRegion (Z.max (start r) (start ram)) (Z.min (end_ r) (end_ ram)).

Lemma clip_fold R ram reserved : forall acc,
  (length acc + length reserved <= R)%nat ->
  exists out, foldl (clip_step R ram) acc reserved = acc ++ out
    /\ (length out <= length reserved)%nat
    /\ Forall (fun r => start r < end_ r /\ start ram <= start r /\ end_ r <= end_ ram) out
    /\ Forall (fun r => exists q, q ∈ reserved /\ r = clip1 ram q) out
    /\ forall x, covers out x <-> inside ram x /\ covers reserved x.
Proof.
  induction reserved as [|r l IH]; intros acc Hlen.
  - exists []. rewrite app_nil_r. split_and!; [done|done|constructor|constructor|].
    intros x. split; [intros []%covers_nil|intros [_ []%covers_nil]].
  - cbn [foldl]. unfold clip_step at 2. cbn zeta. simpl in Hlen.
    assert (Hc : forall x, inside (clip1 ram r) x <-> inside ram x /\ inside r x)
      by (intros x; unfold inside; simpl; lia).
    destruct (Z.ltb_spec (Z.max (start r) (start ram)) (Z.min (end_ r) (end_ ram))) as [Hlt|Hge].
    + rewrite vec_push_room by lia. fold (clip1 ram r).
      destruct (IH (acc ++ [clip1 ram r])) as (out & Hrun & Hl & HF & HQ & Hcov);
        [rewrite length_app; simpl; lia|].
      exists (clip1 ram r :: out). rewrite Hrun, <- app_assoc. simpl. split_and!; [done|lia| | |].
      * constructor; [simpl; lia|done].
      * constructor; [exists r; set_solver|]. eapply Forall_impl; [exact HQ|]. set_solver.
      * intros x. rewrite !covers_cons, Hcov, Hc. naive_solver.
    + destruct (IH acc ltac:(lia)) as (out & Hrun & Hl & HF & HQ & Hcov).
      exists out. split_and!; [done|simpl; lia|done|eapply Forall_impl; [exact HQ|set_solver]|].
      intros x. rewrite covers_cons, Hcov. specialize (Hc x). unfold inside, clip1 in *. simpl in *.
      split; [naive_solver|]. intros [? [Hr|?]]; [exfalso; lia|naive_solver].
Qed.

(** The invariant of the merge loop after the regions [done]. *)
Definition merge_inv (lo : Z) (done merged : list Region) : Prop :=
  separated lo merged /\ (length merged <= length done)%nat /\
  (forall x, covers merged x <-> covers done x) /\
  (forall r, r ∈ merged -> exists d, d ∈ done /\ start d = start r).

Lemma merge_step_inv R lo done merged r :
  (length done < R)%nat -> lo <= start r -> start r < end_ r ->
  (forall d, d ∈ done -> start d <= start r) ->
  merge_inv lo done merged -> merge_inv lo (done ++ [r]) (merge_step R merged r).
Proof.
  intros HR Hlo Hr Hbelow (Hsep & Hlen & Hcov & Hst).
  assert (Hpush : (forall q, q ∈ merged -> end_ q + 1 <= start r) ->
    merge_inv lo (done ++ [r]) (vec_push R merged r)).
  { intros Hall. rewrite vec_push_room by lia. split_and!.
    - by apply separated_snoc.
    - rewrite !length_app. simpl. lia.
    - intros x. by rewrite !covers_app, Hcov.
    - intros q [Hq|Hq]%elem_of_app; [apply Hst in Hq as (d & ? & ?); exists d; set_solver|].
      exists r. set_solver. }
  unfold merge_step. destruct merged as [|lst m _] using rev_ind.
  { apply Hpush. by intros ? ?%elem_of_nil. }
  rewrite last_snoc. apply separated_snoc in Hsep as (Hm & Hlo' & Hne & Hgap).
  destruct (Hst lst ltac:(set_solver)) as (d & Hd & Heq). specialize (Hbelow d Hd).
  assert (Hcov' : forall e, end_ lst <= e -> start r <= end_ lst -> end_ r <= e ->
    (e = end_ lst \/ e = end_ r) ->
    forall x, covers (m ++ [mkRegion (start lst) e]) x <-> covers (done ++ [r]) x).
  { intros e He1 He2 He3 He4 x. specialize (Hcov x).
    rewrite !covers_app in *. rewrite !covers_cons in *.
    unfold inside in *. simpl.
    assert (start lst <= x < e <-> start lst <= x < end_ lst \/ start r <= x < end_ r) by lia.
    rewrite <- Hcov. tauto. }
  destruct (Z.leb_spec (start r) (end_ lst)) as [Htouch|Hsepr].
  - destruct (Z.ltb_spec (end_ lst) (end_ r)) as [Hext|Hin].
    + replace (length (m ++ [lst]) - 1)%nat with (length m + 0)%nat
        by (rewrite length_app; simpl; lia).
      rewrite insert_app_r. simpl. split_and!.
      * apply separated_snoc. simpl. split_and!; [done|done|lia|done].
      * rewrite !length_app in *. simpl in *. lia.
      * apply Hcov'; lia.
      * intros q [Hq|Hq]%elem_of_app.
        -- destruct (Hst q ltac:(set_solver)) as (d' & ? & ?). exists d'. set_solver.
        -- apply list_elem_of_singleton in Hq as ->. exists d. set_solver.
    + split_and!.
      * apply separated_snoc. done.
      * rewrite !length_app in *. simpl in *. lia.
      * assert (lst = mkRegion (start lst) (end_ lst)) as -> by by destruct lst.
        apply Hcov'; simpl; lia.
      * intros q Hq. destruct (Hst q Hq) as (d' & ? & ?). exists d'. set_solver.
  - apply Hpush. intros q [Hq|Hq]%elem_of_app; [specialize (Hgap q Hq); lia|].
    apply list_elem_of_singleton in Hq as ->. lia.
Qed.

Lemma merge_fold R lo rest : forall done merged,
  (length done + length rest <= R)%nat ->
  Forall (fun r => lo <= start r /\ start r < end_ r) rest ->
  StronglySorted by_start (done ++ rest) ->
  merge_inv lo done merged ->
  merge_inv lo (done ++ rest) (foldl (merge_step R) merged rest).
Proof.
  induction rest as [|r rest IH]; intros done merged HR HF Hs Hinv; [by rewrite app_nil_r|].
  simpl in *. inversion HF as [|? ? [Hlo Hr] HF']; subst.
  replace (done ++ r :: rest) with ((done ++ [r]) ++ rest) in * by by rewrite <- app_assoc.
  apply IH; [rewrite length_app; simpl; lia|done|done|].
  apply merge_step_inv; try done; [lia|].
  intros d Hd. rewrite <- app_assoc in Hs.
  apply (StronglySorted_app_1_elem_of by_start done (r :: rest) d r Hs Hd). set_solver.
Qed.

Lemma carve_fold U m : forall us cur,
  separated cur m -> (length us + length m <= U)%nat ->
  exists g cur', foldl (carve_step U) (us, cur) m = (us ++ g, cur')
    /\ separated cur g /\ (length g <= length m)%nat /\ cur <= cur'
    /\ (forall r, r ∈ g -> end_ r < cur')
    /\ (cur' = cur \/ exists r, r ∈ m /\ cur' = end_ r)
    /\ (forall r, r ∈ m -> end_ r <= cur')
    /\ forall x, covers g x <-> cur <= x < cur' /\ ~ covers m x.
Proof.
  induction m as [|r m IH]; intros us cur Hsep Hlen.
  - exists [], cur. simpl. rewrite app_nil_r. split_and!; try done; [by intros ? ?%elem_of_nil|by left|by intros ? ?%elem_of_nil|].
    intros x. split; [by intros ?%covers_nil|lia].
  - simpl in Hsep, Hlen. destruct Hsep as (Hcur & Hne & Hsep). simpl foldl.
    replace (Z.max cur (end_ r)) with (end_ r) by lia.
    assert (Hcov : forall x, covers (r :: m) x <-> inside r x \/ covers m x) by (intros; apply covers_cons).
    assert (Hm : forall x, covers m x -> end_ r < x).
    { intros x (q & Hq & Hi). destruct (separated_ge _ _ _ Hsep Hq). unfold inside in Hi. lia. }
    destruct (Z.ltb_spec cur (start r)) as [Hgap|Hno].
    + rewrite vec_push_room by lia.
      destruct (IH (us ++ [mkRegion cur (start r)]) (end_ r)) as
        (g & cur' & Hrun & Hg & Hl & Hle & Hend & Hlast & Hmax & Hc);
        [eapply separated_weaken; [|done]; lia|rewrite length_app; simpl; lia|].
      exists (mkRegion cur (start r) :: g), cur'. rewrite Hrun, <- app_assoc. simpl.
      split_and!; try lia; try done.
      * eapply separated_weaken; [|done]. lia.
      * intros q [->|Hq]%elem_of_cons; [simpl; lia|auto].
      * right. destruct Hlast as [->|(q & Hq & ->)]; [exists r|exists q]; set_solver.
      * intros q [->|Hq]%elem_of_cons; [lia|auto].
      * intros x. rewrite covers_cons, Hc, Hcov. unfold inside. simpl. specialize (Hm x).
        split; [intros [?|[? ?]]; split; try lia; intros [?|?]; naive_solver lia|].
        intros [? Hn]. destruct (decide (x < start r)); [left; lia|right].
        split; [|naive_solver]. split; [|lia]. destruct (decide (end_ r <= x)); [done|].
        exfalso. apply Hn. left. lia.
    + destruct (IH us (end_ r)) as (g & cur' & Hrun & Hg & Hl & Hle & Hend & Hlast & Hmax & Hc);
        [eapply separated_weaken; [|done]; lia|lia|].
      exists g, cur'. rewrite Hrun. split_and!; try lia; try done.
      * eapply separated_weaken; [|done]. lia.
      * simpl. lia.
      * right. destruct Hlast as [->|(q & Hq & ->)]; [exists r|exists q]; set_solver.
      * intros q [->|Hq]%elem_of_cons; [lia|auto].
      * intros x. rewrite Hc, Hcov. unfold inside.
        split; [intros [? ?]; split; [lia|]; intros [?|?]; [lia|done]|].
        intros [? Hn]. split; [|naive_solver]. split; [|lia].
        destruct (decide (end_ r <= x)); [done|]. exfalso. apply Hn. left. lia.
Qed.

(** Everything [compute_usable_regions] guarantees, in one place. *)
Lemma usable_spec R U ram reserved :
  (length reserved <= R)%nat -> (length reserved < U)%nat ->
  exists out, compute_usable_regions R U ram reserved [] = Ret out
    /\ separated (start ram) out
    /\ (length out <= S (length reserved))%nat
    /\ (forall x, covers out x <-> inside ram x /\ ~ covers reserved x)
    /\ (forall r, r ∈ out -> end_ r <= end_ ram).
Proof.
  intros HR HU. unfold compute_usable_regions, clip, merge.
  destruct (clip_fold R ram reserved []) as (c & Hrun & Hl & HF & _ & Hcov); [simpl; lia|].
  rewrite Hrun. simpl app. destruct (sort_by_start_spec c) as (c' & -> & Hp & Hs). cbn [obind].
  assert (Hlen : length c' = length c) by by rewrite Hp.
  assert (HF' : Forall (fun r => start r < end_ r /\ start ram <= start r /\ end_ r <= end_ ram) c')
    by by rewrite <- Hp.
  destruct (merge_fold R (start ram) c' [] []) as (Hsep & Hlm & Hcm & _);
    [simpl; lia|eapply Forall_impl; [exact HF'|simpl; tauto]|done| |].
  { split_and!; [done|done|done|by intros ? ?%elem_of_nil]. }
  simpl in Hlm, Hcm. set (m := foldl (merge_step R) [] c') in *.
  destruct (carve_fold U m [] (start ram) Hsep) as (g & cur & -> & Hg & Hlg & Hle & Hend & Hlast & Hmax & Hcg);
    [simpl; lia|]. simpl app.
  assert (Hcx : forall x, covers m x <-> inside ram x /\ covers reserved x).
  { intros x. by rewrite Hcm, <- (covers_perm _ _ x Hp), Hcov. }
  assert (Hin : forall x, covers m x -> x < cur).
  { intros x (q & Hq & Hi). specialize (Hmax q Hq). unfold inside in Hi. lia. }
  assert (Hcur : cur = start ram \/ cur <= end_ ram).
  { destruct Hlast as [->|(q & Hq & ->)]; [by left|right].
    destruct (separated_ge _ _ _ Hsep Hq).
    assert (covers m (end_ q - 1)) as [Hi _]%Hcx by (exists q; unfold inside; split; [done|lia]).
    unfold inside in Hi. lia. }
  assert (Hg' : forall r, r ∈ g -> end_ r <= end_ ram).
  { intros r Hr. specialize (Hend r Hr). pose proof (separated_ge _ _ _ Hg Hr). lia. }
  assert (Hcase : forall x, inside ram x /\ ~ covers reserved x <->
    (start ram <= x < cur /\ ~ covers m x) \/ (cur <= x < end_ ram)).
  { intros x. specialize (Hcx x). specialize (Hin x). unfold inside in *.
    split; [intros [? ?]; destruct (decide (x < cur)); naive_solver lia|].
    intros Hx. assert (start ram <= x < end_ ram) by lia. split; [done|]. intros Hr.
    assert (covers m x) as Hm by tauto. specialize (Hin Hm). destruct Hx as [[_ ?]|?]; [done|lia]. }
  destruct (Z.ltb_spec cur (end_ ram)).
  - exists (g ++ [mkRegion cur (end_ ram)]). rewrite vec_push_room by lia. rewrite length_app. simpl.
    split_and!; [done|apply separated_snoc; simpl; split_and!; try done| lia| |].
    + intros q Hq. specialize (Hend q Hq). lia.
    + intros x. rewrite covers_app, covers_cons, Hcg, Hcase. unfold inside. simpl.
      pose proof (covers_nil x). tauto.
    + intros r [Hr|Hr]%elem_of_app; [auto|]. apply list_elem_of_singleton in Hr as ->. simpl. lia.
  - exists g. split_and!; try done; [lia|]. intros x. rewrite Hcg, Hcase. intuition lia.
Qed.

(** *** Page alignment *)

Definition aligned (r : Region) : Prop := start r mod PAGE_SIZE = 0 /\ end_ r mod PAGE_SIZE = 0.

(** Every bound of a usable region is a bound of [ram] or of a reserved region;
    [B] is any property of bounds that min, max and the loops preserve. *)
Section Bounds.
Context (B : Z -> Prop).
Definition bounds_in (r : Region) : Prop := B (start r) /\ B (end_ r).

Lemma vec_push_Forall {A} (P : A -> Prop) cap l x :
  Forall P l -> P x -> Forall P (vec_push cap l x).
Proof.
  intros. destruct (decide (length l < cap)%nat).
  - rewrite vec_push_room by done. by apply Forall_app_2; [|constructor].
  - rewrite vec_push_full by lia. done.
Qed.

Lemma clip_bounds R ram reserved acc :
  bounds_in ram -> Forall bounds_in reserved -> Forall bounds_in acc ->
  Forall bounds_in (foldl (clip_step R ram) acc reserved).
Proof.
  intros [? ?] Hres. revert acc. induction Hres as [|r l [? ?] _ IH]; intros acc Hacc; [done|].
  apply IH. unfold clip_step. zcases; [|done]. apply vec_push_Forall; [done|].
  split; simpl; [destruct (Z.max_spec (start r) (start ram)) as [[_ ->]|[_ ->]]
    |destruct (Z.min_spec (end_ r) (end_ ram)) as [[_ ->]|[_ ->]]]; done.
Qed.

Lemma merge_bounds R l acc :
  Forall bounds_in l -> Forall bounds_in acc -> Forall bounds_in (foldl (merge_step R) acc l).
Proof.
  intros Hl. revert acc. induction Hl as [|r l Hr _ IH]; intros acc Hacc; [done|].
  apply IH. unfold merge_step. destruct (last acc) as [lst|] eqn:Hlst; [|by apply vec_push_Forall].
  zcases; try done; try by apply vec_push_Forall.
  apply last_Some in Hlst as [k ->]. apply Forall_app in Hacc as [? [Hlst _]%Forall_cons].
  apply Forall_insert; [by apply Forall_app_2; [|constructor]|]. split; [apply Hlst|apply Hr].
Qed.

Lemma carve_bounds U l us cur :
  Forall bounds_in l -> Forall bounds_in us -> B cur ->
  Forall bounds_in (foldl (carve_step U) (us, cur) l).1 /\ B (foldl (carve_step U) (us, cur) l).2.
Proof.
  intros Hl. revert us cur. induction Hl as [|r l [? ?] _ IH]; intros us cur Hus Hcur; [done|].
  apply IH; [zcases; [by apply vec_push_Forall|done]|].
  by destruct (Z.max_spec cur (end_ r)) as [[_ ->]|[_ ->]].
Qed.

Lemma usable_bounds R U ram reserved usable out :
  bounds_in ram -> Forall bounds_in reserved -> Forall bounds_in usable ->
  compute_usable_regions R U ram reserved usable = Ret out -> Forall bounds_in out.
Proof.
  intros Hram Hres Hus. unfold compute_usable_regions.
  destruct (sort_by_start_spec (clip R ram reserved)) as (c & -> & Hp & _). cbn [obind].
  assert (Hc : Forall bounds_in c) by (rewrite <- Hp; by apply clip_bounds).
  pose proof (carve_bounds U (merge R c) usable (start ram) (merge_bounds R c [] Hc ltac:(done)) Hus
    ltac:(apply Hram)) as [H1 H2].
  destruct (foldl _ _ _) as [us cur]. intros [= <-]. zcases; [|done].
  apply vec_push_Forall; [done|]. split; [done|apply Hram].
Qed.
End Bounds.

(** [compute_usable_regions] returns (it never panics), and with room for
    the fragments its result is exactly RAM minus the union of the reserved
    regions, whatever their order or overlap, as non-empty regions in increasing
    order with a gap between neighbours, at most one more than the reserved
    ones. *)
Theorem compute_usable_regions_spec R U ram reserved
  (HR : (length reserved <= R)%nat) (HU : (length reserved < U)%nat) :
  exists out, compute_usable_regions R U ram reserved [] = Ret out
    /\ separated (start ram) out
    /\ (length out <= S (length reserved))%nat
    /\ (forall x, covers out x <-> inside ram x /\ ~ covers reserved x).
Proof. destruct (usable_spec R U ram reserved HR HU) as (out & ? & ? & ? & ? & _). eauto. Qed.

End Usable.

#[local] Existing Instance list_heapless.

Definition demo_ram : Region := mkRegion 0x8000_0000 0x8800_0000.
Definition demo_reserved : list Region :=
  [mkRegion 0x8040_0000 0x8060_0000; mkRegion 0x7000_0000 0x8002_0000; mkRegion 0x8050_0000 0x8070_0000].

Lemma compute_usable_regions_witness :
  exists out, compute_usable_regions 16 17 demo_ram demo_reserved [] = Ret out
    /\ separated (start demo_ram) out /\ (length out <= 4)%nat
    /\ (forall x, covers out x <-> inside demo_ram x /\ ~ covers demo_reserved x).
Proof. apply (compute_usable_regions_spec 16 17 demo_ram demo_reserved); simpl; lia. Defined.

End Mem.
