(* ===== verification/Bytes.v ===== *)
(** * Byte slices (src/src/bytes.rs) and the core library's string checks

    Bytes are integers in [0, 256).  [slice] is Rust's range indexing, which
    panics out of range; [from_le] and [from_be] are the integer conversions of
    the core library, [utf8_valid] is [core::str::from_utf8]'s check. *)

From S2P Require Import Prelude.

Definition byte_ok (b : Z) : Prop := 0 <= b < 256.

(** String literals as bytes. *)
Fixpoint lit (s : string) : list Z :=
  match s with
  | EmptyString => []
  | String c s => Z.of_nat (Ascii.nat_of_ascii c) :: lit s
  end.

(** [&l[a..b]] *)
Definition slice (l : list Z) (a b : Z) : outcome (list Z) :=
  if (a <=? b) && (b <=? Z.of_nat (length l)) then Ret (take (Z.to_nat (b - a)) (drop (Z.to_nat a) l))
  else Panic.

Fixpoint from_le (l : list Z) : Z :=
  match l with
  | [] => 0
  | b :: l => b + 256 * from_le l
  end.

Definition from_be (l : list Z) : Z := foldl (fun acc b => 256 * acc + b) 0 l.

Fixpoint to_le (n : nat) (x : Z) : list Z :=
  match n with
  | O => []
  | S n => x mod 256 :: to_le n (x / 256)
  end.

Definition to_be (n : nat) (x : Z) : list Z := rev (to_le n x).

(** [ReadIntLe] *)
Definition read_u16_le (l : list Z) (offset : Z) : outcome Z :=
  let! e := uadd offset 2 in
  let! s := slice l offset e in
  Ret (from_le s).

Definition read_u32_le (l : list Z) (offset : Z) : outcome Z :=
  let! e := uadd offset 4 in
  let! s := slice l offset e in
  Ret (from_le s).

(** [core::str::from_utf8(l).is_ok()]: the well-formed byte sequences of the
    Unicode standard (no overlong forms, no surrogates, at most U+10FFFF). *)
Definition cont (b : Z) : bool := (0x80 <=? b) && (b <=? 0xBF).
Definition within (lo hi b : Z) : bool := (lo <=? b) && (b <=? hi).

Fixpoint utf8_valid (l : list Z) : bool :=
  match l with
  | [] => true
  | a :: l =>
      if within 0 0x7F a then utf8_valid l
      else match l with
      | [] => false
      | b :: l =>
          if within 0xC2 0xDF a then cont b && utf8_valid l
          else match l with
          | [] => false
          | c :: l =>
              if a =? 0xE0 then within 0xA0 0xBF b && cont c && utf8_valid l
              else if within 0xE1 0xEC a || within 0xEE 0xEF a then cont b && cont c && utf8_valid l
              else if a =? 0xED then within 0x80 0x9F b && cont c && utf8_valid l
              else match l with
              | [] => false
              | d :: l =>
                  if a =? 0xF0 then within 0x90 0xBF b && cont c && cont d && utf8_valid l
                  else if within 0xF1 0xF3 a then cont b && cont c && cont d && utf8_valid l
                  else if a =? 0xF4 then within 0x80 0x8F b && cont c && cont d && utf8_valid l
                  else false
              end
          end
      end
  end.

(** [s.starts_with(p)], [s.contains(p)] *)
Fixpoint starts_with (s p : list Z) : bool :=
  match p, s with
  | [], _ => true
  | x :: p, y :: s => (x =? y) && starts_with s p
  | _ :: _, [] => false
  end.

Fixpoint contains (s p : list Z) : bool :=
  starts_with s p || match s with [] => false | _ :: s => contains s p end.

Definition bytes_eqb (a b : list Z) : bool := bool_decide (a = b).

(** ** Lemmas *)

Lemma slice_app l1 l2 l3 a b :
  a = Z.of_nat (length l1) -> b = a + Z.of_nat (length l2) -> slice (l1 ++ l2 ++ l3) a b = Ret l2.
Proof.
  intros -> ->. unfold slice. rewrite !length_app.
  rewrite (proj2 (Z.leb_le _ _)), (proj2 (Z.leb_le _ _)) by lia. simpl.
  rewrite Nat2Z.id, drop_app_length.
  replace (Z.to_nat _) with (length l2) by lia. by rewrite take_app_length.
Qed.

Lemma slice_ok l a b : 0 <= a -> a <= b -> b <= Z.of_nat (length l) ->
  exists s, slice l a b = Ret s /\ length s = Z.to_nat (b - a).
Proof.
  intros. unfold slice. rewrite (proj2 (Z.leb_le _ _)), (proj2 (Z.leb_le _ _)) by lia. simpl.
  eexists; split; [done|]. rewrite length_take, length_drop. lia.
Qed.

Lemma to_le_len n x : length (to_le n x) = n.
Proof. revert x; induction n; intros; simpl; auto. Qed.

Lemma from_to_le n : forall x, 0 <= x < 256 ^ Z.of_nat n -> from_le (to_le n x) = x.
Proof.
  induction n as [|n IH]; intros x Hx.
  - change (256 ^ Z.of_nat 0) with 1 in Hx. simpl. lia.
  - cbn [to_le from_le]. rewrite IH; [lia|].
    rewrite Nat2Z.inj_succ, Z.pow_succ_r in Hx by lia. split; [lia|].
    apply Z.div_lt_upper_bound; lia.
Qed.

Lemma from_le_bound l : Forall byte_ok l -> 0 <= from_le l < 256 ^ Z.of_nat (length l).
Proof.
  induction 1 as [|b l Hb _ IH]; [simpl; lia|]. cbn [from_le length]. unfold byte_ok in Hb.
  rewrite Nat2Z.inj_succ, Z.pow_succ_r by lia. lia.
Qed.

Lemma from_be_rev l : from_be (rev l) = from_le l.
Proof.
  induction l as [|b l IH]; [done|]. unfold from_be in *. simpl. rewrite foldl_app, IH. simpl. lia.
Qed.

Lemma from_to_be n x : 0 <= x < 256 ^ Z.of_nat n -> from_be (to_be n x) = x.
Proof. intros. unfold to_be. rewrite from_be_rev. by apply from_to_le. Qed.

Lemma to_be_len n x : length (to_be n x) = n.
Proof. unfold to_be. by rewrite length_rev, to_le_len. Qed.

Lemma to_le_ok n x : Forall byte_ok (to_le n x).
Proof. revert x; induction n; intros; simpl; constructor; [unfold byte_ok; lia|auto]. Qed.

Lemma ascii_utf8 l : Forall (fun c => 0 <= c <= 127) l -> utf8_valid l = true.
Proof.
  induction 1 as [|c l Hc _ IH]; [done|]. cbn [utf8_valid]. unfold within at 1.
  by rewrite (proj2 (Z.leb_le _ _)), (proj2 (Z.leb_le _ _)) by lia.
Qed.
