(* ===== verification/Allocator.v ===== *)
(** * The kernel heap (src/src/kernel_allocator)

    [BlockHeader] is the 16-byte header of block_header.rs with its packed
    32-bit fields, [Alloc] the linked-list allocator of allocator.rs.  Heap
    memory is a store from header addresses to headers; a raw-pointer access
    where no header was written is [Fault].  The heap grows through a function
    pointer ([grow_heap_fn]), stated here as the class [HeapGrower].

    The invariant [heap_inv] is the one assert_heap_invariants of tests.rs
    walks the heap for; it is stated over two independent views of the store,
    the physical chain (size, prev, used bit) and the free list (free links),
    so that each field update leaves one of the views alone. *)

From S2P Require Import Prelude.

Definition KERNEL_HEAP_START : Z := 0xffff_ffff_c000_0000.

(** ** Block headers *)

Module Hdr.

Definition BLOCK_HEADER_SIZE : Z := 16.
Definition NULL_OFFSET : Z := 0xffff_fffe.
Definition OFFSET_LOWER_BITS_MASK : Z := andn (U32 - 1) NULL_OFFSET.

Record BlockHeader := mkHeader {
  _size : Z;
  _prev : Z;
  _free_next : Z;
  _free_prev : Z;
}.

Definition heap_start : Z := KERNEL_HEAP_START.

Definition new (size : Z) (used : bool) : BlockHeader :=
  mkHeader (as_u32 size) NULL_OFFSET NULL_OFFSET (Z.lor NULL_OFFSET (if used then 1 else 0)).

(** The methods that use the address of [self] take it as [this]. *)
Definition alloc_area_start (this : Z) : Z := this + BLOCK_HEADER_SIZE.

Definition next (this : Z) (h : BlockHeader) : outcome Z :=
  let! s := uadd this (_size h) in uadd s BLOCK_HEADER_SIZE.

Definition from_offset (offset : Z) : outcome Z :=
  if offset =? NULL_OFFSET then Ret 0 else uadd heap_start offset.

Definition to_offset (pointer : Z) : outcome Z :=
  if pointer =? 0 then Ret NULL_OFFSET
  else let! d := usub pointer heap_start in Ret (as_u32 d).

Definition prev (h : BlockHeader) : outcome Z := from_offset (_prev h).

Definition set_prev (p : Z) (h : BlockHeader) : outcome BlockHeader :=
  let! o := to_offset p in
  Ret (mkHeader (_size h) o (_free_next h) (_free_prev h)).

Definition free_next (h : BlockHeader) : outcome Z := from_offset (_free_next h).

Definition set_free_next (p : Z) (h : BlockHeader) : outcome BlockHeader :=
  let! o := to_offset p in
  Ret (mkHeader (_size h) (_prev h) o (_free_prev h)).

Definition free_prev (h : BlockHeader) : outcome Z :=
  let o := Z.land (_free_prev h) NULL_OFFSET in
  if o =? NULL_OFFSET then Ret 0 else uadd heap_start o.

Definition set_free_prev (p : Z) (h : BlockHeader) : outcome BlockHeader :=
  let low := Z.land (_free_prev h) OFFSET_LOWER_BITS_MASK in
  if p =? 0 then Ret (mkHeader (_size h) (_prev h) (_free_next h) (Z.lor low NULL_OFFSET))
  else let! d := usub p heap_start in
       Ret (mkHeader (_size h) (_prev h) (_free_next h) (Z.lor low (as_u32 d))).

Definition size (h : BlockHeader) : Z := _size h.

Definition set_size (s : Z) (h : BlockHeader) : outcome BlockHeader :=
  Ret (mkHeader (as_u32 s) (_prev h) (_free_next h) (_free_prev h)).

Definition add_size (s : Z) (h : BlockHeader) : outcome BlockHeader :=
  let! n := u32_add (_size h) (as_u32 s) in
  Ret (mkHeader n (_prev h) (_free_next h) (_free_prev h)).

Definition is_used (h : BlockHeader) : bool := negb (Z.land (_free_prev h) 1 =? 0).
Definition is_free (h : BlockHeader) : bool := Z.land (_free_prev h) 1 =? 0.

Definition set_used (h : BlockHeader) : outcome BlockHeader :=
  Ret (mkHeader (_size h) (_prev h) (_free_next h) (Z.lor (_free_prev h) 1)).

Definition set_free (h : BlockHeader) : outcome BlockHeader :=
  Ret (mkHeader (_size h) (_prev h) (_free_next h) (andn (_free_prev h) 1)).

Definition end_ptr (this : Z) (h : BlockHeader) : outcome Z :=
  let! s := uadd this BLOCK_HEADER_SIZE in uadd s (_size h).

End Hdr.

(** ** Growing the heap

    What the allocator relies on when it calls [grow_heap_fn]: the new memory
    starts where the heap ends, is at least as large as asked, and is a whole
    number of 4 KiB pages. *)
Class HeapGrower (W : Type) := {
  grow_heap_fn : W -> Z -> outcome (option (Z * Z) * W);
  heap_break : W -> Z;
  grow_some : forall w n w' new_heap actual, 0 < n <= USIZE / 2 + 64 ->
    grow_heap_fn w n = Ret (Some (new_heap, actual), w') ->
    new_heap = heap_break w /\ heap_break w' = new_heap + actual /\ actual mod 4096 = 0 /\
    n <= actual < n + 4096 /\ new_heap + actual < USIZE;
  grow_none : forall w n w',
    grow_heap_fn w n = Ret (None, w') -> heap_break w' = heap_break w;
}.

(** A concrete grower, for the examples: it hands out whole pages from a break
    that only moves up, and mirrors the address arithmetic of
    [grow_kernel_heap]. *)
Definition page_grow (w n : Z) : outcome (option (Z * Z) * Z) :=
  let actual := align_up_to n 4096 in
  if w + actual <? USIZE then Ret (Some (w, actual), w + actual) else Ret (None, w).

#[export, refine] Instance page_grower : HeapGrower Z :=
  {| grow_heap_fn := page_grow; heap_break := id |}.
Proof.
  - intros w n w' a b Hn. unfold page_grow. change 4096 with (2 ^ 12).
    pose proof (align_up_to_ge n 12 ltac:(lia)). pose proof (align_up_to_mod n 12 ltac:(lia)).
    zcases; intros [= <- <- <-]. unfold id. lia.
  - intros w n w'. unfold page_grow. zcases; intros [=]; auto.
Defined.
#[global] Remove Hints page_grower : typeclass_instances.

Module Alloc.
Import Hdr.

Definition MIN_ALLOC_SIZE : Z := 16.
Definition MIN_BLOCK_SIZE : Z := BLOCK_HEADER_SIZE + MIN_ALLOC_SIZE.

(** [LinkedListAllocator] and the memory its pointers reach; 0 is null. *)
Record heap := mkHeap {
  hdrs : gmap Z BlockHeader;
  head : Z;
  tail : Z;
  heap_end : Z;
  free_head : Z;
}.

(** [core::alloc::Layout] *)
Record Layout := mkLayout { lsize : Z; lalign : Z }.

Definition fresh : heap := mkHeap ∅ 0 0 0 0.

(** [*this = b] *)
Definition put (h : heap) (this : Z) (b : BlockHeader) : heap :=
  mkHeap (<[this := b]> (hdrs h)) (head h) (tail h) (heap_end h) (free_head h).

(** A method call [( *this ).f()] that reads, and one that writes. *)
Definition rd (h : heap) (this : Z) : outcome BlockHeader := deref (hdrs h !! this).
Definition wr (h : heap) (this : Z) (f : BlockHeader -> outcome BlockHeader) : outcome heap :=
  let! b := rd h this in
  let! b := f b in
  Ret (put h this b).

Definition with_tail (h : heap) (p : Z) : heap :=
  mkHeap (hdrs h) (head h) p (heap_end h) (free_head h).
Definition with_heap_end (h : heap) (p : Z) : heap :=
  mkHeap (hdrs h) (head h) (tail h) p (free_head h).
Definition with_free_head (h : heap) (p : Z) : heap :=
  mkHeap (hdrs h) (head h) (tail h) (heap_end h) p.

Definition align_up (addr align : Z) : outcome Z :=
  let! s := uadd addr align in
  let! s := usub s 1 in
  let! m := usub align 1 in
  Ret (andn s m).

Definition init (h : heap) (heap_start heap_size : Z) : outcome heap :=
  let this := heap_start in
  let! sz := usub heap_size BLOCK_HEADER_SIZE in
  let! e := uadd heap_start heap_size in
  let h := put h this (new sz false) in
  Ret (mkHeap (hdrs h) this this e this).

Definition insert_free_block (h : heap) (this : Z) : outcome heap :=
  let! h := wr h this (set_free_next (free_head h)) in
  let! h := wr h this (set_free_prev 0) in
  let! h := (if free_head h =? 0 then Ret h
             else wr h (free_head h) (set_free_prev this)) in
  Ret (with_free_head h this).

Definition remove_free_block (h : heap) (this : Z) : outcome heap :=
  let! b := rd h this in
  let! fp := free_prev b in
  let! fn := free_next b in
  let! h := (if fp =? 0 then Ret (with_free_head h fn)
             else wr h fp (set_free_next fn)) in
  let! b := rd h this in
  let! fn := free_next b in
  let! fp := free_prev b in
  let! h := (if fn =? 0 then Ret h else wr h fn (set_free_prev fp)) in
  let! h := wr h this (set_free_next 0) in
  wr h this (set_free_prev 0).

Definition append_to_list (h : heap) (this : Z) : outcome heap :=
  let last := tail h in
  let! h := wr h this (set_prev last) in
  Ret (with_tail h this).

Definition insert_after (h : heap) (this new_block : Z) : outcome heap :=
  let! b := rd h this in
  let! nx := next this b in
  let! h := (if this =? tail h then Ret (with_tail h new_block)
             else wr h nx (set_prev new_block)) in
  wr h new_block (set_prev this).

Definition remove_from_list (h : heap) (this : Z) : outcome heap :=
  let! b := rd h this in
  let! nx := next this b in
  let! pv := prev b in
  let! _ := oassert (negb (pv =? 0)) in
  if this =? tail h then Ret (with_tail h pv) else wr h nx (set_prev pv).

(** The [while] loop of [check_aligned_fit]; [fuel] bounds its iterations. *)
Fixpoint aligned_loop (fuel : nat) (block alloc_size align end_ aligned : Z) : outcome (option Z) :=
  match fuel with
  | O => Fault
  | S fuel =>
      let! a := uadd aligned alloc_size in
      let! a := align_up a 8 in
      let! a := uadd a BLOCK_HEADER_SIZE in
      if a <=? end_ then
        let! header := usub aligned BLOCK_HEADER_SIZE in
        let! padding := usub header block in
        if (padding =? 0) || (MIN_BLOCK_SIZE <=? padding) then Ret (Some header)
        else let! aligned := uadd aligned align in
             aligned_loop fuel block alloc_size align end_ aligned
      else Ret None
  end.

(** At most [(end - aligned) / align + 1] iterations find the guard true. *)
Definition aligned_fuel (end_ aligned align : Z) : nat := Z.to_nat ((end_ - aligned) / align + 2).

Definition check_aligned_fit (h : heap) (block alloc_size align : Z) : outcome (option Z) :=
  let! b := rd h block in
  let start := alloc_area_start block in
  let! end_ := end_ptr block b in
  let! aligned := align_up start align in
  aligned_loop (aligned_fuel end_ aligned align) block alloc_size align end_ aligned.

(** The two [while] loops over the free list.  A free list longer than the
    number of headers is cyclic, and the walk would not end. *)
Fixpoint first_fit (fuel : nat) (h : heap) (total_needed current_free : Z)
  : outcome (option (Z * Z)) :=
  if current_free =? 0 then Ret None else
  match fuel with
  | O => Fault
  | S fuel =>
      let! b := rd h current_free in
      if total_needed <=? size b then Ret (Some (current_free, current_free))
      else let! nx := free_next b in first_fit fuel h total_needed nx
  end.

Fixpoint first_aligned_fit (fuel : nat) (h : heap) (sz align current_free : Z)
  : outcome (option (Z * Z)) :=
  if current_free =? 0 then Ret None else
  match fuel with
  | O => Fault
  | S fuel =>
      let! r := check_aligned_fit h current_free sz align in
      match r with
      | Some aligned_location => Ret (Some (current_free, aligned_location))
      | None =>
          let! b := rd h current_free in
          let! nx := free_next b in
          first_aligned_fit fuel h sz align nx
      end
  end.

Section Grow.
Context {W : Type} `{HeapGrower W}.

Definition find_fit (h : heap) (w : W) (layout : Layout)
  : outcome (option (Z * Z) * heap * W) :=
  let! total_needed := align_up (lsize layout) 8 in
  let size := lsize layout in
  let align := lalign layout in
  let fuel := base.size (hdrs h) in
  let! found := (if align <=? 8 then first_fit fuel h total_needed (free_head h)
                 else first_aligned_fit fuel h size align (free_head h)) in
  match found with
  | Some r => Ret (Some r, h, w)
  | None =>
      let! n := uadd BLOCK_HEADER_SIZE align in
      let! n := uadd n size in
      let new_heap_size := Z.max n 4096 in
      let! ' (grown, w) := grow_heap_fn w new_heap_size in
      match grown with
      | None => Ret (None, h, w)
      | Some (new_heap, actual_size) =>
          let! e := uadd new_heap actual_size in
          let h := with_heap_end h e in
          let last := tail h in
          let! bl := rd h last in
          if is_free bl then
            let! h := wr h last (add_size actual_size) in
            let! r := check_aligned_fit h last size align in
            let! aligned_location := expect r in
            Ret (Some (last, aligned_location), h, w)
          else
            let this := new_heap in
            let! sz := usub actual_size BLOCK_HEADER_SIZE in
            let h := put h this (new sz false) in
            let! h := insert_free_block h this in
            let! h := append_to_list h this in
            let! r := check_aligned_fit h this size align in
            let! aligned_location := expect r in
            Ret (Some (this, aligned_location), h, w)
      end
  end.

(** [split_block] when the block itself is aligned. *)
Definition split_two (h : heap) (this : Z) (layout : Layout) : outcome (Z * heap) :=
  let! total_needed := align_up (Z.max (lsize layout) MIN_ALLOC_SIZE) 8 in
  let! b := rd h this in
  let! excess := usub (size b) total_needed in
  let! h := (if MIN_BLOCK_SIZE <=? excess then
               let new_block := alloc_area_start this + total_needed in
               let! sz := usub excess BLOCK_HEADER_SIZE in
               let h := put h new_block (new sz false) in
               let! h := insert_free_block h new_block in
               let! h := insert_after h this new_block in
               wr h this (set_size total_needed)
             else Ret h) in
  let! h := remove_free_block h this in
  let! h := wr h this set_used in
  Ret (alloc_area_start this, h).

(** [split_block] when padding precedes the aligned block. *)
Definition split_three (h : heap) (this aligned_block : Z) (layout : Layout)
  : outcome (Z * heap) :=
  let! b := rd h this in
  let this_size := size b in
  let! preceding_size := usub aligned_block (alloc_area_start this) in
  let! asz := align_up (lsize layout) 8 in
  let! msz := usub MIN_BLOCK_SIZE BLOCK_HEADER_SIZE in
  let aligned_block_size := Z.max asz msz in
  let! ps := uadd preceding_size BLOCK_HEADER_SIZE in
  let! e := usub this_size ps in
  let! bs := uadd aligned_block_size BLOCK_HEADER_SIZE in
  let! excess := usub e bs in
  let! h := wr h this (set_size preceding_size) in
  let h := put h aligned_block (new aligned_block_size true) in
  let! h := insert_after h this aligned_block in
  let! h := (if MIN_ALLOC_SIZE <=? excess then
               let! ab := rd h aligned_block in
               let! new_block_addr := end_ptr aligned_block ab in
               let h := put h new_block_addr (new excess false) in
               let! h := insert_free_block h new_block_addr in
               insert_after h aligned_block new_block_addr
             else Ret h) in
  Ret (alloc_area_start aligned_block, h).

Definition split_block (h : heap) (this aligned_block : Z) (layout : Layout)
  : outcome (Z * heap) :=
  if this =? aligned_block then split_two h this layout
  else split_three h this aligned_block layout.

Definition alloc (h : heap) (w : W) (layout : Layout) : outcome (Z * heap * W) :=
  let! ' (fit, h, w) := find_fit h w layout in
  match fit with
  | Some (block, aligned_block) =>
      let! ' (p, h) := split_block h block aligned_block layout in
      Ret (p, h, w)
  | None => Ret (0, h, w)
  end.

Definition dealloc_and_coalesce (h : heap) (ptr : Z) : outcome heap :=
  let! block_ptr := usub ptr BLOCK_HEADER_SIZE in
  let! h := wr h block_ptr set_free in
  let! b := rd h block_ptr in
  let! nx := next block_ptr b in
  let! merge_next := (if block_ptr =? tail h then Ret false
                      else let! bn := rd h nx in Ret (is_free bn)) in
  let! h := (if merge_next : bool then
               let! bn := rd h nx in
               let! s := uadd BLOCK_HEADER_SIZE (size bn) in
               let! h := wr h block_ptr (add_size s) in
               let! h := remove_free_block h nx in
               remove_from_list h nx
             else Ret h) in
  let! b := rd h block_ptr in
  let! pv := prev b in
  let! merge_prev := (if pv =? 0 then Ret false
                      else let! bp := rd h pv in Ret (is_free bp)) in
  if merge_prev : bool then
    let! h := remove_from_list h block_ptr in
    let! b := rd h block_ptr in
    let! s := uadd BLOCK_HEADER_SIZE (size b) in
    wr h pv (add_size s)
  else insert_free_block h block_ptr.

Definition dealloc (h : heap) (ptr : Z) (_layout : Layout) : outcome heap :=
  if ptr =? 0 then Ret h else dealloc_and_coalesce h ptr.

End Grow.

(** A client: a sequence of requests against a fresh heap. *)
Inductive request := RAlloc (size align : Z) | RFree (n : nat).

(** Runs the requests, numbering the allocations in order; the result is the
    list of all pointers handed out and the final state. *)
Fixpoint client {W} `{HeapGrower W} (rs : list request) (ps : list Z) (h : heap) (w : W)
  : outcome (list Z * heap * W) :=
  match rs with
  | [] => Ret (ps, h, w)
  | RAlloc s a :: rs =>
      let! ' (p, h, w) := alloc h w (mkLayout s a) in client rs (ps ++ [p]) h w
  | RFree n :: rs =>
      let! p := expect (ps !! n) in
      let! h := dealloc h p (mkLayout 0 1) in client rs ps h w
  end.

Definition KERNEL_HEAP_SIZE : Z := 4 * 4096.

End Alloc.
