(* ===== verification/AllocatorInv.v ===== *)
(** * Correctness of the kernel heap

    The heap invariant, the specification of every list operation of
    allocator.rs against it, and the contract of [alloc] and [dealloc].  A heap
    is viewed as a chain of blocks that tiles the heap exactly and a doubly
    linked list of its free blocks. *)

From S2P Require Import Prelude Allocator.
Import Hdr Alloc.

(** ** Packed header fields *)

Definition KHS := KERNEL_HEAP_START.

Lemma KHS_eq : KHS = USIZE - 2 ^ 30.
Proof. done. Qed.

(** A pointer the packed offsets can represent: null, or an 8-aligned address
    of the heap's window. *)
Definition ptr_ok (p : Z) : Prop := p = 0 \/ (KHS <= p < USIZE /\ p mod 8 = 0).

Definition off_of (p : Z) : Z := if p =? 0 then NULL_OFFSET else p - KHS.

Definition hdr_wf (b : BlockHeader) : Prop := 0 <= _free_prev b < U32 /\ 0 <= _size b.

(** The two views of a header. *)
Definition phys (b : BlockHeader) : Z * Z * bool := (_size b, _prev b, is_used b).
Definition links (b : BlockHeader) : Z * Z := (_free_next b, Z.land (_free_prev b) NULL_OFFSET).

Lemma land_null x : 0 <= x < U32 -> Z.land x NULL_OFFSET = x - x mod 2.
Proof.
  intros Hx. assert (Z.land x NULL_OFFSET = Z.ldiff x 1) as ->.
  { replace x with (Z.land x (Z.ones 32)) at 2
      by (rewrite Z.land_ones by lia; apply Z.mod_small; unfold U32 in *; lia).
    change NULL_OFFSET with (Z.ldiff (Z.ones 32) 1).
    apply Z.bits_inj'. intros n Hn. rewrite !Z.land_spec, !Z.ldiff_spec, Z.land_spec.
    by rewrite andb_assoc. }
  change 1 with (2 ^ 1 - 1). fold (andn x (2 ^ 1 - 1)). rewrite andn_ones by lia.
  change (2 ^ 1) with 2. pose proof (Z.div_mod x 2 ltac:(lia)). lia.
Qed.

Lemma land_1 x : Z.land x 1 = x mod 2.
Proof. change 1 with (Z.ones 1). by rewrite Z.land_ones by lia. Qed.

Lemma lor_1_even x : x mod 2 = 0 -> Z.lor x 1 = x + 1.
Proof.
  intros Hx. apply Z.mod_divide in Hx as [k ->]; [|lia]. rewrite Z.mul_comm.
  by destruct k as [|[]|[]].
Qed.

Lemma lor_bit b x : x mod 2 = 0 -> b = 0 \/ b = 1 -> Z.lor b x = x + b.
Proof.
  intros Hx [->| ->]; [by rewrite Z.lor_0_l, Z.add_0_r|].
  rewrite Z.lor_comm. by apply lor_1_even.
Qed.

Lemma andn_1 x : andn x 1 = x - x mod 2.
Proof.
  change 1 with (2 ^ 1 - 1). rewrite andn_ones by lia.
  change (2 ^ 1) with 2. pose proof (Z.div_mod x 2 ltac:(lia)). lia.
Qed.

Lemma off_of_range p : ptr_ok p -> 0 <= off_of p < U32 /\ off_of p mod 2 = 0 /\
  (off_of p = NULL_OFFSET <-> p = 0).
Proof.
  unfold off_of, ptr_ok, NULL_OFFSET, U32. rewrite KHS_eq. unfold USIZE.
  intros [->|[? ?]]; [done|]. zcases; split_and!; lia.
Qed.

Lemma to_offset_ok p : ptr_ok p -> to_offset p = Ret (off_of p).
Proof.
  intros Hp. destruct (off_of_range p Hp) as (Hr & _ & _).
  unfold to_offset, off_of in *. zcases; [done|]. fold KHS in *.
  change heap_start with KHS. destruct Hp as [?|[? _]]; [lia|].
  rewrite usub_ok by lia. cbn [obind]. by rewrite as_u32_small by lia.
Qed.

Lemma from_offset_ok p : ptr_ok p -> from_offset (off_of p) = Ret p.
Proof.
  intros Hp. destruct (off_of_range p Hp) as (_ & _ & Hn).
  unfold from_offset. destruct (Z.eqb_spec (off_of p) NULL_OFFSET) as [E|E].
  - apply Hn in E as ->. done.
  - unfold off_of in *. zcases; [done|]. change heap_start with KHS.
    destruct Hp as [?|[? _]]; [lia|]. rewrite uadd_ok by lia. f_equal. lia.
Qed.

Lemma is_used_mod b : is_used b = (_free_prev b mod 2 =? 1).
Proof.
  unfold is_used. rewrite land_1. pose proof (Z.mod_pos_bound (_free_prev b) 2 ltac:(lia)).
  zcases; simpl; lia || done.
Qed.

Lemma is_free_used b : is_free b = negb (is_used b).
Proof. unfold is_free, is_used. by rewrite negb_involutive. Qed.

(** Each setter changes one component of one view. *)
Lemma set_prev_ok p b : ptr_ok p -> hdr_wf b ->
  exists b', set_prev p b = Ret b' /\ phys b' = (_size b, off_of p, is_used b) /\
    links b' = links b /\ hdr_wf b'.
Proof. intros Hp Hw. unfold set_prev. rewrite to_offset_ok by done. eexists; split_and!; done. Qed.

Lemma set_free_next_ok p b : ptr_ok p -> hdr_wf b ->
  exists b', set_free_next p b = Ret b' /\ phys b' = phys b /\
    links b' = (off_of p, (links b).2) /\ hdr_wf b'.
Proof. intros Hp Hw. unfold set_free_next. rewrite to_offset_ok by done. eexists; split_and!; done. Qed.

Lemma set_free_prev_ok p b : ptr_ok p -> hdr_wf b ->
  exists b', set_free_prev p b = Ret b' /\ phys b' = phys b /\
    links b' = ((links b).1, off_of p) /\ hdr_wf b'.
Proof.
  intros Hp [Hw Hs]. destruct (off_of_range p Hp) as (Hr & He & _).
  assert (Hset : set_free_prev p b = Ret (mkHeader (_size b) (_prev b) (_free_next b)
    (off_of p + _free_prev b mod 2))).
  { unfold set_free_prev. change OFFSET_LOWER_BITS_MASK with 1. rewrite land_1.
    pose proof (Z.mod_pos_bound (_free_prev b) 2 ltac:(lia)).
    pose proof (to_offset_ok p Hp) as Ht. unfold to_offset in Ht.
    destruct (p =? 0); [|destruct (usub p heap_start); try done; cbn [obind] in *];
      injection Ht as ->; rewrite lor_bit by (done || lia); done. }
  eexists; split; [exact Hset|].
  assert (Hm : (off_of p + _free_prev b mod 2) mod 2 = _free_prev b mod 2) by lia.
  assert (Hb : 0 <= off_of p + _free_prev b mod 2 < U32) by (unfold U32 in *; lia).
  unfold phys, links, hdr_wf. rewrite !is_used_mod. simpl. rewrite Hm, land_null by done.
  split_and!; try done; [f_equal; lia|lia|lia].
Qed.

Lemma set_used_ok b : hdr_wf b -> is_used b = false ->
  exists b', set_used b = Ret b' /\ phys b' = (_size b, _prev b, true) /\
    links b' = links b /\ hdr_wf b'.
Proof.
  intros [Hw Hs]. rewrite is_used_mod. intros Hu. unfold set_used.
  assert (_free_prev b mod 2 = 0) as He by (pose proof (Z.mod_pos_bound (_free_prev b) 2); zcases; lia).
  rewrite lor_1_even by done. eexists; split; [done|].
  unfold phys, links, hdr_wf. rewrite is_used_mod. simpl.
  assert ((_free_prev b + 1) mod 2 = 1) as -> by lia.
  assert (_free_prev b + 1 < U32) by (unfold U32 in *; lia).
  rewrite !land_null by lia. split_and!; try done; try lia. f_equal. lia.
Qed.

Lemma set_free_ok b : hdr_wf b ->
  exists b', set_free b = Ret b' /\ phys b' = (_size b, _prev b, false) /\
    links b' = links b /\ hdr_wf b'.
Proof.
  intros [Hw Hs]. unfold set_free. rewrite andn_1. eexists; split; [done|].
  unfold phys, links, hdr_wf. rewrite is_used_mod. simpl.
  assert ((_free_prev b - _free_prev b mod 2) mod 2 = 0) as E by lia. rewrite E.
  rewrite !land_null by lia. split_and!; try done; try lia. f_equal. lia.
Qed.

(** ** Views of the heap *)

Notation pmap := (gmap Z (Z * Z * bool)).
Notation lmap := (gmap Z (Z * Z)).

Record view (h : heap) (P : pmap) (L : lmap) (hd tl he fh : Z) : Prop := {
  view_phys : phys <$> hdrs h = P;
  view_links : links <$> hdrs h = L;
  view_wf : map_Forall (fun _ => hdr_wf) (hdrs h);
  view_head : head h = hd;
  view_tail : tail h = tl;
  view_end : heap_end h = he;
  view_free : free_head h = fh;
}.

Lemma view_rd h P L hd tl he fh a s p u :
  view h P L hd tl he fh -> P !! a = Some (s, p, u) ->
  exists b, rd h a = Ret b /\ hdrs h !! a = Some b /\ _size b = s /\ _prev b = p /\ is_used b = u /\
    L !! a = Some (links b) /\ hdr_wf b.
Proof.
  intros V HP. rewrite <- (view_phys _ _ _ _ _ _ _ V), lookup_fmap in HP.
  destruct (hdrs h !! a) as [b|] eqn:E; [|done]. injection HP as <- <- <-.
  exists b. unfold rd. rewrite E. split_and!; try done.
  - by rewrite <- (view_links _ _ _ _ _ _ _ V), lookup_fmap, E.
  - exact (view_wf _ _ _ _ _ _ _ V _ _ E).
Qed.

Lemma view_rd_links h P L hd tl he fh a n p :
  view h P L hd tl he fh -> L !! a = Some (n, p) ->
  exists b, rd h a = Ret b /\ hdrs h !! a = Some b /\ links b = (n, p) /\ hdr_wf b.
Proof.
  intros V HL. rewrite <- (view_links _ _ _ _ _ _ _ V), lookup_fmap in HL.
  destruct (hdrs h !! a) as [b|] eqn:E; [|done]. injection HL as <- <-.
  exists b. unfold rd. rewrite E. split_and!; try done. exact (view_wf _ _ _ _ _ _ _ V _ _ E).
Qed.

Lemma view_put h P L hd tl he fh a b :
  view h P L hd tl he fh -> hdr_wf b ->
  view (put h a b) (<[a := phys b]> P) (<[a := links b]> L) hd tl he fh.
Proof.
  intros [<- <- Hw ? ? ? ?] Hb. split; try done.
  - apply fmap_insert.
  - apply fmap_insert.
  - by apply map_Forall_insert_2.
Qed.

Lemma view_with_tail h P L hd tl he fh t :
  view h P L hd tl he fh -> view (with_tail h t) P L hd t he fh.
Proof. by intros []. Qed.
Lemma view_with_free_head h P L hd tl he fh f :
  view h P L hd tl he fh -> view (with_free_head h f) P L hd tl he f.
Proof. by intros []. Qed.
Lemma view_with_heap_end h P L hd tl he fh e :
  view h P L hd tl he fh -> view (with_heap_end h e) P L hd tl e fh.
Proof. by intros []. Qed.

(** A method that changes the physical view only, and one that changes the
    links only. *)
Lemma wr_phys h P L hd tl he fh a f q b :
  view h P L hd tl he fh -> hdrs h !! a = Some b ->
  (exists b', f b = Ret b' /\ phys b' = q /\ links b' = links b /\ hdr_wf b') ->
  exists h', wr h a f = Ret h' /\ view h' (<[a := q]> P) L hd tl he fh.
Proof.
  intros V Ha (b' & Hf & Hq & Hl & Hw). unfold wr, rd. rewrite Ha. simpl. rewrite Hf. simpl.
  eexists; split; [done|]. pose proof (view_put _ _ _ _ _ _ _ a b' V Hw) as V'.
  rewrite Hq, Hl, (insert_id L) in V'; [done|].
  by rewrite <- (view_links _ _ _ _ _ _ _ V), lookup_fmap, Ha.
Qed.

Lemma wr_links h P L hd tl he fh a f q b :
  view h P L hd tl he fh -> hdrs h !! a = Some b ->
  (exists b', f b = Ret b' /\ phys b' = phys b /\ links b' = q /\ hdr_wf b') ->
  exists h', wr h a f = Ret h' /\ view h' P (<[a := q]> L) hd tl he fh.
Proof.
  intros V Ha (b' & Hf & Hp & Hq & Hw). unfold wr, rd. rewrite Ha. simpl. rewrite Hf. simpl.
  eexists; split; [done|]. pose proof (view_put _ _ _ _ _ _ _ a b' V Hw) as V'.
  rewrite Hq, Hp, (insert_id P) in V'; [done|].
  by rewrite <- (view_phys _ _ _ _ _ _ _ V), lookup_fmap, Ha.
Qed.

Lemma wr_set_prev h P L hd tl he fh a p s pv u :
  view h P L hd tl he fh -> P !! a = Some (s, pv, u) -> ptr_ok p ->
  exists h', wr h a (set_prev p) = Ret h' /\ view h' (<[a := (s, off_of p, u)]> P) L hd tl he fh.
Proof.
  intros V HP Hp. destruct (view_rd _ _ _ _ _ _ _ _ _ _ _ V HP) as (b & _ & Hb & <- & _ & <- & _ & Hw).
  eapply wr_phys; [done..|by apply set_prev_ok].
Qed.

Lemma wr_set_size h P L hd tl he fh a n s pv u :
  view h P L hd tl he fh -> P !! a = Some (s, pv, u) -> 0 <= n < U32 ->
  exists h', wr h a (set_size n) = Ret h' /\ view h' (<[a := (n, pv, u)]> P) L hd tl he fh.
Proof.
  intros V HP Hn. destruct (view_rd _ _ _ _ _ _ _ _ _ _ _ V HP) as (b & _ & Hb & <- & <- & <- & _ & Hw).
  eapply wr_phys; [done..|]. unfold set_size. rewrite as_u32_small by done.
  eexists; split_and!; try done. destruct Hw. split; simpl; lia.
Qed.

Lemma wr_add_size h P L hd tl he fh a n s pv u :
  view h P L hd tl he fh -> P !! a = Some (s, pv, u) -> 0 <= n < U32 -> 0 <= s -> s + n < U32 ->
  exists h', wr h a (add_size n) = Ret h' /\ view h' (<[a := (s + n, pv, u)]> P) L hd tl he fh.
Proof.
  intros V HP Hn Hs Hsn.
  destruct (view_rd _ _ _ _ _ _ _ _ _ _ _ V HP) as (b & _ & Hb & <- & <- & <- & _ & Hw).
  eapply wr_phys; [done..|]. unfold add_size. rewrite as_u32_small, u32_add_ok by lia.
  eexists; split_and!; try done. destruct Hw. split; simpl; lia.
Qed.

Lemma wr_set_free h P L hd tl he fh a s pv u :
  view h P L hd tl he fh -> P !! a = Some (s, pv, u) ->
  exists h', wr h a set_free = Ret h' /\ view h' (<[a := (s, pv, false)]> P) L hd tl he fh.
Proof.
  intros V HP. destruct (view_rd _ _ _ _ _ _ _ _ _ _ _ V HP) as (b & _ & Hb & <- & <- & <- & _ & Hw).
  eapply wr_phys; [done..|by apply set_free_ok].
Qed.

Lemma wr_set_used h P L hd tl he fh a s pv :
  view h P L hd tl he fh -> P !! a = Some (s, pv, false) ->
  exists h', wr h a set_used = Ret h' /\ view h' (<[a := (s, pv, true)]> P) L hd tl he fh.
Proof.
  intros V HP. destruct (view_rd _ _ _ _ _ _ _ _ _ _ _ V HP) as (b & _ & Hb & <- & <- & Hu & _ & Hw).
  eapply wr_phys; [done..|by apply set_used_ok].
Qed.

Lemma wr_set_free_next h P L hd tl he fh a p fn fp :
  view h P L hd tl he fh -> L !! a = Some (fn, fp) -> ptr_ok p ->
  exists h', wr h a (set_free_next p) = Ret h' /\ view h' P (<[a := (off_of p, fp)]> L) hd tl he fh.
Proof.
  intros V HL Hp. destruct (view_rd_links _ _ _ _ _ _ _ _ _ _ V HL) as (b & _ & Hb & Hl & Hw).
  eapply wr_links; [done..|]. destruct (set_free_next_ok p b Hp Hw) as (b' & ? & ? & Hl' & ?).
  rewrite Hl in Hl'. eauto.
Qed.

Lemma wr_set_free_prev h P L hd tl he fh a p fn fp :
  view h P L hd tl he fh -> L !! a = Some (fn, fp) -> ptr_ok p ->
  exists h', wr h a (set_free_prev p) = Ret h' /\ view h' P (<[a := (fn, off_of p)]> L) hd tl he fh.
Proof.
  intros V HL Hp. destruct (view_rd_links _ _ _ _ _ _ _ _ _ _ V HL) as (b & _ & Hb & Hl & Hw).
  eapply wr_links; [done..|]. destruct (set_free_prev_ok p b Hp Hw) as (b' & ? & ? & Hl' & ?).
  rewrite Hl in Hl'. eauto.
Qed.

(** ** The free list *)

Definition hd_or (d : Z) (l : list Z) : Z := default d (list.head l).
Definition last_or (d : Z) (l : list Z) : Z := default d (last l).

(** A doubly linked segment between the pointers [prev] and [nxt]. *)
Fixpoint fseg (L : lmap) (prev : Z) (fl : list Z) (nxt : Z) : Prop :=
  match fl with
  | [] => True
  | a :: fl => L !! a = Some (off_of (hd_or nxt fl), off_of prev) /\ fseg L a fl nxt
  end.

Definition heap_ptr (p : Z) : Prop := KHS <= p < USIZE /\ p mod 8 = 0.

Lemma heap_ptr_ok p : heap_ptr p -> ptr_ok p /\ p <> 0.
Proof. intros [? ?]. split; [by right|]. rewrite KHS_eq in *. unfold USIZE in *. lia. Qed.

Lemma hd_or_ok fl : Forall heap_ptr fl -> ptr_ok (hd_or 0 fl) /\ (hd_or 0 fl = 0 <-> fl = []).
Proof.
  intros [|a l Ha _]; [by split; [left|]|]. destruct (heap_ptr_ok a Ha). split; [done|].
  unfold hd_or. simpl. done.
Qed.

Lemma fseg_frame L L' prev fl nxt :
  (forall a, a ∈ fl -> L' !! a = L !! a) -> fseg L prev fl nxt -> fseg L' prev fl nxt.
Proof.
  revert prev. induction fl as [|a fl IH]; intros prev Hf; [done|]. simpl. intros [H1 H2].
  split; [rewrite Hf by set_solver; done|]. apply IH; [|done]. intros; apply Hf; set_solver.
Qed.

Lemma hd_or_app d l1 l2 : hd_or d (l1 ++ l2) = hd_or (hd_or d l2) l1.
Proof. by destruct l1. Qed.
Lemma last_or_cons d a l : last_or d (a :: l) = last_or a l.
Proof. unfold last_or. rewrite last_cons. by destruct (last l). Qed.
Lemma last_or_snoc d l a : last_or d (l ++ [a]) = a.
Proof. unfold last_or. by rewrite last_snoc. Qed.

Lemma fseg_app L prev l1 l2 nxt :
  fseg L prev (l1 ++ l2) nxt <->
  fseg L prev l1 (hd_or nxt l2) /\ fseg L (last_or prev l1) l2 nxt.
Proof.
  revert prev. induction l1 as [|a l1 IH]; intros prev; simpl; [tauto|].
  rewrite IH, hd_or_app, last_or_cons. tauto.
Qed.

(** Redirecting the outgoing link of the last element, and the incoming link
    of the first. *)
Lemma fseg_relink_last L prev l b nxt nxt' q :
  b ∉ l -> fseg L prev (l ++ [b]) nxt -> L !! b = Some q ->
  fseg (<[b := (off_of nxt', q.2)]> L) prev (l ++ [b]) nxt'.
Proof.
  intros Hb. rewrite !fseg_app. intros [H1 [H2 _]] Hq. split; [|split; [|done]].
  - eapply fseg_frame; [|exact H1]. intros a Ha. apply lookup_insert_ne. set_solver.
  - simpl in *. rewrite lookup_insert_eq. rewrite Hq in H2. by injection H2 as ->.
Qed.

Lemma fseg_relink_first L prev prev' c l nxt q :
  c ∉ l -> fseg L prev (c :: l) nxt -> L !! c = Some q ->
  fseg (<[c := (q.1, off_of prev')]> L) prev' (c :: l) nxt.
Proof.
  intros Hc [H1 H2] Hq. split.
  - rewrite lookup_insert_eq. rewrite Hq in H1. by injection H1 as ->.
  - eapply fseg_frame; [|exact H2]. intros a Ha. apply lookup_insert_ne. set_solver.
Qed.

Lemma fseg_lookup L prev l1 a l2 nxt :
  fseg L prev (l1 ++ a :: l2) nxt -> L !! a = Some (off_of (hd_or nxt l2), off_of (last_or prev l1)).
Proof. rewrite fseg_app. by intros [_ [? _]]. Qed.

(** A free list as the allocator holds it. *)
Definition free_list (L : lmap) (fh : Z) (fl : list Z) : Prop :=
  fseg L 0 fl 0 /\ fh = hd_or 0 fl /\ NoDup fl /\ Forall heap_ptr fl.

Lemma insert_free_block_spec h P L hd tl he fh fl a q :
  view h P L hd tl he fh -> free_list L fh fl -> L !! a = Some q -> heap_ptr a -> a ∉ fl ->
  exists h' L', insert_free_block h a = Ret h' /\ view h' P L' hd tl he a /\ free_list L' a (a :: fl).
Proof.
  intros V (Hseg & -> & Hnd & Hall) Ha Hpa Hnot. unfold insert_free_block.
  destruct (heap_ptr_ok a Hpa) as [Hok Hnz]. destruct (hd_or_ok fl Hall) as [Hhd Hnil]. destruct q as [fn fp].
  rewrite (view_free _ _ _ _ _ _ _ V).
  destruct (wr_set_free_next _ _ _ _ _ _ _ _ _ _ _ V Ha Hhd) as (h1 & -> & V1). cbn [obind].
  destruct (wr_set_free_prev _ _ _ _ _ _ _ a 0 (off_of (hd_or 0 fl)) fp V1) as (h2 & -> & V2);
    [apply lookup_insert_eq|by left|]. cbn [obind]. rewrite insert_insert_eq in V2.
  rewrite (view_free _ _ _ _ _ _ _ V2).
  assert (Hseg' : fseg (<[a := (off_of (hd_or 0 fl), off_of 0)]> L) 0 fl 0).
  { eapply fseg_frame; [|exact Hseg]. intros x Hx. apply lookup_insert_ne. set_solver. }
  destruct fl as [|c fl].
  - simpl. eexists _, _. split_and!; [done|by eapply view_with_free_head|].
    split_and!; [simpl; by rewrite lookup_insert_eq|done|by apply NoDup_singleton|by constructor].
  - destruct (Z.eqb_spec (hd_or 0 (c :: fl)) 0) as [Hc|Hc]; [by apply Hnil in Hc|].
    unfold hd_or at 1. simpl default. apply NoDup_cons in Hnd as [Hcn Hnd].
    pose proof (proj1 Hseg') as Hlc. unfold hd_or in Hseg', Hlc, V2. simpl in Hseg', Hlc, V2.
    destruct (wr_set_free_prev _ _ _ _ _ _ _ _ a _ _ V2 Hlc Hok) as (h3 & -> & V3). cbn [obind].
    eexists _, _. split_and!; [done|by eapply view_with_free_head|].
    split_and!; [|done|by repeat (apply NoDup_cons_2; [set_solver|])|by constructor].
    split; [rewrite lookup_insert_ne by set_solver; apply lookup_insert_eq|].
    apply (fseg_relink_first _ 0 a c fl 0 _ Hcn Hseg' Hlc).
Qed.

Lemma rd_free_links h P L hd tl he fh a fn fp :
  view h P L hd tl he fh -> L !! a = Some (off_of fn, off_of fp) -> ptr_ok fn -> ptr_ok fp ->
  exists b, rd h a = Ret b /\ free_next b = Ret fn /\ free_prev b = Ret fp.
Proof.
  intros V HL Hn Hp. destruct (view_rd_links _ _ _ _ _ _ _ _ _ _ V HL) as (b & ? & _ & Hl & _).
  injection Hl as H1 H2. exists b. split; [done|]. split.
  - unfold free_next. rewrite H1. by apply from_offset_ok.
  - pose proof (from_offset_ok fp Hp) as Hf. unfold free_prev. rewrite H2. exact Hf.
Qed.

Lemma last_or_ok l : Forall heap_ptr l -> ptr_ok (last_or 0 l) /\ (last_or 0 l = 0 <-> l = []).
Proof.
  destruct l as [|b l _] using rev_ind; [by split; [left|]|].
  intros [_ [Hb _]%Forall_cons]%Forall_app. rewrite last_or_snoc.
  destruct (heap_ptr_ok b Hb). split; [done|]. split; [done|]. by destruct l.
Qed.

(** The two link updates of [remove_free_block], on the segment before the
    removed block and on the one after it. *)
Lemma unlink_before h P L hd tl he a l1 l2 :
  view h P L hd tl he (hd_or 0 (l1 ++ a :: l2)) -> fseg L 0 (l1 ++ a :: l2) 0 ->
  NoDup (l1 ++ a :: l2) -> Forall heap_ptr (l1 ++ a :: l2) ->
  exists h' L', (if last_or 0 l1 =? 0 then Ret (with_free_head h (hd_or 0 l2))
                 else wr h (last_or 0 l1) (set_free_next (hd_or 0 l2))) = Ret h' /\
    view h' P L' hd tl he (hd_or 0 (l1 ++ l2)) /\
    fseg L' 0 l1 (hd_or 0 l2) /\ (forall x, x ∉ l1 -> L' !! x = L !! x).
Proof.
  intros V Hseg Hnd Hall. apply Forall_app in Hall as [Hall1 [_ Hall2]%Forall_cons].
  destruct (last_or_ok l1 Hall1) as [Hok Hnil]. destruct (hd_or_ok l2 Hall2) as [Hok2 _].
  rewrite hd_or_app in *.
  destruct l1 as [|b l1 _] using rev_ind.
  - eexists _, _. split_and!; [done|by eapply view_with_free_head|done|done].
  - rewrite last_or_snoc in *. destruct (Z.eqb_spec b 0) as [->|Hb].
    { pose proof (proj1 Hnil eq_refl). by destruct l1. }
    apply NoDup_app in Hnd as (Hnd1 & _ & _). apply NoDup_app in Hnd1 as (_ & Hnb & _).
    rewrite <- app_assoc in Hseg. pose proof (fseg_lookup _ _ _ _ _ _ Hseg) as Hlb.
    rewrite app_assoc, fseg_app in Hseg. destruct Hseg as [Hseg _].
    destruct (wr_set_free_next _ _ _ _ _ _ _ _ (hd_or 0 l2) _ _ V Hlb Hok2) as (h' & -> & V').
    eexists _, _. split_and!; [done| |eapply (fseg_relink_last _ _ _ _ _ _ _); [set_solver|exact Hseg|exact Hlb]|].
    + rewrite hd_or_app in *. simpl in *. by destruct l1.
    + intros x Hx. apply lookup_insert_ne. set_solver.
Qed.

Lemma unlink_after h P L hd tl he fh a l1 l2 :
  view h P L hd tl he fh -> fseg L a l2 0 -> NoDup l2 -> Forall heap_ptr l2 -> ptr_ok (last_or 0 l1) ->
  exists h' L', (if hd_or 0 l2 =? 0 then Ret h
                 else wr h (hd_or 0 l2) (set_free_prev (last_or 0 l1))) = Ret h' /\
    view h' P L' hd tl he fh /\
    fseg L' (last_or 0 l1) l2 0 /\ (forall x, x ∉ l2 -> L' !! x = L !! x).
Proof.
  intros V Hseg Hnd Hall Hok. destruct (hd_or_ok l2 Hall) as [_ Hnil].
  destruct (Z.eqb_spec (hd_or 0 l2) 0) as [Hz|Hz].
  - apply Hnil in Hz as ->. by eexists _, _.
  - destruct l2 as [|c l2]; [done|]. apply NoDup_cons in Hnd as [Hc _].
    pose proof (proj1 Hseg) as Hlc. change (hd_or 0 (c :: l2)) with c.
    destruct (wr_set_free_prev _ _ _ _ _ _ _ _ (last_or 0 l1) _ _ V Hlc Hok) as (h' & -> & V').
    eexists _, _. split_and!; [done|done|apply (fseg_relink_first _ _ _ _ _ _ _ Hc Hseg Hlc)|].
    intros x Hx. apply lookup_insert_ne. set_solver.
Qed.

Lemma remove_free_block_spec h P L hd tl he fh a l1 l2 :
  view h P L hd tl he fh -> free_list L fh (l1 ++ a :: l2) ->
  exists h' L', remove_free_block h a = Ret h' /\ view h' P L' hd tl he (hd_or 0 (l1 ++ l2)) /\
    free_list L' (hd_or 0 (l1 ++ l2)) (l1 ++ l2).
Proof.
  intros V (Hseg & -> & Hnd & Hall). unfold remove_free_block.
  pose proof (fseg_lookup _ _ _ _ _ _ Hseg) as Ha.
  pose proof Hall as [Hall1 [Hpa Hall2]%Forall_cons]%Forall_app.
  destruct (last_or_ok l1 Hall1) as [Hokp _]. destruct (hd_or_ok l2 Hall2) as [Hokn _].
  pose proof Hnd as (Hnd1 & Hdisj & [Ha2 Hnd2]%NoDup_cons)%NoDup_app.
  assert (Ha1 : a ∉ l1) by (intros ?; eapply Hdisj; set_solver).
  destruct (rd_free_links _ _ _ _ _ _ _ _ _ _ V Ha Hokn Hokp) as (b & -> & Hn & Hp).
  cbn [obind]. rewrite Hn, Hp. cbn [obind].
  destruct (unlink_before _ _ _ _ _ _ _ _ _ V Hseg Hnd Hall) as (h1 & L1 & -> & V1 & Hs1 & Hf1). cbn [obind].
  assert (Ha' : L1 !! a = Some (off_of (hd_or 0 l2), off_of (last_or 0 l1))) by (by rewrite Hf1).
  destruct (rd_free_links _ _ _ _ _ _ _ _ _ _ V1 Ha' Hokn Hokp) as (b' & -> & Hn' & Hp').
  cbn [obind]. rewrite Hn', Hp'. cbn [obind].
  apply fseg_app in Hseg as [_ [_ Hseg2]].
  assert (Hseg2' : fseg L1 a l2 0).
  { eapply fseg_frame; [|exact Hseg2]. intros x Hx. apply Hf1. intros ?. eapply Hdisj; set_solver. }
  destruct (unlink_after _ _ _ _ _ _ _ _ l1 _ V1 Hseg2' Hnd2 Hall2 Hokp) as (h2 & L2 & -> & V2 & Hs2 & Hf2).
  cbn [obind].
  destruct (wr_set_free_next _ _ _ _ _ _ _ a 0 (off_of (hd_or 0 l2)) (off_of (last_or 0 l1)) V2)
    as (h3 & -> & V3); [by rewrite Hf2|by left|]. cbn [obind].
  destruct (wr_set_free_prev _ _ _ _ _ _ _ a 0 _ _ V3 (lookup_insert_eq _ _ _)) as (h4 & -> & V4); [by left|].
  eexists _, _. split_and!; [done|exact V4|]. rewrite insert_insert_eq in *.
  split_and!; [|done|apply NoDup_app; split_and!; try done; intros; intros ?; eapply Hdisj; set_solver
    |by apply Forall_app_2].
  apply fseg_app. split.
  - eapply fseg_frame; [|exact Hs1]. intros x Hx. rewrite lookup_insert_ne by set_solver.
    apply Hf2. intros ?. eapply Hdisj; set_solver.
  - eapply fseg_frame; [|exact Hs2]. intros x Hx. apply lookup_insert_ne. set_solver.
Qed.

(** ** The chain of blocks *)

Record block := mkBlock { baddr : Z; bsize : Z; bused : bool }.

Definition last_addr (pa : Z) (bs : list block) : Z := last_or pa (baddr <$> bs).

(** [bs] tiles [lo, hi): every block starts where the one before it ends, is
    at least [MIN_ALLOC_SIZE] long and 8-aligned, and its [prev] names its
    predecessor ([pa] before the first). *)
Fixpoint chain (P : pmap) (pa lo : Z) (bs : list block) (hi : Z) : Prop :=
  match bs with
  | [] => lo = hi
  | b :: bs =>
      baddr b = lo /\ MIN_ALLOC_SIZE <= bsize b /\ bsize b mod 8 = 0 /\
      P !! lo = Some (bsize b, off_of pa, bused b) /\
      chain P lo (lo + BLOCK_HEADER_SIZE + bsize b) bs hi
  end.

(** No two neighbours are both free. *)
Fixpoint coalesced (pu : bool) (bs : list block) : Prop :=
  match bs with
  | [] => True
  | b :: bs => pu || bused b = true /\ coalesced (bused b) bs
  end.

Definition last_used (pu : bool) (bs : list block) : bool := default pu (last (bused <$> bs)).

Definition used (bs : list block) : list block := filter (fun b => bused b = true) bs.
Definition free_addrs (bs : list block) : list Z := baddr <$> filter (fun b => bused b = false) bs.

(** The shape of a heap: the blocks [bs] tile it and the free list [fl] holds
    exactly the free ones. *)
Record heap_shape (h : heap) (bs : list block) (fl : list Z) : Prop := {
  inv_view : view h (phys <$> hdrs h) (links <$> hdrs h) KHS (last_addr 0 bs) (heap_end h) (free_head h);
  inv_chain : chain (phys <$> hdrs h) 0 KHS bs (heap_end h);
  inv_nonempty : bs <> [];
  inv_end : heap_end h < USIZE;
  inv_free : free_list (links <$> hdrs h) (free_head h) fl;
  inv_free_all : fl ≡ₚ free_addrs bs;
}.

(** The heap invariant: well shaped and fully coalesced. *)
Definition heap_inv (h : heap) (bs : list block) (fl : list Z) : Prop :=
  heap_shape h bs fl /\ coalesced true bs.

Ltac hconst := unfold MIN_BLOCK_SIZE, MIN_ALLOC_SIZE, BLOCK_HEADER_SIZE in *.

Lemma last_addr_cons pa b l : last_addr pa (b :: l) = last_addr (baddr b) l.
Proof. apply last_or_cons. Qed.
Lemma last_addr_app pa l1 l2 : last_addr pa (l1 ++ l2) = last_addr (last_addr pa l1) l2.
Proof.
  revert pa; induction l1 as [|b l1 IH]; intros pa; [done|].
  simpl. by rewrite !last_addr_cons, IH.
Qed.
Lemma last_used_cons pu b l : last_used pu (b :: l) = last_used (bused b) l.
Proof. unfold last_used. rewrite fmap_cons, last_cons. by destruct (last (bused <$> l)). Qed.

Lemma last_used_snoc pu l b : last_used pu (l ++ [b]) = bused b.
Proof. unfold last_used. rewrite fmap_app. change (bused <$> [b]) with [bused b]. by rewrite last_snoc. Qed.

Lemma coalesced_app pu l1 l2 :
  coalesced pu (l1 ++ l2) <-> coalesced pu l1 /\ coalesced (last_used pu l1) l2.
Proof.
  revert pu; induction l1 as [|b l1 IH]; intros pu; simpl; [tauto|].
  rewrite IH, last_used_cons. tauto.
Qed.

Lemma chain_bounds P pa lo bs hi : chain P pa lo bs hi ->
  lo <= hi /\ (bs <> [] -> lo + 32 <= hi) /\ (lo mod 8 = 0 -> hi mod 8 = 0).
Proof.
  revert pa lo; induction bs as [|b bs IH]; intros pa lo; simpl; [by intros ->; split_and!; (lia || done)|].
  hconst. intros (Ha & Hs & Hm & _ & Hc). apply IH in Hc as (? & _ & H8).
  split_and!; [lia|lia|]. intros. apply H8. lia.
Qed.

Lemma chain_app P pa lo l1 l2 hi :
  chain P pa lo (l1 ++ l2) hi <->
  exists mid, chain P pa lo l1 mid /\ chain P (last_addr pa l1) mid l2 hi.
Proof.
  revert pa lo; induction l1 as [|b l1 IH]; intros pa lo; simpl.
  - split; [intros; by exists lo|by intros (? & <- & ?)].
  - rewrite IH, last_addr_cons. split.
    + intros (Ha & ? & ? & ? & mid & ? & ?). exists mid. subst lo. by split_and!.
    + intros (mid & (Ha & ? & ? & ? & ?) & ?). subst lo. split_and!; try done. by exists mid.
Qed.

Lemma chain_in P pa lo bs hi b : chain P pa lo bs hi -> b ∈ bs ->
  lo <= baddr b /\ baddr b + BLOCK_HEADER_SIZE + bsize b <= hi /\ MIN_ALLOC_SIZE <= bsize b /\
  bsize b mod 8 = 0 /\ (lo mod 8 = 0 -> baddr b mod 8 = 0) /\
  exists p, P !! baddr b = Some (bsize b, p, bused b).
Proof.
  intros Hc (l1 & l2 & ->)%list_elem_of_split. apply chain_app in Hc as (mid & H1 & H2).
  destruct (chain_bounds _ _ _ _ _ H1) as (? & _ & H8). simpl in H2.
  destruct H2 as (<- & ? & ? & ? & H3). pose proof (chain_bounds _ _ _ _ _ H3) as (? & _).
  split_and!; try done; try lia. eauto.
Qed.

Lemma chain_frame P P' pa lo bs hi :
  (forall x, lo <= x < hi -> P' !! x = P !! x) -> chain P pa lo bs hi -> chain P' pa lo bs hi.
Proof.
  revert pa lo; induction bs as [|b bs IH]; intros pa lo Hf; [done|]. simpl.
  intros (Ha & ? & ? & ? & Hc). pose proof (chain_bounds _ _ _ _ _ Hc) as (? & _). hconst.
  split_and!; try done; [rewrite Hf by lia; done|]. apply IH; [|done]. intros. apply Hf. lia.
Qed.

(** Distinct blocks do not overlap. *)
Lemma chain_disjoint P pa lo bs hi b c : chain P pa lo bs hi -> b ∈ bs -> c ∈ bs -> b <> c ->
  baddr b + BLOCK_HEADER_SIZE + bsize b <= baddr c \/ baddr c + BLOCK_HEADER_SIZE + bsize c <= baddr b.
Proof.
  revert pa lo; induction bs as [|x bs IH]; intros pa lo Hc; [by intros ?%elem_of_nil|].
  simpl in Hc. destruct Hc as (Ha & ? & ? & ? & Hc). pose proof Hc as Hc'.
  intros [->|Hb]%elem_of_cons [->|Hd]%elem_of_cons Hne; [done| | |by eapply IH].
  - destruct (chain_in _ _ _ _ _ _ Hc Hd). lia.
  - destruct (chain_in _ _ _ _ _ _ Hc Hb). lia.
Qed.

(** [set_prev p] on the first block of the rest of the chain. *)
Definition relink (p : Z) (l : list block) (P : pmap) : pmap :=
  match l with
  | [] => P
  | b :: _ => <[baddr b := (bsize b, off_of p, bused b)]> P
  end.

Lemma relink_below P pa p lo l hi x : chain P pa lo l hi -> x < lo -> relink p l P !! x = P !! x.
Proof. destruct l; [done|]. intros (<- & _) ?. apply lookup_insert_ne. lia. Qed.

Lemma chain_relink P pa p lo l hi : chain P pa lo l hi -> chain (relink p l P) p lo l hi.
Proof.
  destruct l as [|b l]; [done|]. simpl. intros (-> & ? & ? & ? & Hc). split_and!; try done.
  - by rewrite lookup_insert_eq.
  - eapply chain_frame; [|exact Hc]. intros x Hx. hconst. apply lookup_insert_ne. lia.
Qed.

Lemma relink_step h P L hd tl he fh a s l p :
  view h P L hd tl he fh -> chain P a (a + BLOCK_HEADER_SIZE + s) l he -> 0 <= s ->
  tl = last_addr a l -> ptr_ok p ->
  exists h', (if a =? tl then Ret (with_tail h p)
              else wr h (a + BLOCK_HEADER_SIZE + s) (set_prev p)) = Ret h' /\
    view h' (relink p l P) L hd (last_addr p l) he fh.
Proof.
  intros V Hc Hs -> Hp. hconst. destruct l as [|b l].
  - unfold last_addr, last_or. simpl. rewrite Z.eqb_refl. eexists; split; [done|].
    by eapply view_with_tail.
  - destruct (Z.eqb_spec a (last_addr a (b :: l))) as [Heq|Hne].
    + exfalso. unfold last_addr, last_or in Heq. destruct (last (baddr <$> b :: l)) as [z|] eqn:E.
      * apply last_Some_elem_of, list_elem_of_fmap in E as (c & -> & Hin).
        destruct (chain_in _ _ _ _ _ _ Hc Hin). simpl in Heq. hconst. lia.
      * by apply last_None in E.
    + simpl in Hc. destruct Hc as (Hb & ? & ? & HP & Hc).
      destruct (wr_set_prev _ _ _ _ _ _ _ _ _ _ _ _ V HP Hp) as (h' & -> & V').
      eexists; split; [done|]. simpl. rewrite Hb. rewrite !last_addr_cons in *. done.
Qed.

(** ** Operations on the chain *)

Lemma next_ok a b : 0 <= a -> 0 <= _size b -> a + BLOCK_HEADER_SIZE + _size b < USIZE ->
  next a b = Ret (a + BLOCK_HEADER_SIZE + _size b).
Proof. intros. hconst. unfold next. hconst. orun. f_equal. lia. Qed.

Lemma usize_big : 2 ^ 40 < USIZE.
Proof. done. Qed.

Lemma KHS_pos : 0 < KHS.
Proof. by rewrite KHS_eq. Qed.

Lemma insert_after_spec h P L hd tl he fh a s pv u l nb s' pv' u' :
  view h P L hd tl he fh -> P !! a = Some (s, pv, u) -> 0 <= s ->
  chain P a (a + BLOCK_HEADER_SIZE + s) l he -> tl = last_addr a l -> he < USIZE ->
  heap_ptr a -> heap_ptr nb -> a < nb < a + BLOCK_HEADER_SIZE + s -> P !! nb = Some (s', pv', u') ->
  exists h', insert_after h a nb = Ret h' /\
    view h' (<[nb := (s', off_of a, u')]> (relink nb l P)) L hd (last_addr nb l) he fh.
Proof.
  intros V Ha Hs Hc Htl Hhe Hpa Hpn Hin Hnb. unfold insert_after.
  destruct (view_rd _ _ _ _ _ _ _ _ _ _ _ V Ha) as (b & -> & _ & Hbs & _ & _ & _ & _). cbn [obind].
  pose proof (chain_bounds _ _ _ _ _ Hc) as (Hle & _ & _). pose proof KHS_pos. destruct Hpa as [Hpa ?].
  rewrite next_ok, Hbs by lia. cbn [obind]. rewrite (view_tail _ _ _ _ _ _ _ V).
  destruct (heap_ptr_ok nb Hpn) as [Hokn _]. destruct (heap_ptr_ok a ltac:(done)) as [Hoka _].
  destruct (relink_step _ _ _ _ _ _ _ _ _ _ _ V Hc Hs Htl Hokn) as (h1 & -> & V1). cbn [obind].
  eapply wr_set_prev; [exact V1| |done].
  rewrite (relink_below _ _ _ _ _ _ _ Hc) by lia. exact Hnb.
Qed.

Lemma remove_from_list_spec h P L hd tl he fh a s pa u l :
  view h P L hd tl he fh -> P !! a = Some (s, off_of pa, u) -> 0 <= s ->
  chain P a (a + BLOCK_HEADER_SIZE + s) l he -> tl = last_addr a l -> he < USIZE ->
  heap_ptr a -> heap_ptr pa ->
  exists h', remove_from_list h a = Ret h' /\
    view h' (relink pa l P) L hd (last_addr pa l) he fh.
Proof.
  intros V Ha Hs Hc Htl Hhe [Hpa ?] Hpp. unfold remove_from_list.
  destruct (view_rd _ _ _ _ _ _ _ _ _ _ _ V Ha) as (b & -> & _ & Hbs & Hbp & _). cbn [obind].
  pose proof (chain_bounds _ _ _ _ _ Hc) as (Hle & _ & _). pose proof KHS_pos.
  rewrite next_ok, Hbs by lia. cbn [obind]. destruct (heap_ptr_ok pa Hpp) as [Hok Hnz].
  unfold prev. rewrite Hbp, from_offset_ok by done. cbn [obind].
  rewrite (proj2 (Z.eqb_neq pa 0) Hnz). cbn [obind oassert negb].
  rewrite (view_tail _ _ _ _ _ _ _ V). eapply relink_step; eauto.
Qed.

Lemma append_to_list_spec h P L hd tl he fh a s pv u :
  view h P L hd tl he fh -> P !! a = Some (s, pv, u) -> ptr_ok tl ->
  exists h', append_to_list h a = Ret h' /\ view h' (<[a := (s, off_of tl, u)]> P) L hd a he fh.
Proof.
  intros V Ha Hp. unfold append_to_list. rewrite (view_tail _ _ _ _ _ _ _ V).
  destruct (wr_set_prev _ _ _ _ _ _ _ _ _ _ _ _ V Ha Hp) as (h1 & -> & V1). cbn [obind].
  eexists; split; [done|]. by eapply view_with_tail.
Qed.

(** ** The invariant, opened at a block *)

Lemma heap_shape_intro h P L tl he fh bs fl :
  view h P L KHS tl he fh -> tl = last_addr 0 bs -> chain P 0 KHS bs he -> bs <> [] -> he < USIZE ->
  free_list L fh fl -> fl ≡ₚ free_addrs bs -> heap_shape h bs fl.
Proof.
  intros V -> ? ? ? ? ?. destruct V as [<- <- ? ? ? <- <-]. by split.
Qed.

Lemma KHS_mod : KHS mod 8 = 0.
Proof. done. Qed.

Lemma last_addr_ok P lo l hi : KHS <= lo -> lo mod 8 = 0 -> hi < USIZE ->
  chain P 0 lo l hi -> ptr_ok (last_addr 0 l) /\ (last_addr 0 l = 0 <-> l = []).
Proof.
  intros Hlo H8 Hhi Hc. destruct (last_or_ok (baddr <$> l)) as [? Hn];
    [|split; [done|]; unfold last_addr; rewrite Hn; by destruct l].
  apply Forall_fmap, Forall_forall. intros b Hb.
  destruct (chain_in _ _ _ _ _ _ Hc Hb) as (? & ? & ? & _ & H8' & _). hconst.
  split; [lia|]. by apply H8'.
Qed.

Record opened (h : heap) (l1 : list block) (a s : Z) (u : bool) (l2 : list block) (fl : list Z)
  (P : pmap) (L : lmap) : Prop := {
  op_view : view h P L KHS (last_addr a l2) (heap_end h) (free_head h);
  op_before : chain P 0 KHS l1 a;
  op_here : P !! a = Some (s, off_of (last_addr 0 l1), u);
  op_size : MIN_ALLOC_SIZE <= s /\ s mod 8 = 0;
  op_after : chain P a (a + BLOCK_HEADER_SIZE + s) l2 (heap_end h);
  op_ptr : heap_ptr a;
  op_end : a + BLOCK_HEADER_SIZE + s <= heap_end h < USIZE;
  op_prev : ptr_ok (last_addr 0 l1) /\ (last_addr 0 l1 = 0 <-> l1 = []);
  op_free : free_list L (free_head h) fl;
}.

Lemma heap_shape_open h l1 a s u l2 fl :
  heap_shape h (l1 ++ mkBlock a s u :: l2) fl ->
  opened h l1 a s u l2 fl (phys <$> hdrs h) (links <$> hdrs h).
Proof.
  intros [V Hc _ Hhe Hf Hfa].
  rewrite last_addr_app, last_addr_cons in V.
  apply chain_app in Hc as (mid & Hc1 & Hc2). simpl in Hc2. destruct Hc2 as (<- & ? & ? & ? & Hc2).
  pose proof (chain_bounds _ _ _ _ _ Hc1) as (? & _ & H8). specialize (H8 KHS_mod).
  pose proof (chain_bounds _ _ _ _ _ Hc2) as (? & _). hconst.
  pose proof (last_addr_ok _ KHS _ a (Z.le_refl _) KHS_mod ltac:(lia) Hc1).
  split; try done; hconst; simpl; split; (done || lia).
Qed.

Lemma free_addrs_app l1 l2 : free_addrs (l1 ++ l2) = free_addrs l1 ++ free_addrs l2.
Proof. unfold free_addrs. by rewrite filter_app, fmap_app. Qed.
Lemma free_addrs_cons b l : free_addrs (b :: l) = (if bused b then [] else [baddr b]) ++ free_addrs l.
Proof. unfold free_addrs. rewrite filter_cons. by destruct (bused b). Qed.
Lemma used_app l1 l2 : used (l1 ++ l2) = used l1 ++ used l2.
Proof. apply filter_app. Qed.
Lemma used_cons b l : used (b :: l) = (if bused b then [b] else []) ++ used l.
Proof. unfold used. rewrite filter_cons. by destruct (bused b). Qed.

(** The free list names blocks of the chain only, so an address inside a block
    is not on it. *)
Lemma opened_fresh h l1 a s u l2 fl P L x :
  opened h l1 a s u l2 fl P L -> fl ≡ₚ free_addrs (l1 ++ mkBlock a s u :: l2) ->
  a < x < a + BLOCK_HEADER_SIZE + s -> x ∉ fl.
Proof.
  intros O -> Hx.
  unfold free_addrs. rewrite list_elem_of_fmap. intros (c & -> & [_ Hc]%list_elem_of_filter).
  apply elem_of_app in Hc as [Hc|[->|Hc]%elem_of_cons]; [| simpl in Hx; lia |].
  - destruct (chain_in _ _ _ _ _ _ (op_before _ _ _ _ _ _ _ _ _ O) Hc) as (? & ? & ? & _). hconst. lia.
  - destruct (chain_in _ _ _ _ _ _ (op_after _ _ _ _ _ _ _ _ _ O) Hc) as (? & ? & ? & _). hconst. lia.
Qed.

Lemma phys_new n u : 0 <= n < U32 -> phys (new n u) = (n, NULL_OFFSET, u).
Proof. intros. unfold phys, new. simpl. rewrite as_u32_small by done. by destruct u. Qed.
Lemma hdr_wf_new n u : 0 <= n < U32 -> hdr_wf (new n u).
Proof. intros. unfold hdr_wf, new. simpl. rewrite as_u32_small by done. split; [by destruct u|lia]. Qed.

Lemma window n : 0 <= n -> KHS + n < USIZE -> n < U32.
Proof. rewrite KHS_eq. unfold U32, USIZE. lia. Qed.

(** Splitting a new free block off the end of a block. *)
Lemma carve_block_spec h l1 a s l2 fl t :
  heap_shape h (l1 ++ mkBlock a s false :: l2) fl ->
  MIN_ALLOC_SIZE <= t -> t mod 8 = 0 -> t + MIN_BLOCK_SIZE <= s ->
  let nb := a + BLOCK_HEADER_SIZE + t in
  exists h',
    (let! h := insert_free_block (put h nb (new (s - t - BLOCK_HEADER_SIZE) false)) nb in
     let! h := insert_after h a nb in
     wr h a (set_size t)) = Ret h' /\
    heap_shape h' (l1 ++ mkBlock a t false :: mkBlock nb (s - t - BLOCK_HEADER_SIZE) false :: l2) (nb :: fl) /\
    heap_end h' = heap_end h.
Proof.
  intros Hi Ht Ht8 Hs nb. pose proof (inv_free_all _ _ _ Hi) as Hfa. apply heap_shape_open in Hi as O.
  destruct O as [V Hc1 Ha [Hs1 Hs8] Hc2 Hpa Hend _ Hf].
  assert (Hnot : nb ∉ fl).
  { eapply opened_fresh; [exact (heap_shape_open _ _ _ _ _ _ _ Hi)|done|]. subst nb. hconst. lia. }
  set (P := phys <$> hdrs h) in *. set (L := links <$> hdrs h) in *.
  destruct Hpa as [Hr H8]. hconst.
  assert (Hpn : heap_ptr nb) by (split; subst nb; lia).
  assert (Hn : 0 <= s - t - 16 < U32) by (split; [lia|apply window; lia]).
  pose proof (view_put _ _ _ _ _ _ _ nb _ V (hdr_wf_new _ false Hn)) as V1.
  rewrite phys_new in V1 by done.
  assert (Hf1 : free_list (<[nb := links (new (s - t - 16) false)]> L) (free_head h) fl).
  { destruct Hf as (Hseg & ? & ? & ?). split_and!; try done.
    eapply fseg_frame; [|exact Hseg]. intros x Hx. apply lookup_insert_ne. set_solver. }
  destruct (insert_free_block_spec _ _ _ _ _ _ _ _ nb _ V1 Hf1 (lookup_insert_eq _ _ _) Hpn Hnot)
    as (h2 & L2 & -> & V2 & Hf2). cbn [obind].
  set (P1 := <[nb := (s - t - 16, NULL_OFFSET, false)]> P) in *.
  assert (Hc2' : chain P1 a (a + BLOCK_HEADER_SIZE + s) l2 (heap_end h)).
  { eapply chain_frame; [|exact Hc2]. intros x Hx. hconst. apply lookup_insert_ne. subst nb. lia. }
  destruct (insert_after_spec _ _ _ _ _ _ _ a s (off_of (last_addr 0 l1)) false l2 nb
    (s - t - 16) NULL_OFFSET false V2) as (h3 & -> & V3); hconst; try done; try lia.
  { subst P1. rewrite lookup_insert_ne by (subst nb; lia). done. }
  { subst P1. apply lookup_insert_eq. }
  cbn [obind]. set (P2 := <[nb := (s - t - 16, off_of a, false)]> (relink nb l2 P1)) in *.
  assert (Hlow : forall x, x < a + 16 + s -> x <> nb -> P2 !! x = P !! x).
  { intros x Hx Hne. subst P2 P1. rewrite lookup_insert_ne by done.
    rewrite (relink_below _ _ _ _ _ _ _ Hc2') by (hconst; lia). by rewrite lookup_insert_ne. }
  destruct (wr_set_size _ _ _ _ _ _ _ a t s (off_of (last_addr 0 l1)) false V3) as (h4 & -> & V4);
    [rewrite Hlow by (subst nb; lia); done|split; [lia|apply window; lia]|].
  eexists; split; [done|]. split; [|exact (view_end _ _ _ _ _ _ _ V4)].
  eapply heap_shape_intro; [exact V4| | | |lia|exact Hf2|].
  - rewrite last_addr_app, !last_addr_cons. done.
  - apply chain_app. exists a. split.
    + eapply chain_frame; [|exact Hc1]. intros x Hx. rewrite lookup_insert_ne by lia. apply Hlow; subst nb; lia.
    + simpl. hconst. split_and!; try done; try lia.
      * by rewrite lookup_insert_eq.
      * subst P2. rewrite lookup_insert_ne by (subst nb; lia). rewrite lookup_insert_eq. done.
      * replace (a + 16 + t + 16 + (s - t - 16)) with (a + 16 + s) by lia. fold nb.
        eapply chain_frame; [|apply (chain_relink P1 a nb); exact Hc2'].
        intros x Hx. subst P2. rewrite !lookup_insert_ne by (subst nb; lia). done.
  - by destruct l1.
  - rewrite Hfa, !free_addrs_app, !free_addrs_cons. simpl. by rewrite <- !Permutation_middle, Permutation_swap.
Qed.

(** Unlinking a free block, keeping the chain as it is. *)
Lemma unlink_spec h P L tl he fh bs fl a :
  view h P L KHS tl he fh -> free_list L fh fl -> fl ≡ₚ free_addrs bs -> a ∈ fl ->
  exists h' L' fh' fl', remove_free_block h a = Ret h' /\ view h' P L' KHS tl he fh' /\
    free_list L' fh' fl' /\ a :: fl' ≡ₚ free_addrs bs.
Proof.
  intros V Hf Hp (f1 & f2 & ->)%list_elem_of_split.
  destruct (remove_free_block_spec _ _ _ _ _ _ _ _ _ _ V Hf) as (h' & L' & ? & ? & ?).
  exists h', L', (hd_or 0 (f1 ++ f2)), (f1 ++ f2). split_and!; try done. by rewrite Permutation_middle.
Qed.

(** A change of one block of the chain. *)
Lemma chain_update P l1 a s u s' u' l2 he :
  chain P 0 KHS l1 a -> P !! a = Some (s, off_of (last_addr 0 l1), u) ->
  MIN_ALLOC_SIZE <= s' -> s' mod 8 = 0 ->
  chain P a (a + BLOCK_HEADER_SIZE + s') l2 he ->
  chain (<[a := (s', off_of (last_addr 0 l1), u')]> P) 0 KHS (l1 ++ mkBlock a s' u' :: l2) he.
Proof.
  intros Hc1 Ha Hs Hm Hc2. apply chain_app. exists a. split.
  - eapply chain_frame; [|exact Hc1]. intros x Hx. apply lookup_insert_ne. lia.
  - simpl. split_and!; try done; [by rewrite lookup_insert_eq|].
    eapply chain_frame; [|exact Hc2]. intros x Hx. hconst. apply lookup_insert_ne. lia.
Qed.

Lemma free_addrs_mid l1 a s u l2 :
  free_addrs (l1 ++ mkBlock a s u :: l2) ≡ₚ (if u then [] else [a]) ++ free_addrs (l1 ++ l2).
Proof.
  rewrite !free_addrs_app, free_addrs_cons. simpl. destruct u; [done|]. simpl. by rewrite Permutation_middle.
Qed.

Lemma used_mid l1 a s u l2 :
  used (l1 ++ mkBlock a s u :: l2) ≡ₚ (if u then [mkBlock a s true] else []) ++ used (l1 ++ l2).
Proof.
  rewrite !used_app, used_cons. simpl. destruct u; [|done]. simpl. by rewrite Permutation_middle.
Qed.

Lemma claim_block_spec h l1 a s l2 fl :
  heap_shape h (l1 ++ mkBlock a s false :: l2) fl ->
  exists h' fl', (let! h := remove_free_block h a in wr h a set_used) = Ret h' /\
    heap_shape h' (l1 ++ mkBlock a s true :: l2) fl' /\ heap_end h' = heap_end h.
Proof.
  intros Hi. destruct (heap_shape_open _ _ _ _ _ _ _ Hi) as [V Hc1 Ha [Hs Hm] Hc2 _ Hend _ Hf].
  pose proof (inv_free_all _ _ _ Hi) as Hfa.
  destruct (unlink_spec _ _ _ _ _ _ _ _ a V Hf Hfa) as (h1 & L1 & fh1 & fl1 & -> & V1 & Hf1 & Hfa1).
  { rewrite Hfa, free_addrs_mid. set_solver. }
  destruct (wr_set_used _ _ _ _ _ _ _ _ _ _ V1 Ha) as (h2 & Hw & V2). cbn [obind]. rewrite Hw.
  eexists _, _. split_and!; [done| |exact (view_end _ _ _ _ _ _ _ V2)].
  eapply heap_shape_intro; [exact V2| | | |lia|exact Hf1|].
  - by rewrite last_addr_app, last_addr_cons.
  - by eapply chain_update.
  - by destruct l1.
  - rewrite free_addrs_mid in *. simpl in *. by apply Permutation_cons_inv in Hfa1.
Qed.

Lemma au8 x : 0 <= x -> x + 8 < USIZE -> align_up x 8 = Ret (align_up_to x 8).
Proof. intros. unfold align_up. orun. done. Qed.

Lemma au8_props x : x <= align_up_to x 8 < x + 8 /\ align_up_to x 8 mod 8 = 0.
Proof.
  change 8 with (2 ^ 3). pose proof (align_up_to_ge x 3 ltac:(lia)).
  pose proof (align_up_to_mod x 3 ltac:(lia)). done.
Qed.

Lemma au8_least x y : x <= y -> y mod 8 = 0 -> align_up_to x 8 <= y.
Proof. intros. change 8 with (2 ^ 3). by apply align_up_to_least. Qed.

Definition taken (bs bs' : list block) (a sz : Z) : Prop :=
  exists s, sz <= s /\ used bs' ≡ₚ mkBlock a s true :: used bs.

Lemma split_two_spec h l1 a s l2 fl layout :
  heap_inv h (l1 ++ mkBlock a s false :: l2) fl -> 0 <= lsize layout -> align_up_to (lsize layout) 8 <= s ->
  exists h' bs' fl', split_two h a layout = Ret (a + BLOCK_HEADER_SIZE, h') /\
    heap_inv h' bs' fl' /\ heap_end h' = heap_end h /\
    taken (l1 ++ mkBlock a s false :: l2) bs' a (lsize layout).
Proof.
  intros [Hi Hco] Hsz Hfit. apply coalesced_app in Hco as (Hco1 & Hu & Hco2). simpl in Hu, Hco2.
  destruct (heap_shape_open _ _ _ _ _ _ _ Hi) as [V _ Ha [Hs Hm] _ Hp Hend _ _].
  unfold split_two. hconst. set (t := align_up_to (Z.max (lsize layout) 16) 8).
  pose proof (au8_props (Z.max (lsize layout) 16)) as Ht. fold t in Ht.
  pose proof (au8_props (lsize layout)). destruct Hp as [Hp _]. rewrite KHS_eq in Hp. pose proof usize_big.
  assert (Hts : t <= s) by (apply au8_least; [lia|done]).
  rewrite au8 by lia. fold t. cbn [obind].
  destruct (view_rd _ _ _ _ _ _ _ _ _ _ _ V Ha) as (b & -> & _ & Hbs & _). cbn [obind].
  unfold size. rewrite Hbs, usub_ok by lia. cbn [obind]. unfold alloc_area_start. hconst.
  assert (Htl : taken (l1 ++ mkBlock a s false :: l2) (l1 ++ mkBlock a s true :: l2) a (lsize layout)).
  { exists s. split; [lia|]. by rewrite !used_mid. }
  change (16 + 16) with 32. destruct (Z.leb_spec 32 (s - t)) as [Hbig|Hsmall].
  - rewrite usub_ok by lia. cbn [obind].
    destruct (carve_block_spec _ _ _ _ _ _ t Hi) as (h1 & Hrun & Hi1 & He1); hconst; try lia; try done.
    rewrite Hrun. cbn [obind].
    destruct (claim_block_spec _ _ _ _ _ _ Hi1) as (h2 & fl2 & Hrun2 & Hi2 & He2).
    destruct (remove_free_block h1 a) as [h1'| |]; try done. cbn [obind] in *. rewrite Hrun2. cbn [obind].
    eexists _, _, _. split_and!; [done| |congruence|].
    + split; [exact Hi2|]. apply coalesced_app. split; [done|]. simpl. rewrite orb_true_r. by split_and!.
    + exists t. split; [lia|]. by rewrite !used_mid.
  - destruct (claim_block_spec _ _ _ _ _ _ Hi) as (h2 & fl2 & Hrun2 & Hi2 & He2).
    cbn [obind]. destruct (remove_free_block h a) as [h1'| |]; try done. cbn [obind] in *. rewrite Hrun2.
    cbn [obind]. eexists _, _, _. split_and!; [done| |done|done].
    split; [exact Hi2|]. apply coalesced_app. split; [done|]. simpl. rewrite orb_true_r. split; [done|].
    destruct l2; [done|]. simpl in *. tauto.
Qed.

(** ** Finding a block *)

Lemma first_fit_spec h P L hd tl he fh need fl : forall prev fuel,
  view h P L hd tl he fh -> fseg L prev fl 0 -> ptr_ok prev -> Forall heap_ptr fl ->
  (forall a, a ∈ fl -> is_Some (P !! a)) -> (length fl <= fuel)%nat ->
  (exists a s p u, first_fit fuel h need (hd_or 0 fl) = Ret (Some (a, a)) /\ a ∈ fl /\
     P !! a = Some (s, p, u) /\ need <= s) \/
  (first_fit fuel h need (hd_or 0 fl) = Ret None /\
   forall a s p u, a ∈ fl -> P !! a = Some (s, p, u) -> s < need).
Proof.
  induction fl as [|a fl IH]; intros prev fuel V Hseg Hpo Hall HP Hlen.
  - right. split; [by destruct fuel|by intros ? ? ? ? ?%elem_of_nil].
  - destruct fuel as [|fuel]; [simpl in Hlen; lia|]. apply Forall_cons in Hall as [Hpa Hall].
    destruct (heap_ptr_ok a Hpa) as [Hok Hnz]. destruct Hseg as [Hla Hseg].
    change (hd_or 0 (a :: fl)) with a. cbn [first_fit].
    rewrite (proj2 (Z.eqb_neq a 0) Hnz).
    destruct (HP a ltac:(set_solver)) as [[[s p] u] HPa].
    destruct (view_rd _ _ _ _ _ _ _ _ _ _ _ V HPa) as (b & Hb & _ & Hs & _).
    destruct (hd_or_ok fl Hall) as [Hokn _].
    destruct (rd_free_links _ _ _ _ _ _ _ _ _ _ V Hla Hokn Hpo) as (b' & Hb' & Hn & _).
    rewrite Hb in *. injection Hb' as <-. cbn [obind]. unfold size. rewrite Hs, Hn. cbn [obind].
    destruct (Z.leb_spec need s).
    + left. exists a, s, p, u. split_and!; try done. set_solver.
    + destruct (IH a fuel V Hseg Hok Hall ltac:(set_solver) ltac:(simpl in Hlen; lia))
        as [(x & sx & px & ux & ? & ? & ? & ?)|[? Hno]].
      * left. exists x, sx, px, ux. split_and!; try done. set_solver.
      * right. split; [done|]. intros x sx px ux [->|Hx]%elem_of_cons HPx; [|eauto].
        rewrite HPa in HPx. injection HPx as <- <- <-. lia.
Qed.

Lemma au8_add y x : y mod 8 = 0 -> align_up_to (y + x) 8 = y + align_up_to x 8.
Proof. intros. change 8 with (2 ^ 3). rewrite !align_up_to_eq by lia. change (2 ^ 3) with 8. lia. Qed.

Definition small_align (al : Z) : Prop := al = 1 \/ al = 2 \/ al = 4 \/ al = 8.

Lemma small_align_id x al : small_align al -> x mod 8 = 0 -> align_up_to x al = x.
Proof.
  intros [->|[->|[->| ->]]] Hx;
    [change 1 with (2 ^ 0)|change 2 with (2 ^ 1)|change 4 with (2 ^ 2)|change 8 with (2 ^ 3)];
    apply align_up_to_fix; lia.
Qed.

(** For an alignment of at most 8 the block itself is the answer, if it has
    room for the request and one more header. *)
Lemma check_small_align h P L hd tl he fh a s p u sz al :
  view h P L hd tl he fh -> P !! a = Some (s, p, u) -> heap_ptr a -> 0 <= s -> a + BLOCK_HEADER_SIZE + s < USIZE ->
  0 <= sz <= USIZE / 2 -> a + align_up_to sz 8 + 2 * BLOCK_HEADER_SIZE < USIZE -> small_align al ->
  check_aligned_fit h a sz al =
    Ret (if align_up_to sz 8 + BLOCK_HEADER_SIZE <=? s then Some a else None).
Proof.
  intros V Ha [Hr H8] Hs He Hsz Hasz Hal. unfold check_aligned_fit.
  destruct (view_rd _ _ _ _ _ _ _ _ _ _ _ V Ha) as (b & -> & _ & Hbs & _). cbn [obind].
  assert (1 <= al <= 8) by (unfold small_align in Hal; lia). pose proof (au8_props sz).
  unfold end_ptr, alloc_area_start. rewrite Hbs. hconst. rewrite KHS_eq in Hr. pose proof usize_big.
  rewrite (uadd_ok a 16) by lia. cbn [obind]. rewrite uadd_ok by lia. cbn [obind].
  unfold align_up at 1. orun.
  fold (align_up_to (a + 16) al). rewrite small_align_id by (done || lia).
  unfold aligned_fuel.
  assert (0 <= s / al) by (apply Z.div_pos; lia).
  replace (a + 16 + s - (a + 16)) with s by lia.
  replace (Z.to_nat (s / al + 2)) with (S (Z.to_nat (s / al + 1))) by lia. cbn [aligned_loop].
  rewrite uadd_ok by lia. cbn [obind]. rewrite au8 by lia. cbn [obind]. rewrite au8_add by lia. hconst. orun.
  destruct (Z.leb_spec (align_up_to sz 8 + 16) s), (Z.leb_spec (a + 16 + align_up_to sz 8 + 16) (a + 16 + s));
    try lia; [|done].
  replace (a + 16 - 16 - a) with 0 by lia. simpl. f_equal. f_equal. lia.
Qed.

(** A block that is too short, also where the sums would pass the end of the
    address space. *)
Lemma check_small_align_short h P L hd tl he fh a s p u sz al :
  view h P L hd tl he fh -> P !! a = Some (s, p, u) -> heap_ptr a -> 0 <= s -> a + BLOCK_HEADER_SIZE + s < USIZE ->
  0 <= sz <= USIZE / 2 -> s < align_up_to sz 8 + BLOCK_HEADER_SIZE -> small_align al ->
  check_aligned_fit h a sz al = Ret None \/ check_aligned_fit h a sz al = Panic.
Proof.
  intros V Ha Hp Hs He Hsz Hshort Hal. destruct (Z.ltb_spec (a + align_up_to sz 8 + 2 * BLOCK_HEADER_SIZE) USIZE) as [Hr|Hr].
  { left. erewrite check_small_align by done. by rewrite (proj2 (Z.leb_gt _ _)) by lia. }
  right. destruct Hp as [Hr1 H8]. unfold check_aligned_fit. destruct (view_rd _ _ _ _ _ _ _ _ _ _ _ V Ha) as (b & -> & _ & Hbs & _). cbn [obind].
  assert (1 <= al <= 8) by (unfold small_align in Hal; lia). pose proof (au8_props sz).
  unfold end_ptr, alloc_area_start. rewrite Hbs. hconst. rewrite KHS_eq in Hr1. pose proof usize_big.
  rewrite (uadd_ok a 16) by lia. cbn [obind]. rewrite uadd_ok by lia. cbn [obind].
  destruct (align_up (a + 16) al) as [x| |] eqn:Ex; [|done|]; unfold align_up in Ex.
  2: { unfold uadd, usub in Ex. destruct (_ <? USIZE); [|done]. cbn [obind] in Ex. destruct (_ <=? _); [|done]. cbn [obind] in Ex. by destruct (_ <=? _). }
  bind_inv Ex. bind_inv K. bind_inv K0.  apply uadd_Ret_inv in E as [-> _]. apply usub_Ret_inv in E0 as [-> _]. apply usub_Ret_inv in E1 as [-> _]. injection K as <-.
  fold (align_up_to (a + 16) al). rewrite small_align_id by (done || lia). cbn [obind]. unfold aligned_fuel.
  assert (0 <= s / al) by (apply Z.div_pos; lia). replace (a + 16 + s - (a + 16)) with s by lia.
  replace (Z.to_nat (s / al + 2)) with (S (Z.to_nat (s / al + 1))) by lia. cbn [aligned_loop].
  unfold uadd at 1. destruct (Z.ltb_spec (a + 16 + sz) USIZE); [|done]. cbn [obind].
  destruct (Z.ltb_spec (a + 16 + sz + 8) USIZE).
  - rewrite au8 by lia. cbn [obind]. rewrite au8_add by lia. unfold uadd at 1. hconst. by rewrite (proj2 (Z.ltb_ge _ _)) by lia.
  - unfold align_up. unfold uadd at 1. by rewrite (proj2 (Z.ltb_ge _ _)) by lia.
Qed.

Lemma free_list_len h bs fl : heap_shape h bs fl ->
  (length fl <= base.size (hdrs h))%nat /\ forall a, a ∈ fl -> is_Some ((phys <$> hdrs h) !! a).
Proof.
  intros [_ Hc _ _ (_ & _ & Hnd & _) Hfa].
  assert (Hin : forall a, a ∈ fl -> is_Some ((phys <$> hdrs h) !! a)).
  { intros a. rewrite Hfa. unfold free_addrs. rewrite list_elem_of_fmap.
    intros (b & -> & [_ Hb]%list_elem_of_filter).
    destruct (chain_in _ _ _ _ _ _ Hc Hb) as (_ & _ & _ & _ & _ & p & ->). done. }
  split; [|done]. rewrite <- size_dom, <- (size_list_to_set (C := gset Z)) by done.
  apply subseteq_size. intros a Ha. apply elem_of_dom. rewrite elem_of_list_to_set in Ha.
  destruct (Hin a Ha) as [q Hq]. rewrite lookup_fmap in Hq. by destruct (hdrs h !! a).
Qed.

(** A free block of the free list, located in the chain. *)
Lemma free_block_split h bs fl a s p u : heap_shape h bs fl -> a ∈ fl ->
  (phys <$> hdrs h) !! a = Some (s, p, u) ->
  exists l1 l2, bs = l1 ++ mkBlock a s false :: l2.
Proof.
  intros [_ Hc _ _ _ Hfa] Ha HP. rewrite Hfa in Ha. unfold free_addrs in Ha.
  apply list_elem_of_fmap in Ha as (b & -> & [Hu Hb]%list_elem_of_filter).
  destruct (chain_in _ _ _ _ _ _ Hc Hb) as (_ & _ & _ & _ & _ & p' & HP').
  rewrite HP' in HP. injection HP as <- <- <-. apply list_elem_of_split in Hb as (l1 & l2 & ->).
  exists l1, l2. destruct b; simpl in *. by subst.
Qed.

(** ** Growing the heap *)

Lemma last_block h l1 b fl : heap_shape h (l1 ++ [b]) fl ->
  opened h l1 (baddr b) (bsize b) (bused b) [] fl (phys <$> hdrs h) (links <$> hdrs h) /\
  baddr b + BLOCK_HEADER_SIZE + bsize b = heap_end h.
Proof.
  intros Hi. destruct b as [a s u]. pose proof (heap_shape_open _ _ _ _ _ _ _ Hi) as O. split; [done|].
  exact (op_after _ _ _ _ _ _ _ _ _ O).
Qed.

Lemma grow_free_spec h l1 a s fl n :
  heap_inv h (l1 ++ [mkBlock a s false]) fl -> 0 <= n -> n mod 8 = 0 -> heap_end h + n < USIZE ->
  exists h', wr (with_heap_end h (heap_end h + n)) a (add_size n) = Ret h' /\
    heap_inv h' (l1 ++ [mkBlock a (s + n) false]) fl /\ heap_end h' = heap_end h + n.
Proof.
  intros [Hi Hco] Hn Hn8 Hend. destruct (last_block _ _ _ _ Hi) as [O He]. simpl in O, He.
  pose proof (inv_free_all _ _ _ Hi) as Hfa.
  destruct O as [V Hc1 Ha [Hs Hm] _ [Hp H8] Hle _ Hf]. hconst.
  apply (view_with_heap_end _ _ _ _ _ _ _ (heap_end h + n)) in V.
  destruct (wr_add_size _ _ _ _ _ _ _ _ n _ _ _ V Ha) as (h' & -> & V');
    try (split; [lia|]); try lia; [apply window; lia..|].
  exists h'. split_and!; [done| |exact (view_end _ _ _ _ _ _ _ V')]. split.
  - eapply heap_shape_intro; [exact V'| | | |done|exact Hf|].
    + by rewrite last_addr_app, last_addr_cons.
    + eapply chain_update; try done; hconst; [lia|lia|]. simpl. lia.
    + by destruct l1.
    + by rewrite Hfa, !free_addrs_mid.
  - by apply coalesced_app in Hco as [? ?]; apply coalesced_app.
Qed.

Lemma grow_used_spec h l1 a s fl n nh :
  heap_inv h (l1 ++ [mkBlock a s true]) fl -> nh = heap_end h -> 32 <= n -> n mod 8 = 0 -> nh + n < USIZE ->
  exists h', (let! h := insert_free_block (put (with_heap_end h (nh + n)) nh
                          (new (n - BLOCK_HEADER_SIZE) false)) nh in
              append_to_list h nh) = Ret h' /\
    heap_inv h' ((l1 ++ [mkBlock a s true]) ++ [mkBlock nh (n - BLOCK_HEADER_SIZE) false]) (nh :: fl) /\
    heap_end h' = nh + n.
Proof.
  intros [Hi Hco] -> Hn Hn8 Hend. destruct (last_block _ _ _ _ Hi) as [O He]. simpl in O, He.
  pose proof (inv_chain _ _ _ Hi) as Hc. pose proof (chain_bounds _ _ _ _ _ Hc) as (_ & _ & H8e).
  specialize (H8e KHS_mod). pose proof (inv_free_all _ _ _ Hi) as Hfa.
  destruct O as [V _ Ha [Hs Hm] _ [Hp H8] Hle _ Hf]. hconst.
  set (nh := heap_end h) in *. assert (Hpn : heap_ptr nh) by (split; lia).
  assert (Hnr : 0 <= n - 16 < U32) by (split; [lia|apply window; lia]).
  apply (view_with_heap_end _ _ _ _ _ _ _ (nh + n)) in V.
  pose proof (view_put _ _ _ _ _ _ _ nh _ V (hdr_wf_new _ false Hnr)) as V1.
  rewrite phys_new in V1 by done.
  assert (Hout : nh ∉ fl).
  { rewrite Hfa. unfold free_addrs. rewrite list_elem_of_fmap. intros (c & Heq & [_ Hb]%list_elem_of_filter).
    destruct (chain_in _ _ _ _ _ _ Hc Hb) as (_ & ? & ? & _). hconst. lia. }
  assert (Hf1 : free_list (<[nh := links (new (n - 16) false)]> (links <$> hdrs h)) (free_head h) fl).
  { destruct Hf as (Hseg & ? & ? & ?). split_and!; try done.
    eapply fseg_frame; [|exact Hseg]. intros x Hx. apply lookup_insert_ne. set_solver. }
  destruct (insert_free_block_spec _ _ _ _ _ _ _ _ nh _ V1 Hf1 (lookup_insert_eq _ _ _) Hpn Hout)
    as (h2 & L2 & -> & V2 & Hf2). cbn [obind].
  destruct (append_to_list_spec _ _ _ _ _ _ _ nh _ _ _ V2 (lookup_insert_eq _ _ _)) as (h3 & -> & V3).
  { right. done. }
  eexists; split_and!; [done| |exact (view_end _ _ _ _ _ _ _ V3)]. split.
  - eapply heap_shape_intro; [exact V3| | | |done|exact Hf2|].
    + by rewrite last_addr_app, last_addr_cons.
    + rewrite insert_insert_eq. apply chain_app. exists nh. split.
      * eapply chain_frame; [|exact Hc]. intros x Hx. apply lookup_insert_ne. lia.
      * rewrite last_addr_app, last_addr_cons. simpl. hconst.
        rewrite lookup_insert_eq. split_and!; try done; try lia.
    + by destruct l1.
    + rewrite Hfa, (free_addrs_app (_ ++ _)), free_addrs_cons. simpl. apply Permutation_cons_append.
  - apply coalesced_app. split; [done|]. by rewrite last_used_snoc.
Qed.

(** ** The contract of [alloc]

    The caller's layout is one [core::alloc::Layout] admits, with an alignment
    of at most 8. *)
Definition layout_ok (l : Layout) : Prop := 0 <= lsize l <= USIZE / 2 /\ small_align (lalign l).

(** What a growth by [grow_heap_fn] asks for, in whole pages. *)
Definition growth (l : Layout) : Z := align_up_to (Z.max (BLOCK_HEADER_SIZE + lalign l + lsize l) 4096) 4096.

(** The last block is free, or a block made of the new pages alone is large
    enough for [check_aligned_fit], which wants 16 bytes more than it needs. *)
Definition growth_fits (bs : list block) (l : Layout) : Prop :=
  last_used true bs = false \/
  align_up_to (lsize l) 8 + 2 * BLOCK_HEADER_SIZE <= growth l.

Section Contract.
Context {W : Type} `{HeapGrower W}.

Lemma growth_ge n actual : actual mod 4096 = 0 -> n <= actual -> align_up_to n 4096 <= actual.
Proof. intros. change 4096 with (2 ^ 12). by apply align_up_to_least. Qed.

(** [find_fit], when no free block is large enough and the heap grows. *)
Lemma find_fit_grow_spec h w bs fl l w' nh actual :
  heap_inv h bs fl -> layout_ok l -> growth_fits bs l -> heap_break w = heap_end h ->
  grow_heap_fn w (Z.max (BLOCK_HEADER_SIZE + lalign l + lsize l) 4096) = Ret (Some (nh, actual), w') ->
  first_fit (base.size (hdrs h)) h (align_up_to (lsize l) 8) (free_head h) = Ret None ->
  exists h' l1 a s fl', find_fit h w l = Ret (Some (a, a), h', w') /\
    heap_inv h' (l1 ++ [mkBlock a s false]) fl' /\ used (l1 ++ [mkBlock a s false]) = used bs /\
    heap_break w' = heap_end h' /\ align_up_to (lsize l) 8 <= s.
Proof.
  intros Hi [Hsz Hal] Hfits Hbrk Hg Hff. assert (1 <= lalign l <= 8) by (unfold small_align in Hal; lia).
  assert (Hhalf : USIZE / 2 = 2 ^ 63) by done. pose proof (au8_props (lsize l)).
  hconst. pose proof Hg as Hlaw. apply grow_some in Hlaw as (-> & Hbrk' & Hmod & Hge & Hlim); [|lia].
  rewrite Hbrk in *. unfold find_fit. hconst. assert (USIZE = 2 ^ 64) by done.
  rewrite au8 by lia. cbn [obind]. destruct (Z.leb_spec (lalign l) 8); [|lia]. rewrite Hff. cbn [obind].
  rewrite uadd_ok by lia. cbn [obind]. rewrite uadd_ok by lia. cbn [obind]. rewrite Hg. cbn [obind].
  rewrite uadd_ok by lia. cbn [obind].
  destruct bs as [|[a s u] l1 _] using rev_ind; [by destruct (inv_nonempty _ _ _ (proj1 Hi))|].
  destruct (last_block _ _ _ _ (proj1 Hi)) as [O He]. simpl in O, He.
  pose proof (op_view _ _ _ _ _ _ _ _ _ O) as V. pose proof (op_here _ _ _ _ _ _ _ _ _ O) as Ha.
  pose proof (op_ptr _ _ _ _ _ _ _ _ _ O) as Hpa. pose proof (op_size _ _ _ _ _ _ _ _ _ O) as [Hs1 Hs8].
  assert (Ht : tail h = a) by exact (view_tail _ _ _ _ _ _ _ V). cbn [with_heap_end tail]. rewrite Ht.
  destruct (view_rd _ _ _ _ _ _ _ _ _ _ _ V Ha) as (b & Hb & _ & _ & _ & Hu & _).
  unfold rd in *. cbn [with_heap_end hdrs]. rewrite Hb. cbn [obind]. rewrite is_free_used, Hu. hconst.
  unfold growth_fits in Hfits. rewrite last_used_snoc in Hfits. simpl in Hfits.
  destruct u; simpl negb; cbn iota.
  - destruct Hfits as [|Hfits]; [done|]. unfold growth in Hfits. hconst.
    pose proof (growth_ge _ actual Hmod (proj1 Hge)).
    rewrite usub_ok by lia. cbn [obind].
    destruct (grow_used_spec _ _ _ _ _ actual _ Hi eq_refl) as (h' & Hrun & Hi' & He'); hconst; try lia.
    destruct (insert_free_block _ _) as [h1| |]; try done. cbn [obind] in *. rewrite Hrun. cbn [obind].
    destruct (last_block _ _ _ _ (proj1 Hi')) as [O' Hend']. simpl in O', Hend'. hconst.
    erewrite check_small_align; [|exact (op_view _ _ _ _ _ _ _ _ _ O')|exact (op_here _ _ _ _ _ _ _ _ _ O')
      |exact (op_ptr _ _ _ _ _ _ _ _ _ O')|hconst; lia..|done].
    hconst. rewrite (proj2 (Z.leb_le _ _)) by lia.
    cbn [obind expect]. eexists _, _, _, _, _. split_and!; [done|exact Hi'| |congruence|lia].
    rewrite (used_app (_ ++ _)), used_cons. simpl. by rewrite app_nil_r.
  - destruct (grow_free_spec _ _ _ _ _ actual Hi) as (h' & Hrun & Hi' & He'); try lia.
    rewrite Hrun. cbn [obind].
    destruct (last_block _ _ _ _ (proj1 Hi')) as [O' Hend']. simpl in O', Hend'. hconst.
    erewrite check_small_align; [|exact (op_view _ _ _ _ _ _ _ _ _ O')|exact (op_here _ _ _ _ _ _ _ _ _ O')
      |exact (op_ptr _ _ _ _ _ _ _ _ _ O')|hconst; lia..|done].
    hconst. rewrite (proj2 (Z.leb_le _ _)) by lia.
    cbn [obind expect]. eexists _, _, _, _, _. split_and!; [done|exact Hi'| |congruence|lia].
    rewrite !used_app. done.
Qed.

(** [find_fit] when a free block is large enough. *)
Lemma find_fit_found_spec h w bs fl l a :
  heap_inv h bs fl -> layout_ok l ->
  first_fit (base.size (hdrs h)) h (align_up_to (lsize l) 8) (free_head h) = Ret (Some (a, a)) ->
  find_fit h w l = Ret (Some (a, a), h, w).
Proof.
  intros Hi [Hsz Hal] Hff. assert (1 <= lalign l <= 8) by (unfold small_align in Hal; lia).
  assert (USIZE / 2 + 8 < USIZE) by done. unfold find_fit. rewrite au8 by lia. cbn [obind].
  destruct (Z.leb_spec (lalign l) 8); [|lia]. by rewrite Hff.
Qed.

Lemma find_fit_none_spec h w bs fl l w' :
  heap_inv h bs fl -> layout_ok l ->
  grow_heap_fn w (Z.max (BLOCK_HEADER_SIZE + lalign l + lsize l) 4096) = Ret (None, w') ->
  first_fit (base.size (hdrs h)) h (align_up_to (lsize l) 8) (free_head h) = Ret None ->
  find_fit h w l = Ret (None, h, w').
Proof.
  intros Hi [Hsz Hal] Hg Hff. assert (1 <= lalign l <= 8) by (unfold small_align in Hal; lia).
  assert (USIZE / 2 + 40 < USIZE) by done. unfold find_fit. rewrite au8 by lia. cbn [obind].
  destruct (Z.leb_spec (lalign l) 8); [|lia]. rewrite Hff. cbn [obind].
  hconst. rewrite uadd_ok by lia. cbn [obind]. rewrite uadd_ok by lia. cbn [obind]. by rewrite Hg.
Qed.

Lemma heap_inv_new_disjoint h bs fl a s b l :
  heap_inv h bs fl -> used bs ≡ₚ mkBlock a s true :: l -> b ∈ l ->
  a + BLOCK_HEADER_SIZE + s <= baddr b \/ baddr b + BLOCK_HEADER_SIZE + bsize b <= a.
Proof.
  intros [Hi _] Hu Hb. pose proof (inv_chain _ _ _ Hi) as Hc.
  assert (Hnd : NoDup (used bs)).
  { unfold used. apply NoDup_filter. clear -Hc. revert Hc. generalize 0 as pa, KHS as lo.
    induction bs as [|b bs IH]; intros pa lo Hc; [constructor|].
    simpl in Hc. destruct Hc as (Hb & ? & ? & ? & Hc). constructor; [|by eapply IH].
    intros Hin. destruct (chain_in _ _ _ _ _ _ Hc Hin). hconst. lia. }
  rewrite Hu in Hnd. apply NoDup_cons in Hnd as [Hnot _].
  assert (Hall : forall c, c ∈ mkBlock a s true :: l -> c ∈ bs).
  { intros c. rewrite <- Hu. by intros [_ ?]%list_elem_of_filter. }
  assert (Hne : mkBlock a s true <> b) by congruence.
  apply (chain_disjoint _ _ _ _ _ (mkBlock a s true) b Hc); [| |done]; apply Hall; set_solver.
Qed.

(** What a successful allocation of [sz] bytes at [p] guarantees. *)
Definition allocated (bs : list block) (h' : heap) (w' : W) (p sz : Z) : Prop :=
  exists bs' fl' s,
    heap_inv h' bs' fl' /\ heap_break w' = heap_end h' /\ sz <= s /\ p mod 8 = 0 /\
    used bs' ≡ₚ mkBlock (p - BLOCK_HEADER_SIZE) s true :: used bs /\
    (forall b, b ∈ used bs -> p + s <= baddr b \/ baddr b + BLOCK_HEADER_SIZE + bsize b <= p - BLOCK_HEADER_SIZE).

Lemma split_found h w bs fl l1 a s l2 l h0 w0 bs0 :
  heap_inv h bs fl -> bs = l1 ++ mkBlock a s false :: l2 -> layout_ok l -> align_up_to (lsize l) 8 <= s ->
  heap_break w = heap_end h -> used bs = used bs0 ->
  find_fit h0 w0 l = Ret (Some (a, a), h, w) ->
  exists h', alloc h0 w0 l = Ret (a + BLOCK_HEADER_SIZE, h', w) /\
    allocated bs0 h' w (a + BLOCK_HEADER_SIZE) (lsize l).
Proof.
  intros Hi -> [Hsz _] Hfit Hbrk Hu0 Hff.
  destruct (split_two_spec _ _ _ _ _ _ l Hi (proj1 Hsz) Hfit) as (h' & bs' & fl' & Hrun & Hi' & He & t & Ht & Hu).
  unfold alloc. rewrite Hff. cbn [obind]. unfold split_block. rewrite Z.eqb_refl, Hrun. cbn [obind].
  eexists; split; [done|]. exists bs', fl', t.
  destruct (op_ptr _ _ _ _ _ _ _ _ _ (heap_shape_open _ _ _ _ _ _ _ (proj1 Hi))) as [_ H8].
  rewrite Hu0 in Hu. replace (a + BLOCK_HEADER_SIZE - BLOCK_HEADER_SIZE) with a by lia.
  split_and!; try done; [congruence|hconst; lia|].
  intros b Hb. eapply heap_inv_new_disjoint; [exact Hi'|exact Hu|done].
Qed.

(** The heap grows by a block of its own that is too short for
    [check_aligned_fit]. *)
Lemma find_fit_short_spec h w bs fl l w' nh actual :
  heap_inv h bs fl -> layout_ok l -> heap_break w = heap_end h -> last_used true bs = true ->
  growth l < align_up_to (lsize l) 8 + 2 * BLOCK_HEADER_SIZE ->
  grow_heap_fn w (Z.max (BLOCK_HEADER_SIZE + lalign l + lsize l) 4096) = Ret (Some (nh, actual), w') ->
  first_fit (base.size (hdrs h)) h (align_up_to (lsize l) 8) (free_head h) = Ret None ->
  find_fit h w l = Panic.
Proof.
  intros Hi [Hsz Hal] Hbrk Hused Hshort Hgrow Hff. assert (1 <= lalign l <= 8) by (unfold small_align in Hal; lia).
  assert (Hhalf : USIZE / 2 = 2 ^ 63) by done. assert (USIZE = 2 ^ 64) by done. pose proof (au8_props (lsize l)).
  hconst. pose proof Hgrow as Hlaw. apply grow_some in Hlaw as (-> & _ & Hmod & Hge & Hlim); [|lia].
  assert (Hact : actual = growth l).
  { unfold growth. hconst. change 4096 with (2 ^ 12) in *. set (n := Z.max _ _) in *.
    pose proof (align_up_to_ge n 12 ltac:(lia)). pose proof (align_up_to_mod n 12 ltac:(lia)). lia. }
  rewrite Hbrk in *. unfold find_fit. hconst.
  rewrite au8 by lia. cbn [obind]. destruct (Z.leb_spec (lalign l) 8); [|lia]. rewrite Hff. cbn [obind].
  rewrite uadd_ok by lia. cbn [obind]. rewrite uadd_ok by lia. cbn [obind]. rewrite Hgrow. cbn [obind].
  rewrite uadd_ok by lia. cbn [obind].
  destruct bs as [|[a s u] l1 _] using rev_ind; [by destruct (inv_nonempty _ _ _ (proj1 Hi))|].
  rewrite last_used_snoc in Hused. simpl in Hused. subst u.
  destruct (last_block _ _ _ _ (proj1 Hi)) as [O He]. simpl in O, He.
  pose proof (op_view _ _ _ _ _ _ _ _ _ O) as V. pose proof (op_here _ _ _ _ _ _ _ _ _ O) as Ha.
  assert (Ht : tail h = a) by exact (view_tail _ _ _ _ _ _ _ V). cbn [with_heap_end tail]. rewrite Ht.
  destruct (view_rd _ _ _ _ _ _ _ _ _ _ _ V Ha) as (b & Hb & _ & _ & _ & Hu & _).
  unfold rd in *. cbn [with_heap_end hdrs]. rewrite Hb. cbn [obind]. rewrite is_free_used, Hu. cbn [negb].
  rewrite usub_ok by (hconst; lia). cbn [obind].
  destruct (grow_used_spec _ _ _ _ _ actual _ Hi eq_refl) as (h' & Hrun & Hi' & He'); hconst; try lia.
  destruct (insert_free_block _ _) as [h1| |]; try done. cbn [obind] in *. rewrite Hrun. cbn [obind].
  destruct (last_block _ _ _ _ (proj1 Hi')) as [O' Hend']. simpl in O', Hend'. hconst.
  edestruct check_small_align_short as [-> | ->]; [exact (op_view _ _ _ _ _ _ _ _ _ O')|exact (op_here _ _ _ _ _ _ _ _ _ O')
    |exact (op_ptr _ _ _ _ _ _ _ _ _ O')|hconst; lia..|exact Hal|done|done].
Qed.

(** Without a fit the result depends on that of [grow_heap_fn]. *)
Lemma find_fit_grows h w l x : layout_ok l ->
  first_fit (base.size (hdrs h)) h (align_up_to (lsize l) 8) (free_head h) = Ret None ->
  find_fit h w l = Ret x -> exists r, grow_heap_fn w (Z.max (BLOCK_HEADER_SIZE + lalign l + lsize l) 4096) = Ret r.
Proof.
  intros [Hsz Hal] Hff E. assert (1 <= lalign l <= 8) by (unfold small_align in Hal; lia). assert (USIZE / 2 + 40 < USIZE) by done.
  unfold find_fit in E. rewrite au8 in E by lia. cbn [obind] in E. destruct (Z.leb_spec (lalign l) 8); [|lia]. rewrite Hff in E. cbn [obind] in E.
  hconst. rewrite uadd_ok in E by lia. cbn [obind] in E. rewrite uadd_ok in E by lia. cbn [obind] in E. destruct (grow_heap_fn w _) as [r| |]; [by exists r|done|done].
Qed.

(** No free block holds [l]. *)
Definition no_fit (bs : list block) (l : Layout) : Prop :=
  forall b, b ∈ bs -> bused b = false -> bsize b < align_up_to (lsize l) 8.

(** The search through the free list is the search through the free blocks. *)
Lemma first_fit_cases h bs fl l : heap_inv h bs fl ->
  (exists l1 a s l2, bs = l1 ++ mkBlock a s false :: l2 /\ align_up_to (lsize l) 8 <= s /\
     first_fit (base.size (hdrs h)) h (align_up_to (lsize l) 8) (free_head h) = Ret (Some (a, a))) \/
  (no_fit bs l /\ first_fit (base.size (hdrs h)) h (align_up_to (lsize l) 8) (free_head h) = Ret None).
Proof.
  intros Hi. pose proof (inv_view _ _ _ (proj1 Hi)) as V. pose proof (inv_free _ _ _ (proj1 Hi)) as (Hseg & Hfh & _ & Hall).
  destruct (free_list_len _ _ _ (proj1 Hi)) as [Hlen HP].
  destruct (first_fit_spec _ _ _ _ _ _ _ (align_up_to (lsize l) 8) fl 0 _ V Hseg ltac:(by left) Hall HP Hlen)
    as [(a & s & p & u & Hff & Ha & HPa & Hs)|[Hff Hno]]; rewrite <- Hfh in Hff.
  - left. destruct (free_block_split _ _ _ _ _ _ _ (proj1 Hi) Ha HPa) as (l1 & l2 & Hbs). by exists l1, a, s, l2.
  - right. split; [|done]. intros b Hb Hf.
    destruct (chain_in _ _ _ _ _ _ (inv_chain _ _ _ (proj1 Hi)) Hb) as (_ & _ & _ & _ & _ & q & Hq).
    eapply Hno; [|exact Hq]. rewrite (inv_free_all _ _ _ (proj1 Hi)). unfold free_addrs.
    apply list_elem_of_fmap. exists b. split; [done|]. by apply list_elem_of_filter.
Qed.

Lemma no_fit_mid l1 a s l2 l : align_up_to (lsize l) 8 <= s -> ~ no_fit (l1 ++ mkBlock a s false :: l2) l.
Proof. intros Hs Hno. specialize (Hno (mkBlock a s false) ltac:(set_solver) eq_refl). simpl in Hno. lia. Qed.

(** The heap grew by [r], and the new pages are too short. *)
Definition grown_short (bs : list block) (l : Layout) (r : option (Z * Z)) : Prop :=
  no_fit bs l /\ is_Some r /\ ~ growth_fits bs l.

Lemma alloc_cases h w bs fl l r wg
  (Hi : heap_inv h bs fl) (Hl : layout_ok l) (Hbrk : heap_break w = heap_end h)
  (Hgrow : grow_heap_fn w (Z.max (BLOCK_HEADER_SIZE + lalign l + lsize l) 4096) = Ret (r, wg)) :
  (grown_short bs l r /\ alloc h w l = Panic) \/
  (~ grown_short bs l r /\ exists p h' w', alloc h w l = Ret (p, h', w') /\
    ((p = 0 /\ h' = h /\ heap_break w' = heap_end h /\ no_fit bs l /\ r = None) \/
     (allocated bs h' w' p (lsize l) /\ ~ (no_fit bs l /\ r = None)))).
Proof.
  destruct (first_fit_cases h bs fl l Hi) as [(l1 & a & s & l2 & -> & Hs & Hff)|[Hno Hff]].
  - pose proof (no_fit_mid l1 a s l2 l Hs) as Hfit. right. split; [by intros (? & _)|].
    destruct (split_found h w _ fl l1 a s l2 l h w _ Hi eq_refl Hl Hs Hbrk eq_refl) as (h' & Hrun & Hal);
      [by eapply find_fit_found_spec|]. eexists _, _, _. split; [exact Hrun|]. right. split; [done|]. by intros [? _].
  - destruct r as [[nh actual]|].
    + destruct (decide (last_used true bs = true /\ growth l < align_up_to (lsize l) 8 + 2 * BLOCK_HEADER_SIZE)) as [[Hu Hshort]|Hok].
      * left. split; [|unfold alloc; by rewrite (find_fit_short_spec _ _ _ _ _ _ _ _ Hi Hl Hbrk Hu Hshort Hgrow Hff)].
        split_and!; [done|by eexists|]. intros [K|K]; [congruence|lia].
      * assert (Hfits : growth_fits bs l) by (unfold growth_fits; destruct (last_used true bs); [right; lia|by left]).
        right. split; [by intros (_ & _ & ?)|].
        destruct (find_fit_grow_spec _ _ _ _ _ _ _ _ Hi Hl Hfits Hbrk Hgrow Hff) as (h1 & l1 & a & s & fl1 & Hff1 & Hi1 & Hu1 & Hb1 & Hs1).
        destruct (split_found h1 wg _ fl1 l1 a s [] l h w bs Hi1 eq_refl Hl Hs1 Hb1 Hu1 Hff1) as (h' & Hrun & Hal).
        eexists _, _, _. split; [exact Hrun|]. right. split; [done|]. by intros [_ ?].
    + right. split; [by intros (_ & [? ?] & _)|]. exists 0, h, wg. unfold alloc. erewrite find_fit_none_spec by done. split; [done|left].
      split_and!; [done|done|by rewrite (grow_none _ _ _ Hgrow)|done|done].
Qed.

(** C1: [alloc] with an alignment of at most 8, when the request for pages
    returns.  It panics in exactly one case: no free block is large enough,
    the last block is in use, and the pages the heap grew by leave less than 16
    bytes beyond the request and its header, as a request of 4072 bytes on a
    full heap does.  In every other case it returns: null, with the heap
    unchanged, exactly when no free block is large enough and the heap could not
    grow; otherwise an 8-aligned area of at least the requested size that
    overlaps no live block, with every live block still live and the heap
    invariant again true. *)
Theorem alloc_spec h w bs fl l r wg
  (Hi : heap_inv h bs fl) (Hl : layout_ok l) (Hbrk : heap_break w = heap_end h)
  (Hgrow : grow_heap_fn w (Z.max (BLOCK_HEADER_SIZE + lalign l + lsize l) 4096) = Ret (r, wg)) :
  (grown_short bs l r /\ alloc h w l = Panic) \/
  (~ grown_short bs l r /\ exists p h' w', alloc h w l = Ret (p, h', w') /\
    ((p = 0 /\ h' = h /\ heap_break w' = heap_end h /\ no_fit bs l /\ r = None) \/
     (allocated bs h' w' p (lsize l) /\ ~ (no_fit bs l /\ r = None)))).
Proof. by apply (alloc_cases h w bs fl l r wg). Qed.

End Contract.

(** ** Freeing a block *)

Lemma opened_intro h P L l1 a s u l2 fl tl he fh :
  view h P L KHS tl he fh -> tl = last_addr a l2 -> chain P 0 KHS l1 a ->
  P !! a = Some (s, off_of (last_addr 0 l1), u) -> MIN_ALLOC_SIZE <= s -> s mod 8 = 0 ->
  chain P a (a + BLOCK_HEADER_SIZE + s) l2 he -> he < USIZE -> free_list L fh fl ->
  opened h l1 a s u l2 fl P L.
Proof.
  intros V -> Hc1 Ha Hs Hm Hc2 Hhe Hf.
  pose proof (chain_bounds _ _ _ _ _ Hc1) as (? & _ & H8). specialize (H8 KHS_mod).
  pose proof (chain_bounds _ _ _ _ _ Hc2) as (? & _). pose proof V as [_ _ _ _ _ He Hfh].
  rewrite <- He, <- Hfh in *. hconst.
  pose proof (last_addr_ok _ KHS _ a (Z.le_refl _) KHS_mod ltac:(lia) Hc1).
  split; try done; hconst; try lia. split; [lia|done].
Qed.

Lemma opened_tail h l1 a s u l2 fl P L :
  opened h l1 a s u l2 fl P L -> (a =? tail h) = match l2 with [] => true | _ => false end.
Proof.
  intros O. rewrite (view_tail _ _ _ _ _ _ _ (op_view _ _ _ _ _ _ _ _ _ O)).
  destruct l2 as [|c l2]; [apply Z.eqb_refl|]. apply Z.eqb_neq. unfold last_addr, last_or.
  destruct (last (baddr <$> c :: l2)) as [z|] eqn:E; [|by apply last_None in E].
  apply last_Some_elem_of, list_elem_of_fmap in E as (d & -> & Hin).
  destruct (chain_in _ _ _ _ _ _ (op_after _ _ _ _ _ _ _ _ _ O) Hin) as (? & _).
  pose proof (op_size _ _ _ _ _ _ _ _ _ O). simpl. hconst. lia.
Qed.

(** Reading the block at hand. *)
Lemma opened_rd h l1 a s u l2 fl P L :
  opened h l1 a s u l2 fl P L ->
  exists b, rd h a = Ret b /\ _size b = s /\ is_used b = u /\
    next a b = Ret (a + BLOCK_HEADER_SIZE + s) /\ prev b = Ret (last_addr 0 l1).
Proof.
  intros [V _ Ha [Hs _] _ [Hp _] He [Hok _] _].
  destruct (view_rd _ _ _ _ _ _ _ _ _ _ _ V Ha) as (b & ? & _ & Hbs & Hbp & ? & _).
  exists b. pose proof KHS_pos. hconst. split_and!; try done.
  - rewrite next_ok by (hconst; lia). by rewrite Hbs.
  - unfold prev. rewrite Hbp. by apply from_offset_ok.
Qed.

(** Merging the free block that follows. *)
Lemma merge_next_spec h l1 a s n ns l3 fl P L :
  opened h l1 a s false (mkBlock n ns false :: l3) fl P L ->
  fl ≡ₚ free_addrs (l1 ++ mkBlock n ns false :: l3) ->
  exists h' P' L' fl',
    (let! h := wr h a (add_size (BLOCK_HEADER_SIZE + ns)) in
     let! h := remove_free_block h n in
     remove_from_list h n) = Ret h' /\
    opened h' l1 a (s + (BLOCK_HEADER_SIZE + ns)) false l3 fl' P' L' /\ fl' ≡ₚ free_addrs (l1 ++ l3) /\
    heap_end h' = heap_end h.
Proof.
  intros [V Hc1 Ha [Hs Hm] Hc2 [Hp H8] Hend [Hok _] Hf] Hfa.
  simpl in Hc2. destruct Hc2 as (-> & Hns & Hnm & Hn & Hc3). rewrite last_addr_cons in V. simpl in V. hconst.
  pose proof (chain_bounds _ _ _ _ _ Hc3) as (Hle3 & _).
  destruct (wr_add_size _ _ _ _ _ _ _ a (16 + ns) _ _ _ V Ha) as (h1 & -> & V1);
    try (split; [lia|]); try lia; [apply window; lia..|]. cbn [obind].
  set (n := a + 16 + s) in *.
  destruct (unlink_spec _ _ _ _ _ _ _ _ n V1 Hf Hfa) as (h2 & L2 & fh2 & fl2 & -> & V2 & Hf2 & Hfa2).
  { rewrite Hfa, free_addrs_mid. set_solver. }
  cbn [obind]. set (P1 := <[a := (s + (16 + ns), off_of (last_addr 0 l1), false)]> P) in *.
  assert (Hc3' : chain P1 n (n + BLOCK_HEADER_SIZE + ns) l3 (heap_end h)).
  { eapply chain_frame; [|exact Hc3]. intros x Hx. hconst. apply lookup_insert_ne. subst n; lia. }
  destruct (remove_from_list_spec _ _ _ _ _ _ _ n ns a false l3 V2) as (h3 & -> & V3); try done; try lia.
  { subst P1. rewrite lookup_insert_ne by (subst n; lia). done. }
  { split; subst n; lia. }
  exists h3, (relink a l3 P1), L2, fl2. split_and!; [done| | |exact (view_end _ _ _ _ _ _ _ V3)].
  - assert (Hlow : forall x, x <= a -> relink a l3 P1 !! x = P1 !! x).
    { intros x Hx. apply (relink_below _ _ _ _ _ _ _ Hc3'). hconst. subst n; lia. }
    eapply opened_intro; [exact V3|done| | |hconst; lia..| |lia|exact Hf2].
    + eapply chain_frame; [|exact Hc1]. intros x Hx. rewrite Hlow by lia. apply lookup_insert_ne. lia.
    + rewrite Hlow by lia. subst P1. by rewrite lookup_insert_eq.
    + hconst. replace (a + 16 + (s + (16 + ns))) with (n + 16 + ns) by (subst n; lia).
      by eapply chain_relink.
  - rewrite free_addrs_mid in Hfa2. simpl in Hfa2. by apply Permutation_cons_inv in Hfa2.
Qed.

(** Merging into the free block before. *)
Lemma merge_prev_spec h l0 p ps a s l2 fl P L :
  opened h (l0 ++ [mkBlock p ps false]) a s false l2 fl P L ->
  fl ≡ₚ free_addrs ((l0 ++ [mkBlock p ps false]) ++ l2) ->
  exists h', (let! h := remove_from_list h a in
              let! b := rd h a in
              let! t := uadd BLOCK_HEADER_SIZE (size b) in
              wr h p (add_size t)) = Ret h' /\
    heap_shape h' (l0 ++ mkBlock p (ps + (BLOCK_HEADER_SIZE + s)) false :: l2) fl /\
    heap_end h' = heap_end h.
Proof.
  intros [V Hc1 Ha [Hs Hm] Hc2 [Hp H8] Hend [Hok _] Hf] Hfa.
  rewrite last_addr_app, last_addr_cons in *. unfold last_addr at 1 in Ha. unfold last_addr at 1 in Hok.
  simpl in Ha, Hok. change (last_or p []) with p in *.
  apply chain_app in Hc1 as (mid & Hc0 & Hc1). simpl in Hc1. destruct Hc1 as (<- & Hps & Hpm & HPp & Hpa).
  pose proof (chain_bounds _ _ _ _ _ Hc0) as (? & _ & H8p). specialize (H8p KHS_mod).
  pose proof (chain_bounds _ _ _ _ _ Hc2) as (Hle & _). hconst. pose proof KHS_pos.
  destruct (remove_from_list_spec _ _ _ _ _ _ _ a s p false l2 V Ha) as (h1 & -> & V1); try done; try lia.
  { split; [lia|done]. }
  cbn [obind].
  assert (Hlow : forall x, x <= a -> relink p l2 P !! x = P !! x).
  { intros x Hx. apply (relink_below _ _ _ _ _ _ _ Hc2). hconst. lia. }
  destruct (view_rd _ _ _ _ _ _ _ a s (off_of p) false V1) as (b & -> & _ & Hbs & _);
    [by rewrite Hlow by lia|]. cbn [obind]. unfold size. rewrite Hbs, uadd_ok by (hconst; lia). cbn [obind].
  destruct (wr_add_size _ _ _ _ _ _ _ p (16 + s) ps (off_of (last_addr 0 l0)) false V1)
    as (h2 & -> & V2); try (split; [lia|]); try lia;
    [by rewrite Hlow by lia|apply window; lia..|].
  exists h2. split_and!; [done| |exact (view_end _ _ _ _ _ _ _ V2)].
  eapply heap_shape_intro; [exact V2| | | |lia|exact Hf|].
  - by rewrite last_addr_app, last_addr_cons.
  - eapply chain_update; hconst; try lia.
    + eapply chain_frame; [|exact Hc0]. intros x Hx. apply Hlow. lia.
    + by rewrite Hlow by lia.
    + replace (p + 16 + (ps + (16 + s))) with (a + 16 + s) by lia. by eapply chain_relink.
  - by destruct l0.
  - rewrite Hfa, <- app_assoc. simpl. by rewrite !free_addrs_mid.
Qed.

(** Returning a block to the free list. *)
Lemma attach_spec h l1 a s l2 fl P L :
  opened h l1 a s false l2 fl P L -> fl ≡ₚ free_addrs (l1 ++ l2) ->
  exists h', insert_free_block h a = Ret h' /\
    heap_shape h' (l1 ++ mkBlock a s false :: l2) (a :: fl) /\ heap_end h' = heap_end h.
Proof.
  intros [V Hc1 Ha [Hs Hm] Hc2 Hp Hend _ Hf] Hfa.
  destruct (view_rd _ _ _ _ _ _ _ _ _ _ _ V Ha) as (b & _ & _ & _ & _ & _ & HL & _).
  assert (Hout : a ∉ fl).
  { rewrite Hfa, free_addrs_app. unfold free_addrs. rewrite elem_of_app, !list_elem_of_fmap.
    intros [(c & Heq & [_ Hc]%list_elem_of_filter)|(c & Heq & [_ Hc]%list_elem_of_filter)].
    - destruct (chain_in _ _ _ _ _ _ Hc1 Hc) as (_ & ? & ? & _). hconst. lia.
    - destruct (chain_in _ _ _ _ _ _ Hc2 Hc) as (? & _). hconst. lia. }
  destruct (insert_free_block_spec _ _ _ _ _ _ _ _ _ _ V Hf HL Hp Hout) as (h' & L' & -> & V' & Hf').
  exists h'. split_and!; [done| |exact (view_end _ _ _ _ _ _ _ V')].
  eapply heap_shape_intro; [exact V'| | | |lia|exact Hf'|].
  - by rewrite last_addr_app, last_addr_cons.
  - apply chain_app. exists a. split; [done|]. by split_and!.
  - by destruct l1.
  - by rewrite Hfa, free_addrs_mid.
Qed.

(** The first half of [dealloc_and_coalesce], after [set_free]. *)
Lemma coalesce_next_spec h l1 a s l2 fl P L :
  opened h l1 a s false l2 fl P L -> fl ≡ₚ free_addrs (l1 ++ l2) -> coalesced true l2 ->
  exists h' P' L' s' l3 fl',
    (let! b := rd h a in
     let! nx := next a b in
     let! merge_next := (if a =? tail h then Ret false else let! bn := rd h nx in Ret (is_free bn)) in
     if merge_next : bool then
       let! bn := rd h nx in
       let! t := uadd BLOCK_HEADER_SIZE (size bn) in
       let! h := wr h a (add_size t) in
       let! h := remove_free_block h nx in
       remove_from_list h nx
     else Ret h) = Ret h' /\
    opened h' l1 a s' false l3 fl' P' L' /\ fl' ≡ₚ free_addrs (l1 ++ l3) /\
    coalesced false l3 /\ used l3 = used l2 /\ heap_end h' = heap_end h.
Proof.
  intros O Hfa Hco. destruct (opened_rd _ _ _ _ _ _ _ _ _ O) as (b & -> & _ & _ & Hn & _).
  cbn [obind]. rewrite Hn. cbn [obind]. rewrite (opened_tail _ _ _ _ _ _ _ _ _ O).
  destruct l2 as [|[n ns nu] l2].
  { eexists h, P, L, s, [], fl. by split_and!. }
  pose proof (op_view _ _ _ _ _ _ _ _ _ O) as V. pose proof (op_after _ _ _ _ _ _ _ _ _ O) as Hc2.
  pose proof (op_end _ _ _ _ _ _ _ _ _ O) as Hend. pose proof (op_ptr _ _ _ _ _ _ _ _ _ O) as [Hp _].
  pose proof (op_size _ _ _ _ _ _ _ _ _ O) as [Hs _].
  simpl in Hc2. destruct Hc2 as (-> & Hns & _ & HPn & Hc3). pose proof (chain_bounds _ _ _ _ _ Hc3) as (? & _).
  destruct (view_rd _ _ _ _ _ _ _ _ _ _ _ V HPn) as (bn & Hbn & _ & Hbs & _ & Hbu & _).
  rewrite Hbn. cbn [obind]. rewrite is_free_used, Hbu. simpl in Hco. destruct nu; simpl negb; cbn iota.
  - eexists h, P, L, s, _, fl. split_and!; [done|exact O|done..].
  - unfold size. rewrite Hbs. pose proof KHS_pos. rewrite uadd_ok by (hconst; lia). cbn [obind].
    destruct (merge_next_spec _ _ _ _ _ _ _ _ _ _ O Hfa) as (h' & P' & L' & fl' & -> & O' & Hfa' & He).
    eexists h', P', L', _, l2, fl'. split_and!; try done. tauto.
Qed.

(** The second half. *)
Lemma coalesce_prev_spec h l1 a s l2 fl P L :
  opened h l1 a s false l2 fl P L -> fl ≡ₚ free_addrs (l1 ++ l2) ->
  coalesced true l1 -> coalesced false l2 ->
  exists h' bs' fl',
    (let! b := rd h a in
     let! pv := prev b in
     let! merge_prev := (if pv =? 0 then Ret false else let! bp := rd h pv in Ret (is_free bp)) in
     if merge_prev : bool then
       let! h := remove_from_list h a in
       let! b := rd h a in
       let! t := uadd BLOCK_HEADER_SIZE (size b) in
       wr h pv (add_size t)
     else insert_free_block h a) = Ret h' /\
    heap_inv h' bs' fl' /\ used bs' = used (l1 ++ l2) /\ heap_end h' = heap_end h.
Proof.
  intros O Hfa Hco1 Hco2. destruct (opened_rd _ _ _ _ _ _ _ _ _ O) as (b & Hb & _ & _ & _ & Hpv).
  rewrite Hb. cbn [obind]. rewrite Hpv. cbn [obind]. pose proof (op_prev _ _ _ _ _ _ _ _ _ O) as [_ Hnil].
  assert (Hatt : last_used true l1 = true -> exists h' bs' fl', insert_free_block h a = Ret h' /\
    heap_inv h' bs' fl' /\ used bs' = used (l1 ++ l2) /\ heap_end h' = heap_end h).
  { intros Hlu. destruct (attach_spec _ _ _ _ _ _ _ _ O Hfa) as (h' & -> & Hi & He).
    exists h', (l1 ++ mkBlock a s false :: l2), (a :: fl).
    split_and!; [done| |by rewrite !used_app|done]. split; [exact Hi|]. apply coalesced_app. rewrite Hlu. by split_and!. }
  destruct l1 as [|[p ps pu] l0 _] using rev_ind; [by apply Hatt|].
  destruct (Z.eqb_spec (last_addr 0 (l0 ++ [mkBlock p ps pu])) 0) as [Hz|_].
  { apply Hnil in Hz. by destruct l0. }
  pose proof (op_view _ _ _ _ _ _ _ _ _ O) as V. pose proof (op_before _ _ _ _ _ _ _ _ _ O) as Hc1.
  destruct (chain_in _ _ _ _ _ (mkBlock p ps pu) Hc1 ltac:(set_solver)) as (_ & _ & _ & _ & _ & x & HPp).
  rewrite last_addr_app, last_addr_cons. unfold last_addr, last_or. simpl default. simpl in HPp.
  destruct (view_rd _ _ _ _ _ _ _ _ _ _ _ V HPp) as (bp & Hbp & _ & _ & _ & Hbu & _).
  rewrite Hbp. cbn [obind]. rewrite is_free_used, Hbu. destruct pu; simpl negb; cbn iota.
  - apply Hatt. by rewrite last_used_snoc.
  - destruct (merge_prev_spec _ _ _ _ _ _ _ _ _ _ O Hfa) as (h' & -> & Hi & He).
    eexists _, _, _. split_and!; [done| | |done].
    + split; [exact Hi|]. apply coalesced_app in Hco1 as (? & ? & _). by apply coalesced_app.
    + rewrite <- app_assoc. by rewrite !used_app.
Qed.

(** C2: freeing a live block never panics or faults, keeps the heap invariant
    (blocks tile the heap, the free list holds exactly the free blocks, no two
    neighbours are both free), and removes exactly that block from the live
    ones. *)
Theorem dealloc_spec h bs fl a s layout (Hi : heap_inv h bs fl) (Ha : mkBlock a s true ∈ bs) :
  exists h' bs' fl', dealloc h (a + BLOCK_HEADER_SIZE) layout = Ret h' /\ heap_inv h' bs' fl' /\
    heap_end h' = heap_end h /\ mkBlock a s true :: used bs' ≡ₚ used bs.
Proof.
  apply list_elem_of_split in Ha as (l1 & l2 & ->). destruct Hi as [Hi Hco].
  pose proof (inv_free_all _ _ _ Hi) as Hfa. rewrite free_addrs_mid in Hfa. simpl in Hfa.
  apply coalesced_app in Hco as (Hco1 & _ & Hco2). simpl in Hco2.
  destruct (heap_shape_open _ _ _ _ _ _ _ Hi) as [V Hc1 Ha [Hs Hm] Hc2 [Hp H8] Hend Hok Hf].
  pose proof KHS_pos. unfold dealloc, dealloc_and_coalesce.
  rewrite (proj2 (Z.eqb_neq _ 0)) by (hconst; lia). rewrite usub_ok by (hconst; lia). cbn [obind].
  replace (a + BLOCK_HEADER_SIZE - BLOCK_HEADER_SIZE) with a by lia.
  destruct (wr_set_free _ _ _ _ _ _ _ _ _ _ _ V Ha) as (h1 & -> & V1). cbn [obind].
  assert (He1 : heap_end h1 = heap_end h) by exact (view_end _ _ _ _ _ _ _ V1).
  eapply opened_intro in V1 as O; [|done| |apply lookup_insert_eq|done|done| |lia|exact Hf].
  2: { eapply chain_frame; [|exact Hc1]. intros x Hx. apply lookup_insert_ne. lia. }
  2: { eapply chain_frame; [|exact Hc2]. intros x Hx. hconst. apply lookup_insert_ne. lia. }
  destruct (coalesce_next_spec _ _ _ _ _ _ _ _ O Hfa Hco2)
    as (h2 & P2 & L2 & s2 & l3 & fl2 & Hrun & O2 & Hfa2 & Hco3 & Hu3 & He2).
  destruct (coalesce_prev_spec _ _ _ _ _ _ _ _ O2 Hfa2 Hco1 Hco3) as (h3 & bs3 & fl3 & Hrun3 & Hi3 & Hu & He3).
  exists h3, bs3, fl3. split_and!; [|done|congruence|].
  - destruct (rd h1 a) as [b1| |]; try done. cbn [obind] in Hrun |- *.
    destruct (next a b1) as [nx| |]; try done. cbn [obind] in Hrun |- *.
    destruct (if a =? tail h1 then _ else _) as [mn| |]; try done. cbn [obind] in Hrun |- *.
    rewrite Hrun. exact Hrun3.
  - rewrite Hu, used_mid, !used_app, Hu3. done.
Qed.

(** ** A fresh heap *)

Lemma init_spec n :
  MIN_BLOCK_SIZE <= n -> n mod 8 = 0 -> KHS + n < USIZE ->
  exists h, init fresh KHS n = Ret h /\ heap_end h = KHS + n /\
    heap_inv h [mkBlock KHS (n - BLOCK_HEADER_SIZE) false] [KHS].
Proof.
  intros Hn Hm Hlim. unfold init. hconst. rewrite usub_ok by lia. cbn [obind]. rewrite uadd_ok by lia. cbn [obind].
  assert (Hr : 0 <= n - 16 < U32) by (split; [lia|apply window; lia]).
  assert (V0 : view (mkHeap ∅ KHS KHS (KHS + n) KHS) ∅ ∅ KHS KHS (KHS + n) KHS).
  { split; try done. }
  pose proof (view_put _ _ _ _ _ _ _ KHS _ V0 (hdr_wf_new _ false Hr)) as V. rewrite phys_new in V by done.
  eexists; split; [done|]. split; [done|]. split; [|by split].
  eapply heap_shape_intro; [exact V|done| |done|done| |done].
  - simpl. hconst. rewrite lookup_insert_eq. split_and!; try done; lia.
  - split_and!; [|done|apply NoDup_singleton|by repeat constructor].
    simpl. by rewrite lookup_insert_eq.
Qed.

(** ** Where the allocator fails *)

Section Panic.
Context {W : Type} `{HeapGrower W}.

(** when the last block is in use, no free block fits and the pages asked
    of [grow_heap_fn] leave less than 16 bytes beyond the request and its
    header, [alloc] panics in [expect] although the new pages hold the request:
    [find_fit] asks for 16 + align + size bytes where [check_aligned_fit] wants
    32 + size. *)
Theorem alloc_growth_panic h w bs fl l w' nh actual
  (Hi : heap_inv h bs fl) (Hl : layout_ok l) (Hbrk : heap_break w = heap_end h)
  (Hused : last_used true bs = true) (Hno : no_fit bs l)
  (Hgrow : grow_heap_fn w (Z.max (BLOCK_HEADER_SIZE + lalign l + lsize l) 4096) = Ret (Some (nh, actual), w'))
  (Hshort : growth l < align_up_to (lsize l) 8 + 2 * BLOCK_HEADER_SIZE) :
  alloc h w l = Panic.
Proof.
  destruct (first_fit_cases h bs fl l Hi) as [(l1 & a & s & l2 & -> & Hs & _)|[_ Hff]]; [by destruct (no_fit_mid l1 a s l2 l Hs)|].
  unfold alloc. by rewrite (find_fit_short_spec _ _ _ _ _ _ _ _ Hi Hl Hbrk Hused Hshort Hgrow Hff).
Qed.

End Panic.

(** ** Concrete runs *)

#[local] Existing Instance page_grower.

#[export] Instance hdr_wf_dec b : Decision (hdr_wf b).
Proof. unfold hdr_wf. apply _. Defined.

(** The kernel's initial heap, and the state after [rs]. *)
Definition boot (rs : list request) : outcome (list Z * heap * Z) :=
  let! h := init fresh KERNEL_HEAP_START KERNEL_HEAP_SIZE in
  client rs [] h (KERNEL_HEAP_START + KERNEL_HEAP_SIZE).

Definition boot_heap (rs : list request) : heap :=
  match boot rs with Ret (_, h, _) => h | _ => fresh end.

(** The invariant of a concrete heap, by evaluation. *)
Ltac heap_inv_eval :=
  split; [split; [split; [reflexivity|reflexivity
    |apply (bool_decide_unpack _); vm_compute; exact I|reflexivity..]
    |vm_compute; repeat split; discriminate
    |discriminate
    |reflexivity
    |split_and!; [vm_compute; repeat split|reflexivity
       |apply (bool_decide_unpack _); vm_compute; exact I
       |repeat constructor; vm_compute; discriminate]
    |reflexivity]
  |vm_compute; repeat split].

(** One live allocation of 512 bytes. *)
Definition heap1 : heap := boot_heap [RAlloc 512 8].
Definition blocks1 : list block := [mkBlock KHS 512 true; mkBlock (KHS + 528) 15840 false].

Lemma heap1_inv : heap_inv heap1 blocks1 [KHS + 528].
Proof. heap_inv_eval. Qed.

(** The whole initial heap in one live allocation. *)
Definition heap2 : heap := boot_heap [RAlloc 16368 8].
Definition blocks2 : list block := [mkBlock KHS 16368 true].

Lemma heap2_inv : heap_inv heap2 blocks2 [].
Proof. heap_inv_eval. Qed.

Lemma dealloc_spec_witness :
  exists h' bs' fl', dealloc heap1 (KHS + BLOCK_HEADER_SIZE) (mkLayout 512 8) = Ret h' /\ heap_inv h' bs' fl' /\
    heap_end h' = heap_end heap1 /\ mkBlock KHS 512 true :: used bs' ≡ₚ used blocks1.
Proof. apply (dealloc_spec heap1 blocks1 [KHS + 528]); [apply heap1_inv|left]. Defined.

Lemma alloc_spec_witness :
  (exists p h' w', alloc heap2 (heap_end heap2) (mkLayout 100 8) = Ret (p, h', w') /\ allocated blocks2 h' w' p 100) /\
  alloc heap2 (heap_end heap2) (mkLayout 4072 8) = Panic.
Proof.
  assert (Hl : forall n, 0 <= n <= 5000 -> layout_ok (mkLayout n 8)) by (intros n Hn; split; [change (USIZE / 2) with (2 ^ 63); simpl; lia|by right; right; right]).
  assert (Hno : forall l, no_fit blocks2 l) by by intros l b ->%list_elem_of_singleton.
  assert (Hb : heap_break (heap_end heap2) = heap_end heap2) by reflexivity.
  assert (Hg : forall n, n = 100 \/ n = 4072 ->
    grow_heap_fn (heap_end heap2) (Z.max (BLOCK_HEADER_SIZE + 8 + n) 4096) = Ret (Some (heap_end heap2, 4096), heap_end heap2 + 4096))
    by (intros n [-> | ->]; vm_compute; reflexivity).
  split.
  - destruct (alloc_spec heap2 (heap_end heap2) blocks2 [] (mkLayout 100 8) (Some (heap_end heap2, 4096)) (heap_end heap2 + 4096)
      heap2_inv (Hl 100 ltac:(lia)) Hb (Hg 100 ltac:(lia))) as [[(_ & _ & K) _]|[_ (p & h' & w' & Hrun & [(_ & _ & _ & _ & K)|[Ha _]])]].
    + exfalso. apply K. right. vm_compute. discriminate.
    + discriminate K.
    + exists p, h', w'. exact (conj Hrun Ha).
  - destruct (alloc_spec heap2 (heap_end heap2) blocks2 [] (mkLayout 4072 8) (Some (heap_end heap2, 4096)) (heap_end heap2 + 4096)
      heap2_inv (Hl 4072 ltac:(lia)) Hb (Hg 4072 ltac:(lia))) as [[_ K]|[K _]]; [exact K|].
    exfalso. apply K. split; [apply Hno|]. split; [eexists; reflexivity|]. intros [E|E]; [discriminate E|]. vm_compute in E. exact (E eq_refl).
Defined.

Lemma alloc_growth_panic_witness : alloc heap2 (heap_end heap2) (mkLayout 4072 8) = Panic.
Proof.
  apply (alloc_growth_panic heap2 (heap_end heap2) blocks2 [] (mkLayout 4072 8)
    (heap_end heap2 + 4096) (heap_end heap2) 4096).
  - apply heap2_inv.
  - split; [vm_compute; by split|by right; right; right].
  - reflexivity.
  - reflexivity.
  - by intros b ->%list_elem_of_singleton.
  - reflexivity.
  - reflexivity.
Defined.

(** with an alignment above 8, [split_block] cuts a block in the middle of
    the heap in three and leaves the [prev] offset of the block after it stale.
    After these requests on a freshly initialised heap two live allocations
    overlap: the 64 bytes of request 3 lie inside the 176 bytes of request 5. *)
Theorem split_three_overlap :
  exists ps h w d e,
    boot [RAlloc 512 8; RAlloc 64 8; RAlloc 64 8; RFree 0; RAlloc 64 128; RFree 1;
          RAlloc 320 8; RAlloc 176 8] = Ret (ps, h, w) /\
    ps !! 3%nat = Some d /\ ps !! 5%nat = Some e /\ e <= d /\ d + 64 <= e + 176.
Proof.
  eexists _, _, _, _, _. split; [vm_compute; reflexivity|].
  split; [reflexivity|]. split; [reflexivity|]. by vm_compute.
Qed.

(** when the aligned part ends 16 or 24 bytes before the end of the block,
    [split_block] leaves a gap without a header, and freeing the allocation
    reads a header that was never written. *)
Theorem split_three_hole :
  (exists ps h w, boot [RAlloc 512 8; RAlloc 64 8; RFree 0; RAlloc 384 128] = Ret (ps, h, w)) /\
  boot [RAlloc 512 8; RAlloc 64 8; RFree 0; RAlloc 384 128; RFree 2] = Fault.
Proof. split; [eexists _, _, _|]; vm_compute; reflexivity. Qed.
