(* ===== verification/PageAllocator.v ===== *)
(** * The physical page allocator (src/src/page_allocator.rs)

    A singly linked list of blocks of free pages.  The node of a block is
    stored in its first page, so the nodes form a store from page addresses to
    nodes.  The abstract state is the list of free pages: [rep] relates the two,
    and each operation refines an operation on that list.  [FrameAllocator] is
    what the page mapper relies on. *)

From S2P Require Import Prelude Memory.
Import Mem.

(** ** The promise to clients *)
Class FrameAllocator (A : Type) := {
  frame_alloc : A -> outcome (option Z * A);
  frame_inv : A -> Prop;
  free_frames : A -> list Z;
  frame_alloc_some : forall a, frame_inv a -> free_frames a <> [] ->
    exists p a' l, frame_alloc a = Ret (Some p, a') /\ frame_inv a' /\
      free_frames a ≡ₚ p :: l /\ free_frames a' ≡ₚ l;
  frame_alloc_none : forall a, frame_inv a -> free_frames a = [] ->
    frame_alloc a = Ret (None, a);
  frame_nodup : forall a, frame_inv a -> NoDup (free_frames a);
  frame_aligned : forall a p, frame_inv a -> p ∈ free_frames a ->
    p mod PAGE_SIZE = 0 /\ 0 < p < USIZE - PAGE_SIZE;
}.

Module Pages.

Record PageNode := mkNode { next : option Z; page_count : Z }.

Record PageAllocator := mkPA {
  head : option Z;
  free_pages : Z;
  total_pages : Z;
  nodes : gmap Z PageNode;
}.

Definition new : PageAllocator := mkPA None 0 0 ∅.

Definition dealloc (s : PageAllocator) (ptr page_count : Z) : outcome PageAllocator :=
  let! fp := uadd (free_pages s) page_count in
  Ret (mkPA (Some ptr) fp (total_pages s) (<[ptr := mkNode (head s) page_count]> (nodes s))).

Definition block_start (node : Z) : Z := node.

Definition alloc (s : PageAllocator) : outcome (option Z * PageAllocator) :=
  match head s with
  | None => Ret (None, s)
  | Some node_ref =>
      let! n := deref (nodes s !! node_ref) in
      let! pc := usub (page_count n) 1 in
      let! off := umul pc PAGE_SIZE in
      let! addr := uadd (block_start node_ref) off in
      let '(hd, nx) := if pc =? 0 then (next n, None) else (head s, next n) in
      let! fp := usub (free_pages s) 1 in
      Ret (Some addr, mkPA hd fp (total_pages s) (<[node_ref := mkNode nx pc]> (nodes s)))
  end.

(** The body of the loop of [init]. *)
Definition init_region (s : PageAllocator) (region : Region) : outcome PageAllocator :=
  let! _ := oassert (Z.land (start region) (PAGE_SIZE - 1) =? 0) in
  let! _ := oassert (Z.land (end_ region) (PAGE_SIZE - 1) =? 0) in
  let! d := usub (end_ region) (start region) in
  let! page_count := udiv d PAGE_SIZE in
  let! r := urem (start region) PAGE_SIZE in
  let! _ := oassert (r =? 0) in
  let! r := urem (end_ region) PAGE_SIZE in
  let! _ := oassert (r =? 0) in
  dealloc s (start region) page_count.

Definition init (s : PageAllocator) (usable_memory : list Region) : outcome PageAllocator :=
  let s := mkPA None 0 (total_pages s) (nodes s) in
  let! s := ofold init_region usable_memory s in
  Ret (mkPA (head s) (free_pages s) (free_pages s) (nodes s)).

Definition free_page_count (s : PageAllocator) : Z := free_pages s.
Definition total_page_count (s : PageAllocator) : Z := total_pages s.

(** ** Abstract state *)

(** The pages of a block, highest first: the order [alloc] hands them out. *)
Fixpoint block_pages (a : Z) (n : nat) : list Z :=
  match n with
  | O => []
  | S n => (a + Z.of_nat n * PAGE_SIZE) :: block_pages a n
  end.

Definition pages (bl : list (Z * nat)) : list Z := bl ≫= fun b => block_pages b.1 b.2.

(** The linked list holds the blocks [bl]. *)
Fixpoint node_list (m : gmap Z PageNode) (hd : option Z) (bl : list (Z * nat)) : Prop :=
  match bl with
  | [] => hd = None
  | (a, n) :: bl =>
      hd = Some a /\ (0 < n)%nat /\
      exists nx, m !! a = Some (mkNode nx (Z.of_nat n)) /\ node_list m nx bl
  end.

Definition page_ok (p : Z) : Prop := p mod PAGE_SIZE = 0 /\ 0 < p < USIZE - PAGE_SIZE.

Record rep (s : PageAllocator) (bl : list (Z * nat)) : Prop := {
  rep_list : node_list (nodes s) (head s) bl;
  rep_nodup : NoDup (pages bl);
  rep_ok : Forall page_ok (pages bl);
  rep_count : free_pages s = Z.of_nat (length (pages bl));
}.

Lemma block_pages_spec a n x :
  x ∈ block_pages a n <-> exists i, (i < n)%nat /\ x = a + Z.of_nat i * PAGE_SIZE.
Proof.
  induction n as [|n IH]; simpl.
  - split; [by intros ?%elem_of_nil|intros (i & ? & _); lia].
  - rewrite elem_of_cons, IH. split.
    + intros [->|(i & ? & ->)]; [exists n|exists i]; split; (lia || done).
    + intros (i & Hi & ->). destruct (decide (i = n)) as [->|]; [by left|right]. exists i. split; [lia|done].
Qed.

Lemma block_pages_len a n : length (block_pages a n) = n.
Proof. induction n; simpl; [done|lia]. Qed.

Lemma block_pages_nodup a n : NoDup (block_pages a n).
Proof.
  induction n as [|n IH]; simpl; [constructor|]. constructor; [|done].
  rewrite block_pages_spec. intros (i & ? & ?). unfold PAGE_SIZE in *. lia.
Qed.

(** The first page of every block is one of its pages, so updating the node of
    the first block leaves the others alone. *)
Lemma block_first a n : (0 < n)%nat -> a ∈ block_pages a n.
Proof. intros. apply block_pages_spec. exists 0%nat. split; [done|]. lia. Qed.

Lemma node_list_frame m m' hd bl :
  (forall x, x ∈ pages bl -> m' !! x = m !! x) -> node_list m hd bl -> node_list m' hd bl.
Proof.
  revert hd. induction bl as [|[a n] bl IH]; intros hd Hf; [done|]. simpl.
  unfold pages in Hf. simpl in Hf. setoid_rewrite elem_of_app in Hf.
  intros (-> & Hn & nx & Ha & Hl). split_and!; try done. exists nx. split.
  - rewrite Hf; [done|]. left. by apply block_first.
  - apply IH; [|done]. intros x Hx. apply Hf. by right.
Qed.

Lemma pages_cons a n bl : pages ((a, n) :: bl) = block_pages a n ++ pages bl.
Proof. done. Qed.

Lemma len_bound l : NoDup l -> Forall page_ok l -> Z.of_nat (length l) < USIZE.
Proof.
  intros Hnd Hall.
  set (k := Z.to_nat (USIZE / PAGE_SIZE)).
  assert (Hincl : l ⊆ (fun i => Z.of_nat i * PAGE_SIZE) <$> seq 0 k).
  { intros p Hp. eapply Forall_forall in Hall as [Hm Hr]; [|done].
    apply list_elem_of_fmap. exists (Z.to_nat (p / PAGE_SIZE)). unfold PAGE_SIZE, USIZE in *.
    split; [lia|]. apply elem_of_seq. subst k. lia. }
  apply (NoDup_submseteq _ _ Hnd) in Hincl. apply submseteq_length in Hincl.
  rewrite length_fmap, length_seq in Hincl. subst k. unfold USIZE, PAGE_SIZE in *. lia.
Qed.

(** ** Refinement *)

Lemma alloc_nil s : rep s [] -> alloc s = Ret (None, s).
Proof. intros [Hl _ _ _]. unfold alloc. simpl in Hl. by rewrite Hl. Qed.

(** [alloc] pops the head of the list of free pages. *)
Lemma alloc_refines s bl p l : rep s bl -> pages bl = p :: l ->
  exists s' bl', alloc s = Ret (Some p, s') /\ rep s' bl' /\ pages bl' = l /\
    total_pages s' = total_pages s.
Proof.
  intros [Hl Hnd Hok Hc] Hp. destruct bl as [|[a n] bl]; [done|]. simpl in Hl.
  destruct Hl as (Hhd & Hn & nx & Ha & Hl). destruct n as [|n]; [lia|]. rewrite pages_cons in *. simpl in Hp.
  assert (Hpa : page_ok a).
  { eapply Forall_forall; [exact Hok|]. apply elem_of_app. left. by apply block_first. }
  injection Hp as <- Hp. simpl in Hnd, Hok. apply NoDup_cons in Hnd as [Hnot Hnd].
  apply Forall_cons in Hok as [Hpk Hok]. simpl in Hc.
  unfold alloc. rewrite Hhd, Ha. cbn [deref obind page_count]. rewrite usub_ok by lia. cbn [obind].
  replace (Z.of_nat (S n) - 1) with (Z.of_nat n) by lia.
  destruct Hpa as [_ Hpa].
  destruct Hpk as [_ Hpk]. unfold PAGE_SIZE in *.
  rewrite umul_ok by lia. cbn [obind]. unfold block_start. rewrite uadd_ok by lia. cbn [obind].
  destruct (Z.eqb_spec (Z.of_nat n) 0) as [Hz|Hz].
  - assert (n = 0%nat) as -> by lia. rewrite usub_ok by lia. cbn [obind].
    simpl in Hnd, Hok, Hc, Hp. eexists _, bl. split_and!; [done| |done|done].
    split; try done; simpl; [|lia].
    eapply node_list_frame; [|exact Hl]. intros x Hx. apply lookup_insert_ne. intros <-. simpl in Hnot.
    apply Hnot. by rewrite Z.add_0_r.
  - rewrite usub_ok by lia. cbn [obind]. eexists _, ((a, n) :: bl). rewrite pages_cons.
    split_and!; [done| |done|done]. split; try done; [|simpl; lia].
    simpl. split_and!; [done|lia|]. exists nx. rewrite lookup_insert_eq. split; [done|].
    eapply node_list_frame; [|exact Hl]. intros x Hx. apply lookup_insert_ne. intros <-.
    apply NoDup_app in Hnd as (_ & Hd & _). apply (Hd a); [apply block_first; lia|done].
Qed.

(** [dealloc] pushes the pages of a block. *)
Lemma dealloc_refines s bl a n : rep s bl -> (0 < n)%nat ->
  Forall page_ok (block_pages a n) -> (forall x, x ∈ block_pages a n -> x ∉ pages bl) ->
  exists s', dealloc s a (Z.of_nat n) = Ret s' /\ rep s' ((a, n) :: bl) /\ total_pages s' = total_pages s.
Proof.
  intros [Hl Hnd Hok Hc] Hn Hnew Hdisj.
  assert (Hnd' : NoDup (pages ((a, n) :: bl))).
  { rewrite pages_cons. apply NoDup_app. split_and!; [apply block_pages_nodup|done|done]. }
  assert (Hok' : Forall page_ok (pages ((a, n) :: bl))) by (rewrite pages_cons; by apply Forall_app_2).
  pose proof (len_bound _ Hnd' Hok') as Hb. rewrite pages_cons, length_app, block_pages_len in Hb.
  unfold dealloc. rewrite uadd_ok by lia. cbn [obind]. eexists; split_and!; [done| |done].
  split; try done; [simpl|cbn [free_pages]; rewrite pages_cons, length_app, block_pages_len; lia].
  split_and!; [done|lia|]. exists (head s). rewrite lookup_insert_eq. split; [done|].
  eapply node_list_frame; [|exact Hl]. intros x Hx. apply lookup_insert_ne. intros <-.
  by eapply Hdisj; [apply block_first|].
Qed.

(** ** Initialisation *)

Definition region_ok (r : Region) : Prop := aligned r /\ 0 < start r /\ end_ r <= USIZE - PAGE_SIZE.

Lemma land_page x : Z.land x (PAGE_SIZE - 1) = x mod PAGE_SIZE.
Proof. change (PAGE_SIZE - 1) with (Z.ones 12). by rewrite Z.land_ones by lia. Qed.

Lemma region_pages r x : region_ok r -> start r < end_ r ->
  x ∈ block_pages (start r) (Z.to_nat ((end_ r - start r) / PAGE_SIZE)) <-> x mod PAGE_SIZE = 0 /\ inside r x.
Proof.
  intros ([Hs He] & _) Hne. rewrite block_pages_spec. unfold inside, PAGE_SIZE in *. split.
  - intros (i & Hi & ->). lia.
  - intros [Hx Hin]. exists (Z.to_nat ((x - start r) / 4096)). lia.
Qed.

Lemma init_region_spec s bl r : rep s bl -> region_ok r -> start r < end_ r ->
  (forall x, inside r x -> x ∉ pages bl) ->
  exists s' n, init_region s r = Ret s' /\ rep s' ((start r, n) :: bl) /\
    forall x, x ∈ block_pages (start r) n <-> x mod PAGE_SIZE = 0 /\ inside r x.
Proof.
  intros Hrep Hr Hne Hdisj. pose proof (region_pages r) as Hpg.
  pose proof Hr as ([Hs He] & Hpos & Hlim).
  set (n := Z.to_nat ((end_ r - start r) / PAGE_SIZE)) in *.
  assert (Hn : (0 < n)%nat) by (subst n; unfold PAGE_SIZE in *; lia).
  destruct (dealloc_refines s bl (start r) n Hrep Hn) as (s' & Hrun & Hrep' & _).
  { apply Forall_forall. intros x Hx. apply Hpg in Hx as [Hm Hi]; try done.
    unfold inside in Hi. split; [done|]. unfold PAGE_SIZE in *. lia. }
  { intros x Hx. apply Hpg in Hx as [_ Hi]; [|done..]. by apply Hdisj. }
  exists s', n. split_and!; [|done|intros; by apply Hpg].
  unfold init_region. rewrite !land_page, Hs, He. cbn [Z.eqb oassert obind].
  rewrite usub_ok by lia. cbn [obind]. unfold udiv, urem. cbn [Z.eqb PAGE_SIZE obind].
  change 4096 with PAGE_SIZE. rewrite Hs, He. cbn [Z.eqb oassert obind].
  rewrite <- Hrun. f_equal. subst n. unfold PAGE_SIZE in *. lia.
Qed.

Lemma init_fold rs : forall s bl lo, rep s bl -> Forall region_ok rs -> separated lo rs ->
  (forall x, x ∈ pages bl -> x < lo) ->
  exists s' bl', ofold init_region rs s = Ret s' /\ rep s' bl' /\
    forall x, x ∈ pages bl' <-> x ∈ pages bl \/ (x mod PAGE_SIZE = 0 /\ covers rs x).
Proof.
  induction rs as [|r rs IH]; intros s bl lo Hrep Hok Hsep Hlo.
  - exists s, bl. split_and!; [done|done|]. intros x. split; [by left|]. by intros [?|[_ []%covers_nil]].
  - apply Forall_cons in Hok as [Hr Hok]. simpl in Hsep. destruct Hsep as (Hl & Hne & Hsep).
    destruct (init_region_spec s bl r Hrep Hr Hne) as (s1 & n & Hrun & Hrep1 & Hpg).
    { intros x Hi Hx. apply Hlo in Hx. unfold inside in Hi. lia. }
    destruct (IH s1 _ (end_ r + 1) Hrep1 Hok Hsep) as (s2 & bl2 & Hrun2 & Hrep2 & Hpg2).
    { intros x. rewrite pages_cons, elem_of_app, Hpg. unfold inside. intros [?|Hx]; [lia|].
      apply Hlo in Hx. lia. }
    exists s2, bl2. simpl. rewrite Hrun. cbn [obind]. split_and!; [done|done|].
    intros x. rewrite Hpg2, pages_cons, elem_of_app, Hpg, covers_cons. tauto.
Qed.

(** over usable regions as [compute_usable_regions] produces them, page
    aligned, [init] returns and the free pages are exactly the page addresses
    the regions cover, each once, with [free_page_count] and [total_page_count]
    their number. *)
Theorem page_init_spec s rs lo (Hok : Forall region_ok rs) (Hsep : separated lo rs) :
  exists s' bl, init s rs = Ret s' /\ rep s' bl /\
    (forall x, x ∈ pages bl <-> x mod PAGE_SIZE = 0 /\ covers rs x) /\
    free_page_count s' = Z.of_nat (length (pages bl)) /\ total_page_count s' = free_page_count s'.
Proof.
  unfold init.
  destruct (init_fold rs (mkPA None 0 (total_pages s) (nodes s)) [] lo) as (s' & bl & Hrun & Hrep & Hpg);
    [split; try done; constructor|done|done|by intros ? ?%elem_of_nil|].
  rewrite Hrun. cbn [obind]. eexists _, bl. split_and!; [done| | | |done].
  - by destruct Hrep; split.
  - intros x. rewrite Hpg. split; [intros [?%elem_of_nil|?]; done|by right].
  - apply (rep_count _ _ Hrep).
Qed.

(** [alloc] pops a page off the free pages and [None] means there is none:
    in a well-formed state it never panics or faults, the page it returns was
    free and is page aligned, the remaining free pages are the others, and the
    count goes down by one. *)
Theorem page_alloc_spec s bl (Hrep : rep s bl) :
  (pages bl = [] /\ alloc s = Ret (None, s)) \/
  exists p l s' bl', pages bl = p :: l /\ alloc s = Ret (Some p, s') /\ rep s' bl' /\ pages bl' = l /\
    p ∉ pages bl' /\ p mod PAGE_SIZE = 0 /\
    free_page_count s' = free_page_count s - 1 /\ total_page_count s' = total_page_count s.
Proof.
  destruct (pages bl) as [|p l] eqn:E.
  - left. split; [done|]. destruct bl as [|[a [|n]] bl]; [by apply alloc_nil| |done].
    destruct (rep_list _ _ Hrep) as (_ & ? & _). lia.
  - right. destruct (alloc_refines _ _ _ _ Hrep E) as (s' & bl' & ? & Hrep' & Hp & ?).
    pose proof (rep_nodup _ _ Hrep) as Hnd. pose proof (rep_ok _ _ Hrep) as Hok. rewrite E in Hnd, Hok.
    apply NoDup_cons in Hnd as [Hnot _]. apply Forall_cons in Hok as [[Hm _] _].
    exists p, l, s', bl'. split_and!; try done; [by rewrite Hp|].
    unfold free_page_count. rewrite (rep_count _ _ Hrep'), (rep_count _ _ Hrep), Hp, E. simpl. lia.
Qed.

(** [dealloc] returns a block of [n >= 1] pages that were not free; the
    free pages afterwards are the old ones and those of the block. *)
Theorem page_dealloc_spec s bl a n (Hrep : rep s bl) (Hn : (0 < n)%nat)
  (Hok : Forall page_ok (block_pages a n)) (Hnew : forall x, x ∈ block_pages a n -> x ∉ pages bl) :
  exists s' bl', dealloc s a (Z.of_nat n) = Ret s' /\ rep s' bl' /\
    pages bl' = block_pages a n ++ pages bl /\
    free_page_count s' = free_page_count s + Z.of_nat n.
Proof.
  destruct (dealloc_refines s bl a n Hrep Hn Hok Hnew) as (s' & ? & Hrep' & _).
  exists s', ((a, n) :: bl). split_and!; try done. unfold free_page_count.
  rewrite (rep_count _ _ Hrep'), (rep_count _ _ Hrep), pages_cons, length_app, block_pages_len. lia.
Qed.

(** ** The interface, discharged *)

(** The free pages of a state, by walking its list. *)
Fixpoint walk (fuel : nat) (m : gmap Z PageNode) (hd : option Z) : list Z :=
  match fuel, hd with
  | S fuel, Some a =>
      match m !! a with
      | Some n => block_pages a (Z.to_nat (page_count n)) ++ walk fuel m (next n)
      | None => []
      end
  | _, _ => []
  end.

Definition frames (s : PageAllocator) : list Z := walk (size (nodes s)) (nodes s) (head s).

Lemma walk_pages m bl : forall fuel hd, node_list m hd bl -> (length bl <= fuel)%nat -> walk fuel m hd = pages bl.
Proof.
  induction bl as [|[a n] bl IH]; intros fuel hd; simpl.
  - intros -> _. by destruct fuel.
  - intros (-> & Hn & nx & Ha & Hl) Hf. destruct fuel as [|fuel]; [lia|]. simpl. rewrite Ha. simpl.
    rewrite (IH fuel nx Hl ltac:(lia)), Nat2Z.id. done.
Qed.

Lemma node_list_len m hd bl : node_list m hd bl -> NoDup (pages bl) -> (length bl <= size m)%nat.
Proof.
  intros Hl Hnd. rewrite <- size_dom.
  assert (Hin : (list_to_set bl.*1 : gset Z) ⊆ dom m /\ NoDup bl.*1 /\ forall x, x ∈ bl.*1 -> x ∈ pages bl).
  { revert hd Hl Hnd. induction bl as [|[a n] bl IH]; intros hd Hl Hnd; simpl.
    - split_and!; [set_solver|constructor|by intros ? ?%elem_of_nil].
    - simpl in Hl. destruct Hl as (_ & Hn & nx & Ha & Hl). rewrite pages_cons in *.
      apply NoDup_app in Hnd as (_ & Hd & Hnd). destruct (IH nx Hl Hnd) as (H1 & H2 & H3).
      split_and!.
      + apply union_subseteq. split; [|done]. intros x ->%elem_of_singleton. apply elem_of_dom. by rewrite Ha.
      + constructor; [|done]. intros Hx. by eapply Hd; [apply block_first|apply H3].
      + intros x [->|Hx]%elem_of_cons; apply elem_of_app; [left; by apply block_first|right; by apply H3]. }
  destruct Hin as (Hin & Hnd' & _). apply subseteq_size in Hin. rewrite size_list_to_set, length_fmap in Hin by done. lia.
Qed.

Lemma rep_frames s bl : rep s bl -> frames s = pages bl.
Proof.
  intros [Hl Hnd _ _]. apply walk_pages; [done|]. by eapply node_list_len.
Qed.

#[export, refine] Instance page_frames : FrameAllocator PageAllocator := {|
  frame_alloc := alloc;
  frame_inv := fun s => exists bl, rep s bl;
  free_frames := frames;
|}.
Proof.
  - intros s [bl Hrep] Hne. rewrite (rep_frames _ _ Hrep) in *. destruct (pages bl) as [|p l] eqn:E; [done|].
    destruct (alloc_refines _ _ _ _ Hrep E) as (s' & bl' & ? & Hrep' & Hp & _).
    exists p, s', l. rewrite (rep_frames _ _ Hrep'), Hp. split_and!; try done. by exists bl'.
  - intros s [bl Hrep] Hnil. rewrite (rep_frames _ _ Hrep) in Hnil. destruct bl as [|[a [|n]] bl]; [by apply alloc_nil| |done].
    destruct (rep_list _ _ Hrep) as (_ & ? & _). lia.
  - intros s [bl Hrep]. rewrite (rep_frames _ _ Hrep). apply (rep_nodup _ _ Hrep).
  - intros s p [bl Hrep]. rewrite (rep_frames _ _ Hrep). intros Hp.
    by eapply Forall_forall in Hp; [|apply (rep_ok _ _ Hrep)].
Defined.

(** ** Examples *)

Definition demo_usable : list Region :=
  [mkRegion 0x8002_0000 0x8040_0000; mkRegion 0x8070_0000 0x8800_0000].

Lemma demo_usable_ok : Forall region_ok demo_usable /\ separated 0 demo_usable.
Proof. split; [repeat constructor; by vm_compute|simpl; lia]. Qed.

Lemma page_init_spec_witness :
  exists s' bl, init new demo_usable = Ret s' /\ rep s' bl /\
    (forall x, x ∈ pages bl <-> x mod PAGE_SIZE = 0 /\ covers demo_usable x) /\
    free_page_count s' = Z.of_nat (length (pages bl)) /\ total_page_count s' = free_page_count s'.
Proof. apply (page_init_spec new demo_usable 0); apply demo_usable_ok. Defined.

Definition demo_state : PageAllocator :=
  mkPA (Some 0x8040_0000) 2 2 {[ 0x8040_0000 := mkNode None 2 ]}.

Lemma demo_rep : rep demo_state [(0x8040_0000, 2%nat)].
Proof.
  split; [|apply (bool_decide_unpack _); done|repeat constructor|done].
  split_and!; [done|lia|]. by exists None.
Qed.

Lemma page_alloc_spec_witness :
  (pages [(0x8040_0000, 2%nat)] = [] /\ alloc demo_state = Ret (None, demo_state)) \/
  exists p l s' bl', pages [(0x8040_0000, 2%nat)] = p :: l /\ alloc demo_state = Ret (Some p, s') /\
    rep s' bl' /\ pages bl' = l /\ p ∉ pages bl' /\ p mod PAGE_SIZE = 0 /\
    free_page_count s' = free_page_count demo_state - 1 /\ total_page_count s' = total_page_count demo_state.
Proof. apply (page_alloc_spec demo_state). apply demo_rep. Defined.

Lemma page_dealloc_spec_witness :
  exists s' bl', dealloc demo_state 0x8050_0000 1 = Ret s' /\ rep s' bl' /\
    pages bl' = [0x8050_0000] ++ pages [(0x8040_0000, 2%nat)] /\
    free_page_count s' = free_page_count demo_state + 1.
Proof.
  apply (page_dealloc_spec demo_state [(0x8040_0000, 2%nat)] 0x8050_0000 1); [apply demo_rep|lia|repeat constructor|].
  intros x Hx. apply list_elem_of_singleton in Hx as ->. by apply (bool_decide_unpack _).
Defined.

End Pages.

#[global] Existing Instance Pages.page_frames.
