(* ===== verification/PageMapper.v ===== *)
(** * Sv39 page tables (src/src/page_mapper.rs)

    Page-table entries at their bit layout, the three-level walk of
    [virt_to_phys] and the construction of mappings by [map_range] and
    [allocate_and_map_pages].  Physical memory is a function from word
    addresses to 64-bit words; frames come from any [FrameAllocator]. *)

From S2P Require Import Prelude Memory PageAllocator.

Module Pte.

Inductive PageSize := Size4K | Size2M | Size1G.

Definition psize (s : PageSize) : Z :=
  match s with
  | Size4K => 4 * 1024
  | Size2M => 2 * 1024 * 1024
  | Size1G => 1024 * 1024 * 1024
  end.

Definition level (s : PageSize) : nat :=
  match s with Size4K => 0 | Size2M => 1 | Size1G => 2 end.

(** [PageFlags], as its [bits]. *)
Definition PageFlags := Z.
Definition VALID : PageFlags := Z.shiftl 1 0.
Definition READ : PageFlags := Z.shiftl 1 1.
Definition WRITE : PageFlags := Z.shiftl 1 2.
Definition EXECUTE : PageFlags := Z.shiftl 1 3.
Definition USER : PageFlags := Z.shiftl 1 4.
Definition GLOBAL : PageFlags := Z.shiftl 1 5.
Definition ACCESSED : PageFlags := Z.shiftl 1 6.
Definition DIRTY : PageFlags := Z.shiftl 1 7.
Definition THEAD_MEMORY : PageFlags := Z.shiftl 0x0F 59.
Definition THEAD_SO : PageFlags := Z.shiftl 1 63.
Definition empty_flags : PageFlags := 0.

Definition intersects (a b : PageFlags) : bool := negb (Z.land a b =? 0).
Definition RWX : PageFlags := Z.lor (Z.lor READ WRITE) EXECUTE.

(** [PageTableEntry(usize)] *)
Definition phys_to_ppn (addr : Z) : Z := Z.land (Z.shiftr addr 12) 0x000f_ffff_ffff.

Definition pte_set (phys_addr : Z) (flags : PageFlags) : Z :=
  let ppn := phys_to_ppn phys_addr in
  let page_flags := Z.lor flags VALID in
  let is_leaf := intersects flags RWX in
  let page_flags := if is_leaf then page_flags else Z.land page_flags 0x0FFF_FFFF_FFFF_FFFF in
  Z.lor (Z.shiftl ppn 10) page_flags.

Definition is_valid (e : Z) : bool := negb (Z.land e VALID =? 0).
Definition pte_flags (e : Z) : PageFlags := Z.land e 0x3ff.
Definition is_leaf (e : Z) : bool := negb (Z.land (pte_flags e) RWX =? 0).
Definition pte_addr (e : Z) : Z := Z.shiftl (Z.land (Z.shiftr e 10) 0x0000_0fff_ffff_ffff) 12.
Definition set_user_flag (e : Z) : Z := Z.lor e USER.

(** [VirtualAddressExt] *)
Definition vpn2 (v : Z) : Z := Z.land (Z.shiftr v 30) 0x1ff.
Definition vpn1 (v : Z) : Z := Z.land (Z.shiftr v 21) 0x1ff.
Definition vpn0 (v : Z) : Z := Z.land (Z.shiftr v 12) 0x1ff.

(** ** Encoding *)

(** Flags that stay out of the PPN field (bits 10 to 53). *)
Definition flags_ok (f : PageFlags) : Prop := 0 <= f < 2 ^ 64 /\ Z.land (Z.shiftr f 10) (Z.ones 44) = 0.

Definition frame_ok (p : Z) : Prop := p mod 4096 = 0 /\ 0 <= p < 2 ^ 48.

Lemma ppn_shift p : frame_ok p -> phys_to_ppn p = p / 4096 /\ 0 <= p / 4096 < 2 ^ 36.
Proof.
  intros [_ Hp]. unfold phys_to_ppn. change 0x000f_ffff_ffff with (Z.ones 36).
  rewrite Z.land_ones, Z.shiftr_div_pow2 by lia. change (2 ^ 12) with 4096.
  split; [apply Z.mod_small|]; lia.
Qed.

Lemma lor_low_flags n f k : 0 <= k <= 10 -> Z.land (Z.lor (Z.shiftl n 10) f) (Z.ones k) = Z.land f (Z.ones k).
Proof.
  intros Hk. rewrite Z.land_lor_distr_l.
  replace (Z.land (Z.shiftl n 10) (Z.ones k)) with 0; [by rewrite Z.lor_0_l|].
  rewrite Z.land_ones, Z.shiftl_mul_pow2 by lia.
  replace (2 ^ 10) with (2 ^ (10 - k) * 2 ^ k) by (rewrite <- Z.pow_add_r by lia; f_equal; lia).
  rewrite Z.mul_assoc, Z.mod_mul; [done|]. apply Z.pow_nonzero; lia.
Qed.

(** The flags [set] stores. *)
Definition stored (f : PageFlags) : PageFlags :=
  if intersects f RWX then Z.lor f VALID else Z.land (Z.lor f VALID) 0x0FFF_FFFF_FFFF_FFFF.

Lemma land_sub x m k : Z.land (Z.ones k) m = m -> Z.land x m = Z.land (Z.land x (Z.ones k)) m.
Proof. intros H. by rewrite <- Z.land_assoc, H. Qed.

Lemma stored_low f m : Z.land (Z.ones 10) m = m -> Z.land (stored f) m = Z.land (Z.lor f VALID) m.
Proof.
  intros Hm. unfold stored. destruct (intersects f RWX); [done|].
  rewrite <- Z.land_assoc. f_equal. rewrite <- Hm, Z.land_assoc. by f_equal.
Qed.

Lemma pte_set_low p f m : Z.land (Z.ones 10) m = m -> Z.land (pte_set p f) m = Z.land (Z.lor f VALID) m.
Proof.
  intros Hm. rewrite <- stored_low by done.
  change (pte_set p f) with (Z.lor (Z.shiftl (phys_to_ppn p) 10) (stored f)).
  rewrite (land_sub _ m 10), lor_low_flags, <- land_sub by (done || lia). done.
Qed.

Lemma pte_set_valid p f : is_valid (pte_set p f) = true.
Proof.
  unfold is_valid. rewrite pte_set_low by done. rewrite Z.land_lor_distr_l.
  change (Z.land VALID VALID) with 1. apply negb_true_iff, Z.eqb_neq. intros H.
  apply Z.lor_eq_0_iff in H. lia.
Qed.

Lemma pte_set_leaf p f : is_leaf (pte_set p f) = intersects f RWX.
Proof.
  unfold is_leaf, pte_flags, intersects. rewrite <- Z.land_assoc. change (Z.land 0x3ff RWX) with RWX.
  rewrite pte_set_low by done. rewrite Z.land_lor_distr_l.
  change (Z.land VALID RWX) with 0. by rewrite Z.lor_0_r.
Qed.

Lemma stored_high f : flags_ok f -> Z.land (Z.shiftr (stored f) 10) (Z.ones 44) = 0.
Proof.
  intros [_ Hf].
  assert (Hv : Z.land (Z.shiftr (Z.lor f VALID) 10) (Z.ones 44) = 0).
  { rewrite Z.shiftr_lor, Z.land_lor_distr_l, Hf. done. }
  unfold stored. destruct (intersects f RWX); [done|].
  rewrite Z.shiftr_land, <- Z.land_assoc, (Z.land_comm (Z.shiftr 0x0FFF_FFFF_FFFF_FFFF 10)), Z.land_assoc, Hv.
  done.
Qed.

Lemma pte_addr_set p f : frame_ok p -> flags_ok f -> pte_addr (pte_set p f) = p.
Proof.
  intros Hp Hf. destruct (ppn_shift p Hp) as [Hppn Hr]. destruct Hp as [Hm _].
  change (pte_set p f) with (Z.lor (Z.shiftl (phys_to_ppn p) 10) (stored f)).
  unfold pte_addr. change 0x0000_0fff_ffff_ffff with (Z.ones 44).
  rewrite Z.shiftr_lor, Z.land_lor_distr_l, stored_high, Z.lor_0_r by done.
  rewrite Z.shiftr_shiftl_l, Hppn by lia. change (10 - 10) with 0.
  rewrite Z.shiftl_0_r, Z.land_ones, Z.mod_small, Z.shiftl_mul_pow2 by lia. change (2 ^ 12) with 4096. lia.
Qed.

(** storing a frame address with [set] and reading it back with [addr]
    returns it, for every frame below 2^48 and all flags outside the PPN field
    (the T-Head bits included); the entry is valid and is a leaf exactly when a
    permission is set. *)
Theorem pte_roundtrip p f (Hp : frame_ok p) (Hf : flags_ok f) :
  pte_addr (pte_set p f) = p /\ is_valid (pte_set p f) = true /\
  is_leaf (pte_set p f) = intersects f RWX /\
  pte_flags (pte_set p f) = Z.land (Z.lor f VALID) 0x3ff.
Proof.
  split_and!; [by apply pte_addr_set|apply pte_set_valid|apply pte_set_leaf|by apply pte_set_low].
Qed.

Lemma pte_roundtrip_witness :
  pte_addr (pte_set 0x8040_1000 (Z.lor (Z.lor READ WRITE) THEAD_MEMORY)) = 0x8040_1000 /\
  is_valid (pte_set 0x8040_1000 (Z.lor (Z.lor READ WRITE) THEAD_MEMORY)) = true /\
  is_leaf (pte_set 0x8040_1000 (Z.lor (Z.lor READ WRITE) THEAD_MEMORY)) =
    intersects (Z.lor (Z.lor READ WRITE) THEAD_MEMORY) RWX /\
  pte_flags (pte_set 0x8040_1000 (Z.lor (Z.lor READ WRITE) THEAD_MEMORY)) =
    Z.land (Z.lor (Z.lor (Z.lor READ WRITE) THEAD_MEMORY) VALID) 0x3ff.
Proof. apply (pte_roundtrip 0x8040_1000 (Z.lor (Z.lor READ WRITE) THEAD_MEMORY)); by vm_compute. Defined.

End Pte.

Module Mapper.
Import Pte.

Definition PAGE_ENTRIES : Z := 512.

(** Physical memory, by word address. *)
Definition memory := Z -> Z.

Definition upd (m : memory) (a x : Z) : memory := fun b => if b =? a then x else m b.

(** [zero_page_table] / [write_bytes(ptr, 0, 1)] *)
Definition zero_page (m : memory) (p : Z) : memory :=
  fun b => if (p <=? b) && (b <? p + 4096) then 0 else m b.

(** The address of [entries[i]] of a table, and its value. *)
Definition slot (table i : Z) : Z := table + 8 * i.
Definition ent (m : memory) (table i : Z) : Z := m (slot table i).

Definition satp (root_table : Z) : Z := Z.lor (Z.shiftl 8 60) (Z.shiftr root_table 12).

Section Frames.
Context {A : Type} `{FrameAllocator A}.

Definition new (m : memory) (a : A) : outcome (Z * memory * A) :=
  let! ' (f, a) := frame_alloc a in
  let! root_frame := expect f in
  Ret (root_frame, zero_page m root_frame, a).

Definition alloc_next_level (m : memory) (a : A) (parent_entry : Z) : outcome (Z * memory * A) :=
  let! ' (f, a) := frame_alloc a in
  let! new_frame := expect f in
  let m := zero_page m new_frame in
  Ret (new_frame, upd m parent_entry (pte_set new_frame empty_flags), a).

(** The table an entry points to, allocating it when the entry is invalid. *)
Definition next_table (m : memory) (a : A) (table i : Z) : outcome (Z * memory * A) :=
  if is_valid (ent m table i) then Ret (pte_addr (ent m table i), m, a)
  else alloc_next_level m a (slot table i).

(** One iteration of the loop of [map_range]. *)
Definition map_step (m : memory) (a : A) (root virt phys : Z) (flags : PageFlags) (leaf_level : nat)
  : outcome (memory * A) :=
  if Nat.eqb leaf_level 2 then Ret (upd m (slot root (vpn2 virt)) (pte_set phys flags), a)
  else
    let! ' (t1, m, a) := next_table m a root (vpn2 virt) in
    if Nat.eqb leaf_level 1 then Ret (upd m (slot t1 (vpn1 virt)) (pte_set phys flags), a)
    else
      let! ' (t0, m, a) := next_table m a t1 (vpn1 virt) in
      Ret (upd m (slot t0 (vpn0 virt)) (pte_set phys flags), a).

Fixpoint map_loop (fuel : nat) (m : memory) (a : A) (root virt_start phys_start size offset : Z)
  (flags : PageFlags) (ps : PageSize) : outcome (memory * A) :=
  if offset <? size then
    match fuel with
    | O => Fault
    | S fuel =>
        let! virt := uadd virt_start offset in
        let! phys := uadd phys_start offset in
        let! ' (m, a) := map_step m a root virt phys flags (level ps) in
        let! offset := uadd offset (psize ps) in
        map_loop fuel m a root virt_start phys_start size offset flags ps
    end
  else Ret (m, a).

Definition map_range (m : memory) (a : A) (root virt_start phys_start end_ : Z)
  (flags : PageFlags) (ps : PageSize) : outcome (memory * A) :=
  let step := psize ps in
  let! _ := oassert (virt_start mod step =? 0) in
  let! _ := oassert (phys_start mod step =? 0) in
  let! _ := oassert (end_ mod step =? 0) in
  let! size := usub end_ virt_start in
  map_loop (Z.to_nat (size / step)) m a root virt_start phys_start size 0 flags ps.

(** The body of the loop of [allocate_and_map_pages_impl]. *)
Definition map_new_page (root virt : Z) (flags : PageFlags) (zero : bool) (st : memory * A) (i : nat)
  : outcome (memory * A) :=
  let '(m, a) := st in
  let! ' (f, a) := frame_alloc a in
  let! phys := expect f in
  let m := if zero then zero_page m phys else m in
  let! off := umul (Z.of_nat i) Mem.PAGE_SIZE in
  let! virt_addr := uadd virt off in
  let! e := uadd virt_addr Mem.PAGE_SIZE in
  map_range m a root virt_addr phys e flags Size4K.

Definition allocate_and_map_pages_impl (m : memory) (a : A) (root virt size : Z) (flags : PageFlags)
  (zero : bool) : outcome (memory * A) :=
  let! page_count := udiv size Mem.PAGE_SIZE in
  ofold (map_new_page root virt flags zero) (seq 0 (Z.to_nat page_count)) (m, a).

Definition allocate_and_map_pages (m : memory) (a : A) (root virt size : Z) (flags : PageFlags) :=
  allocate_and_map_pages_impl m a root virt size flags false.

Definition allocate_and_map_pages_zeroed (m : memory) (a : A) (root virt size : Z) (flags : PageFlags) :=
  allocate_and_map_pages_impl m a root virt size flags true.

Definition set_l1_page_table_for_phys (m : memory) (a : A) (root phys_addr l1_table : Z)
  : outcome (memory * A) :=
  let! ' (l1_page_table, m, a) := next_table m a root (vpn2 phys_addr) in
  Ret (upd m (slot l1_page_table (vpn1 phys_addr)) (pte_set l1_table VALID), a).

End Frames.

Definition l1_page_table_from_phys (m : memory) (root phys_addr : Z) : Z :=
  let l1_table := pte_addr (ent m root (vpn2 phys_addr)) in
  pte_addr (ent m l1_table (vpn1 phys_addr)).

Definition virt_to_phys (m : memory) (root virt_addr : Z) : option Z :=
  let entry2 := ent m root (vpn2 virt_addr) in
  if negb (is_valid entry2) then None
  else if is_leaf entry2 then
    Some (Z.lor (andn (pte_addr entry2) 0x3fff) (Z.land virt_addr 0x3fff))
  else
    let entry1 := ent m (pte_addr entry2) (vpn1 virt_addr) in
    if negb (is_valid entry1) then None
    else if is_leaf entry1 then
      Some (Z.lor (andn (pte_addr entry1) 0x1fffff) (Z.land virt_addr 0x1fffff))
    else
      let entry0 := ent m (pte_addr entry1) (vpn0 virt_addr) in
      if negb (is_valid entry0) then None
      else Some (Z.lor (andn (pte_addr entry0) 0xfff) (Z.land virt_addr 0xfff)).

(** ** Paths through the tree of tables *)

Definition child (m : memory) (t i : Z) : option Z :=
  if is_valid (ent m t i) && negb (is_leaf (ent m t i)) then Some (pte_addr (ent m t i)) else None.

(** The table reached from [t] by the indices [p]. *)
Fixpoint tpath (m : memory) (t : Z) (p : list Z) : option Z :=
  match p with
  | [] => Some t
  | i :: p => match child m t i with Some t' => tpath m t' p | None => None end
  end.

Definition idx_ok (i : Z) : Prop := 0 <= i < PAGE_ENTRIES.
Definition path_ok (p : list Z) : Prop := (length p <= 2)%nat /\ Forall idx_ok p.

(** The tree of tables under [root]: every table is a page-aligned frame that
    is not free, and no table is reached by two paths. *)
Record wf (m : memory) (root : Z) (free : list Z) : Prop := {
  wf_frame : forall p t, path_ok p -> tpath m root p = Some t -> frame_ok t /\ t ∉ free;
  wf_inj : forall p q t, path_ok p -> path_ok q -> tpath m root p = Some t -> tpath m root q = Some t -> p = q;
}.

(** The entry that ends a walk, with the number of indices left. *)
Fixpoint leaf (m : memory) (t : Z) (p : list Z) : option (Z * nat) :=
  match p with
  | [] => None
  | i :: p =>
      let e := ent m t i in
      if negb (is_valid e) then None
      else if is_leaf e || Nat.eqb (length p) 0 then Some (e, length p)
      else leaf m (pte_addr e) p
  end.

Definition vpns (v : Z) : list Z := [vpn2 v; vpn1 v; vpn0 v].

Definition leaf_mask (n : nat) : Z := match n with 2%nat => 0x3fff | 1%nat => 0x1fffff | _ => 0xfff end.

Lemma virt_to_phys_leaf m root v :
  virt_to_phys m root v =
  match leaf m root (vpns v) with
  | Some (e, n) => Some (Z.lor (andn (pte_addr e) (leaf_mask n)) (Z.land v (leaf_mask n)))
  | None => None
  end.
Proof.
  unfold virt_to_phys, vpns. cbn [leaf length Nat.eqb]. rewrite !orb_false_r, orb_true_r.
  repeat case_match; simplify_eq/=; try done.
Qed.

Lemma vpn_ok v : Forall idx_ok (vpns v).
Proof.
  assert (H : forall x, idx_ok (Z.land x 0x1ff)).
  { intros x. unfold idx_ok, PAGE_ENTRIES. change 0x1ff with (Z.ones 9). rewrite Z.land_ones by lia. lia. }
  repeat constructor; apply H.
Qed.

(** *** Writes *)

Lemma ent_upd m t i x t' i' : frame_ok t -> frame_ok t' -> idx_ok i -> idx_ok i' ->
  ent (upd m (slot t i) x) t' i' = if decide (t' = t /\ i' = i) then x else ent m t' i'.
Proof.
  intros [? _] [? _] Hi Hi'. unfold ent, upd, slot, idx_ok, PAGE_ENTRIES in *.
  destruct (decide (t' = t /\ i' = i)) as [[-> ->]|Hne]; [by rewrite Z.eqb_refl|].
  rewrite (proj2 (Z.eqb_neq _ _)); [done|]. intros E. apply Hne. lia.
Qed.

Lemma ent_zero m p t i : frame_ok p -> frame_ok t -> idx_ok i ->
  ent (zero_page m p) t i = if decide (t = p) then 0 else ent m t i.
Proof.
  intros [? _] [? _] Hi. unfold ent, zero_page, slot, idx_ok, PAGE_ENTRIES in *.
  destruct (decide (t = p)) as [->|Hne]; zcases; simpl; try done; lia.
Qed.

Lemma tpath_snoc m t p i : tpath m t (p ++ [i]) = match tpath m t p with Some t' => child m t' i | None => None end.
Proof.
  revert t. induction p as [|j p IH]; intros t; simpl; [by destruct (child m t i)|].
  destruct (child m t j); [apply IH|done].
Qed.

Lemma tpath_app m t p q : tpath m t (p ++ q) = match tpath m t p with Some t' => tpath m t' q | None => None end.
Proof. revert t. induction p as [|j p IH]; intros t; simpl; [done|]. destruct (child m t j); [apply IH|done]. Qed.

Lemma path_ok_app p q : path_ok (p ++ q) -> path_ok p /\ path_ok q.
Proof.
  intros [Hl Hf]. rewrite length_app in Hl. apply Forall_app in Hf as [? ?].
  split; split; try done; lia.
Qed.

(** A walk depends only on the entries of the tables it passes. *)
Lemma tpath_frame m m' root q :
  path_ok q ->
  (forall p t i, p ++ [i] `prefix_of` q -> tpath m root p = Some t -> ent m' t i = ent m t i) ->
  tpath m' root q = tpath m root q.
Proof.
  induction q as [|i q IH] using rev_ind; [done|]. intros Hok Hf.
  apply path_ok_app in Hok as [Hq _]. rewrite !tpath_snoc, IH; [|done|].
  - destruct (tpath m root q) as [t|] eqn:E; [|done]. unfold child. rewrite (Hf q t i); [done| |done]. done.
  - intros p t j Hp. apply Hf. by apply prefix_app_r.
Qed.

Lemma leaf_frame m m' root q : forall p t,
  tpath m root p = Some t ->
  (forall r u i, p `prefix_of` r -> r ++ [i] `prefix_of` p ++ q -> tpath m root r = Some u -> ent m' u i = ent m u i) ->
  leaf m' t q = leaf m t q.
Proof.
  induction q as [|i q IH]; intros p t Ht Hf; [done|]. cbn [leaf].
  rewrite (Hf p t i); [|done|by apply prefix_app, prefix_cons, prefix_nil|done].
  destruct (is_valid (ent m t i)) eqn:Ev; [|done]. simpl.
  destruct (is_leaf (ent m t i)) eqn:El; [done|]. destruct q as [|j q]; [done|]. simpl.
  apply (IH (p ++ [i])).
  - rewrite tpath_snoc, Ht. unfold child. by rewrite Ev, El.
  - intros r u k Hr Hk. apply Hf; [by eapply prefix_app_l|]. by rewrite <- app_assoc in Hk.
Qed.

Lemma leaf_app m t p t' q : tpath m t p = Some t' -> q <> [] -> leaf m t (p ++ q) = leaf m t' q.
Proof.
  revert t. induction p as [|i p IH]; intros t; simpl; [by intros [= ->]|].
  unfold child. destruct (is_valid (ent m t i)) eqn:Ev; [|done]. destruct (is_leaf (ent m t i)) eqn:El; [done|].
  simpl. intros Ht Hq. rewrite length_app. destruct q as [|j q]; [done|]. simpl length.
  rewrite Nat.add_succ_r. simpl. by apply IH.
Qed.

(** A write to entry [i] of the table at [p] is seen only by walks through
    [p ++ [i]]. *)
Lemma prefix_path_ok p q : p `prefix_of` q -> path_ok q -> path_ok p.
Proof. intros [r ->] Hq. by apply path_ok_app in Hq as [? _]. Qed.

Lemma ent_other m root free p t i x r u j :
  wf m root free -> path_ok p -> path_ok r -> tpath m root p = Some t -> tpath m root r = Some u ->
  idx_ok i -> idx_ok j -> p ++ [i] <> r ++ [j] -> ent (upd m (slot t i) x) u j = ent m u j.
Proof.
  intros Hwf Hp Hr Ht Hu Hi Hj Hne.
  rewrite ent_upd; [|apply (wf_frame _ _ _ Hwf p t)|apply (wf_frame _ _ _ Hwf r u)|done|done]; [|done..].
  destruct (decide (u = t /\ j = i)) as [[-> ->]|]; [|done]. destruct Hne.
  by rewrite (wf_inj _ _ _ Hwf p r t).
Qed.

Lemma prefix_snoc_idx p j q : p ++ [j] `prefix_of` q -> Forall idx_ok q -> idx_ok j.
Proof. intros [r ->] Hf. apply Forall_app in Hf as [[_ Hf]%Forall_app _]. by apply Forall_cons in Hf as [? _]. Qed.

Lemma tpath_upd_other m root free p t i x q :
  wf m root free -> path_ok p -> tpath m root p = Some t -> idx_ok i -> path_ok q ->
  ~ p ++ [i] `prefix_of` q -> tpath (upd m (slot t i) x) root q = tpath m root q.
Proof.
  intros Hwf Hp Ht Hi Hq Hnot. apply tpath_frame; [done|]. intros r u j Hr Hu.
  assert (Hrok : path_ok r) by (eapply prefix_path_ok; [|exact Hq]; by eapply prefix_app_l).
  eapply (ent_other m root free p t i x r u j); try done.
  - eapply prefix_snoc_idx; [exact Hr|apply Hq].
  - intros E. by rewrite E in Hnot.
Qed.

Lemma leaf_upd_other m root free p t i x q :
  wf m root free -> path_ok p -> tpath m root p = Some t -> idx_ok i ->
  Forall idx_ok q -> length q = 3%nat -> ~ p ++ [i] `prefix_of` q ->
  leaf (upd m (slot t i) x) root q = leaf m root q.
Proof.
  intros Hwf Hp Ht Hi Hq Hlen Hnot. apply (leaf_frame m _ root q []); [done|].
  intros r u j _ Hr Hu. simpl in Hr.
  assert (Hrok : path_ok r).
  { pose proof (prefix_length _ _ Hr) as Hl. rewrite length_app in Hl. simpl in Hl.
    destruct Hr as [s ->]. split; [lia|]. by apply Forall_app in Hq as [[? _]%Forall_app _]. }
  eapply (ent_other m root free p t i x r u j); try done.
  - by eapply prefix_snoc_idx.
  - intros E. by rewrite E in Hnot.
Qed.

(** Writing a leaf entry. *)
Lemma write_leaf m root free p t i phys flags :
  wf m root free -> path_ok p -> tpath m root p = Some t -> idx_ok i ->
  length p = 2%nat \/ intersects flags RWX = true ->
  let e := pte_set phys flags in
  let m' := upd m (slot t i) e in
  wf m' root free /\
  forall q, Forall idx_ok q -> length q = 3%nat ->
    (forall r, q = (p ++ [i]) ++ r -> leaf m' root q = Some (e, length r)) /\
    (~ p ++ [i] `prefix_of` q -> leaf m' root q = leaf m root q).
Proof.
  intros Hwf Hp Ht Hi Hleaf e m'.
  assert (Hold : forall q, path_ok q -> ~ p ++ [i] `prefix_of` q -> tpath m' root q = tpath m root q).
  { intros. by apply (tpath_upd_other m root free p). }
  assert (Hshort : ~ p ++ [i] `prefix_of` p).
  { intros Hpre. apply prefix_length in Hpre. rewrite length_app in Hpre. simpl in Hpre. lia. }
  assert (Ht' : tpath m' root p = Some t) by by rewrite Hold.
  assert (Hent : ent m' t i = e).
  { subst m'. destruct (wf_frame _ _ _ Hwf p t Hp Ht) as [Hfr _]. rewrite ent_upd by done.
    by rewrite decide_True. }
  assert (Hthrough : forall q u, path_ok q -> tpath m' root q = Some u -> ~ p ++ [i] `prefix_of` q).
  { intros q u Hq Hu [r ->]. destruct Hleaf as [Hl|Hl].
    - destruct Hq as [Hq _]. rewrite !length_app in Hq. simpl in Hq. lia.
    - rewrite <- app_assoc, tpath_app, Ht' in Hu. simpl in Hu. unfold child in Hu.
      rewrite Hent in Hu. subst e. rewrite pte_set_valid, pte_set_leaf, Hl in Hu. done. }
  split.
  - split.
    + intros q u Hq Hu. pose proof (Hthrough q u Hq Hu) as Hn. rewrite Hold in Hu by done.
      by apply (wf_frame _ _ _ Hwf q).
    + intros q1 q2 u Hq1 Hq2 Hu1 Hu2. pose proof (Hthrough q1 u Hq1 Hu1). pose proof (Hthrough q2 u Hq2 Hu2).
      rewrite Hold in Hu1, Hu2 by done. by eapply (wf_inj _ _ _ Hwf).
  - intros q Hq Hlen. split; [|by apply (leaf_upd_other m root free p)].
    intros r ->. rewrite <- app_assoc. rewrite (leaf_app m' root p t) by done. simpl.
    rewrite Hent. subst e. rewrite pte_set_valid, pte_set_leaf. simpl.
    destruct Hleaf as [Hl|Hl]; [|by rewrite Hl].
    rewrite !length_app in Hlen. simpl in Hlen. replace (length r) with 0%nat by lia. by rewrite orb_true_r.
Qed.

(** Installing a fresh, zeroed table. *)
Lemma empty_flags_ok : flags_ok empty_flags.
Proof. by vm_compute. Qed.

Lemma is_valid_0 : is_valid 0 = false.
Proof. done. Qed.

(** Zeroing a free frame changes no walk. *)
Lemma zero_free m root free f :
  wf m root free -> f ∈ free -> frame_ok f ->
  wf (zero_page m f) root free /\
  (forall q, path_ok q -> tpath (zero_page m f) root q = tpath m root q) /\
  (forall q u j, path_ok q -> tpath m root q = Some u -> idx_ok j -> ent (zero_page m f) u j = ent m u j) /\
  forall q, Forall idx_ok q -> length q = 3%nat -> leaf (zero_page m f) root q = leaf m root q.
Proof.
  intros Hwf Hf Hfr. set (m0 := zero_page m f).
  assert (Hz : forall q u j, path_ok q -> tpath m root q = Some u -> idx_ok j -> ent m0 u j = ent m u j).
  { intros q u j Hq Hu Hj. destruct (wf_frame _ _ _ Hwf q u Hq Hu) as [Hfu Hnu].
    subst m0. rewrite ent_zero by done. rewrite decide_False; [done|]. by intros ->. }
  assert (Hz0 : forall q, path_ok q -> tpath m0 root q = tpath m root q).
  { intros q Hq. apply tpath_frame; [done|]. intros r u j Hr Hu.
    apply (Hz r); [eapply prefix_path_ok; [|exact Hq]; by eapply prefix_app_l|done|].
    eapply prefix_snoc_idx; [exact Hr|apply Hq]. }
  split_and!; [|done|done|].
  - split; [intros q u Hq; rewrite Hz0 by done; by apply (wf_frame _ _ _ Hwf)|].
    intros q1 q2 u H1 H2. rewrite !Hz0 by done. by apply (wf_inj _ _ _ Hwf).
  - intros q Hq Hlen. apply (leaf_frame m _ root q []); [done|]. intros r u j _ Hr Hu. simpl in Hr.
    pose proof (prefix_length _ _ Hr) as Hl. rewrite length_app in Hl. simpl in Hl.
    apply (Hz r); [|done|by eapply prefix_snoc_idx]. destruct Hr as [s ->]. split; [lia|].
    by apply Forall_app in Hq as [[? _]%Forall_app _].
Qed.

(** After a fresh table [f] is hung at [p ++ [i]], it is empty, and the tables
    are those there were and [f]. *)
Lemma install_paths m root free p t i f :
  wf m root free -> path_ok p -> (length p <= 1)%nat -> tpath m root p = Some t -> idx_ok i ->
  f ∈ free -> frame_ok f ->
  let m' := upd (zero_page m f) (slot t i) (pte_set f empty_flags) in
  tpath m' root (p ++ [i]) = Some f /\ (forall j, idx_ok j -> ent m' f j = 0) /\
  forall q u, path_ok q -> tpath m' root q = Some u ->
    (q = p ++ [i] /\ u = f) \/ (tpath m root q = Some u /\ u <> f).
Proof.
  intros Hwf Hp Hlp Ht Hi Hf Hfr m'.
  destruct (zero_free m root free f Hwf Hf Hfr) as (Hwf0 & Hz0 & Hze & Hleaf0).
  destruct (wf_frame _ _ _ Hwf p t Hp Ht) as [Hft Htn]. assert (Htf : t <> f) by (by intros ->).
  set (m0 := zero_page m f) in *. assert (Ht0 : tpath m0 root p = Some t) by by rewrite Hz0.
  assert (Hold : forall q, path_ok q -> ~ p ++ [i] `prefix_of` q -> tpath m' root q = tpath m root q).
  { intros q Hq Hn. rewrite <- Hz0 by done. by apply (tpath_upd_other m0 root free p). }
  assert (Ht' : tpath m' root p = Some t).
  { rewrite Hold; [done..|]. intros Hpre%prefix_length. rewrite length_app in Hpre. simpl in Hpre. lia. }
  assert (Hchild : child m' t i = Some f).
  { unfold child, m'. rewrite ent_upd, decide_True by done.
    rewrite pte_set_valid, pte_set_leaf, pte_addr_set by (done || apply empty_flags_ok). done. }
  assert (Hnew : forall j, idx_ok j -> ent m' f j = 0).
  { intros j Hj. unfold m'. rewrite ent_upd by done. rewrite decide_False by naive_solver.
    subst m0. rewrite ent_zero by done. by rewrite decide_True. }
  assert (Hpi : tpath m' root (p ++ [i]) = Some f) by by rewrite tpath_snoc, Ht'.
  split_and!; [done|done|]. intros q u Hq Hu. destruct (decide (p ++ [i] `prefix_of` q)) as [[r ->]|Hn].
  - rewrite tpath_app, Hpi in Hu. destruct r as [|j r].
    + left. rewrite app_nil_r. simpl in Hu. by injection Hu as ->.
    + destruct Hq as [_ Hq]. apply Forall_app in Hq as [_ [Hj _]%Forall_cons].
      simpl in Hu. unfold child in Hu. by rewrite Hnew in Hu.
  - right. rewrite Hold in Hu by done. split; [done|]. intros ->. by destruct (wf_frame _ _ _ Hwf q f Hq Hu).
Qed.

Lemma install_table m root free p t i f free' :
  wf m root free -> path_ok p -> (length p <= 1)%nat -> tpath m root p = Some t -> idx_ok i ->
  f ∈ free -> frame_ok f -> (forall x, x ∈ free' -> x ∈ free /\ x <> f) -> is_valid (ent m t i) = false ->
  let m' := upd (zero_page m f) (slot t i) (pte_set f empty_flags) in
  wf m' root free' /\ tpath m' root (p ++ [i]) = Some f /\
  forall q, Forall idx_ok q -> length q = 3%nat -> leaf m' root q = leaf m root q.
Proof.
  intros Hwf Hp Hlp Ht Hi Hf Hfr Hfree Hinv m'.
  destruct (install_paths m root free p t i f Hwf Hp Hlp Ht Hi Hf Hfr) as (Hpi & Hnew & Hcase). fold m' in Hpi, Hnew, Hcase.
  destruct (zero_free m root free f Hwf Hf Hfr) as (Hwf0 & Hz0 & Hze & Hleaf0).
  assert (Ht0 : tpath (zero_page m f) root p = Some t) by by rewrite Hz0.
  split_and!; [|done|].
  - split.
    + intros q u Hq Hu. destruct (Hcase q u Hq Hu) as [[-> ->]|[Hu' Hne]].
      * split; [done|]. intros Hx. by apply Hfree in Hx as [_ ?].
      * destruct (wf_frame _ _ _ Hwf q u Hq Hu'). split; [done|]. intros Hx. by apply Hfree in Hx as [? _].
    + intros q1 q2 u Hq1 Hq2 Hu1 Hu2.
      destruct (Hcase q1 u Hq1 Hu1) as [[-> ->]|[Hu1' Hne1]], (Hcase q2 _ Hq2 Hu2) as [[-> ?]|[Hu2' Hne2]]; try done.
      by eapply (wf_inj _ _ _ Hwf).
  - intros q Hq Hlen. destruct (decide (p ++ [i] `prefix_of` q)) as [[r ->]|Hn].
    + assert (Hr : r <> []).
      { intros ->. rewrite !length_app in Hlen. simpl in Hlen. lia. }
      rewrite (leaf_app m' root (p ++ [i]) f r Hpi Hr), <- app_assoc, (leaf_app m root p t) by done.
      destruct r as [|j r]; [done|]. apply Forall_app in Hq as [_ [Hj _]%Forall_cons].
      cbn [leaf app]. rewrite Hinv, Hnew by done. done.
    + rewrite <- Hleaf0 by done. by apply (leaf_upd_other (zero_page m f) root free p).
Qed.

(** ** Mapping *)

Section Mapping.
Context {A : Type} `{FrameAllocator A}.

(** The state [map_range] works on: a tree of tables, and an allocator whose
    free frames are outside it and addressable by an entry. *)
Record mapper_ok (m : memory) (root : Z) (a : A) : Prop := {
  mo_inv : frame_inv a;
  mo_wf : wf m root (free_frames a);
  mo_frames : forall f, f ∈ free_frames a -> frame_ok f;
}.

(** Allocating uses up frames and nothing else. *)
Definition frames_used (n : nat) (a a' : A) : Prop :=
  (length (free_frames a) <= length (free_frames a') + n)%nat /\
  forall f, f ∈ free_frames a' -> f ∈ free_frames a.

Lemma alloc_frame m root a : mapper_ok m root a -> free_frames a <> [] ->
  exists f a', frame_alloc a = Ret (Some f, a') /\ frame_inv a' /\ f ∈ free_frames a /\ frame_ok f /\
    frames_used 1 a a' /\ (forall x, x ∈ free_frames a' -> x ∈ free_frames a /\ x <> f) /\
    (forall x, x ∈ free_frames a' -> frame_ok x).
Proof.
  intros [Hi Hwf Hfr] Hne. destruct (frame_alloc_some a Hi Hne) as (f & a' & l & Hrun & Hi' & Hp & Hp').
  pose proof (frame_nodup a Hi) as Hnd. rewrite Hp in Hnd. apply NoDup_cons in Hnd as [Hnf _].
  assert (Hin : forall x, x ∈ free_frames a' -> x ∈ free_frames a /\ x <> f).
  { intros x. rewrite Hp', Hp. intros Hx. split; [by right|]. by intros ->. }
  exists f, a'. split_and!; try done.
  - rewrite Hp. by left.
  - apply Hfr. rewrite Hp. by left.
  - split; [rewrite Hp, Hp'; simpl; lia|]. intros x Hx. by apply Hin in Hx as [? _].
  - intros x Hx. apply Hfr. by apply Hin in Hx as [? _].
Qed.

(** [leaf_at_most n]: the walk of [q] meets no leaf above level [n]. *)
Definition leaf_at_most (m : memory) (root : Z) (q : list Z) (n : nat) : Prop :=
  forall e k, leaf m root q = Some (e, k) -> (k <= n)%nat.

Lemma next_table_spec m a root p t i r n :
  mapper_ok m root a -> path_ok p -> (length p <= 1)%nat -> tpath m root p = Some t -> idx_ok i ->
  (n < length r)%nat -> leaf_at_most m root (p ++ i :: r) n -> free_frames a <> [] ->
  exists t' m' a', next_table m a t i = Ret (t', m', a') /\ mapper_ok m' root a' /\ frames_used 1 a a' /\
    tpath m' root (p ++ [i]) = Some t' /\
    forall q, Forall idx_ok q -> length q = 3%nat -> leaf m' root q = leaf m root q.
Proof.
  intros Hok Hp Hlp Ht Hi Hn Hleaf Hne. unfold next_table.
  destruct (is_valid (ent m t i)) eqn:Ev.
  - assert (El : is_leaf (ent m t i) = false).
    { destruct (is_leaf (ent m t i)) eqn:El; [|done]. specialize (Hleaf (ent m t i) (length r)).
      rewrite (leaf_app m root p t) in Hleaf by done. simpl in Hleaf. rewrite Ev, El in Hleaf.
      specialize (Hleaf eq_refl). lia. }
    eexists _, _, _. split_and!; [done|done| |rewrite tpath_snoc, Ht; unfold child; by rewrite Ev, El|done].
    split; [lia|done].
  - destruct (alloc_frame m root a Hok Hne) as (f & a' & Hrun & Hi' & Hf & Hfr & Hu & Hin & Hfr').
    unfold alloc_next_level. rewrite Hrun. cbn [obind expect].
    destruct (install_table m root (free_frames a) p t i f (free_frames a') (mo_wf _ _ _ Hok) Hp Hlp Ht Hi Hf Hfr Hin Ev)
      as (Hwf' & Hpi & Hl).
    eexists _, _, _. split_and!; try done.
Qed.

Lemma frames_used_trans n k a a' a'' : frames_used n a a' -> frames_used k a' a'' -> frames_used (n + k) a a''.
Proof. intros [H1 H2] [H3 H4]. split; [lia|auto]. Qed.

Lemma free_ne n a : (S n <= length (free_frames a))%nat -> free_frames a <> [].
Proof. by destruct (free_frames a); simpl; [lia|]. Qed.

(** One page: [map_step] at level 0. *)
Lemma map_step_4k m a root virt phys flags :
  mapper_ok m root a -> leaf_at_most m root (vpns virt) 0 -> (2 <= length (free_frames a))%nat ->
  exists m' a', map_step m a root virt phys flags 0 = Ret (m', a') /\ mapper_ok m' root a' /\
    frames_used 2 a a' /\
    forall q, Forall idx_ok q -> length q = 3%nat ->
      leaf m' root q = if decide (q = vpns virt) then Some (pte_set phys flags, 0%nat) else leaf m root q.
Proof.
  intros Hok Hl Hfree. unfold map_step. cbn [Nat.eqb].
  pose proof (vpn_ok virt) as Hv. pose proof Hv as [H2 [H1 [H0 _]%Forall_cons]%Forall_cons]%Forall_cons.
  destruct (next_table_spec m a root [] root (vpn2 virt) [vpn1 virt; vpn0 virt] 0 Hok)
    as (t1 & m1 & a1 & -> & Hok1 & Hu1 & Hp1 & Hl1); simpl; try done; try lia; [by split; simpl; [lia|]|by eapply free_ne|].
  cbn [obind]. simpl in Hp1.
  destruct (next_table_spec m1 a1 root [vpn2 virt] t1 (vpn1 virt) [vpn0 virt] 0 Hok1)
    as (t0 & m2 & a2 & -> & Hok2 & Hu2 & Hp2 & Hl2); simpl; try done; try lia.
  { split; [simpl; lia|by constructor]. }
  { intros e k. change ([vpn2 virt; vpn1 virt; vpn0 virt]) with (vpns virt). rewrite Hl1 by done. apply Hl. }
  { eapply (free_ne 0). destruct Hu1. lia. }
  cbn [obind]. simpl in Hp2.
  destruct (write_leaf m2 root (free_frames a2) [vpn2 virt; vpn1 virt] t0 (vpn0 virt) phys flags (mo_wf _ _ _ Hok2))
    as [Hwf3 Hl3]; try done; [split; [simpl; lia|by rewrite !Forall_cons, Forall_nil]|by left|].
  eexists _, _. split_and!; [done| |by eapply (frames_used_trans 1 1)|].
  - destruct Hok2. by split.
  - intros q Hq Hlen. destruct (Hl3 q Hq Hlen) as [Hyes Hno].
    destruct (decide (q = vpns virt)) as [->|Hne].
    + by rewrite (Hyes []).
    + rewrite Hno; [by rewrite Hl2, Hl1|]. intros [r ->]. by destruct r.
Qed.

(** One superpage: [map_step] at level 1. *)
Lemma map_step_2m m a root virt phys flags :
  mapper_ok m root a -> leaf_at_most m root (vpns virt) 1 -> free_frames a <> [] ->
  intersects flags RWX = true ->
  exists m' a', map_step m a root virt phys flags 1 = Ret (m', a') /\ mapper_ok m' root a' /\
    frames_used 1 a a' /\
    forall q, Forall idx_ok q -> length q = 3%nat ->
      leaf m' root q = if decide (take 2 q = take 2 (vpns virt)) then Some (pte_set phys flags, 1%nat) else leaf m root q.
Proof.
  intros Hok Hl Hfree Hrwx. unfold map_step. cbn [Nat.eqb].
  pose proof (vpn_ok virt) as Hv. pose proof Hv as [H2 [H1 [H0 _]%Forall_cons]%Forall_cons]%Forall_cons.
  destruct (next_table_spec m a root [] root (vpn2 virt) [vpn1 virt; vpn0 virt] 1 Hok)
    as (t1 & m1 & a1 & -> & Hok1 & Hu1 & Hp1 & Hl1); simpl; try done; try lia; [by split; simpl; [lia|]|].
  cbn [obind]. simpl in Hp1.
  destruct (write_leaf m1 root (free_frames a1) [vpn2 virt] t1 (vpn1 virt) phys flags (mo_wf _ _ _ Hok1))
    as [Hwf3 Hl3]; try done; [split; [simpl; lia|by rewrite !Forall_cons, Forall_nil]|by right|].
  eexists _, _. split_and!; [done|destruct Hok1; by split|done|].
  intros q Hq Hlen. destruct (Hl3 q Hq Hlen) as [Hyes Hno]. destruct q as [|q2 [|q1 [|q0 [|]]]]; try done.
  change (take 2 [q2; q1; q0]) with [q2; q1]. change (take 2 (vpns virt)) with [vpn2 virt; vpn1 virt].
  destruct (decide ([q2; q1] = [vpn2 virt; vpn1 virt])) as [[= -> ->]|Hne].
  - by rewrite (Hyes [q0]).
  - rewrite Hno; [by apply Hl1|]. intros [r [= -> -> _]]. done.
Qed.

End Mapping.

(** *** Ranges *)

Definition pidx (virt v : Z) : Z := (v / 4096 - virt / 4096) mod 2 ^ 27.

Lemma vpn_arith v : vpn2 v = (v / 4096 / 2 ^ 18) mod 512 /\ vpn1 v = (v / 4096 / 2 ^ 9) mod 512 /\
  vpn0 v = (v / 4096) mod 512.
Proof.
  unfold vpn2, vpn1, vpn0. change 0x1ff with (Z.ones 9). rewrite !Z.land_ones, !Z.shiftr_div_pow2 by lia.
  rewrite !Z.div_div by lia. done.
Qed.

Lemma vpns_eq v v' : vpns v = vpns v' <-> (v / 4096) mod 2 ^ 27 = (v' / 4096) mod 2 ^ 27.
Proof.
  unfold vpns. destruct (vpn_arith v) as (-> & -> & ->). destruct (vpn_arith v') as (-> & -> & ->).
  set (n := v / 4096). set (n' := v' / 4096). change (2 ^ 18) with 262144. change (2 ^ 9) with 512.
  change (2 ^ 27) with 134217728. split.
  - intros [= ? ? ?]. lia.
  - intros E. f_equal; [lia|]. f_equal; [lia|]. f_equal. lia.
Qed.

Lemma vpns_pidx virt v j : virt mod 4096 = 0 -> 0 <= j < 2 ^ 27 ->
  vpns v = vpns (virt + j * 4096) <-> pidx virt v = j.
Proof. intros Hv Hj. rewrite vpns_eq. unfold pidx. change (2 ^ 27) with 134217728 in *. split; lia. Qed.

Lemma page_join p v : p mod 4096 = 0 -> 0 <= p ->
  Z.lor (andn p 0xfff) (Z.land v 0xfff) = p + v mod 4096.
Proof.
  intros Hp Hp0. change 0xfff with (2 ^ 12 - 1) at 1. rewrite andn_ones by lia. change 0xfff with (Z.ones 12).
  rewrite Z.land_ones by lia. change (2 ^ 12) with 4096. replace (p / 4096 * 4096) with p by lia.
  assert (Hz : Z.land p (v mod 4096) = 0).
  { replace (v mod 4096) with (Z.land v (Z.ones 12)) by (by rewrite Z.land_ones by lia).
    rewrite (Z.land_comm v), Z.land_assoc, Z.land_ones by lia. change (2 ^ 12) with 4096. by rewrite Hp. }
  by rewrite <- Z.lxor_lor, <- Z.add_nocarry_lxor.
Qed.

Section Ranges.
Context {A : Type} `{FrameAllocator A}.

Lemma map_loop_4k root virt phys n flags m0 : forall k m (a : A) j,
  (j + k = n)%nat -> virt mod 4096 = 0 -> 0 <= virt -> virt + Z.of_nat n * 4096 < USIZE ->
  0 <= phys -> phys + Z.of_nat n * 4096 < USIZE -> Z.of_nat n <= 2 ^ 27 ->
  mapper_ok m root a -> (2 * k <= length (free_frames a))%nat ->
  (forall i, (i < n)%nat -> leaf_at_most m0 root (vpns (virt + Z.of_nat i * 4096)) 0) ->
  (forall v, leaf m root (vpns v) = if pidx virt v <? Z.of_nat j then Some (pte_set (phys + pidx virt v * 4096) flags, 0%nat)
                                   else leaf m0 root (vpns v)) ->
  exists m' a', map_loop k m a root virt phys (Z.of_nat n * 4096) (Z.of_nat j * 4096) flags Size4K = Ret (m', a') /\
    mapper_ok m' root a' /\ frames_used (2 * k) a a' /\
    forall v, leaf m' root (vpns v) = if pidx virt v <? Z.of_nat n then Some (pte_set (phys + pidx virt v * 4096) flags, 0%nat)
                                     else leaf m0 root (vpns v).
Proof.
  induction k as [|k IH]; intros m a j Hjk Hva Hv0 Hv1 Hp0 Hp1 Hn Hok Hfree Hsup Hinv.
  - exists m, a. assert (j = n) as -> by lia. cbn [map_loop]. rewrite Z.ltb_irrefl. split_and!; try done.
    split; [lia|done].
  - cbn [map_loop]. rewrite (proj2 (Z.ltb_lt _ _)) by lia. rewrite !uadd_ok by lia. cbn [obind].
    change (level Size4K) with 0%nat. set (virt_j := virt + Z.of_nat j * 4096). set (phys_j := phys + Z.of_nat j * 4096).
    assert (Hpj : pidx virt virt_j = Z.of_nat j) by (apply vpns_pidx; [done|lia|done]).
    destruct (map_step_4k m a root virt_j phys_j flags Hok) as (m1 & a1 & -> & Hok1 & Hu1 & Hl1).
    { intros e i. rewrite Hinv, Hpj, Z.ltb_irrefl. apply Hsup. lia. }
    { lia. }
    cbn [obind]. change (psize Size4K) with 4096. rewrite uadd_ok by lia. cbn [obind].
    replace (Z.of_nat j * 4096 + 4096) with (Z.of_nat (S j) * 4096) by lia.
    destruct (IH m1 a1 (S j)) as (m' & a' & -> & Hok' & Hu' & Hl'); try done; try lia.
    { destruct Hu1. lia. }
    { intros v. rewrite Hl1 by (apply vpn_ok || done). rewrite Hinv.
      destruct (decide (vpns v = vpns virt_j)) as [E|E]; subst virt_j; rewrite vpns_pidx in E by (done || lia).
      - rewrite E, (proj2 (Z.ltb_lt _ _)) by lia. done.
      - zcases; try done; lia. }
    eexists _, _. split_and!; try done.
    destruct Hu1 as [? Hs1], Hu' as [? Hs2]. split; [lia|auto].
Qed.

Lemma map_range_unfold m (a : A) root virt phys n flags ps : virt mod psize ps = 0 -> phys mod psize ps = 0 ->
  0 <= virt -> virt + Z.of_nat n * psize ps < USIZE ->
  map_range m a root virt phys (virt + Z.of_nat n * psize ps) flags ps = map_loop n m a root virt phys (Z.of_nat n * psize ps) 0 flags ps.
Proof.
  intros Hv Hp Hv0 Hv1. unfold map_range. assert (0 < psize ps) by by destruct ps. rewrite Z.mod_add by lia. rewrite Hv, Hp. cbn [Z.eqb oassert obind].
  rewrite usub_ok by nia. cbn [obind]. replace (virt + Z.of_nat n * psize ps - virt) with (Z.of_nat n * psize ps) by lia. by rewrite Z.div_mul, Nat2Z.id by lia.
Qed.

(** [map_range] with 4 KiB pages, by the entry that ends the walk of every
    address. *)
Lemma map_range_4k_leaf m (a : A) root virt phys n flags :
  mapper_ok m root a -> virt mod 4096 = 0 /\ 0 <= virt /\ virt + Z.of_nat n * 4096 < USIZE ->
  phys mod 4096 = 0 /\ 0 <= phys /\ phys + Z.of_nat n * 4096 <= 2 ^ 48 -> Z.of_nat n <= 2 ^ 27 -> (2 * n <= length (free_frames a))%nat ->
  (forall i, (i < n)%nat -> leaf_at_most m root (vpns (virt + Z.of_nat i * 4096)) 0) ->
  exists m' a', map_range m a root virt phys (virt + Z.of_nat n * 4096) flags Size4K = Ret (m', a') /\
    mapper_ok m' root a' /\ frames_used (2 * n) a a' /\
    forall v, leaf m' root (vpns v) = if pidx virt v <? Z.of_nat n then Some (pte_set (phys + pidx virt v * 4096) flags, 0%nat)
                                     else leaf m root (vpns v).
Proof.
  intros Hok (Hva & Hv0 & Hv1) (Hpa & Hp0 & Hp1) Hn Hfree Hsup.
  destruct (map_loop_4k root virt phys n flags m n m a 0) as (m' & a' & Hrun & Hok' & Hu & Hl); try done.
  { assert (2 ^ 48 < USIZE) by done. lia. }
  { intros v. rewrite (proj2 (Z.ltb_ge _ _)); [done|]. unfold pidx. lia. }
  exists m', a'. split_and!; [|done..]. change 4096 with (psize Size4K) at 1. by rewrite map_range_unfold.
Qed.

(** C7: [map_range] with 4 KiB pages returns, given enough free frames and no
    superpage in the way, and afterwards [virt_to_phys] translates every address
    of the range to the frame asked for at the same page offset, while every
    other page translates as before; the tables stay a tree outside the free
    frames. *)
Theorem map_range_4k_spec m (a : A) root virt phys n flags
  (Hok : mapper_ok m root a) (Hfl : flags_ok flags)
  (Hvirt : virt mod 4096 = 0 /\ 0 <= virt /\ virt + Z.of_nat n * 4096 < USIZE)
  (Hphys : phys mod 4096 = 0 /\ 0 <= phys /\ phys + Z.of_nat n * 4096 <= 2 ^ 48)
  (Hn : Z.of_nat n <= 2 ^ 27) (Hfree : (2 * n <= length (free_frames a))%nat)
  (Hsup : forall i, (i < n)%nat -> leaf_at_most m root (vpns (virt + Z.of_nat i * 4096)) 0) :
  exists m' a', map_range m a root virt phys (virt + Z.of_nat n * 4096) flags Size4K = Ret (m', a') /\
    mapper_ok m' root a' /\
    forall v, virt_to_phys m' root v =
      if pidx virt v <? Z.of_nat n then Some (phys + pidx virt v * 4096 + v mod 4096)
      else virt_to_phys m root v.
Proof.
  destruct (map_range_4k_leaf m a root virt phys n flags Hok Hvirt Hphys Hn Hfree Hsup) as (m' & a' & Hrun & Hok' & _ & Hl).
  destruct Hphys as (Hpa & Hp0 & Hp1). exists m', a'. split_and!; [done|done|].
  intros v. rewrite !virt_to_phys_leaf, Hl. destruct (Z.ltb_spec (pidx virt v) (Z.of_nat n)); [|done].
  assert (0 <= pidx virt v) by (unfold pidx; lia). cbn [leaf_mask].
  rewrite pte_addr_set by (done || split; lia). rewrite page_join by lia. done.
Qed.

(** *** Superpages *)

Definition sidx (virt v : Z) : Z := (v / 2097152 - virt / 2097152) mod 2 ^ 18.

Lemma take_vpns_eq v v' : take 2 (vpns v) = take 2 (vpns v') <-> (v / 2097152) mod 2 ^ 18 = (v' / 2097152) mod 2 ^ 18.
Proof.
  change (take 2 (vpns v)) with [vpn2 v; vpn1 v]. change (take 2 (vpns v')) with [vpn2 v'; vpn1 v'].
  destruct (vpn_arith v) as (-> & -> & _). destruct (vpn_arith v') as (-> & -> & _).
  rewrite !Z.div_div by lia. change (4096 * 2 ^ 18) with (2097152 * 512). change (4096 * 2 ^ 9) with 2097152. rewrite <- !Z.div_div by lia.
  set (n := v / 2097152). set (n' := v' / 2097152). change (2 ^ 18) with 262144. split.
  - intros [= ? ?]. lia.
  - intros E. f_equal; [lia|]. f_equal. lia.
Qed.

Lemma take_vpns_sidx virt v j : virt mod 2097152 = 0 -> 0 <= j < 2 ^ 18 ->
  take 2 (vpns v) = take 2 (vpns (virt + j * 2097152)) <-> sidx virt v = j.
Proof. intros Hv Hj. rewrite take_vpns_eq. unfold sidx. change (2 ^ 18) with 262144 in *. split; lia. Qed.

Lemma map_loop_2m root virt phys n flags m0 : intersects flags RWX = true -> forall k m (a : A) j,
  (j + k = n)%nat -> virt mod 2097152 = 0 -> 0 <= virt -> virt + Z.of_nat n * 2097152 < USIZE ->
  0 <= phys -> phys + Z.of_nat n * 2097152 < USIZE -> Z.of_nat n <= 2 ^ 18 ->
  mapper_ok m root a -> (k <= length (free_frames a))%nat ->
  (forall i, (i < n)%nat -> leaf_at_most m0 root (vpns (virt + Z.of_nat i * 2097152)) 1) ->
  (forall v, leaf m root (vpns v) = if sidx virt v <? Z.of_nat j then Some (pte_set (phys + sidx virt v * 2097152) flags, 1%nat)
                                   else leaf m0 root (vpns v)) ->
  exists m' a', map_loop k m a root virt phys (Z.of_nat n * 2097152) (Z.of_nat j * 2097152) flags Size2M = Ret (m', a') /\
    mapper_ok m' root a' /\ frames_used k a a' /\
    forall v, leaf m' root (vpns v) = if sidx virt v <? Z.of_nat n then Some (pte_set (phys + sidx virt v * 2097152) flags, 1%nat)
                                     else leaf m0 root (vpns v).
Proof.
  intros Hrwx. induction k as [|k IH]; intros m a j Hjk Hva Hv0 Hv1 Hp0 Hp1 Hn Hok Hfree Hsup Hinv.
  - exists m, a. assert (j = n) as -> by lia. cbn [map_loop]. rewrite Z.ltb_irrefl. split_and!; try done.
    split; [lia|done].
  - cbn [map_loop]. rewrite (proj2 (Z.ltb_lt _ _)) by lia. rewrite !uadd_ok by lia. cbn [obind].
    change (level Size2M) with 1%nat. set (virt_j := virt + Z.of_nat j * 2097152). set (phys_j := phys + Z.of_nat j * 2097152).
    assert (Hpj : sidx virt virt_j = Z.of_nat j) by (apply take_vpns_sidx; [done|lia|done]).
    destruct (map_step_2m m a root virt_j phys_j flags Hok) as (m1 & a1 & -> & Hok1 & Hu1 & Hl1); [|by eapply free_ne|done|].
    { intros e i. rewrite Hinv, Hpj, Z.ltb_irrefl. apply Hsup. lia. }
    cbn [obind]. change (psize Size2M) with 2097152. rewrite uadd_ok by lia. cbn [obind].
    replace (Z.of_nat j * 2097152 + 2097152) with (Z.of_nat (S j) * 2097152) by lia.
    destruct (IH m1 a1 (S j)) as (m' & a' & -> & Hok' & Hu' & Hl'); try done; try lia.
    { destruct Hu1. lia. }
    { intros v. rewrite Hl1 by (apply vpn_ok || done). rewrite Hinv.
      destruct (decide (take 2 (vpns v) = take 2 (vpns virt_j))) as [E|E]; subst virt_j; rewrite take_vpns_sidx in E by (done || lia).
      - rewrite E, (proj2 (Z.ltb_lt _ _)) by lia. done.
      - zcases; try done; lia. }
    eexists _, _. split_and!; try done.
    destruct Hu1 as [? Hs1], Hu' as [? Hs2]. split; [lia|auto].
Qed.

(** [map_range] with 2 MiB pages. *)
Lemma map_range_2m_leaf m (a : A) root virt phys n flags :
  mapper_ok m root a -> intersects flags RWX = true -> virt mod 2097152 = 0 /\ 0 <= virt /\ virt + Z.of_nat n * 2097152 < USIZE ->
  phys mod 2097152 = 0 /\ 0 <= phys /\ phys + Z.of_nat n * 2097152 <= 2 ^ 48 -> Z.of_nat n <= 2 ^ 18 -> (n <= length (free_frames a))%nat ->
  (forall i, (i < n)%nat -> leaf_at_most m root (vpns (virt + Z.of_nat i * 2097152)) 1) ->
  exists m' a', map_range m a root virt phys (virt + Z.of_nat n * 2097152) flags Size2M = Ret (m', a') /\
    mapper_ok m' root a' /\ frames_used n a a' /\
    forall v, leaf m' root (vpns v) = if sidx virt v <? Z.of_nat n then Some (pte_set (phys + sidx virt v * 2097152) flags, 1%nat)
                                     else leaf m root (vpns v).
Proof.
  intros Hok Hrwx (Hva & Hv0 & Hv1) (Hpa & Hp0 & Hp1) Hn Hfree Hsup.
  destruct (map_loop_2m root virt phys n flags m Hrwx n m a 0) as (m' & a' & Hrun & Hok' & Hu & Hl); try done.
  { assert (2 ^ 48 < USIZE) by done. lia. }
  { intros v. rewrite (proj2 (Z.ltb_ge _ _)); [done|]. unfold sidx. lia. }
  exists m', a'. split_and!; [|done..]. change 2097152 with (psize Size2M) at 1. by rewrite map_range_unfold.
Qed.

(** *** Fresh pages *)

Lemma map_one m (a : A) root virt phys flags :
  mapper_ok m root a -> virt mod 4096 = 0 -> 0 <= virt -> virt + 4096 < USIZE ->
  phys mod 4096 = 0 -> 0 <= phys -> phys + 4096 < USIZE ->
  leaf_at_most m root (vpns virt) 0 -> (2 <= length (free_frames a))%nat ->
  exists m' a', map_range m a root virt phys (virt + 4096) flags Size4K = Ret (m', a') /\
    mapper_ok m' root a' /\ frames_used 2 a a' /\
    forall v, leaf m' root (vpns v) = if decide (vpns v = vpns virt) then Some (pte_set phys flags, 0%nat) else leaf m root (vpns v).
Proof.
  intros Hok Hva Hv0 Hv1 Hpa Hp0 Hp1 Hsup Hfree.
  destruct (map_loop_4k root virt phys 1 flags m 1 m a 0) as (m' & a' & Hrun & Hok' & Hu & Hl); try done.
  { intros i Hi. replace i with 0%nat by lia. by rewrite Z.add_0_r. }
  { intros v. rewrite (proj2 (Z.ltb_ge _ _)); [done|]. unfold pidx. lia. }
  exists m', a'. split_and!; [|done|done|].
  - change (virt + 4096) with (virt + Z.of_nat 1 * psize Size4K). by rewrite map_range_unfold.
  - intros v. rewrite Hl. pose proof (vpns_pidx virt v 0 Hva ltac:(lia)) as Hpx. rewrite Z.add_0_r in Hpx.
    assert (0 <= pidx virt v) by (unfold pidx; lia).
    destruct (decide (vpns v = vpns virt)) as [E|E]; rewrite Hpx in E.
    + rewrite E. cbn [Z.ltb Z.compare]. by rewrite Z.add_0_r.
    + rewrite (proj2 (Z.ltb_ge _ _)); [done|]. lia.
Qed.

Lemma map_new_page_spec m (a : A) root virt flags zero i :
  mapper_ok m root a -> virt mod 4096 = 0 -> 0 <= virt -> virt + Z.of_nat (S i) * 4096 < USIZE ->
  leaf_at_most m root (vpns (virt + Z.of_nat i * 4096)) 0 -> (3 <= length (free_frames a))%nat ->
  exists f m' a', map_new_page root virt flags zero (m, a) i = Ret (m', a') /\
    f ∈ free_frames a /\ f ∉ free_frames a' /\ frame_ok f /\ mapper_ok m' root a' /\ frames_used 3 a a' /\
    forall v, leaf m' root (vpns v) =
      if decide (vpns v = vpns (virt + Z.of_nat i * 4096)) then Some (pte_set f flags, 0%nat) else leaf m root (vpns v).
Proof.
  intros Hok Hva Hv0 Hv1 Hsup Hfree.
  destruct (alloc_frame m root a Hok) as (f & a1 & Hrun & Hi1 & Hf & Hfr & Hu1 & Hin1 & Hfr1); [by eapply free_ne|].
  unfold map_new_page. rewrite Hrun. cbn [obind expect]. unfold Mem.PAGE_SIZE.
  rewrite umul_ok by lia. cbn [obind]. rewrite uadd_ok by lia. cbn [obind]. rewrite uadd_ok by lia. cbn [obind].
  set (m1 := if zero then zero_page m f else m).
  assert (Hm1 : wf m1 root (free_frames a1) /\ forall v, leaf m1 root (vpns v) = leaf m root (vpns v)).
  { assert (Hshrink : forall m0, wf m0 root (free_frames a) -> wf m0 root (free_frames a1)).
    { intros m0 [Hw1 Hw2]. split; [|done]. intros p t Hp Ht. destruct (Hw1 p t Hp Ht). split; [done|].
      intros Hx. by apply Hin1 in Hx as [? _]. }
    destruct (zero_free m root _ f (mo_wf _ _ _ Hok) Hf Hfr) as (Hwz & _ & _ & Hlz). subst m1.
    destruct zero; (split; [apply Hshrink; (done || apply (mo_wf _ _ _ Hok))|]); [|done].
    intros v. apply Hlz; [apply vpn_ok|done]. }
  destruct Hm1 as [Hwf1 Hl1]. assert (2 ^ 48 < USIZE - 4096) by done. destruct Hfr as [Hfa Hfb].
  destruct (map_one m1 a1 root (virt + Z.of_nat i * 4096) f flags) as (m' & a' & -> & Hok' & Hu' & Hl');
    try lia; [by split| |destruct Hu1; lia|].
  { intros e k. rewrite Hl1. apply Hsup. }
  exists f, m', a'. split_and!; try done.
  - intros Hx. destruct Hu' as [_ Hs]. by apply Hs, Hin1 in Hx as [_ ?].
  - by eapply (frames_used_trans 1 2).
  - intros v. by rewrite Hl', Hl1.
Qed.

Lemma map_new_pages root virt flags zero m0 : forall k m (a : A) j fs,
  length fs = j -> virt mod 4096 = 0 -> 0 <= virt -> virt + Z.of_nat (j + k) * 4096 < USIZE ->
  Z.of_nat (j + k) <= 2 ^ 27 -> mapper_ok m root a -> (3 * k <= length (free_frames a))%nat ->
  (forall i, (i < j + k)%nat -> leaf_at_most m0 root (vpns (virt + Z.of_nat i * 4096)) 0) ->
  NoDup fs -> Forall frame_ok fs -> (forall f, f ∈ fs -> f ∉ free_frames a) ->
  (forall v, leaf m root (vpns v) =
     match fs !! Z.to_nat (pidx virt v) with Some f => Some (pte_set f flags, 0%nat) | None => leaf m0 root (vpns v) end) ->
  exists m' a' fs', ofold (map_new_page root virt flags zero) (seq j k) (m, a) = Ret (m', a') /\
    mapper_ok m' root a' /\ frames_used (3 * k) a a' /\ length fs' = (j + k)%nat /\ NoDup fs' /\ Forall frame_ok fs' /\
    (forall f, f ∈ fs' -> f ∈ fs \/ f ∈ free_frames a) /\ (forall f, f ∈ fs' -> f ∉ free_frames a') /\
    (forall v, leaf m' root (vpns v) =
       match fs' !! Z.to_nat (pidx virt v) with Some f => Some (pte_set f flags, 0%nat) | None => leaf m0 root (vpns v) end).
Proof.
  induction k as [|k IH]; intros m a j fs Hj Hva Hv0 Hv1 Hn Hok Hfree Hsup Hnd Hfo Hout Hinv.
  { exists m, a, fs. simpl. rewrite Nat.add_0_r. split_and!; try done; [split; [lia|done]|]. by left. }
  cbn [seq ofold]. set (vj := virt + Z.of_nat j * 4096).
  assert (Hpj : pidx virt vj = Z.of_nat j) by (apply vpns_pidx; [done|lia|done]).
  destruct (map_new_page_spec m a root virt flags zero j Hok) as
    (f & m1 & a1 & -> & Hf & Hf' & Hfr & Hok1 & [Hu1 Hs1] & Hl1); try done; try lia.
  { intros e i. fold vj. rewrite Hinv, Hpj, Nat2Z.id, lookup_ge_None_2 by lia. apply Hsup. lia. }
  cbn [obind]. destruct (IH m1 a1 (S j) (fs ++ [f])) as
    (m' & a' & fs' & Hrun & Hok' & Hu' & Hlen & Hnd' & Hfo' & Hin' & Hout' & Hl'); try done; try lia.
  { rewrite length_app. simpl. lia. }
  { intros i Hi. apply Hsup. lia. }
  { apply NoDup_app. split_and!; [done| |apply NoDup_singleton]. intros x Hx ->%list_elem_of_singleton. by apply (Hout f). }
  { apply Forall_app_2; [done|by constructor]. }
  { intros x [Hx|Hx]%elem_of_app; [intros ?; by apply (Hout x), Hs1|]. by apply list_elem_of_singleton in Hx as ->. }
  { intros v. rewrite Hl1, Hinv. assert (0 <= pidx virt v) by (unfold pidx; lia). fold vj.
    destruct (decide (vpns v = vpns vj)) as [E|E]; subst vj; rewrite vpns_pidx in E by (done || lia).
    - rewrite E, Nat2Z.id, <- Hj, list_lookup_middle by done. done.
    - destruct (decide (pidx virt v < Z.of_nat j)).
      + rewrite lookup_app_l by lia. done.
      + rewrite !lookup_ge_None_2; [done|..]; rewrite ?length_app; simpl; lia. }
  rewrite Hrun. exists m', a', fs'. split_and!; try done; [destruct Hu'; split; [lia|auto]|lia|].
  intros x [[Hx|Hx]%elem_of_app|Hx]%Hin'; [by left|right|right; by apply Hs1].
  by apply list_elem_of_singleton in Hx as ->.
Qed.

(** [allocate_and_map_pages], by the entry that ends the walk of every
    address: every page of the range gets a frame of its own that was free
    before and is not any more. *)
Lemma allocate_and_map_pages_leaf m (a : A) root virt n flags zero :
  mapper_ok m root a -> virt mod 4096 = 0 /\ 0 <= virt /\ virt + Z.of_nat n * 4096 < USIZE -> Z.of_nat n <= 2 ^ 27 ->
  (3 * n <= length (free_frames a))%nat ->
  (forall i, (i < n)%nat -> leaf_at_most m root (vpns (virt + Z.of_nat i * 4096)) 0) ->
  exists m' a' fs,
    allocate_and_map_pages_impl m a root virt (Z.of_nat n * 4096) flags zero = Ret (m', a') /\
    mapper_ok m' root a' /\ frames_used (3 * n) a a' /\ length fs = n /\ NoDup fs /\ Forall frame_ok fs /\
    (forall f, f ∈ fs -> f ∈ free_frames a /\ f ∉ free_frames a') /\
    forall v, leaf m' root (vpns v) =
      match fs !! Z.to_nat (pidx virt v) with Some f => Some (pte_set f flags, 0%nat) | None => leaf m root (vpns v) end.
Proof.
  intros Hok (Hva & Hv0 & Hv1) Hn Hfree Hsup.
  destruct (map_new_pages root virt flags zero m n m a 0 []) as
    (m' & a' & fs & Hrun & Hok' & Hu & Hlen & Hnd & Hfo & Hin & Hout & Hl); try done;
    [apply NoDup_nil_2|by intros ? ?%elem_of_nil|].
  exists m', a', fs. split_and!; try done.
  - unfold allocate_and_map_pages_impl, udiv, Mem.PAGE_SIZE. cbn [Z.eqb obind].
    rewrite Z.div_mul, Nat2Z.id by lia. exact Hrun.
  - intros f Hf. split; [|by apply Hout]. by destruct (Hin f Hf) as [?%elem_of_nil|].
Qed.

(** [allocate_and_map_pages] maps every page of the range to a frame of its
    own that was free before and is not any more, zeroed or not, and leaves
    every other translation as it was. *)
Lemma allocate_and_map_pages_spec m (a : A) root virt n flags zero
  (Hok : mapper_ok m root a) (Hfl : flags_ok flags)
  (Hvirt : virt mod 4096 = 0 /\ 0 <= virt /\ virt + Z.of_nat n * 4096 < USIZE)
  (Hn : Z.of_nat n <= 2 ^ 27) (Hfree : (3 * n <= length (free_frames a))%nat)
  (Hsup : forall i, (i < n)%nat -> leaf_at_most m root (vpns (virt + Z.of_nat i * 4096)) 0) :
  exists m' a' fs,
    allocate_and_map_pages_impl m a root virt (Z.of_nat n * 4096) flags zero = Ret (m', a') /\
    mapper_ok m' root a' /\ length fs = n /\ NoDup fs /\
    (forall f, f ∈ fs -> f ∈ free_frames a /\ f ∉ free_frames a') /\
    forall v, virt_to_phys m' root v =
      match fs !! Z.to_nat (pidx virt v) with
      | Some f => Some (f + v mod 4096)
      | None => virt_to_phys m root v
      end.
Proof.
  destruct (allocate_and_map_pages_leaf m a root virt n flags zero Hok Hvirt Hn Hfree Hsup) as
    (m' & a' & fs & Hrun & Hok' & _ & Hlen & Hnd & Hfo & Hin & Hl).
  exists m', a', fs. split_and!; [done..|].
  intros v. rewrite !virt_to_phys_leaf, Hl. destruct (fs !! Z.to_nat (pidx virt v)) as [f|] eqn:E; [|done].
  apply list_elem_of_lookup_2 in E. eapply Forall_forall in Hfo as [Hfa Hfb]; [|done]. cbn [leaf_mask].
  rewrite pte_addr_set by (done || by split). by rewrite page_join by lia.
Qed.

End Ranges.

(** ** Empty trees and examples *)

Lemma wf_empty m root free : frame_ok root -> root ∉ free -> (forall i, idx_ok i -> ent m root i = 0) ->
  wf m root free.
Proof.
  intros Hr Hn Hz.
  assert (Honly : forall p t, path_ok p -> tpath m root p = Some t -> p = [] /\ t = root).
  { intros [|i p] t [_ Hp] Ht; [by injection Ht as ->|]. apply Forall_cons in Hp as [Hi _].
    simpl in Ht. unfold child in Ht. by rewrite (Hz i Hi) in Ht. }
  split.
  - intros p t Hp Ht. by destruct (Honly p t Hp Ht) as [-> ->].
  - intros p q t Hp Hq Hpt Hqt. destruct (Honly p t Hp Hpt) as [-> _]. by destruct (Honly q t Hq Hqt) as [-> _].
Qed.

Lemma leaf_empty m root v n : (forall i, idx_ok i -> ent m root i = 0) -> leaf_at_most m root (vpns v) n.
Proof.
  intros Hz e k. pose proof (vpn_ok v) as Hv. apply Forall_cons in Hv as [Hv _].
  unfold vpns. cbn [leaf]. by rewrite (Hz _ Hv).
Qed.

Definition demo_pages : Pages.PageAllocator :=
  Pages.mkPA (Some 0x8050_0000) 8 8 {[ 0x8050_0000 := Pages.mkNode None 8 ]}.
Definition demo_root : Z := 0x8040_0000.
Definition demo_mem : memory := fun _ => 0.

Lemma demo_pages_rep : Pages.rep demo_pages [(0x8050_0000, 8%nat)].
Proof.
  split; [|apply (bool_decide_unpack _); by vm_compute|apply (bool_decide_unpack _); by vm_compute|done].
  split_and!; [done|lia|]. by exists None.
Qed.

Lemma demo_mapper_ok : mapper_ok demo_mem demo_root demo_pages.
Proof.
  split.
  - exists [(0x8050_0000, 8%nat)]. apply demo_pages_rep.
  - apply wf_empty; [done| |done]. apply (bool_decide_unpack _). by vm_compute.
  - intros f Hf. assert (Forall frame_ok (free_frames demo_pages)) as Hall.
    { apply (bool_decide_unpack _). by vm_compute. }
    by eapply Forall_forall in Hall.
Qed.

Definition demo_flags : PageFlags := Z.lor READ WRITE.

Lemma map_range_4k_spec_witness :
  exists m' a', map_range demo_mem demo_pages demo_root 0x1000_0000 0x1000_0000 (0x1000_0000 + 3 * 4096) demo_flags Size4K
      = Ret (m', a') /\
    mapper_ok m' demo_root a' /\
    forall v, virt_to_phys m' demo_root v =
      if pidx 0x1000_0000 v <? 3 then Some (0x1000_0000 + pidx 0x1000_0000 v * 4096 + v mod 4096)
      else virt_to_phys demo_mem demo_root v.
Proof.
  apply (map_range_4k_spec demo_mem demo_pages demo_root 0x1000_0000 0x1000_0000 3 demo_flags).
  - apply demo_mapper_ok.
  - by vm_compute.
  - by vm_compute.
  - by vm_compute.
  - by vm_compute.
  - vm_compute. lia.
  - intros i _. by apply leaf_empty.
Defined.

(** the 1 GiB branch of [virt_to_phys] keeps 14 offset bits where a 1 GiB
    page has 30: after an identity mapping of a gigabyte, an address 16 KiB into
    it translates to the start of the page. *)
Theorem virt_to_phys_1g_wrong :
  exists m' a', map_range demo_mem demo_pages demo_root 0x8000_0000 0x8000_0000 0xC000_0000 demo_flags Size1G = Ret (m', a') /\
    virt_to_phys m' demo_root 0x8000_0010 = Some 0x8000_0010 /\
    virt_to_phys m' demo_root 0x8000_4000 = Some 0x8000_0000.
Proof. eexists _, _. split; [vm_compute; reflexivity|]. by vm_compute. Qed.

(** [phys_to_ppn] keeps 36 bits of frame number, not the 44 its comment says:
    a frame at 2^48 is stored as frame 0. *)
Lemma phys_to_ppn_truncates : pte_addr (pte_set (2 ^ 48) READ) = 0.
Proof. done. Qed.

End Mapper.
