(* ===== verification/Dump.v ===== *)
(** * Listings of the page tables

    Models [dump_vmmap] and [dump_pte] of [src/src/page_mapper.rs]: the rows they
    print, as a walk of all entries of the tables.  The theorem compares the
    rows with the walk the hardware makes for one address ([Mapper.leaf]). *)

From S2P Require Import Prelude Memory PageAllocator PageMapper.

Module Dump.
Import Pte Mapper.

(** A row: the first and the last address, the frame, the flags and the size. *)
Record row := mkRow { va_first : Z; va_last : Z; pa : Z; flags : Z; kib : Z }.

(** Shifts of a [usize], which are logical. *)
Definition sign_extend_sv39 (va : Z) : Z := Z.shiftr (Z.shiftl va 25 mod USIZE) 25.

Definition all_entries : list Z := seqZ 0 PAGE_ENTRIES.

(** The rows of one entry; [next] is the walk of the table it points to. *)
Definition walk_entry (level : nat) (next : Z -> Z -> outcome (list row)) (m : memory) (table virt_base i : Z) : outcome (list row) :=
  let pte := ent m table i in
  if (pte_addr pte =? 0) || negb (is_valid pte) then Ret []
  else
    let shift := 12 + 9 * Z.of_nat level in
    let va := Z.lor virt_base (Z.shiftl i shift) in
    let canonical_va := sign_extend_sv39 va in
    if intersects (pte_flags pte) RWX then
      let size := Z.shiftl 1 shift in
      let! e := uadd canonical_va size in
      let! last := usub e 1 in
      Ret [mkRow canonical_va last (pte_addr pte) (pte_flags pte) (size / 1024)]
    else next (pte_addr pte) va.

(** [level - 1] of a table at level 0 underflows. *)
Fixpoint walk_table (level : nat) (m : memory) (table virt_base : Z) : outcome (list row) :=
  ofold (fun rows i =>
    let! sub := walk_entry level (match level with O => fun _ _ => Panic | S l => walk_table l m end) m table virt_base i in
    Ret (rows ++ sub)) all_entries [].

Definition dump_vmmap (m : memory) (root_table : Z) : outcome (list row) := walk_table 2 m root_table 0.

(** [dump_pte]: address, frame and flags of the entries of the last level that
    have a frame. *)
Definition dump_pte (m : memory) (root_table virt_addr : Z) : list (Z * Z * Z) :=
  let l0_table := l1_page_table_from_phys m root_table virt_addr in
  omap (fun i =>
    let pte := ent m l0_table i in
    if negb (pte_addr pte =? 0) then
      let va := Z.lor (Z.lor (Z.shiftl (vpn2 virt_addr) 30) (Z.shiftl (vpn1 virt_addr) 21)) (Z.shiftl i 12) in
      Some (Z.lor va 0xffff_ff10_0000_0000, pte_addr pte, pte_flags pte)
    else None) all_entries.

(** ** The addresses of a table *)
Definition span (level : nat) : Z := 2 ^ (12 + 9 * Z.of_nat level).

(** The indices of the walk at [w] bytes into what a table of [level] maps. *)
Fixpoint idxs (level : nat) (w : Z) : list Z :=
  w / span level :: match level with O => [] | S l => idxs l (w mod span level) end.

Lemma span_pos level : 0 < span level.
Proof. apply Z.pow_pos_nonneg; lia. Qed.

Lemma span_S level : span (S level) = 512 * span level.
Proof. unfold span. replace (12 + 9 * Z.of_nat (S level)) with (9 + (12 + 9 * Z.of_nat level)) by lia. rewrite Z.pow_add_r by lia. done. Qed.

Lemma idxs_vpns v : idxs 2 (v mod 2 ^ 39) = vpns v.
Proof.
  unfold vpns. destruct (vpn_arith v) as (-> & -> & ->). cbn [idxs]. change (span 2) with 1073741824. change (span 1) with 2097152. change (span 0) with 4096.
  change (2 ^ 39) with 549755813888. change (2 ^ 18) with 262144. change (2 ^ 9) with 512. repeat f_equal; lia.
Qed.

Lemma sign_extend_id va : 0 <= va < 2 ^ 39 -> sign_extend_sv39 va = va.
Proof.
  intros H. unfold sign_extend_sv39, USIZE. rewrite Z.shiftl_mul_pow2, Z.shiftr_div_pow2 by lia. change (2 ^ 39) with 549755813888 in H.
  change (2 ^ 25) with 33554432. change (2 ^ 64) with 18446744073709551616. rewrite Z.mod_small by lia. by rewrite Z.div_mul.
Qed.

(** The address of entry [i] of a table. *)
Lemma entry_va level b i : 0 <= i < 512 -> Z.lor (b * span (S level)) (Z.shiftl i (12 + 9 * Z.of_nat level)) = b * span (S level) + i * span level.
Proof.
  intros Hi. rewrite Z.lor_comm. pose proof (span_pos level). unfold span at 1. rewrite <- Z.shiftl_mul_pow2 by lia. rewrite lor_add.
  - rewrite Z.shiftl_mul_pow2 by lia. fold (span level). fold (span (S level)). lia.
  - lia.
  - rewrite Z.shiftl_mul_pow2 by lia. fold (span level). fold (span (S level)). rewrite span_S. split; [apply Z.mul_nonneg_nonneg; lia|]. apply Z.mul_lt_mono_pos_r; lia.
Qed.

(** Tables end at level 0, and no table is at address 0. *)
Fixpoint ends (level : nat) (m : memory) (t : Z) : Prop :=
  forall i, 0 <= i < PAGE_ENTRIES -> is_valid (ent m t i) = true -> is_leaf (ent m t i) = false ->
    pte_addr (ent m t i) <> 0 /\ match level with O => False | S l => ends l m (pte_addr (ent m t i)) end.

Definition covers (a : Z) (r : row) : Prop := va_first r <= a <= va_last r.

(** The rows for an address, from the entry the walk of it ends at: one that says
    what the entry does, and none that says otherwise; entries of the frame at
    address 0 are left out. *)
Definition row_for (a : Z) (x : option (Z * nat)) (rows : list row) : Prop :=
  match x with
  | Some (e, _) =>
      if pte_addr e =? 0 then Forall (fun r => ~ covers a r) rows
      else Exists (covers a) rows /\ Forall (fun r => covers a r -> pa r = pte_addr e /\ flags r = pte_flags e) rows
  | None => Forall (fun r => ~ covers a r) rows
  end.

(** The rows of the first [n] entries of a table at [level], the first at [base]. *)
Definition lists (level : nat) (m : memory) (t base n : Z) (rows : list row) : Prop :=
  Forall (fun r => base <= va_first r /\ va_last r < base + n * span level) rows /\
  forall w, 0 <= w < n * span level -> row_for (base + w) (leaf m t (idxs level w)) rows.

(** Rows of other addresses do not matter. *)
Lemma row_for_app_l a x l k : Forall (fun r => ~ covers a r) k -> row_for a x l -> row_for a x (l ++ k).
Proof.
  intros Hk. unfold row_for. assert (Hi : forall e, Forall (fun r => covers a r -> pa r = pte_addr e /\ flags r = pte_flags e) k).
  { intros e. eapply Forall_impl; [exact Hk|]. done. }
  destruct x as [[e n]|]; [|by rewrite Forall_app]. destruct (_ =? 0); [by rewrite Forall_app|]. rewrite Exists_app, Forall_app. intros [H1 H2]. split; [by left|done].
Qed.

Lemma row_for_app_r a x l k : Forall (fun r => ~ covers a r) l -> row_for a x k -> row_for a x (l ++ k).
Proof.
  intros Hk. unfold row_for. assert (Hi : forall e, Forall (fun r => covers a r -> pa r = pte_addr e /\ flags r = pte_flags e) l).
  { intros e. eapply Forall_impl; [exact Hk|]. done. }
  destruct x as [[e n]|]; [|by rewrite Forall_app]. destruct (_ =? 0); [by rewrite Forall_app|]. rewrite Exists_app, Forall_app. intros [H1 H2]. split; [by right|done].
Qed.

(** One entry more. *)
Lemma lists_snoc level m t base n rows sub : 0 <= n -> lists level m t base n rows ->
  Forall (fun r => base + n * span level <= va_first r /\ va_last r < base + (n + 1) * span level) sub ->
  (forall w, 0 <= w < span level -> row_for (base + n * span level + w) (leaf m t (idxs level (n * span level + w))) sub) ->
  lists level m t base (n + 1) (rows ++ sub).
Proof.
  intros Hn [Hr1 Hr2] Hs1 Hs2. pose proof (span_pos level) as Hp. set (sp := span level) in *. assert (Hnn : 0 <= n * sp) by (apply Z.mul_nonneg_nonneg; lia). split.
  - rewrite Forall_app. split; eapply Forall_impl; [exact Hr1| |exact Hs1|]; cbn beta; intros r ?; lia.
  - intros w Hw. destruct (Z.lt_ge_cases w (n * sp)) as [H|H].
    + apply row_for_app_l; [|apply Hr2; lia]. eapply Forall_impl; [exact Hs1|]. unfold covers. cbn beta. intros r ?. lia.
    + apply row_for_app_r; [eapply Forall_impl; [exact Hr1|]; unfold covers; cbn beta; intros r ?; lia|].
      specialize (Hs2 (w - n * sp) ltac:(lia)). by replace (base + n * sp + (w - n * sp)) with (base + w) in Hs2 by lia; replace (n * sp + (w - n * sp)) with w in Hs2 by lia.
Qed.

Lemma idxs_entry level n w : 0 <= n -> 0 <= w < span level ->
  idxs level (n * span level + w) = n :: match level with O => [] | S l => idxs l w end.
Proof.
  intros Hn Hw. pose proof (span_pos level) as Hp. destruct level as [|l]; cbn [idxs].
  - f_equal. rewrite Z.div_add_l by lia. rewrite Z.div_small by lia. lia.
  - rewrite Z.div_add_l by lia. rewrite (Z.div_small w) by lia. rewrite (Z.add_comm (n * _) w), Z.mod_add by lia. rewrite Z.mod_small by lia. f_equal. lia.
Qed.

Lemma ofold_app {A B} (f : A -> B -> outcome A) l k a : ofold f (l ++ k) a = let! a := ofold f l a in ofold f k a.
Proof. revert a. induction l as [|x l IH]; intros a; [done|]. cbn [app ofold]. destruct (f a x); cbn [obind]; [apply IH|done|done]. Qed.

(** What is wanted of the walk of the tables below. *)
Definition walks (level : nat) (m : memory) (next : Z -> Z -> outcome (list row)) : Prop :=
  match level with
  | O => True
  | S l => forall t b, 0 <= b -> (b + 1) * span level <= 2 ^ 39 -> ends l m t -> exists rows, next t (b * span level) = Ret rows /\ lists l m t (b * span level) PAGE_ENTRIES rows
  end.

Lemma ends_inv level m t : ends level m t -> forall i, 0 <= i < PAGE_ENTRIES -> is_valid (ent m t i) = true -> is_leaf (ent m t i) = false ->
  pte_addr (ent m t i) <> 0 /\ match level with O => False | S l => ends l m (pte_addr (ent m t i)) end.
Proof. by destruct level. Qed.

Lemma walk_entry_ok level m t b next n : 0 <= b -> (b + 1) * span (S level) <= 2 ^ 39 -> ends level m t -> walks level m next -> 0 <= n < PAGE_ENTRIES ->
  let base := b * span (S level) in
  exists sub, walk_entry level next m t base n = Ret sub /\
    Forall (fun r => base + n * span level <= va_first r /\ va_last r < base + (n + 1) * span level) sub /\
    forall w, 0 <= w < span level -> row_for (base + n * span level + w) (leaf m t (idxs level (n * span level + w))) sub.
Proof.
  intros Hb Hbe He Hnext Hn. cbn zeta. pose proof (span_pos level) as Hp. pose proof (span_S level) as HS. unfold PAGE_ENTRIES in Hn. unfold walk_entry. cbn zeta.
  rewrite entry_va by lia. set (base := b * span (S level)) in *. set (e := ent m t n). assert (Hns : 0 <= n * span level /\ (n + 1) * span level <= span (S level)).
  { rewrite HS. split; [apply Z.mul_nonneg_nonneg; lia|]. apply Z.mul_le_mono_nonneg_r; lia. }
  assert (Hbase : 0 <= base) by (apply Z.mul_nonneg_nonneg; lia). assert (Hbase' : base + span (S level) <= 2 ^ 39) by (unfold base; lia).
  assert (Hleaf : forall w, 0 <= w < span level -> leaf m t (idxs level (n * span level + w)) =
    if negb (is_valid e) then None else if is_leaf e || Nat.eqb level 0 then Some (e, level) else leaf m (pte_addr e) (match level with O => [] | S l => idxs l w end)).
  { intros w Hw. rewrite idxs_entry by lia. cbn [leaf]. fold e. assert (Hlen : length (match level with O => [] | S l => idxs l w end) = level).
    { clear. destruct level as [|l]; [done|]. revert w. induction l as [|l IH]; intros w; [done|]. cbn [idxs length]. f_equal. apply IH. }
    by rewrite Hlen. }
  pose proof (ends_inv _ _ _ He n Hn) as He0. fold e in He0.
  destruct (pte_addr e =? 0) eqn:E0; cbn [orb].
  { exists []. split_and!; [done|apply Forall_nil_2|]. intros w Hw. rewrite Hleaf by done. destruct (is_valid e) eqn:Ev; [|apply Forall_nil_2]. cbn [negb].
    destruct (is_leaf e) eqn:El; [cbn [orb row_for]; rewrite E0; apply Forall_nil_2|]. destruct (He0 eq_refl eq_refl) as [H0 _]. lia. }
  destruct (is_valid e) eqn:Ev; cbn [negb]; [|exists []; split_and!; [done|apply Forall_nil_2|]; intros w Hw; rewrite Hleaf, ?Ev by done; apply Forall_nil_2].
  change (intersects (pte_flags e) RWX) with (is_leaf e). destruct (is_leaf e) eqn:El.
  - rewrite sign_extend_id by lia. assert (H39 : 2 ^ 39 < USIZE) by done. rewrite (Z.shiftl_mul_pow2 1) by lia. rewrite Z.mul_1_l. fold (span level).
    rewrite uadd_ok by lia. cbn [obind]. rewrite usub_ok by lia. cbn [obind]. eexists. split; [done|]. split.
    + apply Forall_singleton. cbn [va_first va_last]. lia.
    + intros w Hw. rewrite Hleaf, ?Ev, ?El by done. cbn [negb orb row_for]. rewrite E0. rewrite Exists_cons, Forall_singleton. unfold covers. cbn [va_first va_last pa flags]. split; [left; lia|done].
  - destruct (He0 eq_refl eq_refl) as [_ Hend]. destruct level as [|l]; [done|]. cbn [walks] in Hnext.
    assert (Hb' : base + n * span (S l) = (b * 512 + n) * span (S l)) by (unfold base; rewrite HS; lia).
    destruct (Hnext (pte_addr e) (b * 512 + n)) as (sub & Es & Hs1 & Hs2); [lia| |done|].
    { rewrite HS in Hbe. nia. }
    rewrite Hb'. exists sub. split; [done|]. unfold PAGE_ENTRIES in Hs1, Hs2. rewrite <- span_S in Hs1, Hs2. rewrite <- Hb' in *. split; [eapply Forall_impl; [exact Hs1|]; cbn beta; intros r ?; lia|].
    intros w Hw. rewrite Hleaf, ?Ev, ?El by done. cbn [negb orb Nat.eqb]. apply Hs2. done.
Qed.

(** The loop over the entries. *)
Lemma walk_loop level m t base f : (forall n, 0 <= n < PAGE_ENTRIES -> exists sub, f n = Ret sub /\
    Forall (fun r => base + n * span level <= va_first r /\ va_last r < base + (n + 1) * span level) sub /\
    forall w, 0 <= w < span level -> row_for (base + n * span level + w) (leaf m t (idxs level (n * span level + w))) sub) ->
  exists rows, ofold (fun rows i => let! sub := f i in Ret (rows ++ sub)) all_entries [] = Ret rows /\ lists level m t base PAGE_ENTRIES rows.
Proof.
  intros Hf. unfold all_entries, PAGE_ENTRIES in *. change 512 with (Z.of_nat 512).
  assert (H : forall n : nat, (n <= 512)%nat -> exists rows, ofold (fun rows i => let! sub := f i in Ret (rows ++ sub)) (seqZ 0 (Z.of_nat n)) [] = Ret rows /\ lists level m t base (Z.of_nat n) rows); [|by apply H].
  induction n as [|n IH]; intros Hn.
  { exists []. split; [done|]. split; [done|]. intros w Hw. lia. }
  destruct (IH ltac:(lia)) as (rows & E & Hl). destruct (Hf (Z.of_nat n) ltac:(lia)) as (sub & Es & Hs1 & Hs2).
  rewrite Nat2Z.inj_succ, <- Z.add_1_r, seqZ_app by lia. rewrite ofold_app, E. cbn [obind]. change (seqZ (0 + Z.of_nat n) 1) with [0 + (0 + Z.of_nat n)]. rewrite !Z.add_0_l. cbn [ofold].
  rewrite Es. cbn [obind]. eexists. split; [done|]. apply lists_snoc; [lia|done..].
Qed.

Lemma walk_table_ok level : forall m t b, 0 <= b -> (b + 1) * span (S level) <= 2 ^ 39 -> ends level m t ->
  exists rows, walk_table level m t (b * span (S level)) = Ret rows /\ lists level m t (b * span (S level)) PAGE_ENTRIES rows.
Proof.
  induction level as [|level IH]; intros m t b Hb Hbe He.
  - apply (walk_loop 0). intros n Hn. by apply walk_entry_ok.
  - apply (walk_loop (S level)). intros n Hn. apply walk_entry_ok; [done..| |done]. intros t' b' Hb' Hbe' He'. by apply IH.
Qed.

(** The listing of the whole address space is what the hardware walks: an address
    is in a row exactly when the walk of it ends at an entry with a frame, and
    every row it is in has that entry's frame and flags.  The addresses printed
    are the low 39 bits. *)
Theorem dump_vmmap_spec m root (He : ends 2 m root) : exists rows, dump_vmmap m root = Ret rows /\ forall v, row_for (v mod 2 ^ 39) (leaf m root (vpns v)) rows.
Proof.
  destruct (walk_table_ok 2 m root 0) as (rows & E & _ & H); [done|done|done|]. exists rows. split; [exact E|]. intros v. rewrite <- idxs_vpns. apply H. apply Z.mod_pos_bound. done.
Qed.

(** So an address of the upper half, where the kernel is, is never in a row. *)
Theorem dump_not_canonical m root rows v (He : ends 2 m root) (Hd : dump_vmmap m root = Ret rows) (Hv : 2 ^ 39 <= v) : Forall (fun r => ~ covers v r) rows.
Proof.
  destruct (walk_table_ok 2 m root 0) as (rows' & E & Hb & _); [done|done|done|]. unfold dump_vmmap in Hd. change 0 with (0 * span 3) in Hd. rewrite Hd in E. injection E as <-.
  eapply Forall_impl; [exact Hb|]. unfold covers. change (0 * span 3) with 0. change (PAGE_ENTRIES * span 2) with (2 ^ 39). cbn beta. intros r ?. lia.
Qed.

(** ** The last level *)
Lemma dump_pte_ok m root v x : x ∈ dump_pte m root v <-> exists i, 0 <= i < PAGE_ENTRIES /\
  let e := ent m (l1_page_table_from_phys m root v) i in pte_addr e <> 0 /\ x.1.2 = pte_addr e /\ x.2 = pte_flags e /\
  x.1.1 = Z.lor (Z.lor (Z.lor (Z.shiftl (vpn2 v) 30) (Z.shiftl (vpn1 v) 21)) (Z.shiftl i 12)) 0xffff_ff10_0000_0000.
Proof.
  unfold dump_pte. rewrite list_elem_of_omap. unfold all_entries. split.
  - intros (i & Hi & Hx). apply elem_of_seqZ in Hi. exists i. split; [unfold PAGE_ENTRIES in *; lia|]. cbn zeta. destruct (Z.eqb_spec (pte_addr (ent m (l1_page_table_from_phys m root v) i)) 0); [done|]. injection Hx as <-. done.
  - intros (i & Hi & Ha & H1 & H2 & H3). exists i. split; [apply elem_of_seqZ; lia|]. rewrite (proj2 (Z.eqb_neq _ _) Ha). cbn [negb]. destruct x as [[x1 x2] x3]. cbn in *. by subst.
Qed.

(** A gigabyte of the kernel's at the top. *)
Definition demo_top : memory := upd (fun _ => 0) (slot 0x8040_0000 511) (pte_set 0x8000_0000 (Z.lor READ WRITE)).

Lemma demo_top_ends : ends 2 demo_top 0x8040_0000.
Proof.
  intros i Hi. unfold ent, demo_top, upd. destruct (Z.eqb_spec (slot 0x8040_0000 i) (slot 0x8040_0000 511)); [|done].
  intros _ H. vm_compute in H. discriminate.
Qed.

Lemma dump_vmmap_spec_witness : exists rows, dump_vmmap demo_top 0x8040_0000 = Ret rows /\ rows = [mkRow 0x7f_c000_0000 0x7f_ffff_ffff 0x8000_0000 7 1048576] /\
  row_for (0xffff_ffff_c000_0000 mod 2 ^ 39) (leaf demo_top 0x8040_0000 (vpns 0xffff_ffff_c000_0000)) rows.
Proof.
  destruct (dump_vmmap_spec demo_top 0x8040_0000 demo_top_ends) as (rows & E & H). exists rows. split; [exact E|]. split; [|apply H]. vm_compute in E. by injection E as <-.
Defined.

Lemma dump_not_canonical_witness : Forall (fun r => ~ covers 0xffff_ffff_c000_0000 r) [mkRow 0x7f_c000_0000 0x7f_ffff_ffff 0x8000_0000 7 1048576].
Proof. apply (dump_not_canonical demo_top 0x8040_0000 _ _ demo_top_ends); [vm_compute; reflexivity|done]. Defined.

End Dump.

