(* ===== verification/UserMem.v ===== *)
(** * Bytes of physical memory and what mapping leaves alone

    The page tables of [PageMapper] live in a memory of 64-bit words; user data
    is the same memory seen by bytes.  This file gives the byte view, shows that
    writing bytes outside the tables changes no translation, and that the
    mapping operations write only to tables and to frames taken from the
    allocator ([touch]), so that user data survives them and fresh pages read
    as zero. *)

From S2P Require Import Prelude Bytes Memory PageAllocator PageMapper.

Module UMem.
Import Pte Mapper.

(** ** Bytes *)
Definition word_of (b : Z) : Z := 8 * (b / 8).

Definition bget (m : memory) (b : Z) : Z := (m (word_of b) / 256 ^ (b mod 8)) mod 256.

Definition bput (m : memory) (b x : Z) : memory :=
  upd m (word_of b) (m (word_of b) + (x - bget m b) * 256 ^ (b mod 8)).

(** [copy_nonoverlapping] to and from memory. *)
Fixpoint write_bytes (m : memory) (p : Z) (l : list Z) : memory :=
  match l with
  | [] => m
  | x :: l => write_bytes (bput m p x) (p + 1) l
  end.

Fixpoint read_bytes (m : memory) (p : Z) (n : nat) : list Z :=
  match n with
  | O => []
  | S n => bget m p :: read_bytes m (p + 1) n
  end.

(** The frame an address is in. *)
Definition page (b : Z) : Z := 4096 * (b / 4096).

Lemma byte_shift w x j k : 0 <= j < 8 -> 0 <= k < 8 -> 0 <= x < 256 ->
  ((w + (x - (w / 256 ^ k) mod 256) * 256 ^ k) / 256 ^ j) mod 256 = if j =? k then x else (w / 256 ^ j) mod 256.
Proof.
  intros Hj Hk Hx.
  assert (Hp : forall i, 0 <= i -> 0 < 256 ^ i) by (intros; by apply Z.pow_pos_nonneg).
  pose proof (Hp k ltac:(lia)) as Hpk. pose proof (Hp j ltac:(lia)) as Hpj.
  destruct (Z.eqb_spec j k) as [->|Hne].
  { rewrite Z.div_add by lia. rewrite Zplus_mod, (Zminus_mod x), Zmod_mod, <- Zminus_mod, <- Zplus_mod.
    replace (w / 256 ^ k + (x - w / 256 ^ k)) with x by lia. by apply Z.mod_small. }
  destruct (Z.lt_ge_cases j k).
  - replace (256 ^ k) with (256 ^ (k - j - 1) * 256 * 256 ^ j) at 2
      by (rewrite <- (Z.pow_1_r 256) at 2; rewrite <- !Z.pow_add_r by lia; f_equal; lia).
    rewrite !Z.mul_assoc, Z.div_add by lia.
    rewrite Z.mod_add by lia. done.
  - f_equal. replace (256 ^ j) with (256 ^ (k + 1) * 256 ^ (j - k - 1)) by (rewrite <- Z.pow_add_r by lia; f_equal; lia).
    rewrite <- !Z.div_div by (apply Z.pow_nonzero || apply Hp; lia). f_equal.
    rewrite Z.pow_add_r, Z.pow_1_r by lia. rewrite <- !Z.div_div by lia. rewrite Z.div_add by lia.
    set (q := w / 256 ^ k). lia.
Qed.

Lemma bget_bput m b x c : 0 <= x < 256 -> bget (bput m b x) c = if c =? b then x else bget m c.
Proof.
  intros Hx. unfold bput, bget at 1, upd, word_of.
  destruct (Z.eqb_spec (8 * (c / 8)) (8 * (b / 8))) as [E|E].
  - rewrite <- E. unfold bget, word_of. rewrite <- E. rewrite byte_shift by lia.
    destruct (Z.eqb_spec c b) as [->|Hne]; [by rewrite Z.eqb_refl|].
    rewrite (proj2 (Z.eqb_neq _ _)) by lia. done.
  - rewrite (proj2 (Z.eqb_neq c b)) by congruence. done.
Qed.

(** Bytes are bytes. *)
Lemma bget_ok m b : 0 <= bget m b < 256.
Proof. unfold bget. lia. Qed.

Lemma read_bytes_len m p n : length (read_bytes m p n) = n.
Proof. revert p. induction n as [|n IH]; intros p; cbn [read_bytes length]; [done|by rewrite IH]. Qed.

Lemma read_bytes_app m p a b : read_bytes m p (a + b) = read_bytes m p a ++ read_bytes m (p + Z.of_nat a) b.
Proof.
  revert p. induction a as [|a IH]; intros p; cbn [read_bytes Nat.add app]; [by rewrite Z.add_0_r|].
  rewrite IH. do 2 f_equal. f_equal. lia.
Qed.

(** ** Writes outside the tables *)
Definition is_table (m : memory) (root f : Z) : Prop := exists q, path_ok q /\ tpath m root q = Some f.

Lemma slot_page t i : frame_ok t -> idx_ok i -> page (slot t i) = t /\ word_of (slot t i) = slot t i.
Proof. unfold frame_ok, idx_ok, PAGE_ENTRIES, page, word_of, slot. lia. Qed.

(** Memories that agree on every table have the same tables and leaves. *)
Lemma same_tables m m' root free :
  wf m root free -> (forall b, is_table m root (page b) -> m' b = m b) ->
  (forall q, path_ok q -> tpath m' root q = tpath m root q) /\
  (forall v, leaf m' root (vpns v) = leaf m root (vpns v)).
Proof.
  intros Hwf Hag.
  assert (He : forall q u j, path_ok q -> tpath m root q = Some u -> idx_ok j -> ent m' u j = ent m u j).
  { intros q u j Hq Hu Hj. apply Hag. destruct (wf_frame _ _ _ Hwf q u Hq Hu) as [Hf _].
    rewrite (proj1 (slot_page u j Hf Hj)). by exists q. }
  split.
  - intros q Hq. apply tpath_frame; [done|]. intros r u j Hr Hu.
    apply (He r); [eapply prefix_path_ok; [|exact Hq]; by eapply prefix_app_l|done|].
    eapply prefix_snoc_idx; [exact Hr|apply Hq].
  - intros v. apply (leaf_frame m _ root _ []); [done|]. intros r u j _ Hr Hu. simpl in Hr.
    pose proof (vpn_ok v) as Hv. pose proof (prefix_length _ _ Hr) as Hl. rewrite length_app in Hl. simpl in Hl.
    apply (He r); [|done|by eapply prefix_snoc_idx]. split; [lia|].
    destruct Hr as [s E]. rewrite E in Hv. by apply Forall_app in Hv as [[? _]%Forall_app _].
Qed.

Lemma same_tables_v2p m m' root free :
  wf m root free -> (forall b, is_table m root (page b) -> m' b = m b) ->
  wf m' root free /\ (forall f, is_table m' root f <-> is_table m root f) /\
  forall v, virt_to_phys m' root v = virt_to_phys m root v.
Proof.
  intros Hwf Hag. destruct (same_tables m m' root free Hwf Hag) as [Ht Hl]. split_and!.
  - split.
    + intros p t Hp. rewrite Ht by done. by apply (wf_frame _ _ _ Hwf).
    + intros p q t Hp Hq. rewrite !Ht by done. by apply (wf_inj _ _ _ Hwf).
  - intros f. split; intros (q & Hq & E); exists q; (split; [done|]); [rewrite <- Ht|rewrite Ht]; done.
  - intros v. by rewrite !virt_to_phys_leaf, Hl.
Qed.

Lemma page_word b c : page (word_of b) = page b /\ (word_of c = word_of b -> page c = page b).
Proof. unfold page, word_of. lia. Qed.

(** A byte written outside the tables. *)
Lemma bput_apart m root free b x :
  wf m root free -> ~ is_table m root (page b) ->
  wf (bput m b x) root free /\ (forall f, is_table (bput m b x) root f <-> is_table m root f) /\
  forall v, virt_to_phys (bput m b x) root v = virt_to_phys m root v.
Proof.
  intros Hwf Hb. apply same_tables_v2p; [done|]. intros c Hc. unfold bput, upd.
  destruct (Z.eqb_spec c (word_of b)) as [->|]; [|done]. rewrite (proj1 (page_word b b)) in Hc. done.
Qed.

(** ** What mapping writes *)
Section touch.
Context {A : Type} `{FrameAllocator A}.

(** The frames a mapping operation may write: free ones and tables. *)
Definition owned (m : memory) (root : Z) (a : A) (f : Z) : Prop := f ∈ free_frames a \/ is_table m root f.

(** Tables stay where they are. *)
Definition grows (m : memory) (root : Z) (m' : memory) : Prop :=
  forall q u, path_ok q -> tpath m root q = Some u -> tpath m' root q = Some u.

Definition touch (m : memory) (root : Z) (a : A) (m' : memory) (a' : A) : Prop :=
  (forall b, ~ owned m root a (page b) -> m' b = m b) /\ (forall f, owned m' root a' f -> owned m root a f) /\ grows m root m'.

Lemma touch_refl m root a : touch m root a m a.
Proof. split_and!; [done|done|by intros q u _]. Qed.

Lemma touch_trans m root a m1 a1 m2 a2 : touch m root a m1 a1 -> touch m1 root a1 m2 a2 -> touch m root a m2 a2.
Proof.
  intros (H1 & K1 & G1) (H2 & K2 & G2). split_and!; [|auto|by intros q u Hq Hu; apply G2, G1].
  intros b Hb. rewrite H2; [auto|]. intros Hc. by apply Hb, K1.
Qed.

Lemma next_table_touch m a root p t i t' m' a' :
  mapper_ok m root a -> path_ok p -> (length p <= 1)%nat -> tpath m root p = Some t -> idx_ok i ->
  free_frames a <> [] -> next_table m a t i = Ret (t', m', a') -> touch m root a m' a'.
Proof.
  intros Hok Hp Hlp Ht Hi Hne. unfold next_table. destruct (is_valid (ent m t i)) eqn:Ev.
  { intros [= _ <- <-]. apply touch_refl. }
  destruct (alloc_frame m root a Hok Hne) as (f & a1 & Hrun & Hi' & Hf & Hfr & Hu & Hin & Hfr').
  unfold alloc_next_level. rewrite Hrun. cbn [obind expect]. intros [= <- <- <-].
  destruct (install_paths m root _ p t i f (mo_wf _ _ _ Hok) Hp Hlp Ht Hi Hf Hfr) as (_ & _ & Hcase).
  destruct (wf_frame _ _ _ (mo_wf _ _ _ Hok) p t Hp Ht) as [Hft Htf]. split_and!.
  - intros b Hb. unfold upd. destruct (Z.eqb_spec b (slot t i)) as [->|].
    { destruct Hb. rewrite (proj1 (slot_page t i Hft Hi)). right. by exists p. }
    unfold zero_page. destruct (_ && _) eqn:E; [|done]. destruct Hb. left.
    apply andb_prop in E as [E1%Z.leb_le E2%Z.ltb_lt]. replace (page b) with f; [done|]. unfold page, frame_ok in *. lia.
  - intros g [Hg|(q & Hq & Hg)]; [left; by apply Hin in Hg as [? _]|].
    destruct (Hcase q g Hq Hg) as [[-> ->]|[Hg' _]]; [by left|right; by exists q].
  - intros q u Hq Hqu. destruct (zero_free m root _ f (mo_wf _ _ _ Hok) Hf Hfr) as (Hwf0 & Hz0 & _).
    rewrite (tpath_upd_other (zero_page m f) root (free_frames a) p t); try done; [by rewrite Hz0|by rewrite Hz0|].
    intros [r ->]. rewrite tpath_app, tpath_snoc, Ht in Hqu. unfold child in Hqu. by rewrite Ev in Hqu.
Qed.

Lemma map_step_touch m a root virt phys flags m' a' :
  mapper_ok m root a -> leaf_at_most m root (vpns virt) 0 -> (2 <= length (free_frames a))%nat ->
  map_step m a root virt phys flags 0 = Ret (m', a') -> touch m root a m' a'.
Proof.
  intros Hok Hl Hfree. unfold map_step. cbn [Nat.eqb].
  pose proof (vpn_ok virt) as Hv. pose proof Hv as [H2 [H1 [H0 _]%Forall_cons]%Forall_cons]%Forall_cons.
  assert (Hp0 : path_ok []) by (split; [simpl; lia|done]).
  destruct (next_table_spec m a root [] root (vpn2 virt) [vpn1 virt; vpn0 virt] 0 Hok)
    as (t1 & m1 & a1 & E1 & Hok1 & Hu1 & Hp1 & Hl1); simpl; try done; try lia; [by eapply free_ne|].
  assert (T1 : touch m root a m1 a1) by (apply (next_table_touch m a root [] root (vpn2 virt) t1); try done; [simpl; lia|by eapply free_ne]).
  rewrite E1. cbn [obind]. simpl in Hp1.
  assert (Hpo : path_ok [vpn2 virt]) by (split; [simpl; lia|by constructor]).
  assert (Hne : free_frames a1 <> []) by (eapply (free_ne 0); destruct Hu1; lia).
  destruct (next_table_spec m1 a1 root [vpn2 virt] t1 (vpn1 virt) [vpn0 virt] 0 Hok1)
    as (t0 & m2 & a2 & E2 & Hok2 & Hu2 & Hp2 & Hl2); simpl; try done; try lia.
  { intros e k. change ([vpn2 virt; vpn1 virt; vpn0 virt]) with (vpns virt). rewrite Hl1 by done. apply Hl. }
  assert (T2 : touch m1 root a1 m2 a2) by (apply (next_table_touch m1 a1 root [vpn2 virt] t1 (vpn1 virt) t0); done || (simpl; lia)).
  rewrite E2. cbn [obind]. simpl in Hp2. intros [= <- <-].
  assert (Hpp : path_ok [vpn2 virt; vpn1 virt]) by (split; [simpl; lia|by rewrite !Forall_cons, Forall_nil]).
  apply (touch_trans _ _ _ _ _ _ _ (touch_trans _ _ _ _ _ _ _ T1 T2)).
  destruct (wf_frame _ _ _ (mo_wf _ _ _ Hok2) _ _ Hpp Hp2) as [Hft _].
  assert (Hq2 : forall q, path_ok q -> tpath (upd m2 (slot t0 (vpn0 virt)) (pte_set phys flags)) root q = tpath m2 root q).
  { intros q Hq. apply (tpath_upd_other m2 root (free_frames a2) [vpn2 virt; vpn1 virt]); try done; [apply (mo_wf _ _ _ Hok2)|].
    intros Hpre%prefix_length. destruct Hq as [Hq _]. simpl in Hpre. lia. }
  split_and!.
  - intros b Hb. unfold upd. destruct (Z.eqb_spec b (slot t0 (vpn0 virt))) as [->|]; [|done].
    destruct Hb. rewrite (proj1 (slot_page _ _ Hft H0)). right. by exists [vpn2 virt; vpn1 virt].
  - intros g [Hg|(q & Hq & Hg)]; [by left|right]. exists q. split; [done|]. by rewrite Hq2 in Hg.
  - intros q u Hq. by rewrite Hq2.
Qed.

(** One page of [map_range]. *)
Lemma map_one_touch m (a : A) root virt phys flags m' a' :
  mapper_ok m root a -> virt mod 4096 = 0 -> 0 <= virt -> virt + 4096 < USIZE ->
  phys mod 4096 = 0 -> 0 <= phys -> phys + 4096 < USIZE ->
  leaf_at_most m root (vpns virt) 0 -> (2 <= length (free_frames a))%nat ->
  map_range m a root virt phys (virt + 4096) flags Size4K = Ret (m', a') -> touch m root a m' a'.
Proof.
  intros Hok Hva Hv0 Hv1 Hpa Hp0 Hp1 Hsup Hfree. unfold map_range. change (psize Size4K) with 4096.
  assert (Hm : forall x, x mod 4096 = 0 -> (x mod 4096 =? 0) = true) by (intros x ->; done).
  rewrite !Hm by lia. cbn [oassert obind]. rewrite usub_ok by lia. cbn [obind].
  replace (virt + 4096 - virt) with 4096 by lia. change (Z.to_nat (4096 / 4096)) with 1%nat. cbn [map_loop].
  change (0 <? 4096) with true. cbn iota. rewrite !uadd_ok by lia. cbn [obind]. rewrite !Z.add_0_r. change (level Size4K) with 0%nat.
  intros Hrun. bind_inv Hrun. destruct r as [m1 a1]. cbn [obind] in K.
  change (psize Size4K) with 4096 in K. rewrite uadd_ok in K by (unfold USIZE; lia). cbn in K. injection K as <- <-.
  by eapply map_step_touch.
Qed.

Definition zeroed (m : memory) (f : Z) : Prop := forall b, page b = f -> m b = 0.

Lemma zero_page_zeroed m f : frame_ok f -> zeroed (zero_page m f) f.
Proof.
  intros Hf b Hb. unfold zero_page. rewrite (proj2 (Z.leb_le _ _)), (proj2 (Z.ltb_lt _ _)); [done|unfold page, frame_ok in *; lia..].
Qed.

(** A fresh page: what is outside the tables and the free frames stays as it
    is; the new frame is none of them afterwards, and holds zeros if asked. *)
Lemma map_new_page_touch m (a : A) root virt flags zero i m' a' :
  mapper_ok m root a -> virt mod 4096 = 0 -> 0 <= virt -> virt + Z.of_nat (S i) * 4096 < USIZE ->
  leaf_at_most m root (vpns (virt + Z.of_nat i * 4096)) 0 -> (3 <= length (free_frames a))%nat ->
  map_new_page root virt flags zero (m, a) i = Ret (m', a') ->
  exists f, touch m root a m' a' /\ f ∈ free_frames a /\ frame_ok f /\ ~ owned m' root a' f /\ mapper_ok m' root a' /\
    frames_used 3 a a' /\ (zero = true -> zeroed m' f) /\
    forall v, leaf m' root (vpns v) =
      if decide (vpns v = vpns (virt + Z.of_nat i * 4096)) then Some (pte_set f flags, 0%nat) else leaf m root (vpns v).
Proof.
  intros Hok Hva Hv0 Hv1 Hsup Hfree.
  destruct (alloc_frame m root a Hok) as (f & a1 & Hrun & Hi1 & Hf & Hfr & Hu1 & Hin1 & Hfr1); [by eapply free_ne|].
  unfold map_new_page. rewrite Hrun. cbn [obind expect]. unfold Mem.PAGE_SIZE.
  rewrite umul_ok by lia. cbn [obind]. rewrite uadd_ok by lia. cbn [obind]. rewrite uadd_ok by lia. cbn [obind].
  set (m1 := if zero then zero_page m f else m). intros Hmap.
  assert (Hag : forall b, page b <> f -> m1 b = m b).
  { intros b Hb. subst m1. destruct zero; [|done]. unfold zero_page. destruct (_ && _) eqn:E; [|done].
    apply andb_prop in E as [E1%Z.leb_le E2%Z.ltb_lt]. destruct Hb. unfold page, frame_ok in *. lia. }
  assert (Hnt : ~ is_table m root f).
  { intros (q & Hq & Ht). by destruct (wf_frame _ _ _ (mo_wf _ _ _ Hok) q f Hq Ht) as [_ []]. }
  destruct (same_tables m m1 root _ (mo_wf _ _ _ Hok)) as [Ht1 Hl1].
  { intros b Hb. apply Hag. by intros <-. }
  destruct (same_tables_v2p m m1 root _ (mo_wf _ _ _ Hok)) as (Hwf1 & Hit1 & _).
  { intros b Hb. apply Hag. by intros <-. }
  assert (Hok1 : mapper_ok m1 root a1).
  { split; [done| |done]. split; [|apply (wf_inj _ _ _ Hwf1)]. intros p t Hp Ht.
    destruct (wf_frame _ _ _ Hwf1 p t Hp Ht). split; [done|]. intros Hx. by apply Hin1 in Hx as [? _]. }
  assert (2 ^ 48 < USIZE - 4096) by done. pose proof Hfr as [Hfa Hfb].
  assert (Hsup1 : leaf_at_most m1 root (vpns (virt + Z.of_nat i * 4096)) 0) by (intros e k; rewrite Hl1; apply Hsup).
  assert (Hfree1 : (2 <= length (free_frames a1))%nat) by (destruct Hu1; lia).
  destruct (map_one m1 a1 root (virt + Z.of_nat i * 4096) f flags) as (m2 & a2 & Hrun2 & Hok2 & Hu2 & Hl2); try done; try lia.
  rewrite Hrun2 in Hmap. injection Hmap as -> ->.
  assert (T : touch m1 root a1 m' a') by (eapply map_one_touch; try exact Hrun2; try done; lia).
  assert (Hno1 : ~ owned m1 root a1 f) by (intros [Hx|Hx]; [by apply Hin1 in Hx as [_ ?]|by apply Hit1 in Hx]).
  assert (Hsub : forall g, owned m1 root a1 g -> owned m root a g).
  { intros g [Hg|Hg]; [left; by apply Hin1 in Hg as [? _]|right; by apply Hit1]. }
  exists f. destruct T as (T1 & T2 & T3). split_and!; try done.
  - split_and!; [|auto|by intros q u Hq Hu; apply T3; [|rewrite Ht1]]. intros b Hb. rewrite T1 by auto. apply Hag. intros <-. destruct Hb. by left.
  - intros Hx. by apply Hno1, T2.
  - by eapply (frames_used_trans 1 2).
  - intros -> b Hb. rewrite T1 by (by rewrite Hb). by apply zero_page_zeroed.
  - intros v. by rewrite Hl2, Hl1.
Qed.

(** What is known of the frames [fs] given to the first pages of a range. *)
Record given (zero : bool) (m0 : memory) (a0 : A) (m : memory) (root : Z) (a : A) (fs : list Z) : Prop := {
  gv_nodup : NoDup fs;
  gv_touch : touch m0 root a0 m a;
  gv_sub : forall f, f ∈ free_frames a -> f ∈ free_frames a0;
  gv_free : forall f, f ∈ fs -> f ∈ free_frames a0;
  gv_frame : forall f, f ∈ fs -> frame_ok f;
  gv_own : forall f, f ∈ fs -> ~ owned m root a f;
  gv_zero : zero = true -> forall f, f ∈ fs -> zeroed m f }.

Lemma given_page (zero : bool) m0 (a0 : A) m a fs root m' a' f :
  given zero m0 a0 m root a fs -> touch m root a m' a' -> (forall g, g ∈ free_frames a' -> g ∈ free_frames a) ->
  f ∈ free_frames a -> frame_ok f -> ~ owned m' root a' f ->
  (zero = true -> zeroed m' f) -> given zero m0 a0 m' root a' (fs ++ [f]).
Proof.
  intros [] T Hsub Hf Hfr Hno Hz.
  assert (Hnf : forall g, g ∈ fs -> g <> f) by (intros g Hg ->; apply (gv_own0 f Hg); by left).
  assert (Hcase : forall (P : Z -> Prop), (forall g, g ∈ fs -> P g) -> P f -> forall g, g ∈ fs ++ [f] -> P g).
  { intros P H1 H2 g [Hg|Hg]%elem_of_app; [auto|]. by apply list_elem_of_singleton in Hg as ->. }
  split.
  - apply NoDup_app. split_and!; [done| |apply NoDup_singleton]. intros x Hx ->%list_elem_of_singleton. by apply (Hnf f).
  - by eapply touch_trans.
  - auto.
  - apply Hcase; auto.
  - apply Hcase; auto.
  - apply Hcase; [|done]. intros g Hg Ho. apply (gv_own0 g Hg). by apply T.
  - intros Hzero. apply Hcase; [|auto]. intros g Hg b Hb. rewrite (proj1 T); [by apply (gv_zero0 Hzero g)|].
    rewrite Hb. by apply gv_own0.
Qed.

Lemma fresh_loop root virt flags zero m0 a0 : forall k m (a : A) fs,
  let j := length fs in
  virt mod 4096 = 0 -> 0 <= virt -> virt + Z.of_nat (j + k) * 4096 < USIZE ->
  Z.of_nat (j + k) <= 2 ^ 27 -> mapper_ok m root a -> (3 * k <= length (free_frames a))%nat ->
  (forall i, (i < j + k)%nat -> leaf_at_most m0 root (vpns (virt + Z.of_nat i * 4096)) 0) ->
  given zero m0 a0 m root a fs ->
  (forall v, leaf m root (vpns v) =
     match fs !! Z.to_nat (pidx virt v) with Some f => Some (pte_set f flags, 0%nat) | None => leaf m0 root (vpns v) end) ->
  exists m' a' fs', ofold (map_new_page root virt flags zero) (seq j k) (m, a) = Ret (m', a') /\
    mapper_ok m' root a' /\ length fs' = (j + k)%nat /\ given zero m0 a0 m' root a' fs' /\
    (length (free_frames a) <= length (free_frames a') + 3 * k)%nat /\
    (forall v, leaf m' root (vpns v) =
       match fs' !! Z.to_nat (pidx virt v) with Some f => Some (pte_set f flags, 0%nat) | None => leaf m0 root (vpns v) end).
Proof.
  induction k as [|k IH]; intros m a fs j Hva Hv0 Hv1 Hn Hok Hfree Hsup Hg Hinv.
  { exists m, a, fs. simpl. rewrite Nat.add_0_r. split_and!; try done. lia. }
  cbn [seq ofold]. set (vj := virt + Z.of_nat j * 4096).
  assert (Hpj : pidx virt vj = Z.of_nat j) by (apply vpns_pidx; [done|lia|done]).
  assert (Hs : leaf_at_most m root (vpns vj) 0).
  { intros e i. rewrite Hinv, Hpj, Nat2Z.id, lookup_ge_None_2 by (unfold j; lia). apply Hsup. lia. }
  destruct (map_new_page_spec m a root virt flags zero j Hok) as (_ & m1 & a1 & Hrun & _); try done; try lia.
  destruct (map_new_page_touch m a root virt flags zero j m1 a1 Hok)
    as (f & T & Hf & Hfr & Hno & Hok1 & [Hu1 Hs1] & Hz & Hl1); try done; try lia.
  pose proof (given_page zero m0 a0 m a fs root m1 a1 f Hg T Hs1 Hf Hfr Hno Hz) as Hg1.
  rewrite Hrun. cbn [obind]. assert (Hj : length (fs ++ [f]) = S j) by (rewrite length_app; simpl; unfold j; lia).
  destruct (IH m1 a1 (fs ++ [f])) as (m' & a' & fs' & Hrun' & Hok' & Hlen & Hg' & Hu' & Hl'); rewrite ?Hj; try done; try lia.
  { intros i Hi. apply Hsup. lia. }
  { intros v. rewrite Hl1, Hinv. assert (0 <= pidx virt v) by (unfold pidx; lia). fold vj.
    destruct (decide (vpns v = vpns vj)) as [E|E]; subst vj; rewrite vpns_pidx in E by (done || lia).
    - rewrite E, Nat2Z.id. unfold j. by rewrite list_lookup_middle.
    - destruct (decide (pidx virt v < Z.of_nat j)).
      + rewrite lookup_app_l by (unfold j in *; lia). done.
      + rewrite !lookup_ge_None_2; [done|..]; rewrite ?length_app; simpl; unfold j in *; lia. }
  rewrite Hj in Hrun', Hlen. exists m', a', fs'. split_and!; try done; lia.
Qed.

(** [allocate_and_map_pages_impl]: every page of the range gets a frame of its
    own that was free, is neither free nor a table afterwards, and holds zeros
    if asked; every other translation and every byte outside the tables and
    the free frames is as before. *)
Lemma fresh_pages m (a : A) root virt n flags zero :
  mapper_ok m root a -> flags_ok flags ->
  virt mod 4096 = 0 /\ 0 <= virt /\ virt + Z.of_nat n * 4096 < USIZE ->
  Z.of_nat n <= 2 ^ 27 -> (3 * n <= length (free_frames a))%nat ->
  (forall i, (i < n)%nat -> leaf_at_most m root (vpns (virt + Z.of_nat i * 4096)) 0) ->
  exists m' a' fs,
    allocate_and_map_pages_impl m a root virt (Z.of_nat n * 4096) flags zero = Ret (m', a') /\
    mapper_ok m' root a' /\ length fs = n /\ given zero m a m' root a' fs /\
    (length (free_frames a) <= length (free_frames a') + 3 * n)%nat /\
    (forall v, leaf m' root (vpns v) =
      match fs !! Z.to_nat (pidx virt v) with Some f => Some (pte_set f flags, 0%nat) | None => leaf m root (vpns v) end) /\
    forall v, virt_to_phys m' root v =
      match fs !! Z.to_nat (pidx virt v) with
      | Some f => Some (f + v mod 4096)
      | None => virt_to_phys m root v
      end.
Proof.
  intros Hok Hfl (Hva & Hv0 & Hv1) Hn Hfree Hsup.
  destruct (fresh_loop root virt flags zero m a n m a []) as (m' & a' & fs & Hrun & Hok' & Hlen & Hg & Hu & Hl); try done.
  { split; [apply NoDup_nil_2|apply touch_refl|done|..]; try (by intros ? ?%elem_of_nil). by intros _ ? ?%elem_of_nil. }
  exists m', a', fs. split_and!; try done.
  - unfold allocate_and_map_pages_impl, udiv, Mem.PAGE_SIZE. cbn [Z.eqb obind].
    rewrite Z.div_mul, Nat2Z.id by lia. exact Hrun.
  - intros v. rewrite !virt_to_phys_leaf, Hl. destruct (fs !! Z.to_nat (pidx virt v)) as [f|] eqn:E; [|done].
    apply list_elem_of_lookup_2 in E. pose proof (gv_frame _ _ _ _ _ _ _ Hg f E) as [Hfa Hfb]. cbn [leaf_mask].
    rewrite pte_addr_set by (done || by split). by rewrite page_join by lia.
Qed.
(** What mapping writes, when it may put a superpage over a table. *)
Definition within (m : memory) (root : Z) (a : A) (m' : memory) (a' : A) : Prop :=
  (forall b, ~ owned m root a (page b) -> m' b = m b) /\ forall f, owned m' root a' f -> owned m root a f.

Lemma touch_within m root a m' a' : touch m root a m' a' -> within m root a m' a'.
Proof. by intros (H1 & H2 & _). Qed.

Lemma within_refl m root a : within m root a m a.
Proof. apply touch_within, touch_refl. Qed.

Lemma within_trans m root a m1 a1 m2 a2 : within m root a m1 a1 -> within m1 root a1 m2 a2 -> within m root a m2 a2.
Proof. intros (H1 & K1) (H2 & K2). split; [|auto]. intros b Hb. rewrite H2; [auto|]. intros Hc. by apply Hb, K1. Qed.

Lemma write_leaf_within m (a : A) root p t i phys flags : mapper_ok m root a -> path_ok p -> tpath m root p = Some t -> idx_ok i ->
  intersects flags RWX = true -> within m root a (upd m (slot t i) (pte_set phys flags)) a.
Proof.
  intros Hok Hp Ht Hi Hrwx. pose proof (mo_wf _ _ _ Hok) as Hwf. destruct (wf_frame _ _ _ Hwf _ _ Hp Ht) as [Hft _]. set (m' := upd _ _ _).
  assert (Hold : forall q, path_ok q -> ~ p ++ [i] `prefix_of` q -> tpath m' root q = tpath m root q) by (intros; by apply (tpath_upd_other m root (free_frames a) p)).
  split.
  - intros b Hb. unfold m', upd. destruct (Z.eqb_spec b (slot t i)) as [->|]; [|done].
    destruct Hb. rewrite (proj1 (slot_page _ _ Hft Hi)). right. by exists p.
  - intros g [Hg|(q & Hq & Hg)]; [by left|right]. exists q. split; [done|]. rewrite Hold in Hg; [done|done|]. intros [r ->].
    rewrite <- app_assoc, tpath_app, Hold, Ht in Hg; [|done|intros Hpre%prefix_length; rewrite length_app in Hpre; cbn in Hpre; lia].
    cbn [app tpath] in Hg. unfold child in Hg. unfold m' in Hg. rewrite ent_upd, decide_True, pte_set_valid, pte_set_leaf, Hrwx in Hg by done. done.
Qed.

Lemma map_step_2m_within m a root virt phys flags m' a' :
  mapper_ok m root a -> leaf_at_most m root (vpns virt) 1 -> free_frames a <> [] -> intersects flags RWX = true ->
  map_step m a root virt phys flags 1 = Ret (m', a') -> within m root a m' a'.
Proof.
  intros Hok Hl Hne Hrwx. unfold map_step. cbn [Nat.eqb].
  pose proof (vpn_ok virt) as Hv. pose proof Hv as [H2 [H1 [H0 _]%Forall_cons]%Forall_cons]%Forall_cons.
  assert (Hp0 : path_ok []) by (split; [simpl; lia|done]).
  destruct (next_table_spec m a root [] root (vpn2 virt) [vpn1 virt; vpn0 virt] 1 Hok)
    as (t1 & m1 & a1 & E1 & Hok1 & Hu1 & Hp1 & Hl1); simpl; try done; try lia.
  assert (T1 : touch m root a m1 a1) by (apply (next_table_touch m a root [] root (vpn2 virt) t1); try done; simpl; lia).
  rewrite E1. cbn [obind]. simpl in Hp1. intros [= <- <-].
  apply (within_trans _ _ _ _ _ _ _ (touch_within _ _ _ _ _ T1)), (write_leaf_within m1 a1 root [vpn2 virt]); try done.
  split; [simpl; lia|by constructor].
Qed.

Lemma map_loop_4k_within root virt phys n flags m0 : forall k m (a : A) j m' a',
  (j + k = n)%nat -> virt mod 4096 = 0 -> 0 <= virt -> virt + Z.of_nat n * 4096 < USIZE ->
  0 <= phys -> phys + Z.of_nat n * 4096 < USIZE -> Z.of_nat n <= 2 ^ 27 ->
  mapper_ok m root a -> (2 * k <= length (free_frames a))%nat ->
  (forall i, (i < n)%nat -> leaf_at_most m0 root (vpns (virt + Z.of_nat i * 4096)) 0) ->
  (forall v, Z.of_nat j <= pidx virt v -> leaf m root (vpns v) = leaf m0 root (vpns v)) ->
  map_loop k m a root virt phys (Z.of_nat n * 4096) (Z.of_nat j * 4096) flags Size4K = Ret (m', a') -> within m root a m' a'.
Proof.
  induction k as [|k IH]; intros m a j m' a' Hjk Hva Hv0 Hv1 Hp0 Hp1 Hn Hok Hfree Hsup Hinv.
  - assert (j = n) as -> by lia. cbn [map_loop]. rewrite Z.ltb_irrefl. intros [= <- <-]. apply within_refl.
  - cbn [map_loop]. rewrite (proj2 (Z.ltb_lt _ _)) by lia. rewrite !uadd_ok by lia. cbn [obind].
    change (level Size4K) with 0%nat. set (virt_j := virt + Z.of_nat j * 4096). set (phys_j := phys + Z.of_nat j * 4096).
    assert (Hpj : pidx virt virt_j = Z.of_nat j) by (apply vpns_pidx; [done|lia|done]).
    assert (Hlj : leaf_at_most m root (vpns virt_j) 0) by (intros e i; rewrite Hinv by lia; apply Hsup; lia).
    destruct (map_step_4k m a root virt_j phys_j flags Hok Hlj ltac:(lia)) as (m1 & a1 & E1 & Hok1 & Hu1 & Hl1). rewrite E1.
    cbn [obind]. change (psize Size4K) with 4096. rewrite uadd_ok by lia. cbn [obind].
    replace (Z.of_nat j * 4096 + 4096) with (Z.of_nat (S j) * 4096) by lia. intros Hrun.
    apply (within_trans _ _ _ m1 a1); [apply touch_within; eapply map_step_touch; try exact E1; [done..|lia]|].
    apply (IH m1 a1 (S j)); try done; try lia; [destruct Hu1; lia|]. intros v Hpv. rewrite Hl1 by (apply vpn_ok || done).
    rewrite decide_False; [apply Hinv; lia|]. subst virt_j. rewrite vpns_pidx by (done || lia). lia.
Qed.

Lemma map_range_4k_within m (a : A) root virt phys n flags m' a' :
  mapper_ok m root a -> virt mod 4096 = 0 /\ 0 <= virt /\ virt + Z.of_nat n * 4096 < USIZE ->
  phys mod 4096 = 0 /\ 0 <= phys /\ phys + Z.of_nat n * 4096 <= 2 ^ 48 -> Z.of_nat n <= 2 ^ 27 -> (2 * n <= length (free_frames a))%nat ->
  (forall i, (i < n)%nat -> leaf_at_most m root (vpns (virt + Z.of_nat i * 4096)) 0) ->
  map_range m a root virt phys (virt + Z.of_nat n * 4096) flags Size4K = Ret (m', a') -> within m root a m' a'.
Proof.
  intros Hok (Hva & Hv0 & Hv1) (Hpa & Hp0 & Hp1) Hn Hfree Hsup. change 4096 with (psize Size4K) at 1. rewrite map_range_unfold by done.
  apply (map_loop_4k_within root virt phys n flags m n m a 0); try done. assert (2 ^ 48 < USIZE) by done. lia.
Qed.

Lemma map_loop_2m_within root virt phys n flags m0 : intersects flags RWX = true -> forall k m (a : A) j m' a',
  (j + k = n)%nat -> virt mod 2097152 = 0 -> 0 <= virt -> virt + Z.of_nat n * 2097152 < USIZE ->
  0 <= phys -> phys + Z.of_nat n * 2097152 < USIZE -> Z.of_nat n <= 2 ^ 18 ->
  mapper_ok m root a -> (k <= length (free_frames a))%nat ->
  (forall i, (i < n)%nat -> leaf_at_most m0 root (vpns (virt + Z.of_nat i * 2097152)) 1) ->
  (forall v, Z.of_nat j <= sidx virt v -> leaf m root (vpns v) = leaf m0 root (vpns v)) ->
  map_loop k m a root virt phys (Z.of_nat n * 2097152) (Z.of_nat j * 2097152) flags Size2M = Ret (m', a') -> within m root a m' a'.
Proof.
  intros Hrwx. induction k as [|k IH]; intros m a j m' a' Hjk Hva Hv0 Hv1 Hp0 Hp1 Hn Hok Hfree Hsup Hinv.
  - assert (j = n) as -> by lia. cbn [map_loop]. rewrite Z.ltb_irrefl. intros [= <- <-]. apply within_refl.
  - cbn [map_loop]. rewrite (proj2 (Z.ltb_lt _ _)) by lia. rewrite !uadd_ok by lia. cbn [obind].
    change (level Size2M) with 1%nat. set (virt_j := virt + Z.of_nat j * 2097152). set (phys_j := phys + Z.of_nat j * 2097152).
    assert (Hpj : sidx virt virt_j = Z.of_nat j) by (apply take_vpns_sidx; [done|lia|done]).
    assert (Hlj : leaf_at_most m root (vpns virt_j) 1) by (intros e i; rewrite Hinv by lia; apply Hsup; lia).
    assert (Hne : free_frames a <> []) by by eapply free_ne.
    destruct (map_step_2m m a root virt_j phys_j flags Hok Hlj Hne Hrwx) as (m1 & a1 & E1 & Hok1 & Hu1 & Hl1). rewrite E1.
    cbn [obind]. change (psize Size2M) with 2097152. rewrite uadd_ok by lia. cbn [obind].
    replace (Z.of_nat j * 2097152 + 2097152) with (Z.of_nat (S j) * 2097152) by lia. intros Hrun.
    apply (within_trans _ _ _ m1 a1); [by eapply map_step_2m_within; try exact E1|].
    apply (IH m1 a1 (S j)); try done; try lia; [destruct Hu1; lia|]. intros v Hpv. rewrite Hl1 by (apply vpn_ok || done).
    rewrite decide_False; [apply Hinv; lia|]. subst virt_j. rewrite take_vpns_sidx by (done || lia). lia.
Qed.

Lemma map_range_2m_within m (a : A) root virt phys n flags m' a' :
  mapper_ok m root a -> intersects flags RWX = true -> virt mod 2097152 = 0 /\ 0 <= virt /\ virt + Z.of_nat n * 2097152 < USIZE ->
  phys mod 2097152 = 0 /\ 0 <= phys /\ phys + Z.of_nat n * 2097152 <= 2 ^ 48 -> Z.of_nat n <= 2 ^ 18 -> (n <= length (free_frames a))%nat ->
  (forall i, (i < n)%nat -> leaf_at_most m root (vpns (virt + Z.of_nat i * 2097152)) 1) ->
  map_range m a root virt phys (virt + Z.of_nat n * 2097152) flags Size2M = Ret (m', a') -> within m root a m' a'.
Proof.
  intros Hok Hrwx (Hva & Hv0 & Hv1) (Hpa & Hp0 & Hp1) Hn Hfree Hsup. change 2097152 with (psize Size2M) at 1. rewrite map_range_unfold by done.
  apply (map_loop_2m_within root virt phys n flags m Hrwx n m a 0); try done. assert (2 ^ 48 < USIZE) by done. lia.
Qed.

Lemma new_pages_within m (a : A) root virt n flags zero m' a' :
  mapper_ok m root a -> virt mod 4096 = 0 /\ 0 <= virt /\ virt + Z.of_nat n * 4096 < USIZE ->
  Z.of_nat n <= 2 ^ 27 -> (3 * n <= length (free_frames a))%nat ->
  (forall i, (i < n)%nat -> leaf_at_most m root (vpns (virt + Z.of_nat i * 4096)) 0) ->
  allocate_and_map_pages_impl m a root virt (Z.of_nat n * 4096) flags zero = Ret (m', a') -> within m root a m' a'.
Proof.
  intros Hok (Hva & Hv0 & Hv1) Hn Hfree Hsup.
  destruct (fresh_loop root virt flags zero m a n m a []) as (m1 & a1 & fs & Hrun & Hok' & Hlen & Hg & Hu & Hl); try done.
  { split; [apply NoDup_nil_2|apply touch_refl|done|..]; try (by intros ? ?%elem_of_nil). by intros _ ? ?%elem_of_nil. }
  unfold allocate_and_map_pages_impl, udiv, Mem.PAGE_SIZE. cbn [Z.eqb obind]. rewrite Z.div_mul, Nat2Z.id by lia.
  cbn [length] in Hrun. rewrite Hrun. intros [= <- <-]. apply touch_within, (gv_touch _ _ _ _ _ _ _ Hg).
Qed.
End touch.

End UMem.
