(* ===== verification/Dtb.v ===== *)
(** * The flattened device tree (src/src/dtb.rs)

    [traverse_dtb] walks the structure block of a device-tree blob in memory
    and calls a closure per token; [collect_memory_map], [detect_cpu_type] and
    [parse_timebase_frequency] are closures over it.  Memory is the bytes of
    the blob at an address; reading outside them is [Fault].  The reference is
    the flattening of a tree of nodes as the devicetree specification lays it
    out, and the main theorem says that the traversal of a flattened tree makes
    exactly the calls of the tree, in order. *)

From S2P Require Import Prelude Memory Bytes.
Import Mem.

Module Fdt.

Definition FDT_MAGIC : Z := 0xd00d_feed.
Definition FDT_BEGIN_NODE : Z := 1.
Definition FDT_END_NODE : Z := 2.
Definition FDT_PROP : Z := 3.
Definition FDT_NOP : Z := 4.
Definition FDT_END : Z := 9.

Inductive DtbToken := BeginNode | EndNode | Prop_ | Nop | End_ | Unknown.

Record DtbContext := mkCtx { total_size : Z; struct_ptr : Z; strings_ptr : Z }.

Inductive CpuType := CpuUnknown | Qemu | LicheeRVNano.

(** The blob: its bytes and the address of the first. *)
Record blob := mkBlob { base : Z; contents : list Z }.

Definition get (b : blob) (p : Z) : outcome Z :=
  if p <? base b then Fault else deref (contents b !! Z.to_nat (p - base b)).

Fixpoint get_n (b : blob) (p : Z) (n : nat) : outcome (list Z) :=
  match n with
  | O => Ret []
  | S n => let! x := get b p in let! xs := get_n b (p + 1) n in Ret (x :: xs)
  end.

Definition read_be32 (b : blob) (p : Z) : outcome Z := let! l := get_n b p 4 in Ret (from_be l).
Definition read_be64 (b : blob) (p : Z) : outcome Z := let! l := get_n b p 8 in Ret (from_be l).

(** The bytes up to the terminating zero.  A string cannot be longer than the
    blob, so [length (contents b)] bounds the loop. *)
Fixpoint strz (fuel : nat) (b : blob) (p : Z) : outcome (list Z) :=
  match fuel with
  | O => Fault
  | S fuel =>
      let! x := get b p in
      if x =? 0 then Ret [] else let! xs := strz fuel b (p + 1) in Ret (x :: xs)
  end.

Definition cstr (b : blob) (p : Z) : outcome (list Z) := strz (S (length (contents b))) b p.

Definition read_strz (b : blob) (p : Z) : outcome (list Z * Z) :=
  let! s := cstr b p in
  let end_ := p + Z.of_nat (length s) in
  let! a := uadd (end_ + 1) 3 in
  Ret (s, andn a 3).

Definition parse_dtb (b : blob) (dtb : Z) : outcome DtbContext :=
  let! magic := read_be32 b dtb in
  let! _ := oassert (magic =? FDT_MAGIC) in
  let! total_size := read_be32 b (dtb + 4) in
  let! so := read_be32 b (dtb + 8) in
  let! st := read_be32 b (dtb + 12) in
  Ret (mkCtx total_size (dtb + so) (dtb + st)).

(** The arguments of the closure: token, depth, node name, and property name,
    data pointer and length. *)
Record event := mkEvent {
  token : DtbToken;
  depth : Z;
  node_name : option (list Z);
  prop : option (list Z * Z * Z);
}.

Section Traverse.
Context {S : Type} (b : blob) (f : S -> event -> outcome S).

(** Each iteration advances [p] by at least four bytes of the blob. *)
Fixpoint traverse_loop (fuel : nat) (ctx : DtbContext) (p d : Z) (s : S) : outcome S :=
  match fuel with
  | O => Fault
  | Datatypes.S fuel =>
      let! token_val := read_be32 b p in
      let p := p + 4 in
      if token_val =? FDT_BEGIN_NODE then
        let! ' (name, next) := read_strz b p in
        let! s := f s (mkEvent BeginNode d (Some name) None) in
        let! d := uadd d 1 in
        traverse_loop fuel ctx next d s
      else if token_val =? FDT_END_NODE then
        let d := Z.max 0 (d - 1) in
        let! s := f s (mkEvent EndNode d None None) in
        traverse_loop fuel ctx p d s
      else if token_val =? FDT_PROP then
        let! len := read_be32 b p in
        let! nameoff := read_be32 b (p + 4) in
        let data := p + 8 in
        let! l3 := uadd len 3 in
        let! name := cstr b (strings_ptr ctx + nameoff) in
        let! s := f s (mkEvent Prop_ d (Some []) (Some (name, data, len))) in
        traverse_loop fuel ctx (data + andn l3 3) d s
      else if token_val =? FDT_NOP then
        let! s := f s (mkEvent Nop d None None) in
        traverse_loop fuel ctx p d s
      else if token_val =? FDT_END then f s (mkEvent End_ d None None)
      else
        let! s := f s (mkEvent Unknown d None None) in
        traverse_loop fuel ctx p d s
  end.

Definition traverse_dtb (ctx : DtbContext) (s : S) : outcome S :=
  traverse_loop (length (contents b)) ctx (struct_ptr ctx) 0 s.

End Traverse.

(** ** The closures *)

(** What [collect_memory_map] captures, with the two initrd statics. *)
Record mm := mkMM {
  memory : option Region;
  reserved : list Region;
  memory_active : bool;
  reserved_active : bool;
  chosen_active : bool;
  initrd_start : option Z;
  initrd_end : option Z;
  INITRD_START : Z;
  INITRD_END : Z;
}.

Section Collect.
Context `{HeaplessVec} (N : nat) (b : blob).

(** [align_up] on the end of a region, as memory.rs has it. *)
Definition push_reserved (s : mm) (lo hi : Z) : mm :=
  mkMM (memory s) (vec_push N (reserved s) (mkRegion lo hi)) (memory_active s) (reserved_active s)
    (chosen_active s) (initrd_start s) (initrd_end s) (INITRD_START s) (INITRD_END s).

Definition on_chosen (s : mm) (prop_name : list Z) (data : Z) : outcome mm :=
  let! ' (is_, ie) :=
    (if bytes_eqb prop_name (lit "linux,initrd-start") then
       let! v := read_be64 b data in Ret (Some v, initrd_end s)
     else if bytes_eqb prop_name (lit "linux,initrd-end") then
       let! v := read_be64 b data in Ret (initrd_start s, Some v)
     else Ret (initrd_start s, initrd_end s)) in
  match is_, ie with
  | Some start, Some end_ =>
      let aligned_start := align_down start in
      let! aligned_end := align_up end_ in
      let s := push_reserved s aligned_start aligned_end in
      Ret (mkMM (memory s) (reserved s) (memory_active s) (reserved_active s) (chosen_active s)
             None None start end_)
  | _, _ =>
      Ret (mkMM (memory s) (reserved s) (memory_active s) (reserved_active s) (chosen_active s)
             is_ ie (INITRD_START s) (INITRD_END s))
  end.

Definition on_prop (s : mm) (d : Z) (prop_name : list Z) (data len : Z) : outcome mm :=
  if memory_active s && bytes_eqb prop_name (lit "reg") && (16 <=? len) then
    let! start := read_be64 b data in
    let! size := read_be64 b (data + 8) in
    let! e := uadd start size in
    Ret (mkMM (Some (mkRegion start e)) (reserved s) (memory_active s) (reserved_active s)
           (chosen_active s) (initrd_start s) (initrd_end s) (INITRD_START s) (INITRD_END s))
  else if reserved_active s &&
          (bytes_eqb prop_name (lit "reg") || bytes_eqb prop_name (lit "alloc-ranges")) && (16 <=? len) then
    let! start := read_be64 b data in
    let! size := read_be64 b (data + 8) in
    let aligned_start := align_down start in
    let! e := uadd start size in
    let! aligned_end := align_up e in
    let! _ := oassert (aligned_start <=? aligned_end) in
    Ret (push_reserved s aligned_start aligned_end)
  else if chosen_active s then on_chosen s prop_name data
  else if (d =? 1) && bytes_eqb prop_name (lit "#address-cells") then
    let! c := read_be32 b data in
    let! _ := oassert (c =? 2) in Ret s
  else if (d =? 1) && bytes_eqb prop_name (lit "#size-cells") then
    let! c := read_be32 b data in
    let! _ := oassert (c =? 2) in Ret s
  else Ret s.

Definition memory_map_step (s : mm) (e : event) : outcome mm :=
  let upd ma ra ca := mkMM (memory s) (reserved s) ma ra ca (initrd_start s) (initrd_end s)
                        (INITRD_START s) (INITRD_END s) in
  match token e with
  | BeginNode =>
      if depth e =? 1 then
        match node_name e with
        | Some name =>
            if bytes_eqb name (lit "reserved-memory") then Ret (upd (memory_active s) true (chosen_active s))
            else if bytes_eqb name (lit "chosen") then Ret (upd (memory_active s) (reserved_active s) true)
            else if starts_with name (lit "memory@") then Ret (upd true (reserved_active s) (chosen_active s))
            else Ret s
        | None => Ret s
        end
      else Ret s
  | EndNode => if depth e =? 1 then Ret (upd false false (chosen_active s)) else Ret s
  | Prop_ => match prop e with
             | Some (prop_name, data, len) => on_prop s (depth e) prop_name data len
             | None => Ret s
             end
  | _ => Ret s
  end.

(** The region found, the reserved regions pushed after those already in
    [res], and the initrd statics (with their values before). *)
Definition collect_memory_map (dtb : Z) (res : list Region) (i0 i1 : Z)
  : outcome (option Region * list Region * Z * Z) :=
  let! ctx := parse_dtb b dtb in
  let! s := traverse_dtb b memory_map_step ctx (mkMM None res false false false None None i0 i1) in
  Ret (memory s, reserved s, INITRD_START s, INITRD_END s).

End Collect.

(** [CPU_TYPE] holds 0, 1 or 2. *)
Definition get_cpu_type (cpu_type : Z) : CpuType :=
  if cpu_type =? 1 then Qemu else if cpu_type =? 2 then LicheeRVNano else CpuUnknown.

Definition cpu_step (b : blob) (s : bool * Z) (e : event) : outcome (bool * Z) :=
  let '(found, cpu) := s in
  if found : bool then Ret s else
  match token e, prop e with
  | Prop_, Some (name, data, len) =>
      if (depth e =? 1) && bytes_eqb name (lit "compatible") then
        let! sl := get_n b data (Z.to_nat len) in
        if utf8_valid sl && contains sl (lit "cv181x") then Ret (true, 2) else Ret s
      else Ret s
  | _, _ => Ret s
  end.

Definition detect_cpu_type (b : blob) (dtb cpu_type : Z) : outcome Z :=
  match get_cpu_type cpu_type with
  | CpuUnknown =>
      let! ctx := parse_dtb b dtb in
      let! ' (found, cpu) := traverse_dtb b (cpu_step b) ctx (false, cpu_type) in
      Ret (if found : bool then cpu else 1)
  | _ => Ret cpu_type
  end.

Definition timebase_step (b : blob) (s : bool * Z) (e : event) : outcome (bool * Z) :=
  let '(cpus_active, freq) := s in
  match token e with
  | BeginNode =>
      if (depth e =? 1) && match node_name e with Some n => bytes_eqb n (lit "cpus") | None => false end
      then Ret (true, freq) else Ret s
  | EndNode => if depth e =? 1 then Ret (false, freq) else Ret s
  | Prop_ =>
      if cpus_active : bool then
        match prop e with
        | Some (name, data, len) =>
            if bytes_eqb name (lit "timebase-frequency") && (len =? 4) then
              let! v := read_be32 b data in Ret (cpus_active, v)
            else Ret s
        | None => Ret s
        end
      else Ret s
  | _ => Ret s
  end.

Definition parse_timebase_frequency (b : blob) (dtb freq : Z) : outcome Z :=
  if negb (freq =? 0) then Ret freq else
  let! ctx := parse_dtb b dtb in
  let! ' (_, freq) := traverse_dtb b (timebase_step b) ctx (false, freq) in
  Ret freq.

(** ** The reference: a flattened structure block *)

Inductive item :=
| IBegin (name : list Z)
| IEnd
| IProp (name data : list Z)
| INop.

Section Flatten.
Variable nameoff : list Z -> Z.

(** Padding to a multiple of four bytes. *)
Definition pad4 (l : list Z) : list Z := l ++ replicate (Z.to_nat ((- Z.of_nat (length l)) mod 4)) 0.

Definition flatten_item (i : item) : list Z :=
  match i with
  | IBegin name => to_be 4 FDT_BEGIN_NODE ++ pad4 (name ++ [0])
  | IEnd => to_be 4 FDT_END_NODE
  | IProp name data =>
      to_be 4 FDT_PROP ++ to_be 4 (Z.of_nat (length data)) ++ to_be 4 (nameoff name) ++ pad4 data
  | INop => to_be 4 FDT_NOP
  end.

Definition flatten (l : list item) : list Z := (l ≫= flatten_item) ++ to_be 4 FDT_END.

(** The calls of the closure for the items at address [p] and depth [d]. *)
Fixpoint calls (p d : Z) (l : list item) : list event :=
  match l with
  | [] => [mkEvent End_ d None None]
  | i :: l =>
      let p' := p + Z.of_nat (length (flatten_item i)) in
      match i with
      | IBegin name => mkEvent BeginNode d (Some name) None :: calls p' (d + 1) l
      | IEnd => mkEvent EndNode (Z.max 0 (d - 1)) None None :: calls p' (Z.max 0 (d - 1)) l
      | IProp name data =>
          mkEvent Prop_ d (Some []) (Some (name, p + 12, Z.of_nat (length data))) :: calls p' d l
      | INop => mkEvent Nop d None None :: calls p' d l
      end
  end.
End Flatten.

(** [l] is stored at [p]. *)
Definition at_ (b : blob) (p : Z) (l : list Z) : Prop :=
  exists l1 l3, contents b = l1 ++ l ++ l3 /\ p = base b + Z.of_nat (length l1).

Lemma at_app b p l k : at_ b p (l ++ k) -> at_ b p l /\ at_ b (p + Z.of_nat (length l)) k.
Proof.
  intros (l1 & l3 & Hc & ->). split.
  - exists l1, (k ++ l3). by rewrite Hc, <- !app_assoc.
  - exists (l1 ++ l), l3. split; [by rewrite Hc, <- !app_assoc|]. rewrite length_app. lia.
Qed.

Lemma get_at b p x l : at_ b p (x :: l) -> get b p = Ret x /\ at_ b (p + 1) l.
Proof.
  intros H. split; [|by apply (at_app b p [x] l) in H as [_ ?]].
  destruct H as (l1 & l3 & Hc & ->). unfold get. rewrite (proj2 (Z.ltb_ge _ _)) by lia.
  rewrite Hc. simpl. replace (Z.to_nat _) with (length l1) by lia. by rewrite list_lookup_middle.
Qed.

Lemma get_n_at b l : forall p, at_ b p l -> get_n b p (length l) = Ret l.
Proof.
  induction l as [|x l IH]; intros p Hp; [done|]. simpl. destruct (get_at b p x l Hp) as [-> Hp'].
  cbn [obind]. by rewrite IH.
Qed.

Lemma read_be32_at b p x : at_ b p (to_be 4 x) -> 0 <= x < U32 -> read_be32 b p = Ret x.
Proof.
  intros Hp Hx. unfold read_be32. apply get_n_at in Hp. rewrite to_be_len in Hp. rewrite Hp. cbn [obind].
  by rewrite from_to_be.
Qed.

Lemma strz_at b l : forall p fuel, at_ b p (l ++ [0]) -> Forall (fun x => x <> 0) l -> (length l < fuel)%nat ->
  strz fuel b p = Ret l.
Proof.
  induction l as [|x l IH]; intros p fuel Hp Hnz Hf; (destruct fuel as [|fuel]; [simpl in Hf; lia|]); cbn [strz];
    destruct (get_at _ _ _ _ Hp) as [-> Hp']; cbn [obind]; [done|].
  apply Forall_cons in Hnz as [Hx Hnz]. rewrite (proj2 (Z.eqb_neq x 0) Hx).
  by rewrite IH by (done || simpl in Hf; lia).
Qed.

Lemma cstr_at b p l : at_ b p (l ++ [0]) -> Forall (fun x => x <> 0) l -> cstr b p = Ret l.
Proof.
  intros Hp Hnz. eapply strz_at; [done|done|]. destruct Hp as (l1 & l3 & Hc & _).
  rewrite Hc, !length_app. simpl. lia.
Qed.

Lemma pad4_len l : Z.of_nat (length (pad4 l)) = align_up_to (Z.of_nat (length l)) 4.
Proof.
  unfold pad4. rewrite length_app, length_replicate. change 4 with (2 ^ 2) at 2. rewrite align_up_to_eq by lia.
  change (2 ^ 2) with 4. lia.
Qed.

Lemma andn3 x : andn (x + 3) 3 = align_up_to x 4.
Proof. unfold align_up_to. f_equal. lia. Qed.

Lemma au4 x : align_up_to x 4 = (x + 3) / 4 * 4.
Proof. change 4 with (2 ^ 2). rewrite align_up_to_eq by lia. change (2 ^ 2) with 4. f_equal. f_equal. lia. Qed.

(** Names are C strings and fields fit their words. *)
Definition item_ok (b : blob) (ctx : DtbContext) (nameoff : list Z -> Z) (i : item) : Prop :=
  match i with
  | IBegin name => Forall (fun x => x <> 0) name
  | IProp name data =>
      Forall (fun x => x <> 0) name /\ 0 <= nameoff name < U32 /\ Z.of_nat (length data) < U32 /\
      at_ b (strings_ptr ctx + nameoff name) (name ++ [0])
  | _ => True
  end.

Lemma read_strz_at b p l : at_ b p (pad4 (l ++ [0])) -> Forall (fun x => x <> 0) l -> p mod 4 = 0 ->
  0 <= p -> p + Z.of_nat (length (pad4 (l ++ [0]))) < USIZE ->
  read_strz b p = Ret (l, p + Z.of_nat (length (pad4 (l ++ [0])))).
Proof.
  intros Hp Hnz Hm H0 Hlim. rewrite pad4_len in *. unfold read_strz.
  apply at_app in Hp as [Hp _]. rewrite (cstr_at b p l) by done. cbn [obind].
  rewrite !au4 in *. rewrite length_app in *. simpl in *.
  assert (USIZE mod 4 = 0) by done.
  rewrite uadd_ok by lia. cbn [obind]. rewrite andn3, au4. do 2 f_equal. lia.
Qed.

Section Correct.
Context {S : Type} (b : blob) (f : S -> event -> outcome S) (ctx : DtbContext) (nameoff : list Z -> Z).

Lemma flatten_item_mod i p : p mod 4 = 0 -> (p + Z.of_nat (length (flatten_item nameoff i))) mod 4 = 0.
Proof.
  intros Hp. destruct i; cbn [flatten_item]; rewrite ?length_app, ?to_be_len, ?Nat2Z.inj_add, ?pad4_len, ?au4; lia.
Qed.

Lemma flatten_cons i l : flatten nameoff (i :: l) = flatten_item nameoff i ++ flatten nameoff l.
Proof. unfold flatten. by rewrite bind_cons, <- app_assoc. Qed.

Lemma traverse_loop_flatten l : forall fuel p d s,
  at_ b p (flatten nameoff l) -> Forall (item_ok b ctx nameoff) l -> p mod 4 = 0 -> 0 <= p -> 0 <= d ->
  p + Z.of_nat (length (flatten nameoff l)) < USIZE -> d + Z.of_nat (length l) < USIZE ->
  (length l < fuel)%nat ->
  traverse_loop b f fuel ctx p d s = ofold f (calls nameoff p d l) s.
Proof.
  induction l as [|i l IH]; intros fuel p d s Hat Hok Hm Hp Hd Hlim Hdl Hf;
    (destruct fuel as [|fuel]; [simpl in Hf; lia|]).
  - cbn [traverse_loop]. rewrite (read_be32_at b p FDT_END) by done. simpl. by destruct (f s _).
  - rewrite flatten_cons in Hat, Hlim. apply at_app in Hat as [Hi Hl]. rewrite length_app in Hlim.
    apply Forall_cons in Hok as [Hoki Hok]. pose proof (flatten_item_mod i p Hm) as Hm'.
    assert (Hnext : forall s d', 0 <= d' <= d + 1 ->
      traverse_loop b f fuel ctx (p + Z.of_nat (length (flatten_item nameoff i))) d' s =
      ofold f (calls nameoff (p + Z.of_nat (length (flatten_item nameoff i))) d' l) s).
    { intros s' d' Hd'. simpl in Hf, Hdl. apply IH; (done || lia). }
    cbn [traverse_loop calls]. destruct i as [name| |name data|]; cbn [flatten_item] in Hi.
    + apply at_app in Hi as [Ht Hi]. rewrite (read_be32_at b p FDT_BEGIN_NODE) by done.
      rewrite to_be_len in Hi. simpl in Hoki.
      assert (Hlen : Z.of_nat (length (flatten_item nameoff (IBegin name))) = 4 + Z.of_nat (length (pad4 (name ++ [0])))).
      { simpl. lia. }
      rewrite Hlen in *. cbn [obind]. change (FDT_BEGIN_NODE =? FDT_BEGIN_NODE) with true. cbn iota.
      change (Z.of_nat 4) with 4 in Hi.
      rewrite (read_strz_at b (p + 4) name) by (done || lia). cbn [obind ofold]. destruct (f s _) as [s'| |]; try done. cbn [obind].
      rewrite uadd_ok by (simpl in Hdl; lia). cbn [obind].
      replace (p + 4 + Z.of_nat (length (pad4 (name ++ [0])))) with (p + (4 + Z.of_nat (length (pad4 (name ++ [0]))))) by lia.
      apply Hnext. lia.
    + rewrite (read_be32_at b p FDT_END_NODE) by done. cbn [obind ofold].
      change (FDT_END_NODE =? FDT_BEGIN_NODE) with false. change (FDT_END_NODE =? FDT_END_NODE) with true. cbn iota.
      destruct (f s _) as [s'| |]; try done. cbn [obind]. apply Hnext. lia.
    + apply at_app in Hi as [Ht Hi]. rewrite (read_be32_at b p FDT_PROP) by done. rewrite to_be_len in Hi.
      apply at_app in Hi as [Hlen Hi]. rewrite to_be_len in Hi. apply at_app in Hi as [Hno Hi].
      destruct Hoki as (Hnz & Hnr & Hdr & Hstr). cbn [obind ofold].
      change (FDT_PROP =? FDT_BEGIN_NODE) with false. change (FDT_PROP =? FDT_END_NODE) with false.
      change (FDT_PROP =? FDT_PROP) with true. cbn iota.
      change (Z.of_nat 4) with 4 in *. rewrite (read_be32_at b _ _ Hlen) by lia. cbn [obind].
      rewrite (read_be32_at b _ _ Hno) by done. cbn [obind]. assert (U32 + 3 < USIZE) by done.
      rewrite uadd_ok by lia. cbn [obind]. rewrite (cstr_at b _ name Hstr Hnz). cbn [obind].
      replace (p + 4 + 8) with (p + 12) by lia. destruct (f s _) as [s'| |]; try done. cbn [obind].
      rewrite andn3, <- pad4_len.
      assert (Hlf : Z.of_nat (length (flatten_item nameoff (IProp name data))) = 12 + Z.of_nat (length (pad4 data))).
      { simpl. rewrite ?length_app, ?to_be_len. lia. }
      rewrite Hlf in *. replace (p + 12 + Z.of_nat (length (pad4 data))) with (p + (12 + Z.of_nat (length (pad4 data)))) by lia.
      apply Hnext. lia.
    + rewrite (read_be32_at b p FDT_NOP) by done. cbn [obind ofold].
      change (FDT_NOP =? FDT_BEGIN_NODE) with false. change (FDT_NOP =? FDT_END_NODE) with false.
      change (FDT_NOP =? FDT_PROP) with false. change (FDT_NOP =? FDT_NOP) with true. cbn iota.
      destruct (f s _) as [s'| |]; try done. cbn [obind]. apply Hnext. lia.
Qed.

Lemma traverse_flattened l s
  (Hat : at_ b (struct_ptr ctx) (flatten nameoff l)) (Hok : Forall (item_ok b ctx nameoff) l)
  (Hal : struct_ptr ctx mod 4 = 0) (Hb : 0 <= base b)
  (Hlim : base b + Z.of_nat (length (contents b)) < USIZE) :
  traverse_dtb b f ctx s = ofold f (calls nameoff (struct_ptr ctx) 0 l) s.
Proof.
  assert (Hlen : (length l < length (flatten nameoff l))%nat).
  { clear. induction l as [|i l IH]; [simpl; lia|]. rewrite flatten_cons, length_app.
    assert (1 <= length (flatten_item nameoff i))%nat; [|simpl; lia].
    destruct i; simpl; lia. }
  pose proof Hat as (l1 & l3 & Hc & Hp).
  assert (Hl : (length (contents b) = length l1 + (length (flatten nameoff l) + length l3))%nat)
    by (by rewrite Hc, !length_app).
  unfold traverse_dtb. apply traverse_loop_flatten; (done || lia).
Qed.

(** C34: on a flattened structure block, [traverse_dtb] terminates and makes
    exactly the calls of its items, in order, with the right depth, names, data
    pointers and lengths: for any closure, it is the fold of the closure over
    the calls. *)
Theorem traverse_dtb_flatten l s
  (Hat : at_ b (struct_ptr ctx) (flatten nameoff l)) (Hok : Forall (item_ok b ctx nameoff) l)
  (Hal : struct_ptr ctx mod 4 = 0) (Hb : 0 <= base b)
  (Hlim : base b + Z.of_nat (length (contents b)) < USIZE) :
  traverse_dtb b f ctx s = ofold f (calls nameoff (struct_ptr ctx) 0 l) s.
Proof. by apply traverse_flattened. Qed.

End Correct.

(** ** Invariants of the closures *)

(** What every call preserves holds at the end of a traversal. *)
Lemma traverse_inv {S} b (f : S -> event -> outcome S) (I : S -> Prop) ctx :
  (forall s e s', I s -> f s e = Ret s' -> I s') ->
  forall fuel p d s s', I s -> traverse_loop b f fuel ctx p d s = Ret s' -> I s'.
Proof.
  intros Hf. induction fuel as [|fuel IH]; intros p d s s' Hs Hrun; [done|]. cbn [traverse_loop] in Hrun.
  bind_inv Hrun. repeat case_match; try (by eapply Hf); repeat (bind_inv K; try (destruct r0 as [? ?]); try (bind_inv K0));
    simplify_eq/=; eauto.
Qed.

Lemma align_down_mod x : align_down x mod PAGE_SIZE = 0.
Proof. apply (align_down_to_spec x 12). lia. Qed.

Lemma align_up_mod x y : align_up x = Ret y -> y mod PAGE_SIZE = 0.
Proof.
  unfold align_up. intros Hrun. bind_inv Hrun. injection K as <-. apply uadd_Ret_inv in E as [-> _].
  change PAGE_SIZE with (2 ^ 12) at 2 3. rewrite andn_ones by lia. apply Z.mod_mul. done.
Qed.

Section Aligned.
Context `{HeaplessVec} (N : nat) (b : blob).

Lemma push_reserved_aligned s lo hi : Forall aligned (reserved s) -> lo mod PAGE_SIZE = 0 -> hi mod PAGE_SIZE = 0 ->
  Forall aligned (reserved (push_reserved N s lo hi)).
Proof. intros Hs Hlo Hhi. simpl. apply vec_push_Forall; [done|]. by split. Qed.

Lemma on_prop_aligned s d name data len s' : Forall aligned (reserved s) ->
  on_prop N b s d name data len = Ret s' -> Forall aligned (reserved s').
Proof.
  intros Hs Hrun. unfold on_prop in Hrun.
  destruct (_ && _ && _); [repeat (bind_inv Hrun; rename K into Hrun); by injection Hrun as <-|].
  destruct (_ && _ && _).
  { repeat (bind_inv Hrun; rename K into Hrun). injection Hrun as <-.
    apply push_reserved_aligned; [done|apply align_down_mod|by eapply align_up_mod]. }
  destruct (chosen_active s).
  { unfold on_chosen in Hrun. bind_inv Hrun. destruct r as [[start|] [end_|]]; try (by injection K as <-).
    bind_inv K. injection K0 as <-. apply (push_reserved_aligned s); [done|apply align_down_mod|by eapply align_up_mod]. }
  destruct (_ && _); [repeat (bind_inv Hrun; rename K into Hrun); by injection Hrun as <-|].
  destruct (_ && _); [repeat (bind_inv Hrun; rename K into Hrun); by injection Hrun as <-|].
  by injection Hrun as <-.
Qed.

Lemma memory_map_step_aligned s e s' : Forall aligned (reserved s) ->
  memory_map_step N b s e = Ret s' -> Forall aligned (reserved s').
Proof.
  intros Hs Hrun. unfold memory_map_step in Hrun.
  repeat case_match; simplify_eq/=; try done. by eapply on_prop_aligned.
Qed.

Lemma collect_memory_map_aligned dtb res i0 i1 mem res' j0 j1 : Forall aligned res ->
  collect_memory_map N b dtb res i0 i1 = Ret (mem, res', j0, j1) -> Forall aligned res'.
Proof.
  intros Hres Hrun. unfold collect_memory_map in Hrun. bind_inv Hrun. bind_inv K.
  injection K0 as <- <- <- <-. unfold traverse_dtb in E0.
  refine (traverse_inv b _ (fun s => Forall aligned (reserved s)) r _ _ _ _ _ _ _ E0); [|exact Hres].
  intros s e s'. apply memory_map_step_aligned.
Qed.

(** Where the statics of the initial archive are set, its pages are reserved,
    unless the vector is full. *)
Definition initrd_kept (i0 i1 : Z) (s : mm) : Prop :=
  INITRD_START s = i0 /\ INITRD_END s = i1 \/ (N <= length (reserved s))%nat \/
  exists e, align_up (INITRD_END s) = Ret e /\ mkRegion (align_down (INITRD_START s)) e ∈ reserved s.

Lemma vec_push_in (l : list Region) x : (N <= length (vec_push N l x))%nat \/ x ∈ vec_push N l x /\ forall y, y ∈ l -> y ∈ vec_push N l x.
Proof.
  destruct (decide (length l < N)%nat).
  - right. rewrite vec_push_room by done. split; [apply elem_of_app; right; by left|]. intros y Hy. apply elem_of_app. by left.
  - left. rewrite vec_push_full by lia. lia.
Qed.

Lemma vec_push_len (l : list Region) x : (length l <= length (vec_push N l x))%nat.
Proof.
  destruct (decide (length l < N)%nat); [rewrite vec_push_room by done; rewrite length_app; lia|rewrite vec_push_full by lia; lia].
Qed.

Lemma initrd_kept_push i0 i1 s lo hi : initrd_kept i0 i1 s -> initrd_kept i0 i1 (push_reserved N s lo hi).
Proof.
  intros [Hs|[Hs|(e & He & Hin)]]; [by left|right; left; cbn; pose proof (vec_push_len (reserved s) (mkRegion lo hi)); lia|].
  right. cbn. destruct (vec_push_in (reserved s) (mkRegion lo hi)) as [?|[_ Hy]]; [by left|right]. exists e. split; [done|]. by apply Hy.
Qed.

Lemma on_prop_initrd i0 i1 s d name data len s' : initrd_kept i0 i1 s -> on_prop N b s d name data len = Ret s' -> initrd_kept i0 i1 s'.
Proof.
  intros Hs Hrun. unfold on_prop in Hrun.
  destruct (_ && _ && _); [repeat (bind_inv Hrun; rename K into Hrun); by injection Hrun as <-|].
  destruct (_ && _ && _).
  { repeat (bind_inv Hrun; rename K into Hrun). injection Hrun as <-. by apply initrd_kept_push. }
  destruct (chosen_active s).
  { unfold on_chosen in Hrun. bind_inv Hrun. destruct r as [[start|] [end_|]]; try (by injection K as <-).
    bind_inv K. injection K0 as <-. right. cbn. destruct (vec_push_in (reserved s) (mkRegion (align_down start) r)) as [?|[Hx _]]; [by left|right]. by exists r. }
  destruct (_ && _); [repeat (bind_inv Hrun; rename K into Hrun); by injection Hrun as <-|].
  destruct (_ && _); [repeat (bind_inv Hrun; rename K into Hrun); by injection Hrun as <-|].
  by injection Hrun as <-.
Qed.

Lemma collect_initrd dtb res i0 i1 mem res' j0 j1 : collect_memory_map N b dtb res i0 i1 = Ret (mem, res', j0, j1) ->
  j0 = i0 /\ j1 = i1 \/ (N <= length res')%nat \/ exists e, align_up j1 = Ret e /\ mkRegion (align_down j0) e ∈ res'.
Proof.
  intros Hrun. unfold collect_memory_map in Hrun. bind_inv Hrun. bind_inv K.
  injection K0 as <- <- <- <-. unfold traverse_dtb in E0.
  refine (traverse_inv b _ (initrd_kept i0 i1) r _ _ _ _ _ _ _ E0); [|by left].
  intros s e s' Hs Hstep. unfold memory_map_step in Hstep. repeat case_match; simplify_eq/=; try done. by eapply on_prop_initrd.
Qed.
End Aligned.

(** ** Examples *)

(** The strings block is one name after another; [offsets] is where each
    starts. *)
Fixpoint offsets (names : list (list Z)) (o : Z) (n : list Z) : Z :=
  match names with
  | [] => 0
  | m :: names => if bytes_eqb m n then o else offsets names (o + Z.of_nat (length m) + 1) n
  end.

Definition demo_names : list (list Z) := [lit "reg"; lit "linux,initrd-start"; lit "linux,initrd-end"].
Definition demo_noff : list Z -> Z := offsets demo_names 0.

(** A blob: 16 bytes of header, the structure block, the strings. *)
Definition make_blob (a : Z) (names : list (list Z)) (l : list item) : blob :=
  let body := flatten (offsets names 0) l in
  let strings := 16 + Z.of_nat (length body) in
  let strs := names ≫= fun n => n ++ [0] in
  mkBlob a (to_be 4 FDT_MAGIC ++ to_be 4 (strings + Z.of_nat (length strs)) ++ to_be 4 16 ++ to_be 4 strings
            ++ body ++ strs).

Definition demo_items : list item :=
  [IBegin []; IBegin (lit "memory@80000000"); IProp (lit "reg") (to_be 8 0x8000_0000 ++ to_be 8 0x1000_0000); IEnd;
   IBegin (lit "chosen"); IEnd;
   IBegin (lit "backup"); IProp (lit "linux,initrd-start") (to_be 8 0x8400_0000);
   INop; IProp (lit "linux,initrd-end") (to_be 8 0x8410_0000); IEnd; IEnd].

Definition demo_blob : blob := make_blob 0x8200_0000 demo_names demo_items.
Definition demo_ctx : DtbContext :=
  match parse_dtb demo_blob 0x8200_0000 with Ret c => c | _ => mkCtx 0 0 0 end.

Definition log (s : list event) (e : event) : outcome (list event) := Ret (s ++ [e]).

Lemma demo_at p l : take (length l) (drop (Z.to_nat (p - base demo_blob)) (contents demo_blob)) = l ->
  base demo_blob <= p < base demo_blob + Z.of_nat (length (contents demo_blob)) -> at_ demo_blob p l.
Proof.
  intros Ht Hp. set (k := Z.to_nat (p - base demo_blob)) in *.
  exists (take k (contents demo_blob)), (drop (length l) (drop k (contents demo_blob))). split.
  - rewrite <- Ht at 1. by rewrite length_take_le, !take_drop || (rewrite app_assoc; rewrite <- (take_drop k (contents demo_blob)) at 1;
      rewrite <- app_assoc; f_equal; rewrite <- (take_drop (length l) (drop k (contents demo_blob))) at 1; done).
  - rewrite length_take. lia.
Qed.

Lemma traverse_dtb_flatten_witness :
  traverse_dtb demo_blob log demo_ctx [] = ofold log (calls demo_noff (struct_ptr demo_ctx) 0 demo_items) [].
Proof.
  apply (traverse_dtb_flatten demo_blob log demo_ctx demo_noff).
  - apply demo_at; by vm_compute.
  - repeat (apply Forall_cons_2; [solve [exact I | apply (bool_decide_unpack _); by vm_compute
      | split_and!; [apply (bool_decide_unpack _); by vm_compute|by vm_compute..|apply demo_at; by vm_compute]]|]).
    apply Forall_nil_2.
  - by vm_compute.
  - by vm_compute.
  - by vm_compute.
Defined.

(** The comment in [collect_memory_map] says the flags are reset when leaving
    any depth-1 node, but [chosen_active] is not: the initrd of this tree is
    taken from a node after [chosen]. *)
Lemma chosen_not_reset (HV : HeaplessVec) :
  exists res, collect_memory_map 16 demo_blob 0x8200_0000 [] 0 0 =
    Ret (Some (mkRegion 0x8000_0000 0x9000_0000), res, 0x8400_0000, 0x8410_0000).
Proof. eexists. vm_compute. reflexivity. Qed.

End Fdt.
