(* ===== verification/DtbPrint.v ===== *)
(** * Printing the device tree

    Models [print_dtb] and [get_timebase_frequency] of [src/src/dtb.rs]: the rows
    that are printed for the nodes and properties of a tree, each with its
    depth.  How a property is shown is guessed from its length and its last
    byte.  The theorem is over the traversal of [Dtb]. *)

From S2P Require Import Prelude Memory Bytes Dtb.

Module DtbPrint.
Import Fdt.

(** A node; a property as a word, as double words, as text or as bytes. *)
Inductive row :=
| Node (depth : Z) (name : list Z)
| Word (depth : Z) (name : list Z) (val : Z)
| Doubles (depth : Z) (name : list Z) (vals : list Z)
| Text (depth : Z) (name s : list Z)
| Bytes (depth : Z) (name bs : list Z).

(** The static [TIMEBASE_FREQ], 10 MHz where the tree did not say. *)
Definition get_timebase_frequency (freq : Z) : Z := if freq =? 0 then 10_000_000 else freq.

Section print.
Context (b : blob).

(** [n] double words from [p] on. *)
Fixpoint read_doubles (n : nat) (p : Z) : outcome (list Z) :=
  match n with
  | O => Ret []
  | S n => let! val := read_be64 b p in let! vals := read_doubles n (p + 8) in Ret (val :: vals)
  end.

Definition print_prop (d : Z) (name : list Z) (data len : Z) : outcome row :=
  if len =? 4 then let! val := read_be32 b data in Ret (Word d name val)
  else if len mod 8 =? 0 then let! vals := read_doubles (Z.to_nat (len / 8)) data in Ret (Doubles d name vals)
  else
    let! text := (if 0 <? len then let! x := get b (data + (len - 1)) in Ret (x =? 0) else Ret false) in
    if text then let! s := get_n b data (Z.to_nat (len - 1)) in Ret (Text d name s)
    else let! bs := get_n b data (Z.to_nat len) in Ret (Bytes d name bs).

Definition print_step (rows : list row) (e : event) : outcome (list row) :=
  match token e with
  | BeginNode => Ret (match node_name e with Some name => rows ++ [Node (depth e) name] | None => rows end)
  | Prop_ =>
      match prop e with
      | Some (name, data, len) => let! r := print_prop (depth e) name data len in Ret (rows ++ [r])
      | None => Ret rows
      end
  | _ => Ret rows
  end.

Definition print_dtb (dtb : Z) : outcome (list row) :=
  let! ctx := parse_dtb b dtb in
  traverse_dtb b print_step ctx [].

(** ** What is printed for a tree *)

Fixpoint doubles (n : nat) (data : list Z) : list Z :=
  match n with O => [] | S n => from_be (take 8 data) :: doubles n (drop 8 data) end.

Definition shown (d : Z) (name data : list Z) : row :=
  let len := length data in
  if (len =? 4)%nat then Word d name (from_be data)
  else if (len mod 8 =? 0)%nat then Doubles d name (doubles (len / 8) data)
  else if bool_decide (last data = Some 0) then Text d name (take (len - 1) data)
  else Bytes d name data.

Fixpoint tree_rows (d : Z) (l : list item) : list row :=
  match l with
  | [] => []
  | IBegin name :: l => Node d name :: tree_rows (d + 1) l
  | IEnd :: l => tree_rows (Z.max 0 (d - 1)) l
  | IProp name data :: l => shown d name data :: tree_rows d l
  | INop :: l => tree_rows d l
  end.

Lemma at_take n p l : at_ b p l -> at_ b p (take n l).
Proof. intros H. rewrite <- (take_drop n l) in H. by apply at_app in H as [H _]. Qed.

Lemma get_n_take p l n : at_ b p l -> (n <= length l)%nat -> get_n b p n = Ret (take n l).
Proof. intros H Hn. rewrite <- (get_n_at b (take n l) p) by by apply at_take. by rewrite length_take_le. Qed.

Lemma read_doubles_at n : forall p l, at_ b p l -> (8 * n <= length l)%nat -> read_doubles n p = Ret (doubles n l).
Proof.
  induction n as [|n IH]; intros p l H Hn; [done|]. cbn [read_doubles doubles]. unfold read_be64. rewrite (get_n_take p l 8) by (done || lia). cbn [obind].
  rewrite <- (take_drop 8 l) in H. apply at_app in H as [_ H]. rewrite length_take_le in H by lia. rewrite (IH (p + 8) (drop 8 l)); [done|done|rewrite length_drop; lia].
Qed.

Lemma print_prop_at d name p data : at_ b p data -> print_prop d name p (Z.of_nat (length data)) = Ret (shown d name data).
Proof.
  intros H. unfold print_prop, shown. destruct (Nat.eqb_spec (length data) 4) as [E|E].
  { rewrite E. cbn [Z.of_nat]. change (Z.of_nat 4 =? 4) with true. cbn iota. unfold read_be32. rewrite (get_n_take p data 4) by (done || lia). cbn [obind]. by rewrite take_ge by lia. }
  rewrite (proj2 (Z.eqb_neq _ _)) by lia. pose proof (Nat2Z.inj_mod (length data) 8) as Em. pose proof (Nat2Z.inj_div (length data) 8) as Ed.
  change (Z.of_nat 8) with 8 in *. destruct (Nat.eqb_spec (length data mod 8) 0) as [E8|E8].
  { rewrite (proj2 (Z.eqb_eq _ _)) by (rewrite <- Em, E8; done). rewrite <- Ed, Nat2Z.id. rewrite (read_doubles_at _ p data); [done|done|]. apply Nat.Div0.mul_div_le. }
  rewrite (proj2 (Z.eqb_neq _ _)) by (rewrite <- Em; lia). assert (Hpos : (0 < length data)%nat) by (destruct data; [done|cbn; lia]).
  rewrite (proj2 (Z.ltb_lt 0 _)) by lia. destruct (last data) as [x|] eqn:El; [|by apply last_None in El; subst].
  apply last_Some in El as [l ->]. rewrite length_app in *. cbn [length] in *.
  pose proof H as H'. apply at_app in H' as [_ Hx]. apply (get_at b _ x []) in Hx as [Hx _]. replace (p + (Z.of_nat (length l + 1) - 1)) with (p + Z.of_nat (length l)) by lia. rewrite Hx. cbn [obind].
  destruct (Z.eqb_spec x 0) as [->|Hne].
  - rewrite bool_decide_true by done. rewrite (get_n_take p (l ++ [0])) by (done || rewrite length_app; cbn; lia). cbn [obind]. do 2 f_equal. f_equal. lia.
  - rewrite bool_decide_false by congruence. rewrite (get_n_take p (l ++ [x])) by (done || rewrite length_app; cbn; lia). cbn [obind]. by rewrite take_ge by (rewrite length_app; cbn; lia).
Qed.

Lemma print_calls nameoff l : forall p d rows, at_ b p (flatten nameoff l) -> ofold print_step (calls nameoff p d l) rows = Ret (rows ++ tree_rows d l).
Proof.
  induction l as [|i l IH]; intros p d rows H; [cbn; by rewrite app_nil_r|]. rewrite flatten_cons in H. apply at_app in H as [Hi Hl].
  destruct i as [name| |name data|]; cbn [calls ofold tree_rows].
  - cbn [print_step token node_name depth obind]. rewrite IH by done. by rewrite <- app_assoc.
  - cbn [print_step token obind]. by apply IH.
  - unfold print_step at 1. cbn [token prop depth]. cbn [flatten_item] in Hi. apply at_app in Hi as [_ Hi]. rewrite to_be_len in Hi. apply at_app in Hi as [_ Hi]. rewrite to_be_len in Hi.
    apply at_app in Hi as [_ Hi]. rewrite to_be_len in Hi. unfold pad4 in Hi. apply at_app in Hi as [Hi _]. replace (p + Z.of_nat 4 + Z.of_nat 4 + Z.of_nat 4) with (p + 12) in Hi by lia.
    rewrite print_prop_at by done. cbn [obind]. rewrite IH by done. by rewrite <- app_assoc.
  - cbn [print_step token obind]. by apply IH.
Qed.

(** Printing a flattened tree ends and shows every node and every property once,
    in order and at its depth, with the bytes of the property. *)
Theorem print_dtb_spec dtb ctx nameoff l (Hctx : parse_dtb b dtb = Ret ctx)
    (Hat : at_ b (struct_ptr ctx) (flatten nameoff l)) (Hok : Forall (item_ok b ctx nameoff) l)
    (Hal : struct_ptr ctx mod 4 = 0) (Hb : 0 <= base b) (Hlim : base b + Z.of_nat (length (contents b)) < USIZE) :
  print_dtb dtb = Ret (tree_rows 0 l).
Proof.
  unfold print_dtb. rewrite Hctx. cbn [obind]. rewrite (traverse_flattened b print_step ctx nameoff l) by done. by rewrite (print_calls nameoff l).
Qed.
End print.

Lemma print_dtb_spec_witness : print_dtb demo_blob 0x8200_0000 = Ret (tree_rows 0 demo_items).
Proof.
  apply (print_dtb_spec demo_blob 0x8200_0000 demo_ctx demo_noff).
  - by vm_compute.
  - apply demo_at; by vm_compute.
  - repeat (apply Forall_cons_2; [solve [exact I | apply (bool_decide_unpack _); by vm_compute
      | split_and!; [apply (bool_decide_unpack _); by vm_compute|by vm_compute..|apply demo_at; by vm_compute]]|]).
    apply Forall_nil_2.
  - by vm_compute.
  - by vm_compute.
  - by vm_compute.
Defined.

End DtbPrint.
