(* ===== verification/Boot.v ===== *)
(** * Boot-time memory discovery (page_allocator::init in src/src/page_allocator.rs)

    [init] joins three components: the device tree gives RAM and its reserved
    regions, [compute_usable_regions] subtracts them, and the page allocator is
    filled with what is left. *)

From S2P Require Import Prelude Memory Bytes Dtb PageAllocator.
Import Mem.

Section Init.
Context `{HeaplessVec}.

Definition MAX_RESERVED_MEMORY : nat := 16.
Definition MAX_USABLE_MEMORY : nat := MAX_RESERVED_MEMORY + 1.

(** The RAM region, the allocator, and the two initrd statics. *)
Definition page_allocator_init (b : Fdt.blob) (dtb_ptr image_phys_end i0 i1 : Z)
  : outcome (Region * Pages.PageAllocator * Z * Z) :=
  let! dtb_context := Fdt.parse_dtb b dtb_ptr in
  let! ' (mem, reserved, j0, j1) := Fdt.collect_memory_map MAX_RESERVED_MEMORY b dtb_ptr [] i0 i1 in
  let! mem := expect mem in
  let! e := align_up image_phys_end in
  let reserved := vec_push MAX_RESERVED_MEMORY reserved (mkRegion (start mem) e) in
  let! d := uadd dtb_ptr (Fdt.total_size dtb_context) in
  let! e := align_up d in
  let reserved := vec_push MAX_RESERVED_MEMORY reserved (mkRegion (align_down dtb_ptr) e) in
  let! usable := compute_usable_regions MAX_RESERVED_MEMORY MAX_USABLE_MEMORY mem reserved [] in
  let! s := Pages.init Pages.new usable in
  Ret (mem, s, j0, j1).

(** From aligned RAM and aligned reserved regions to the free pages. *)
Lemma usable_to_pages mem reserved :
  (length reserved <= MAX_RESERVED_MEMORY)%nat -> Forall aligned reserved -> Pages.region_ok mem ->
  exists usable s bl, compute_usable_regions MAX_RESERVED_MEMORY MAX_USABLE_MEMORY mem reserved [] = Ret usable /\
    Pages.init Pages.new usable = Ret s /\ Pages.rep s bl /\
    forall x, x ∈ Pages.pages bl <-> x mod PAGE_SIZE = 0 /\ inside mem x /\ ~ covers reserved x.
Proof.
  intros Hlen Hal (Hm & Hpos & Hlim).
  destruct (usable_spec MAX_RESERVED_MEMORY MAX_USABLE_MEMORY mem reserved Hlen) as
    (usable & Hrun & Hsep & _ & Hcov & Hend); [unfold MAX_USABLE_MEMORY; lia|].
  assert (Hual : Forall aligned usable).
  { apply (usable_bounds (fun z => z mod PAGE_SIZE = 0) MAX_RESERVED_MEMORY MAX_USABLE_MEMORY mem reserved []);
      [done|done|constructor|done]. }
  assert (Hok : Forall Pages.region_ok usable).
  { apply Forall_forall. intros r Hr. eapply Forall_forall in Hual; [|exact Hr].
    pose proof (separated_ge _ _ _ Hsep Hr). specialize (Hend r Hr). split_and!; [done|lia|lia]. }
  unfold Pages.init.
  destruct (Pages.init_fold usable (Pages.mkPA None 0 0 ∅) [] (start mem)) as (s & bl & Hrun' & Hrep & Hpg);
    [split; try done; constructor|done|done|by intros ? ?%elem_of_nil|].
  exists usable, (Pages.mkPA (Pages.head s) (Pages.free_pages s) (Pages.free_pages s) (Pages.nodes s)), bl.
  split_and!; [done|simpl; by rewrite Hrun'|by destruct Hrep; split|].
  intros x. rewrite Hpg, Hcov. split; [intros [?%elem_of_nil|?]; [done|tauto]|tauto].
Qed.

(** when the device tree describes page-aligned RAM and at most 14 reserved
    regions, [page_allocator::init] succeeds and the free pages are exactly the
    pages of RAM outside the reserved regions, the kernel image and the device
    tree itself. *)
Theorem page_allocator_init_spec b dtb_ptr image_end i0 i1 ctx mem reserved j0 j1 img_e dtb_e
  (Hctx : Fdt.parse_dtb b dtb_ptr = Ret ctx)
  (Hmap : Fdt.collect_memory_map MAX_RESERVED_MEMORY b dtb_ptr [] i0 i1 = Ret (Some mem, reserved, j0, j1))
  (Himg : align_up image_end = Ret img_e)
  (Hdtb : (let! d := uadd dtb_ptr (Fdt.total_size ctx) in align_up d) = Ret dtb_e)
  (Hmem : Pages.region_ok mem) (Hfew : (length reserved <= 14)%nat) :
  exists s bl, page_allocator_init b dtb_ptr image_end i0 i1 = Ret (mem, s, j0, j1) /\ Pages.rep s bl /\
    forall x, x ∈ Pages.pages bl <-> x mod PAGE_SIZE = 0 /\ inside mem x /\ ~ covers reserved x /\
      ~ (start mem <= x < img_e) /\ ~ (align_down dtb_ptr <= x < dtb_e).
Proof.
  pose proof (Fdt.collect_memory_map_aligned _ _ _ _ _ _ _ _ _ _ (Forall_nil_2 _) Hmap) as Hal.
  set (r1 := mkRegion (start mem) img_e). set (r2 := mkRegion (align_down dtb_ptr) dtb_e).
  destruct (usable_to_pages mem ((reserved ++ [r1]) ++ [r2])) as (usable & s & bl & Hu & Hs & Hrep & Hpg); [| |done|].
  { rewrite !length_app. unfold MAX_RESERVED_MEMORY. simpl. lia. }
  { repeat apply Forall_app_2; [done|constructor; [|constructor]..].
    - split; simpl; [apply Hmem|by eapply Fdt.align_up_mod].
    - bind_inv Hdtb. split; simpl; [apply Fdt.align_down_mod|by eapply Fdt.align_up_mod]. }
  exists s, bl. split_and!; [|done|].
  - unfold page_allocator_init. rewrite Hctx. cbn [obind]. rewrite Hmap. cbn [obind expect]. rewrite Himg. cbn [obind].
    bind_inv Hdtb. rewrite E. cbn [obind]. rewrite K. cbn [obind].
    rewrite (vec_push_room _ _ reserved) by (unfold MAX_RESERVED_MEMORY; lia).
    rewrite vec_push_room by (rewrite length_app; unfold MAX_RESERVED_MEMORY; simpl; lia).
    fold r1 r2. rewrite Hu. cbn [obind]. by rewrite Hs.
  - intros x. rewrite Hpg, !covers_app. unfold covers at 2 3. setoid_rewrite list_elem_of_singleton.
    unfold inside. subst r1 r2. simpl. split.
    + intros (? & ? & Hn). split_and!; try done; try lia; intros ?; apply Hn; eauto.
    + intros (? & ? & ? & ? & ?). split_and!; try done; try lia. intros [[?|(? & -> & ?)]|(? & -> & ?)]; tauto.
Qed.

(** with 16 reserved regions in the device tree, the vector is full and the
    pushes of the kernel image and of the device tree are dropped silently: the
    pages that hold them are handed out as free. *)
Theorem page_allocator_init_drops b dtb_ptr image_end i0 i1 ctx mem reserved j0 j1 img_e dtb_e
  (Hctx : Fdt.parse_dtb b dtb_ptr = Ret ctx)
  (Hmap : Fdt.collect_memory_map MAX_RESERVED_MEMORY b dtb_ptr [] i0 i1 = Ret (Some mem, reserved, j0, j1))
  (Himg : align_up image_end = Ret img_e)
  (Hdtb : (let! d := uadd dtb_ptr (Fdt.total_size ctx) in align_up d) = Ret dtb_e)
  (Hmem : Pages.region_ok mem) (Hfull : length reserved = 16%nat) :
  exists s bl, page_allocator_init b dtb_ptr image_end i0 i1 = Ret (mem, s, j0, j1) /\ Pages.rep s bl /\
    forall x, x ∈ Pages.pages bl <-> x mod PAGE_SIZE = 0 /\ inside mem x /\ ~ covers reserved x.
Proof.
  pose proof (Fdt.collect_memory_map_aligned _ _ _ _ _ _ _ _ _ _ (Forall_nil_2 _) Hmap) as Hal.
  destruct (usable_to_pages mem reserved) as (usable & s & bl & Hu & Hs & Hrep & Hpg);
    [unfold MAX_RESERVED_MEMORY; lia|done|done|].
  exists s, bl. split_and!; [|done|done].
  unfold page_allocator_init. rewrite Hctx. cbn [obind]. rewrite Hmap. cbn [obind expect]. rewrite Himg. cbn [obind].
  bind_inv Hdtb. rewrite E. cbn [obind]. rewrite K. cbn [obind].
  rewrite !(vec_push_full _ _ reserved) by (unfold MAX_RESERVED_MEMORY; lia).
  rewrite Hu. cbn [obind]. by rewrite Hs.
Qed.

End Init.

(** ** Examples *)

#[local] Existing Instance list_heapless.

Lemma demo_collect : Fdt.collect_memory_map MAX_RESERVED_MEMORY Fdt.demo_blob 0x8200_0000 [] 0 0 =
  Ret (Some (mkRegion 0x8000_0000 0x9000_0000), [mkRegion 0x8400_0000 0x8410_0000], 0x8400_0000, 0x8410_0000).
Proof. vm_compute. reflexivity. Qed.

Lemma page_allocator_init_spec_witness :
  exists s bl, page_allocator_init Fdt.demo_blob 0x8200_0000 0x8030_0123 0 0
      = Ret (mkRegion 0x8000_0000 0x9000_0000, s, 0x8400_0000, 0x8410_0000) /\ Pages.rep s bl /\
    forall x, x ∈ Pages.pages bl <->
      x mod PAGE_SIZE = 0 /\ inside (mkRegion 0x8000_0000 0x9000_0000) x /\
      ~ covers [mkRegion 0x8400_0000 0x8410_0000] x /\
      ~ (0x8000_0000 <= x < 0x8030_1000) /\ ~ (align_down 0x8200_0000 <= x < 0x8200_1000).
Proof.
  eapply (page_allocator_init_spec Fdt.demo_blob 0x8200_0000 0x8030_0123 0 0 Fdt.demo_ctx
    (mkRegion 0x8000_0000 0x9000_0000) [mkRegion 0x8400_0000 0x8410_0000] 0x8400_0000 0x8410_0000 0x8030_1000 0x8200_1000).
  - by vm_compute.
  - apply demo_collect.
  - by vm_compute.
  - by vm_compute.
  - by vm_compute.
  - simpl. lia.
Defined.

(** Sixteen reserved regions. *)
Definition full_items : list Fdt.item :=
  [Fdt.IBegin []; Fdt.IBegin (lit "memory@80000000");
   Fdt.IProp (lit "reg") (to_be 8 0x8000_0000 ++ to_be 8 0x1000_0000); Fdt.IEnd; Fdt.IBegin (lit "reserved-memory")]
  ++ ((fun i => Fdt.IProp (lit "reg") (to_be 8 (0x8800_0000 + 0x10000 * Z.of_nat i) ++ to_be 8 4096)) <$> seq 0 16)
  ++ [Fdt.IEnd; Fdt.IEnd].
Definition full_blob : Fdt.blob := Fdt.make_blob 0x8200_0000 Fdt.demo_names full_items.
Definition full_ctx : Fdt.DtbContext :=
  match Fdt.parse_dtb full_blob 0x8200_0000 with Ret c => c | _ => Fdt.mkCtx 0 0 0 end.
Definition full_reserved : list Region :=
  (fun i => mkRegion (0x8800_0000 + 0x10000 * Z.of_nat i) (0x8800_1000 + 0x10000 * Z.of_nat i)) <$> seq 0 16.

Lemma page_allocator_init_drops_witness :
  exists s bl, page_allocator_init full_blob 0x8200_0000 0x8030_0123 0 0
      = Ret (mkRegion 0x8000_0000 0x9000_0000, s, 0, 0) /\ Pages.rep s bl /\
    forall x, x ∈ Pages.pages bl <->
      x mod PAGE_SIZE = 0 /\ inside (mkRegion 0x8000_0000 0x9000_0000) x /\ ~ covers full_reserved x.
Proof.
  eapply (page_allocator_init_drops full_blob 0x8200_0000 0x8030_0123 0 0 full_ctx
    (mkRegion 0x8000_0000 0x9000_0000) full_reserved 0 0 0x8030_1000 0x8200_1000).
  - by vm_compute.
  - by vm_compute.
  - by vm_compute.
  - by vm_compute.
  - by vm_compute.
  - by vm_compute.
Defined.
