(* ===== verification/KernelMap.v ===== *)
(** * The kernel's address space (src/src/kernel_memory_map.rs)

    The kernel page map, the boot-time mappings and [grow_kernel_heap].  The
    world is physical memory, the frame allocator and the statics of the
    module; linker symbols are parameters.  [grow_kernel_heap] discharges the
    [HeapGrower] interface of the kernel heap. *)

From S2P Require Import Prelude Memory Bytes Dtb PageAllocator PageMapper Allocator.
Import Mem Pte Mapper.

Module Kmap.

Definition HIGH_HALF_PHYS_START : Z := 0xffff_ffff_0000_0000.
Definition KERNEL_STACK_START : Z := HIGH_HALF_PHYS_START + 0xffe0_0000.
Definition KERNEL_STACK_STARTING_SIZE : Z := 0x10000.
Definition TRAMPOLINE_TRAP_FRAME : Z := HIGH_HALF_PHYS_START + 0xffe0_0000.
Definition TRAP_FRAME_SIZE : Z := 0x1000.
Definition KERNEL_HEAP_SIZE : Z := 4 * PAGE_SIZE.

(** Segment bounds from the linker script. *)
Record symbols := mkSymbols {
  _text_start : Z; _text_end : Z;
  _rodata_start : Z; _rodata_end : Z;
  _data_start : Z; _data_end : Z;
  _bss_start : Z; _bss_end : Z;
  _proc_tramp_start : Z; _proc_tramp_lma : Z; _proc_tramp_end : Z;
}.

Section Kernel.
Context {A : Type} `{FrameAllocator A}.

(** [KERNEL_PAGE_MAPPER] is [root]; [frame] is the trampoline trap frame's
    [kernel_satp] and [is_lichee_rvnano]. *)
Record world := mkWorld {
  mem : Mapper.memory;
  frames : A;
  root : Z;
  KERNEL_HEAP_END : Z;
  LAST_L1_PTE : Z;
  CPU_TYPE : Z;
  satp_csr : Z;
  trap_frame : Z * Z;
}.

Definition with_map (w : world) (ma : Mapper.memory * A) : world :=
  mkWorld ma.1 ma.2 (root w) (KERNEL_HEAP_END w) (LAST_L1_PTE w) (CPU_TYPE w) (satp_csr w) (trap_frame w).

(** [with_page_mapper] *)
Definition kmap_range (w : world) (virt phys end_ : Z) (flags : PageFlags) (ps : PageSize) : outcome world :=
  let! r := map_range (mem w) (frames w) (root w) virt phys end_ flags ps in Ret (with_map w r).

Definition kmap_new (w : world) (virt size : Z) (flags : PageFlags) : outcome world :=
  let! r := allocate_and_map_pages (mem w) (frames w) (root w) virt size flags in Ret (with_map w r).

Definition is_lichee (w : world) : bool :=
  match Fdt.get_cpu_type (CPU_TYPE w) with Fdt.LicheeRVNano => true | _ => false end.

Definition thead_mem_flags (w : world) : PageFlags := if is_lichee w then THEAD_MEMORY else empty_flags.

Definition or_flags (l : list PageFlags) : PageFlags := foldr Z.lor 0 l.
Definition RW_AD : PageFlags := or_flags [READ; WRITE; ACCESSED; DIRTY].

Definition init_page_mapper (w : world) : outcome world :=
  let! ' (r, m, a) := Mapper.new (mem w) (frames w) in
  Ret (mkWorld m a r (KERNEL_HEAP_END w) (LAST_L1_PTE w) (CPU_TYPE w) (satp_csr w) (trap_frame w)).

Definition identity_map_memory (w : world) (memory : Region) : outcome world :=
  kmap_range w (start memory) (start memory) (end_ memory)
    (or_flags [READ; WRITE; EXECUTE; ACCESSED; DIRTY]) Size2M.

Definition map_mmio (w : world) : outcome world :=
  match Fdt.get_cpu_type (CPU_TYPE w) with
  | Fdt.Qemu =>
      let! w := kmap_range w 0x1000_0000 0x1000_0000 0x1000_a000 RW_AD Size4K in
      kmap_range w 0x0c00_0000 0x0c00_0000 0x0c40_0000 RW_AD Size4K
  | Fdt.LicheeRVNano =>
      let f := Z.lor RW_AD THEAD_SO in
      let! w := kmap_range w 0x0414_0000 0x0414_0000 (0x0414_0000 + PAGE_SIZE) f Size4K in
      let! w := kmap_range w 0x7000_0000 0x7000_0000 0x7040_0000 f Size4K in
      kmap_range w 0x0431_0000 0x0431_0000 (0x0431_0000 + PAGE_SIZE) f Size4K
  | Fdt.CpuUnknown => Ret w
  end.

Definition map_segment (w : world) (s e : Z) (flags : PageFlags) : outcome world :=
  let! phys := usub s HIGH_HALF_PHYS_START in
  let! e := align_up e in
  kmap_range w s phys e flags Size4K.

Definition map_kernel_segments (sy : symbols) (w : world) : outcome world :=
  let! w := map_segment w (_text_start sy) (_text_end sy) (or_flags [READ; EXECUTE; ACCESSED]) in
  let! w := map_segment w (_rodata_start sy) (_rodata_end sy) (or_flags [READ; ACCESSED]) in
  let! w := map_segment w (_data_start sy) (_data_end sy) (Z.lor RW_AD (thead_mem_flags w)) in
  map_segment w (_bss_start sy) (_bss_end sy) (Z.lor RW_AD (thead_mem_flags w)).

Definition map_kernel_stack (w : world) : outcome world :=
  kmap_new w (KERNEL_STACK_START - KERNEL_STACK_STARTING_SIZE) KERNEL_STACK_STARTING_SIZE
    (Z.lor RW_AD (thead_mem_flags w)).

Definition map_and_initialize_kernel_heap (w : world) : outcome world :=
  kmap_new w KERNEL_HEAP_START KERNEL_HEAP_SIZE (Z.lor RW_AD (thead_mem_flags w)).

Definition map_last_l1_pte (sy : symbols) (w : world) : outcome world :=
  let! e := align_up (_proc_tramp_end sy) in
  let! w := kmap_range w (_proc_tramp_start sy) (_proc_tramp_lma sy) e
              (or_flags [READ; EXECUTE; ACCESSED; GLOBAL]) Size4K in
  let! w := kmap_new w TRAMPOLINE_TRAP_FRAME TRAP_FRAME_SIZE (Z.lor RW_AD (thead_mem_flags w)) in
  let last := l1_page_table_from_phys (mem w) (root w) TRAMPOLINE_TRAP_FRAME in
  Ret (mkWorld (mem w) (frames w) (root w) (KERNEL_HEAP_END w) last (CPU_TYPE w) (satp_csr w) (trap_frame w)).

Definition switch_to_kernel_map (w : world) : world :=
  let v := satp (root w) in
  mkWorld (mem w) (frames w) (root w) (KERNEL_HEAP_END w) (LAST_L1_PTE w) (CPU_TYPE w) v
    (v, if is_lichee w then 1 else 0).

(** [init]; the heap allocator starts on the first [KERNEL_HEAP_SIZE] bytes. *)
Definition init (sy : symbols) (w : world) (memory : Region) : outcome (world * Alloc.heap) :=
  let! w := init_page_mapper w in
  let! w := identity_map_memory w memory in
  let! w := map_mmio w in
  let! w := map_kernel_segments sy w in
  let! w := map_kernel_stack w in
  let! w := map_and_initialize_kernel_heap w in
  let! w := map_last_l1_pte sy w in
  let w := switch_to_kernel_map w in
  let! h := Alloc.init Alloc.fresh KERNEL_HEAP_START KERNEL_HEAP_SIZE in
  Ret (w, h).

Definition allocate_and_map_process_load_area_range (w : world) (s size : Z) (flags : PageFlags) : outcome world :=
  kmap_new w s size flags.

Definition grow_kernel_heap (w : world) (size : Z) : outcome (option (Z * Z) * world) :=
  let! size := align_up size in
  let old_end := KERNEL_HEAP_END w in
  if old_end + size <? USIZE then
    let! w := kmap_new w old_end size (Z.lor RW_AD (thead_mem_flags w)) in
    Ret (Some (old_end, size),
         mkWorld (mem w) (frames w) (root w) (old_end + size) (LAST_L1_PTE w) (CPU_TYPE w) (satp_csr w) (trap_frame w))
  else Ret (None, w).

Definition kernel_virt_to_phys (w : world) (virt : Z) : option Z := virt_to_phys (mem w) (root w) virt.

(** ** The heap interface, discharged *)

Lemma align_up_page n : 0 <= n -> n + PAGE_SIZE < USIZE -> align_up n = Ret (align_up_to n 4096).
Proof. intros Hn Hl. unfold align_up. rewrite uadd_ok by lia. done. Qed.

#[export, refine] Instance kernel_grower : HeapGrower world :=
  {| grow_heap_fn := grow_kernel_heap; heap_break := KERNEL_HEAP_END |}.
Proof.
  - intros w n w' nh actual Hn Hrun. unfold grow_kernel_heap in Hrun.
    rewrite align_up_page in Hrun by (assert (USIZE / 2 + 64 + PAGE_SIZE < USIZE) by done; lia). cbn [obind] in Hrun.
    destruct (Z.ltb_spec (KERNEL_HEAP_END w + align_up_to n 4096) USIZE) as [Hlt|]; [|done].
    bind_inv Hrun. injection K as <- <- <-. cbn [KERNEL_HEAP_END].
    change 4096 with (2 ^ 12) in *. pose proof (align_up_to_ge n 12 ltac:(lia)).
    pose proof (align_up_to_mod n 12 ltac:(lia)). split_and!; (done || lia).
  - intros w n w' Hrun. unfold grow_kernel_heap in Hrun. bind_inv Hrun.
    destruct (_ <? _); [bind_inv K; done|]. by injection K as <-.
Defined.

Lemma heap_flags_ok w : flags_ok (Z.lor RW_AD (thead_mem_flags w)).
Proof. unfold thead_mem_flags. destruct (is_lichee w); by vm_compute. Qed.

(** growing the heap by [size] bytes, with enough free frames and the range
    not mapped by a superpage, returns the old end and the size rounded up to
    pages; every page of the new range is backed by a distinct frame taken from
    the free ones, all other translations are unchanged, and the page tables
    stay well formed.  It returns [None], changing nothing, when the range would
    pass the end of the address space. *)
Theorem grow_kernel_heap_spec w n size
  (Hok : mapper_ok (mem w) (root w) (frames w))
  (Hsize : 0 <= size /\ size + PAGE_SIZE < USIZE) (Hn : align_up_to size 4096 = Z.of_nat n * 4096)
  (Hbrk : KERNEL_HEAP_END w mod 4096 = 0 /\ 0 <= KERNEL_HEAP_END w)
  (Hlim : Z.of_nat n <= 2 ^ 27) (Hfree : (3 * n <= length (free_frames (frames w)))%nat)
  (Hsup : forall i, (i < n)%nat ->
     leaf_at_most (mem w) (root w) (vpns (KERNEL_HEAP_END w + Z.of_nat i * 4096)) 0) :
  (USIZE <= KERNEL_HEAP_END w + Z.of_nat n * 4096 /\ grow_kernel_heap w size = Ret (None, w)) \/
  exists w' fs, grow_kernel_heap w size = Ret (Some (KERNEL_HEAP_END w, Z.of_nat n * 4096), w') /\
    mapper_ok (mem w') (root w') (frames w') /\ root w' = root w /\
    KERNEL_HEAP_END w' = KERNEL_HEAP_END w + Z.of_nat n * 4096 /\
    length fs = n /\ NoDup fs /\ (forall f, f ∈ fs -> f ∈ free_frames (frames w) /\ f ∉ free_frames (frames w')) /\
    forall v, kernel_virt_to_phys w' v =
      match fs !! Z.to_nat (pidx (KERNEL_HEAP_END w) v) with
      | Some f => Some (f + v mod 4096)
      | None => kernel_virt_to_phys w v
      end.
Proof.
  unfold grow_kernel_heap. rewrite align_up_page, Hn by lia. cbn [obind].
  destruct (Z.ltb_spec (KERNEL_HEAP_END w + Z.of_nat n * 4096) USIZE) as [Hlt|Hge]; [right|left; done].
  destruct (allocate_and_map_pages_spec (mem w) (frames w) (root w) (KERNEL_HEAP_END w) n
    (Z.lor RW_AD (thead_mem_flags w)) false Hok (heap_flags_ok w)) as (m' & a' & fs & Hrun & Hok' & Hlen & Hnd & Hfs & Htr);
    try done; [destruct Hbrk; by split_and!|].
  unfold kmap_new, allocate_and_map_pages. rewrite Hrun. cbn [obind].
  eexists _, fs. split_and!; [done|exact Hok'|done|done|done|done|exact Hfs|exact Htr].
Qed.

End Kernel.

Definition demo_world : world :=
  mkWorld demo_mem demo_pages demo_root (KERNEL_HEAP_START + KERNEL_HEAP_SIZE) 0 1 0 (0, 0).

Lemma grow_kernel_heap_spec_witness :
  (USIZE <= KERNEL_HEAP_END demo_world + 2 * 4096 /\ grow_kernel_heap demo_world 5000 = Ret (None, demo_world)) \/
  exists w' fs, grow_kernel_heap demo_world 5000 = Ret (Some (KERNEL_HEAP_END demo_world, 2 * 4096), w') /\
    mapper_ok (mem w') (root w') (frames w') /\ root w' = root demo_world /\
    KERNEL_HEAP_END w' = KERNEL_HEAP_END demo_world + 2 * 4096 /\
    length fs = 2%nat /\ NoDup fs /\
    (forall f, f ∈ fs -> f ∈ free_frames (frames demo_world) /\ f ∉ free_frames (frames w')) /\
    forall v, kernel_virt_to_phys w' v =
      match fs !! Z.to_nat (pidx (KERNEL_HEAP_END demo_world) v) with
      | Some f => Some (f + v mod 4096)
      | None => kernel_virt_to_phys demo_world v
      end.
Proof.
  apply (grow_kernel_heap_spec demo_world 2 5000).
  - apply demo_mapper_ok.
  - by vm_compute.
  - by vm_compute.
  - by vm_compute.
  - by vm_compute.
  - vm_compute. lia.
  - intros i _. by apply leaf_empty.
Defined.

End Kmap.
