(* ===== verification/KernelInit.v ===== *)
(** * The kernel's address space after start-up

    What [init] of [src/src/kernel_memory_map.rs] (modelled in [KernelMap])
    establishes: the list of areas [kernel_layout] is what the page tables map,
    each page to its frame with its flags, and nothing else is mapped.  From it
    come the separation of writable and executable pages and the interface the
    block layer relies on for DMA buffers in the kernel heap. *)

From S2P Require Import Prelude Memory Bytes Dtb PageAllocator PageMapper UserMem Allocator KernelMap.
Import Mem Pte Mapper UMem Kmap.

Module Kinit.

(** ** Areas

    Consecutive pages of one size from [av] on, mapped to the frames
    [aframes]. *)
Record area := mkArea { av : Z; asize : PageSize; aframes : list Z; aflags : PageFlags }.

Definition abytes (a : area) : Z := Z.of_nat (length (aframes a)) * psize (asize a).
Definition aend (a : area) : Z := av a + abytes a.

(** The page of the area that an address is in, as the hardware sees it: 39
    bits of the address count. *)
Definition aidx (a : area) (v : Z) : Z := (v / psize (asize a) - av a / psize (asize a)) mod (2 ^ 39 / psize (asize a)).

Definition area_leaf (a : area) (v : Z) : option (Z * nat) :=
  match aframes a !! Z.to_nat (aidx a v) with Some f => Some (pte_set f (aflags a), level (asize a)) | None => None end.

Fixpoint layout_leaf (L : list area) (v : Z) : option (Z * nat) :=
  match L with
  | [] => None
  | a :: L => match area_leaf a v with Some x => Some x | None => layout_leaf L v end
  end.

(** Addresses the hardware accepts: bits 38 to 63 are equal. *)
Definition canonical (v : Z) : Prop := 0 <= v < 2 ^ 38 \/ USIZE - 2 ^ 38 <= v < USIZE.

Record area_ok (a : area) : Prop := {
  ao_align : av a mod psize (asize a) = 0;
  ao_half : 0 <= av a /\ aend a <= 2 ^ 38 \/ USIZE - 2 ^ 38 <= av a /\ aend a <= USIZE;
  ao_frames : Forall (fun f => f mod psize (asize a) = 0 /\ 0 <= f < 2 ^ 48) (aframes a) }.

Lemma psize_cases ps : psize ps = 4096 \/ psize ps = 2097152 \/ psize ps = 1073741824.
Proof. destruct ps; auto. Qed.

Lemma aidx_range a v : 0 <= aidx a v < 2 ^ 39 / psize (asize a).
Proof. unfold aidx. destruct (psize_cases (asize a)) as [->|[->| ->]]; apply Z.mod_pos_bound; done. Qed.

Lemma half_small a : area_ok a -> abytes a <= 2 ^ 38.
Proof. intros [_ [H|H] _]; unfold aend in *; unfold USIZE in *; lia. Qed.

(** Inside the area. *)
Lemma aidx_inside a v : area_ok a -> av a <= v < aend a -> aidx a v = (v - av a) / psize (asize a) /\ 0 <= aidx a v < Z.of_nat (length (aframes a)).
Proof.
  intros Ha Hv. pose proof (half_small a Ha) as Hs. destruct Ha as [Hal _ _]. unfold aidx, aend, abytes in *.
  destruct (psize_cases (asize a)) as [E|[E|E]]; rewrite E in *;
    change (2 ^ 39 / 4096) with 134217728; change (2 ^ 39 / 2097152) with 262144; change (2 ^ 39 / 1073741824) with 512; lia.
Qed.

(** Only there. *)
Lemma aidx_only a v : area_ok a -> canonical v -> aidx a v < Z.of_nat (length (aframes a)) -> av a <= v < aend a.
Proof.
  intros Ha Hv Hi. pose proof (half_small a Ha) as Hs. destruct Ha as [Hal Hh _]. unfold aidx, aend, abytes, canonical in *. unfold USIZE in *.
  destruct (psize_cases (asize a)) as [E|[E|E]]; rewrite E in *;
    change (2 ^ 39 / 4096) with 134217728 in *; change (2 ^ 39 / 2097152) with 262144 in *; change (2 ^ 39 / 1073741824) with 512 in *; lia.
Qed.

Lemma area_leaf_inside a i f off : area_ok a -> aframes a !! i = Some f -> 0 <= off < psize (asize a) ->
  area_leaf a (av a + Z.of_nat i * psize (asize a) + off) = Some (pte_set f (aflags a), level (asize a)).
Proof.
  intros Ha Hf Ho. apply lookup_lt_Some in Hf as Hl. unfold area_leaf.
  destruct (aidx_inside a (av a + Z.of_nat i * psize (asize a) + off) Ha) as [-> _].
  { unfold aend, abytes. destruct (psize_cases (asize a)) as [E|[E|E]]; rewrite E in *; lia. }
  replace (_ / psize (asize a)) with (Z.of_nat i); [by rewrite Nat2Z.id, Hf|].
  replace (_ - av a) with (off + Z.of_nat i * psize (asize a)) by lia.
  rewrite Z.div_add, Z.div_small by lia. lia.
Qed.

Lemma area_leaf_some a v : area_ok a -> canonical v -> is_Some (area_leaf a v) -> av a <= v < aend a.
Proof.
  intros Ha Hv [x Hx]. apply aidx_only; [done..|]. unfold area_leaf in Hx. destruct (aframes a !! _) eqn:E; [|done].
  apply lookup_lt_Some in E. pose proof (aidx_range a v). lia.
Qed.

(** ** Layouts whose areas are in order of address *)
Definition below (a b : area) : Prop := aend a <= av b.

Lemma layout_member L a v x : Forall area_ok L -> canonical v -> a ∈ L -> area_leaf a v = Some x ->
  (forall b, b ∈ L -> is_Some (area_leaf b v) -> b = a) -> layout_leaf L v = Some x.
Proof.
  intros Hok Hv Hin Hx Huniq. induction L as [|b L IH]; [by apply elem_of_nil in Hin|]. cbn [layout_leaf].
  destruct (area_leaf b v) as [y|] eqn:E.
  - assert (b = a) as -> by (apply Huniq; [by left|by eexists]). congruence.
  - apply Forall_cons in Hok as [_ Hok]. apply elem_of_cons in Hin as [->|Hin]; [congruence|]. apply IH; [done..|]. intros c Hc. apply Huniq. by right.
Qed.

Lemma layout_none L v : layout_leaf L v = None <-> forall a, a ∈ L -> area_leaf a v = None.
Proof.
  induction L as [|b L IH]; [split; [by intros _ a ?%elem_of_nil|done]|]. cbn [layout_leaf]. split.
  - destruct (area_leaf b v) eqn:E; [done|]. intros H a [->|Ha]%elem_of_cons; [done|]. by apply IH.
  - intros H. rewrite (H b) by by left. apply IH. intros a Ha. apply H. by right.
Qed.

Lemma ordered_unique L a b v : Forall area_ok L -> StronglySorted below L -> a ∈ L -> b ∈ L -> canonical v ->
  is_Some (area_leaf a v) -> is_Some (area_leaf b v) -> a = b.
Proof.
  intros Hok Hs Ha Hb Hv Hxa Hxb.
  assert (Hin : forall c, c ∈ L -> is_Some (area_leaf c v) -> av c <= v < aend c).
  { intros c Hc Hxc. rewrite Forall_forall in Hok. by apply area_leaf_some; [apply Hok|..]. }
  pose proof (Hin _ Ha Hxa). pose proof (Hin _ Hb Hxb). clear Hin Hxa Hxb Hok.
  induction Hs as [|c L Hs IH Hc]; [by apply elem_of_nil in Ha|]. rewrite Forall_forall in Hc. unfold below in Hc.
  apply elem_of_cons in Ha as [->|Ha], Hb as [->|Hb]; [done|specialize (Hc _ Hb); lia|specialize (Hc _ Ha); lia|by apply IH].
Qed.

Lemma leaf_ordered L L' v x a : Forall area_ok L -> StronglySorted below L -> L' ≡ₚ L -> canonical v -> a ∈ L -> area_leaf a v = Some x ->
  layout_leaf L' v = Some x.
Proof.
  intros Hok Hs Hp Hv Ha Hx. apply (layout_member L' a v x); [by rewrite Hp|done|by rewrite Hp|done|].
  intros b Hb Hxb. rewrite Hp in Hb. symmetry. by apply (ordered_unique L a b v).
Qed.

(** ** Adding areas *)
Section Init.
Context {A : Type} `{FrameAllocator A}.

Section keep.
(** Memory and the free frames before. *)
Context {m0 : memory} {F0 : list Z}.

(** Only free frames are written and become tables. *)
Record keeps (m : memory) (root : Z) (a : A) : Prop := {
  kp_mem : forall b, page b ∉ F0 -> m b = m0 b;
  kp_owned : forall f, owned m root a f -> f ∈ F0 }.

Lemma keeps_within m root a m' a' : keeps m root a -> within m root a m' a' -> keeps m' root a'.
Proof.
  intros [K1 K2] [W1 W2]. split; [|auto]. intros b Hb. rewrite W1; [auto|]. intros Ho. by apply Hb, K2.
Qed.

(** The page tables of [w] map the areas [L], and [k] frames are free. *)
Record mapped (w : world) (L : list area) (k : nat) : Prop := {
  md_ok : mapper_ok (mem w) (root w) (frames w);
  md_leaf : forall v, leaf (mem w) (root w) (vpns v) = layout_leaf L v;
  md_free : (k <= length (free_frames (frames w)))%nat;
  md_keeps : keeps (mem w) (root w) (frames w) }.

Definition run_of (phys step : Z) (n : nat) : list Z := (fun i => phys + Z.of_nat i * step) <$> seq 0 n.

Lemma run_lookup phys step n i : 0 <= i -> run_of phys step n !! Z.to_nat i = if i <? Z.of_nat n then Some (phys + i * step) else None.
Proof.
  intros Hi. unfold run_of. rewrite list_lookup_fmap. destruct (Z.ltb_spec i (Z.of_nat n)).
  - rewrite lookup_seq_lt by lia. cbn. by rewrite Z2Nat.id.
  - by rewrite lookup_ge_None_2 by (rewrite length_seq; lia).
Qed.

Definition fixed_area (virt phys : Z) (n : nat) (flags : PageFlags) (ps : PageSize) : area := mkArea virt ps (run_of phys (psize ps) n) flags.

(** No superpage at the pages of a range. *)
Definition no_super (L : list area) (virt : Z) (n : nat) : Prop :=
  forall i, (i < n)%nat -> Forall (fun a => asize a = Size4K \/ area_leaf a (virt + Z.of_nat i * 4096) = None) L.

Lemma no_super_leaf w L k virt n i : mapped w L k -> no_super L virt n -> (i < n)%nat ->
  leaf_at_most (mem w) (root w) (vpns (virt + Z.of_nat i * 4096)) 0.
Proof.
  intros Hw Hns Hi e j. rewrite (md_leaf _ _ _ Hw). specialize (Hns i Hi). clear Hw. induction Hns as [|a L Ha _ IH]; [done|]. cbn [layout_leaf].
  destruct (area_leaf a _) eqn:E; [|exact IH]. intros [= ->]. destruct Ha as [Ha|Ha]; [|done].
  unfold area_leaf in E. rewrite Ha in E. destruct (aframes a !! _); [|done]. injection E as <- <-. done.
Qed.

Definition fewer (a a' : A) : Prop := forall f, f ∈ free_frames a' -> f ∈ free_frames a.

Lemma add_4k w L k virt phys n flags : mapped w L (2 * n + k) ->
  virt mod 4096 = 0 /\ 0 <= virt /\ virt + Z.of_nat n * 4096 < USIZE ->
  phys mod 4096 = 0 /\ 0 <= phys /\ phys + Z.of_nat n * 4096 <= 2 ^ 48 -> Z.of_nat n <= 2 ^ 27 -> no_super L virt n ->
  exists ma, kmap_range w virt phys (virt + Z.of_nat n * 4096) flags Size4K = Ret (with_map w ma) /\
    mapped (with_map w ma) (fixed_area virt phys n flags Size4K :: L) k /\ fewer (frames w) ma.2.
Proof.
  intros Hw Hv Hp Hn Hs. destruct (map_range_4k_leaf (mem w) (frames w) (root w) virt phys n flags) as (m' & a' & E & Hok & [Hu1 Hu2] & Hl); try done.
  { apply (md_ok _ _ _ Hw). }
  { destruct Hw. lia. }
  { intros i Hi. by eapply no_super_leaf. }
  pose proof (map_range_4k_within (mem w) (frames w) (root w) virt phys n flags m' a' (md_ok _ _ _ Hw) Hv Hp Hn ltac:(destruct Hw; lia) ltac:(intros i Hi; by eapply no_super_leaf) E) as Wi.
  exists (m', a'). unfold kmap_range. rewrite E. split_and!; [done| |exact Hu2].
  split; [done| |destruct Hw; cbn; lia|by eapply keeps_within; [apply (md_keeps _ _ _ Hw)|exact Wi]]. intros v. cbn [mem root with_map fst snd layout_leaf]. rewrite Hl, (md_leaf _ _ _ Hw).
  unfold area_leaf at 1. cbn [fixed_area aframes aflags asize]. change (aidx (fixed_area virt phys n flags Size4K) v) with (pidx virt v).
  rewrite run_lookup by (unfold pidx; lia). by destruct (_ <? _).
Qed.

Lemma add_2m w k virt phys n flags : mapped w [] (n + k) -> intersects flags RWX = true ->
  virt mod 2097152 = 0 /\ 0 <= virt /\ virt + Z.of_nat n * 2097152 < USIZE ->
  phys mod 2097152 = 0 /\ 0 <= phys /\ phys + Z.of_nat n * 2097152 <= 2 ^ 48 -> Z.of_nat n <= 2 ^ 18 ->
  exists ma, kmap_range w virt phys (virt + Z.of_nat n * 2097152) flags Size2M = Ret (with_map w ma) /\
    mapped (with_map w ma) [fixed_area virt phys n flags Size2M] k /\ fewer (frames w) ma.2.
Proof.
  intros Hw Hf Hv Hp Hn. destruct (map_range_2m_leaf (mem w) (frames w) (root w) virt phys n flags) as (m' & a' & E & Hok & [Hu1 Hu2] & Hl); try done.
  { apply (md_ok _ _ _ Hw). }
  { destruct Hw. lia. }
  { intros i _ e j. by rewrite (md_leaf _ _ _ Hw). }
  pose proof (map_range_2m_within (mem w) (frames w) (root w) virt phys n flags m' a' (md_ok _ _ _ Hw) Hf Hv Hp Hn ltac:(destruct Hw; lia) ltac:(intros i _ e j; by rewrite (md_leaf _ _ _ Hw)) E) as Wi.
  exists (m', a'). unfold kmap_range. rewrite E. split_and!; [done| |exact Hu2].
  split; [done| |destruct Hw; cbn; lia|by eapply keeps_within; [apply (md_keeps _ _ _ Hw)|exact Wi]]. intros v. cbn [mem root with_map fst snd layout_leaf]. rewrite Hl, (md_leaf _ _ _ Hw).
  unfold area_leaf at 1. cbn [fixed_area aframes aflags asize]. change (aidx (fixed_area virt phys n flags Size2M) v) with (sidx virt v).
  rewrite run_lookup by (unfold sidx; lia). by destruct (_ <? _).
Qed.

Lemma add_new w L k virt n flags : mapped w L (3 * n + k) ->
  virt mod 4096 = 0 /\ 0 <= virt /\ virt + Z.of_nat n * 4096 < USIZE -> Z.of_nat n <= 2 ^ 27 -> no_super L virt n ->
  exists ma fs, kmap_new w virt (Z.of_nat n * 4096) flags = Ret (with_map w ma) /\
    mapped (with_map w ma) (mkArea virt Size4K fs flags :: L) k /\ fewer (frames w) ma.2 /\
    length fs = n /\ NoDup fs /\ Forall frame_ok fs /\ (forall f, f ∈ fs -> f ∈ free_frames (frames w) /\ f ∉ free_frames ma.2).
Proof.
  intros Hw Hv Hn Hs. destruct (allocate_and_map_pages_leaf (mem w) (frames w) (root w) virt n flags false)
    as (m' & a' & fs & E & Hok & [Hu1 Hu2] & Hlen & Hnd & Hfo & Hin & Hl); try done.
  { apply (md_ok _ _ _ Hw). }
  { destruct Hw. lia. }
  { intros i Hi. by eapply no_super_leaf. }
  pose proof (new_pages_within (mem w) (frames w) (root w) virt n flags false m' a' (md_ok _ _ _ Hw) Hv Hn ltac:(destruct Hw; lia) ltac:(intros i Hi; by eapply no_super_leaf) E) as Wi.
  exists (m', a'), fs. unfold kmap_new, allocate_and_map_pages. rewrite E. split_and!; [done| |exact Hu2|done..].
  split; [done| |destruct Hw; cbn; lia|by eapply keeps_within; [apply (md_keeps _ _ _ Hw)|exact Wi]]. intros v. cbn [mem root with_map fst snd layout_leaf]. rewrite Hl, (md_leaf _ _ _ Hw).
  unfold area_leaf at 1. cbn [aframes aflags asize]. change (aidx (mkArea virt Size4K fs flags) v) with (pidx virt v).
  by destruct (fs !! _).
Qed.
Lemma mapped_le w L k k' : mapped w L k -> (k' <= k)%nat -> mapped w L k'.
Proof. intros [] Hk. split; [done..|lia|done]. Qed.

(** All areas but [M] are made of small pages. *)
Definition only_super (M : area) (L : list area) : Prop := Forall (fun a => asize a = Size4K \/ a = M) L.

Lemma no_super_apart M L virt n : only_super M L -> area_ok M ->
  0 <= virt /\ virt + Z.of_nat n * 4096 <= 2 ^ 38 \/ USIZE - 2 ^ 38 <= virt /\ virt + Z.of_nat n * 4096 <= USIZE ->
  virt + Z.of_nat n * 4096 <= av M \/ aend M <= virt -> no_super L virt n.
Proof.
  intros HL HM Hv Hd i Hi. eapply Forall_impl; [exact HL|]. cbn. intros a [Ha| ->]; [by left|right].
  destruct (area_leaf M (virt + Z.of_nat i * 4096)) eqn:E; [|done].
  assert (av M <= virt + Z.of_nat i * 4096 < aend M); [|lia]. apply area_leaf_some; [done| |by eexists]. unfold canonical. lia.
Qed.

(** ** The layout *)
Definition npages (s e : Z) : nat := Z.to_nat ((align_up_to e 4096 - s) / 4096).

Definition segment (s e : Z) (flags : PageFlags) : area := fixed_area s (s - HIGH_HALF_PHYS_START) (npages s e) flags Size4K.

Definition memory_area (memory : Region) : area :=
  fixed_area (start memory) (start memory) (Z.to_nat ((end_ memory - start memory) / 2097152))
    (or_flags [READ; WRITE; EXECUTE; ACCESSED; DIRTY]) Size2M.

Definition mmio_areas (cpu : Fdt.CpuType) : list area :=
  match cpu with
  | Fdt.Qemu => [fixed_area 0x0c00_0000 0x0c00_0000 1024 RW_AD Size4K; fixed_area 0x1000_0000 0x1000_0000 10 RW_AD Size4K]
  | Fdt.LicheeRVNano =>
      let f := Z.lor RW_AD THEAD_SO in
      [fixed_area 0x0414_0000 0x0414_0000 1 f Size4K; fixed_area 0x0431_0000 0x0431_0000 1 f Size4K;
       fixed_area 0x7000_0000 0x7000_0000 1024 f Size4K]
  | Fdt.CpuUnknown => []
  end.

(** Flags of the pages that hold data. *)
Definition data_flags (cpu : Fdt.CpuType) : PageFlags :=
  Z.lor RW_AD (match cpu with Fdt.LicheeRVNano => THEAD_MEMORY | _ => empty_flags end).

Definition trampoline_area (sy : symbols) : area :=
  fixed_area (_proc_tramp_start sy) (_proc_tramp_lma sy) (npages (_proc_tramp_start sy) (_proc_tramp_end sy))
    (or_flags [READ; EXECUTE; ACCESSED; GLOBAL]) Size4K.

(** All areas, in order of address. *)
Definition kernel_layout (sy : symbols) (cpu : Fdt.CpuType) (memory : Region) (heap stack tf : list Z) : list area :=
  mmio_areas cpu ++
  [memory_area memory;
   segment (_text_start sy) (_text_end sy) (or_flags [READ; EXECUTE; ACCESSED]);
   segment (_rodata_start sy) (_rodata_end sy) (or_flags [READ; ACCESSED]);
   segment (_data_start sy) (_data_end sy) (data_flags cpu);
   segment (_bss_start sy) (_bss_end sy) (data_flags cpu);
   mkArea KERNEL_HEAP_START Size4K heap (data_flags cpu);
   mkArea (KERNEL_STACK_START - KERNEL_STACK_STARTING_SIZE) Size4K stack (data_flags cpu);
   mkArea TRAMPOLINE_TRAP_FRAME Size4K tf (data_flags cpu);
   trampoline_area sy].

(** Memory starts above the devices and is made of superpages. *)
Record memory_ok (memory : Region) : Prop := {
  me_start : start memory mod 2097152 = 0;
  me_end : end_ memory mod 2097152 = 0;
  me_range : 0x8000_0000 <= start memory <= end_ memory;
  me_top : end_ memory <= 2 ^ 38 }.

(** What link.ld arranges. *)
Record symbols_ok (sy : symbols) : Prop := {
  so_text : _text_start sy mod 4096 = 0 /\ HIGH_HALF_PHYS_START <= _text_start sy <= _text_end sy;
  so_rodata : _rodata_start sy mod 4096 = 0 /\ align_up_to (_text_end sy) 4096 <= _rodata_start sy <= _rodata_end sy;
  so_data : _data_start sy mod 4096 = 0 /\ align_up_to (_rodata_end sy) 4096 <= _data_start sy <= _data_end sy;
  so_bss : _bss_start sy mod 4096 = 0 /\ align_up_to (_data_end sy) 4096 <= _bss_start sy <= _bss_end sy;
  so_heap : align_up_to (_bss_end sy) 4096 <= KERNEL_HEAP_START;
  so_tramp : _proc_tramp_start sy mod 4096 = 0 /\ TRAMPOLINE_TRAP_FRAME + TRAP_FRAME_SIZE <= _proc_tramp_start sy <= _proc_tramp_end sy;
  so_top : _proc_tramp_end sy + 4096 < USIZE;
  so_lma : _proc_tramp_lma sy mod 4096 = 0 /\ 0 <= _proc_tramp_lma sy < 2 ^ 47 }.

(** Enough frames for the tables and the pages, counting two tables a page. *)
Definition frames_needed (sy : symbols) (memory : Region) : nat :=
  1 + (Z.to_nat ((end_ memory - start memory) / 2097152) + (2068 + (2 * npages (_text_start sy) (_text_end sy) +
  (2 * npages (_rodata_start sy) (_rodata_end sy) + (2 * npages (_data_start sy) (_data_end sy) + (2 * npages (_bss_start sy) (_bss_end sy) +
  (48 + (12 + (2 * npages (_proc_tramp_start sy) (_proc_tramp_end sy) + 3))))))))).

(** ** The steps of [init] *)
Lemma root_table_ok w k : (forall b, mem w b = m0 b) -> (forall f, f ∈ free_frames (frames w) -> f ∈ F0) ->
  frame_inv (frames w) -> (forall f, f ∈ free_frames (frames w) -> frame_ok f) -> (S k <= length (free_frames (frames w)))%nat ->
  exists w1, init_page_mapper w = Ret w1 /\ mapped w1 [] k /\ fewer (frames w) (frames w1) /\
    KERNEL_HEAP_END w1 = KERNEL_HEAP_END w /\ CPU_TYPE w1 = CPU_TYPE w.
Proof.
  intros Hm0 HF0 Hi Hfr Hk. destruct (frame_alloc_some (frames w) Hi) as (f & a' & l & E & Hi' & Hp & Hp'); [by eapply free_ne|].
  unfold init_page_mapper, Mapper.new. rewrite E. cbn [obind expect]. eexists. split; [done|].
  pose proof (frame_nodup _ Hi) as Hnd. rewrite Hp in Hnd. apply NoDup_cons in Hnd as [Hnf _].
  assert (Hf : frame_ok f) by (apply Hfr; rewrite Hp; by left).
  assert (Hsub : fewer (frames w) a') by (intros x; rewrite Hp, Hp'; by right).
  assert (Hz : forall i, idx_ok i -> ent (zero_page (Kmap.mem w) f) f i = 0) by (intros i Hi0; rewrite ent_zero by done; by rewrite decide_True).
  split_and!; [|done..]. split; cbn [mem root frames].
  - split; [done|apply wf_empty; [done|by rewrite Hp'|done]|]. intros x Hx. by apply Hfr, Hsub.
  - intros v. cbn [layout_leaf]. destruct (leaf _ _ _) as [[e j]|] eqn:El; [|done]. exfalso.
    pose proof (vpn_ok v) as Hv. apply Forall_cons in Hv as [Hv _]. unfold vpns in El. cbn [leaf] in El. by rewrite (Hz _ Hv) in El.
  - rewrite Hp' . rewrite Hp in Hk. cbn [length] in Hk. lia.
  - split.
    + intros b Hb. unfold zero_page. destruct (_ && _) eqn:Eb; [|apply Hm0]. destruct Hb.
      apply andb_prop in Eb as [E1%Z.leb_le E2%Z.ltb_lt]. replace (page b) with f; [apply HF0; rewrite Hp; by left|]. unfold page, frame_ok in *. lia.
    + intros g [Hg|(q & Hq & Hg)]; [by apply HF0, Hsub|]. destruct q as [|i q]; [injection Hg as <-; apply HF0; rewrite Hp; by left|].
      exfalso. cbn [tpath] in Hg. unfold child in Hg. destruct Hq as [_ Hq]. apply Forall_cons in Hq as [Hi0 _]. by rewrite Hz in Hg.
Qed.

Lemma npages_end s e : s mod 4096 = 0 -> s <= e -> s + Z.of_nat (npages s e) * 4096 = align_up_to e 4096 /\ e <= align_up_to e 4096 < e + 4096.
Proof.
  intros Hs He. unfold npages. change 4096 with (2 ^ 12) in *. pose proof (align_up_to_ge e 12 ltac:(lia)). pose proof (align_up_to_mod e 12 ltac:(lia)).
  change (2 ^ 12) with 4096 in *. lia.
Qed.

Lemma add_segment w L k s e flags : mapped w L (2 * npages s e + k) -> s mod 4096 = 0 -> HIGH_HALF_PHYS_START <= s <= e ->
  align_up_to e 4096 <= KERNEL_HEAP_START -> no_super L s (npages s e) ->
  exists ma, map_segment w s e flags = Ret (with_map w ma) /\ mapped (with_map w ma) (segment s e flags :: L) k /\ fewer (frames w) ma.2.
Proof.
  intros Hw Hs He Hh Hns. destruct (npages_end s e Hs ltac:(lia)) as [Hn He']. unfold HIGH_HALF_PHYS_START, KERNEL_HEAP_START in *.
  unfold map_segment, HIGH_HALF_PHYS_START. rewrite usub_ok by lia. cbn [obind].
  rewrite align_up_page by (unfold PAGE_SIZE, USIZE; lia). cbn [obind]. rewrite <- Hn.
  apply (add_4k w L k s (s - 0xffff_ffff_0000_0000) (npages s e) flags Hw); [unfold USIZE; lia..|done].
Qed.
Lemma run_length phys step n : length (run_of phys step n) = n.
Proof. unfold run_of. by rewrite length_fmap, length_seq. Qed.

Lemma fixed_ok virt phys n flags ps : virt mod psize ps = 0 -> phys mod psize ps = 0 -> 0 <= phys -> phys + Z.of_nat n * psize ps <= 2 ^ 48 ->
  0 <= virt /\ virt + Z.of_nat n * psize ps <= 2 ^ 38 \/ USIZE - 2 ^ 38 <= virt /\ virt + Z.of_nat n * psize ps <= USIZE ->
  area_ok (fixed_area virt phys n flags ps) /\ aend (fixed_area virt phys n flags ps) = virt + Z.of_nat n * psize ps.
Proof.
  intros Hv Hp Hp0 Hp1 Hh. assert (E : aend (fixed_area virt phys n flags ps) = virt + Z.of_nat n * psize ps) by (unfold aend, abytes; cbn; by rewrite run_length).
  split; [|done]. split; [done|by rewrite E|]. apply Forall_fmap, Forall_forall. intros i Hi%elem_of_seq. cbn [compose asize fixed_area].
  rewrite Z.mod_add by (by destruct ps). split; [done|]. destruct (psize_cases ps) as [Ep|[Ep|Ep]]; rewrite Ep in *; lia.
Qed.

Lemma memory_area_ok memory : memory_ok memory -> area_ok (memory_area memory) /\ aend (memory_area memory) = end_ memory.
Proof.
  intros [H1 H2 H3 H4]. destruct (fixed_ok (start memory) (start memory) (Z.to_nat ((end_ memory - start memory) / 2097152))
    (or_flags [READ; WRITE; EXECUTE; ACCESSED; DIRTY]) Size2M) as [Ho He]; cbn [psize]; [done..|lia| |left|].
  - rewrite Z2Nat.id by lia. lia.
  - rewrite Z2Nat.id by lia. lia.
  - split; [exact Ho|]. unfold memory_area. rewrite He. cbn [psize]. lia.
Qed.

Lemma identity_ok w memory k : memory_ok memory -> mapped w [] (Z.to_nat ((end_ memory - start memory) / 2097152) + k) ->
  exists ma, identity_map_memory w memory = Ret (with_map w ma) /\ mapped (with_map w ma) [memory_area memory] k /\ fewer (frames w) ma.2.
Proof.
  intros [H1 H2 H3 H4] Hw. unfold identity_map_memory. set (n := Z.to_nat _) in Hw.
  replace (end_ memory) with (start memory + Z.of_nat n * 2097152) by lia.
  apply add_2m; [done|by vm_compute|unfold USIZE; lia|lia|lia].
Qed.

Lemma with_map_self (w : world (A := A)) : with_map w (mem w, frames w) = w.
Proof. by destruct w. Qed.

Lemma mmio_ok w M k : mapped w [M] (2068 + k) -> area_ok M -> 0x8000_0000 <= av M ->
  exists ma L, map_mmio w = Ret (with_map w ma) /\ mapped (with_map w ma) L k /\ fewer (frames w) ma.2 /\
    L ≡ₚ mmio_areas (Fdt.get_cpu_type (CPU_TYPE w)) ++ [M] /\ only_super M L.
Proof.
  intros Hw HM Ha. unfold map_mmio, mmio_areas. unfold PAGE_SIZE.
  assert (Hstep : forall w L k v (n : nat) f, mapped w L (2 * n + k) -> only_super M L -> v mod 4096 = 0 -> 0 <= v -> v + Z.of_nat n * 4096 <= 0x8000_0000 ->
    exists ma, kmap_range w v v (v + Z.of_nat n * 4096) f Size4K = Ret (with_map w ma) /\
      mapped (with_map w ma) (fixed_area v v n f Size4K :: L) k /\ fewer (frames w) ma.2 /\ only_super M (fixed_area v v n f Size4K :: L)).
  { intros w0 L k0 v n f H0 HL Hv Hv0 Hv1. destruct (add_4k w0 L k0 v v n f H0) as (ma & E & Hm & Hf); [unfold USIZE; lia|lia|lia| |].
    - apply (no_super_apart M); [done|done|lia|lia].
    - exists ma. split_and!; [done..|]. constructor; [by left|done]. }
  assert (H1 : only_super M [M]) by (constructor; [by right|done]).
  destruct (Fdt.get_cpu_type (CPU_TYPE w)).
  - exists (mem w, frames w), [M]. rewrite with_map_self. split_and!; [done|by eapply mapped_le; [exact Hw|lia]|by intros f|done|done].
  - destruct (Hstep w [M] (2048 + k)%nat 0x1000_0000 10%nat RW_AD) as (m1 & E1 & W1 & F1 & O1); [by eapply mapped_le; [exact Hw|lia]|done..|].
    change (0x1000_0000 + Z.of_nat 10 * 4096) with 0x1000_a000 in E1. rewrite E1. cbn [obind].
    destruct (Hstep _ _ k 0x0c00_0000 1024%nat RW_AD W1 O1) as (m2 & E2 & W2 & F2 & O2); [done..|].
    change (0x0c00_0000 + Z.of_nat 1024 * 4096) with 0x0c40_0000 in E2. rewrite E2.
    exists m2, (fixed_area 0x0c00_0000 0x0c00_0000 1024 RW_AD Size4K :: fixed_area 0x1000_0000 0x1000_0000 10 RW_AD Size4K :: [M]).
    split_and!; [done|done|intros f Hf; by apply F1, F2|done|done].
  - destruct (Hstep w [M] (2050 + k)%nat 0x0414_0000 1%nat (Z.lor RW_AD THEAD_SO)) as (m1 & E1 & W1 & F1 & O1); [by eapply mapped_le; [exact Hw|lia]|done..|].
    change (0x0414_0000 + Z.of_nat 1 * 4096) with (0x0414_0000 + 4096) in E1. rewrite E1. cbn [obind].
    destruct (Hstep (with_map w m1) _ (2 + k)%nat 0x7000_0000 1024%nat (Z.lor RW_AD THEAD_SO) ltac:(by eapply mapped_le; [exact W1|lia]) O1) as (m2 & E2 & W2 & F2 & O2); [done..|].
    change (0x7000_0000 + Z.of_nat 1024 * 4096) with 0x7040_0000 in E2. rewrite E2. cbn [obind].
    destruct (Hstep _ _ k 0x0431_0000 1%nat (Z.lor RW_AD THEAD_SO) W2 O2) as (m3 & E3 & W3 & F3 & O3); [done..|].
    change (0x0431_0000 + Z.of_nat 1 * 4096) with (0x0431_0000 + 4096) in E3. rewrite E3.
    eexists m3, _. split_and!; [done|exact W3|intros f Hf; by apply F1, F2, F3| |done]. cbn [app]. solve_Permutation.
Qed.

Lemma data_flags_eq (w : world (A := A)) : Z.lor RW_AD (thead_mem_flags w) = data_flags (Fdt.get_cpu_type (CPU_TYPE w)).
Proof. unfold thead_mem_flags, is_lichee, data_flags. destruct (Fdt.get_cpu_type (CPU_TYPE w)); reflexivity. Qed.

Lemma segments_ok sy w M L k : symbols_ok sy -> only_super M L -> area_ok M -> aend M <= 2 ^ 38 ->
  mapped w L (2 * npages (_text_start sy) (_text_end sy) + (2 * npages (_rodata_start sy) (_rodata_end sy) +
    (2 * npages (_data_start sy) (_data_end sy) + (2 * npages (_bss_start sy) (_bss_end sy) + k)))) ->
  let f := Z.lor RW_AD (thead_mem_flags w) in
  let L' := segment (_bss_start sy) (_bss_end sy) f :: segment (_data_start sy) (_data_end sy) f ::
    segment (_rodata_start sy) (_rodata_end sy) (or_flags [READ; ACCESSED]) ::
    segment (_text_start sy) (_text_end sy) (or_flags [READ; EXECUTE; ACCESSED]) :: L in
  exists ma, map_kernel_segments sy w = Ret (with_map w ma) /\ mapped (with_map w ma) L' k /\ fewer (frames w) ma.2 /\ only_super M L'.
Proof.
  intros [Ht Hr Hd Hb Hh _ _ _] HL HM HM' Hw f L'. unfold map_kernel_segments.
  pose proof (npages_end (_text_start sy) (_text_end sy) (proj1 Ht) ltac:(lia)) as Nt.
  pose proof (npages_end (_rodata_start sy) (_rodata_end sy) (proj1 Hr) ltac:(lia)) as Nr.
  pose proof (npages_end (_data_start sy) (_data_end sy) (proj1 Hd) ltac:(lia)) as Nd.
  pose proof (npages_end (_bss_start sy) (_bss_end sy) (proj1 Hb) ltac:(lia)) as Nb.
  assert (Hns : forall L s n, only_super M L -> HIGH_HALF_PHYS_START <= s -> s + Z.of_nat n * 4096 <= KERNEL_HEAP_START -> no_super L s n).
  { intros L0 s n H0 Hs Hn. unfold HIGH_HALF_PHYS_START, KERNEL_HEAP_START in *. apply (no_super_apart M); [done|done|right|right]; unfold USIZE; lia. }
  assert (Ho : forall a L, asize a = Size4K -> only_super M L -> only_super M (a :: L)) by (intros a L0 E H0; constructor; [by left|done]).
  destruct (add_segment w L _ (_text_start sy) (_text_end sy) (or_flags [READ; EXECUTE; ACCESSED]) Hw) as (m1 & -> & W1 & F1); [lia..|apply Hns; [done|lia..]|]. cbn [obind].
  destruct (add_segment _ _ _ (_rodata_start sy) (_rodata_end sy) (or_flags [READ; ACCESSED]) W1) as (m2 & -> & W2 & F2); [lia..|apply Hns; [by apply Ho|lia..]|]. cbn [obind].
  destruct (add_segment _ _ _ (_data_start sy) (_data_end sy) f W2) as (m3 & E3 & W3 & F3); [lia..|apply Hns; [by do 2 (apply Ho; [done|])|lia..]|].
  change (thead_mem_flags (with_map (with_map w m1) m2)) with (thead_mem_flags w). fold f. rewrite E3. cbn [obind].
  destruct (add_segment _ _ _ (_bss_start sy) (_bss_end sy) f W3) as (m4 & E4 & W4 & F4); [lia..|apply Hns; [by do 3 (apply Ho; [done|])|lia..]|].
  exists m4. split_and!; [exact E4|exact W4|intros x Hx; by apply F1, F2, F3, F4|by do 4 (apply Ho; [done|])].
Qed.

Lemma new_pages_ok w M L k virt (n : nat) flags : only_super M L -> area_ok M -> aend M <= 2 ^ 38 -> mapped w L (3 * n + k) ->
  virt mod 4096 = 0 -> KERNEL_HEAP_START <= virt -> virt + Z.of_nat n * 4096 < USIZE ->
  exists ma fs, kmap_new w virt (Z.of_nat n * 4096) flags = Ret (with_map w ma) /\ mapped (with_map w ma) (mkArea virt Size4K fs flags :: L) k /\
    fewer (frames w) ma.2 /\ only_super M (mkArea virt Size4K fs flags :: L) /\
    length fs = n /\ NoDup fs /\ Forall frame_ok fs /\ (forall f, f ∈ fs -> f ∈ free_frames (frames w) /\ f ∉ free_frames ma.2).
Proof.
  intros HL HM HM' Hw Ha Hv Hn. unfold KERNEL_HEAP_START in Hv.
  destruct (add_new w L k virt n flags Hw) as (ma & fs & E & Hm & Hf & Hrest); [lia|unfold USIZE in Hn; lia| |].
  - apply (no_super_apart M); [done|done|right; unfold USIZE in *; lia|right; lia].
  - exists ma, fs. split_and!; [done|done|done|by constructor; [left|]|apply Hrest..].
Qed.

(** Frames taken from [a] and not free in [a']. *)
Definition taken (a a' : A) (fs : list Z) : Prop := NoDup fs /\ Forall frame_ok fs /\ forall f, f ∈ fs -> f ∈ free_frames a /\ f ∉ free_frames a'.

Lemma taken_app a a1 a2 fs gs : fewer a a1 -> fewer a1 a2 -> taken a a1 fs -> taken a1 a2 gs -> taken a a2 (fs ++ gs).
Proof.
  intros F1 F2 (N1 & O1 & T1) (N2 & O2 & T2). split_and!.
  - apply NoDup_app. split_and!; [done| |done]. intros f Hf Hg. apply (T1 f Hf). by apply T2.
  - by apply Forall_app.
  - intros f [Hf|Hf]%elem_of_app.
    + destruct (T1 f Hf) as [? Hn]. split; [done|]. intros Hx. by apply Hn, F2.
    + destruct (T2 f Hf) as [? ?]. split; [by apply F1|done].
Qed.

Lemma stack_ok w M L k : only_super M L -> area_ok M -> aend M <= 2 ^ 38 -> mapped w L (48 + k) ->
  exists ma fs, map_kernel_stack w = Ret (with_map w ma) /\
    let L' := mkArea (KERNEL_STACK_START - KERNEL_STACK_STARTING_SIZE) Size4K fs (Z.lor RW_AD (thead_mem_flags w)) :: L in
    mapped (with_map w ma) L' k /\ only_super M L' /\ fewer (frames w) ma.2 /\ length fs = 16%nat /\ taken (frames w) ma.2 fs.
Proof.
  intros HL HM HM' Hw. destruct (new_pages_ok w M L k (KERNEL_STACK_START - KERNEL_STACK_STARTING_SIZE) 16 (Z.lor RW_AD (thead_mem_flags w)) HL HM HM' Hw)
    as (ma & fs & E & W & F & O & S1 & S2 & S3 & S4); [done..|]. exists ma, fs. split; [exact E|]. by split_and!.
Qed.

Lemma heap_ok w M L k : only_super M L -> area_ok M -> aend M <= 2 ^ 38 -> mapped w L (12 + k) ->
  exists ma fs, map_and_initialize_kernel_heap w = Ret (with_map w ma) /\
    let L' := mkArea KERNEL_HEAP_START Size4K fs (Z.lor RW_AD (thead_mem_flags w)) :: L in
    mapped (with_map w ma) L' k /\ only_super M L' /\ fewer (frames w) ma.2 /\ length fs = 4%nat /\ taken (frames w) ma.2 fs.
Proof.
  intros HL HM HM' Hw. destruct (new_pages_ok w M L k KERNEL_HEAP_START 4 (Z.lor RW_AD (thead_mem_flags w)) HL HM HM' Hw)
    as (ma & fs & E & W & F & O & S1 & S2 & S3 & S4); [done..|]. exists ma, fs. split; [exact E|]. by split_and!.
Qed.

Lemma last_l1_ok sy w M L k : symbols_ok sy -> only_super M L -> area_ok M -> aend M <= 2 ^ 38 ->
  mapped w L (2 * npages (_proc_tramp_start sy) (_proc_tramp_end sy) + (3 + k)) ->
  exists w' fs, map_last_l1_pte sy w = Ret w' /\
    mapped w' (mkArea TRAMPOLINE_TRAP_FRAME Size4K fs (Z.lor RW_AD (thead_mem_flags w)) :: trampoline_area sy :: L) k /\
    fewer (frames w) (frames w') /\ length fs = 1%nat /\ taken (frames w) (frames w') fs /\
    root w' = root w /\ KERNEL_HEAP_END w' = KERNEL_HEAP_END w /\ CPU_TYPE w' = CPU_TYPE w /\
    LAST_L1_PTE w' = l1_page_table_from_phys (mem w') (root w') TRAMPOLINE_TRAP_FRAME.
Proof.
  intros Hsy HL HM HM' Hw. destruct (so_tramp _ Hsy) as [Tr1 Tr2]. destruct (npages_end _ _ Tr1 (proj2 Tr2)) as [Nt1 Nt2].
  pose proof (so_top _ Hsy) as Top. destruct (so_lma _ Hsy) as [Lm1 Lm2]. unfold TRAMPOLINE_TRAP_FRAME, TRAP_FRAME_SIZE, HIGH_HALF_PHYS_START in Tr2.
  destruct (add_4k w L (3 + k) (_proc_tramp_start sy) (_proc_tramp_lma sy) (npages (_proc_tramp_start sy) (_proc_tramp_end sy)) (or_flags [READ; EXECUTE; ACCESSED; GLOBAL]) Hw)
    as (m7 & E7 & W7 & F7); [unfold USIZE in *; lia|unfold USIZE in *; lia|unfold USIZE in *; lia| |].
  { apply (no_super_apart M); [done|done|right; unfold USIZE in *; lia|right; unfold USIZE in *; lia]. }
  unfold map_last_l1_pte. rewrite align_up_page by (unfold PAGE_SIZE; lia). cbn [obind]. rewrite <- Nt1, E7. cbn [obind].
  assert (O7 : only_super M (trampoline_area sy :: L)) by (constructor; [by left|exact HL]).
  destruct (new_pages_ok (with_map w m7) M _ k TRAMPOLINE_TRAP_FRAME 1 (Z.lor RW_AD (thead_mem_flags w)) O7 HM HM' W7) as (m8 & tf & E8 & W8 & F8 & O8 & T1 & T2 & T3 & T4); [done..|].
  change TRAP_FRAME_SIZE with (Z.of_nat 1 * 4096). change (thead_mem_flags (with_map w m7)) with (thead_mem_flags w).
  rewrite E8. cbn [obind]. eexists _, tf. split; [reflexivity|]. split; [split; [apply (md_ok _ _ _ W8)|apply (md_leaf _ _ _ W8)|apply (md_free _ _ _ W8)|apply (md_keeps _ _ _ W8)]|].
  split_and!; try done; [intros f Hf; by apply F7, F8|]. split_and!; try done. intros f Hf. destruct (T4 f Hf). split; [by apply F7|done].
Qed.

Lemma init_ok sy w memory k : (forall b, mem w b = m0 b) -> (forall f, f ∈ free_frames (frames w) -> f ∈ F0) -> frame_inv (frames w) -> (forall f, f ∈ free_frames (frames w) -> frame_ok f) ->
  (frames_needed sy memory + k <= length (free_frames (frames w)))%nat -> memory_ok memory -> symbols_ok sy ->
  exists w' h L heap stack tf, init sy w memory = Ret (w', h) /\ Alloc.init Alloc.fresh KERNEL_HEAP_START KERNEL_HEAP_SIZE = Ret h /\
    mapped w' L k /\ L ≡ₚ kernel_layout sy (Fdt.get_cpu_type (CPU_TYPE w)) memory heap stack tf /\
    length heap = 4%nat /\ length stack = 16%nat /\ length tf = 1%nat /\ taken (frames w) (frames w') (stack ++ heap ++ tf) /\
    fewer (frames w) (frames w') /\ satp_csr w' = satp (root w') /\ KERNEL_HEAP_END w' = KERNEL_HEAP_END w /\ CPU_TYPE w' = CPU_TYPE w /\
    LAST_L1_PTE w' = l1_page_table_from_phys (mem w') (root w') TRAMPOLINE_TRAP_FRAME.
Proof.
  intros Hm0 HF0 Hi Hfr Hk Hme Hsy. destruct (memory_area_ok memory Hme) as [HM EM]. assert (HM' : aend (memory_area memory) <= 2 ^ 38) by (rewrite EM; apply (me_top _ Hme)).
  destruct (root_table_ok w (Nat.pred (frames_needed sy memory) + k) Hm0 HF0 Hi Hfr) as (w1 & E1 & W1 & F1 & Hend & Hcpu); [unfold frames_needed in *; lia|].
  unfold init. rewrite E1. cbn [obind].
  destruct (identity_ok w1 memory (2068 + (2 * npages (_text_start sy) (_text_end sy) +
    (2 * npages (_rodata_start sy) (_rodata_end sy) + (2 * npages (_data_start sy) (_data_end sy) + (2 * npages (_bss_start sy) (_bss_end sy) +
    (48 + (12 + (2 * npages (_proc_tramp_start sy) (_proc_tramp_end sy) + (3 + k))))))))) Hme) as (m2 & -> & W2 & F2); [eapply mapped_le; [exact W1|unfold frames_needed; lia]|]. cbn [obind].
  destruct (mmio_ok _ _ _ W2 HM) as (m3 & L3 & E3 & W3 & F3 & P3 & O3); [apply (me_range _ Hme)|]. rewrite E3. cbn [obind].
  destruct (segments_ok sy _ (memory_area memory) L3 _ Hsy O3 HM HM' W3) as (m4 & E4 & W4 & F4 & O4). rewrite E4. cbn [obind].
  destruct (stack_ok _ _ _ _ O4 HM HM' W4) as (m5 & stack & E5 & W5 & O5 & F5 & S1 & S2). rewrite E5. cbn [obind].
  destruct (heap_ok _ _ _ _ O5 HM HM' W5) as (m6 & heap & E6 & W6 & O6 & F6 & H1 & H2). rewrite E6. cbn [obind].
  destruct (last_l1_ok sy _ _ _ _ Hsy O6 HM HM' W6) as (w7 & tf & E7 & W7 & F7 & T1 & T2 & Hroot & Hend7 & Hcpu7 & Hlast). rewrite E7. cbn [obind].
  destruct (Alloc.init _ _ _) as [h| |] eqn:Eh; [|by vm_compute in Eh..]. cbn [obind].
  eexists _, h, _, heap, stack, tf. split; [reflexivity|]. split; [done|]. split; [split; [apply (md_ok _ _ _ W7)|apply (md_leaf _ _ _ W7)|apply (md_free _ _ _ W7)|apply (md_keeps _ _ _ W7)]|].
  cbn [with_map CPU_TYPE] in P3, Hcpu7. rewrite Hcpu in P3, Hcpu7.
  assert (Fa : fewer (frames w) m4.2) by (intros f Hf; by apply F1, F2, F3, F4).
  split_and!; try done.
  - unfold with_map in *. cbn [CPU_TYPE thead_mem_flags is_lichee] in *. unfold thead_mem_flags, is_lichee. cbn [CPU_TYPE]. fold (is_lichee w1) (thead_mem_flags w1).
    rewrite data_flags_eq, Hcpu, P3. unfold kernel_layout. solve_Permutation.
  - apply (taken_app _ m5.2); [intros f Hf; by apply Fa, F5|intros f Hf; by apply F6, F7| |].
    + destruct S2 as (N & O & T). split_and!; [done..|]. intros f Hf. destruct (T f Hf). split; [by apply Fa|done].
    + by apply (taken_app _ m6.2).
  - intros f Hf. by apply Fa, F5, F6, F7.
  - change (KERNEL_HEAP_END w7 = KERNEL_HEAP_END w). by rewrite Hend7.
Qed.

Lemma fixed_end virt phys n flags ps : aend (fixed_area virt phys n flags ps) = virt + Z.of_nat n * psize ps.
Proof. unfold aend, abytes. cbn. by rewrite run_length. Qed.

(** ** The layout is in order *)
#[local] Instance below_trans : Transitive below.
Proof. intros a b c. unfold below, aend, abytes. destruct (psize_cases (asize b)) as [E|[E|E]]; rewrite E; lia. Qed.

Lemma segment_ok s e flags : s mod 4096 = 0 -> HIGH_HALF_PHYS_START <= s <= e -> align_up_to e 4096 <= KERNEL_HEAP_START ->
  area_ok (segment s e flags) /\ aend (segment s e flags) = align_up_to e 4096.
Proof.
  intros Hs He Hh. destruct (npages_end s e Hs ltac:(lia)) as [Hn _]. unfold HIGH_HALF_PHYS_START, KERNEL_HEAP_START in *.
  unfold segment, HIGH_HALF_PHYS_START. destruct (fixed_ok s (s - 0xffff_ffff_0000_0000) (npages s e) flags Size4K) as [Ho Ha]; cbn [psize]; [done|lia|lia|lia|right; unfold USIZE; lia|].
  split; [done|]. rewrite Ha. cbn [psize]. lia.
Qed.

Lemma small_ok virt fs flags : virt mod 4096 = 0 -> USIZE - 2 ^ 38 <= virt -> virt + Z.of_nat (length fs) * 4096 <= USIZE -> Forall frame_ok fs ->
  area_ok (mkArea virt Size4K fs flags).
Proof. intros Hv H1 H2 Hf. split; [done|right; unfold aend, abytes; cbn; lia|done]. Qed.

Lemma trampoline_ok sy : symbols_ok sy -> area_ok (trampoline_area sy).
Proof.
  intros [_ _ _ _ _ [H1 H2] H3 [H4 H5]]. destruct (npages_end _ _ H1 (proj2 H2)) as [Hn Hn']. unfold TRAMPOLINE_TRAP_FRAME, TRAP_FRAME_SIZE, HIGH_HALF_PHYS_START in H2.
  unfold USIZE in *. apply fixed_ok; cbn [psize]; [done|done|lia|lia|right; unfold USIZE; lia].
Qed.

Lemma mmio_areas_ok cpu : Forall (fun a => area_ok a /\ aend a <= 0x8000_0000) (mmio_areas cpu) /\ StronglySorted below (mmio_areas cpu).
Proof.
  assert (Hf : forall v n f, v mod 4096 = 0 -> 0 <= v -> v + Z.of_nat n * 4096 <= 0x8000_0000 ->
    area_ok (fixed_area v v n f Size4K)).
  { intros v n f H1 H2 H3. apply fixed_ok; cbn [psize]; lia. }
  destruct cpu; cbn [mmio_areas]; [by split; constructor|..]; split.
  - repeat (apply Forall_cons_2 || apply Forall_nil_2); (split; [by apply Hf|by rewrite fixed_end]).
  - apply Sorted_StronglySorted; [apply _|]. repeat constructor; unfold below; by rewrite fixed_end.
  - repeat (apply Forall_cons_2 || apply Forall_nil_2); (split; [by apply Hf|by rewrite fixed_end]).
  - apply Sorted_StronglySorted; [apply _|]. repeat constructor; unfold below; by rewrite fixed_end.
Qed.

Lemma sorted_app (L1 L2 : list area) x : StronglySorted below L1 -> StronglySorted below L2 -> Forall (fun a => aend a <= x) L1 -> Forall (fun a => x <= av a) L2 ->
  StronglySorted below (L1 ++ L2).
Proof.
  intros H1 H2 Hx1 Hx2. induction H1 as [|a L1 H1 IH Ha]; [done|]. apply Forall_cons in Hx1 as [Hx Hx1]. cbn. constructor; [by apply IH|].
  apply Forall_app_2; [done|]. eapply Forall_impl; [exact Hx2|]. unfold below. cbn. lia.
Qed.

Lemma kernel_layout_ok sy cpu memory heap stack tf : memory_ok memory -> symbols_ok sy ->
  KERNEL_HEAP_START + Z.of_nat (length heap) * 4096 <= KERNEL_STACK_START - KERNEL_STACK_STARTING_SIZE -> length stack = 16%nat -> length tf = 1%nat -> Forall frame_ok (stack ++ heap ++ tf) ->
  Forall area_ok (kernel_layout sy cpu memory heap stack tf) /\ StronglySorted below (kernel_layout sy cpu memory heap stack tf).
Proof.
  intros Hme Hsy Hh Hs Ht Hf. rewrite !Forall_app in Hf. destruct Hf as (Hf1 & Hf2 & Hf3). destruct (mmio_areas_ok cpu) as [Hm1 Hm2].
  destruct (memory_area_ok memory Hme) as [Om Em]. pose proof (trampoline_ok sy Hsy) as Ot. destruct Hme as [_ _ Hr Htop]. destruct Hsy as [[A1 A2] [B1 B2] [C1 C2] [D1 D2] Hheap [E1 E2] _ _].
  destruct (npages_end _ _ A1 (proj2 A2)) as [_ A3]. destruct (npages_end _ _ B1 (proj2 B2)) as [_ B3].
  destruct (npages_end _ _ C1 (proj2 C2)) as [_ C3]. destruct (npages_end _ _ D1 (proj2 D2)) as [_ D3].
  destruct (segment_ok (_text_start sy) (_text_end sy) (or_flags [READ; EXECUTE; ACCESSED])) as [O1 X1]; [lia..|].
  destruct (segment_ok (_rodata_start sy) (_rodata_end sy) (or_flags [READ; ACCESSED])) as [O2 X2]; [lia..|].
  destruct (segment_ok (_data_start sy) (_data_end sy) (data_flags cpu)) as [O3 X3]; [lia..|].
  destruct (segment_ok (_bss_start sy) (_bss_end sy) (data_flags cpu)) as [O4 X4]; [lia..|].
  assert (Hhigh : 2 ^ 38 <= HIGH_HALF_PHYS_START) by done. split.
  - apply Forall_app_2; [eapply Forall_impl; [exact Hm1|by intros a [? _]]|].
    repeat (apply Forall_cons_2; [first [done|apply small_ok; [done|done| |done]; first [rewrite ?Hs, ?Ht; done|unfold USIZE; clear -Hh; unfold KERNEL_STACK_START, KERNEL_STACK_STARTING_SIZE, HIGH_HALF_PHYS_START in Hh; lia]]|]). done.
  - apply (sorted_app _ _ 0x8000_0000); [done| |eapply Forall_impl; [exact Hm1|by intros a [_ ?]]|].
    + apply Sorted_StronglySorted; [apply _|].
      assert (X5 : forall v fs f, aend (mkArea v Size4K fs f) = v + Z.of_nat (length fs) * 4096) by done.
      repeat (apply Sorted_cons || apply Sorted_nil || apply HdRel_cons || apply HdRel_nil); unfold below; rewrite ?Em, ?X1, ?X2, ?X3, ?X4, ?X5, ?Hs, ?Ht;
        cbn [av segment fixed_area trampoline_area memory_area];
        unfold KERNEL_STACK_START, KERNEL_STACK_STARTING_SIZE, TRAMPOLINE_TRAP_FRAME, TRAP_FRAME_SIZE, HIGH_HALF_PHYS_START, KERNEL_HEAP_START in *; lia.
    + unfold KERNEL_STACK_START, KERNEL_STACK_STARTING_SIZE, TRAMPOLINE_TRAP_FRAME, TRAP_FRAME_SIZE, HIGH_HALF_PHYS_START, KERNEL_HEAP_START in *.
      repeat (apply Forall_cons_2; [cbn [av segment fixed_area trampoline_area memory_area]; lia|]). done.
Qed.

(** ** Translations *)
Lemma join_pow k p v : 0 <= k -> p mod 2 ^ k = 0 -> Z.lor (andn p (2 ^ k - 1)) (Z.land v (2 ^ k - 1)) = p + v mod 2 ^ k.
Proof.
  intros Hk Hp. rewrite andn_ones by lia. pose proof (Z.pow_pos_nonneg 2 k ltac:(lia) Hk).
  replace (p / 2 ^ k * 2 ^ k) with p by lia. replace (2 ^ k - 1) with (Z.ones k) by (rewrite Z.ones_equiv; lia). rewrite Z.land_ones by lia.
  assert (Hz : Z.land p (v mod 2 ^ k) = 0).
  { replace (v mod 2 ^ k) with (Z.land v (Z.ones k)) by (by rewrite Z.land_ones by lia). rewrite (Z.land_comm v), Z.land_assoc, Z.land_ones by lia. by rewrite Hp. }
  by rewrite <- Z.lxor_lor, <- Z.add_nocarry_lxor.
Qed.

Lemma translate m root v f flags ps : leaf m root (vpns v) = Some (pte_set f flags, level ps) -> ps <> Size1G -> flags_ok flags ->
  f mod psize ps = 0 /\ 0 <= f < 2 ^ 48 -> virt_to_phys m root v = Some (f + v mod psize ps).
Proof.
  intros Hl Hps Hfl [Hf1 Hf2]. rewrite virt_to_phys_leaf, Hl. destruct ps; cbn [level leaf_mask psize] in *; [| |done].
  - rewrite pte_addr_set by (done || split; lia). f_equal. by apply (join_pow 12).
  - rewrite pte_addr_set by first [done|split; [change 2097152 with (512 * 4096) in Hf1; lia|lia]]. f_equal. by apply (join_pow 21).
Qed.

Lemma data_flags_ok cpu : flags_ok (data_flags cpu).
Proof. by destruct cpu. Qed.

Lemma layout_flags sy cpu memory heap stack tf a : a ∈ kernel_layout sy cpu memory heap stack tf -> flags_ok (aflags a) /\ asize a <> Size1G.
Proof.
  intros Ha. assert (HF : Forall (fun a => flags_ok (aflags a) /\ asize a <> Size1G) (kernel_layout sy cpu memory heap stack tf)); [|by eapply Forall_forall in HF].
  apply Forall_app_2; [destruct cpu; cbn; repeat constructor; done|].
  repeat (apply Forall_cons_2; [split; [first [apply data_flags_ok|done]|done]|]). done.
Qed.

Lemma leaf_path m root i j k e : leaf m root [i; j; k] = Some (e, 0%nat) -> tpath m root [i; j] = Some (pte_addr (ent m (pte_addr (ent m root i)) j)).
Proof.
  cbn [leaf tpath length Nat.eqb]. unfold child. destruct (is_valid (ent m root i)); [|done]. destruct (is_leaf (ent m root i)); [done|]. cbn [negb orb andb].
  destruct (is_valid (ent m (pte_addr (ent m root i)) j)); [|done]. destruct (is_leaf (ent m (pte_addr (ent m root i)) j)); [done|]. done.
Qed.

Lemma mapped_leaf w L K k a i f off : mapped w L k -> L ≡ₚ K -> Forall area_ok K -> StronglySorted below K ->
  a ∈ K -> aframes a !! i = Some f -> 0 <= off < psize (asize a) ->
  leaf (mem w) (root w) (vpns (av a + Z.of_nat i * psize (asize a) + off)) = Some (pte_set f (aflags a), level (asize a)).
Proof.
  intros Hw HL Ho Hso Ha Hf Hoff. assert (Hao : area_ok a) by by eapply Forall_forall in Ho. rewrite (md_leaf _ _ _ Hw).
  eapply leaf_ordered; [done..| |exact Ha|by apply area_leaf_inside]. apply lookup_lt_Some in Hf.
  assert (av a <= av a + Z.of_nat i * psize (asize a) + off < aend a).
  { unfold aend, abytes. destruct (psize_cases (asize a)) as [Ep|[Ep|Ep]]; rewrite Ep in *; lia. }
  destruct (ao_half _ Hao); unfold canonical; lia.
Qed.

Lemma mapped_none w L K k v : mapped w L k -> L ≡ₚ K -> Forall area_ok K -> canonical v -> (forall a, a ∈ K -> ~ av a <= v < aend a) ->
  leaf (mem w) (root w) (vpns v) = None.
Proof.
  intros Hw HL Ho Hv Hout. rewrite (md_leaf _ _ _ Hw). apply layout_none. intros a Ha. rewrite HL in Ha.
  destruct (area_leaf a v) eqn:Ea; [|done]. exfalso. apply (Hout a Ha). apply area_leaf_some; [by eapply Forall_forall in Ho|done|by eexists].
Qed.

Lemma segment_leaf w L K k s e fl v : mapped w L k -> L ≡ₚ K -> Forall area_ok K -> StronglySorted below K ->
  segment s e fl ∈ K -> s mod 4096 = 0 -> s <= v < e -> Z.land (Z.lor fl VALID) WRITE = 0 ->
  exists x, leaf (mem w) (root w) (vpns v) = Some (x, 0%nat) /\ Z.land x WRITE = 0.
Proof.
  intros Hw HL Ho Hso Hin Hs Hv Hfl. destruct (npages_end s e Hs ltac:(lia)) as [Hn Hn']. set (i := Z.to_nat ((v - s) / 4096)).
  exists (pte_set (s - HIGH_HALF_PHYS_START + Z.of_nat i * 4096) fl). split; [|by rewrite pte_set_low].
  replace v with (s + Z.of_nat i * 4096 + (v - s) mod 4096) by lia. apply (mapped_leaf w L K k (segment s e fl) i); [done..| |cbn; lia].
  change (run_of (s - HIGH_HALF_PHYS_START) 4096 (npages s e) !! i = Some (s - HIGH_HALF_PHYS_START + Z.of_nat i * 4096)).
  rewrite <- (Nat2Z.id i) at 1. rewrite run_lookup by lia. by rewrite (proj2 (Z.ltb_lt _ _)) by lia.
Qed.

End keep.

(** C4: [init] builds the kernel's address space.  With a memory made of
    superpages above the devices, segments as link.ld arranges them and enough
    free frames, it returns without a panic; every page of every area of
    [kernel_layout] has the entry of that area, with its frame and its flags, and
    translates to it; heap, stack and trap frame have frames of their own that
    were free; no other address is mapped; [satp] holds the new root, and
    [LAST_L1_PTE] is the table of the last two megabytes, that of the trampoline. *)
Theorem kernel_map_spec sy w memory (Hi : frame_inv (frames w)) (Hfr : forall f, f ∈ free_frames (frames w) -> frame_ok f)
    (Hk : (frames_needed sy memory <= length (free_frames (frames w)))%nat) (Hme : memory_ok memory) (Hsy : symbols_ok sy) :
  exists w' h heap stack tf, init sy w memory = Ret (w', h) /\ mapper_ok (mem w') (root w') (frames w') /\
    length heap = 4%nat /\ length stack = 16%nat /\ length tf = 1%nat /\ taken (frames w) (frames w') (stack ++ heap ++ tf) /\
    (forall a i f off, a ∈ kernel_layout sy (Fdt.get_cpu_type (CPU_TYPE w)) memory heap stack tf -> aframes a !! i = Some f -> 0 <= off < psize (asize a) ->
       let v := av a + Z.of_nat i * psize (asize a) + off in
       leaf (mem w') (root w') (vpns v) = Some (pte_set f (aflags a), level (asize a)) /\ kernel_virt_to_phys w' v = Some (f + off)) /\
    (forall v, canonical v -> (forall a, a ∈ kernel_layout sy (Fdt.get_cpu_type (CPU_TYPE w)) memory heap stack tf -> ~ av a <= v < aend a) ->
       kernel_virt_to_phys w' v = None) /\
    satp_csr w' = satp (root w') /\ tpath (mem w') (root w') [511; 511] = Some (LAST_L1_PTE w').
Proof.
  destruct (init_ok (m0 := mem w) (F0 := free_frames (frames w)) sy w memory 0 ltac:(done) ltac:(done) Hi Hfr ltac:(lia) Hme Hsy) as (w' & h & L & heap & stack & tf & E & _ & Hw & HL & L1 & L2 & L3 & Ht & _ & Hsatp & _ & _ & Hlast).
  set (K := kernel_layout _ _ _ _ _ _) in *. destruct (kernel_layout_ok sy (Fdt.get_cpu_type (CPU_TYPE w)) memory heap stack tf Hme Hsy) as [Ho Hso]; [by rewrite L1|done|done|apply Ht|]. fold K in Ho, Hso.
  exists w', h, heap, stack, tf. split_and!; [done|apply (md_ok _ _ _ Hw)|done|done|done|done| | |done|].
  - intros a i f off Ha Hf Hoff v. split; [by eapply mapped_leaf|]. destruct (layout_flags _ _ _ _ _ _ a Ha) as [Hfl Hsz].
    assert (Hao : area_ok a) by by eapply Forall_forall in Ho. unfold kernel_virt_to_phys.
    rewrite (translate _ _ v f (aflags a) (asize a)); [|by eapply mapped_leaf|done|done|exact (Forall_lookup_1 _ _ _ _ (ao_frames _ Hao) Hf)].
    do 2 f_equal. unfold v. pose proof (ao_align _ Hao) as Hal. destruct (psize_cases (asize a)) as [Ep|[Ep|Ep]]; rewrite Ep in *; lia.
  - intros v Hv Hout. unfold kernel_virt_to_phys. rewrite virt_to_phys_leaf. by erewrite mapped_none.
  - rewrite Hlast. destruct tf as [|f tf]; [done|].
    assert (Hleaf := mapped_leaf w' L K 0 (mkArea TRAMPOLINE_TRAP_FRAME Size4K (f :: tf) (data_flags (Fdt.get_cpu_type (CPU_TYPE w)))) 0%nat f 0 Hw HL Ho Hso).
    change (vpns _) with [511; 511; 0] in Hleaf. apply (leaf_path _ _ 511 511 0 _ (Hleaf ltac:(subst K; unfold kernel_layout; rewrite elem_of_app; right; do 7 right; by left) eq_refl ltac:(done))).
Qed.

(** ** Protection *)
Lemma layout_some L v x : layout_leaf L v = Some x -> exists a, a ∈ L /\ area_leaf a v = Some x.
Proof.
  induction L as [|a L IH]; [done|]. cbn [layout_leaf]. destruct (area_leaf a v) eqn:E; [intros [= ->]; exists a; split; [by left|done]|].
  intros (b & Hb & Hx)%IH. exists b. split; [by right|done].
Qed.

Lemma area_leaf_flags a v e k m : area_leaf a v = Some (e, k) -> Z.land (Z.ones 10) m = m -> Z.land e m = Z.land (Z.lor (aflags a) VALID) m.
Proof. unfold area_leaf. destruct (aframes a !! _); [|done]. intros [= <- <-] Hm. by apply pte_set_low. Qed.

(** No area is open to user mode, and only the memory area is both writable
    and executable. *)
Lemma layout_protection sy cpu memory heap stack tf a : a ∈ kernel_layout sy cpu memory heap stack tf ->
  Z.land (Z.lor (aflags a) VALID) USER = 0 /\
  (a = memory_area memory \/ Z.land (Z.lor (aflags a) VALID) WRITE = 0 \/ Z.land (Z.lor (aflags a) VALID) EXECUTE = 0).
Proof.
  intros Ha. set (P a := Z.land (Z.lor (aflags a) VALID) USER = 0 /\ (a = memory_area memory \/ Z.land (Z.lor (aflags a) VALID) WRITE = 0 \/ Z.land (Z.lor (aflags a) VALID) EXECUTE = 0)).
  assert (HF : Forall P (kernel_layout sy cpu memory heap stack tf)); [|by eapply Forall_forall in HF].
  apply Forall_app_2.
  - destruct cpu; cbn; repeat (apply Forall_cons_2; [split; [done|by right; right]|]); done.
  - apply Forall_cons_2; [split; [done|by left]|]. destruct cpu; repeat (apply Forall_cons_2; [split; [done|right; first [by left|by right]]|]); done.
Qed.

(** C18: after [init] no page is open to user mode; in the kernel's half of the
    address space no page is both writable and executable; and the pages of the
    text and of the constants are there and cannot be written.  (The identity
    mapping of memory in the lower half is readable, writable and executable.) *)
Theorem kernel_map_protection sy w memory (Hi : frame_inv (frames w)) (Hfr : forall f, f ∈ free_frames (frames w) -> frame_ok f)
    (Hk : (frames_needed sy memory <= length (free_frames (frames w)))%nat) (Hme : memory_ok memory) (Hsy : symbols_ok sy) :
  exists w' h, init sy w memory = Ret (w', h) /\
    (forall v e k, canonical v -> leaf (mem w') (root w') (vpns v) = Some (e, k) -> Z.land e USER = 0) /\
    (forall v e k, canonical v -> HIGH_HALF_PHYS_START <= v -> leaf (mem w') (root w') (vpns v) = Some (e, k) -> Z.land e WRITE = 0 \/ Z.land e EXECUTE = 0) /\
    (forall v, _text_start sy <= v < _text_end sy \/ _rodata_start sy <= v < _rodata_end sy ->
       exists e, leaf (mem w') (root w') (vpns v) = Some (e, 0%nat) /\ Z.land e WRITE = 0).
Proof.
  destruct (init_ok (m0 := mem w) (F0 := free_frames (frames w)) sy w memory 0 ltac:(done) ltac:(done) Hi Hfr ltac:(lia) Hme Hsy) as (w' & h & L & heap & stack & tf & E & _ & Hw & HL & L1 & L2 & L3 & Ht & _).
  destruct (kernel_layout_ok sy (Fdt.get_cpu_type (CPU_TYPE w)) memory heap stack tf Hme Hsy) as [Ho Hso]; [by rewrite L1|done|done|apply Ht|].
  assert (Hsome : forall v e k, leaf (mem w') (root w') (vpns v) = Some (e, k) -> exists a, a ∈ kernel_layout sy (Fdt.get_cpu_type (CPU_TYPE w)) memory heap stack tf /\ area_leaf a v = Some (e, k)).
  { intros v e k. rewrite (md_leaf _ _ _ Hw). intros (a & Ha & Hl)%layout_some. exists a. by rewrite <- HL. }
  exists w', h. split; [done|]. split_and!.
  - intros v e k Hv (a & Ha & Hl)%Hsome. rewrite (area_leaf_flags a v e k) by done. by apply layout_protection in Ha as [-> _].
  - intros v e k Hv Hhi (a & Ha & Hl)%Hsome. rewrite !(area_leaf_flags a v e k) by done. destruct (layout_protection _ _ _ _ _ _ _ Ha) as [_ [->|H1]]; [|done].
    exfalso. assert (av (memory_area memory) <= v < aend (memory_area memory)) by (apply area_leaf_some; [by eapply Forall_forall in Ho|done|by eexists]).
    destruct (memory_area_ok memory Hme) as [_ Em]. pose proof (me_top _ Hme). unfold HIGH_HALF_PHYS_START in Hhi. lia.
  - intros v [Hv|Hv].
    + apply (segment_leaf w' L _ 0 (_text_start sy) (_text_end sy) (or_flags [READ; EXECUTE; ACCESSED]) v Hw HL Ho Hso); [|apply (so_text _ Hsy)|done|done].
      unfold kernel_layout. rewrite elem_of_app. right. do 1 right. by left.
    + apply (segment_leaf w' L _ 0 (_rodata_start sy) (_rodata_end sy) (or_flags [READ; ACCESSED]) v Hw HL Ho Hso); [|apply (so_rodata _ Hsy)|done|done].
      unfold kernel_layout. rewrite elem_of_app. right. do 2 right. by left.
Qed.

(** ** The heap as it grows *)

(** The address space of [w] is the layout with the heap frames [fs]. *)
Record kernel_space (sy : symbols) (memory : Region) (w : world (A := A)) (fs stack tf : list Z) : Prop := {
  ks_ok : mapper_ok (mem w) (root w) (frames w);
  ks_in : forall a i f off, a ∈ kernel_layout sy (Fdt.get_cpu_type (CPU_TYPE w)) memory fs stack tf -> aframes a !! i = Some f -> 0 <= off < psize (asize a) ->
    leaf (mem w) (root w) (vpns (av a + Z.of_nat i * psize (asize a) + off)) = Some (pte_set f (aflags a), level (asize a));
  ks_out : forall v, canonical v -> (forall a, a ∈ kernel_layout sy (Fdt.get_cpu_type (CPU_TYPE w)) memory fs stack tf -> ~ av a <= v < aend a) ->
    leaf (mem w) (root w) (vpns v) = None;
  ks_end : KERNEL_HEAP_END w = KERNEL_HEAP_START + Z.of_nat (length fs) * 4096;
  ks_room : KERNEL_HEAP_END w <= KERNEL_STACK_START - KERNEL_STACK_STARTING_SIZE;
  ks_lens : length stack = 16%nat /\ length tf = 1%nat;
  ks_frames : Forall frame_ok (stack ++ fs ++ tf);
  ks_nodup : NoDup (stack ++ fs ++ tf);
  ks_taken : forall f, f ∈ stack ++ fs ++ tf -> f ∉ free_frames (frames w) }.

Lemma ks_heap_nodup sy memory w fs stack tf : kernel_space sy memory w fs stack tf -> NoDup fs.
Proof. intros Hks. pose proof (ks_nodup _ _ _ _ _ _ Hks) as N. rewrite !NoDup_app in N. apply N. Qed.

Lemma init_space sy w memory k : frame_inv (frames w) -> (forall f, f ∈ free_frames (frames w) -> frame_ok f) ->
  (frames_needed sy memory + k <= length (free_frames (frames w)))%nat -> memory_ok memory -> symbols_ok sy ->
  KERNEL_HEAP_END w = KERNEL_HEAP_START + KERNEL_HEAP_SIZE ->
  exists w' h fs stack tf, init sy w memory = Ret (w', h) /\ kernel_space sy memory w' fs stack tf /\ length fs = 4%nat /\
    (k <= length (free_frames (frames w')))%nat /\ CPU_TYPE w' = CPU_TYPE w /\ forall b, page b ∉ free_frames (frames w) -> mem w' b = mem w b.
Proof.
  intros Hi Hfr Hk Hme Hsy He.
  destruct (init_ok (m0 := mem w) (F0 := free_frames (frames w)) sy w memory k ltac:(done) ltac:(done) Hi Hfr Hk Hme Hsy) as (w' & h & L & heap & stack & tf & E & _ & Hw & HL & L1 & L2 & L3 & Ht & _ & _ & He' & Hcpu & _).
  destruct (kernel_layout_ok sy (Fdt.get_cpu_type (CPU_TYPE w)) memory heap stack tf Hme Hsy) as [Ho Hso]; [by rewrite L1|done|done|apply Ht|].
  exists w', h, heap, stack, tf. split; [done|]. destruct Ht as (N & O & T). split; [|split_and!; [done|apply (md_free _ _ _ Hw)|done|apply (kp_mem _ _ _ (md_keeps _ _ _ Hw))]]. split; rewrite ?Hcpu; try done.
  - apply (md_ok _ _ _ Hw).
  - intros a i f off. by eapply (mapped_leaf w' L _ k).
  - intros v. by eapply (mapped_none w' L _ k).
  - by rewrite He', He, L1.
  - by rewrite He', He.
  - intros f Hf. by apply T.
Qed.

Definition heap_area (cpu : Fdt.CpuType) (fs : list Z) : area := mkArea KERNEL_HEAP_START Size4K fs (data_flags cpu).

(** The other areas. *)
Definition layout_low (sy : symbols) (cpu : Fdt.CpuType) (memory : Region) : list area :=
  mmio_areas cpu ++ [memory_area memory; segment (_text_start sy) (_text_end sy) (or_flags [READ; EXECUTE; ACCESSED]);
    segment (_rodata_start sy) (_rodata_end sy) (or_flags [READ; ACCESSED]); segment (_data_start sy) (_data_end sy) (data_flags cpu);
    segment (_bss_start sy) (_bss_end sy) (data_flags cpu)].

Definition layout_high (sy : symbols) (cpu : Fdt.CpuType) (stack tf : list Z) : list area :=
  [mkArea (KERNEL_STACK_START - KERNEL_STACK_STARTING_SIZE) Size4K stack (data_flags cpu); mkArea TRAMPOLINE_TRAP_FRAME Size4K tf (data_flags cpu); trampoline_area sy].

Lemma layout_split sy cpu memory fs stack tf a : a ∈ kernel_layout sy cpu memory fs stack tf <-> a = heap_area cpu fs \/ a ∈ layout_low sy cpu memory ++ layout_high sy cpu stack tf.
Proof.
  replace (kernel_layout sy cpu memory fs stack tf) with (layout_low sy cpu memory ++ heap_area cpu fs :: layout_high sy cpu stack tf)
    by (unfold layout_low; by rewrite <- app_assoc). rewrite !elem_of_app, elem_of_cons. tauto.
Qed.

Lemma heap_apart sy cpu memory fs stack tf a : StronglySorted below (kernel_layout sy cpu memory fs stack tf) ->
  a ∈ layout_low sy cpu memory ++ layout_high sy cpu stack tf -> aend a <= KERNEL_HEAP_START \/ aend (heap_area cpu fs) <= av a.
Proof.
  replace (kernel_layout sy cpu memory fs stack tf) with (layout_low sy cpu memory ++ heap_area cpu fs :: layout_high sy cpu stack tf)
    by (unfold layout_low; by rewrite <- app_assoc). generalize (layout_low sy cpu memory) (layout_high sy cpu stack tf). intros l1 l2 Hs.
  induction l1 as [|b l1 IH]; intros Ha; inversion Hs as [|? ? Hs' Hb]; subst.
  - right. cbn in Ha. by eapply Forall_forall in Hb.
  - cbn in Ha. apply elem_of_cons in Ha as [->|Ha]; [left|by apply IH]. rewrite Forall_app, Forall_cons in Hb. by destruct Hb as (_ & Hb & _).
Qed.

(** Addresses of the heap, as numbers. *)
Ltac heap_nums := unfold heap_area, aend, abytes in *; cbn [asize aframes av psize] in *;
  unfold KERNEL_STACK_START, KERNEL_STACK_STARTING_SIZE, HIGH_HALF_PHYS_START, KERNEL_HEAP_START, USIZE in *.

Lemma space_layout sy memory w fs stack tf gs : memory_ok memory -> symbols_ok sy -> kernel_space sy memory w fs stack tf ->
  KERNEL_HEAP_END w + Z.of_nat (length gs) * 4096 <= KERNEL_STACK_START - KERNEL_STACK_STARTING_SIZE -> Forall frame_ok gs ->
  Forall area_ok (kernel_layout sy (Fdt.get_cpu_type (CPU_TYPE w)) memory (fs ++ gs) stack tf) /\
  StronglySorted below (kernel_layout sy (Fdt.get_cpu_type (CPU_TYPE w)) memory (fs ++ gs) stack tf).
Proof.
  intros Hme Hsy Hks Hroom Hgf. pose proof (ks_frames _ _ _ _ _ _ Hks) as Hf. rewrite !Forall_app in Hf. destruct (ks_lens _ _ _ _ _ _ Hks). pose proof (ks_end _ _ _ _ _ _ Hks).
  apply kernel_layout_ok; try done; [|rewrite !Forall_app; naive_solver]. rewrite length_app. lia.
Qed.

(** The pages behind the heap are free. *)
Lemma space_behind sy memory w fs stack tf n v : memory_ok memory -> symbols_ok sy -> kernel_space sy memory w fs stack tf ->
  KERNEL_HEAP_END w + Z.of_nat n * 4096 <= KERNEL_STACK_START - KERNEL_STACK_STARTING_SIZE -> KERNEL_HEAP_END w <= v < KERNEL_HEAP_END w + Z.of_nat n * 4096 ->
  leaf (mem w) (root w) (vpns v) = None.
Proof.
  intros Hme Hsy Hks Hroom Hv. pose proof (ks_end _ _ _ _ _ _ Hks) as He.
  destruct (space_layout sy memory w fs stack tf (replicate n 0) Hme Hsy Hks) as [_ Hso]; [by rewrite length_replicate|by apply Forall_replicate|].
  apply (ks_out _ _ _ _ _ _ Hks); [right; heap_nums; lia|]. intros a Ha. apply layout_split in Ha as [->|Ha]; [heap_nums; lia|].
  apply (heap_apart _ _ _ _ _ _ _ Hso) in Ha. heap_nums. rewrite length_app, length_replicate in Ha. lia.
Qed.

(** A new area changes no translation outside it. *)
Lemma area_elsewhere m m' r na v : area_ok na -> canonical v -> ~ av na <= v < aend na ->
  (forall v, leaf m' r (vpns v) = match area_leaf na v with Some y => Some y | None => leaf m r (vpns v) end) -> leaf m' r (vpns v) = leaf m r (vpns v).
Proof.
  intros Hna Hv Hn Hl. rewrite Hl. destruct (area_leaf na v) eqn:Ea; [|done]. exfalso. apply Hn. apply (area_leaf_some na v); [done..|by eexists].
Qed.

Lemma space_extend sy memory w fs stack tf gs m' a' : memory_ok memory -> symbols_ok sy -> kernel_space sy memory w fs stack tf ->
  KERNEL_HEAP_END w + Z.of_nat (length gs) * 4096 <= KERNEL_STACK_START - KERNEL_STACK_STARTING_SIZE ->
  mapper_ok m' (root w) a' -> fewer (frames w) a' -> taken (frames w) a' gs ->
  (forall v, leaf m' (root w) (vpns v) =
     match area_leaf (mkArea (KERNEL_HEAP_END w) Size4K gs (data_flags (Fdt.get_cpu_type (CPU_TYPE w)))) v with Some y => Some y | None => leaf (mem w) (root w) (vpns v) end) ->
  kernel_space sy memory (mkWorld m' a' (root w) (KERNEL_HEAP_END w + Z.of_nat (length gs) * 4096) (LAST_L1_PTE w) (CPU_TYPE w) (satp_csr w) (trap_frame w)) (fs ++ gs) stack tf.
Proof.
  intros Hme Hsy Hks Hroom Hok' Hsub (Hnd' & Hfo & Htk) Hl'. destruct (space_layout sy memory w fs stack tf gs Hme Hsy Hks Hroom Hfo) as [Ho' Hso'].
  destruct Hks as [Hok Hin Hout He Hr Hlens Hf Hnd Ht]. set (na := mkArea (KERNEL_HEAP_END w) Size4K gs _) in Hl'. set (e := KERNEL_HEAP_END w) in *.
  assert (Hna : area_ok na) by (apply small_ok; [heap_nums; lia|heap_nums; lia|heap_nums; lia|done]).
  assert (Hold : forall v, canonical v -> ~ e <= v < e + Z.of_nat (length gs) * 4096 -> leaf m' (root w) (vpns v) = leaf (mem w) (root w) (vpns v)).
  { intros v Hv Hn'. by apply (area_elsewhere _ _ _ na). }
  split; cbn [mem frames root KERNEL_HEAP_END CPU_TYPE].
  - done.
  - intros a i f off Ha Hfi Hoff. apply layout_split in Ha as [->|Ha].
    + cbn [heap_area av asize aframes aflags level] in *. change (psize Size4K) with 4096 in *. apply lookup_app_Some in Hfi as [Hfi|[Hge Hfi]].
      * apply lookup_lt_Some in Hfi as Hlt. rewrite Hold; [|right; heap_nums; lia|heap_nums; lia]. apply (Hin (heap_area _ fs) i f off); [apply layout_split; by left|done|done].
      * pose proof (area_leaf_inside na (i - length fs) f off Hna Hfi Hoff) as Hx. cbn [na av asize aflags level] in Hx. change (psize Size4K) with 4096 in *. rewrite Hl'.
        replace (KERNEL_HEAP_START + Z.of_nat i * 4096 + off) with (e + Z.of_nat (i - length fs) * 4096 + off) by (heap_nums; lia). by rewrite Hx.
    + assert (Hao : area_ok a) by (eapply Forall_forall; [exact Ho'|]; apply layout_split; by right).
      assert (Hva : av a <= av a + Z.of_nat i * psize (asize a) + off < aend a).
      { apply lookup_lt_Some in Hfi. unfold aend, abytes. destruct (psize_cases (asize a)) as [Ep|[Ep|Ep]]; rewrite Ep in *; lia. }
      pose proof (heap_apart _ _ _ _ _ _ _ Hso' Ha) as Hap. assert (Eh : aend (heap_area (Fdt.get_cpu_type (CPU_TYPE w)) (fs ++ gs)) = e + Z.of_nat (length gs) * 4096) by (heap_nums; rewrite length_app; lia).
      rewrite Eh in Hap. rewrite Hold; [apply Hin; [apply layout_split; by right|done|done]|destruct (ao_half _ Hao); unfold canonical; lia|heap_nums; lia].
  - intros v Hv Hno. assert (Hv' := Hno (heap_area _ (fs ++ gs)) ltac:(apply layout_split; by left)). heap_nums. rewrite length_app in Hv'.
    rewrite Hold by (done || lia). apply Hout; [done|]. intros a Ha. apply layout_split in Ha as [->|Ha]; [heap_nums; lia|apply Hno, layout_split; by right].
  - rewrite length_app. lia.
  - done.
  - done.
  - rewrite !Forall_app in *. naive_solver.
  - assert (Hp : stack ++ (fs ++ gs) ++ tf ≡ₚ gs ++ stack ++ fs ++ tf) by solve_Permutation. rewrite Hp. apply NoDup_app. split_and!; [done| |done].
    intros f Hf1 Hf2. apply (Ht f Hf2). by apply Htk.
  - intros f. assert (Hp : stack ++ (fs ++ gs) ++ tf ≡ₚ gs ++ stack ++ fs ++ tf) by solve_Permutation. rewrite Hp. intros [Hf1|Hf1]%elem_of_app; [by apply Htk|].
    intros Hx. by apply (Ht f Hf1), Hsub.
Qed.

Lemma grow_kernel_space sy memory w fs stack tf size n : memory_ok memory -> symbols_ok sy -> kernel_space sy memory w fs stack tf ->
  0 <= size -> align_up_to size 4096 = Z.of_nat n * 4096 -> KERNEL_HEAP_END w + Z.of_nat n * 4096 <= KERNEL_STACK_START - KERNEL_STACK_STARTING_SIZE ->
  (3 * n <= length (free_frames (frames w)))%nat ->
  exists w' gs, grow_kernel_heap w size = Ret (Some (KERNEL_HEAP_END w, Z.of_nat n * 4096), w') /\ length gs = n /\ kernel_space sy memory w' (fs ++ gs) stack tf /\
    (length (free_frames (frames w)) <= length (free_frames (frames w')) + 3 * n)%nat /\
    forall v, canonical v -> ~ KERNEL_HEAP_END w <= v < KERNEL_HEAP_END w' -> leaf (mem w') (root w') (vpns v) = leaf (mem w) (root w) (vpns v).
Proof.
  intros Hme Hsy Hks Hs0 Hn Hroom Hfree. pose proof (ks_end _ _ _ _ _ _ Hks) as He.
  pose proof (align_up_to_ge size 12 ltac:(lia)) as Hge. change (2 ^ 12) with 4096 in Hge. rewrite Hn in Hge.
  destruct (allocate_and_map_pages_leaf (mem w) (frames w) (root w) (KERNEL_HEAP_END w) n (Z.lor RW_AD (thead_mem_flags w)) false)
    as (m' & a' & gs & E & Hok' & [Hu Hsub] & Hlen & Hnd' & Hfo & Htk & Hl); [apply (ks_ok _ _ _ _ _ _ Hks)|heap_nums; lia|heap_nums; lia|done| |].
  { intros i Hi x k. rewrite (space_behind sy memory w fs stack tf n) by (done || lia). done. }
  unfold grow_kernel_heap. rewrite align_up_page by (unfold PAGE_SIZE; heap_nums; lia). cbn [obind]. rewrite Hn, (proj2 (Z.ltb_lt _ _)) by (heap_nums; lia).
  unfold kmap_new, allocate_and_map_pages. rewrite E. cbn [obind]. eexists _, gs. split; [reflexivity|]. split; [done|]. rewrite <- Hlen in *.
  set (na := mkArea (KERNEL_HEAP_END w) Size4K gs (data_flags (Fdt.get_cpu_type (CPU_TYPE w)))).
  assert (Hl' : forall v, leaf m' (root w) (vpns v) = match area_leaf na v with Some y => Some y | None => leaf (mem w) (root w) (vpns v) end).
  { intros v. rewrite Hl. unfold area_leaf. cbn [na aframes aflags asize]. rewrite data_flags_eq. change (aidx _ v) with (pidx (KERNEL_HEAP_END w) v). by destruct (gs !! _). }
  split; [by apply (space_extend sy memory w fs stack tf gs m' a')|]. split; [exact Hu|]. intros v Hv Hn'. apply (area_elsewhere _ _ _ na); try done.
  apply small_ok; [heap_nums; lia|heap_nums; lia|heap_nums; lia|done].
Qed.

(** A run of the kernel allocates in the heap, which calls [grow_kernel_heap]. *)
Definition grow_heap (w : world (A := A)) (sizes : list Z) : outcome world :=
  ofold (fun w size => let! ' (_, w) := grow_kernel_heap w size in Ret w) sizes w.

Definition pages_of (size : Z) : nat := Z.to_nat (align_up_to size 4096 / 4096).
Definition pages_of_all (sizes : list Z) : nat := sum_list_with pages_of sizes.

Lemma grow_heap_space sy memory stack tf sizes : memory_ok memory -> symbols_ok sy -> Forall (fun s => 0 <= s) sizes -> forall w fs,
  kernel_space sy memory w fs stack tf -> (3 * pages_of_all sizes <= length (free_frames (frames w)))%nat ->
  KERNEL_HEAP_END w + Z.of_nat (pages_of_all sizes) * 4096 <= KERNEL_STACK_START - KERNEL_STACK_STARTING_SIZE ->
  exists w' gs, grow_heap w sizes = Ret w' /\ kernel_space sy memory w' (fs ++ gs) stack tf /\ length gs = pages_of_all sizes /\
    forall v, canonical v -> ~ KERNEL_HEAP_END w <= v < KERNEL_HEAP_END w' -> leaf (mem w') (root w') (vpns v) = leaf (mem w) (root w) (vpns v).
Proof.
  intros Hme Hsy Hpos. unfold grow_heap. induction Hpos as [|size sizes Hs _ IH]; intros w fs Hks Hfree Hroom.
  { exists w, []. by rewrite app_nil_r. }
  cbn [ofold]. unfold pages_of_all in *. cbn [sum_list_with] in *.
  destruct (grow_kernel_space sy memory w fs stack tf size (pages_of size) Hme Hsy Hks Hs) as (w1 & gs & -> & Hlen & Hks1 & Hf1 & Ho1); [|lia|lia|].
  { unfold pages_of. pose proof (align_up_to_mod size 12 ltac:(lia)). pose proof (align_up_to_ge size 12 ltac:(lia)). change (2 ^ 12) with 4096 in *. lia. }
  cbn [obind]. pose proof (ks_end _ _ _ _ _ _ Hks). pose proof (ks_end _ _ _ _ _ _ Hks1) as He1. rewrite length_app, Hlen in He1.
  destruct (IH w1 (fs ++ gs) Hks1) as (w' & gs' & -> & Hks' & Hlen' & Ho'); [lia|lia|]. exists w', (gs ++ gs'). rewrite app_assoc, length_app. split_and!; [done|done|lia|].
  pose proof (ks_end _ _ _ _ _ _ Hks') as He'. rewrite !length_app in *. intros v Hv Hn. rewrite Ho', Ho1 by (done || lia). done.
Qed.

(** Translation of the heap. *)
Lemma space_heap sy memory w fs stack tf i f off : kernel_space sy memory w fs stack tf -> fs !! i = Some f -> 0 <= off < 4096 ->
  kernel_virt_to_phys w (KERNEL_HEAP_START + Z.of_nat i * 4096 + off) = Some (f + off).
Proof.
  intros Hks Hi Ho. unfold kernel_virt_to_phys.
  rewrite (translate _ _ _ f (data_flags (Fdt.get_cpu_type (CPU_TYPE w))) Size4K); [|apply (ks_in _ _ _ _ _ _ Hks (heap_area _ fs) i f off)|done|apply data_flags_ok|].
  - do 2 f_equal. change (psize Size4K) with 4096. unfold KERNEL_HEAP_START. lia.
  - apply layout_split. by left.
  - done.
  - done.
  - pose proof (ks_frames _ _ _ _ _ _ Hks) as Hf. rewrite !Forall_app in Hf. destruct Hf as (_ & Hf & _). exact (Forall_lookup_1 _ _ _ _ Hf Hi).
Qed.

(** C17: from start-up on, however the heap grows, the address space is the
    layout with a longer heap: while free frames last and the heap stays below the
    kernel stack, [init] and any sequence of calls of [grow_kernel_heap] return;
    afterwards the page at every offset of the heap is backed by a frame of its
    own, which is not free and backs neither the kernel stack nor the trap frame,
    and every translation outside the pages added is the one [init] left. *)
Theorem kernel_heap_invariant sy w memory sizes (Hi : frame_inv (frames w)) (Hfr : forall f, f ∈ free_frames (frames w) -> frame_ok f)
    (Hk : (frames_needed sy memory + 3 * pages_of_all sizes <= length (free_frames (frames w)))%nat) (Hme : memory_ok memory) (Hsy : symbols_ok sy)
    (He : KERNEL_HEAP_END w = KERNEL_HEAP_START + KERNEL_HEAP_SIZE) (Hpos : Forall (fun s => 0 <= s) sizes)
    (Hroom : KERNEL_HEAP_START + KERNEL_HEAP_SIZE + Z.of_nat (pages_of_all sizes) * 4096 <= KERNEL_STACK_START - KERNEL_STACK_STARTING_SIZE) :
  exists w0 h w' fs stack tf, init sy w memory = Ret (w0, h) /\ grow_heap w0 sizes = Ret w' /\
    length fs = (4 + pages_of_all sizes)%nat /\ kernel_space sy memory w' fs stack tf /\
    NoDup (stack ++ fs ++ tf) /\ (forall f, f ∈ fs -> f ∉ free_frames (frames w')) /\
    (forall i f off, fs !! i = Some f -> 0 <= off < 4096 -> kernel_virt_to_phys w' (KERNEL_HEAP_START + Z.of_nat i * 4096 + off) = Some (f + off)) /\
    forall v, canonical v -> ~ KERNEL_HEAP_START + KERNEL_HEAP_SIZE <= v < KERNEL_HEAP_START + Z.of_nat (length fs) * 4096 ->
      leaf (mem w') (root w') (vpns v) = leaf (mem w0) (root w0) (vpns v).
Proof.
  destruct (init_space sy w memory (3 * pages_of_all sizes) Hi Hfr Hk Hme Hsy He) as (w0 & h & fs & stack & tf & E & Hks & Hlen & Hfree & _).
  pose proof (ks_end _ _ _ _ _ _ Hks) as He0. rewrite Hlen in He0.
  destruct (grow_heap_space sy memory stack tf sizes Hme Hsy Hpos w0 fs Hks Hfree) as (w' & gs & E' & Hks' & Hlen' & Ho).
  { rewrite He0. exact Hroom. }
  exists w0, h, w', (fs ++ gs), stack, tf. split_and!; [done|done|rewrite length_app; lia|done|apply (ks_nodup _ _ _ _ _ _ Hks')| | |].
  - intros f Hf. apply (ks_taken _ _ _ _ _ _ Hks'). rewrite !elem_of_app in *. tauto.
  - intros i f off. by apply (space_heap sy memory w' (fs ++ gs) stack tf).
  - intros v Hv Hn. apply Ho; [done|]. rewrite (ks_end _ _ _ _ _ _ Hks'), He0. exact Hn.
Qed.

End Init.

(** ** An example: QEMU with 128 megabytes *)
Definition qemu_memory : Region := mkRegion 0x8000_0000 0x8800_0000.
Definition qemu_symbols : symbols :=
  mkSymbols 0xffff_ffff_8020_3000 0xffff_ffff_8023_1234 0xffff_ffff_8023_2000 0xffff_ffff_8024_0010
    0xffff_ffff_8024_1000 0xffff_ffff_8024_2100 0xffff_ffff_8024_3000 0xffff_ffff_8024_9000
    0xffff_ffff_fffe_0000 0x8024_9000 0xffff_ffff_fffe_1000.

Definition qemu_blocks : list (Z * nat) := [(0x8100_0000, Z.to_nat 4096)].
Definition qemu_pages : Pages.PageAllocator := Pages.mkPA (Some 0x8100_0000) 4096 4096 {[ 0x8100_0000 := Pages.mkNode None 4096 ]}.
Definition qemu_world : world := mkWorld demo_mem qemu_pages 0 (KERNEL_HEAP_START + KERNEL_HEAP_SIZE) 0 1 0 (0, 0).

Lemma qemu_pages_eq : Pages.pages qemu_blocks = Pages.block_pages 0x8100_0000 (Z.to_nat 4096).
Proof. unfold qemu_blocks. rewrite Pages.pages_cons. apply app_nil_r. Qed.

Lemma qemu_page x : x ∈ Pages.pages qemu_blocks -> x mod 4096 = 0 /\ 0x8100_0000 <= x < 0x8200_0000.
Proof. rewrite qemu_pages_eq, Pages.block_pages_spec. intros (i & Hi & ->). unfold PAGE_SIZE. lia. Qed.

Lemma qemu_rep : Pages.rep qemu_pages qemu_blocks.
Proof.
  split.
  - split_and!; [done|lia|]. exists None. split; [|done]. rewrite Z2Nat.id by lia. reflexivity.
  - rewrite qemu_pages_eq. apply Pages.block_pages_nodup.
  - apply Forall_forall. intros x Hx%qemu_page. split; unfold PAGE_SIZE, USIZE; lia.
  - rewrite qemu_pages_eq, Pages.block_pages_len, Z2Nat.id by lia. reflexivity.
Qed.

Lemma qemu_frames : frame_inv (frames qemu_world) /\ (forall f, f ∈ free_frames (frames qemu_world) -> frame_ok f) /\
  (frames_needed qemu_symbols qemu_memory <= length (free_frames (frames qemu_world)))%nat.
Proof.
  cbn [free_frames Pages.page_frames frames qemu_world]. rewrite (Pages.rep_frames _ _ qemu_rep). split_and!; [by exists qemu_blocks; apply qemu_rep|intros f Hf%qemu_page; split; lia|].
  rewrite qemu_pages_eq, Pages.block_pages_len. apply Nat2Z.inj_le. by vm_compute.
Qed.

Lemma qemu_memory_ok : memory_ok qemu_memory.
Proof. split; by vm_compute. Qed.

Lemma qemu_symbols_ok : symbols_ok qemu_symbols.
Proof. split; by vm_compute. Qed.

Lemma kernel_map_spec_witness : exists w' h, init qemu_symbols qemu_world qemu_memory = Ret (w', h) /\
  kernel_virt_to_phys w' 0xffff_ffff_8020_3004 = Some 0x8020_3004 /\ kernel_virt_to_phys w' 0x1000_0005 = Some 0x1000_0005 /\
  kernel_virt_to_phys w' 0x8765_4321 = Some 0x8765_4321 /\ kernel_virt_to_phys w' 0x2000_0000 = None.
Proof.
  destruct qemu_frames as (H1 & H2 & H3).
  destruct (kernel_map_spec qemu_symbols qemu_world qemu_memory H1 H2 H3 qemu_memory_ok qemu_symbols_ok)
    as (w' & h & heap & stack & tf & E & _ & L1 & L2 & L3 & _ & Hin & Hout & _).
  exists w', h. split; [exact E|]. clear H1 H2 H3 E. split_and!.
  - destruct (Hin (segment 0xffff_ffff_8020_3000 0xffff_ffff_8023_1234 (or_flags [READ; EXECUTE; ACCESSED])) 0%nat 0x8020_3000 4) as [_ Hx]; [|vm_compute; reflexivity|cbn; lia|exact Hx].
    unfold kernel_layout. rewrite elem_of_app. right. right. by left.
  - destruct (Hin (fixed_area 0x1000_0000 0x1000_0000 10 RW_AD Size4K) 0%nat 0x1000_0000 5) as [_ Hx]; [|vm_compute; reflexivity|cbn; lia|exact Hx].
    unfold kernel_layout. rewrite elem_of_app. left. right. by left.
  - destruct (Hin (memory_area qemu_memory) 59%nat 0x8760_0000 0x5_4321) as [_ Hx]; [|vm_compute; reflexivity|cbn; lia|exact Hx]. unfold kernel_layout. rewrite elem_of_app. right. by left.
  - apply Hout; [left; lia|]. intros a Ha.
    assert (Hal : Forall (fun a => aend a <= 0x2000_0000 \/ 0x2000_0000 < av a) (kernel_layout qemu_symbols Fdt.Qemu qemu_memory heap stack tf)).
    { apply Forall_app_2; [repeat (apply Forall_cons_2; [left; apply Z.leb_le; vm_compute; reflexivity|]); apply Forall_nil_2|].
      repeat (apply Forall_cons_2; [right; apply Z.ltb_lt; vm_compute; reflexivity|]). apply Forall_nil_2. }
    eapply Forall_forall in Hal; [|exact Ha]. lia.
Defined.

Lemma kernel_map_protection_witness : exists w' h, init qemu_symbols qemu_world qemu_memory = Ret (w', h) /\
  exists e, leaf (mem w') (root w') (vpns 0xffff_ffff_8020_3004) = Some (e, 0%nat) /\ Z.land e WRITE = 0 /\ Z.land e USER = 0.
Proof.
  destruct qemu_frames as (H1 & H2 & H3).
  destruct (kernel_map_protection qemu_symbols qemu_world qemu_memory H1 H2 H3 qemu_memory_ok qemu_symbols_ok) as (w' & h & E & Hu & _ & Ht).
  exists w', h. split; [exact E|]. destruct (Ht 0xffff_ffff_8020_3004) as (e & He & Hw); [left; cbn; lia|]. exists e. split_and!; [done|done|].
  eapply Hu; [|exact He]. clear. right. unfold USIZE. lia.
Defined.
Lemma kernel_heap_invariant_witness : exists w0 h w' (fs stack tf : list Z), init qemu_symbols qemu_world qemu_memory = Ret (w0, h) /\
  grow_heap w0 [5000; 1] = Ret w' /\ length fs = 7%nat /\ NoDup (stack ++ fs ++ tf) /\
  leaf (mem w') (root w') (vpns 0xffff_ffff_8020_3004) = leaf (mem w0) (root w0) (vpns 0xffff_ffff_8020_3004).
Proof.
  destruct qemu_frames as (H1 & H2 & H3).
  assert (H4 : (frames_needed qemu_symbols qemu_memory + 3 * pages_of_all [5000%Z; 1%Z] <= length (free_frames (frames qemu_world)))%nat).
  { clear. cbn [free_frames Pages.page_frames frames qemu_world]. rewrite (Pages.rep_frames _ _ qemu_rep), qemu_pages_eq, Pages.block_pages_len.
    apply Nat2Z.inj_le, Z.leb_le. vm_compute. reflexivity. }
  destruct (kernel_heap_invariant qemu_symbols qemu_world qemu_memory [5000; 1] H1 H2 H4 qemu_memory_ok qemu_symbols_ok)
    as (w0 & h & w' & fs & stack & tf & E & E' & Hlen & _ & Hnd & _ & _ & Ho); [reflexivity|by repeat constructor|apply Z.leb_le; vm_compute; reflexivity|].
  exists w0, h, w', fs, stack, tf. split_and!; [exact E|exact E'|exact Hlen|exact Hnd|]. apply Ho; [right; clear; unfold USIZE; lia|].
  rewrite Hlen. clear. intros [H _]. vm_compute in H. by apply H.
Defined.

End Kinit.
