(* ===== verification/Collections.v ===== *)
(** * Collections (src/src/collections)

    [Ring] is the single-producer single-consumer ring buffer of spsc_ring.rs.
    Each operation is given as the atomic steps it performs (load the indices,
    touch the buffer, store the index), so that besides the sequential
    refinement to a bounded queue there is a theorem about every interleaving of
    one producer and one consumer.  [Lru] is the cache of lru.rs. *)

From S2P Require Import Prelude.

Module Ring.

(** [SpscRing<N>]; [N] is the length of [buf]. *)
Record ring := mkRing { buf : list Z; head : Z; tail : Z }.

Definition N (r : ring) : Z := Z.of_nat (length (buf r)).

Definition new (n : nat) : ring := mkRing (replicate n 0) 0 0.

Definition is_empty (r : ring) : bool := head r =? tail r.

(** [buf[a..a + data.len()].copy_from_slice(data)] *)
Definition write_at (l : list Z) (a : Z) (data : list Z) : outcome (list Z) :=
  if (0 <=? a) && (a + Z.of_nat (length data) <=? Z.of_nat (length l))
  then Ret (take (Z.to_nat a) l ++ data ++ drop (Z.to_nat a + length data) l)
  else Panic.

(** What is available to a producer that saw [head] and [tail]. *)
Definition available (n head tail : Z) : outcome Z :=
  let! x := uadd tail n in
  let! x := usub x head in
  let! x := usub x 1 in
  urem x n.

(** The copy of [push_slice], for [to_copy] bytes at [head]. *)
Definition push_copy (l : list Z) (head : Z) (data : list Z) (to_copy : Z) : outcome (list Z) :=
  let! contiguous := usub (Z.of_nat (length l)) head in
  if to_copy <=? contiguous then write_at l head (take (Z.to_nat to_copy) data)
  else
    let! l := write_at l head (take (Z.to_nat contiguous) data) in
    write_at l 0 (drop (Z.to_nat contiguous) (take (Z.to_nat to_copy) data)).

Definition advance (n head by_ : Z) : outcome Z := let! x := uadd head by_ in urem x n.

Definition push_slice (r : ring) (data : list Z) : outcome (Z * ring) :=
  let h := head r in
  let t := tail r in
  let! avail := available (N r) h t in
  if avail =? 0 then Ret (0, r)
  else
    let to_copy := Z.min (Z.of_nat (length data)) avail in
    let! b := push_copy (buf r) h data to_copy in
    let! h' := advance (N r) h to_copy in
    Ret (to_copy, mkRing b h' (tail r)).

Definition pop (r : ring) : outcome (option Z * ring) :=
  let t := tail r in
  let h := head r in
  if h =? t then Ret (None, r)
  else
    let! byte := expect (buf r !! Z.to_nat t) in
    let! t' := advance (N r) t 1 in
    Ret (Some byte, mkRing (buf r) (head r) t').

(** ** Cells by absolute position

    Positions count bytes ever pushed; the byte at position [k] lives in cell
    [k mod N]. *)
Definition cell (l : list Z) (k : Z) : option Z := l !! Z.to_nat (k mod Z.of_nat (length l)).

Lemma write_at_ok l a data : 0 <= a -> a + Z.of_nat (length data) <= Z.of_nat (length l) ->
  exists l', write_at l a data = Ret l' /\ length l' = length l /\
    forall i, 0 <= i < Z.of_nat (length l) ->
      l' !! Z.to_nat i = if (a <=? i) && (i <? a + Z.of_nat (length data))
                         then data !! Z.to_nat (i - a) else l !! Z.to_nat i.
Proof.
  intros Ha Hl. unfold write_at.
  rewrite (proj2 (Z.leb_le _ _)), (proj2 (Z.leb_le _ _)) by lia. simpl. eexists; split; [done|].
  split; [rewrite !length_app, length_take, length_drop; lia|]. intros i Hi.
  destruct (Z.leb_spec a i), (Z.ltb_spec i (a + Z.of_nat (length data))); simpl.
  - rewrite lookup_app_r; rewrite length_take; [|lia]. rewrite lookup_app_l; [f_equal|]; lia.
  - rewrite lookup_app_r; rewrite length_take; [|lia]. rewrite lookup_app_r by lia.
    rewrite lookup_drop. f_equal. lia.
  - rewrite lookup_app_l; [|rewrite length_take; lia]. apply lookup_take_lt. lia.
  - lia.
Qed.

Lemma mod_cases n h i : 0 < n -> 0 <= h < n -> 0 <= i < n -> (h + i) mod n = if h + i <? n then h + i else h + i - n.
Proof.
  intros. destruct (Z.ltb_spec (h + i) n); [by apply Z.mod_small; lia|].
  symmetry. apply (Z.mod_unique _ _ 1); lia.
Qed.

(** [push_copy] writes [data] at [head], [head + 1], ... modulo the size. *)
Lemma push_copy_ok l h data k :
  let n := Z.of_nat (length l) in
  0 <= h < n -> 0 <= k < n -> k <= Z.of_nat (length data) ->
  exists l', push_copy l h data k = Ret l' /\ length l' = length l /\
    forall i, 0 <= i < n ->
      l' !! Z.to_nat ((h + i) mod n) = if i <? k then data !! Z.to_nat i else l !! Z.to_nat ((h + i) mod n).
Proof.
  intros n Hh Hk Hd. unfold push_copy. fold n. rewrite usub_ok by lia. cbn [obind].
  destruct (Z.leb_spec k (n - h)).
  - destruct (write_at_ok l h (take (Z.to_nat k) data)) as (l' & -> & Hl & Hi);
      [lia|rewrite length_take; lia|].
    eexists; split; [done|]. split; [done|]. intros i Hr. rewrite mod_cases by lia.
    rewrite length_take in Hi. rewrite Hi by (destruct (Z.ltb_spec (h + i) n); lia).
    destruct (Z.ltb_spec (h + i) n), (Z.ltb_spec i k); zcases; simpl; try lia; try done.
    rewrite lookup_take_lt by lia. f_equal. lia.
  - destruct (write_at_ok l h (take (Z.to_nat (n - h)) data)) as (l1 & -> & Hl1 & Hi1);
      [lia|rewrite length_take; lia|]. cbn [obind].
    destruct (write_at_ok l1 0 (drop (Z.to_nat (n - h)) (take (Z.to_nat k) data))) as (l' & -> & Hl & Hi);
      [lia|rewrite length_drop, length_take; lia|].
    eexists; split; [done|]. split; [lia|]. intros i Hr. rewrite mod_cases by lia.
    rewrite length_take in Hi1. rewrite length_drop, length_take in Hi.
    rewrite Hi by (destruct (Z.ltb_spec (h + i) n); lia).
    destruct (Z.ltb_spec (h + i) n), (Z.ltb_spec i k); zcases; simpl; try lia; try done;
      rewrite ?Hi1 by lia; zcases; simpl; try lia; try done.
    + rewrite lookup_take_lt by lia. f_equal. lia.
    + rewrite lookup_drop, lookup_take_lt by lia. f_equal. lia.
Qed.

(** ** The bounded queue *)

(** A usable size: the index arithmetic [tail + N] stays in range. *)
Definition size_ok (n : Z) : Prop := 0 < n < USIZE / 2.

(** Cells [lo, lo + length q) hold [q]. *)
Definition holds (l : list Z) (lo : Z) (q : list Z) : Prop :=
  forall i, 0 <= i < Z.of_nat (length q) -> cell l (lo + i) = q !! Z.to_nat i.

(** The ring holds the queue [q], oldest byte first, at position [lo]. *)
Record queue_at (r : ring) (lo : Z) (q : list Z) : Prop := {
  qa_lo : 0 <= lo;
  qa_size : size_ok (N r);
  qa_tail : tail r = lo mod N r;
  qa_head : head r = (lo + Z.of_nat (length q)) mod N r;
  qa_room : Z.of_nat (length q) < N r;
  qa_cells : holds (buf r) lo q;
}.

Definition queue (r : ring) (q : list Z) : Prop := exists lo, queue_at r lo q.

Lemma mod_eq_close n a b : 0 < n -> a <= b < a + n -> a mod n = b mod n -> a = b.
Proof.
  intros Hn Hab E. pose proof (Z.div_mod a n ltac:(lia)). pose proof (Z.div_mod b n ltac:(lia)).
  rewrite E in *. assert (a / n = b / n); [|lia].
  assert (n * (b / n - a / n) < n) by lia. assert (-n < n * (b / n - a / n)) by lia. nia.
Qed.

Lemma available_ok n hi lo : size_ok n -> 0 <= lo <= hi -> hi < lo + n ->
  available n (hi mod n) (lo mod n) = Ret (n - 1 - (hi - lo)).
Proof.
  intros [Hn Hm] Hlo Hhi. unfold available. assert (USIZE / 2 + USIZE / 2 = USIZE) by done.
  pose proof (Z.mod_pos_bound hi n Hn). pose proof (Z.mod_pos_bound lo n Hn).
  rewrite uadd_ok by lia. cbn [obind]. rewrite usub_ok by lia. cbn [obind]. rewrite usub_ok by lia. cbn [obind].
  unfold urem. rewrite (proj2 (Z.eqb_neq n 0)) by lia. f_equal.
  replace (lo mod n + n - hi mod n - 1) with (n - 1 + (lo mod n - hi mod n)) by lia.
  rewrite <- Zplus_mod_idemp_r, <- Zminus_mod, Zplus_mod_idemp_r.
  replace (n - 1 + (lo - hi)) with (n - 1 - (hi - lo)) by lia. apply Z.mod_small. lia.
Qed.

Lemma advance_ok n a k : size_ok n -> 0 <= k < n -> advance n (a mod n) k = Ret ((a + k) mod n).
Proof.
  intros [Hn Hm] Hk. unfold advance. assert (USIZE / 2 + USIZE / 2 = USIZE) by done.
  pose proof (Z.mod_pos_bound a n Hn). rewrite uadd_ok by lia. cbn [obind]. unfold urem.
  rewrite (proj2 (Z.eqb_neq n 0)) by lia. f_equal. by rewrite Zplus_mod_idemp_l.
Qed.

(** A copy of [k] bytes at position [hi] keeps the cells of the [n - 1] positions
    before [hi + k] that it does not write. *)
Lemma push_copy_cells l hi data k lo :
  let n := Z.of_nat (length l) in
  0 < n -> 0 <= lo <= hi -> 0 <= k -> hi + k < lo + n -> k <= Z.of_nat (length data) ->
  exists l', push_copy l (hi mod n) data k = Ret l' /\ length l' = length l /\
    (forall j, lo <= j < hi -> cell l' j = cell l j) /\ holds l' hi (take (Z.to_nat k) data).
Proof.
  intros n Hn Hlo Hk Hroom Hd. pose proof (Z.mod_pos_bound hi n Hn) as Hb.
  destruct (push_copy_ok l (hi mod n) data k) as (l' & Hrun & Hl & Hc); [done|fold n; lia|done|].
  exists l'. split_and!; [done|done| |].
  - intros j Hj. unfold cell. rewrite Hl. fold n.
    assert (Hji : (j mod n) = ((hi mod n) + (j - hi + n)) mod n).
    { rewrite Zplus_mod_idemp_l. replace (hi + (j - hi + n)) with (j + 1 * n) by lia. by rewrite Z.mod_add by lia. }
    rewrite Hji, Hc by (fold n; lia). destruct (Z.ltb_spec (j - hi + n) k); [lia|done].
  - intros i Hi. rewrite length_take in Hi. unfold cell. rewrite Hl. fold n.
    rewrite <- Zplus_mod_idemp_l, Hc by (fold n; lia).
    destruct (Z.ltb_spec i k); [|lia]. by rewrite lookup_take_lt by lia.
Qed.

Lemma holds_app l lo q k : holds l lo q -> holds l (lo + Z.of_nat (length q)) k -> holds l lo (q ++ k).
Proof.
  intros Hq Hk i Hi. rewrite length_app in Hi. destruct (decide (i < Z.of_nat (length q))).
  - rewrite Hq, lookup_app_l by lia. done.
  - replace (lo + i) with (lo + Z.of_nat (length q) + (i - Z.of_nat (length q))) by lia.
    rewrite Hk, lookup_app_r by lia. f_equal. lia.
Qed.

Lemma holds_tail l lo x q : holds l lo (x :: q) -> cell l lo = Some x /\ holds l (lo + 1) q.
Proof.
  intros Hq. split.
  - specialize (Hq 0). simpl in Hq. rewrite Z.add_0_r in Hq. apply Hq. lia.
  - intros i Hi. replace (lo + 1 + i) with (lo + (i + 1)) by lia. rewrite Hq by (simpl; lia).
    replace (Z.to_nat (i + 1)) with (S (Z.to_nat i)) by lia. done.
Qed.

(** [push_slice] appends as many bytes as fit. *)
Lemma push_slice_queue r q data : queue r q ->
  exists k r', push_slice r data = Ret (k, r') /\ N r' = N r /\
    k = Z.min (Z.of_nat (length data)) (N r - 1 - Z.of_nat (length q)) /\ queue r' (q ++ take (Z.to_nat k) data).
Proof.
  intros (lo & [Hlo Hsz Htl Hhd Hroom Hcells]). pose proof Hsz as [Hn _].
  unfold push_slice. rewrite Htl, Hhd, available_ok by (done || lia). cbn [obind].
  set (L := Z.of_nat (length q)) in *. replace (N r - 1 - (lo + L - lo)) with (N r - 1 - L) by lia.
  destruct (Z.eqb_spec (N r - 1 - L) 0) as [Hz|Hz].
  - exists 0, r. split_and!; [done|done|lia|]. replace (Z.to_nat 0) with 0%nat by lia.
    rewrite take_0, app_nil_r. exists lo. by split.
  - set (k := Z.min (Z.of_nat (length data)) (N r - 1 - L)).
    destruct (push_copy_cells (buf r) (lo + L) data k lo) as (b & Hrun & Hl & Hold & Hnew);
      try (fold (N r)); try lia. fold (N r) in Hrun. rewrite Hrun. cbn [obind].
    rewrite advance_ok by (done || lia). cbn [obind].
    set (r' := mkRing b _ _). assert (HN : N r' = N r) by (unfold N; simpl; by rewrite Hl).
    exists k, r'. split_and!; [done|done|done|]. exists lo.
    assert (Hq' : Z.of_nat (length (q ++ take (Z.to_nat k) data)) = L + k)
      by (rewrite length_app, length_take; lia).
    split; rewrite ?HN, ?Hq'; simpl; try done; [by rewrite Z.add_assoc|lia|].
    apply holds_app; [|done]. intros i Hi. rewrite Hold by lia. by apply Hcells.
Qed.

(** [pop] takes the oldest byte. *)
Lemma pop_queue r q : queue r q ->
  match q with
  | [] => pop r = Ret (None, r)
  | x :: q => exists r', pop r = Ret (Some x, r') /\ N r' = N r /\ queue r' q
  end.
Proof.
  intros (lo & [Hlo Hsz Htl Hhd Hroom Hcells]). pose proof Hsz as [Hn _].
  unfold pop. rewrite Htl, Hhd. destruct q as [|x q].
  - rewrite Z.add_0_r, Z.eqb_refl. done.
  - assert (Hne : (lo + Z.of_nat (length (x :: q))) mod N r <> lo mod N r).
    { intros E. symmetry in E. apply mod_eq_close in E; simpl in *; lia. }
    rewrite (proj2 (Z.eqb_neq _ _) Hne). destruct (holds_tail _ _ _ _ Hcells) as [Hx Hcells'].
    unfold cell in Hx. fold (N r) in Hx. rewrite Hx. cbn [expect obind].
    simpl in Hroom. rewrite advance_ok by (done || lia). cbn [obind].
    eexists; split_and!; [done|done|]. exists (lo + 1). split; simpl; try done; try lia.
    + f_equal. lia.
    + unfold N in *. simpl. lia.
Qed.

(** [is_empty] says whether the queue is. *)
Lemma is_empty_queue r q : queue r q -> is_empty r = bool_decide (q = []).
Proof.
  intros (lo & [Hlo Hsz Htl Hhd Hroom Hcells]). pose proof Hsz as [Hn _]. unfold is_empty. rewrite Htl, Hhd. destruct q as [|x q].
  - by rewrite Z.add_0_r, Z.eqb_refl.
  - rewrite (proj2 (Z.eqb_neq _ _)); [done|]. intros E. symmetry in E. apply mod_eq_close in E; simpl in *; lia.
Qed.

(** A ring holds one queue. *)
Lemma queue_unique q : forall r q', queue r q -> queue r q' -> q = q'.
Proof.
  induction q as [|x q IH]; intros r q' H1%pop_queue H2%pop_queue; destruct q' as [|y q'].
  - done.
  - destruct H2 as (r' & E & _). congruence.
  - destruct H1 as (r' & E & _). congruence.
  - destruct H1 as (r1 & E1 & _ & H1), H2 as (r2 & E2 & _ & H2). rewrite E1 in E2. injection E2 as -> ->. f_equal. by eapply IH.
Qed.

(** a ring is a bounded queue of capacity N - 1.  [push_slice] appends as
    many bytes as fit and returns how many; [pop] removes the oldest byte, and
    returns [None] exactly on the empty queue; neither panics. *)
Theorem ring_refines_queue r q data (Hq : queue r q) :
  (exists k r', push_slice r data = Ret (k, r') /\ N r' = N r /\
     k = Z.min (Z.of_nat (length data)) (N r - 1 - Z.of_nat (length q)) /\
     queue r' (q ++ take (Z.to_nat k) data)) /\
  match q with
  | [] => pop r = Ret (None, r)
  | x :: q => exists r', pop r = Ret (Some x, r') /\ N r' = N r /\ queue r' q
  end.
Proof. split; [by apply push_slice_queue|by apply pop_queue]. Qed.

Definition demo_ring : ring := mkRing [7; 8; 0; 0; 5; 6] 2 4.

Lemma ring_refines_queue_witness :
  (exists k r', push_slice demo_ring [1; 2; 3] = Ret (k, r') /\ N r' = N demo_ring /\
     k = Z.min 3 (N demo_ring - 1 - 4) /\ queue r' ([5; 6; 7; 8] ++ take (Z.to_nat k) [1; 2; 3])) /\
  exists r', pop demo_ring = Ret (Some 5, r') /\ N r' = N demo_ring /\ queue r' [6; 7; 8].
Proof.
  apply (ring_refines_queue demo_ring [5; 6; 7; 8] [1; 2; 3]). exists 4.
  split; try by vm_compute. intros i Hi. simpl in Hi.
  assert (i = 0 \/ i = 1 \/ i = 2 \/ i = 3) as [->|[->|[->| ->]]] by lia; by vm_compute.
Defined.

(** ** One producer, one consumer, any interleaving

    The atomic actions of the two operations: each load and store of an index
    is one step, so the index an operation has read may be stale by the time
    it is used. *)
Inductive producer :=
| PIdle
| PHead (data : list Z) (h : Z)            (* head loaded *)
| PTail (data : list Z) (h t : Z)          (* tail loaded *)
| PCopied (taken : list Z) (h : Z).        (* bytes copied, head not yet stored *)

Inductive consumer :=
| CIdle
| CTail (t : Z)                            (* tail loaded *)
| CHead (t h : Z)                          (* head loaded *)
| CRead (t byte : Z).                      (* byte read, tail not yet stored *)

(** [sent] is what completed pushes have published, [got] what completed pops
    have returned. *)
Record conf := mkConf { rg : ring; pr : producer; co : consumer; sent : list Z; got : list Z }.

Definition pstep (c : conf) (data : list Z) : outcome conf :=
  let r := rg c in
  match pr c with
  | PIdle => Ret (mkConf r (PHead data (head r)) (co c) (sent c) (got c))
  | PHead data h => Ret (mkConf r (PTail data h (tail r)) (co c) (sent c) (got c))
  | PTail data h t =>
      let! avail := available (N r) h t in
      if avail =? 0 then Ret (mkConf r PIdle (co c) (sent c) (got c))
      else
        let to_copy := Z.min (Z.of_nat (length data)) avail in
        let! b := push_copy (buf r) h data to_copy in
        Ret (mkConf (mkRing b (head r) (tail r)) (PCopied (take (Z.to_nat to_copy) data) h) (co c) (sent c) (got c))
  | PCopied taken h =>
      let! h' := advance (N r) h (Z.of_nat (length taken)) in
      Ret (mkConf (mkRing (buf r) h' (tail r)) PIdle (co c) (sent c ++ taken) (got c))
  end.

Definition cstep (c : conf) : outcome conf :=
  let r := rg c in
  match co c with
  | CIdle => Ret (mkConf r (pr c) (CTail (tail r)) (sent c) (got c))
  | CTail t => Ret (mkConf r (pr c) (CHead t (head r)) (sent c) (got c))
  | CHead t h =>
      if h =? t then Ret (mkConf r (pr c) CIdle (sent c) (got c))
      else
        let! byte := expect (buf r !! Z.to_nat t) in
        Ret (mkConf r (pr c) (CRead t byte) (sent c) (got c))
  | CRead t byte =>
      let! t' := advance (N r) t 1 in
      Ret (mkConf (mkRing (buf r) (head r) t') (pr c) CIdle (sent c) (got c ++ [byte]))
  end.

Inductive reachable (n : nat) : conf -> Prop :=
| reach_new : reachable n (mkConf (new n) PIdle CIdle [] [])
| reach_push c data c' : reachable n c -> pstep c data = Ret c' -> reachable n c'
| reach_pop c c' : reachable n c -> cstep c = Ret c' -> reachable n c'.

Definition len (l : list Z) : Z := Z.of_nat (length l).

(** Indices are the positions modulo N; what an operation has read may lag. *)
Definition producer_ok (n : Z) (c : conf) : Prop :=
  let hi := len (sent c) in let lo := len (got c) in
  match pr c with
  | PIdle => True
  | PHead _ h => h = hi mod n
  | PTail _ h t => h = hi mod n /\ exists lo0, 0 <= lo0 <= lo /\ hi < lo0 + n /\ t = lo0 mod n
  | PCopied taken h => h = hi mod n /\ hi + len taken < lo + n /\ holds (buf (rg c)) hi taken
  end.

Definition consumer_ok (n : Z) (c : conf) : Prop :=
  let hi := len (sent c) in let lo := len (got c) in
  match co c with
  | CIdle => True
  | CTail t => t = lo mod n
  | CHead t h => t = lo mod n /\ exists hi0, lo <= hi0 <= hi /\ h = hi0 mod n
  | CRead t byte => t = lo mod n /\ lo < hi /\ sent c !! length (got c) = Some byte
  end.

Record conf_ok (n : Z) (c : conf) : Prop := {
  co_size : N (rg c) = n;
  co_head : head (rg c) = len (sent c) mod n;
  co_tail : tail (rg c) = len (got c) mod n;
  co_room : len (got c) <= len (sent c) < len (got c) + n;
  co_fifo : got c = take (length (got c)) (sent c);
  co_cells : forall k, len (got c) <= k < len (sent c) -> cell (buf (rg c)) k = sent c !! Z.to_nat k;
  co_producer : producer_ok n c;
  co_consumer : consumer_ok n c;
}.

Lemma pstep_ok n c data : size_ok n -> conf_ok n c -> exists c', pstep c data = Ret c' /\ conf_ok n c'.
Proof.
  intros Hn [Hsz Hhd Htl Hroom Hfifo Hcells Hp Hc]. pose proof Hn as [Hpos _]. unfold pstep.
  unfold producer_ok in Hp. destruct (pr c) as [|d h|d h t|tk h] eqn:Ep.
  - eexists; split; [done|]. by split.
  - eexists; split; [done|]. split; try done. split; [done|]. exists (len (got c)). unfold len in *. simpl. split_and!; (done || lia).
  - destruct Hp as (-> & lo0 & Hlo & Hlt & ->). rewrite Hsz, available_ok by (done || unfold len in *; lia). cbn [obind].
    destruct (Z.eqb_spec (n - 1 - (len (sent c) - lo0)) 0) as [Hz|Hz]; [eexists; split; [done|]; by split|].
    set (k := Z.min (Z.of_nat (length d)) (n - 1 - (len (sent c) - lo0))).
    unfold N in Hsz. destruct (push_copy_cells (buf (rg c)) (len (sent c)) d k (len (got c))) as (b & Hrun & Hl & Hold & Hnew);
      rewrite ?Hsz; try (unfold len in *; lia).
    rewrite Hsz in Hrun. rewrite Hrun. cbn [obind]. eexists; split; [done|]. split; try done; simpl.
    + unfold N. simpl. by rewrite Hl.
    + intros j Hj. rewrite Hold by done. by apply Hcells.
    + split_and!; [done| |done]. simpl. unfold len in *. rewrite length_take. lia.
  - destruct Hp as (-> & Hlt & Hnew). rewrite Hsz. fold (len tk). rewrite advance_ok by (done || unfold len in *; lia).
    cbn [obind]. eexists; split; [done|].
    assert (Hlen : len (sent c ++ tk) = len (sent c) + len tk) by (unfold len; rewrite length_app; lia).
    split; simpl; rewrite ?Hlen; try done.
    + unfold len in *. lia.
    + rewrite take_app_le; [done|]. unfold len in *. lia.
    + intros j Hj. unfold len in *. destruct (decide (j < Z.of_nat (length (sent c)))).
      * rewrite lookup_app_l by lia. apply Hcells. lia.
      * rewrite lookup_app_r by lia.
        replace j with (Z.of_nat (length (sent c)) + (j - Z.of_nat (length (sent c)))) at 1 by lia.
        rewrite Hnew by lia. f_equal. lia.
    + unfold consumer_ok in *. simpl. destruct (co c) as [|t|t h|t byte]; try done.
      * destruct Hc as (-> & hi0 & ? & ->). split; [done|]. exists hi0. unfold len in *. split; [lia|done].
      * destruct Hc as (-> & ? & Hb). unfold len in *. split_and!; [done|lia|]. by apply lookup_app_l_Some.
Qed.

Lemma cstep_ok n c : size_ok n -> conf_ok n c -> exists c', cstep c = Ret c' /\ conf_ok n c'.
Proof.
  intros Hn [Hsz Hhd Htl Hroom Hfifo Hcells Hp Hc]. pose proof Hn as [Hpos _]. unfold cstep.
  unfold consumer_ok in Hc. destruct (co c) as [|t|t h|t byte] eqn:Ec.
  - eexists; split; [done|]. by split.
  - eexists; split; [done|]. split; try done. split; [done|]. exists (len (sent c)). simpl. split; [lia|done].
  - destruct Hc as (-> & hi0 & Hhi & ->). destruct (Z.eqb_spec (hi0 mod n) (len (got c) mod n)) as [E|E].
    { eexists; split; [done|]. by split. }
    assert (Hlt : len (got c) < hi0) by (destruct (decide (hi0 = len (got c))); [by subst|lia]).
    destruct (lookup_lt_is_Some_2 (sent c) (length (got c))) as [x Hx]; [unfold len in *; lia|].
    pose proof (Hcells (len (got c)) ltac:(lia)) as Hcell. unfold cell in Hcell.
    replace (Z.of_nat (length (buf (rg c)))) with n in Hcell by (symmetry; exact Hsz).
    rewrite Hcell. unfold len at 1. rewrite Nat2Z.id, Hx. cbn [expect obind]. eexists; split; [done|].
    split; try done. unfold consumer_ok. simpl. split_and!; [done|lia|done].
  - destruct Hc as (-> & Hlt & Hb). rewrite Hsz, advance_ok; [|done|].
    2: { destruct (decide (n = 1)) as [->|]; [unfold len in *; lia|lia]. }
    cbn [obind]. eexists; split; [done|].
    assert (Hlen : len (got c ++ [byte]) = len (got c) + 1) by (unfold len; rewrite length_app; simpl; lia).
    split; simpl; rewrite ?Hlen; try done; try lia.
    + rewrite length_app. simpl. rewrite Nat.add_1_r, (take_S_r _ _ byte) by done. by rewrite <- Hfifo.
    + intros k Hk. apply Hcells. lia.
    + unfold producer_ok in *. simpl. rewrite Hlen. destruct (pr c); try done.
      * destruct Hp as (-> & lo0 & ? & ? & ->). split; [done|]. exists lo0. split_and!; (done || lia).
      * destruct Hp as (-> & ? & ?). split_and!; (done || lia).
Qed.

(** C36: for every interleaving of one producer and one consumer, started on an
    empty ring of N bytes, no operation panics, the bytes the consumer has got
    are exactly the first bytes the producer has sent, in order, and at most
    N - 1 are in flight. *)
Theorem spsc_interleaving n c (Hn : size_ok (Z.of_nat n)) (Hr : reachable n c) :
  got c = take (length (got c)) (sent c) /\
  0 <= Z.of_nat (length (sent c)) - Z.of_nat (length (got c)) <= Z.of_nat n - 1 /\
  (forall data, exists c', pstep c data = Ret c') /\ (exists c', cstep c = Ret c').
Proof.
  assert (Hok : conf_ok (Z.of_nat n) c).
  { induction Hr as [|c data c' _ IH Hs|c c' _ IH Hs].
    - split; try done; simpl; [unfold N; simpl; by rewrite length_replicate|unfold len; simpl; destruct Hn; lia|].
      intros k Hk. unfold len in Hk. simpl in Hk. lia.
    - destruct (pstep_ok _ c data Hn IH) as (c1 & Hs' & ?). rewrite Hs in Hs'. by injection Hs' as ->.
    - destruct (cstep_ok _ c Hn IH) as (c1 & Hs' & ?). rewrite Hs in Hs'. by injection Hs' as ->. }
  pose proof (co_room _ _ Hok). unfold len in *. split_and!; [apply (co_fifo _ _ Hok)|lia|lia| |].
  - intros data. destruct (pstep_ok _ c data Hn Hok) as (c' & ? & _). eauto.
  - destruct (cstep_ok _ c Hn Hok) as (c' & ? & _). eauto.
Qed.

(** One step of the producer, with the data of its next push, or of the consumer. *)
Definition demo_turn (c : conf) (m : option (list Z)) : conf :=
  match match m with Some data => pstep c data | None => cstep c end with Ret c' => c' | _ => c end.

(** The consumer looks before the bytes are there, then gets the first of them. *)
Definition demo_conf : conf :=
  foldl demo_turn (mkConf (new 4) PIdle CIdle [] []) [Some [7; 8; 9; 10]; None; Some []; None; Some []; None; Some []; None; None; None; None].

Lemma demo_conf_reachable : reachable 4 demo_conf.
Proof.
  unfold demo_conf. generalize (reach_new 4). generalize (mkConf (new 4) PIdle CIdle [] []).
  generalize [Some [7; 8; 9; 10]; None; Some []; None; Some []; None; Some []; None; None; None; None]. intros l.
  induction l as [|m l IH]; intros c Hc; [done|]. cbn [foldl]. apply IH. unfold demo_turn.
  destruct m as [data|]; [destruct (pstep c data) eqn:E; [by eapply reach_push|done..]|destruct (cstep c) eqn:E; [by eapply reach_pop|done..]].
Qed.

Lemma spsc_interleaving_witness : sent demo_conf = [7; 8; 9] /\ got demo_conf = [7] /\
  got demo_conf = take (length (got demo_conf)) (sent demo_conf) /\
  (forall data, exists c', pstep demo_conf data = Ret c') /\ (exists c', cstep demo_conf = Ret c').
Proof.
  destruct (spsc_interleaving 4 demo_conf) as (H1 & _ & H2); [by vm_compute|apply demo_conf_reachable|].
  split; [by vm_compute|]. split; [by vm_compute|]. split; [exact H1|exact H2].
Defined.

End Ring.

Module Lru.

(** [LruCache<K, V>]: slots in order, most recently used first.  An [Arc] is
    its value; whether a clone of it is held outside the cache when [insert]
    runs ([Arc::strong_count > 1]) is the argument [pinned]. *)
Section Lru.
Context {K V : Type} `{EqDecision K}.

Record cache := mkCache { slots : list (K * V); capacity : nat }.

Definition new (capacity : nat) : cache := mkCache [] capacity.

Definition position (key : K) (l : list (K * V)) : option nat :=
  fst <$> list_find (fun s => s.1 = key) l.

Definition get (c : cache) (key : K) : option V * cache :=
  match position key (slots c) with
  | None => (None, c)
  | Some pos =>
      match slots c !! pos with
      | Some entry => (Some entry.2, mkCache (entry :: delete pos (slots c)) (capacity c))
      | None => (None, c)
      end
  end.

(** The backward pass: [i] slots are still to be looked at. *)
Fixpoint evict (pinned : K * V -> bool) (needed i : nat) (l : list (K * V)) : list (K * V) :=
  match i with
  | O => l
  | S i =>
      match needed with
      | O => l
      | S needed' =>
          match l !! i with
          | Some s => if pinned s then evict pinned needed i l
                      else evict pinned needed' i (delete i l)
          | None => l
          end
      end
  end.

Definition insert (pinned : K * V -> bool) (c : cache) (key : K) (value : V) : cache :=
  let needed := (length (slots c) + 1 - capacity c)%nat in
  mkCache ((key, value) :: evict pinned needed (length (slots c)) (slots c)) (capacity c).

Definition keys (c : cache) : list K := (slots c).*1.

Lemma get_spec c key :
  match get c key with
  | (Some v, c') => (key, v) ∈ slots c /\ slots c' ≡ₚ slots c /\ list.head (slots c') = Some (key, v)
  | (None, c') => c' = c /\ key ∉ keys c
  end.
Proof.
  unfold get, position. destruct (list_find _ (slots c)) as [[pos s]|] eqn:E; simpl.
  - apply list_find_Some in E as (Hl & <- & _). rewrite Hl. destruct s as [k v]. simpl. split_and!; [|by apply Permutation_sym, delete_Permutation|done].
    by eapply list_elem_of_lookup_2.
  - split; [done|]. apply list_find_None in E. unfold keys. rewrite list_elem_of_fmap.
    intros (s & -> & Hs). by eapply Forall_forall in E.
Qed.

(** Eviction takes unpinned slots from the end: what it keeps is in order, it
    keeps every pinned slot, and it removes [needed] slots or all unpinned
    ones. *)
Lemma evict_spec pinned : forall l r needed,
  exists l', evict pinned needed (length l) (l ++ r) = l' ++ r /\ l' `sublist_of` l /\
    (forall s, s ∈ l -> pinned s = true -> s ∈ l') /\
    (length l' = length l - Nat.min needed (length (filter (fun s => pinned s = false) l)))%nat.
Proof.
  intros l. induction l as [|s l IH] using rev_ind; intros r needed.
  { exists []. simpl. rewrite Nat.min_0_r. by split_and!; [destruct needed| |..]. }
  rewrite length_app. simpl. rewrite Nat.add_1_r, filter_app. cbn [evict].
  destruct needed as [|needed].
  { exists (l ++ [s]). rewrite !length_app. simpl. split_and!; try done. lia. }
  rewrite <- app_assoc. cbn [app]. rewrite list_lookup_middle by done.
  destruct (pinned s) eqn:Hp.
  - destruct (IH (s :: r) (S needed)) as (l' & -> & Hsub & Hpin & Hlen). exists (l' ++ [s]).
    rewrite <- app_assoc. cbn [app]. split_and!; [done|by apply sublist_app|..].
    + intros x [Hx|Hx]%elem_of_app Hpx; apply elem_of_app; [left; auto|by right].
    + rewrite !length_app, filter_cons_False by (by rewrite Hp). rewrite filter_nil. cbn [length]. rewrite Hlen.
      pose proof (length_filter (fun s => pinned s = false) l). lia.
  - rewrite delete_middle by done. destruct (IH r needed) as (l' & -> & Hsub & Hpin & Hlen). exists l'.
    split_and!; [done|by apply sublist_inserts_r| |].
    + intros x [Hx|Hx]%elem_of_app Hpx; [auto|]. apply list_elem_of_singleton in Hx as ->. congruence.
    + rewrite filter_cons_True by done. rewrite filter_nil, length_app, Hlen. cbn [length].
      pose proof (length_filter (fun s => pinned s = false) l). lia.
Qed.

(** [insert] puts the new entry first, keeps every pinned entry and keeps
    the others in order, evicting from the least recently used end; the cache
    then holds at most [capacity] entries, or just the pinned ones and the new
    one when those alone exceed it. *)
Theorem lru_insert_spec pinned (c : cache) key value :
  let c' := insert pinned c key value in
  exists l, slots c' = (key, value) :: l /\ capacity c' = capacity c /\ l `sublist_of` slots c /\
    (forall s, s ∈ slots c -> pinned s = true -> s ∈ l) /\
    ((length (slots c') <= capacity c)%nat \/
     length (slots c') = S (length (filter (fun s => pinned s = true) (slots c)))).
Proof.
  intros c'. destruct (evict_spec pinned (slots c) [] (length (slots c) + 1 - capacity c)) as (l & Hev & Hsub & Hpin & Hlen).
  rewrite !app_nil_r in Hev. exists l. subst c'. unfold insert. rewrite Hev. cbn [slots capacity length].
  split_and!; try done.
  assert (Hsplit : (length (filter (fun s => pinned s = true) (slots c)) +
                    length (filter (fun s => pinned s = false) (slots c)) = length (slots c))%nat).
  { clear. induction (slots c) as [|s m IH]; [done|]. rewrite !filter_cons.
    destruct (pinned s); repeat case_decide; simplify_eq; simpl; lia. }
  lia.
Qed.

(** After a miss the keys stay distinct. *)
Lemma insert_nodup pinned (c : cache) key value : NoDup (keys c) -> key ∉ keys c ->
  NoDup (keys (insert pinned c key value)).
Proof.
  intros Hnd Hk. destruct (evict_spec pinned (slots c) [] (length (slots c) + 1 - capacity c)) as (l & Hev & Hsub & _ & _).
  rewrite !app_nil_r in Hev. unfold insert, keys in *. simpl. rewrite Hev.
  assert (Hs : l.*1 `sublist_of` (slots c).*1) by (clear -Hsub; induction Hsub; simpl; by constructor).
  constructor; [|by eapply sublist_NoDup].
  intros Hin. apply Hk. by eapply elem_of_sublist.
Qed.

End Lru.
End Lru.
