(* ===== verification/Thread.v ===== *)
(** * Threads: the scheduler, message passing and the context switch

    Models [src/src/thread.rs] and the idle thread of
    [src/src/kthread/idle.rs] on one hart.  A [kernel] holds the thread
    manager, the [CURRENT_THREAD] and [IDLE_THREAD] pointers and the part of
    the hart the switch touches: the callee-saved registers, the program
    counter, the trap vector, [sscratch] and the trampoline trap frame.

    A [*mut Thread] is the id of the thread it points to: the table owns the
    box of thread [id] under key [id], and the idle thread, which is in no
    table, has id 0.  A pointer to a thread that is gone is dangling, and
    using it is a [Fault]. *)

From S2P Require Import Prelude.

Module Thr.

Inductive ThreadState := Running | Ready | Blocked.

#[global] Instance ThreadState_eq_dec : EqDecision ThreadState.
Proof. solve_decision. Defined.

Record Message := mkMessage { sender : Z; data : Z }.

(** types/src/lib.rs: the registers a context switch saves. *)
Record ThreadContext := mkContext {
  sp : Z; ra : Z;
  s0 : Z; s1 : Z; s2 : Z; s3 : Z; s4 : Z; s5 : Z;
  s6 : Z; s7 : Z; s8 : Z; s9 : Z; s10 : Z; s11 : Z }.

Definition ctx_default : ThreadContext := mkContext 0 0 0 0 0 0 0 0 0 0 0 0 0 0.

(** What the scheduler reads of a [process::Context]: where it is, where its
    [ProcessTrapFrame] is, and the user [sp] and [t0] saved there. *)
Record Process := mkProcess { context_ptr : Z; trap_frame : Z; frame_sp : Z; frame_t0 : Z }.

Record Thread := mkThread {
  id : Z;
  state : ThreadState;
  context : ThreadContext;
  stack : Z * Z;              (* address and length of the stack's buffer *)
  inbox : list Message;
  process : option Process }.

Definition with_state (st : ThreadState) (t : Thread) : Thread :=
  mkThread (id t) st (context t) (stack t) (inbox t) (process t).
Definition with_context (c : ThreadContext) (t : Thread) : Thread :=
  mkThread (id t) (state t) c (stack t) (inbox t) (process t).
Definition with_inbox (l : list Message) (t : Thread) : Thread :=
  mkThread (id t) (state t) (context t) (stack t) l (process t).
Definition with_process (p : option Process) (t : Thread) : Thread :=
  mkThread (id t) (state t) (context t) (stack t) (inbox t) p.

(** The trap handlers [stvec] can name and the two uses of [sscratch]. *)
Inductive vector := trap_entry | kernel_trap_entry.
Inductive scratch := TRAMPOLINE_TRAP_FRAME | trap_stack_top.

Record cpu := mkCpu {
  regs : ThreadContext;
  pc : Z;
  stvec : vector;
  sscratch : scratch;
  tramp : Z * Z * Z;          (* kernel_sp, user_sp and t0 of the trampoline frame *)
  CURRENT_CONTEXT : Z }.      (* process::Context::current, null is 0 *)

Record ThreadManager := mkManager {
  thread_table : gmap Z Thread;
  ready_queue : list Z;
  next_id : Z }.

Record kernel := mkKernel {
  manager : ThreadManager;
  CURRENT_THREAD : option Z;
  IDLE_THREAD : option Thread;
  IDLE_ENTRY : Z;
  hart : cpu }.

Definition with_manager (f : ThreadManager -> ThreadManager) (k : kernel) : kernel :=
  mkKernel (f (manager k)) (CURRENT_THREAD k) (IDLE_THREAD k) (IDLE_ENTRY k) (hart k).
Definition with_idle (t : Thread) (k : kernel) : kernel :=
  mkKernel (manager k) (CURRENT_THREAD k) (Some t) (IDLE_ENTRY k) (hart k).
Definition set_current (p : Z) (k : kernel) : kernel :=
  mkKernel (manager k) (Some p) (IDLE_THREAD k) (IDLE_ENTRY k) (hart k).
Definition with_hart (f : cpu -> cpu) (k : kernel) : kernel :=
  mkKernel (manager k) (CURRENT_THREAD k) (IDLE_THREAD k) (IDLE_ENTRY k) (f (hart k)).
Definition table (k : kernel) : gmap Z Thread := thread_table (manager k).
Definition queue (k : kernel) : list Z := ready_queue (manager k).

(** ** ThreadManager *)

Definition manager_new : ThreadManager := mkManager ∅ [] 1.

Definition allocate_thread_id (m : ThreadManager) : Z * ThreadManager :=
  (next_id m, mkManager (thread_table m) (ready_queue m) ((next_id m + 1) mod USIZE)).

Definition set_table (f : gmap Z Thread -> gmap Z Thread) (m : ThreadManager) : ThreadManager :=
  mkManager (f (thread_table m)) (ready_queue m) (next_id m).

Definition add_thread (t : Thread) (m : ThreadManager) : ThreadManager :=
  set_table (fun tt => <[id t := t]> tt) m.

Definition get_thread (i : Z) (m : ThreadManager) : option Thread := thread_table m !! i.

Definition remove_thread (i : Z) (m : ThreadManager) : ThreadManager := set_table (delete i) m.

Definition enqueue_ready (i : Z) (m : ThreadManager) : ThreadManager :=
  mkManager (thread_table m) (ready_queue m ++ [i]) (next_id m).

Definition enqueue_ready_front (i : Z) (m : ThreadManager) : ThreadManager :=
  mkManager (thread_table m) (i :: ready_queue m) (next_id m).

Definition dequeue_ready (m : ThreadManager) : option (Z * ThreadManager) :=
  match ready_queue m with
  | [] => None
  | i :: q => Some (i, mkManager (thread_table m) q (next_id m))
  end.

(** ** Thread *)

Definition STACK_SIZE : Z := 32 * 1024.

(** [Thread::new]: [buf] is where the allocator put the stack. *)
Definition new (entry_point buf : Z) (k : kernel) : outcome (Thread * kernel) :=
  let '(thread_id, m) := allocate_thread_id (manager k) in
  let! sp := uadd buf STACK_SIZE in
  Ret (mkThread thread_id Ready (mkContext sp entry_point 0 0 0 0 0 0 0 0 0 0 0 0)
         (buf, STACK_SIZE) [] None,
       with_manager (fun _ => m) k).

(** [Thread::current]: the pointer, asserted not to be null. *)
Definition current (k : kernel) : outcome Z := expect (CURRENT_THREAD k).

Definition has_current (k : kernel) : bool := bool_decide (is_Some (CURRENT_THREAD k)).

(** Reading and writing through a [*mut Thread]. *)
Definition load (p : Z) (k : kernel) : outcome Thread :=
  if p =? 0 then deref (IDLE_THREAD k) else deref (table k !! p).

Definition store (p : Z) (t : Thread) (k : kernel) : kernel :=
  if p =? 0 then with_idle t k
  else with_manager (set_table (fun tt => <[p := t]> tt)) k.

Definition modify (p : Z) (f : Thread -> Thread) (k : kernel) : outcome kernel :=
  let! t := load p k in
  Ret (store p (f t) k).

Definition set_idle_thread (t : Thread) (entry : Z) (k : kernel) : kernel :=
  mkKernel (manager k) (CURRENT_THREAD k) (Some t) entry (hart k).

(** kthread/idle.rs: [init], with the stack at [buf]. *)
Definition IDLE_STACK_SIZE : Z := 4096.

Definition idle_init (buf idle_entry : Z) (k : kernel) : outcome kernel :=
  let! sp := uadd buf IDLE_STACK_SIZE in
  let t := mkThread 0 Ready (mkContext sp idle_entry 0 0 0 0 0 0 0 0 0 0 0 0)
             (buf, IDLE_STACK_SIZE) [] None in
  Ret (set_idle_thread t idle_entry k).

Definition add (t : Thread) (k : kernel) : Z * kernel :=
  (id t, with_manager (fun m => enqueue_ready (id t) (add_thread t m)) k).

(** ** The context switch *)

(** [save_context_with_ra_in_t1]: on entry [ra] is still the caller's. *)
Definition save_context (k : kernel) : outcome kernel :=
  match CURRENT_THREAD k with
  | None => Fault
  | Some p => modify p (with_context (regs (hart k))) k
  end.

(** [restore_context_asm]: loads the registers and returns to [ra]. *)
Definition restore_context (c : ThreadContext) (h : cpu) : cpu :=
  mkCpu c (ra c) (stvec h) (sscratch h) (tramp h) (CURRENT_CONTEXT h).

Definition use_kernel_traps (h : cpu) : cpu :=
  mkCpu (regs h) (pc h) kernel_trap_entry trap_stack_top (tramp h) (CURRENT_CONTEXT h).

Definition use_user_traps (p : Process) (h : cpu) : cpu :=
  mkCpu (regs h) (pc h) trap_entry TRAMPOLINE_TRAP_FRAME
    (trap_frame p, frame_sp p, frame_t0 p) (CURRENT_CONTEXT h).

Definition set_context (p : Process) (h : cpu) : cpu :=
  mkCpu (regs h) (pc h) (stvec h) (sscratch h) (tramp h) (context_ptr p).

Definition with_sp (x : Z) (c : ThreadContext) : ThreadContext :=
  mkContext x (ra c) (s0 c) (s1 c) (s2 c) (s3 c) (s4 c) (s5 c) (s6 c) (s7 c)
    (s8 c) (s9 c) (s10 c) (s11 c).

Definition jump (x entry : Z) (h : cpu) : cpu :=
  mkCpu (with_sp x (regs h)) entry (stvec h) (sscratch h) (tramp h) (CURRENT_CONTEXT h).

Definition enter_idle (k : kernel) : outcome kernel :=
  match IDLE_THREAD k with
  | None => Panic
  | Some t =>
      let k := set_current 0 (with_idle (with_state Running t) k) in
      let k := with_hart use_kernel_traps k in
      Ret (with_hart (jump (t.(stack).1 + t.(stack).2) (IDLE_ENTRY k)) k)
  end.

Definition schedule (k : kernel) : outcome kernel :=
  match dequeue_ready (manager k) with
  | Some (next_id, m) =>
      let! t := expect (get_thread next_id m) in
      let t := with_state Running t in
      let k := with_manager (fun _ => set_table (fun tt => <[next_id := t]> tt) m) k in
      let k := with_hart (match process t with
                          | Some p => use_user_traps p
                          | None => use_kernel_traps
                          end) k in
      let k := set_current next_id k in
      let k := match process t with
               | Some p => with_hart (set_context p) k
               | None => k
               end in
      Ret (with_hart (restore_context (context t)) k)
  | None => enter_idle k
  end.

Definition start_scheduler (k : kernel) : outcome kernel := schedule k.

Definition schedule_if_ready (k : kernel) : outcome kernel :=
  if bool_decide (queue k = []) then Ret k else schedule k.

(** ** Messages *)

Definition push_msg (msg : Message) (t : Thread) : Thread := with_inbox (inbox t ++ [msg]) t.

(** Wake [i] when it is blocked, putting it in the queue with [enq]. *)
Definition wake (enq : Z -> ThreadManager -> ThreadManager) (i : Z) (t : Thread)
    (m : ThreadManager) : ThreadManager :=
  if bool_decide (state t = Blocked)
  then enq i (set_table (fun tt => <[i := with_state Ready t]> tt) m)
  else set_table (fun tt => <[i := t]> tt) m.

Definition send_message (target_id : Z) (msg : Message) (k : kernel) : kernel :=
  match get_thread target_id (manager k) with
  | Some t => with_manager (wake enqueue_ready target_id (push_msg msg t)) k
  | None => k
  end.

Definition wake_thread (target_id : Z) (k : kernel) : kernel :=
  match get_thread target_id (manager k) with
  | Some t => with_manager (wake enqueue_ready target_id t) k
  | None => k
  end.

(** What an interrupt handler does to the threads: the block driver's
    completion sends a message, the UART's transmit interrupt wakes. *)
Inductive irq := irq_send (target : Z) (msg : Message) | irq_wake (target : Z).

Definition handle_irq (k : kernel) (i : irq) : kernel :=
  match i with
  | irq_send t m => send_message t m k
  | irq_wake t => wake_thread t k
  end.

(** [yield_impl]: [pending] is [None] when [sip & SIE_ALL] is zero, else the
    interrupts that are taken in the window with interrupts enabled. *)
Definition yield_impl (pending : option (list irq)) (k : kernel) : outcome kernel :=
  let! p := current k in
  let! t := load p k in
  let current_id := id t in
  let k := match pending with
           | Some l => foldl handle_irq (with_hart use_kernel_traps k) l
           | None => k
           end in
  let! k := modify p (with_state Ready) k in
  schedule (with_manager (enqueue_ready current_id) k).

Definition yield_now (pending : option (list irq)) (k : kernel) : outcome kernel :=
  let! k := save_context k in
  yield_impl pending k.

Definition exit (k : kernel) : outcome kernel :=
  let! p := current k in
  let! t := load p k in
  schedule (with_manager (remove_thread (id t)) k).

Definition block_impl (k : kernel) : outcome kernel :=
  let! p := current k in
  let! k := modify p (with_state Blocked) k in
  schedule k.

Definition block_now (k : kernel) : outcome kernel :=
  let! k := save_context k in
  block_impl k.

Definition send_message_urgent_impl (target_id : Z) (msg : Message) (k : kernel) : outcome kernel :=
  let! p := current k in
  let! t := load p k in
  let current_id := id t in
  let! k := modify p (with_state Ready) k in
  let k := match get_thread target_id (manager k) with
           | Some t => with_manager (wake enqueue_ready_front target_id (push_msg msg t)) k
           | None => k
           end in
  schedule (with_manager (enqueue_ready current_id) k).

Definition send_message_urgent (target_id : Z) (msg : Message) (k : kernel) : outcome kernel :=
  let! k := save_context k in
  send_message_urgent_impl target_id msg k.

(** One turn of the loop of [receive_message]: a message and the thread goes
    on, or the thread blocks and takes another turn when it runs again. *)
Definition receive_turn (k : kernel) : outcome (option Message * kernel) :=
  let! p := current k in
  let! t := load p k in
  match inbox t with
  | msg :: rest => Ret (Some msg, store p (with_inbox rest t) k)
  | [] => let! k := block_now k in Ret (None, k)
  end.

(** ** The system

    [boxes] are the threads made by [Thread::new] and not yet added: their
    creator owns the box and may still change its context and process, as
    [spawn_process] of kthread/user_process.rs does. *)
Record sys := mkSys { kern : kernel; boxes : list Thread }.

Inductive op :=
| op_new (entry buf : Z)
| op_prepare (n : nat) (c : ThreadContext) (p : option Process)
| op_add (n : nat)
| op_drop (n : nat)
| op_start
| op_run (c : ThreadContext) (x : Z) (p : Process -> Process)
| op_send (target : Z) (msg : Message)
| op_wake (target : Z)
| op_yield (pending : option (list irq))
| op_block
| op_receive
| op_urgent (target : Z) (msg : Message)
| op_exit
| op_idle.

(** When the kernel performs an operation.  The scheduler is started once,
    only the idle loop calls [schedule_if_ready], and the idle loop calls
    nothing else; creating, sending and waking also happen during boot and in
    interrupt handlers. *)
Definition enabled (s : sys) (o : op) : Prop :=
  match o with
  | op_new _ buf => buf + STACK_SIZE < USIZE /\ next_id (manager (kern s)) + 1 < USIZE
  | op_prepare n _ _ | op_add n | op_drop n => (n < length (boxes s))%nat
  | op_start => CURRENT_THREAD (kern s) = None
  | op_run _ _ _ => CURRENT_THREAD (kern s) <> None
  | op_send _ _ | op_wake _ => True
  | op_yield _ | op_block | op_receive | op_urgent _ _ | op_exit =>
      exists p, CURRENT_THREAD (kern s) = Some p /\ p <> 0
  | op_idle => CURRENT_THREAD (kern s) = Some 0
  end.

(** Between switches the running thread changes its registers, and a trap
    from user mode changes the frame its process points to. *)
Definition run (c : ThreadContext) (x : Z) (f : Process -> Process) (k : kernel) : outcome kernel :=
  let! p := current k in
  let! k := modify p (fun t => with_process (f <$> process t) t) k in
  Ret (with_hart (fun h => mkCpu c x (stvec h) (sscratch h) (tramp h) (CURRENT_CONTEXT h)) k).

Definition exec (o : op) (s : sys) : outcome sys :=
  let k := kern s in
  let keep (r : outcome kernel) := let! k := r in Ret (mkSys k (boxes s)) in
  match o with
  | op_new entry buf => let! '(t, k) := new entry buf k in Ret (mkSys k (boxes s ++ [t]))
  | op_prepare n c p => Ret (mkSys k (alter (fun t => with_process p (with_context c t)) n (boxes s)))
  | op_add n =>
      let! t := expect (boxes s !! n) in
      Ret (mkSys (add t k).2 (delete n (boxes s)))
  | op_drop n => Ret (mkSys k (delete n (boxes s)))
  | op_start => keep (start_scheduler k)
  | op_run c x f => keep (run c x f k)
  | op_send target msg => keep (Ret (send_message target msg k))
  | op_wake target => keep (Ret (wake_thread target k))
  | op_yield pending => keep (yield_now pending k)
  | op_block => keep (block_now k)
  | op_receive => keep (let! r := receive_turn k in Ret r.2)
  | op_urgent target msg => keep (send_message_urgent target msg k)
  | op_exit => keep (exit k)
  | op_idle => keep (schedule_if_ready k)
  end.

(** Boot: an empty manager and the idle thread. *)
Definition boot (buf idle_entry : Z) (h : cpu) : outcome kernel :=
  idle_init buf idle_entry (mkKernel manager_new None None 0 h).

Inductive reachable : sys -> Prop :=
| reach_boot buf idle_entry h k : boot buf idle_entry h = Ret k -> reachable (mkSys k [])
| reach_step s o s' : reachable s -> enabled s o -> exec o s = Ret s' -> reachable s'.

(** ** The scheduler's invariant

    [run] is the thread of the table that has the hart, if any. *)
Record minv (m : ThreadManager) (run : option Z) : Prop := {
  mi_id : forall i t, thread_table m !! i = Some t -> id t = i /\ 1 <= i < next_id m;
  mi_nodup : NoDup (ready_queue m);
  mi_ready : forall i, i ∈ ready_queue m <-> exists t, thread_table m !! i = Some t /\ state t = Ready;
  mi_run : forall i, (exists t, thread_table m !! i = Some t /\ state t = Running) <-> run = Some i }.

Definition running (k : kernel) : option Z :=
  match CURRENT_THREAD k with Some p => if p =? 0 then None else Some p | None => None end.

Record inv (s : sys) : Prop := {
  inv_manager : minv (manager (kern s)) (running (kern s));
  inv_idle : exists t, IDLE_THREAD (kern s) = Some t /\ id t = 0;
  inv_next : 1 <= next_id (manager (kern s)) < USIZE;
  inv_boxes : NoDup (id <$> boxes s);
  inv_box : forall t, t ∈ boxes s ->
    1 <= id t < next_id (manager (kern s)) /\ state t = Ready /\ table (kern s) !! id t = None }.

(** Every change of one table entry is an instance of this one. *)
Lemma minv_set m m' run i t t' run' :
  minv m run -> thread_table m !! i = Some t -> id t' = i ->
  thread_table m' = <[i := t']> (thread_table m) -> next_id m' = next_id m ->
  NoDup (ready_queue m') -> (forall j, j <> i -> j ∈ ready_queue m' <-> j ∈ ready_queue m) ->
  (i ∈ ready_queue m' <-> state t' = Ready) ->
  (forall j, j <> i -> run' = Some j <-> run = Some j) ->
  (run' = Some i <-> state t' = Running) ->
  minv m' run'.
Proof.
  intros [Hid Hnd Hr Hrun] Hi Hid' Ht Hn Hnd' Hq Hqi Hr' Hri. split; rewrite ?Ht, ?Hn.
  - intros j u. rewrite lookup_insert_Some. intros [[<- <-]|[? Hu]]; [|by apply Hid].
    split; [done|]. apply (Hid _ _ Hi).
  - done.
  - intros j. destruct (decide (j = i)) as [->|Hj].
    + rewrite Hqi, lookup_insert_eq. naive_solver.
    + rewrite lookup_insert_ne by done. rewrite Hq by done. apply Hr.
  - intros j. destruct (decide (j = i)) as [->|Hj].
    + rewrite Hri, lookup_insert_eq. naive_solver.
    + rewrite lookup_insert_ne by done. rewrite Hr' by done. apply Hrun.
Qed.

Lemma minv_state m run i t : minv m run -> thread_table m !! i = Some t ->
  (i ∈ ready_queue m <-> state t = Ready) /\ (run = Some i <-> state t = Running).
Proof. intros [_ _ Hr Hrun] Hi. rewrite Hr, <- Hrun, Hi. naive_solver. Qed.

(** The two ways to enqueue. *)
Definition enqueues (enq : Z -> ThreadManager -> ThreadManager) : Prop := forall i m,
  thread_table (enq i m) = thread_table m /\ next_id (enq i m) = next_id m /\
  ready_queue (enq i m) ≡ₚ i :: ready_queue m.

Lemma enqueue_ready_enq : enqueues enqueue_ready.
Proof. intros i m. split_and!; [done|done|]. simpl. by rewrite (comm (++)). Qed.

Lemma enqueue_front_enq : enqueues enqueue_ready_front.
Proof. by intros i m. Qed.

Lemma wake_table enq i t m : enqueues enq -> exists t',
  thread_table (wake enq i t m) = <[i := t']> (thread_table m) /\ next_id (wake enq i t m) = next_id m /\
  context t' = context t /\ process t' = process t /\ inbox t' = inbox t /\ state t' <> Blocked.
Proof.
  intros He. unfold wake. case_bool_decide as Hs.
  - destruct (He i (set_table (fun tt => <[i:=with_state Ready t]> tt) m)) as (-> & -> & _).
    by exists (with_state Ready t).
  - by exists t.
Qed.

Lemma wake_minv enq m run i t0 t : enqueues enq -> minv m run ->
  thread_table m !! i = Some t0 -> id t = id t0 -> state t = state t0 -> minv (wake enq i t m) run.
Proof.
  intros He Hm Hi Hid Hst. pose proof (minv_state _ _ _ _ Hm Hi) as [Hq Hrun].
  pose proof (mi_id _ _ Hm _ _ Hi) as [Hid0 _]. unfold wake. case_bool_decide as Hs.
  - destruct (He i (set_table (fun tt => <[i:=with_state Ready t]> tt) m)) as (Ht & Hn & Hp).
    simpl in Ht, Hn, Hp.
    assert (i ∉ ready_queue m) by (rewrite Hq; congruence).
    eapply (minv_set m _ run i t0 (with_state Ready t)); try done; [simpl; congruence| | | |].
    + rewrite Hp. constructor; [done|apply (mi_nodup _ _ Hm)].
    + intros j Hj. rewrite Hp. set_solver.
    + rewrite Hp. set_solver.
    + rewrite Hrun, <- Hst. simpl. split; congruence.
  - eapply (minv_set m _ run i t0 t); try done; [congruence|apply (mi_nodup _ _ Hm)| |].
    + rewrite Hst. apply Hq.
    + rewrite Hst. apply Hrun.
Qed.

(** The running thread leaves the hart: back to the queue, blocked, or gone. *)
Lemma ready_minv m p t t' : minv m (Some p) -> thread_table m !! p = Some t -> id t' = p -> state t' = Ready ->
  minv (enqueue_ready p (set_table (fun tt => <[p := t']> tt) m)) None.
Proof.
  intros Hm Hp Hid Hst. pose proof (minv_state _ _ _ _ Hm Hp) as [Hq Hrun].
  assert (state t = Running) by by apply Hrun.
  assert (p ∉ ready_queue m) by (rewrite Hq; congruence).
  eapply (minv_set m _ (Some p) p t t'); try done; simpl.
  - apply NoDup_app. split_and!; [apply (mi_nodup _ _ Hm)|set_solver|apply NoDup_singleton].
  - set_solver.
  - set_solver.
  - intros j Hj. split; [done|congruence].
  - by rewrite Hst.
Qed.

Lemma block_minv m p t t' : minv m (Some p) -> thread_table m !! p = Some t -> id t' = p -> state t' = Blocked ->
  minv (set_table (fun tt => <[p := t']> tt) m) None.
Proof.
  intros Hm Hp Hid Hst. pose proof (minv_state _ _ _ _ Hm Hp) as [Hq Hrun].
  eapply (minv_set m _ (Some p) p t t'); try done; simpl.
  - apply (mi_nodup _ _ Hm).
  - rewrite Hq, Hst. assert (state t = Running) by by apply Hrun. split; congruence.
  - intros j Hj. split; [done|congruence].
  - by rewrite Hst.
Qed.

Lemma remove_minv m p : minv m (Some p) -> minv (remove_thread p m) None.
Proof.
  intros [Hid Hnd Hr Hrun]. split; simpl.
  - intros i t [_ Hi]%lookup_delete_Some. by apply Hid.
  - done.
  - intros i. rewrite Hr. setoid_rewrite lookup_delete_Some. split.
    + intros (t & Hi & Hs). exists t. split_and!; try done. intros <-.
      destruct (proj2 (Hrun p) eq_refl) as (? & ? & ?). congruence.
    + naive_solver.
  - intros i. setoid_rewrite lookup_delete_Some. split; [|done].
    intros (t & [Hne Hi] & Hs). assert (Some p = Some i) by (apply Hrun; eauto). congruence.
Qed.

(** A thread of the table changes only its context, process or inbox. *)
Lemma same_minv m run i t t' : minv m run -> thread_table m !! i = Some t -> id t' = id t -> state t' = state t ->
  minv (set_table (fun tt => <[i := t']> tt) m) run.
Proof.
  intros Hm Hi Hid Hst. pose proof (minv_state _ _ _ _ Hm Hi) as [Hq Hrun].
  pose proof (mi_id _ _ Hm _ _ Hi) as [Hid0 _].
  eapply (minv_set m _ run i t t'); try done; [congruence|apply (mi_nodup _ _ Hm)|..];
    by rewrite Hst.
Qed.

(** ** What happens to a thread that is off the hart

    Its registers stay saved, messages are only appended, and it stays
    blocked only while no message arrives. *)
Definition evolves (t t' : Thread) : Prop :=
  context t' = context t /\ process t' = process t /\ inbox t `prefix_of` inbox t' /\
  (state t' = Blocked -> state t = Blocked /\ inbox t' = inbox t).

#[global] Instance evolves_preorder : PreOrder evolves.
Proof.
  split.
  - intros t. by split_and!.
  - intros t1 t2 t3 (Hc & Hp & Hi & Hs) (Hc' & Hp' & Hi' & Hs'). split_and!; [congruence..|by etrans|].
    intros H. destruct (Hs' H) as [H2 E2]. destruct (Hs H2) as [H1 E1]. split; congruence.
Qed.

Definition on (p : Z) (k k' : kernel) : Prop :=
  forall t, table k !! p = Some t -> exists t', table k' !! p = Some t' /\ evolves t t'.

#[global] Instance on_preorder p : PreOrder (on p).
Proof.
  split.
  - intros k t Ht. by exists t.
  - intros k1 k2 k3 H1 H2 t Ht. destruct (H1 t Ht) as (t2 & Ht2 & E2).
    destruct (H2 t2 Ht2) as (t3 & Ht3 & E3). exists t3. split; [done|by etrans].
Qed.

(** Operations that change inboxes and wake threads, and nothing else. *)
Record quiet (k k' : kernel) : Prop := {
  q_current : CURRENT_THREAD k' = CURRENT_THREAD k;
  q_idle : IDLE_THREAD k' = IDLE_THREAD k;
  q_next : next_id (manager k') = next_id (manager k);
  q_dom : forall i, table k !! i = None -> table k' !! i = None;
  q_on : forall p, on p k k';
  q_minv : forall r, minv (manager k) r -> minv (manager k') r }.

#[global] Instance quiet_preorder : PreOrder quiet.
Proof.
  split.
  - intros k. by split; eauto.
  - intros k1 k2 k3 [] []. split; try congruence; eauto. intros p. transitivity k2; auto.
Qed.

Lemma wake_quiet enq k i t0 t : enqueues enq -> table k !! i = Some t0 ->
  id t = id t0 -> state t = state t0 -> context t = context t0 -> process t = process t0 ->
  inbox t0 `prefix_of` inbox t ->
  quiet k (with_manager (wake enq i t) k).
Proof.
  intros He Hi Hid Hst Hc Hp Hin.
  destruct (wake_table enq i t (manager k) He) as (t' & Ht & Hn & Hc' & Hp' & Hin' & Hb).
  split; try done; unfold on, table; simpl; rewrite ?Ht.
  - intros j Hj. rewrite lookup_insert_ne; [done|]. intros <-. unfold table in *; congruence.
  - intros p u Hu. destruct (decide (p = i)) as [->|].
    + exists t'. rewrite lookup_insert_eq. split; [done|].
      unfold table in *. simplify_eq. unfold evolves. rewrite Hc', Hp', Hin', Hc, Hp. by split_and!.
    + exists u. by rewrite lookup_insert_ne.
  - intros r Hr. by eapply wake_minv.
Qed.

Lemma send_quiet i msg k : quiet k (send_message i msg k).
Proof.
  unfold send_message. destruct (get_thread i (manager k)) as [t|] eqn:E; [|done].
  apply (wake_quiet _ _ _ t); auto using enqueue_ready_enq. by apply prefix_app_r.
Qed.

Lemma wake_thread_quiet i k : quiet k (wake_thread i k).
Proof.
  unfold wake_thread. destruct (get_thread i (manager k)) as [t|] eqn:E; [|done].
  apply (wake_quiet _ _ _ t); auto using enqueue_ready_enq.
Qed.

Lemma irqs_quiet l : forall k, quiet k (foldl handle_irq k l).
Proof.
  induction l as [|i l IH]; intros k; [done|]. simpl. etrans; [|apply IH].
  destruct i; [apply send_quiet|apply wake_thread_quiet].
Qed.

(** ** The switch *)

(** The thread that has the hart has its own registers in it and is about to
    execute the instruction after the call that saved them; traps go to the
    handler of its kind, and a process finds its own trap frame. *)
Definition lands (k : kernel) : Prop := forall p t,
  CURRENT_THREAD k = Some p -> p <> 0 -> table k !! p = Some t ->
  regs (hart k) = context t /\ pc (hart k) = ra (context t) /\
  match process t with
  | Some pr => stvec (hart k) = trap_entry /\ sscratch (hart k) = TRAMPOLINE_TRAP_FRAME /\
      tramp (hart k) = (trap_frame pr, frame_sp pr, frame_t0 pr) /\ CURRENT_CONTEXT (hart k) = context_ptr pr
  | None => stvec (hart k) = kernel_trap_entry /\ sscratch (hart k) = trap_stack_top
  end.

Definition has_idle (k : kernel) : Prop := exists t, IDLE_THREAD k = Some t /\ id t = 0.

Record switched (k k' : kernel) : Prop := {
  sw_minv : minv (manager k') (running k');
  sw_idle : has_idle k';
  sw_next : next_id (manager k') = next_id (manager k);
  sw_dom : forall i, table k !! i = None -> table k' !! i = None;
  sw_lands : lands k' }.

(** What [schedule] picks: the head of the queue, or the idle thread. *)
Lemma schedule_spec k : minv (manager k) None -> has_idle k ->
  exists k', schedule k = Ret k' /\ switched k k' /\ (forall p, on p k k') /\
    (forall p, inbox <$> table k' !! p = inbox <$> table k !! p) /\
    match queue k with
    | p :: q => CURRENT_THREAD k' = Some p /\ queue k' = q
    | [] => CURRENT_THREAD k' = Some 0 /\ queue k' = []
    end.
Proof.
  intros Hm (ti & Hti & Hid). unfold schedule, dequeue_ready, queue.
  destruct (ready_queue (manager k)) as [|p q] eqn:Eq.
  - unfold enter_idle. rewrite Hti. eexists. split; [done|]. split_and!; try done.
    + split; try done; [by exists (with_state Running ti)|]. by intros p t [= <-].
    + intros p t Ht. by exists t.
  - destruct (proj1 (mi_ready _ _ Hm p)) as (t & Ht & Hst); [rewrite Eq; set_solver|].
    unfold get_thread; simpl. rewrite Ht. simpl. eexists. split; [done|].
    pose proof (mi_id _ _ Hm _ _ Ht) as [Hidt Hr]. pose proof (mi_nodup _ _ Hm) as Hnd.
    rewrite Eq in Hnd. apply NoDup_cons in Hnd as [Hp Hnd].
    assert (Hc : forall h1 h2 m, running (with_hart h1 (match process t with
       Some pr => with_hart (h2 pr) (set_current p m) | None => set_current p m end)) = Some p).
    { intros. unfold running. destruct (process t); simpl; rewrite (proj2 (Z.eqb_neq p 0)) by lia; done. }
    split_and!.
    + split.
      * rewrite Hc. replace (manager _) with (mkManager (<[p := with_state Running t]> (thread_table (manager k))) q
          (next_id (manager k))) by (by destruct (process t)).
        eapply (minv_set (manager k) _ None p t (with_state Running t)); try done; simpl.
        -- intros j Hj. rewrite Eq. set_solver.
        -- split; congruence.
      * exists ti. by destruct (process t).
      * by destruct (process t).
      * intros i. unfold table. destruct (process t); simpl; rewrite lookup_insert_None;
          intros Hi; (split; [done|]); intros <-; unfold table in *; congruence.
      * intros i u. unfold lands, table. destruct (process t) eqn:Epr; simpl;
          intros [= <-] _; rewrite lookup_insert_eq; intros [= <-]; simpl; by rewrite Epr.
    + intros i u Hu. unfold table. destruct (process t); simpl;
        (destruct (decide (i = p)) as [->|];
          [exists (with_state Running t); rewrite lookup_insert_eq; unfold table in *; simplify_eq; by split_and!
          |exists u; by rewrite lookup_insert_ne]).
    + intros i. unfold table. destruct (process t); simpl;
        (destruct (decide (i = p)) as [->|]; [by rewrite lookup_insert_eq, Ht|by rewrite lookup_insert_ne]).
    + by destruct (process t).
    + by destruct (process t).
Qed.

(** ** The operations of the running thread *)

Definition setp (p : Z) (t : Thread) (k : kernel) : kernel :=
  with_manager (set_table (fun tt => <[p := t]> tt)) k.

Record has_hart (p : Z) (t : Thread) (k : kernel) : Prop := {
  hh_current : CURRENT_THREAD k = Some p;
  hh_pos : p <> 0;
  hh_minv : minv (manager k) (Some p);
  hh_table : table k !! p = Some t;
  hh_state : state t = Running;
  hh_id : id t = p;
  hh_idle : has_idle k }.

Lemma hart_of k p : minv (manager k) (running k) -> has_idle k -> CURRENT_THREAD k = Some p -> p <> 0 ->
  exists t, has_hart p t k.
Proof.
  intros Hm Hi Hc Hp. assert (Hr : running k = Some p) by (unfold running; rewrite Hc; by zcases).
  rewrite Hr in Hm. destruct (proj2 (mi_run _ _ Hm p) eq_refl) as (t & Ht & Hs).
  exists t. split; try done. apply (mi_id _ _ Hm _ _ Ht).
Qed.

Lemma hart_load p t k : has_hart p t k -> load p k = Ret t.
Proof. intros []. unfold load. zcases; [done|]. by rewrite hh_table0. Qed.

Lemma hart_store p t t' k : has_hart p t k -> store p t' k = setp p t' k.
Proof. intros []. unfold store. by zcases. Qed.

Lemma hart_modify p t f k : has_hart p t k -> modify p f k = Ret (setp p (f t) k).
Proof. intros H. unfold modify. rewrite (hart_load _ _ _ H). simpl. by rewrite (hart_store _ _ _ _ H). Qed.

(** Saving the registers keeps the hart. *)
Lemma hart_save p t k : has_hart p t k ->
  save_context k = Ret (setp p (with_context (regs (hart k)) t) k) /\
  has_hart p (with_context (regs (hart k)) t) (setp p (with_context (regs (hart k)) t) k).
Proof.
  intros H. split; [unfold save_context; rewrite (hh_current _ _ _ H); by eapply hart_modify|].
  destruct H. split; try done; [|by apply lookup_insert_eq]. by eapply same_minv.
Qed.

Lemma hart_quiet p t k k' : has_hart p t k -> quiet k k' -> exists t', has_hart p t' k' /\ context t' = context t.
Proof.
  intros [] []. destruct (q_on0 p t hh_table0) as (t' & Ht' & Hc & _). exists t'. split; [|done].
  specialize (q_minv0 _ hh_minv0).
  split; try done; [congruence| |apply (mi_id _ _ q_minv0 _ _ Ht')|].
  - by apply (minv_state _ _ _ _ q_minv0 Ht').
  - unfold has_idle. by rewrite q_idle0.
Qed.

Lemma with_hart_quiet f k : quiet k (with_hart f k).
Proof. split; try done. intros p t Ht. by exists t. Qed.

(** A change of the entry of [p] is invisible to the others. *)
Lemma setp_dom p t u k : table k !! p = Some u -> forall i, table k !! i = None -> table (setp p t k) !! i = None.
Proof. intros Hp i Hi. apply lookup_insert_None. split; [done|]. intros <-. congruence. Qed.

Lemma setp_on p t k q : q <> p -> on q k (setp p t k).
Proof. intros Hq u Hu. exists u. split; [|done]. unfold table, setp. simpl. by rewrite lookup_insert_ne. Qed.

(** The common end of the operations by which [p] leaves the hart: whatever
    was done before, [schedule] is called with a manager in which nobody runs. *)
Definition left_hart (p : Z) (k k' : kernel) : Prop :=
  switched k k' /\ (forall q, q <> p -> on q k k').

Lemma leave p k k1 : minv (manager k1) None -> has_idle k1 ->
  next_id (manager k1) = next_id (manager k) -> (forall i, table k !! i = None -> table k1 !! i = None) ->
  (forall q, q <> p -> on q k k1) ->
  exists k', schedule k1 = Ret k' /\ left_hart p k k' /\ on p k1 k'.
Proof.
  intros Hm Hi Hn Hd Ho. destruct (schedule_spec k1 Hm Hi) as (k' & E & [] & Hon & _).
  exists k'. split_and!; [done| |done]. split.
  - split; try done; [congruence|eauto].
  - intros q Hq. transitivity k1; auto.
Qed.

Definition saved (p : Z) (c : ThreadContext) (k : kernel) : Prop :=
  exists t, table k !! p = Some t /\ context t = c.

Lemma on_saved p c k k' : on p k k' -> saved p c k -> saved p c k'.
Proof. intros Ho (t & Ht & Hc). destruct (Ho t Ht) as (t' & Ht' & Hc' & _). exists t'. split; congruence. Qed.

(** The end of [yield_impl] and of [send_message_urgent_impl]. *)
Lemma requeue p t k k2 t2 : has_hart p t k -> quiet (setp p (with_context (regs (hart k)) t) k) k2 ->
  has_hart p t2 k2 -> context t2 = regs (hart k) ->
  exists k', schedule (with_manager (enqueue_ready p) (setp p (with_state Ready t2) k2)) = Ret k' /\
    left_hart p k k' /\ saved p (regs (hart k)) k'.
Proof.
  intros H Hq H2 Hc2. set (k1 := setp p _ k) in *.
  edestruct (leave p k (with_manager (enqueue_ready p) (setp p (with_state Ready t2) k2)))
    as (k' & E & Hl & Ho).
  - destruct H2. by eapply ready_minv.
  - apply H2.
  - apply (q_next _ _ Hq).
  - intros i Hi. eapply (setp_dom p _ t2); [apply H2|]. apply (q_dom _ _ Hq).
    by eapply (setp_dom p _ t); [apply H|].
  - intros q Hqp. transitivity k1; [by apply setp_on|]. transitivity k2; [apply (q_on _ _ Hq)|].
    by apply (setp_on p (with_state Ready t2) k2).
  - exists k'. split_and!; [done|done|]. eapply on_saved; [done|].
    exists (with_state Ready t2). split; [apply lookup_insert_eq|]. simpl. by rewrite Hc2.
Qed.

Lemma yield_spec p t pending k : has_hart p t k ->
  exists k', yield_now pending k = Ret k' /\ left_hart p k k' /\ saved p (regs (hart k)) k'.
Proof.
  intros H. destruct (hart_save _ _ _ H) as [Hs H1]. unfold yield_now. rewrite Hs. cbn [obind].
  set (k1 := setp p _ k) in *. unfold yield_impl, current. rewrite (hh_current _ _ _ H1).
  cbn [obind expect]. rewrite (hart_load _ _ _ H1). cbn [obind]. rewrite (hh_id _ _ _ H1).
  set (k2 := match pending with Some l => _ | None => _ end).
  assert (Hq : quiet k1 k2).
  { destruct pending as [l|]; [|done]. etrans; [apply with_hart_quiet|apply irqs_quiet]. }
  clearbody k2. destruct (hart_quiet _ _ _ _ H1 Hq) as (t2 & H2 & Hc2).
  rewrite (hart_modify _ _ _ _ H2). cbn [obind].
  by eapply requeue.
Qed.

Lemma block_spec p t k : has_hart p t k -> exists k', block_now k = Ret k' /\ left_hart p k k' /\
  exists t', table k' !! p = Some t' /\ context t' = regs (hart k) /\
    (state t' = Blocked -> inbox t' = inbox t).
Proof.
  intros H. destruct (hart_save _ _ _ H) as [Hs H1]. unfold block_now. rewrite Hs. cbn [obind].
  set (k1 := setp p _ k) in *. unfold block_impl, current. rewrite (hh_current _ _ _ H1).
  cbn [obind expect]. rewrite (hart_modify _ _ _ _ H1). cbn [obind].
  edestruct (leave p k (setp p (with_state Blocked (with_context (regs (hart k)) t)) k1)) as (k' & E & Hl & Ho).
  - destruct H1. by eapply block_minv.
  - apply H1.
  - done.
  - intros i Hi. eapply (setp_dom p); [apply H1|]. by eapply (setp_dom p _ t); [apply H|].
  - intros q Hqp. transitivity k1; by apply setp_on.
  - exists k'. split_and!; [done|done|]. edestruct Ho as (t' & Ht' & Hc & _ & _ & Hb); [apply lookup_insert_eq|].
    exists t'. split_and!; [done|done|]. intros Hst. by apply Hb.
Qed.

Lemma exit_spec p t k : has_hart p t k -> exists k', exit k = Ret k' /\ left_hart p k k' /\ table k' !! p = None.
Proof.
  intros H. unfold exit, current. rewrite (hh_current _ _ _ H). cbn [obind expect].
  rewrite (hart_load _ _ _ H). cbn [obind]. rewrite (hh_id _ _ _ H).
  edestruct (leave p k (with_manager (remove_thread p) k)) as (k' & E & Hl & Ho).
  - apply remove_minv, H.
  - apply H.
  - done.
  - intros i Hi. by apply lookup_delete_None; right.
  - intros q Hq u Hu. exists u. split; [|done]. unfold table. simpl. by rewrite lookup_delete_ne.
  - exists k'. split_and!; [done|done|].
    destruct (schedule_spec (with_manager (remove_thread p) k)) as (k2 & E2 & [] & _);
      [apply remove_minv, H|apply H|].
    assert (k2 = k') as -> by congruence. apply sw_dom0. apply lookup_delete_eq.
Qed.

Definition deliver_front (target_id : Z) (msg : Message) (k : kernel) : kernel :=
  match get_thread target_id (manager k) with
  | Some t => with_manager (wake enqueue_ready_front target_id (push_msg msg t)) k
  | None => k
  end.

Lemma deliver_front_quiet i msg k : quiet k (deliver_front i msg k).
Proof.
  unfold deliver_front. destruct (get_thread i (manager k)) as [t|] eqn:E; [|done].
  apply (wake_quiet _ _ _ t); auto using enqueue_front_enq. by apply prefix_app_r.
Qed.

(** Delivering before or after the sender is marked ready is the same. *)
Lemma deliver_front_commute i msg p t t2 k : has_hart p t k -> table (deliver_front i msg k) !! p = Some t2 ->
  deliver_front i msg (setp p (with_state Ready t) k) = setp p (with_state Ready t2) (deliver_front i msg k).
Proof.
  intros H. pose proof (hh_table _ _ _ H) as Ht. unfold table in Ht.
  unfold deliver_front, get_thread, setp. simpl. destruct (decide (i = p)) as [->|Hne].
  - rewrite lookup_insert_eq, Ht.
    unfold wake. simpl. rewrite !bool_decide_false by (try rewrite (hh_state _ _ _ H); done).
    unfold table. simpl. rewrite lookup_insert_eq. intros [= <-].
    unfold with_manager, set_table. simpl. by rewrite !insert_insert_eq.
  - rewrite lookup_insert_ne by done.
    destruct (thread_table (manager k) !! i) as [u|] eqn:Eu; unfold table.
    + unfold wake. case_bool_decide; simpl; rewrite lookup_insert_ne by done;
        intros Ht2; rewrite Ht in Ht2; simplify_eq;
        unfold with_manager, set_table, enqueue_ready_front; simpl; by rewrite insert_insert_ne.
    + intros Ht2. rewrite Ht in Ht2. by simplify_eq.
Qed.

Lemma urgent_eq p t target msg k : has_hart p t k ->
  let k2 := deliver_front target msg (setp p (with_context (regs (hart k)) t) k) in
  exists t2, has_hart p t2 k2 /\ context t2 = regs (hart k) /\
    send_message_urgent target msg k =
      schedule (with_manager (enqueue_ready p) (setp p (with_state Ready t2) k2)).
Proof.
  intros H k2. destruct (hart_save _ _ _ H) as [Hs H1]. unfold send_message_urgent. rewrite Hs. cbn [obind].
  set (k1 := setp p _ k) in *. unfold send_message_urgent_impl, current. rewrite (hh_current _ _ _ H1).
  cbn [obind expect]. rewrite (hart_load _ _ _ H1). cbn [obind]. rewrite (hh_id _ _ _ H1).
  rewrite (hart_modify _ _ _ _ H1). cbn [obind]. set (t1 := with_context _ t) in *.
  destruct (hart_quiet _ _ _ _ H1 (deliver_front_quiet target msg k1)) as (t2 & H2 & Hc2).
  fold (deliver_front target msg (setp p (with_state Ready t1) k1)).
  rewrite (deliver_front_commute target msg p t1 t2 k1 H1) by apply H2. by exists t2.
Qed.

Lemma urgent_spec p t target msg k : has_hart p t k ->
  exists k', send_message_urgent target msg k = Ret k' /\ left_hart p k k' /\ saved p (regs (hart k)) k'.
Proof.
  intros H. destruct (urgent_eq p t target msg k H) as (t2 & H2 & Hc2 & ->).
  eapply requeue; [done| |done|done]. apply deliver_front_quiet.
Qed.

(** ** Every step keeps the invariant *)

Lemma inv_switched s k' : inv s -> switched (kern s) k' -> inv (mkSys k' (boxes s)).
Proof.
  intros [] []. split; simpl; try done; [congruence|].
  intros t Ht. rewrite sw_next0. destruct (inv_box0 t Ht) as (? & ? & ?). eauto.
Qed.

(** The hart stays with its thread; entries of the table keep their states. *)
Record stays (k k' : kernel) : Prop := {
  st_current : CURRENT_THREAD k' = CURRENT_THREAD k;
  st_idle : has_idle k';
  st_next : next_id (manager k') = next_id (manager k);
  st_dom : forall i, table k !! i = None -> table k' !! i = None;
  st_minv : minv (manager k') (running k);
  st_on : forall p, CURRENT_THREAD k <> Some p -> on p k k' }.

Lemma inv_stays s k' : inv s -> stays (kern s) k' -> inv (mkSys k' (boxes s)).
Proof.
  intros [] []. split; simpl; try done; [by unfold running; rewrite st_current0|congruence|].
  intros t Ht. rewrite st_next0. destruct (inv_box0 t Ht) as (? & ? & ?). eauto.
Qed.

Lemma quiet_stays s k' : inv s -> quiet (kern s) k' -> stays (kern s) k'.
Proof.
  intros [] []. split; try done; [|by apply q_minv0]. unfold has_idle. by rewrite q_idle0.
Qed.

(** A thread that has the hart changes its own entry. *)
Lemma setp_stays p t t' k : has_hart p t k -> id t' = id t -> state t' = state t -> stays k (setp p t' k).
Proof.
  intros [] Hid Hst. split; try done.
  - by eapply setp_dom.
  - replace (running k) with (Some p); [by eapply same_minv|].
    unfold running. rewrite hh_current0. by zcases.
  - intros q Hq. apply setp_on. congruence.
Qed.

Lemma run_stays s c x f p : inv s -> CURRENT_THREAD (kern s) = Some p ->
  exists k', run c x f (kern s) = Ret k' /\ stays (kern s) k'.
Proof.
  intros [] Hc. destruct (decide (p = 0)) as [->|Hp].
  - unfold run, current. rewrite Hc. cbn [obind expect]. unfold modify, load. simpl.
    destruct inv_idle0 as (t & Ht & Hid). rewrite Ht. simpl. eexists. split; [done|].
    split; try done; [by eexists|]. intros p _ u Hu. by exists u.
  - destruct (hart_of _ _ inv_manager0 inv_idle0 Hc Hp) as (t & H).
    unfold run, current. rewrite Hc. cbn [obind expect]. rewrite (hart_modify _ _ _ _ H). cbn [obind].
    eexists. split; [done|]. by destruct (setp_stays p t (with_process (f <$> process t) t) _ H).
Qed.

(** The effect of a step on the kernel, seen by the others. *)
Definition stepped (k k' : kernel) : Prop :=
  (forall p, CURRENT_THREAD k <> Some p -> on p k k') /\ (CURRENT_THREAD k' = CURRENT_THREAD k \/ lands k').

Lemma stays_ok s k' : inv s -> stays (kern s) k' -> inv (mkSys k' (boxes s)) /\ stepped (kern s) k'.
Proof. intros Hi H. split; [by apply inv_stays|]. destruct H. split; auto. Qed.

Lemma left_ok s p k' : inv s -> CURRENT_THREAD (kern s) = Some p -> left_hart p (kern s) k' ->
  inv (mkSys k' (boxes s)) /\ stepped (kern s) k'.
Proof.
  intros Hi Hc [Hsw Hon]. split; [by apply inv_switched|]. split; [|right; by apply Hsw].
  intros q Hq. apply Hon. congruence.
Qed.

Lemma switch_ok s : inv s -> running (kern s) = None ->
  exists k', schedule (kern s) = Ret k' /\ inv (mkSys k' (boxes s)) /\ stepped (kern s) k'.
Proof.
  intros Hi Hr. destruct (schedule_spec (kern s)) as (k' & E & Hsw & Hon & _).
  - rewrite <- Hr. apply Hi.
  - apply Hi.
  - exists k'. split; [done|]. split; [by apply inv_switched|]. split; [auto|right; by apply Hsw].
Qed.

Lemma receive_ok s p t : inv s -> has_hart p t (kern s) ->
  exists r k', receive_turn (kern s) = Ret (r, k') /\ inv (mkSys k' (boxes s)) /\ stepped (kern s) k' /\
    match r with
    | Some m => exists l, inbox t = m :: l /\ k' = setp p (with_inbox l t) (kern s)
    | None => inbox t = [] /\ exists t', table k' !! p = Some t' /\ context t' = regs (hart (kern s)) /\
        (state t' = Blocked -> inbox t' = [])
    end.
Proof.
  intros Hi H. unfold receive_turn, current. rewrite (hh_current _ _ _ H). cbn [obind expect].
  rewrite (hart_load _ _ _ H). cbn [obind]. destruct (inbox t) as [|m l] eqn:El.
  - destruct (block_spec _ _ _ H) as (k' & -> & Hl & t' & Ht' & Hc & Hb). exists None, k'.
    split; [done|]. rewrite El in Hb. destruct (left_ok s p k' Hi (hh_current _ _ _ H) Hl). eauto 10.
  - exists (Some m), (setp p (with_inbox l t) (kern s)). rewrite (hart_store _ _ _ _ H).
    split; [done|]. destruct (stays_ok s (setp p (with_inbox l t) (kern s)) Hi); [by eapply setp_stays|].
    eauto 10.
Qed.

(** Creating, preparing, adding and dropping a thread. *)
Lemma new_ok s entry buf : inv s -> enabled s (op_new entry buf) ->
  exists s', exec (op_new entry buf) s = Ret s' /\ inv s' /\ stepped (kern s) (kern s').
Proof.
  intros [] [Hb Hn]. cbn [exec]. unfold new, allocate_thread_id. rewrite uadd_ok by done.
  cbn [obind]. eexists. split; [done|]. rewrite Z.mod_small by lia. split.
  - split; simpl; try done.
    + destruct inv_manager0. split; simpl; try done. intros i t Hi. destruct (mi_id0 _ _ Hi). lia.
    + lia.
    + rewrite fmap_app, NoDup_app. split_and!; [done| |apply NoDup_singleton].
      intros i (t & -> & Ht)%list_elem_of_fmap. destruct (inv_box0 t Ht) as (? & _).
      simpl. rewrite list_elem_of_singleton. lia.
    + intros t Ht. apply elem_of_app in Ht as [Ht|Ht]; [|apply list_elem_of_singleton in Ht as ->].
      * destruct (inv_box0 t Ht) as (? & ? & ?). split_and!; [lia|lia|done|done].
      * simpl. split_and!; [lia|lia|done|].
        destruct (table (kern s) !! next_id (manager (kern s))) as [u|] eqn:E; [|done].
        destruct (mi_id _ _ inv_manager0 _ _ E). lia.
  - split; [|by left]. intros p _ t Ht. by exists t.
Qed.

Lemma prepare_ok s n c p : inv s ->
  inv (mkSys (kern s) (alter (fun t => with_process p (with_context c t)) n (boxes s))).
Proof.
  intros []. set (f := fun t => _). assert (E : id <$> alter f n (boxes s) = id <$> boxes s).
  { apply list_eq. intros i. rewrite !list_lookup_fmap. destruct (decide (i = n)) as [->|].
    - rewrite list_lookup_alter_eq. by destruct (boxes s !! n).
    - by rewrite list_lookup_alter_ne. }
  split; simpl; try done; [by rewrite E|].
  intros t (i & Hi)%list_elem_of_lookup. destruct (decide (i = n)) as [->|].
  - rewrite list_lookup_alter_eq in Hi. destruct (boxes s !! n) as [u|] eqn:Eu; [|done].
    simplify_eq/=. apply (inv_box0 u). by eapply list_elem_of_lookup_2.
  - rewrite list_lookup_alter_ne in Hi by done. apply inv_box0. by eapply list_elem_of_lookup_2.
Qed.

Lemma drop_ok s n : inv s -> inv (mkSys (kern s) (delete n (boxes s))).
Proof.
  intros []. split; simpl; try done.
  - eapply sublist_NoDup; [|apply fmap_sublist, sublist_delete]. done.
  - intros t Ht. apply inv_box0. eapply elem_of_sublist; [done|apply sublist_delete].
Qed.

Lemma add_ok s n : inv s -> enabled s (op_add n) ->
  exists s', exec (op_add n) s = Ret s' /\ inv s' /\ stepped (kern s) (kern s').
Proof.
  intros Hi Hn. pose proof Hi as []. destruct (lookup_lt_is_Some_2 (boxes s) n Hn) as (t & Ht).
  destruct (inv_box0 t) as (Hr & Hst & Hfree); [by eapply list_elem_of_lookup_2|].
  cbn [exec]. rewrite Ht. cbn [obind expect]. eexists. split; [done|]. split.
  - assert (Hd := drop_ok s n Hi). destruct inv_manager0, Hd as [_ _ _ Hnd' Hbox']. unfold table in *.
    simpl in *. split; simpl; try done.
    + assert (id t ∉ ready_queue (manager (kern s))) by (rewrite mi_ready0, Hfree; naive_solver).
      assert (running (kern s) <> Some (id t)) by (rewrite <- mi_run0, Hfree; naive_solver).
      split; simpl.
      * intros i u. rewrite lookup_insert_Some. naive_solver.
      * apply NoDup_app. split_and!; [done|set_solver|apply NoDup_singleton].
      * intros i. rewrite elem_of_app, list_elem_of_singleton. destruct (decide (i = id t)) as [->|].
        -- rewrite lookup_insert_eq. naive_solver.
        -- rewrite lookup_insert_ne, <- mi_ready0 by done. naive_solver.
      * intros i. change (running _) with (running (kern s)). destruct (decide (i = id t)) as [->|].
        -- rewrite lookup_insert_eq. split; [|done]. intros (? & [= <-] & ?). congruence.
        -- rewrite lookup_insert_ne by done. apply mi_run0.
    + intros u Hu. destruct (Hbox' u Hu) as (? & ? & ?). split_and!; try done; try lia.
      unfold table. simpl. rewrite lookup_insert_ne; [done|]. intros E.
      rewrite (delete_Permutation _ _ _ Ht) in inv_boxes0. apply NoDup_cons in inv_boxes0 as [Hne _].
      apply Hne. rewrite E. by apply list_elem_of_fmap_2.
  - split; [|by left]. intros p _ u Hu. exists u. split; [|done].
    unfold table. simpl. rewrite lookup_insert_ne; [done|]. intros <-. congruence.
Qed.

Lemma quiet_ok s k' : inv s -> quiet (kern s) k' -> inv (mkSys k' (boxes s)) /\ stepped (kern s) k'.
Proof. intros Hi Hq. by apply stays_ok, quiet_stays. Qed.

Lemma same_kernel s : stepped (kern s) (kern s).
Proof. split; [|by left]. intros p _ t Ht. by exists t. Qed.

Lemma exec_ok s o : inv s -> enabled s o ->
  exists s', exec o s = Ret s' /\ inv s' /\ stepped (kern s) (kern s').
Proof.
  intros Hi He.
  assert (Hh : forall p, CURRENT_THREAD (kern s) = Some p -> p <> 0 -> exists t, has_hart p t (kern s)).
  { intros p. apply hart_of; apply Hi. }
  destruct o; cbn [enabled] in He; cbn [exec].
  - by apply new_ok.
  - eexists. split; [done|]. split; [by apply prepare_ok|apply (same_kernel s)].
  - by apply add_ok.
  - eexists. split; [done|]. split; [by apply drop_ok|apply (same_kernel s)].
  - destruct (switch_ok s Hi) as (k' & E & H); [by unfold running; rewrite He|].
    unfold start_scheduler. rewrite E. by eexists.
  - destruct (CURRENT_THREAD (kern s)) as [q|] eqn:Ec; [|done].
    destruct (run_stays s c x p q Hi Ec) as (k' & -> & H). eexists. split; [done|]. by apply stays_ok.
  - eexists. split; [done|]. apply quiet_ok, send_quiet. done.
  - eexists. split; [done|]. apply quiet_ok, wake_thread_quiet. done.
  - destruct He as (q & Hc & Hq), (Hh q Hc Hq) as (t & H).
    destruct (yield_spec q t pending _ H) as (k' & -> & Hl & _). eexists. split; [done|]. by eapply left_ok.
  - destruct He as (q & Hc & Hq), (Hh q Hc Hq) as (t & H).
    destruct (block_spec q t _ H) as (k' & -> & Hl & _). eexists. split; [done|]. by eapply left_ok.
  - destruct He as (q & Hc & Hq), (Hh q Hc Hq) as (t & H).
    destruct (receive_ok s q t Hi H) as (r & k' & -> & H1 & H2 & _). eexists. split; [done|]. done.
  - destruct He as (q & Hc & Hq), (Hh q Hc Hq) as (t & H).
    destruct (urgent_spec q t target msg _ H) as (k' & -> & Hl & _). eexists. split; [done|]. by eapply left_ok.
  - destruct He as (q & Hc & Hq), (Hh q Hc Hq) as (t & H).
    destruct (exit_spec q t _ H) as (k' & -> & Hl & _). eexists. split; [done|]. by eapply left_ok.
  - unfold schedule_if_ready. case_bool_decide.
    + eexists. split; [done|]. split; [by destruct s|apply (same_kernel s)].
    + destruct (switch_ok s Hi) as (k' & E & H'); [by unfold running; rewrite He|]. rewrite E. by eexists.
Qed.

Lemma reachable_inv s : reachable s -> inv s.
Proof.
  induction 1 as [buf entry h k E|s o s' _ IH He E].
  - unfold boot, idle_init in E. bind_inv E. injection K as <-. split; simpl; try done; [|by eexists| |].
    + split; simpl; [by intros i t ?%lookup_empty_Some|apply NoDup_nil_2| |]; intros i.
      * split; [by intros ?%not_elem_of_nil|by intros (t & ?%lookup_empty_Some & _)].
      * split; [by intros (t & ?%lookup_empty_Some & _)|done].
    + apply NoDup_nil_2.
    + by intros t ?%not_elem_of_nil.
  - destruct (exec_ok s o IH He) as (s2 & E2 & Hi & _). rewrite E in E2. by injection E2 as ->.
Qed.

(** C12: The scheduler never panics and never loses or duplicates a thread.
    In every state the kernel can reach, the ready queue has no duplicates
    and holds exactly the threads of the table whose state is Ready, the only
    Running thread of the table is the current one, every entry is stored
    under its own id, and every operation the kernel may then perform (a
    yield with any interrupts taken in its window, a block, a receive, a
    plain or urgent send, a wake, an exit, adding a thread, the idle loop)
    returns instead of panicking or using a dangling thread pointer. *)
Theorem scheduler_safe s (Hs : reachable s) :
  inv s /\ forall o, enabled s o -> exists s', exec o s = Ret s'.
Proof.
  pose proof (reachable_inv s Hs) as Hi. split; [done|]. intros o He.
  destruct (exec_ok s o Hi He) as (s' & E & _). eauto.
Qed.

(** A run during which [p] does not have the hart, except possibly at the end. *)
Inductive off (p : Z) : sys -> sys -> Prop :=
| off_refl s : off p s s
| off_step s1 s2 s3 o : off p s1 s2 -> CURRENT_THREAD (kern s2) <> Some p ->
    enabled s2 o -> exec o s2 = Ret s3 -> off p s1 s3.

Lemma off_inv p s1 s2 : inv s1 -> off p s1 s2 -> inv s2 /\ on p (kern s1) (kern s2).
Proof.
  intros Hi. induction 1 as [s|s1 s2 s3 o _ IH Hc He E]; [done|].
  destruct (IH Hi) as [Hi2 Hon]. destruct (exec_ok s2 o Hi2 He) as (s' & E' & Hi' & Hst & _).
  rewrite E in E'. injection E' as ->. split; [done|]. transitivity (kern s2); auto.
Qed.

Lemma off_lands p s1 s2 : inv s1 -> (CURRENT_THREAD (kern s1) = Some p -> lands (kern s1)) ->
  off p s1 s2 -> CURRENT_THREAD (kern s2) = Some p -> lands (kern s2).
Proof.
  intros Hi Hl Hoff Hc. destruct Hoff as [|sa s2 s3 o H12 Hne He E]; [auto|].
  destruct (off_inv p _ _ Hi H12) as [Hi2 _].
  destruct (exec_ok s2 o Hi2 He) as (s' & E' & _ & _ & [Hs|Hs]);
    rewrite E in E'; injection E' as ->; [congruence|done].
Qed.

(** The operations by which a thread gives up the hart and comes back. *)
Definition switches (o : op) : bool :=
  match o with op_yield _ | op_block | op_urgent _ _ => true | _ => false end.

Lemma switch_saved s p t o s' : inv s -> has_hart p t (kern s) -> switches o = true -> exec o s = Ret s' ->
  inv s' /\ lands (kern s') /\ saved p (regs (hart (kern s))) (kern s').
Proof.
  intros Hi H Ho E.
  assert (exists k', left_hart p (kern s) k' /\ saved p (regs (hart (kern s))) k' /\ s' = mkSys k' (boxes s))
    as (k' & Hl & Hs & ->).
  { destruct o; try discriminate Ho; cbn [exec] in E.
    - destruct (yield_spec p t pending _ H) as (k' & E' & Hl & Hs). rewrite E' in E. injection E as <-. eauto.
    - destruct (block_spec p t _ H) as (k' & E' & Hl & t' & Ht & Hc & _). rewrite E' in E. injection E as <-.
      exists k'. split_and!; [done| |done]. by exists t'.
    - destruct (urgent_spec p t target msg _ H) as (k' & E' & Hl & Hs). rewrite E' in E. injection E as <-. eauto. }
  split_and!; [|apply Hl|done]. apply (left_ok s p k' Hi (hh_current _ _ _ H) Hl).
Qed.

(** C14: A context switch is transparent to the thread that is switched out.
    If a thread yields, blocks or sends an urgent message, then whatever the
    other threads, the idle loop and the interrupt handlers do until it has
    the hart again, it resumes at its return address with the stack pointer
    and all callee-saved registers it had, with the trap vector and scratch
    register of its kind of thread, and, for a process, with its own trap
    frame and process context installed. *)
Theorem context_switch_transparent s0 s1 s2 p o
    (Hs : reachable s0) (Hc : CURRENT_THREAD (kern s0) = Some p) (Hp : p <> 0)
    (Ho : switches o = true) (E : exec o s0 = Ret s1)
    (Hoff : off p s1 s2) (Hc2 : CURRENT_THREAD (kern s2) = Some p) :
  exists t, table (kern s2) !! p = Some t /\
    regs (hart (kern s2)) = regs (hart (kern s0)) /\ pc (hart (kern s2)) = ra (regs (hart (kern s0))) /\
    match process t with
    | Some pr => stvec (hart (kern s2)) = trap_entry /\ sscratch (hart (kern s2)) = TRAMPOLINE_TRAP_FRAME /\
        tramp (hart (kern s2)) = (trap_frame pr, frame_sp pr, frame_t0 pr) /\
        CURRENT_CONTEXT (hart (kern s2)) = context_ptr pr
    | None => stvec (hart (kern s2)) = kernel_trap_entry /\ sscratch (hart (kern s2)) = trap_stack_top
    end.
Proof.
  pose proof (reachable_inv _ Hs) as Hi.
  destruct (hart_of _ p (inv_manager _ Hi) (inv_idle _ Hi) Hc Hp) as (t0 & H).
  destruct (switch_saved _ _ _ _ _ Hi H Ho E) as (Hi1 & Hl1 & Hs1).
  destruct (off_inv p _ _ Hi1 Hoff) as [Hi2 Hon]. destruct (on_saved _ _ _ _ Hon Hs1) as (t & Ht & Hct).
  destruct (off_lands p _ _ Hi1 (fun _ => Hl1) Hoff Hc2 p t Hc2 Hp Ht) as (Hr & Hpc & Hk).
  exists t. rewrite <- Hct. done.
Qed.

(** C21: No wake-up is lost.  If a thread calls receive_message and finds its
    inbox empty, then for as long as it is still blocked no message is
    waiting for it; once a message has arrived it is in the ready queue or
    running, and the messages are in the order they were sent. *)
Theorem receive_no_lost_wakeup s0 s1 s2 p t0
    (Hs : reachable s0) (Hc : CURRENT_THREAD (kern s0) = Some p) (Hp : p <> 0)
    (Ht0 : table (kern s0) !! p = Some t0) (Hempty : inbox t0 = [])
    (E : exec op_receive s0 = Ret s1) (Hoff : off p s1 s2) :
  exists t, table (kern s2) !! p = Some t /\ (state t = Blocked -> inbox t = []) /\
    (state t <> Blocked -> p ∈ queue (kern s2) \/ CURRENT_THREAD (kern s2) = Some p).
Proof.
  pose proof (reachable_inv _ Hs) as Hi.
  destruct (hart_of _ p (inv_manager _ Hi) (inv_idle _ Hi) Hc Hp) as (t1 & H).
  assert (t1 = t0) as -> by (pose proof (hh_table _ _ _ H); congruence).
  destruct (receive_ok s0 p t0 Hi H) as ([m|] & k' & E' & Hi' & _ & Hr).
  { destruct Hr as (l & Hl & _). congruence. }
  destruct Hr as (_ & t' & Ht' & _ & Hb). cbn [exec] in E. rewrite E' in E. injection E as <-.
  destruct (off_inv p _ _ Hi' Hoff) as [Hi2 Hon]. destruct (Hon t' Ht') as (t & Ht & _ & _ & _ & Hst).
  exists t. split_and!; [done| |].
  - intros Hbt. destruct (Hst Hbt) as [Hb' ->]. by apply Hb.
  - intros Hnb. destruct (minv_state _ _ _ _ (inv_manager _ Hi2) Ht) as [Hq Hrun]. destruct (state t) eqn:Es.
    + right. assert (Hx : running (kern s2) = Some p) by by apply Hrun. unfold running in Hx.
      destruct (CURRENT_THREAD (kern s2)) as [x|]; [|done]. destruct (x =? 0); congruence.
    + left. by apply Hq.
    + done.
Qed.

(** An urgent message to a blocked thread makes that thread the next to
    run, with the message at the end of its inbox. *)
Theorem urgent_runs_target_next s p i t msg
    (Hs : reachable s) (Hc : CURRENT_THREAD (kern s) = Some p) (Hp : p <> 0)
    (Hi : table (kern s) !! i = Some t) (Hb : state t = Blocked) :
  exists k', send_message_urgent i msg (kern s) = Ret k' /\ CURRENT_THREAD k' = Some i /\
    (inbox <$> table k' !! i) = Some (inbox t ++ [msg]) /\ queue k' = queue (kern s) ++ [p].
Proof.
  pose proof (reachable_inv _ Hs) as Hv.
  destruct (hart_of _ p (inv_manager _ Hv) (inv_idle _ Hv) Hc Hp) as (tp & H).
  assert (Hne : i <> p) by (intros ->; pose proof (hh_table _ _ _ H); pose proof (hh_state _ _ _ H); congruence).
  destruct (urgent_eq p tp i msg _ H) as (t2 & H2 & _ & ->).
  set (K := with_manager _ _).
  destruct (schedule_spec K) as (k' & E & _ & _ & Hin & Hq).
  - destruct H2. by eapply ready_minv.
  - apply H2.
  - exists k'. rewrite E. split; [done|].
    assert (Eq : queue K = i :: queue (kern s) ++ [p] /\ inbox <$> table K !! i = Some (inbox t ++ [msg])).
    { subst K. unfold deliver_front, get_thread, queue, table in *. simpl. rewrite !lookup_insert_ne by done.
      rewrite Hi. unfold wake. rewrite bool_decide_true by done. simpl. by rewrite lookup_insert_eq. }
    destruct Eq as [Eq Ei]. rewrite Eq in Hq. destruct Hq. by rewrite Hin, Ei.
Qed.

(** ** Concrete runs *)

#[global] Instance enabled_dec s o : Decision (enabled s o).
Proof.
  destruct o; cbn [enabled]; try apply _.
  all: destruct (CURRENT_THREAD (kern s)) as [p|]; [|right; naive_solver].
  all: destruct (decide (p = 0)); [right; naive_solver|left; eauto].
Defined.

Fixpoint run_ops (l : list op) (s : sys) : outcome sys :=
  match l with
  | [] => Ret s
  | o :: l =>
      if decide (enabled s o) then let! s := exec o s in run_ops l s else Panic
  end.

Lemma run_ops_reachable l : forall s s', reachable s -> run_ops l s = Ret s' -> reachable s'.
Proof.
  induction l as [|o l IH]; intros s s' Hs H; cbn [run_ops] in H; [by injection H as <-|].
  destruct (decide (enabled s o)); [|done]. bind_inv H. eapply IH; [|done]. by eapply reach_step.
Qed.

Definition demo_cpu : cpu := mkCpu ctx_default 0 kernel_trap_entry trap_stack_top (0, 0, 0) 0.

(** Two threads, 1 running with [demo_regs] in the hart, 2 ready. *)
Definition demo_regs : ThreadContext := mkContext 2129920 4660 1 2 3 4 5 6 7 8 9 10 11 12.

Definition demo_ops : list op :=
  [op_new 256 2097152; op_new 512 2162688; op_add 0; op_add 0; op_start;
   op_run demo_regs 4096 (fun p => p)].

Definition demo_from (l : list op) : outcome sys :=
  let! k := boot 4096 128 demo_cpu in run_ops (demo_ops ++ l) (mkSys k []).

Definition demo (l : list op) : sys :=
  match demo_from l with Ret s => s | _ => mkSys (mkKernel manager_new None None 0 demo_cpu) [] end.

Lemma demo_reachable l s : demo_from l = Ret s -> reachable s.
Proof.
  unfold demo_from. intros H. bind_inv H. eapply run_ops_reachable; [|done]. by eapply reach_boot.
Qed.

Lemma scheduler_safe_witness :
  reachable (demo []) /\ queue (kern (demo [])) = [2] /\ CURRENT_THREAD (kern (demo [])) = Some 1 /\
  inv (demo []) /\ forall o, enabled (demo []) o -> exists s', exec o (demo []) = Ret s'.
Proof.
  assert (Hr : reachable (demo [])) by (apply (demo_reachable []); by vm_compute).
  split_and!; [done|by vm_compute|by vm_compute|apply (scheduler_safe _ Hr)..].
Defined.

Lemma context_switch_transparent_witness :
  CURRENT_THREAD (kern (demo [op_yield None])) = Some 2 /\
  exists t, table (kern (demo [op_yield None; op_yield (Some [])])) !! 1 = Some t /\
    regs (hart (kern (demo [op_yield None; op_yield (Some [])]))) = demo_regs.
Proof.
  split; [by vm_compute|].
  destruct (context_switch_transparent (demo []) (demo [op_yield None])
    (demo [op_yield None; op_yield (Some [])]) 1 (op_yield None)) as (t & Ht & Hr & _).
  - apply (demo_reachable []). by vm_compute.
  - by vm_compute.
  - done.
  - done.
  - by vm_compute.
  - eapply (off_step 1 _ (demo [op_yield None]) _ (op_yield (Some []))); [apply off_refl|by vm_compute| |by vm_compute].
    exists 2. split; [by vm_compute|done].
  - by vm_compute.
  - exists t. split; [done|]. rewrite Hr. by vm_compute.
Defined.

Lemma receive_no_lost_wakeup_witness :
  exists t, table (kern (demo [op_receive; op_send 1 (mkMessage 2 99)])) !! 1 = Some t /\
    inbox t = [mkMessage 2 99] /\ (state t = Blocked -> inbox t = []).
Proof.
  destruct (receive_no_lost_wakeup (demo []) (demo [op_receive])
    (demo [op_receive; op_send 1 (mkMessage 2 99)]) 1
    (mkThread 1 Running (mkContext 2129920 256 0 0 0 0 0 0 0 0 0 0 0 0) (2097152, 32768) [] None))
    as (t & Ht & Hb & _).
  - apply (demo_reachable []). by vm_compute.
  - by vm_compute.
  - done.
  - by vm_compute.
  - done.
  - by vm_compute.
  - eapply (off_step 1 _ (demo [op_receive]) _ (op_send 1 (mkMessage 2 99)));
      [apply off_refl|by vm_compute|done|by vm_compute].
  - exists t. split_and!; [done| |done]. revert Ht. vm_compute. by intros [= <-].
Defined.

Lemma urgent_runs_target_next_witness :
  exists k', send_message_urgent 1 (mkMessage 2 7) (kern (demo [op_receive])) = Ret k' /\
    CURRENT_THREAD k' = Some 1.
Proof.
  destruct (urgent_runs_target_next (demo [op_receive]) 2 1
    (mkThread 1 Blocked demo_regs (2097152, 32768) [] None) (mkMessage 2 7)) as (k' & E & Hc & _).
  - apply (demo_reachable [op_receive]). by vm_compute.
  - by vm_compute.
  - done.
  - by vm_compute.
  - done.
  - exists k'. split; [exact E|exact Hc].
Defined.

End Thr.
