(* ===== verification/Dispatcher.v ===== *)
(** * The block device: driver interface, VirtIO driver and dispatcher

    Models [src/src/drivers/block.rs] (Module [Blk]), the request path of
    [src/src/drivers/virtio_blk.rs] (Module [Virtio]) and
    [src/src/block/disk/dispatcher.rs] (Module [Disp]).  The dispatcher is
    written against the interface [Blk.BlockDriver], which the VirtIO driver
    implements. *)

From S2P Require Import Prelude Memory.

Module Blk.

Definition BLOCK_SIZE : Z := 512.

Inductive BlockError := Timeout | IoError | InvalidInput.

#[global] Instance BlockError_eq_dec : EqDecision BlockError.
Proof. solve_decision. Defined.

(** A [&mut [u8]] handed to a driver: where it is and how long it is. *)
Record buffer := mkBuffer { ptr : Z; len : Z }.

(** A Rust slice lies inside the address space. *)
Definition buffer_ok (b : buffer) : Prop := 0 <= ptr b /\ 0 <= len b /\ ptr b + len b < USIZE.

Definition validate_read_buffer (b : buffer) : outcome (result Z BlockError) :=
  if (len b =? 0) || negb (len b mod BLOCK_SIZE =? 0) then Ret (Err InvalidInput)
  else if negb (ptr b mod BLOCK_SIZE =? 0) then Ret (Err InvalidInput)
  else
    let start_page := ptr b / Mem.PAGE_SIZE in
    let! x := uadd (ptr b) (len b) in
    let! last := usub x 1 in
    let end_page := last / Mem.PAGE_SIZE in
    if negb (start_page =? end_page) then Ret (Err InvalidInput)
    else Ret (Ok (as_u32 (len b / BLOCK_SIZE))).

(** What a buffer must satisfy for DMA without scatter-gather. *)
Definition dma_ok (b : buffer) : Prop :=
  0 < len b /\ len b mod 512 = 0 /\ ptr b mod 512 = 0 /\ ptr b / 4096 = (ptr b + len b - 1) / 4096.

Lemma validate_spec b : buffer_ok b ->
  (dma_ok b /\ validate_read_buffer b = Ret (Ok (len b / 512)) /\ 1 <= len b / 512 <= 8) \/
  (~ dma_ok b /\ validate_read_buffer b = Ret (Err InvalidInput)).
Proof.
  intros (Hp & Hl & Hu). unfold validate_read_buffer, dma_ok, BLOCK_SIZE, Mem.PAGE_SIZE.
  destruct (Z.eqb_spec (len b) 0); [right; simpl; split; [lia|done]|].
  destruct (Z.eqb_spec (len b mod 512) 0); [simpl|right; simpl; split; [lia|done]].
  destruct (Z.eqb_spec (ptr b mod 512) 0); [simpl|right; simpl; split; [lia|done]].
  rewrite uadd_ok by done. simpl. rewrite usub_ok by lia. simpl.
  destruct (Z.eqb_spec (ptr b / 4096) ((ptr b + len b - 1) / 4096)); simpl; [left|right].
  - split_and!; try lia. rewrite as_u32_small; [done|]. unfold U32. lia.
  - split; [lia|done].
Qed.

(** The trait [BlockDriver]: starting a read programs the hardware and returns
    at once.  A driver in a state it can be in does not panic on a slice. *)
Class BlockDriver (D : Type) := {
  driver_ok : D -> Prop;
  start_read : D -> Z -> buffer -> outcome (result unit BlockError * D);
  start_read_total : forall d sector b, driver_ok d -> buffer_ok b ->
    exists r d', start_read d sector b = Ret (r, d') /\ driver_ok d' }.

End Blk.

Module Virtio.
Import Blk.

Definition VIRTIO_QUEUE_SIZE : Z := 4.
Definition AVAIL_RING_OFFSET : Z := 2.
Definition BLK_REQ_HEADER_SIZE : Z := 16.
Definition BLK_STATUS_SIZE : Z := 1.
Definition DESC_F_NEXT : Z := 1.
Definition DESC_F_WRITE : Z := 2.
Definition BLK_T_IN : Z := 0.
Definition BLK_T_OUT : Z := 1.

Record VirtqDesc := mkDesc { addr : Z; dlen : Z; flags : Z; next : Z }.
Record VirtioBlkReq := mkReq { req_type : Z; sector : Z }.

(** [notified] counts the writes to the notify register. *)
Record VirtioBlk := mkVirtio {
  desc : list VirtqDesc;
  avail : list Z;
  req : VirtioBlkReq;
  status : Z;
  req_phys : Z;
  status_phys : Z;
  notified : nat }.

(** The driver's structures as [new] allocates them. *)
Definition wf (d : VirtioBlk) : Prop :=
  length (desc d) = 4%nat /\ length (avail d) = 6%nat /\ Forall (fun x => 0 <= x < U16) (avail d).

Section io.
(** [kernel_virt_to_phys] of kernel_memory_map.rs at the current tables. *)
Context (kernel_virt_to_phys : Z -> option Z).

(** The descriptor chain: request header, data buffer, status byte. *)
Definition chain (d : VirtioBlk) (buf_phys : Z) (b : buffer) (data_flags : Z) : list VirtqDesc :=
  [mkDesc (req_phys d) BLK_REQ_HEADER_SIZE DESC_F_NEXT 1;
   mkDesc buf_phys (as_u32 (len b)) data_flags 2;
   mkDesc (status_phys d) BLK_STATUS_SIZE DESC_F_WRITE 0].

Definition start_io (type_ sector_ : Z) (b : buffer) (data_flags : Z) (d : VirtioBlk)
    : outcome (result unit BlockError * VirtioBlk) :=
  let! v := validate_read_buffer b in
  match v with
  | Err e => Ret (Err e, d)
  | Ok _ =>
      match kernel_virt_to_phys (ptr b) with
      | None => Ret (Err IoError, d)
      | Some buf_phys =>
          let! avail_idx := expect (avail d !! 1%nat) in
          let slot := Z.to_nat (AVAIL_RING_OFFSET + avail_idx mod VIRTIO_QUEUE_SIZE) in
          let! _ := expect (avail d !! slot) in
          Ret (Ok tt,
               mkVirtio (chain d buf_phys b data_flags ++ drop 3 (desc d))
                 (<[1%nat := (avail_idx + 1) mod U16]> (<[slot := 0]> (avail d)))
                 (mkReq type_ sector_) 255 (req_phys d) (status_phys d) (S (notified d)))
      end
  end.

Definition virtio_start_read (d : VirtioBlk) (sector_ : Z) (b : buffer)
    : outcome (result unit BlockError * VirtioBlk) :=
  start_io BLK_T_IN sector_ b (Z.lor DESC_F_WRITE DESC_F_NEXT) d.

Definition virtio_start_write (d : VirtioBlk) (sector_ : Z) (b : buffer)
    : outcome (result unit BlockError * VirtioBlk) :=
  start_io BLK_T_OUT sector_ b DESC_F_NEXT d.

(** What the device sees: from the head of a chain it follows the descriptors
    whose flags have [DESC_F_NEXT], at most as many as the queue has. *)
Fixpoint device_chain (fuel : nat) (t : list VirtqDesc) (i : Z) : list (Z * Z * bool) :=
  match fuel with
  | O => []
  | S fuel =>
      match t !! Z.to_nat i with
      | None => []
      | Some x =>
          (addr x, dlen x, Z.testbit (flags x) 1) ::
          (if Z.testbit (flags x) 0 then device_chain fuel t (next x) else [])
      end
  end.

Lemma start_io_spec type_ sector_ b fl d : wf d -> buffer_ok b ->
  (dma_ok b /\ exists p, kernel_virt_to_phys (ptr b) = Some p /\ exists idx d',
     avail d !! 1%nat = Some idx /\ 0 <= idx < U16 /\
     start_io type_ sector_ b fl d = Ret (Ok tt, d') /\ wf d' /\
     desc d' = chain d p b fl ++ drop 3 (desc d) /\ req d' = mkReq type_ sector_ /\ status d' = 255 /\
     avail d' !! 1%nat = Some ((idx + 1) mod U16) /\
     avail d' !! Z.to_nat (2 + idx mod 4) = Some 0 /\ notified d' = S (notified d) /\
     req_phys d' = req_phys d /\ status_phys d' = status_phys d) \/
  (exists e, start_io type_ sector_ b fl d = Ret (Err e, d) /\
     (~ dma_ok b \/ kernel_virt_to_phys (ptr b) = None)).
Proof.
  intros (Hd & Ha & Hf) Hb. unfold start_io.
  destruct (validate_spec b Hb) as [(Hok & -> & _)|(Hno & ->)]; cbn [obind]; [|right; eauto].
  destruct (kernel_virt_to_phys (ptr b)) as [p|]; [left|right; eauto].
  split; [done|]. exists p. split; [done|].
  destruct (lookup_lt_is_Some_2 (avail d) 1) as (idx & Hi); [lia|].
  assert (Hr : 0 <= idx < U16) by (rewrite Forall_lookup in Hf; eauto).
  rewrite Hi. cbn [obind expect]. unfold AVAIL_RING_OFFSET, VIRTIO_QUEUE_SIZE.
  destruct (lookup_lt_is_Some_2 (avail d) (Z.to_nat (2 + idx mod 4))) as (x & Hx); [lia|].
  rewrite Hx. cbn [obind expect]. exists idx. eexists. split_and!; try done; try lia; simpl.
  - split_and!; simpl.
    + rewrite length_drop. lia.
    + by rewrite !length_insert.
    + assert (0 <= (idx + 1) mod U16 < U16) by (apply Z.mod_pos_bound; done).
      apply Forall_insert; [|done]. apply Forall_insert; [done|]. done.
  - rewrite list_lookup_insert_eq; [done|]. rewrite length_insert. lia.
  - rewrite list_lookup_insert_ne by lia. rewrite list_lookup_insert_eq; [done|lia].
Qed.

Lemma virtio_total d sector_ b : wf d -> buffer_ok b ->
  exists r d', virtio_start_read d sector_ b = Ret (r, d') /\ wf d'.
Proof.
  intros Hd Hb. destruct (start_io_spec BLK_T_IN sector_ b (Z.lor DESC_F_WRITE DESC_F_NEXT) d Hd Hb)
    as [(_ & p & _ & idx & d' & _ & _ & E & Hd' & _)|(e & E & _)]; eauto.
Qed.

#[global] Instance virtio_driver : BlockDriver VirtioBlk := {
  driver_ok := wf;
  start_read := virtio_start_read;
  start_read_total := virtio_total }.

(** Starting a VirtIO read either fails and leaves the driver untouched,
    which happens exactly when the buffer breaks a DMA rule or has no physical
    address, or it publishes one request: the entry of the available ring the
    device looks at next names a chain of exactly three descriptors, the
    read-only header with the request type and sector, the caller's buffer,
    device-writable, at its physical address with its full length and inside
    one page, and the device-writable status byte; the ring index then
    advances by one modulo 2^16. *)
Theorem virtio_start_read_spec d sector_ b (Hd : wf d) (Hb : buffer_ok b) :
  (exists e, virtio_start_read d sector_ b = Ret (Err e, d) /\
     (~ dma_ok b \/ kernel_virt_to_phys (ptr b) = None)) \/
  (exists p idx d' head,
     dma_ok b /\ kernel_virt_to_phys (ptr b) = Some p /\ avail d !! 1%nat = Some idx /\
     virtio_start_read d sector_ b = Ret (Ok tt, d') /\ wf d' /\
     avail d' !! Z.to_nat (2 + idx mod 4) = Some head /\ avail d' !! 1%nat = Some ((idx + 1) mod U16) /\
     device_chain 4 (desc d') head =
       [(req_phys d, 16, false); (p, len b, true); (status_phys d, 1, true)] /\
     req d' = mkReq BLK_T_IN sector_ /\ notified d' = S (notified d)).
Proof.
  destruct (start_io_spec BLK_T_IN sector_ b (Z.lor DESC_F_WRITE DESC_F_NEXT) d Hd Hb)
    as [(Hok & p & Hp & idx & d' & Hi & _ & E & Hd' & Hc & Hr & _ & Ha1 & Ha2 & Hn & _)|(e & E & He)];
    [right|left; eauto].
  exists p, idx, d', 0. split_and!; try done. rewrite Hc. unfold chain.
  destruct Hok as (? & ? & ? & ?). rewrite as_u32_small by (unfold U32; lia). done.
Qed.

End io.

Definition demo_virtio : VirtioBlk :=
  mkVirtio (replicate 4 (mkDesc 0 0 0 0)) [0; 5; 0; 0; 0; 0] (mkReq 0 0) 0 8192 8256 0.

Lemma demo_virtio_wf : wf demo_virtio.
Proof. unfold wf. split_and!; [done..|]. simpl. repeat constructor; try lia; done. Qed.

Lemma virtio_start_read_spec_witness :
  exists d', virtio_start_read Some demo_virtio 2048 (mkBuffer 20480 4096) = Ret (Ok tt, d') /\
    avail d' = [0; 6; 0; 0; 0; 0] /\
    device_chain 4 (desc d') 0 = [(8192, 16, false); (20480, 4096, true); (8256, 1, true)].
Proof.
  destruct (virtio_start_read_spec Some demo_virtio 2048 (mkBuffer 20480 4096) demo_virtio_wf)
    as [(e & E & _)|(p & idx & d' & head & _ & Hp & _ & E & _)].
  - unfold buffer_ok, USIZE. simpl. lia.
  - exfalso. by vm_compute in E.
  - exists d'. split; [done|]. revert E. vm_compute. by intros [= <-].
Defined.

End Virtio.

Module Disp.
Import Blk.

Inductive BlockMessage :=
| ReadRequest (sector : Z) (b : buffer) (requester_tid : Z)
| ReadComplete (status : result unit BlockError)
| ReadResponse (status : result unit BlockError).

Record PendingRequest := mkPending { psector : Z; pbuffer : buffer; ptid : Z }.

(** What the dispatcher does to the outside: a read the device accepted, on
    behalf of a thread, and a [ReadResponse] sent to a thread. *)
Inductive event :=
| Started (tid : Z)
| Replied (tid : Z) (status : result unit BlockError).

Section dispatcher.
Context {D : Type} `{BlockDriver D}.

(** [REQUEST] is the requester of the read in flight. *)
Record dispatcher := mkDispatcher {
  device : D;
  REQUEST : option Z;
  pending : list PendingRequest }.

Definition issue_read (s : dispatcher) (sector : Z) (b : buffer) (requester_tid : Z)
    : outcome (dispatcher * list event) :=
  let! '(r, dev) := start_read (device s) sector b in
  match r with
  | Ok _ => Ret (mkDispatcher dev (Some requester_tid) (pending s), [Started requester_tid])
  | Err e => Ret (mkDispatcher dev (REQUEST s) (pending s), [Replied requester_tid (Err e)])
  end.

(** One turn of the loop of [dispatcher_main]. *)
Definition dispatcher_main (s : dispatcher) (m : BlockMessage) : outcome (dispatcher * list event) :=
  match m with
  | ReadRequest sector b requester_tid =>
      match REQUEST s with
      | Some _ => Ret (mkDispatcher (device s) (REQUEST s) (pending s ++ [mkPending sector b requester_tid]), [])
      | None => issue_read s sector b requester_tid
      end
  | ReadComplete status =>
      match REQUEST s with
      | Some tid =>
          match pending s with
          | next :: rest =>
              let! '(s', ev) :=
                issue_read (mkDispatcher (device s) None rest) (psector next) (pbuffer next) (ptid next) in
              Ret (s', Replied tid status :: ev)
          | [] => Ret (mkDispatcher (device s) None [], [Replied tid status])
          end
      | None => Ret (s, [])
      end
  | ReadResponse _ => Ret (s, [])
  end.

(** The messages of the inbox in turn; the events in order. *)
Fixpoint serve (l : list BlockMessage) (s : dispatcher) : outcome (dispatcher * list event) :=
  match l with
  | [] => Ret (s, [])
  | m :: l =>
      let! '(s', ev) := dispatcher_main s m in
      let! '(s'', ev') := serve l s' in
      Ret (s'', ev ++ ev')
  end.

(** ** The contract *)

Definition requester (m : BlockMessage) : option Z :=
  match m with ReadRequest _ _ tid => Some tid | _ => None end.
Definition requests (l : list BlockMessage) : list Z := omap requester l.
Definition replied (tr : list event) : list Z :=
  omap (fun e => match e with Replied t _ => Some t | Started _ => None end) tr.
Definition waiting (s : dispatcher) : list Z := option_list (REQUEST s) ++ (ptid <$> pending s).

(** Run a trace against a device that does one read at a time: a read starts
    only when none is outstanding, and an answer given while a read is
    outstanding is the answer to that read. *)
Fixpoint outstanding (cur : option Z) (tr : list event) : option (option Z) :=
  match tr with
  | [] => Some cur
  | Started t :: tr => match cur with None => outstanding (Some t) tr | Some _ => None end
  | Replied t _ :: tr =>
      match cur with
      | Some u => if t =? u then outstanding None tr else None
      | None => outstanding None tr
      end
  end.

Lemma outstanding_app tr tr' : forall cur,
  outstanding cur (tr ++ tr') = outstanding cur tr ≫= fun c => outstanding c tr'.
Proof. induction tr as [|[t|t st] tr IH]; intros [u|]; simpl; auto. by destruct (t =? u). Qed.

Definition message_ok (m : BlockMessage) : Prop :=
  match m with ReadRequest _ b _ => buffer_ok b | _ => True end.

Record disp_ok (s : dispatcher) : Prop := {
  dk_driver : driver_ok (device s);
  dk_pending : Forall (fun p => buffer_ok (pbuffer p)) (pending s) }.

(** What one turn does, for any driver: the threads waiting before the turn
    and those that ask in it are answered in it or wait after it. *)
Definition turn_ok (s : dispatcher) (asked : list Z) (s' : dispatcher) (ev : list event) : Prop :=
  disp_ok s' /\ outstanding (REQUEST s) ev = Some (REQUEST s') /\
  waiting s ++ asked ≡ₚ replied ev ++ waiting s'.

Lemma issue_read_ok s sector b tid : disp_ok s -> buffer_ok b -> REQUEST s = None ->
  exists s' ev, issue_read s sector b tid = Ret (s', ev) /\ disp_ok s' /\
    outstanding None ev = Some (REQUEST s') /\ tid :: (ptid <$> pending s) ≡ₚ replied ev ++ waiting s' /\
    pending s' = pending s.
Proof.
  intros [Hd Hp] Hb Hr. unfold issue_read.
  destruct (start_read_total (device s) sector b Hd Hb) as ([[]|e] & dev & -> & Hdev); cbn [obind].
  - eexists _, _. split; [done|]. split_and!; try done.
  - eexists _, _. split; [done|]. unfold waiting. simpl. by rewrite Hr.
Qed.

Lemma turn s m : disp_ok s -> message_ok m ->
  exists s' ev, dispatcher_main s m = Ret (s', ev) /\ turn_ok s (requests [m]) s' ev.
Proof.
  intros Hs Hm. pose proof Hs as [Hd Hp]. destruct m as [sector b tid|st|st]; cbn [dispatcher_main].
  - destruct (REQUEST s) as [u|] eqn:Er.
    + eexists _, _. split; [done|]. unfold turn_ok. cbn [REQUEST]. split_and!; [|by rewrite Er|].
      * split; [done|]. simpl. apply Forall_app_2; [done|]. by constructor.
      * unfold waiting. simpl. by rewrite Er, fmap_app.
    + destruct (issue_read_ok s sector b tid Hs Hm Er) as (s' & ev & E & H1 & H2 & H3 & _).
      exists s', ev. split; [done|]. unfold turn_ok. rewrite Er. split_and!; [done|done|].
      rewrite <- H3. unfold waiting. rewrite Er. simpl. symmetry. apply Permutation_cons_append.
  - destruct (REQUEST s) as [u|] eqn:Er.
    + destruct (pending s) as [|nx rest] eqn:Ep.
      * eexists _, _. split; [done|]. unfold turn_ok, waiting. simpl. rewrite Er, Ep. simpl.
        rewrite Z.eqb_refl. split_and!; [by split|done|done].
      * apply Forall_cons in Hp as [Hb Hp].
        destruct (issue_read_ok (mkDispatcher (device s) None rest) (psector nx) (pbuffer nx) (ptid nx))
          as (s' & ev & E & H1 & H2 & H3 & _); [by split|done|done|].
        rewrite E. cbn [obind]. eexists _, _. split; [done|]. unfold turn_ok. rewrite Er.
        split_and!; [done|simpl; by rewrite Z.eqb_refl|].
        unfold waiting at 1. simpl. rewrite Er, Ep, app_nil_r. simpl. by f_equiv.
    + eexists _, _. split; [done|]. unfold turn_ok. simpl. by rewrite Er, app_nil_r.
  - eexists _, _. split; [done|]. unfold turn_ok. simpl. rewrite app_nil_r. by split_and!.
Qed.

Lemma serve_ok l : forall s, disp_ok s -> Forall message_ok l ->
  exists s' ev, serve l s = Ret (s', ev) /\ turn_ok s (requests l) s' ev.
Proof.
  induction l as [|m l IH]; intros s Hs Hl.
  - exists s, []. split; [done|]. unfold turn_ok. simpl. by rewrite app_nil_r.
  - apply Forall_cons in Hl as [Hm Hl]. cbn [serve].
    destruct (turn s m Hs Hm) as (s1 & e1 & -> & Hs1 & Ho1 & Hp1). cbn [obind].
    destruct (IH s1 Hs1 Hl) as (s2 & e2 & -> & Hs2 & Ho2 & Hp2). cbn [obind].
    exists s2, (e1 ++ e2). split; [done|]. split_and!; [done| |].
    + by rewrite outstanding_app, Ho1.
    + change (m :: l) with ([m] ++ l). unfold requests, replied in *.
      rewrite !omap_app, (assoc (++)), Hp1, <- (assoc (++)), Hp2. by rewrite (assoc (++)).
Qed.

(** The dispatcher answers every request at most once and forgets none,
    and the device never has two reads outstanding.  For any driver, and any
    sequence of requests and completions (in any order, spurious completions
    included), serving it does not panic; a read is started only when no read
    is outstanding, an answer given while one is outstanding goes to its
    requester; and the threads that asked are, counted with multiplicity,
    the threads answered, the one whose read is in flight and those queued. *)
Theorem dispatcher_serial dev l (Hd : driver_ok dev) (Hl : Forall message_ok l) :
  exists s tr, serve l (mkDispatcher dev None []) = Ret (s, tr) /\
    outstanding None tr = Some (REQUEST s) /\
    requests l ≡ₚ replied tr ++ option_list (REQUEST s) ++ (ptid <$> pending s).
Proof.
  destruct (serve_ok l (mkDispatcher dev None [])) as (s & tr & E & _ & Ho & Hp); [by split|done|].
  exists s, tr. split_and!; done.
Qed.

(** ** First come, first served

    As long as the driver accepts the reads it is given. *)
Section fifo.
Context (valid : buffer -> Prop).
Context (accepts : forall d sector b, driver_ok d -> valid b ->
  exists d', start_read d sector b = Ret (Ok tt, d') /\ driver_ok d').

Definition valid_message (m : BlockMessage) : Prop :=
  match m with ReadRequest _ b _ => valid b | _ => True end.

Record fifo_ok (s : dispatcher) : Prop := {
  fk_driver : driver_ok (device s);
  fk_pending : Forall (fun p => valid (pbuffer p)) (pending s);
  fk_busy : REQUEST s = None -> pending s = [] }.

Lemma fifo_turn s m : fifo_ok s -> valid_message m ->
  exists s' ev, dispatcher_main s m = Ret (s', ev) /\ fifo_ok s' /\
    waiting s ++ requests [m] = replied ev ++ waiting s'.
Proof.
  intros [Hd Hp Hb] Hm. unfold waiting. destruct m as [sector b tid|st|st]; cbn [dispatcher_main].
  - destruct (REQUEST s) as [u|] eqn:Er.
    + eexists _, _. split; [done|]. split; [|by simpl; rewrite fmap_app].
      split; [done| |done]. simpl. apply Forall_app_2; [done|]. by constructor.
    + unfold issue_read. destruct (accepts (device s) sector b Hd Hm) as (d' & -> & Hd').
      eexists _, _. split; [done|]. rewrite (Hb eq_refl). simpl. split; [|done]. by split.
  - destruct (REQUEST s) as [u|] eqn:Er; [destruct (pending s) as [|nx rest] eqn:Ep|].
    + eexists _, _. split; [done|]. split; [by split|done].
    + apply Forall_cons in Hp as [Hv Hp]. unfold issue_read. simpl.
      destruct (accepts (device s) (psector nx) (pbuffer nx) Hd Hv) as (d' & -> & Hd').
      eexists _, _. split; [done|]. simpl. rewrite app_nil_r. split; [|done]. by split.
    + exists s, []. split; [done|]. simpl. rewrite Er, app_nil_r. split; [|done]. split; auto.
  - exists s, []. split; [done|]. simpl. rewrite app_nil_r. by split.
Qed.

Lemma serve_fifo l : forall s, fifo_ok s -> Forall valid_message l ->
  exists s' ev, serve l s = Ret (s', ev) /\ fifo_ok s' /\ waiting s ++ requests l = replied ev ++ waiting s'.
Proof.
  induction l as [|m l IH]; intros s Hs Hl.
  - exists s, []. split; [done|]. simpl. by rewrite app_nil_r.
  - apply Forall_cons in Hl as [Hm Hl]. cbn [serve].
    destruct (fifo_turn s m Hs Hm) as (s1 & e1 & -> & Hs1 & Hp1). cbn [obind].
    destruct (IH s1 Hs1 Hl) as (s2 & e2 & -> & Hs2 & Hp2). cbn [obind].
    exists s2, (e1 ++ e2). split_and!; [done|done|].
    change (m :: l) with ([m] ++ l). unfold requests, replied in *.
    rewrite !omap_app, (assoc_L (++)), Hp1, <- (assoc_L (++)), Hp2. by rewrite (assoc_L (++)).
Qed.
End fifo.

(** Requests are answered in the order they arrive, and the device is
    never idle while requests wait, as long as the driver accepts the reads it
    is given: the threads that asked are, in order, the threads answered, the
    one whose read is in flight, and those queued; and when no read is in
    flight the queue is empty. *)
Theorem dispatcher_fifo (valid : buffer -> Prop) dev l
    (accepts : forall d sector b, driver_ok d -> valid b ->
       exists d', start_read d sector b = Ret (Ok tt, d') /\ driver_ok d')
    (Hd : driver_ok dev) (Hl : Forall (valid_message valid) l) :
  exists s tr, serve l (mkDispatcher dev None []) = Ret (s, tr) /\
    requests l = replied tr ++ option_list (REQUEST s) ++ (ptid <$> pending s) /\
    (REQUEST s = None -> pending s = []).
Proof.
  destruct (serve_fifo valid accepts l (mkDispatcher dev None [])) as (s & tr & E & [] & Hw); [by split|done|].
  by exists s, tr.
Qed.

(** A queued read the driver refuses stalls the queue.  When the read in
    flight completes and the driver refuses the request taken from the queue,
    that requester is answered with the error, but no other queued request is
    issued: nothing is in flight, the rest of the queue stays, and no further
    completion moves it. *)
Theorem dispatcher_stalls s tid nx rest e dev' st (n : nat)
    (Hr : REQUEST s = Some tid) (Hp : pending s = nx :: rest)
    (He : start_read (device s) (psector nx) (pbuffer nx) = Ret (Err e, dev')) :
  exists s', dispatcher_main s (ReadComplete st) = Ret (s', [Replied tid st; Replied (ptid nx) (Err e)]) /\
    REQUEST s' = None /\ pending s' = rest /\
    serve (replicate n (ReadComplete (Ok tt))) s' = Ret (s', []).
Proof.
  cbn [dispatcher_main]. rewrite Hr, Hp. unfold issue_read. cbn [device]. rewrite He. cbn [obind].
  exists (mkDispatcher dev' None rest). split_and!; [done..|].
  induction n as [|n IH]; [done|]. simpl. simpl in IH. by rewrite IH.
Qed.

End dispatcher.

(** The witnesses use the VirtIO driver with the identity mapping. *)
Definition demo_requests : list BlockMessage :=
  [ReadRequest 0 (mkBuffer 4096 512) 3; ReadRequest 8 (mkBuffer 8192 4096) 5;
   ReadRequest 9 (mkBuffer 8200 512) 6; ReadRequest 10 (mkBuffer 12288 512) 7].

Lemma demo_ok : Forall message_ok demo_requests.
Proof. repeat constructor; simpl; unfold USIZE; lia. Qed.

Lemma dispatcher_serial_witness :
  exists s tr, serve (H := Virtio.virtio_driver Some) demo_requests (mkDispatcher Virtio.demo_virtio None []) = Ret (s, tr) /\
    REQUEST s = Some 3 /\ requests demo_requests ≡ₚ replied tr ++ option_list (REQUEST s) ++ (ptid <$> pending s).
Proof.
  destruct (dispatcher_serial (H := Virtio.virtio_driver Some) Virtio.demo_virtio demo_requests
    Virtio.demo_virtio_wf demo_ok) as (s & tr & E & Ho & Hp).
  exists s, tr. split_and!; [done| |done]. revert E. vm_compute. by intros [= <- _].
Defined.

Lemma virtio_accepts d sector b : Virtio.wf d -> buffer_ok b /\ dma_ok b ->
  exists d', Virtio.virtio_start_read Some d sector b = Ret (Ok tt, d') /\ Virtio.wf d'.
Proof.
  intros Hd [Hb Ho]. destruct (Virtio.start_io_spec Some Virtio.BLK_T_IN sector b
    (Z.lor Virtio.DESC_F_WRITE Virtio.DESC_F_NEXT) d Hd Hb)
    as [(_ & p & _ & idx & d' & _ & _ & E & Hd' & _)|(e & E & [?|?])]; [eauto|done|done].
Qed.

Lemma dispatcher_fifo_witness :
  exists s tr,
    serve (H := Virtio.virtio_driver Some) (take 2 demo_requests ++ [ReadComplete (Ok tt)])
      (mkDispatcher Virtio.demo_virtio None []) = Ret (s, tr) /\
    replied tr = [3] /\ REQUEST s = Some 5 /\ (REQUEST s = None -> pending s = []).
Proof.
  destruct (dispatcher_fifo (H := Virtio.virtio_driver Some) (fun b => buffer_ok b /\ dma_ok b)
    Virtio.demo_virtio (take 2 demo_requests ++ [ReadComplete (Ok tt)]) virtio_accepts Virtio.demo_virtio_wf)
    as (s & tr & E & Hq & Hb).
  - repeat constructor; simpl; unfold USIZE; try lia; done.
  - exists s, tr. split; [done|]. revert E Hb. vm_compute. by intros [= <- <-].
Defined.

Lemma dispatcher_stalls_witness :
  exists s', dispatcher_main (H := Virtio.virtio_driver Some)
    (mkDispatcher Virtio.demo_virtio (Some 3)
       [mkPending 9 (mkBuffer 8200 512) 6; mkPending 10 (mkBuffer 12288 512) 7]) (ReadComplete (Ok tt))
    = Ret (s', [Replied 3 (Ok tt); Replied 6 (Err InvalidInput)]) /\
    REQUEST s' = None /\ ptid <$> pending s' = [7].
Proof.
  destruct (dispatcher_stalls (H := Virtio.virtio_driver Some)
    (mkDispatcher Virtio.demo_virtio (Some 3)
       [mkPending 9 (mkBuffer 8200 512) 6; mkPending 10 (mkBuffer 12288 512) 7])
    3 (mkPending 9 (mkBuffer 8200 512) 6) [mkPending 10 (mkBuffer 12288 512) 7]
    InvalidInput Virtio.demo_virtio (Ok tt) 2) as (s' & E & Hr & Hp & _); [done..|].
  exists s'. by rewrite Hp.
Defined.

End Disp.
