(* ===== verification/Block.v ===== *)
(** * The block layer: partition table, volumes and the block cache

    Models [src/src/block/partition.rs] (Module [Mbr]), the volumes of
    [src/src/block/volume/] and [src/src/block/disk/mod.rs] (Module [Vol]) and
    the block cache [src/src/block/cache.rs] (Module [Cached]).  A volume is an
    instance of [Vol.BlockVolume]; what a client proves against the interface
    holds for a partition, a whole disk and a cached volume alike. *)

From S2P Require Import Prelude Bytes Collections Dispatcher.

Module Mbr.

Definition MBR_SIGNATURE : Z := 0xaa55.
Definition MBR_SIGNATURE_OFFSET : Z := 510.
Definition MBR_PARTITION_TABLE_OFFSET : Z := 446.
Definition MBR_PARTITION_ENTRY_SIZE : Z := 16.
Definition PARTITION_TYPE_OFFSET : Z := 4.
Definition PARTITION_LBA_OFFSET : Z := 8.
Definition PARTITION_SECTORS_OFFSET : Z := 12.

Record Partition := mkPartition { number : Z; lba_start : Z; num_sectors : Z }.

(** [u16::from_le_bytes(l[o..o + 2])], [u32::from_le_bytes(l[o..o + 4])] *)
Definition le_at (n : Z) (l : list Z) (o : Z) : outcome Z :=
  let! s := slice l o (o + n) in Ret (from_le s).

(** One turn of the loop over the four entries. *)
Definition parse_entry (block0 : list Z) (acc : list Partition) (i : Z) : outcome (list Partition) :=
  let offset := MBR_PARTITION_TABLE_OFFSET + i * MBR_PARTITION_ENTRY_SIZE in
  let! entry_bytes := slice block0 offset (offset + MBR_PARTITION_ENTRY_SIZE) in
  let! partition_type := expect (entry_bytes !! Z.to_nat PARTITION_TYPE_OFFSET) in
  let! lba_start := le_at 4 entry_bytes PARTITION_LBA_OFFSET in
  let! num_sectors := le_at 4 entry_bytes PARTITION_SECTORS_OFFSET in
  if (partition_type =? 0) && (num_sectors =? 0) then Ret acc
  else Ret (acc ++ [mkPartition (i + 1) lba_start num_sectors]).

Definition parse_mbr (block0 : list Z) : outcome (list Partition) :=
  let! signature := le_at 2 block0 MBR_SIGNATURE_OFFSET in
  if negb (signature =? MBR_SIGNATURE) then Ret []
  else ofold (parse_entry block0) [0; 1; 2; 3] [].

(** ** Partition tables on disk *)

(** An entry: the boot flag and first CHS address, the type, the last CHS
    address, the first sector and the number of sectors. *)
Record entry := mkEntry { pre : list Z; ptype : Z; chs : list Z; lba : Z; sectors : Z }.

Definition entry_ok (e : entry) : Prop :=
  length (pre e) = 4%nat /\ length (chs e) = 3%nat /\ 0 <= lba e < U32 /\ 0 <= sectors e < U32.

Definition encode (e : entry) : list Z :=
  pre e ++ [ptype e] ++ chs e ++ to_le 4 (lba e) ++ to_le 4 (sectors e).

Definition image (code : list Z) (e1 e2 e3 e4 : entry) : list Z :=
  code ++ encode e1 ++ encode e2 ++ encode e3 ++ encode e4 ++ [0x55; 0xaa].

Definition present (e : entry) : bool := negb ((ptype e =? 0) && (sectors e =? 0)).

Definition listed (i : Z) (e : entry) : list Partition :=
  if present e then [mkPartition (i + 1) (lba e) (sectors e)] else [].

Lemma encode_len e : entry_ok e -> length (encode e) = 16%nat.
Proof. intros (H1 & H2 & _). unfold encode. rewrite !length_app, !to_le_len. simpl. lia. Qed.

Lemma le_at_app n l1 x l3 o : o = Z.of_nat (length l1) -> 0 <= x < 256 ^ Z.of_nat n ->
  le_at (Z.of_nat n) (l1 ++ to_le n x ++ l3) o = Ret x.
Proof.
  intros -> Hx. unfold le_at. rewrite (slice_app l1 (to_le n x)); [|done|by rewrite to_le_len].
  cbn [obind]. by rewrite from_to_le.
Qed.

Lemma parse_entry_ok code e rest acc i : entry_ok e ->
  Z.of_nat (length code) = MBR_PARTITION_TABLE_OFFSET + i * MBR_PARTITION_ENTRY_SIZE ->
  parse_entry (code ++ encode e ++ rest) acc i = Ret (acc ++ listed i e).
Proof.
  intros He Hc. pose proof (encode_len e He) as Hlen. unfold parse_entry.
  rewrite (slice_app code (encode e)); [|done|by rewrite Hlen]. cbn [obind].
  destruct He as (H1 & H2 & H3 & H4). unfold encode.
  replace ((pre e ++ _) !! Z.to_nat PARTITION_TYPE_OFFSET) with (Some (ptype e)).
  2: { symmetry. apply (list_lookup_middle (pre e) _ (ptype e)). by rewrite H1. }
  cbn [obind expect].
  assert (E1 : le_at 4 (pre e ++ [ptype e] ++ chs e ++ to_le 4 (lba e) ++ to_le 4 (sectors e)) PARTITION_LBA_OFFSET
               = Ret (lba e)).
  { rewrite !(assoc_L (++)), <- (assoc_L (++) _ (to_le 4 (lba e))). apply (le_at_app 4).
    - rewrite !length_app. simpl. rewrite H1, H2. done.
    - unfold U32 in H3. simpl. lia. }
  assert (E2 : le_at 4 (pre e ++ [ptype e] ++ chs e ++ to_le 4 (lba e) ++ to_le 4 (sectors e)) PARTITION_SECTORS_OFFSET
               = Ret (sectors e)).
  { rewrite !(assoc_L (++)), <- (app_nil_r (to_le 4 (sectors e))). apply (le_at_app 4).
    - rewrite !length_app, to_le_len. simpl. rewrite H1, H2. done.
    - unfold U32 in H4. simpl. lia. }
  rewrite E1, E2. cbn [obind]. unfold listed, present.
  destruct ((ptype e =? 0) && (sectors e =? 0)); cbn [negb]; [by rewrite app_nil_r|done].
Qed.

(** Reading back a partition table gives the partitions written: for any
    boot code and any four entries, whatever their flags and CHS fields,
    parsing the sector yields exactly the entries that are not empty, in
    order, numbered by their position. *)
Theorem parse_mbr_roundtrip code e1 e2 e3 e4
    (Hc : length code = 446%nat) (H1 : entry_ok e1) (H2 : entry_ok e2) (H3 : entry_ok e3) (H4 : entry_ok e4) :
  parse_mbr (image code e1 e2 e3 e4) = Ret (listed 0 e1 ++ listed 1 e2 ++ listed 2 e3 ++ listed 3 e4).
Proof.
  assert (Hsig : le_at 2 (image code e1 e2 e3 e4) MBR_SIGNATURE_OFFSET = Ret MBR_SIGNATURE).
  { unfold image. rewrite !(assoc_L (++)), <- (app_nil_r [_; _]).
    apply (le_at_app 2 _ MBR_SIGNATURE []); [|done].
    rewrite !length_app, !encode_len, Hc by done. done. }
  unfold parse_mbr. rewrite Hsig. unfold image. cbn [obind negb Z.eqb ofold].
  replace (MBR_SIGNATURE =? MBR_SIGNATURE) with true by done. cbn [negb].
  rewrite (parse_entry_ok code e1) by (done || by rewrite Hc). cbn [obind].
  rewrite (assoc_L (++) code), (parse_entry_ok (code ++ encode e1) e2)
    by (done || by rewrite !length_app, !encode_len, Hc). cbn [obind].
  rewrite (assoc_L (++) (code ++ _)), (parse_entry_ok ((code ++ encode e1) ++ encode e2) e3)
    by (done || by rewrite !length_app, !encode_len, Hc). cbn [obind].
  rewrite (assoc_L (++) ((code ++ _) ++ _)), (parse_entry_ok (((code ++ encode e1) ++ encode e2) ++ encode e3) e4)
    by (done || by rewrite !length_app, !encode_len, Hc). cbn [obind].
  by rewrite <- !(assoc_L (++)).
Qed.

Definition demo_entry (t a n : Z) : entry := mkEntry [0; 1; 2; 3] t [254; 255; 255] a n.

Lemma parse_mbr_roundtrip_witness :
  parse_mbr (image (replicate 446 144) (demo_entry 12 2048 32768) (demo_entry 131 34816 65536)
    (demo_entry 0 0 0) (demo_entry 0 0 0)) = Ret [mkPartition 1 2048 32768; mkPartition 2 34816 65536].
Proof.
  rewrite parse_mbr_roundtrip; [done|done|..]; unfold entry_ok, U32; simpl; lia.
Defined.

End Mbr.

Module Vol.
Import Blk Mbr.

Definition CACHE_BLOCK_SIZE : Z := 4096.

(** The trait [BlockVolume].  [read_blocks v lba n] fills a buffer of [n]
    bytes; the result carries the bytes read. *)
Class BlockVolume (V : Type) := {
  read_blocks : V -> Z -> Z -> outcome (result (list Z) BlockError);
  size_blocks : V -> Z }.

(** The default [get_block]: one cache unit into a page-aligned buffer. *)
Definition get_block {V} `{BlockVolume V} (v : V) (lba : Z) : outcome (result (list Z) BlockError) :=
  read_blocks v lba CACHE_BLOCK_SIZE.

(** The buffer [get_block] allocates passes the driver's checks. *)
Lemma block_buf_dma a : 0 <= a -> a mod CACHE_BLOCK_SIZE = 0 -> dma_ok (mkBuffer a CACHE_BLOCK_SIZE).
Proof. unfold CACHE_BLOCK_SIZE, dma_ok. simpl. lia. Qed.

(** The disk: what a read of [n] bytes at a sector gives, after the
    dispatcher and the driver. *)
Record BlockDisk := mkDisk { disk_read : Z -> Z -> result (list Z) BlockError }.

(** [BlockDisk::read_blocks]: the sector number is truncated to 32 bits. *)
Definition disk_read_blocks (d : BlockDisk) (lba n : Z) : result (list Z) BlockError :=
  disk_read d (as_u32 lba) n.

Record WholeDiskVolume := mkWhole { whole_disk : BlockDisk }.

Definition whole_read_blocks (v : WholeDiskVolume) (lba n : Z) : outcome (result (list Z) BlockError) :=
  Ret (disk_read_blocks (whole_disk v) lba n).

Definition whole_size_blocks (v : WholeDiskVolume) : Z := 0xFFFFFFFFFFFFFFFF.

#[global] Instance whole_volume : BlockVolume WholeDiskVolume := {
  read_blocks := whole_read_blocks;
  size_blocks := whole_size_blocks }.

Record PartitionVolume := mkPartVol { disk : BlockDisk; partition : Partition }.

Definition partition_read_blocks (v : PartitionVolume) (lba n : Z) : outcome (result (list Z) BlockError) :=
  let sectors := n / BLOCK_SIZE in
  let! last := uadd lba sectors in
  if num_sectors (partition v) <? last then Ret (Err InvalidInput)
  else
    let! disk_lba := uadd (lba_start (partition v)) lba in
    Ret (disk_read_blocks (disk v) disk_lba n).

Definition partition_size_blocks (v : PartitionVolume) : Z := num_sectors (partition v).

#[global] Instance partition_volume : BlockVolume PartitionVolume := {
  read_blocks := partition_read_blocks;
  size_blocks := partition_size_blocks }.

(** A partition that lies inside the first 2^32 sectors of the disk. *)
Definition partition_ok (p : Partition) : Prop :=
  0 <= lba_start p /\ 0 <= num_sectors p /\ lba_start p + num_sectors p <= U32.

(** A partition confines its reads.  For a partition within the first
    2^32 sectors, a read of at least one sector either is refused with InvalidInput, exactly when it
    does not end inside the partition, or reads the disk at the partition's
    start plus the address, all of it between the partition's first sector
    and its end. *)
Theorem partition_confines v lba n (Hp : partition_ok (partition v)) (Hl : 0 <= lba) (Hn : BLOCK_SIZE <= n)
    (Hu : lba + n / BLOCK_SIZE < USIZE) :
  let p := partition v in
  (num_sectors p < lba + n / BLOCK_SIZE /\ read_blocks v lba n = Ret (Err InvalidInput)) \/
  (exists s, read_blocks v lba n = Ret (disk_read (disk v) s n) /\ s = lba_start p + lba /\
     lba_start p <= s /\ s + n / BLOCK_SIZE <= lba_start p + num_sectors p).
Proof.
  intros p. destruct Hp as (H1 & H2 & H3). fold p in H1, H2, H3. simpl. unfold partition_read_blocks. fold p.
  unfold BLOCK_SIZE in *. rewrite uadd_ok by done. cbn [obind].
  destruct (Z.ltb_spec (num_sectors p) (lba + n / 512)); [left; done|right].
  unfold U32 in *. rewrite uadd_ok by (unfold USIZE; lia). cbn [obind].
  exists (lba_start p + lba). unfold disk_read_blocks. rewrite as_u32_small by (unfold U32; lia).
  split_and!; try done; lia.
Qed.

(** A partition entry that reaches past sector 2^32 makes reads leave the
    partition: the bounds check passes, and the address is then truncated to
    32 bits, so the disk is read before the partition's start. *)
Theorem partition_wraps d p lba (Hs : 0 <= lba_start p < U32) (Hn : num_sectors p < U32)
    (Hl : 0 <= lba) (Hin : lba + 1 <= num_sectors p) (Hw : U32 <= lba_start p + lba) :
  exists s, read_blocks (mkPartVol d p) lba BLOCK_SIZE = Ret (disk_read d s BLOCK_SIZE) /\ s < lba_start p.
Proof.
  exists (lba_start p + lba - U32). simpl. unfold partition_read_blocks, BLOCK_SIZE, U32 in *. simpl.
  rewrite uadd_ok by (unfold USIZE; lia). cbn [obind]. zcases; [lia|].
  rewrite uadd_ok by (unfold USIZE; lia). cbn [obind]. split; [|lia].
  unfold disk_read_blocks, as_u32, U32. do 2 f_equal. lia.
Qed.

(** The last sectors of a partition cannot be read through get_block: it
    always reads eight sectors, so a block that starts in the last seven
    sectors is refused although the partition contains it. *)
Theorem get_block_refuses_tail v lba (Hl : 0 <= lba) (Hin : lba < num_sectors (partition v))
    (Htail : num_sectors (partition v) < lba + 8) (Hn : num_sectors (partition v) < U32) :
  get_block v lba = Ret (Err InvalidInput).
Proof.
  unfold get_block, CACHE_BLOCK_SIZE. simpl. unfold partition_read_blocks, BLOCK_SIZE, U32 in *. simpl.
  rewrite uadd_ok by (unfold USIZE; lia). cbn [obind]. by zcases; [|lia].
Qed.

Definition demo_disk : BlockDisk :=
  mkDisk (fun s n => Ok (replicate (Z.to_nat n) (s mod 256))).

Lemma partition_confines_witness :
  exists s, read_blocks (mkPartVol demo_disk (mkPartition 1 2048 100)) 92 4096 = Ret (disk_read demo_disk s 4096) /\
    s = 2140.
Proof.
  destruct (partition_confines (mkPartVol demo_disk (mkPartition 1 2048 100)) 92 4096)
    as [[H _]|(s & E & Hs & _)]; [unfold partition_ok, U32; simpl; lia|lia|done|done|done|].
  exists s. by split.
Defined.

Lemma partition_wraps_witness :
  exists s, read_blocks (mkPartVol demo_disk (mkPartition 1 0xFFFFFFF0 100)) 20 512 = Ret (disk_read demo_disk s 512) /\
    s < 0xFFFFFFF0.
Proof.
  apply (partition_wraps demo_disk (mkPartition 1 0xFFFFFFF0 100) 20); unfold U32; simpl; lia.
Defined.

Lemma get_block_refuses_tail_witness :
  get_block (mkPartVol demo_disk (mkPartition 1 2048 100)) 96 = Ret (Err InvalidInput) /\
  get_block (mkPartVol demo_disk (mkPartition 1 2048 100)) 92 = Ret (disk_read demo_disk 2140 4096).
Proof.
  split; [|by vm_compute].
  apply get_block_refuses_tail; unfold U32; simpl; lia.
Defined.

End Vol.

Module Cached.
Import Blk Vol.

Definition CACHE_CAPACITY : nat := 16.

Section cached.
Context {V : Type} `{BlockVolume V}.

Record CachedVolume := mkCached { inner : V; cache : Lru.cache (K := Z) (V := list Z) }.

Definition new (v : V) : CachedVolume := mkCached v (Lru.new CACHE_CAPACITY).

(** The first critical section: look the block up. *)
Definition probe (c : CachedVolume) (lba : Z) : option (list Z) * CachedVolume :=
  let '(r, l) := Lru.get (cache c) lba in (r, mkCached (inner c) l).

(** The second: insert the block read, evicting what is not [pinned]. *)
Definition fill (pinned : Z * list Z -> bool) (c : CachedVolume) (lba : Z) (buf : list Z) : CachedVolume :=
  mkCached (inner c) (Lru.insert pinned (cache c) lba buf).

(** [get_block] when no other thread runs in between. *)
Definition cached_get_block (pinned : Z * list Z -> bool) (c : CachedVolume) (lba : Z)
    : outcome (result (list Z) BlockError * CachedVolume) :=
  match probe c lba with
  | (Some arc, c) => Ret (Ok arc, c)
  | (None, c) =>
      let! r := get_block (inner c) lba in
      match r with
      | Ok buf => Ret (Ok buf, fill pinned c lba buf)
      | Err e => Ret (Err e, c)
      end
  end.

Definition cached_read_blocks (c : CachedVolume) (lba n : Z) : outcome (result (list Z) BlockError) :=
  read_blocks (inner c) lba n.

Definition cached_size_blocks (c : CachedVolume) : Z := size_blocks (inner c).

(** ** Many threads

    The lock is not held during the read, so between the lookup and the
    insertion of one thread other threads run.  [reading] maps a thread that
    missed to the block it is reading, [answers] are the results returned. *)
Record conf := mkConf {
  cv : CachedVolume;
  reading : gmap Z Z;
  answers : list (Z * result (list Z) BlockError) }.

Inductive step : conf -> conf -> Prop :=
| step_hit c tid lba buf c' : reading c !! tid = None -> probe (cv c) lba = (Some buf, c') ->
    step c (mkConf c' (reading c) (answers c ++ [(lba, Ok buf)]))
| step_miss c tid lba c' : reading c !! tid = None -> probe (cv c) lba = (None, c') ->
    step c (mkConf c' (<[tid := lba]> (reading c)) (answers c))
| step_fill c tid lba buf pinned : reading c !! tid = Some lba -> get_block (inner (cv c)) lba = Ret (Ok buf) ->
    step c (mkConf (fill pinned (cv c) lba buf) (delete tid (reading c)) (answers c ++ [(lba, Ok buf)]))
| step_fail c tid lba e : reading c !! tid = Some lba -> get_block (inner (cv c)) lba = Ret (Err e) ->
    step c (mkConf (cv c) (delete tid (reading c)) (answers c ++ [(lba, Err e)])).

Definition start (v : V) : conf := mkConf (new v) ∅ [].

(** Every cached block is what the volume holds. *)
Definition coherent (c : CachedVolume) : Prop :=
  forall lba buf, (lba, buf) ∈ Lru.slots (cache c) -> get_block (inner c) lba = Ret (Ok buf).

Lemma probe_coherent c lba r c' : coherent c -> probe c lba = (r, c') ->
  coherent c' /\ inner c' = inner c /\
  match r with Some buf => get_block (inner c) lba = Ret (Ok buf) | None => lba ∉ Lru.keys (cache c) end.
Proof.
  intros Hc. unfold probe. pose proof (Lru.get_spec (cache c) lba) as Hg.
  destruct (Lru.get (cache c) lba) as [[buf|] l]; intros [= <- <-].
  - destruct Hg as (Hin & Hp & _). split_and!; [|done|by apply Hc].
    intros k b Hk. apply Hc. simpl in Hk. by rewrite Hp in Hk.
  - destruct Hg as [-> Hno]. by destruct c.
Qed.

Lemma fill_coherent pinned c lba buf : coherent c -> get_block (inner c) lba = Ret (Ok buf) ->
  coherent (fill pinned c lba buf).
Proof.
  intros Hc Hg k b. unfold fill. simpl. set (l := Lru.evict _ _ _ _).
  assert (Hsub : forall s, s ∈ l -> s ∈ Lru.slots (cache c)).
  { destruct (Lru.evict_spec pinned (Lru.slots (cache c)) []
      (length (Lru.slots (cache c)) + 1 - Lru.capacity (cache c))) as (l' & E & Hs & _).
    rewrite !app_nil_r in E. subst l. rewrite E. intros s Hin. by eapply elem_of_sublist. }
  rewrite elem_of_cons. intros [[= -> ->]|Hin]; [done|]. by apply Hc, Hsub.
Qed.

Lemma coherent_start v : coherent (new v).
Proof. by intros k b ?%not_elem_of_nil. Qed.

Definition answers_ok (v : V) (c : conf) : Prop :=
  coherent (cv c) /\ inner (cv c) = v /\ forall k x, (k, x) ∈ answers c -> get_block v k = Ret x.

Lemma step_answers_ok v c c' : answers_ok v c -> step c c' -> answers_ok v c'.
Proof.
  intros (Hc & <- & Hans) Hs.
  assert (Hadd : forall k x, get_block (inner (cv c)) k = Ret x ->
    forall k' x', (k', x') ∈ answers c ++ [(k, x)] -> get_block (inner (cv c)) k' = Ret x').
  { intros k x Hk k' x' Hin. apply elem_of_app in Hin as [Hin|Hin]; [auto|].
    apply list_elem_of_singleton in Hin as [= -> ->]. done. }
  unfold answers_ok.
  destruct Hs as [c tid k buf c' _ Hp|c tid k c' _ Hp|c tid k buf pinned _ Hg|c tid k e _ Hg]; simpl.
  - destruct (probe_coherent _ _ _ _ Hc Hp) as (Hc' & Hi & Hg). split_and!; [done|done|]. by apply Hadd.
  - destruct (probe_coherent _ _ _ _ Hc Hp) as (Hc' & Hi & _). by split_and!.
  - split_and!; [by apply fill_coherent|done|]. by apply Hadd.
  - split_and!; [done|done|]. by apply Hadd.
Qed.

Lemma steps_answers_ok v c c' : rtc step c c' -> answers_ok v c -> answers_ok v c'.
Proof. induction 1 as [|c c1 c' Hs _ IH]; [done|]. intros Hc. by eapply IH, step_answers_ok. Qed.

(** C16: The block cache is transparent.  However the calls of any number of
    threads interleave, whatever blocks are pinned and whatever is evicted,
    every call of get_block that returns, from the cache or from the disk,
    returns what reading that block from the underlying volume returns;
    errors are never cached. *)
Theorem cache_transparent v c lba r (Hr : rtc step (start v) c) (Ha : (lba, r) ∈ answers c) :
  get_block v lba = Ret r.
Proof.
  apply (steps_answers_ok v) in Hr; [by apply Hr|].
  split_and!; [apply coherent_start|done|]. by intros k x ?%not_elem_of_nil.
Qed.

(** Used by one thread, the cached volume answers as the volume does, and
    a block just read is served from memory: looking it up again hits. *)
Theorem cached_get_block_spec pinned c lba r (Hc : coherent c) (Hg : get_block (inner c) lba = Ret r) :
  exists c', cached_get_block pinned c lba = Ret (r, c') /\ coherent c' /\ inner c' = inner c /\
    (forall buf, r = Ok buf -> (probe c' lba).1 = Some buf).
Proof.
  unfold cached_get_block. destruct (probe c lba) as [[arc|] c1] eqn:Ep;
    destruct (probe_coherent _ _ _ _ Hc Ep) as (Hc1 & Hi & Hb).
  - assert (r = Ok arc) as -> by congruence. exists c1. split_and!; try done. intros buf [= <-].
    destruct (probe c1 lba) as [[b|] c2] eqn:E2; destruct (probe_coherent _ _ _ _ Hc1 E2) as (_ & Hi2 & Hb2); simpl.
    + f_equal. congruence.
    + exfalso. unfold probe in Ep. pose proof (Lru.get_spec (cache c) lba) as Hs.
      destruct (Lru.get (cache c) lba) as [[?|] l]; simplify_eq/=. destruct Hs as (Hin & Hp & _).
      apply Hb2. unfold Lru.keys. rewrite Hp. apply list_elem_of_fmap. by eexists (_, _).
  - rewrite Hi, Hg. cbn [obind]. destruct r as [buf|e].
    + exists (fill pinned c1 lba buf). rewrite <- Hi in Hg.
      split_and!; [done|by apply fill_coherent|done|]. intros b [= <-].
      unfold probe, fill, Lru.get, Lru.position. simpl. by rewrite decide_True by done.
    + by exists c1.
Qed.

End cached.

Definition demo_volume : PartitionVolume := mkPartVol demo_disk (Mbr.mkPartition 1 2048 100).

(** Two threads miss the same block at once; both read it, both insert it. *)
Definition demo_buf : list Z := replicate 4096 8.

Lemma cache_transparent_witness :
  exists c, rtc step (start demo_volume) c /\ (8, Ok demo_buf) ∈ answers c /\
    get_block demo_volume 8 = Ret (Ok demo_buf).
Proof.
  assert (Hg : get_block demo_volume 8 = Ret (Ok demo_buf)) by (by vm_compute).
  set (c1 := mkConf (new demo_volume) (<[1 := 8]> ∅) []).
  set (c2 := mkConf (new demo_volume) (<[2 := 8]> (<[1 := 8]> ∅)) []).
  set (c3 := mkConf (fill (fun _ => false) (cv c2) 8 demo_buf) (delete 1 (reading c2)) [(8, Ok demo_buf)]).
  assert (Hr : rtc step (start demo_volume) c3).
  { apply (rtc_l _ _ c1); [by apply (step_miss (start demo_volume) 1 8)|].
    apply (rtc_l _ _ c2); [by apply (step_miss c1 2 8)|].
    apply (rtc_l _ _ c3); [by apply (step_fill c2 1 8 demo_buf (fun _ => false))|]. done. }
  exists c3. split; [done|]. assert (Ha : (8, Ok demo_buf) ∈ answers c3) by (by apply list_elem_of_singleton).
  split; [done|]. apply (cache_transparent demo_volume c3 8 (Ok demo_buf) Hr Ha).
Defined.

Lemma cached_get_block_spec_witness :
  exists c', cached_get_block (fun _ => false) (new demo_volume) 8 = Ret (Ok demo_buf, c') /\
    (probe c' 8).1 = Some demo_buf.
Proof.
  destruct (cached_get_block_spec (fun _ => false) (new demo_volume) 8 (Ok demo_buf)) as (c' & E & _ & _ & Hp).
  - apply coherent_start.
  - by vm_compute.
  - exists c'. split; [exact E|]. by apply Hp.
Defined.

End Cached.
