(* ===== verification/File.v ===== *)
(** * Files: the types shared by the file systems

    Models [src/src/file.rs]: the error and file type enums, the mode bits and
    the default [seek] of [FileOps].  File names are byte strings. *)

From S2P Require Import Prelude.

Module Fl.

Inductive Error := UnexpectedEof | InvalidUtf8 | InvalidInput | NotADirectory | NotFound.

Inductive FileType := RegularFile | Directory | CharDevice | BlockDevice.

#[global] Instance Error_eq_dec : EqDecision Error.
Proof. solve_decision. Defined.
#[global] Instance FileType_eq_dec : EqDecision FileType.
Proof. solve_decision. Defined.

Definition S_IFMT : Z := 0xF000.
Definition S_IFREG : Z := 0x8000.
Definition S_IFDIR : Z := 0x4000.
Definition S_IFCHR : Z := 0x2000.
Definition S_IFBLK : Z := 0x6000.

Record DirEntry := mkDirEntry { name : list Z; entry_type : FileType }.

Inductive SeekFrom := Start (n : Z) | Current (n : Z).

Definition ISIZE_MIN : Z := - 2 ^ 63.

(** [usize::saturating_add], [usize::saturating_sub], [-n] on an [isize]. *)
Definition saturating_add (a b : Z) : Z := Z.min (a + b) (USIZE - 1).
Definition saturating_sub (a b : Z) : Z := Z.max (a - b) 0.
Definition isize_neg (n : Z) : outcome Z := if n =? ISIZE_MIN then Panic else Ret (- n).

(** The default [FileOps::seek] on a file at [offset] of length [file_len]. *)
Definition seek (offset file_len : Z) (pos : SeekFrom) : outcome Z :=
  match pos with
  | Start n => Ret (Z.min n file_len)
  | Current n =>
      if 0 <=? n then Ret (Z.min (saturating_add offset n) file_len)
      else let! m := isize_neg n in Ret (saturating_sub offset m)
  end.

(** Seeking keeps the offset inside the file, which the [read] of ramfs and
    procfs relies on when it slices the data at the offset. *)
Lemma seek_in_file offset len pos : 0 <= offset <= len -> len < USIZE ->
  match pos with Start n => 0 <= n | Current n => ISIZE_MIN < n end ->
  exists o, seek offset len pos = Ret o /\ 0 <= o <= len.
Proof.
  intros Ho Hl Hp. unfold seek, saturating_add, saturating_sub, isize_neg. destruct pos as [n|n].
  - eexists. split; [done|]. lia.
  - destruct (Z.leb_spec 0 n); [eexists; split; [done|lia]|].
    destruct (Z.eqb_spec n ISIZE_MIN); [lia|]. eexists. split; [done|]. lia.
Qed.

End Fl.
