(* ===== verification/Ext2.v ===== *)
(** * ext2: superblock, inodes, block pointers, files and directories

    Models [src/src/fs/ext2/] over any volume: [superblock.rs], [inode.rs],
    [dir.rs] and [ops.rs].  A [BlockBuf] is the list of its 4096 bytes; reading
    out of its range panics, as slice indexing does. *)

From S2P Require Import Prelude Bytes Collections Dispatcher Block File.

Module Ext2.
Import Blk.

Definition INODE_CACHE_CAPACITY : nat := 32.
Definition MIN_BLOCK_SIZE : Z := 1024.
Definition ROOT_INODE : Z := 2.
Definition GOOD_OLD_INODE_SIZE : Z := 128.
Definition SUPERBLOCK_OFFSET : Z := 1024.
Definition SUPERBLOCK_SECTOR : Z := SUPERBLOCK_OFFSET / BLOCK_SIZE.
Definition SUPER_MAGIC : Z := 0xEF53.
Definition SB_INODES_COUNT_OFFSET : Z := 0.
Definition SB_BLOCKS_COUNT_OFFSET : Z := 4.
Definition SB_LOG_BLOCK_SIZE_OFFSET : Z := 24.
Definition SB_BLOCKS_PER_GROUP_OFFSET : Z := 32.
Definition SB_INODES_PER_GROUP_OFFSET : Z := 40.
Definition MAGIC_OFFSET : Z := 56.
Definition SB_INODE_SIZE_OFFSET : Z := 88.
Definition VOLUME_LABEL_OFFSET : Z := 120.
Definition VOLUME_LABEL_LEN : Z := 16.
Definition SB_FEATURE_COMPAT_OFFSET : Z := 92.
Definition SB_JOURNAL_INUM_OFFSET : Z := 224.
Definition EXT3_FEATURE_COMPAT_HAS_JOURNAL : Z := 4.
Definition INODE_SIZE_FIELD_OFFSET : Z := 4.
Definition GROUP_DESC_SIZE : Z := 32.
Definition GDT_1K_OFFSET : Z := 2048.
Definition GD_INODE_TABLE_OFFSET : Z := 8.
Definition NDIR_BLOCKS : Z := 12.
Definition INODE_MODE_OFFSET : Z := 0.
Definition INODE_SIZE_OFFSET : Z := 4.
Definition INODE_BLOCKS_OFFSET : Z := 40.

(** An inode of ext2: the fields of [Inode] that depend on the disk, and
    [blocks], the [Ext2InodeData] in its [fs_data]. *)
Record Inode := mkInode { ino : Z; file_type : Fl.FileType; len : Z; blocks : list Z }.

Record Ext2SuperBlock := mkSb {
  inodes_count : Z;
  blocks_count : Z;
  log_block_size : Z;
  blocks_per_group : Z;
  inodes_per_group : Z;
  inode_size : Z;
  volume_label : option (list Z);
  groups : list Z;                       (* inode_table of each group *)
  journal_inum : option Z;
  journal_blocks : option Z;
  root : option Inode;
  inode_cache : Lru.cache (K := Z) (V := Inode) }.

Definition sb_empty : Ext2SuperBlock :=
  mkSb 0 0 0 0 0 0 None [] None None None (Lru.new INODE_CACHE_CAPACITY).

Definition with_groups (g : list Z) (s : Ext2SuperBlock) : Ext2SuperBlock :=
  mkSb (inodes_count s) (blocks_count s) (log_block_size s) (blocks_per_group s) (inodes_per_group s)
    (inode_size s) (volume_label s) g (journal_inum s) (journal_blocks s) (root s) (inode_cache s).
Definition with_journal_blocks (b : Z) (s : Ext2SuperBlock) : Ext2SuperBlock :=
  mkSb (inodes_count s) (blocks_count s) (log_block_size s) (blocks_per_group s) (inodes_per_group s)
    (inode_size s) (volume_label s) (groups s) (journal_inum s) (Some b) (root s) (inode_cache s).
Definition with_root (i : Inode) (s : Ext2SuperBlock) : Ext2SuperBlock :=
  mkSb (inodes_count s) (blocks_count s) (log_block_size s) (blocks_per_group s) (inodes_per_group s)
    (inode_size s) (volume_label s) (groups s) (journal_inum s) (journal_blocks s) (Some i) (inode_cache s).
Definition with_inode_cache (c : Lru.cache (K := Z) (V := Inode)) (s : Ext2SuperBlock) : Ext2SuperBlock :=
  mkSb (inodes_count s) (blocks_count s) (log_block_size s) (blocks_per_group s) (inodes_per_group s)
    (inode_size s) (volume_label s) (groups s) (journal_inum s) (journal_blocks s) (root s) c.

(** [MIN_BLOCK_SIZE << log_block_size] on a [u32]: a shift by 32 or more
    panics, bits shifted out are lost. *)
Definition block_size (s : Ext2SuperBlock) : outcome Z :=
  if log_block_size s <? 32 then Ret ((MIN_BLOCK_SIZE * 2 ^ log_block_size s) mod U32) else Panic.

Definition block_to_sector (s : Ext2SuperBlock) (block_num : Z) : outcome Z :=
  let! bs := block_size s in
  let! x := umul block_num bs in
  Ret (x / BLOCK_SIZE).

Definition num_groups (s : Ext2SuperBlock) : outcome Z :=
  let! x := u32_add (blocks_count s) (blocks_per_group s) in
  let! y := usub x 1 in
  udiv y (blocks_per_group s).

Definition inode_location (s : Ext2SuperBlock) (inode_num : Z) : outcome (result (Z * Z) BlockError) :=
  if inode_num =? 0 then Ret (Err InvalidInput)
  else
    let! group := udiv (inode_num - 1) (inodes_per_group s) in
    let! local_index := urem (inode_num - 1) (inodes_per_group s) in
    match groups s !! Z.to_nat group with
    | None => Ret (Err InvalidInput)
    | Some inode_table_block =>
        let! bs := block_size s in
        let! inodes_per_block := udiv bs (inode_size s) in
        let! d := udiv local_index inodes_per_block in
        let! target_block := u32_add inode_table_block d in
        let! x := umul target_block bs in
        let sector := x / BLOCK_SIZE in
        let! r := urem local_index inodes_per_block in
        let! offset := u32_mul r (inode_size s) in
        Ret (Ok (sector, offset))
    end.

Definition mode_type (mode : Z) : Fl.FileType :=
  let fmt := Z.land mode Fl.S_IFMT in
  if fmt =? Fl.S_IFDIR then Fl.Directory
  else if fmt =? Fl.S_IFREG then Fl.RegularFile
  else if fmt =? Fl.S_IFCHR then Fl.CharDevice
  else if fmt =? Fl.S_IFBLK then Fl.BlockDevice
  else Fl.RegularFile.

(** ** Geometry

    Block sizes of 1, 2 and 4 KiB: the ones a 4096-byte buffer can hold. *)
Definition geometry (s : Ext2SuperBlock) (bs : Z) : Prop :=
  0 <= log_block_size s <= 2 /\ bs = 1024 * 2 ^ log_block_size s.

Lemma geometry_cases s bs : geometry s bs -> bs = 1024 \/ bs = 2048 \/ bs = 4096.
Proof.
  intros [Hl ->]. assert (log_block_size s = 0 \/ log_block_size s = 1 \/ log_block_size s = 2) as [->|[->| ->]] by lia;
    auto.
Qed.

Lemma block_size_ok s bs : geometry s bs -> block_size s = Ret bs.
Proof.
  intros Hg. pose proof (geometry_cases _ _ Hg). destruct Hg as [Hl Hb]. unfold block_size.
  rewrite (proj2 (Z.ltb_lt _ _)) by lia. unfold MIN_BLOCK_SIZE. rewrite <- Hb, Z.mod_small; [done|].
  unfold U32. lia.
Qed.

Definition sector_of (bs b : Z) : Z := b * bs / 512.

Lemma block_to_sector_ok s bs b : geometry s bs -> 0 <= b < U32 -> block_to_sector s b = Ret (sector_of bs b).
Proof.
  intros Hg Hb. unfold block_to_sector. rewrite (block_size_ok _ _ Hg). cbn [obind].
  pose proof (geometry_cases _ _ Hg). rewrite umul_ok; [done|]. unfold U32, USIZE in *. nia.
Qed.

(** An inode number is mapped to its place in the inode tables.  For a
    file system with blocks of 1, 2 or 4 KiB whose inode size divides the
    block size, inode n of the g-th group is found at byte
    table(g) * block_size + index * inode_size of the volume: the sector and
    offset returned name exactly that byte, and the whole inode lies in the
    block read.  Inode 0 and numbers past the last group are refused. *)
Theorem inode_location_spec s bs n (Hg : geometry s bs) (Hi : 0 < inode_size s) (Hd : bs mod inode_size s = 0)
    (Hp : 0 < inodes_per_group s) (Hn : 0 <= n)
    (Ht : forall t, t ∈ groups s -> 0 <= t /\ t + inodes_per_group s < U32) :
  if (n =? 0) || (inodes_per_group s * Z.of_nat (length (groups s)) <? n)
  then inode_location s n = Ret (Err InvalidInput)
  else exists sector offset t,
    groups s !! Z.to_nat ((n - 1) / inodes_per_group s) = Some t /\
    inode_location s n = Ret (Ok (sector, offset)) /\
    512 * sector + offset = t * bs + (n - 1) mod inodes_per_group s * inode_size s /\
    0 <= offset /\ offset + inode_size s <= bs.
Proof.
  unfold inode_location. destruct (Z.eqb_spec n 0) as [->|Hn0]; [done|]. cbn [orb].
  rewrite udiv_ok, urem_ok by lia. cbn [obind]. set (ipg := inodes_per_group s) in *.
  set (g := (n - 1) / ipg) in *. set (li := (n - 1) mod ipg) in *.
  assert (Hli : 0 <= li < ipg) by (apply Z.mod_pos_bound; lia).
  assert (Hgn : n - 1 = ipg * g + li) by (apply Z.div_mod; lia).
  assert (0 <= g) by (apply Z.div_pos; lia).
  destruct (Z.ltb_spec (ipg * Z.of_nat (length (groups s))) n) as [Hbig|Hsmall].
  { rewrite lookup_ge_None_2; [done|]. nia. }
  destruct (lookup_lt_is_Some_2 (groups s) (Z.to_nat g)) as (t & Hgt); [nia|].
  rewrite Hgt. destruct (Ht t) as [Ht0 Ht1]; [by eapply list_elem_of_lookup_2|].
  rewrite (block_size_ok _ _ Hg). cbn [obind]. set (isz := inode_size s) in *.
  pose proof (geometry_cases _ _ Hg) as Hbs. set (ipb := bs / isz).
  assert (Hip : bs = isz * ipb) by (pose proof (Z.div_mod bs isz); lia).
  assert (0 < ipb) by nia. rewrite udiv_ok by lia. cbn [obind]. fold ipb.
  rewrite udiv_ok, urem_ok by lia. cbn [obind].
  assert (Hdm : li = ipb * (li / ipb) + li mod ipb) by (apply Z.div_mod; lia).
  assert (Hr : 0 <= li mod ipb < ipb) by (apply Z.mod_pos_bound; lia).
  assert (Hq : 0 <= li / ipb) by (apply Z.div_pos; lia).
  set (q := li / ipb) in *. set (r := li mod ipb) in *. clearbody q r li g ipb ipg isz.
  assert (q <= li) by nia. rewrite u32_add_ok by lia. cbn [obind].
  assert (0 <= t + q < U32) by lia. assert (r * isz + isz <= bs) by nia. assert (0 <= r * isz) by nia.
  rewrite umul_ok by (unfold U32, USIZE in *; nia). cbn [obind].
  rewrite u32_mul_ok by (unfold U32; lia). cbn [obind].
  eexists _, _, t. split_and!; [done|done| |done|done].
  unfold BLOCK_SIZE. assert (512 * ((t + q) * bs / 512) = (t + q) * bs) as ->.
  { destruct Hbs as [->|[->| ->]]; lia. }
  nia.
Qed.

Section fs.
(** [volume.get_block]: 4096 bytes from a sector. *)
Context (get_block : Z -> outcome (result (list Z) BlockError)).

(** [label_bytes]: up to the first NUL, when there is one and it is not first. *)
Definition parse_label (label_bytes : list Z) : option (list Z) :=
  match fst <$> list_find (fun b => b = 0) label_bytes with
  | Some (S n) => let l := take (S n) label_bytes in if utf8_valid l then Some l else None
  | _ => None
  end.

Definition read_superblock_data (s : Ext2SuperBlock) : outcome (result Ext2SuperBlock BlockError) :=
  let? buf := get_block SUPERBLOCK_SECTOR in
  let! magic := read_u16_le buf MAGIC_OFFSET in
  if negb (magic =? SUPER_MAGIC) then Ret (Err InvalidInput)
  else
    let! ic := read_u32_le buf SB_INODES_COUNT_OFFSET in
    let! bc := read_u32_le buf SB_BLOCKS_COUNT_OFFSET in
    let! lbs := read_u32_le buf SB_LOG_BLOCK_SIZE_OFFSET in
    let! bpg := read_u32_le buf SB_BLOCKS_PER_GROUP_OFFSET in
    let! ipg := read_u32_le buf SB_INODES_PER_GROUP_OFFSET in
    let! isz := read_u16_le buf SB_INODE_SIZE_OFFSET in
    let isz := if isz =? 0 then GOOD_OLD_INODE_SIZE else isz in
    let! label_bytes := slice buf VOLUME_LABEL_OFFSET (VOLUME_LABEL_OFFSET + VOLUME_LABEL_LEN) in
    let! feature_compat := read_u32_le buf SB_FEATURE_COMPAT_OFFSET in
    let! j :=
      (if negb (Z.land feature_compat EXT3_FEATURE_COMPAT_HAS_JOURNAL =? 0)
       then let! j := read_u32_le buf SB_JOURNAL_INUM_OFFSET in Ret (Some j)
       else Ret (journal_inum s)) in
    Ret (Ok (mkSb ic bc lbs bpg ipg isz (parse_label label_bytes) (groups s) j (journal_blocks s)
               (root s) (inode_cache s))).

Definition read_group_descriptors (s : Ext2SuperBlock) : outcome (result Ext2SuperBlock BlockError) :=
  let! n := num_groups s in
  let! bs := block_size s in
  if Vol.CACHE_BLOCK_SIZE / GROUP_DESC_SIZE <? n then Ret (Err InvalidInput)
  else
    let gdt_byte_offset := if bs =? MIN_BLOCK_SIZE then GDT_1K_OFFSET else bs in
    let gdt_sector := gdt_byte_offset / BLOCK_SIZE in
    let? buf := get_block gdt_sector in
    let! g := ofold (fun acc i =>
        let! inode_table := read_u32_le buf (Z.of_nat i * GROUP_DESC_SIZE + GD_INODE_TABLE_OFFSET) in
        Ret (acc ++ [inode_table])) (seq 0 (Z.to_nat n)) (groups s) in
    Ret (Ok (with_groups g s)).

Definition read_inode (s : Ext2SuperBlock) (inode_num : Z) : outcome (result Inode BlockError) :=
  let? ' (sector, offset) := inode_location s inode_num in
  let? buf := get_block sector in
  let! mode := read_u16_le buf (offset + INODE_MODE_OFFSET) in
  let! size := read_u32_le buf (offset + INODE_SIZE_OFFSET) in
  let! bl := ofold (fun acc i =>
      let! b := read_u32_le buf (offset + INODE_BLOCKS_OFFSET + Z.of_nat i * 4) in
      Ret (acc ++ [b])) (seq 0 15) [] in
  Ret (Ok (mkInode inode_num (mode_type mode) size bl)).

(** [pinned] tells which cached inodes are held elsewhere when it inserts. *)
Definition get_or_read_inode (pinned : Z * Inode -> bool) (s : Ext2SuperBlock) (inode_num : Z)
    : outcome (result (Inode * Ext2SuperBlock) BlockError) :=
  match Lru.get (inode_cache s) inode_num with
  | (Some arc, c) => Ret (Ok (arc, with_inode_cache c s))
  | (None, c) =>
      let s := with_inode_cache c s in
      let? inode := read_inode s inode_num in
      Ret (Ok (inode, with_inode_cache (Lru.insert pinned (inode_cache s) inode_num inode) s))
  end.

(** [Ext2SuperBlock::new] *)
Definition new (pinned : Z * Inode -> bool) : outcome (result Ext2SuperBlock BlockError) :=
  let? s := read_superblock_data sb_empty in
  let? s := read_group_descriptors s in
  let! s :=
    (match journal_inum s with
     | None => Ret s
     | Some j =>
         let! loc := inode_location s j in
         match loc with
         | Err _ => Ret s
         | Ok (sector, offset) =>
             let! r := get_block sector in
             match r with
             | Err _ => Ret s
             | Ok buf =>
                 let! i_size := read_u32_le buf (offset + INODE_SIZE_FIELD_OFFSET) in
                 let! bs := block_size s in
                 let! n := udiv i_size bs in
                 Ret (with_journal_blocks n s)
             end
         end
     end) in
  let? ' (inode, s) := get_or_read_inode pinned s ROOT_INODE in
  Ret (Ok (with_root inode s)).

Definition resolve_block_ptr (s : Ext2SuperBlock) (bl : list Z) (block_idx : Z)
    : outcome (result Z BlockError) :=
  if block_idx <? NDIR_BLOCKS then
    let! p := expect (bl !! Z.to_nat block_idx) in Ret (Ok p)
  else
    let! bs := block_size s in
    let ptrs_per_block := bs / 4 in
    let indirect_idx := block_idx - NDIR_BLOCKS in
    if indirect_idx <? ptrs_per_block then
      let! indirect_ptr := expect (bl !! Z.to_nat NDIR_BLOCKS) in
      if indirect_ptr =? 0 then Ret (Ok 0)
      else
        let! sector := block_to_sector s indirect_ptr in
        let? buf := get_block sector in
        let! p := read_u32_le buf (indirect_idx * 4) in
        Ret (Ok p)
    else
      let double_idx := indirect_idx - ptrs_per_block in
      if double_idx <? ptrs_per_block * ptrs_per_block then
        let! dindirect_ptr := expect (bl !! Z.to_nat (NDIR_BLOCKS + 1)) in
        if dindirect_ptr =? 0 then Ret (Ok 0)
        else
          let! sector := block_to_sector s dindirect_ptr in
          let? l1_buf := get_block sector in
          let! l1_ptr := read_u32_le l1_buf (double_idx / ptrs_per_block * 4) in
          if l1_ptr =? 0 then Ret (Ok 0)
          else
            let! sector := block_to_sector s l1_ptr in
            let? l2_buf := get_block sector in
            let! p := read_u32_le l2_buf (double_idx mod ptrs_per_block * 4) in
            Ret (Ok p)
      else Ret (Ok 0).

(** ** Reading a file *)

Definition invalid (e : BlockError) : Fl.Error := Fl.InvalidInput.

(** One turn of the loop of [read]: the bytes copied, none at a hole. *)
Definition read_turn (s : Ext2SuperBlock) (i : Inode) (bs offset want : Z)
    : outcome (result (option (list Z)) Fl.Error) :=
  let! block_idx := udiv offset bs in
  let? block_ptr := map_err invalid (resolve_block_ptr s (blocks i) block_idx) in
  if block_ptr =? 0 then Ret (Ok None)
  else
    let! sector := block_to_sector s block_ptr in
    let? block_buf := map_err invalid (get_block sector) in
    let! block_offset := urem offset bs in
    let copy_len := Z.min (Z.min (bs - block_offset) (len i - offset)) want in
    let! chunk := slice block_buf block_offset (block_offset + copy_len) in
    Ret (Ok (Some chunk)).

(** The loop: [acc] is what [buf] holds so far, [size] its length.  The file's
    offset is returned with the result, since it has moved also on an error. *)
Fixpoint read_loop (fuel : nat) (s : Ext2SuperBlock) (i : Inode) (bs offset size : Z) (acc : list Z)
    : outcome (result (list Z) Fl.Error * Z) :=
  match fuel with
  | O => Fault
  | S fuel =>
      if (Z.of_nat (length acc) <? size) && (offset <? len i) then
        let! r := read_turn s i bs offset (size - Z.of_nat (length acc)) in
        match r with
        | Err e => Ret (Err e, offset)
        | Ok None => Ret (Ok acc, offset)
        | Ok (Some chunk) => read_loop fuel s i bs (offset + Z.of_nat (length chunk)) size (acc ++ chunk)
        end
      else Ret (Ok acc, offset)
  end.

Definition read (s : Ext2SuperBlock) (i : Inode) (offset size : Z)
    : outcome (result (list Z) Fl.Error * Z) :=
  if negb (bool_decide (file_type i = Fl.RegularFile)) then Ret (Err Fl.InvalidInput, offset)
  else if (len i <=? offset) || (size =? 0) then Ret (Ok [], offset)
  else
    let! bs := block_size s in
    read_loop (S (Z.to_nat size)) s i bs offset size [].

(** ** Directories *)

Definition DIR_ENTRY_INODE_OFFSET : Z := 0.
Definition DIR_ENTRY_REC_LEN_OFFSET : Z := 4.
Definition DIR_ENTRY_NAME_LEN_OFFSET : Z := 6.
Definition DIR_ENTRY_FILE_TYPE_OFFSET : Z := 7.
Definition DIR_ENTRY_NAME_OFFSET : Z := 8.
Definition EXT2_FT_REG_FILE : Z := 1.
Definition EXT2_FT_DIR : Z := 2.
Definition EXT2_FT_CHRDEV : Z := 3.
Definition EXT2_FT_BLKDEV : Z := 4.

Record RawDirEntry := mkRaw { rino : Z; rname : list Z; rtype : Z }.

Record DirEntryIter := mkIter {
  iblocks : list Z;
  dir_size : Z;
  ibuf : option (list Z);
  ibs : Z;
  block_idx : Z;
  block_offset : Z;
  bytes_read : Z }.

Definition iter_new (s : Ext2SuperBlock) (i : Inode) : outcome DirEntryIter :=
  let! bs := block_size s in
  Ret (mkIter (blocks i) (as_u32 (len i)) None bs 0 bs 0).

(** The next block is to be loaded. *)
Definition next_block (it : DirEntryIter) (idx read : Z) : DirEntryIter :=
  mkIter (iblocks it) (dir_size it) (ibuf it) (ibs it) idx (ibs it) read.

Inductive turn :=
| Stop (it : DirEntryIter)
| Yield (r : result RawDirEntry BlockError) (it : DirEntryIter)
| Again (it : DirEntryIter).

(** The part of the loop of [next] before an entry is looked at: [inl] when
    it returns. *)
Definition load_block (s : Ext2SuperBlock) (it : DirEntryIter) : outcome (turn + DirEntryIter) :=
  if ibs it <=? block_offset it then
    if dir_size it <=? bytes_read it then Ret (inl (Stop it))
    else
      let! p := resolve_block_ptr s (iblocks it) (block_idx it) in
      match p with
      | Err e => Ret (inl (Yield (Err e) it))
      | Ok 0 => Ret (inl (Stop it))
      | Ok ptr =>
          let! sector := block_to_sector s ptr in
          let! r := get_block sector in
          match r with
          | Err e => Ret (inl (Yield (Err e) it))
          | Ok block =>
              Ret (inr (mkIter (iblocks it) (dir_size it) (Some block) (ibs it) (block_idx it) 0 (bytes_read it)))
          end
      end
  else Ret (inr it).

(** The rest of the loop body: one directory entry. *)
Definition parse_dirent (it : DirEntryIter) : outcome turn :=
  let! buf := expect (ibuf it) in
  let offset := block_offset it in
  if ibs it <? offset + DIR_ENTRY_NAME_OFFSET then
    Ret (Again (next_block it (block_idx it + 1) (bytes_read it)))
  else
    let! eino := read_u32_le buf (offset + DIR_ENTRY_INODE_OFFSET) in
    let! rec_len := read_u16_le buf (offset + DIR_ENTRY_REC_LEN_OFFSET) in
    let! name_len := expect (buf !! Z.to_nat (offset + DIR_ENTRY_NAME_LEN_OFFSET)) in
    let! ft_byte := expect (buf !! Z.to_nat (offset + DIR_ENTRY_FILE_TYPE_OFFSET)) in
    if rec_len =? 0 then Ret (Again (next_block it (block_idx it + 1) (bytes_read it)))
    else
      let off' := offset + rec_len in
      let! read' := u32_add (bytes_read it) rec_len in
      let it' :=
        if (ibs it <=? off') || (dir_size it <=? read')
        then next_block it (block_idx it + 1) read'
        else mkIter (iblocks it) (dir_size it) (ibuf it) (ibs it) (block_idx it) off' read' in
      if (eino =? 0) || (name_len =? 0) then Ret (Again it')
      else
        let name_start := offset + DIR_ENTRY_NAME_OFFSET in
        let name_end := name_start + name_len in
        if ibs it <? name_end then Ret (Again it')
        else
          let! name := slice buf name_start name_end in
          if utf8_valid name then Ret (Yield (Ok (mkRaw eino name ft_byte)) it')
          else Ret (Again it').

Definition dir_turn (s : Ext2SuperBlock) (it : DirEntryIter) : outcome turn :=
  let! r := load_block s it in
  match r with
  | inl t => Ret t
  | inr it => parse_dirent it
  end.

(** [Iterator::next] *)
Fixpoint next (fuel : nat) (s : Ext2SuperBlock) (it : DirEntryIter)
    : outcome (option (result RawDirEntry BlockError) * DirEntryIter) :=
  match fuel with
  | O => Fault
  | S fuel =>
      let! t := dir_turn s it in
      match t with
      | Stop it => Ret (None, it)
      | Yield r it => Ret (Some r, it)
      | Again it => next fuel s it
      end
  end.

(** A [for] loop over the iterator that leaves at the first error; [f] goes on
    with [inl] and leaves with [inr]. *)
Fixpoint for_each {A B} (next_fuel fuel : nat) (s : Ext2SuperBlock) (f : A -> RawDirEntry -> A + B)
    (it : DirEntryIter) (a : A) : outcome (result (A + B) BlockError) :=
  match fuel with
  | O => Fault
  | S fuel =>
      let! '(o, it) := next next_fuel s it in
      match o with
      | None => Ret (Ok (inl a))
      | Some (Err e) => Ret (Err e)
      | Some (Ok e) =>
          match f a e with
          | inl a => for_each next_fuel fuel s f it a
          | inr b => Ret (Ok (inr b))
          end
      end
  end.

Definition not_found (e : BlockError) : Fl.Error := Fl.NotFound.

(** [Ext2InodeOps::lookup] *)
Definition lookup (fuel : nat) (pinned : Z * Inode -> bool) (s : Ext2SuperBlock) (i : Inode) (name : list Z)
    : outcome (result (Inode * Ext2SuperBlock) Fl.Error) :=
  if negb (bool_decide (file_type i = Fl.Directory)) then Ret (Err Fl.NotADirectory)
  else
    let! it := iter_new s i in
    let? r := map_err not_found
      (for_each fuel fuel s (fun (a : unit) e => if bytes_eqb (rname e) name then inr (rino e) else inl a) it tt) in
    match r with
    | inl _ => Ret (Err Fl.NotFound)
    | inr n => map_err not_found (get_or_read_inode pinned s n)
    end.

Definition dirent_type (t : Z) : Fl.FileType :=
  if t =? EXT2_FT_REG_FILE then Fl.RegularFile
  else if t =? EXT2_FT_DIR then Fl.Directory
  else if t =? EXT2_FT_CHRDEV then Fl.CharDevice
  else if t =? EXT2_FT_BLKDEV then Fl.BlockDevice
  else Fl.RegularFile.

(** [Ext2FileOps::readdir] *)
Definition readdir (fuel : nat) (s : Ext2SuperBlock) (i : Inode) : outcome (result (list Fl.DirEntry) Fl.Error) :=
  if negb (bool_decide (file_type i = Fl.Directory)) then Ret (Err Fl.NotADirectory)
  else
    let! it := iter_new s i in
    let? r := map_err invalid
      (for_each fuel fuel s (fun a e => inl (B := Empty_set) (a ++ [Fl.mkDirEntry (rname e) (dirent_type (rtype e))])) it []) in
    match r with
    | inl l => Ret (Ok l)
    | inr b => match b with end
    end.

(** ** The two loops as one

    The turns of [next] and of the loop that calls it, one after the other. *)
Fixpoint walk {A B} (fuel : nat) (s : Ext2SuperBlock) (f : A -> RawDirEntry -> A + B)
    (it : DirEntryIter) (a : A) : outcome (result (A + B) BlockError) :=
  match fuel with
  | O => Fault
  | S fuel =>
      let! t := dir_turn s it in
      match t with
      | Stop _ => Ret (Ok (inl a))
      | Again it => walk fuel s f it a
      | Yield (Err e) _ => Ret (Err e)
      | Yield (Ok e) it =>
          match f a e with
          | inl a => walk fuel s f it a
          | inr b => Ret (Ok (inr b))
          end
      end
  end.

Lemma next_mono s n : forall m it x, (n <= m)%nat -> next n s it = Ret x -> next m s it = Ret x.
Proof.
  induction n as [|n IH]; intros m it x Hm H; [done|]. destruct m as [|m]; [lia|]. cbn [next] in *.
  bind_inv H. rewrite E. cbn [obind]. destruct r; [done|done|]. apply IH; [lia|done].
Qed.

Lemma walk_next {A B} s (f : A -> RawDirEntry -> A + B) n : forall it a r, walk n s f it a = Ret r ->
  exists o it', next n s it = Ret (o, it') /\
    match o with
    | None => r = Ok (inl a)
    | Some (Err e) => r = Err e
    | Some (Ok e) =>
        match f a e with
        | inl a' => exists m, (m < n)%nat /\ walk m s f it' a' = Ret r
        | inr b => r = Ok (inr b)
        end
    end.
Proof.
  induction n as [|n IH]; intros it a r H; [done|]. cbn [walk next] in *. bind_inv H. rewrite E. cbn [obind].
  destruct r0 as [it'|[e|e] it'|it'].
  - injection K as <-. by eexists _, _.
  - exists (Some (Ok e)), it'. split; [done|]. destruct (f a e) as [a'|b]; [|by injection K as <-]. exists n. split; [lia|done].
  - injection K as <-. by eexists _, _.
  - destruct (IH it' a r K) as (o & it2 & Hn & Ho). exists o, it2. split; [done|].
    destruct o as [[e|e]|]; [|done|done]. destruct (f a e); [|done]. destruct Ho as (m & Hm & Hw). exists m. split; [lia|done].
Qed.

Lemma walk_for_each {A B} s (f : A -> RawDirEntry -> A + B) : forall n it a r, walk n s f it a = Ret r ->
  forall F N, (n <= F)%nat -> (n <= N)%nat -> for_each F N s f it a = Ret r.
Proof.
  intros n. induction (lt_wf n) as [n _ IH]. intros it a r H F N HF HN.
  destruct N as [|N]; [by destruct n; [|lia]|]. destruct (walk_next s f n it a r H) as (o & it' & Hn & Ho).
  cbn [for_each]. rewrite (next_mono s n F it (o, it')) by done. cbn [obind].
  destruct o as [[e|e]|]; [|by rewrite Ho..]. destruct (f a e); [|by rewrite Ho].
  destruct Ho as (m & Hm & Hw). apply (IH m Hm it' a0 r Hw); lia.
Qed.

(** ** Block pointers *)

Definition is_u32 (p : Z) : Prop := 0 <= p < U32.

(** A block that starts with a table of pointers. *)
Definition words (buf ps : list Z) : Prop :=
  Forall is_u32 ps /\ (length ps <= 1024)%nat /\ exists rest, buf = mjoin (to_le 4 <$> ps) ++ rest.

Lemma mjoin_cons p (ps : list Z) : mjoin (to_le 4 <$> p :: ps) = to_le 4 p ++ mjoin (to_le 4 <$> ps).
Proof. done. Qed.

Lemma mjoin_words_len ps : length (mjoin (to_le 4 <$> ps)) = (4 * length ps)%nat.
Proof. induction ps as [|p ps IH]; [done|]. rewrite mjoin_cons, length_app, IH, to_le_len. cbn [length]. lia. Qed.

Lemma words_read buf ps i p : words buf ps -> ps !! i = Some p -> read_u32_le buf (Z.of_nat i * 4) = Ret p.
Proof.
  intros (Hu & Hl & rest & ->) Hp. pose proof (lookup_lt_Some _ _ _ Hp).
  assert (Hpu : is_u32 p) by (rewrite Forall_lookup in Hu; eauto).
  rewrite <- (take_drop_middle ps i p Hp). unfold read_u32_le.
  rewrite uadd_ok by (unfold USIZE; lia). cbn [obind].
  rewrite fmap_app, join_app, mjoin_cons, <- !(assoc_L (++)).
  rewrite (slice_app _ (to_le 4 p)).
  - cbn [obind]. rewrite from_to_le; [done|]. unfold is_u32, U32 in Hpu. simpl. lia.
  - rewrite mjoin_words_len, length_take. lia.
  - rewrite to_le_len. lia.
Qed.

(** The pointer tree of a file on disk: [ps] are the blocks of the file in
    order, the first twelve in the inode, the next in the single-indirect
    block, the rest in the blocks of the double-indirect one. *)
Record laid_out (bs : Z) (bl ps : list Z) : Prop := {
  lo_u32 : Forall is_u32 ps;
  lo_direct : forall i, (i < 12)%nat -> (i < length ps)%nat -> bl !! i = ps !! i;
  lo_single : (12 < length ps)%nat -> exists ind buf,
    bl !! 12%nat = Some ind /\ 0 < ind < U32 /\ get_block (sector_of bs ind) = Ret (Ok buf) /\
    words buf (take (Z.to_nat (bs / 4)) (drop 12 ps));
  lo_double : (12 + Z.to_nat (bs / 4) < length ps)%nat -> exists d l1_buf l1,
    bl !! 13%nat = Some d /\ 0 < d < U32 /\ get_block (sector_of bs d) = Ret (Ok l1_buf) /\ words l1_buf l1 /\
    forall k, (12 + Z.to_nat (bs / 4) + k * Z.to_nat (bs / 4) < length ps)%nat -> exists p buf,
      l1 !! k = Some p /\ 0 < p < U32 /\ get_block (sector_of bs p) = Ret (Ok buf) /\
      words buf (take (Z.to_nat (bs / 4)) (drop (12 + Z.to_nat (bs / 4) + k * Z.to_nat (bs / 4)) ps)) }.

Lemma table_lookup (n a i : nat) (ps : list Z) p : (i < n)%nat -> ps !! (a + i)%nat = Some p ->
  take n (drop a ps) !! i = Some p.
Proof. intros Hi Hp. by rewrite lookup_take_lt, lookup_drop. Qed.

Lemma resolve_ok s bs bl ps idx p : geometry s bs -> laid_out bs bl ps ->
  (length ps <= 12 + Z.to_nat (bs / 4) + Z.to_nat (bs / 4) * Z.to_nat (bs / 4))%nat ->
  ps !! idx = Some p -> resolve_block_ptr s bl (Z.of_nat idx) = Ret (Ok p).
Proof.
  intros Hg Hlo Hmax Hp. pose proof (lookup_lt_Some _ _ _ Hp) as Hlt.
  unfold resolve_block_ptr, NDIR_BLOCKS. destruct (Z.ltb_spec (Z.of_nat idx) 12).
  { rewrite Nat2Z.id, (lo_direct _ _ _ Hlo) by lia. by rewrite Hp. }
  rewrite (block_size_ok _ _ Hg). cbn [obind]. pose proof (geometry_cases _ _ Hg) as Hc.
  remember (bs / 4) as P eqn:EP. assert (HP : 256 <= P <= 1024) by lia.
  destruct (Z.ltb_spec (Z.of_nat idx - 12) P).
  - destruct (lo_single _ _ _ Hlo) as (ind & buf & Hb & Hi & Hget & Hw); [lia|]. rewrite <- EP in Hw.
    change (Z.to_nat 12) with 12%nat. rewrite Hb. cbn [obind expect]. destruct (Z.eqb_spec ind 0); [lia|].
    rewrite (block_to_sector_ok s bs) by (done || lia). cbn [obind]. unfold rbind. rewrite Hget. cbn [obind].
    replace ((Z.of_nat idx - 12) * 4) with (Z.of_nat (idx - 12) * 4) by lia.
    erewrite words_read; [done|done|]. apply table_lookup; [lia|]. by replace (12 + (idx - 12))%nat with idx by lia.
  - set (dbl := (idx - 12 - Z.to_nat P)%nat). assert (Hdbl : Z.of_nat idx - 12 - P = Z.of_nat dbl) by lia.
    rewrite Hdbl. destruct (Z.ltb_spec (Z.of_nat dbl) (P * P)); [|nia].
    destruct (lo_double _ _ _ Hlo) as (d & l1_buf & l1 & Hb & Hd & Hget & Hw & Hk); [lia|].
    rewrite <- EP in Hk. change (Z.to_nat (12 + 1)) with 13%nat. rewrite Hb. cbn [obind expect].
    destruct (Z.eqb_spec d 0); [lia|]. rewrite (block_to_sector_ok s bs) by (done || lia). cbn [obind].
    unfold rbind. rewrite Hget. cbn [obind]. set (k := (dbl / Z.to_nat P)%nat). set (r := (dbl mod Z.to_nat P)%nat).
    assert (Hdm : dbl = (Z.to_nat P * k + r)%nat) by (apply Nat.div_mod; lia).
    assert (Hr : (r < Z.to_nat P)%nat) by (apply Nat.mod_upper_bound; lia).
    replace (Z.of_nat dbl / P) with (Z.of_nat k) by (unfold k; rewrite Nat2Z.inj_div; f_equal; lia).
    replace (Z.of_nat dbl mod P) with (Z.of_nat r) by (unfold r; rewrite Nat2Z.inj_mod; f_equal; lia).
    destruct (Hk k) as (q & buf & Hq & Hqu & Hgq & Hwq); [lia|].
    rewrite (words_read _ _ _ _ Hw Hq). cbn [obind]. destruct (Z.eqb_spec q 0); [lia|].
    rewrite (block_to_sector_ok s bs) by (done || lia). cbn [obind]. rewrite Hgq. cbn [obind].
    erewrite words_read; [done|done|]. apply table_lookup; [lia|].
    by replace (12 + Z.to_nat P + k * Z.to_nat P + r)%nat with idx by lia.
Qed.

(** Following block pointers finds the blocks of the file.  If the
    pointers of a file are laid out on disk the ext2 way, through direct,
    single-indirect and double-indirect blocks of 1, 2 or 4 KiB, then
    resolving the k-th logical block gives the k-th block of the file. *)
Theorem resolve_block_ptr_spec s bs bl ps idx p (Hg : geometry s bs) (Hlo : laid_out bs bl ps)
    (Hmax : (length ps <= 12 + Z.to_nat (bs / 4) + Z.to_nat (bs / 4) * Z.to_nat (bs / 4))%nat)
    (Hp : ps !! idx = Some p) :
  resolve_block_ptr s bl (Z.of_nat idx) = Ret (Ok p).
Proof. by eapply resolve_ok. Qed.

(** ** Files on disk *)

(** A regular file with contents [data], in the blocks [ps]. *)
Record stored (bs : Z) (i : Inode) (ps data : list Z) : Prop := {
  sd_type : file_type i = Fl.RegularFile;
  sd_len : len i = Z.of_nat (length data);
  sd_layout : laid_out bs (blocks i) ps;
  sd_max : (length ps <= 12 + Z.to_nat (bs / 4) + Z.to_nat (bs / 4) * Z.to_nat (bs / 4))%nat;
  sd_enough : (length data <= length ps * Z.to_nat bs)%nat;
  sd_blocks : forall k p, ps !! k = Some p -> (k * Z.to_nat bs < length data)%nat ->
    0 < p /\ exists rest, get_block (sector_of bs p) =
      Ret (Ok (take (Z.to_nat bs) (drop (k * Z.to_nat bs) data) ++ rest)) }.

Lemma block_slice (data rest : list Z) (b k r n : nat) : (r + n <= b)%nat -> (k * b + r + n <= length data)%nat ->
  slice (take b (drop (k * b) data) ++ rest) (Z.of_nat r) (Z.of_nat r + Z.of_nat n)
  = Ret (take n (drop (k * b + r) data)).
Proof.
  intros Hr Hl. unfold slice. rewrite length_app, length_take, length_drop.
  rewrite !(proj2 (Z.leb_le _ _)) by lia. cbn [andb]. f_equal.
  replace (Z.to_nat (Z.of_nat r + Z.of_nat n - Z.of_nat r)) with n by lia. rewrite Nat2Z.id.
  rewrite drop_app_le by (rewrite length_take, length_drop; lia).
  rewrite take_app_le by (rewrite length_drop, length_take, length_drop; lia).
  rewrite take_drop_commute, take_take, Nat.min_l by lia.
  by rewrite <- take_drop_commute, drop_drop.
Qed.

Lemma take_split (l : list Z) (n w : nat) : (n <= w)%nat ->
  take n l ++ take (w - n) (drop n l) = take w l.
Proof. intros. rewrite <- (take_drop n (take w l)), take_take, Nat.min_l by lia. f_equal. by rewrite take_drop_commute, Nat.add_comm, Nat.sub_add by lia. Qed.

Lemma read_turn_ok s bs i ps data off want : geometry s bs -> stored bs i ps data ->
  (off < length data)%nat -> (0 < want)%nat -> exists n : nat,
  read_turn s i bs (Z.of_nat off) (Z.of_nat want) = Ret (Ok (Some (take n (drop off data)))) /\
  (0 < n <= want)%nat /\ (off + n <= length data)%nat.
Proof.
  intros Hg Hs Hoff Hw. pose proof (geometry_cases _ _ Hg) as Hc. unfold read_turn.
  remember (Z.to_nat bs) as b eqn:Eb. assert (Hb : bs = Z.of_nat b) by lia.
  set (k := (off / b)%nat). set (r := (off mod b)%nat).
  assert (Hdm : off = (b * k + r)%nat) by (apply Nat.div_mod; lia).
  assert (Hr : (r < b)%nat) by (apply Nat.mod_upper_bound; lia).
  rewrite udiv_ok by lia. cbn [obind].
  replace (Z.of_nat off / bs) with (Z.of_nat k) by (rewrite Hb; unfold k; apply Nat2Z.inj_div).
  destruct (lookup_lt_is_Some_2 ps k) as (p & Hp); [pose proof (sd_enough _ _ _ _ Hs); nia|].
  destruct (sd_blocks _ _ _ _ Hs k p Hp) as (Hp0 & rest & Hget); [rewrite <- Eb; lia|].
  assert (Hpu : is_u32 p) by (pose proof (lo_u32 _ _ _ (sd_layout _ _ _ _ Hs)) as Hf; rewrite Forall_lookup in Hf; eauto).
  rewrite (resolve_ok s bs (blocks i) ps k p Hg (sd_layout _ _ _ _ Hs) (sd_max _ _ _ _ Hs) Hp). cbn [obind rbind map_err].
  destruct (Z.eqb_spec p 0) as [|_]; [lia|].
  rewrite (block_to_sector_ok s bs) by (done || apply Hpu). cbn [obind]. rewrite Hget. cbn [obind].
  rewrite urem_ok by lia. cbn [obind].
  replace (Z.of_nat off mod bs) with (Z.of_nat r) by (rewrite Hb; unfold r; apply Nat2Z.inj_mod).
  set (n := Nat.min (Nat.min (b - r) (length data - off)) want). exists n.
  replace (Z.min _ (Z.of_nat want)) with (Z.of_nat n).
  2: { rewrite (sd_len _ _ _ _ Hs). unfold n. lia. }
  unfold rbind, map_err. cbn [obind]. rewrite <- Eb, block_slice by (unfold n; lia). cbn [obind].
  replace (k * b + r)%nat with off by lia. split_and!; [done|unfold n; lia..].
Qed.

Lemma read_loop_ok s bs i ps data size : geometry s bs -> stored bs i ps data -> forall fuel off acc,
  (off <= length data)%nat -> (length acc <= size)%nat -> (size - length acc < fuel)%nat ->
  read_loop fuel s i bs (Z.of_nat off) (Z.of_nat size) acc =
    Ret (Ok (acc ++ take (size - length acc) (drop off data)),
         Z.of_nat (off + length (take (size - length acc) (drop off data)))).
Proof.
  intros Hg Hs fuel. induction fuel as [|fuel IH]; intros off acc Hoff Hacc Hf; [lia|].
  cbn [read_loop]. rewrite (sd_len _ _ _ _ Hs).
  destruct (Z.ltb_spec (Z.of_nat (length acc)) (Z.of_nat size)) as [Hlt|Hge]; cbn [andb].
  2: { replace (size - length acc)%nat with 0%nat by lia. rewrite take_0, app_nil_r. do 3 f_equal. simpl. lia. }
  destruct (Z.ltb_spec (Z.of_nat off) (Z.of_nat (length data))).
  2: { rewrite drop_ge, take_nil, app_nil_r by lia. do 3 f_equal. simpl. lia. }
  destruct (read_turn_ok s bs i ps data off (size - length acc) Hg Hs) as (n & E & Hn & Hle); [lia|lia|].
  replace (Z.of_nat size - Z.of_nat (length acc)) with (Z.of_nat (size - length acc)) by lia.
  rewrite E. cbn [obind]. assert (Hlen : length (take n (drop off data)) = n) by (rewrite length_take, length_drop; lia).
  rewrite Hlen, <- Nat2Z.inj_add, IH; [|lia|rewrite length_app; lia|rewrite length_app; lia].
  rewrite length_app, Hlen, <- (assoc_L (++)), <- drop_drop, <- (take_split (drop off data) n (size - length acc)) by lia.
  replace (size - (length acc + n))%nat with (size - length acc - n)%nat by lia.
  rewrite length_app, Hlen. do 2 f_equal. lia.
Qed.

Lemma read_stored s bs i ps data off size (Hg : geometry s bs) (Hs : stored bs i ps data)
    (Hoff : (off <= length data)%nat) :
  read s i (Z.of_nat off) (Z.of_nat size) =
    Ret (Ok (take size (drop off data)), Z.of_nat (off + length (take size (drop off data)))).
Proof.
  unfold read. rewrite bool_decide_true by apply Hs. cbn [negb]. rewrite (sd_len _ _ _ _ Hs).
  destruct (Z.leb_spec (Z.of_nat (length data)) (Z.of_nat off)); cbn [orb].
  { rewrite drop_ge, take_nil by lia. do 3 f_equal. simpl. lia. }
  destruct (Z.eqb_spec (Z.of_nat size) 0).
  { assert (size = 0%nat) as -> by lia. rewrite take_0. do 3 f_equal. simpl. lia. }
  rewrite (block_size_ok _ _ Hg). cbn [obind]. rewrite (read_loop_ok s bs i ps data size Hg Hs);
    [by rewrite Nat.sub_0_r|lia|simpl; lia|simpl; lia].
Qed.

(** C23: Reading a file returns its contents.  For a regular file stored on
    the volume, with its blocks reached through the pointer tree, reading
    [size] bytes at an offset returns the bytes of the file from the offset
    on, as many as asked for or as remain, and moves the offset past them;
    the loop ends whatever the size. *)
Theorem ext2_read_spec s bs i ps data off size (Hg : geometry s bs) (Hs : stored bs i ps data)
    (Hoff : (off <= length data)%nat) :
  read s i (Z.of_nat off) (Z.of_nat size) =
    Ret (Ok (take size (drop off data)), Z.of_nat (off + length (take size (drop off data)))).
Proof. exact (read_stored s bs i ps data off size Hg Hs Hoff). Qed.

(** A hole ends the file.  Where the pointer of the block at the offset is
    zero, reading returns zero bytes, which callers take for the end of the
    file, although the offset is before the length of the inode. *)
Theorem ext2_read_hole s bs i off size (Hg : geometry s bs) (Ht : file_type i = Fl.RegularFile)
    (Hoff : 0 <= off < len i) (Hsize : 0 < size)
    (Hhole : resolve_block_ptr s (blocks i) (off / bs) = Ret (Ok 0)) :
  read s i off size = Ret (Ok [], off).
Proof.
  unfold read. rewrite bool_decide_true by done. cbn [negb].
  destruct (Z.leb_spec (len i) off); [lia|]. destruct (Z.eqb_spec size 0); [lia|]. cbn [orb].
  rewrite (block_size_ok _ _ Hg). cbn [obind read_loop]. simpl length.
  destruct (Z.ltb_spec (Z.of_nat 0) size); [|lia]. destruct (Z.ltb_spec off (len i)); [|lia]. cbn [andb].
  unfold read_turn. pose proof (geometry_cases _ _ Hg). rewrite udiv_ok by lia. cbn [obind].
  rewrite Hhole. done.
Qed.

(** ** Directories on disk *)

(** An entry and the padding up to the next one. *)
Record dirent := mkDirent { d_ino : Z; d_name : list Z; d_type : Z; d_pad : list Z }.

Definition rec_len (d : dirent) : Z := Z.of_nat (8 + length (d_name d) + length (d_pad d)).

Definition dirent_bytes (d : dirent) : list Z :=
  to_le 4 (d_ino d) ++ to_le 2 (rec_len d) ++ [Z.of_nat (length (d_name d)); d_type d] ++ d_name d ++ d_pad d.

Definition dirent_ok (d : dirent) : Prop := is_u32 (d_ino d) /\ rec_len d < U16.

(** The entries a reader sees: not deleted, with a name in UTF-8. *)
Definition visible (d : dirent) : list RawDirEntry :=
  if (d_ino d =? 0) || (Z.of_nat (length (d_name d)) =? 0) || negb (utf8_valid (d_name d)) then []
  else [mkRaw (d_ino d) (d_name d) (d_type d)].

Definition block_bytes (ds : list dirent) : list Z := mjoin (dirent_bytes <$> ds).

Lemma block_bytes_cons d ds : block_bytes (d :: ds) = dirent_bytes d ++ block_bytes ds.
Proof. done. Qed.

Lemma dirent_bytes_len d : Z.of_nat (length (dirent_bytes d)) = rec_len d.
Proof. unfold dirent_bytes, rec_len. rewrite !length_app, !to_le_len. simpl length. lia. Qed.

Lemma read_u32_at pre x rest o : o = Z.of_nat (length pre) -> is_u32 x -> o + 4 < USIZE ->
  read_u32_le (pre ++ to_le 4 x ++ rest) o = Ret x.
Proof.
  intros -> Hx Hu. unfold read_u32_le. rewrite uadd_ok by done. cbn [obind].
  rewrite (slice_app pre (to_le 4 x)) by (done || rewrite to_le_len; done). cbn [obind].
  rewrite from_to_le; [done|]. unfold is_u32, U32 in Hx. simpl. lia.
Qed.

Lemma read_u16_at pre x rest o : o = Z.of_nat (length pre) -> 0 <= x < U16 -> o + 2 < USIZE ->
  read_u16_le (pre ++ to_le 2 x ++ rest) o = Ret x.
Proof.
  intros -> Hx Hu. unfold read_u16_le. rewrite uadd_ok by done. cbn [obind].
  rewrite (slice_app pre (to_le 2 x)) by (done || rewrite to_le_len; done). cbn [obind].
  rewrite from_to_le; [done|]. unfold U16 in Hx. simpl. lia.
Qed.

(** The fields of the entry at [pre]. *)
Lemma dirent_fields pre d post o : o = Z.of_nat (length pre) -> dirent_ok d -> o <= 4096 ->
  let buf := pre ++ dirent_bytes d ++ post in
  read_u32_le buf o = Ret (d_ino d) /\ read_u16_le buf (o + 4) = Ret (rec_len d) /\
  buf !! Z.to_nat (o + 6) = Some (Z.of_nat (length (d_name d))) /\ buf !! Z.to_nat (o + 7) = Some (d_type d) /\
  slice buf (o + 8) (o + 8 + Z.of_nat (length (d_name d))) = Ret (d_name d).
Proof.
  intros Ho [Hi Hr] Hm buf. unfold U16 in Hr.
  assert (Hb : buf = ((pre ++ to_le 4 (d_ino d)) ++ to_le 2 (rec_len d)) ++
    [Z.of_nat (length (d_name d)); d_type d] ++ d_name d ++ d_pad d ++ post).
  { unfold buf, dirent_bytes. by rewrite <- !(assoc_L (++)). }
  assert (Hl : length ((pre ++ to_le 4 (d_ino d)) ++ to_le 2 (rec_len d)) = (length pre + 6)%nat)
    by (rewrite !length_app, !to_le_len; lia).
  split_and!.
  - unfold buf, dirent_bytes. rewrite <- !(assoc_L (++)). apply read_u32_at; [done|done|unfold USIZE; lia].
  - rewrite Hb, <- (assoc_L (++) (pre ++ _)). apply read_u16_at.
    + rewrite length_app, to_le_len. lia.
    + unfold U16, rec_len in *. lia.
    + unfold USIZE. lia.
  - rewrite Hb. apply (list_lookup_middle _ (d_type d :: _)). rewrite Hl. lia.
  - rewrite Hb, (app_assoc _ [_; _]). change [_; d_type d] with ([Z.of_nat (length (d_name d))] ++ [d_type d]).
    rewrite (app_assoc _ [Z.of_nat _] [d_type d]), <- (app_assoc _ [d_type d]).
    apply (list_lookup_middle _ (d_name d ++ _)). rewrite length_app, Hl. simpl. lia.
  - rewrite Hb, (app_assoc _ [_; _]). apply slice_app; [|lia]. rewrite length_app, Hl. simpl. lia.
Qed.

Section directory.
Context (s : Ext2SuperBlock) (bs : Z) (bl : list Z) (size : Z).
Context (Hg : geometry s bs).

(** Between blocks, [k] blocks behind; and inside block [k], at [off]. *)
Definition between (buf : option (list Z)) (k : nat) : DirEntryIter :=
  mkIter bl size buf bs (Z.of_nat k) bs (Z.of_nat k * bs).
Definition inside (buf : list Z) (k : nat) (off : Z) : DirEntryIter :=
  mkIter bl size (Some buf) bs (Z.of_nat k) off (Z.of_nat k * bs + off).

Lemma parse_dirent_ok pre d ds rest k : dirent_ok d -> Forall dirent_ok ds ->
  Z.of_nat (length (pre ++ block_bytes (d :: ds))) = bs -> Z.of_nat (S k) * bs <= size -> size < U32 ->
  let buf := pre ++ block_bytes (d :: ds) ++ rest in
  let it := match ds with
            | [] => between (Some buf) (S k)
            | _ => inside buf k (Z.of_nat (length pre) + rec_len d)
            end in
  parse_dirent (inside buf k (Z.of_nat (length pre))) =
    Ret (match visible d with [e] => Yield (Ok e) it | _ => Again it end).
Proof.
  intros Hd Hds Hlen Hsz Hu buf it. pose proof (geometry_cases _ _ Hg) as Hc.
  rewrite block_bytes_cons, !length_app, !Nat2Z.inj_add, dirent_bytes_len in Hlen.
  assert (Hbuf : buf = pre ++ dirent_bytes d ++ (block_bytes ds ++ rest))
    by (unfold buf; by rewrite block_bytes_cons, <- !(assoc_L (++))).
  assert (Hds0 : ds = [] <-> block_bytes ds = []).
  { split; [by intros ->|]. destruct ds as [|d' ds']; [done|]. rewrite block_bytes_cons. intros [E _]%app_nil.
    pose proof (dirent_bytes_len d') as El. rewrite E in El. unfold rec_len in El. simpl in El. lia. }
  destruct (dirent_fields pre d (block_bytes ds ++ rest) (Z.of_nat (length pre)) eq_refl Hd) as (F1 & F2 & F3 & F4 & F5);
    [unfold rec_len in Hlen; lia|]. rewrite <- Hbuf in F1, F2, F3, F4, F5.
  unfold parse_dirent. cbn [ibuf inside block_offset ibs expect obind bytes_read dir_size block_idx].
  unfold DIR_ENTRY_NAME_OFFSET, DIR_ENTRY_INODE_OFFSET, DIR_ENTRY_REC_LEN_OFFSET, DIR_ENTRY_NAME_LEN_OFFSET, DIR_ENTRY_FILE_TYPE_OFFSET.
  rewrite Z.add_0_r, F1, F2, F3, F4. cbn [obind expect].
  destruct (Z.ltb_spec bs (Z.of_nat (length pre) + 8)); [unfold rec_len in Hlen; lia|].
  destruct (Z.eqb_spec (rec_len d) 0); [unfold rec_len in *; lia|].
  rewrite u32_add_ok by (unfold rec_len in *; lia). cbn [obind].
  assert (Hit : (if (bs <=? Z.of_nat (length pre) + rec_len d) || (size <=? Z.of_nat k * bs + Z.of_nat (length pre) + rec_len d)
    then next_block (inside buf k (Z.of_nat (length pre))) (Z.of_nat k + 1) (Z.of_nat k * bs + Z.of_nat (length pre) + rec_len d)
    else mkIter bl size (Some buf) bs (Z.of_nat k) (Z.of_nat (length pre) + rec_len d)
           (Z.of_nat k * bs + Z.of_nat (length pre) + rec_len d)) = it).
  { unfold it. destruct ds as [|d' ds'].
    - cbn [block_bytes fmap list_fmap mjoin list_join length] in Hlen. rewrite (proj2 (Z.leb_le bs _)) by (simpl in Hlen; lia).
      cbn [orb]. unfold next_block, between. simpl in Hlen |- *. f_equal; lia.
    - assert (0 < Z.of_nat (length (block_bytes (d' :: ds')))).
      { assert (block_bytes (d' :: ds') <> []) by (by rewrite <- Hds0).
        destruct (block_bytes (d' :: ds')); [done|simpl; lia]. }
      rewrite !(proj2 (Z.leb_gt _ _)) by lia. cbn [orb]. unfold inside. f_equal. lia. }
  unfold inside in Hit |- *. cbn [iblocks ibs dir_size ibuf]. rewrite Hit. unfold visible.
  destruct (d_ino d =? 0); [done|]. destruct (Z.of_nat (length (d_name d)) =? 0); [done|]. cbn [orb].
  destruct (Z.ltb_spec bs (Z.of_nat (length pre) + 8 + Z.of_nat (length (d_name d)))); [unfold rec_len in Hlen; lia|].
  rewrite F5. cbn [obind]. by destruct (utf8_valid (d_name d)).
Qed.

(** What a consumer does with a list of entries. *)
Fixpoint go {A B} (f : A -> RawDirEntry -> A + B) (l : list RawDirEntry) (a : A) : A + B :=
  match l with
  | [] => inl a
  | e :: l => match f a e with inl a => go f l a | inr b => inr b end
  end.

Lemma go_app {A B} (f : A -> RawDirEntry -> A + B) l l' : forall a,
  go f (l ++ l') a = match go f l a with inl a => go f l' a | inr b => inr b end.
Proof. induction l as [|e l IH]; intros a; [done|]. cbn [app go]. by destruct (f a e). Qed.

(** After the entries [ds] of a block the iterator is between blocks. *)
Lemma walk_inside {A B} (f : A -> RawDirEntry -> A + B) k rest fuel :
  Z.of_nat (S k) * bs <= size -> size < U32 -> forall ds pre a, ds <> [] -> Forall dirent_ok ds ->
  Z.of_nat (length (pre ++ block_bytes ds)) = bs ->
  let buf := pre ++ block_bytes ds ++ rest in
  walk (length ds + fuel) s f (inside buf k (Z.of_nat (length pre))) a =
    match go f (ds ≫= visible) a with
    | inl a => walk fuel s f (between (Some buf) (S k)) a
    | inr b => Ret (Ok (inr b))
    end.
Proof.
  intros Hsz Hu ds. induction ds as [|d ds IH]; intros pre a Hne Hok Hlen buf; [done|].
  apply Forall_cons in Hok as [Hd Hds]. cbn [length Nat.add walk]. unfold dir_turn, load_block.
  cbn [inside ibs block_offset]. destruct (Z.leb_spec bs (Z.of_nat (length pre))) as [Hbad|_].
  { rewrite block_bytes_cons, !length_app in Hlen. pose proof (dirent_bytes_len d). unfold rec_len in *. lia. }
  cbn [obind]. fold (inside buf k (Z.of_nat (length pre))).
  unfold buf. rewrite (parse_dirent_ok pre d ds rest k) by done. fold buf. cbn [obind].
  cbn [mbind list_bind]. rewrite go_app.
  assert (Hstep : forall a, walk (length ds + fuel) s f
      match ds with [] => between (Some buf) (S k) | _ => inside buf k (Z.of_nat (length pre) + rec_len d) end a
    = match go f (ds ≫= visible) a with
      | inl a => walk fuel s f (between (Some buf) (S k)) a
      | inr b => Ret (Ok (inr b)) end).
  { intros a'. destruct ds as [|d' ds']; [done|].
    assert (Eb : buf = (pre ++ dirent_bytes d) ++ block_bytes (d' :: ds') ++ rest)
      by (unfold buf; by rewrite (block_bytes_cons d), <- !(assoc_L (++))).
    assert (El : Z.of_nat (length pre) + rec_len d = Z.of_nat (length (pre ++ dirent_bytes d)))
      by (rewrite length_app, Nat2Z.inj_add, dirent_bytes_len; done).
    rewrite El, Eb. apply IH; [done|done|]. rewrite block_bytes_cons in Hlen. by rewrite <- app_assoc. }
  assert (visible d = [] \/ exists e, visible d = [e]) as [->|(e & ->)]
    by (unfold visible; destruct (_ || _ || _); eauto); cbn [go]; [apply Hstep|].
  destruct (f a e); [apply Hstep|done].
Qed.

(** The directory on disk: its blocks of entries, in the blocks [ps]. *)
Context (ps : list Z) (dbs : list (list dirent)).
Context (Hlo : laid_out bs bl ps)
  (Hmax : (length ps <= 12 + Z.to_nat (bs / 4) + Z.to_nat (bs / 4) * Z.to_nat (bs / 4))%nat)
  (Hps : length ps = length dbs) (Hsize : size = Z.of_nat (length dbs) * bs) (Hu : size < U32)
  (Hblocks : forall k p ds, ps !! k = Some p -> dbs !! k = Some ds ->
    0 < p /\ ds <> [] /\ Forall dirent_ok ds /\ Z.of_nat (length (block_bytes ds)) = bs /\
    exists rest, get_block (sector_of bs p) = Ret (Ok (block_bytes ds ++ rest))).

Lemma load_between buf k ds : dbs !! k = Some ds -> exists rest,
  load_block s (between buf k) = Ret (inr (inside (block_bytes ds ++ rest) k 0)) /\
  ds <> [] /\ Forall dirent_ok ds /\ Z.of_nat (length (block_bytes ds)) = bs.
Proof.
  intros Hk. pose proof (lookup_lt_Some _ _ _ Hk). pose proof (geometry_cases _ _ Hg).
  destruct (lookup_lt_is_Some_2 ps k) as (p & Hp); [lia|].
  destruct (Hblocks k p ds Hp Hk) as (Hp0 & Hne & Hok & Hl & rest & Hget). exists rest. split_and!; try done.
  assert (Hpu : is_u32 p) by (pose proof (lo_u32 _ _ _ Hlo) as Hf; rewrite Forall_lookup in Hf; eauto).
  unfold load_block. cbn [between ibs block_offset dir_size bytes_read iblocks block_idx].
  rewrite (proj2 (Z.leb_le bs bs)) by lia. destruct (Z.leb_spec size (Z.of_nat k * bs)); [nia|].
  rewrite (resolve_ok s bs bl ps k p) by done. cbn [obind]. destruct p as [|p|p]; [lia| |lia].
  rewrite (block_to_sector_ok s bs) by done. cbn [obind]. rewrite Hget. cbn [obind].
  unfold inside. by rewrite Z.add_0_r.
Qed.

Lemma walk_between {A B} (f : A -> RawDirEntry -> A + B) fuel : forall n buf k a, (n + k = length dbs)%nat ->
  walk (length (mjoin (drop k dbs)) + S fuel) s f (between buf k) a = Ret (Ok (go f (mjoin (drop k dbs) ≫= visible) a)).
Proof.
  induction n as [|n IH]; intros buf k a Hn.
  - rewrite drop_ge by lia. cbn [mjoin list_join length Nat.add walk mbind list_bind go].
    unfold dir_turn, load_block. cbn [between ibs block_offset dir_size bytes_read].
    rewrite (proj2 (Z.leb_le bs bs)) by lia. destruct (Z.leb_spec size (Z.of_nat k * bs)); [done|nia].
  - destruct (lookup_lt_is_Some_2 dbs k) as (ds & Hk); [lia|].
    destruct (load_between buf k ds Hk) as (rest & El & Hne & Hok & Hlen).
    rewrite (drop_S _ _ _ Hk).
    change (mjoin (ds :: drop (S k) dbs)) with (ds ++ mjoin (drop (S k) dbs)).
    rewrite length_app, bind_app, go_app, <- Nat.add_assoc.
    assert (Ew : walk (length ds + (length (mjoin (drop (S k) dbs)) + S fuel)) s f (between buf k) a =
                 walk (length ds + (length (mjoin (drop (S k) dbs)) + S fuel)) s f (inside (block_bytes ds ++ rest) k 0) a).
    { destruct ds as [|d ds]; [done|]. cbn [length Nat.add walk]. unfold dir_turn. rewrite El. cbn [obind].
      unfold load_block. cbn [inside ibs block_offset]. pose proof (geometry_cases _ _ Hg).
      destruct (Z.leb_spec bs 0); [lia|]. done. }
    rewrite Ew. change 0 with (Z.of_nat (length (@nil Z))). change (block_bytes ds ++ rest) with ([] ++ block_bytes ds ++ rest).
    rewrite (walk_inside f k rest) by (done || nia).
    destruct (go f (ds ≫= visible) a); [|done]. apply IH. lia.
Qed.

Lemma walk_dir {A B} (f : A -> RawDirEntry -> A + B) fuel a : (length (mjoin dbs) < fuel)%nat ->
  walk fuel s f (between None 0) a = Ret (Ok (go f (mjoin dbs ≫= visible) a)).
Proof.
  intros Hf. pose proof (walk_between f (fuel - length (mjoin dbs) - 1) (length dbs) None 0 a ltac:(lia)) as Hw.
  rewrite drop_0 in Hw. replace (length (mjoin dbs) + S (fuel - length (mjoin dbs) - 1))%nat with fuel in Hw by lia.
  exact Hw.
Qed.
End directory.

(** A directory stored on the volume: blocks of entries, each block filled. *)
Record dir_stored (bs : Z) (i : Inode) (ps : list Z) (dbs : list (list dirent)) : Prop := {
  ds_type : file_type i = Fl.Directory;
  ds_len : len i = Z.of_nat (length dbs) * bs;
  ds_u32 : len i < U32;
  ds_layout : laid_out bs (blocks i) ps;
  ds_max : (length ps <= 12 + Z.to_nat (bs / 4) + Z.to_nat (bs / 4) * Z.to_nat (bs / 4))%nat;
  ds_count : length ps = length dbs;
  ds_blocks : forall k p ds, ps !! k = Some p -> dbs !! k = Some ds ->
    0 < p /\ ds <> [] /\ Forall dirent_ok ds /\ Z.of_nat (length (block_bytes ds)) = bs /\
    exists rest, get_block (sector_of bs p) = Ret (Ok (block_bytes ds ++ rest)) }.

Lemma walk_stored {A B} s bs i ps dbs (f : A -> RawDirEntry -> A + B) fuel a : geometry s bs -> dir_stored bs i ps dbs ->
  (length (mjoin dbs) < fuel)%nat ->
  exists it, iter_new s i = Ret it /\ for_each fuel fuel s f it a = Ret (Ok (go f (mjoin dbs ≫= visible) a)).
Proof.
  intros Hg [Ht Hl Hu Hlo Hm Hc Hb] Hf. unfold iter_new. rewrite (block_size_ok _ _ Hg). cbn [obind].
  eexists. split; [done|]. rewrite as_u32_small by (pose proof (geometry_cases _ _ Hg); nia).
  apply (walk_for_each s f fuel); [|done|done].
  apply (walk_dir s bs (blocks i) (len i) Hg ps dbs Hlo Hm Hc Hl Hu Hb f fuel a Hf).
Qed.

Lemma go_collect (l : list RawDirEntry) : forall acc,
  go (fun a e => inl (B := Empty_set) (a ++ [Fl.mkDirEntry (rname e) (dirent_type (rtype e))])) l acc =
    inl (acc ++ ((fun e => Fl.mkDirEntry (rname e) (dirent_type (rtype e))) <$> l)).
Proof.
  induction l as [|e l IH]; intros acc; cbn [go fmap list_fmap]; [by rewrite app_nil_r|].
  rewrite IH. by rewrite <- app_assoc.
Qed.

Lemma readdir_stored s bs i ps dbs fuel (Hg : geometry s bs) (Hd : dir_stored bs i ps dbs)
    (Hf : (length (mjoin dbs) < fuel)%nat) :
  readdir fuel s i =
    Ret (Ok ((fun e => Fl.mkDirEntry (rname e) (dirent_type (rtype e))) <$> (mjoin dbs ≫= visible))).
Proof.
  unfold readdir. rewrite bool_decide_true by apply Hd. cbn [negb].
  destruct (walk_stored s bs i ps dbs
    (fun a e => inl (B := Empty_set) (a ++ [Fl.mkDirEntry (rname e) (dirent_type (rtype e))])) fuel [] Hg Hd Hf)
    as (it & -> & E). cbn [obind]. unfold rbind, map_err. rewrite E. cbn [obind]. by rewrite go_collect.
Qed.

(** C24: Listing a directory lists its entries.  For a directory stored on the
    volume as blocks filled with entries, through direct and indirect blocks,
    readdir returns the entries of all blocks in order, with their types,
    leaving out exactly those that are deleted, nameless or not UTF-8. *)
Theorem ext2_readdir_spec s bs i ps dbs fuel (Hg : geometry s bs) (Hd : dir_stored bs i ps dbs)
    (Hf : (length (mjoin dbs) < fuel)%nat) :
  readdir fuel s i =
    Ret (Ok ((fun e => Fl.mkDirEntry (rname e) (dirent_type (rtype e))) <$> (mjoin dbs ≫= visible))).
Proof. exact (readdir_stored s bs i ps dbs fuel Hg Hd Hf). Qed.

Lemma go_find (name : list Z) (l : list RawDirEntry) :
  go (fun (a : unit) e => if bytes_eqb (rname e) name then inr (rino e) else inl a) l tt =
    match list_find (fun e => rname e = name) l with Some (_, e) => inr (rino e) | None => inl tt end.
Proof.
  induction l as [|e l IH]; [done|]. cbn [go list_find]. destruct (bytes_eqb (rname e) name) eqn:E.
  - apply bool_decide_eq_true in E. by rewrite decide_True.
  - apply bool_decide_eq_false in E. rewrite IH, decide_False by done. by destruct (list_find _ l) as [[]|].
Qed.

(** Looking a name up in a directory stored on the volume gives the inode
    of the first visible entry with exactly that name, and NotFound when
    there is none. *)
Theorem ext2_lookup_spec s bs i ps dbs fuel pinned name (Hg : geometry s bs) (Hd : dir_stored bs i ps dbs)
    (Hf : (length (mjoin dbs) < fuel)%nat) :
  lookup fuel pinned s i name =
    match list_find (fun e => rname e = name) (mjoin dbs ≫= visible) with
    | Some (_, e) => map_err not_found (get_or_read_inode pinned s (rino e))
    | None => Ret (Err Fl.NotFound)
    end.
Proof.
  unfold lookup. rewrite bool_decide_true by apply Hd. cbn [negb].
  destruct (walk_stored s bs i ps dbs
    (fun (a : unit) e => if bytes_eqb (rname e) name then inr (rino e) else inl a) fuel tt Hg Hd Hf)
    as (it & -> & E). cbn [obind]. unfold rbind, map_err at 1. rewrite E. cbn [obind]. rewrite go_find.
  by destruct (list_find _ _) as [[]|].
Qed.

(** ** Damaged directories

    Whatever the blocks contain, iteration ends and does not panic. *)
Section damaged.
Context (s : Ext2SuperBlock) (bs : Z) (Hg : geometry s bs).
Context (Hvol : forall sector, exists r, get_block sector = Ret r /\
  forall buf, r = Ok buf -> length buf = 4096%nat /\ Forall byte_ok buf).

Definition max_blocks : Z := 12 + bs / 4 + bs / 4 * (bs / 4).

Lemma read_u32_total buf o : length buf = 4096%nat -> Forall byte_ok buf -> 0 <= o -> o + 4 <= 4096 ->
  exists x, read_u32_le buf o = Ret x /\ is_u32 x.
Proof.
  intros Hl Hb Ho H4. unfold read_u32_le. rewrite uadd_ok by (unfold USIZE; lia). cbn [obind].
  destruct (slice_ok buf o (o + 4)) as (l & E & Hll); [lia..|]. rewrite E. cbn [obind]. eexists. split; [done|].
  assert (Hlb : Forall byte_ok l).
  { unfold slice in E. destruct (_ && _); [|done]. injection E as <-. by apply Forall_take, Forall_drop. }
  pose proof (from_le_bound l Hlb) as Hx. rewrite Hll in Hx.
  replace (Z.to_nat (o + 4 - o)) with 4%nat in Hx by lia. unfold is_u32, U32. simpl in Hx. lia.
Qed.

Lemma read_u16_total buf o : length buf = 4096%nat -> Forall byte_ok buf -> 0 <= o -> o + 2 <= 4096 ->
  exists x, read_u16_le buf o = Ret x /\ 0 <= x < U16.
Proof.
  intros Hl Hb Ho H4. unfold read_u16_le. rewrite uadd_ok by (unfold USIZE; lia). cbn [obind].
  destruct (slice_ok buf o (o + 2)) as (l & E & Hll); [lia..|]. rewrite E. cbn [obind]. eexists. split; [done|].
  assert (Hlb : Forall byte_ok l).
  { unfold slice in E. destruct (_ && _); [|done]. injection E as <-. by apply Forall_take, Forall_drop. }
  pose proof (from_le_bound l Hlb) as Hx. rewrite Hll in Hx.
  replace (Z.to_nat (o + 2 - o)) with 2%nat in Hx by lia. unfold U16. simpl in Hx. lia.
Qed.

Definition inode_blocks_ok (bl : list Z) : Prop := length bl = 15%nat /\ Forall is_u32 bl.

Lemma blocks_lookup bl n : inode_blocks_ok bl -> (n < 15)%nat -> exists p, bl !! n = Some p /\ is_u32 p.
Proof.
  intros [Hl Hu] Hn. destruct (lookup_lt_is_Some_2 bl n) as (p & Hp); [lia|]. exists p. split; [done|].
  rewrite Forall_lookup in Hu. eauto.
Qed.

Lemma resolve_total bl idx : inode_blocks_ok bl -> 0 <= idx -> exists r,
  resolve_block_ptr s bl idx = Ret r /\ (forall p, r = Ok p -> is_u32 p) /\ (max_blocks <= idx -> r = Ok 0).
Proof.
  intros Hbl Hi. unfold resolve_block_ptr, NDIR_BLOCKS, max_blocks. pose proof (geometry_cases _ _ Hg).
  assert (H0 : is_u32 0) by (unfold is_u32, U32; lia).
  remember (bs / 4) as P eqn:EP. assert (HP : 256 <= P <= 1024) by lia. assert (HPP : 0 <= P * P) by nia.
  destruct (Z.ltb_spec idx 12).
  { destruct (blocks_lookup bl (Z.to_nat idx)) as (p & -> & Hp); [done|lia|]. cbn [obind expect].
    eexists. split; [done|]. split; [by intros ? [= <-]|lia]. }
  rewrite (block_size_ok _ _ Hg). cbn [obind]. rewrite <- EP. destruct (Z.ltb_spec (idx - 12) P).
  { destruct (blocks_lookup bl (Z.to_nat 12)) as (p & -> & Hp); [done|simpl; lia|]. cbn [obind expect].
    destruct (Z.eqb_spec p 0); [eexists; split; [done|]; split; [by intros ? [= <-]|done]|].
    rewrite (block_to_sector_ok s bs) by done. cbn [obind].
    destruct (Hvol (sector_of bs p)) as (r & Er & Hr). unfold rbind. rewrite Er. cbn [obind].
    destruct r as [buf|e]; [|eexists; split; [done|]; split; [done|lia]].
    destruct (Hr buf eq_refl) as [Hlb Hbb]. destruct (read_u32_total buf ((idx - 12) * 4)) as (x & -> & Hx); [done|done|lia|lia|].
    eexists; split; [done|]. split; [by intros ? [= <-]|lia]. }
  destruct (Z.ltb_spec (idx - 12 - P) (P * P)); [|eexists; split; [done|]; split; [by intros ? [= <-]|done]].
  destruct (blocks_lookup bl (Z.to_nat (12 + 1))) as (p & -> & Hp); [done|simpl; lia|]. cbn [obind expect].
  destruct (Z.eqb_spec p 0); [eexists; split; [done|]; split; [by intros ? [= <-]|done]|].
  rewrite (block_to_sector_ok s bs) by done. cbn [obind].
  destruct (Hvol (sector_of bs p)) as (r & Er & Hr). unfold rbind. rewrite Er. cbn [obind].
  destruct r as [buf|e]; [|eexists; split; [done|]; split; [done|lia]].
  destruct (Hr buf eq_refl) as [Hlb Hbb].
  assert (0 <= (idx - 12 - P) / P < P) by (split; [apply Z.div_pos; lia|apply Z.div_lt_upper_bound; lia]).
  assert (0 <= (idx - 12 - P) mod P < P) by (apply Z.mod_pos_bound; lia).
  destruct (read_u32_total buf ((idx - 12 - P) / P * 4)) as (x & -> & Hx); [done|done|lia|lia|]. cbn [obind].
  destruct (Z.eqb_spec x 0); [eexists; split; [done|]; split; [by intros ? [= <-]|done]|].
  rewrite (block_to_sector_ok s bs) by done. cbn [obind].
  destruct (Hvol (sector_of bs x)) as (r2 & Er2 & Hr2). rewrite Er2. cbn [obind].
  destruct r2 as [buf2|e]; [|eexists; split; [done|]; split; [done|lia]]. destruct (Hr2 buf2 eq_refl) as [Hlb2 Hbb2].
  destruct (read_u32_total buf2 ((idx - 12 - P) mod P * 4)) as (y & -> & Hy); [done|done|lia|lia|].
  eexists; split; [done|]. split; [by intros ? [= <-]|lia].
Qed.

(** The states of an iterator. *)
Record iter_ok (it : DirEntryIter) : Prop := {
  io_bs : ibs it = bs;
  io_blocks : inode_blocks_ok (iblocks it);
  io_idx : 0 <= block_idx it <= max_blocks;
  io_off : 0 <= block_offset it;
  io_read : 0 <= bytes_read it;
  io_size : dir_size it < U32 - U16;
  io_buf : block_offset it < bs -> bytes_read it < dir_size it /\ block_idx it < max_blocks /\
    exists buf, ibuf it = Some buf /\ length buf = 4096%nat /\ Forall byte_ok buf }.

(** Decreases with every entry and every block. *)
Definition left_over (it : DirEntryIter) : Z :=
  (max_blocks + 1 - block_idx it) * (bs + 2) +
  (if bs <=? block_offset it then bs + 1 else bs - block_offset it).

Definition turn_fine (it : DirEntryIter) (t : turn) : Prop :=
  match t with
  | Stop _ | Yield (Err _) _ => True
  | Yield (Ok _) it' | Again it' => iter_ok it' /\ left_over it' < left_over it
  end.

Lemma next_block_ok it idx r : iter_ok it -> 0 <= idx <= max_blocks -> 0 <= r ->
  iter_ok (next_block it idx r).
Proof.
  intros [] Hi Hr. unfold next_block. split; simpl; try done; try lia;
    pose proof (geometry_cases _ _ Hg); try lia.
Qed.

Lemma next_block_less it r : iter_ok it -> block_idx it < max_blocks ->
  left_over (next_block it (block_idx it + 1) r) < left_over it.
Proof.
  intros [] Hi. unfold left_over. simpl. rewrite io_bs0. rewrite (proj2 (Z.leb_le bs bs)) by lia.
  pose proof (geometry_cases _ _ Hg). destruct (Z.leb_spec bs (block_offset it)); nia.
Qed.

Lemma parse_fine it : iter_ok it -> block_offset it < bs ->
  exists t, parse_dirent it = Ret t /\
    match t with
    | Stop _ | Yield (Err _) _ => True
    | Yield (Ok _) it' | Again it' => iter_ok it' /\
        (left_over it' < left_over it /\ (block_idx it' = block_idx it + 1 \/ block_idx it' = block_idx it))
    end.
Proof.
  intros Hio Hlt. pose proof (geometry_cases _ _ Hg) as Hc. pose proof Hio as [].
  destruct (io_buf0 Hlt) as (Hread & Hidx & buf & Eb & Hl & Hb). unfold parse_dirent. rewrite Eb, io_bs0. cbn [obind expect].
  unfold DIR_ENTRY_NAME_OFFSET, DIR_ENTRY_INODE_OFFSET, DIR_ENTRY_REC_LEN_OFFSET, DIR_ENTRY_NAME_LEN_OFFSET, DIR_ENTRY_FILE_TYPE_OFFSET.
  assert (Hnb : forall r, 0 <= r -> iter_ok (next_block it (block_idx it + 1) r) /\
    (left_over (next_block it (block_idx it + 1) r) < left_over it /\
     (block_idx (next_block it (block_idx it + 1) r) = block_idx it + 1 \/ block_idx (next_block it (block_idx it + 1) r) = block_idx it))).
  { intros r Hr. split_and!; [apply next_block_ok; (done || lia)|by apply next_block_less|by left]. }
  destruct (Z.ltb_spec bs (block_offset it + 8)); [eexists; split; [done|]; by apply Hnb|].
  destruct (read_u32_total buf (block_offset it + 0)) as (ino & -> & _); [done|done|lia|lia|].
  destruct (read_u16_total buf (block_offset it + 4)) as (rl & -> & Hrl); [done|done|lia|lia|]. cbn [obind].
  destruct (lookup_lt_is_Some_2 buf (Z.to_nat (block_offset it + 6))) as (nl & Hnl); [lia|].
  destruct (lookup_lt_is_Some_2 buf (Z.to_nat (block_offset it + 7))) as (ft & Hft); [lia|].
  rewrite Hnl, Hft. cbn [obind expect]. assert (Hnlb : byte_ok nl) by (rewrite Forall_lookup in Hb; eauto).
  destruct (Z.eqb_spec rl 0); [eexists; split; [done|]; by apply Hnb|].
  rewrite u32_add_ok by lia. cbn [obind]. set (it' := if (bs <=? _) || _ then next_block _ _ _ else _).
  assert (Hit' : iter_ok it' /\ (left_over it' < left_over it /\ (block_idx it' = block_idx it + 1 \/ block_idx it' = block_idx it))).
  { unfold it'. destruct (Z.leb_spec bs (block_offset it + rl)); cbn [orb]; [apply Hnb; lia|].
    destruct (Z.leb_spec (dir_size it) (bytes_read it + rl)); [apply Hnb; lia|]. split_and!; [|unfold left_over; simpl|by right].
    - split; simpl; try done; [lia|lia|]. intros _. split_and!; [lia|done|]. by exists buf.
    - rewrite !(proj2 (Z.leb_gt _ _)) by lia. lia. }
  clearbody it'. destruct ((ino =? 0) || (nl =? 0)); [eexists; split; [done|]; done|].
  destruct (Z.ltb_spec bs (block_offset it + 8 + nl)); [eexists; split; [done|]; done|].
  destruct (slice_ok buf (block_offset it + 8) (block_offset it + 8 + nl)) as (nm & -> & _);
    [lia|unfold byte_ok in *; lia|lia|]. cbn [obind].
  destruct (utf8_valid nm); eexists; (split; [done|]); done.
Qed.

Lemma dir_turn_fine it : iter_ok it -> exists t, dir_turn s it = Ret t /\ turn_fine it t.
Proof.
  intros Hio. pose proof Hio as []. pose proof (geometry_cases _ _ Hg). unfold dir_turn, load_block. rewrite io_bs0.
  destruct (Z.leb_spec bs (block_offset it)) as [Hout|Hin].
  2: { cbn [obind]. destruct (parse_fine it Hio Hin) as (t & -> & Ht). exists t. split; [done|].
       by destruct t as [|[]|]; simpl in *; [|destruct Ht as (? & ? & _)| |destruct Ht as (? & ? & _)]. }
  destruct (Z.leb_spec (dir_size it) (bytes_read it)); [by eexists|].
  destruct (resolve_total (iblocks it) (block_idx it)) as (r & -> & Hu & Hend); [done|lia|]. cbn [obind].
  destruct r as [p|e]; [|by eexists]. assert (Hp : is_u32 p) by auto.
  destruct (decide (p = 0)) as [->|Hp0]; [by eexists|].
  assert (block_idx it < max_blocks).
  { destruct (decide (block_idx it < max_blocks)) as [|Hge]; [done|]. destruct Hp0.
    assert (Hx : Ok (E := BlockError) p = Ok 0) by (apply Hend; lia). by injection Hx. }
  assert (Em : forall X Y, match p with 0 => X | _ => Y end = Y :> outcome (turn + DirEntryIter)) by (by destruct p).
  rewrite Em, (block_to_sector_ok s bs) by done. cbn [obind].
  destruct (Hvol (sector_of bs p)) as (r & -> & Hr). cbn [obind]. destruct r as [buf|e]; [|by eexists].
  destruct (Hr buf eq_refl) as [Hlb Hbb]. cbn [obind]. set (it1 := mkIter _ _ _ _ _ _ _).
  assert (Hio1 : iter_ok it1).
  { split; simpl; try done; try lia. intros _. split_and!; [done|done|]. by exists buf. }
  destruct (parse_fine it1 Hio1) as (t & -> & Ht); [simpl; lia|]. exists t. split; [done|].
  assert (Hless : forall it', left_over it' < left_over it1 -> left_over it' < left_over it).
  { intros it'. assert (left_over it1 < left_over it); [|lia]. unfold left_over. simpl.
    rewrite (proj2 (Z.leb_gt bs 0)), (proj2 (Z.leb_le bs (block_offset it))) by lia. lia. }
  by destruct t as [|[]|]; simpl in *; [|destruct Ht as (? & ? & _); auto| |destruct Ht as (? & ? & _); auto].
Qed.

Lemma walk_total {A B} (f : A -> RawDirEntry -> A + B) : forall fuel it a, iter_ok it ->
  left_over it < Z.of_nat fuel -> exists r, walk fuel s f it a = Ret r.
Proof.
  induction fuel as [|fuel IH]; intros it a Hio Hf.
  - exfalso. destruct Hio. unfold left_over in Hf. pose proof (geometry_cases _ _ Hg).
    destruct (Z.leb_spec bs (block_offset it)); nia.
  - cbn [walk]. destruct (dir_turn_fine it Hio) as (t & -> & Ht). cbn [obind].
    destruct t as [it'|[e|e] it'|it']; simpl in Ht; [by eexists| |by eexists|].
    + destruct Ht. destruct (f a e); [|by eexists]. apply IH; [done|lia].
    + destruct Ht. apply IH; [done|lia].
Qed.
End damaged.

(** C25: Listing a directory always ends.  Whatever bytes the blocks of the
    directory and of its pointer tree hold, on a volume whose reads return or
    fail but do not panic, readdir returns entries or an error: no record
    length, pointer or name in the blocks makes it loop forever, index out of
    range or overflow.  The bound counts every byte of every block a file can
    have; directories are smaller than 4 GiB less 64 KiB. *)
Theorem ext2_readdir_terminates s bs i fuel (Hg : geometry s bs)
    (Hvol : forall sector, exists r, get_block sector = Ret r /\
       forall buf, r = Ok buf -> length buf = 4096%nat /\ Forall byte_ok buf)
    (Hb : inode_blocks_ok (blocks i)) (Hl : 0 <= len i < U32 - U16)
    (Hf : (max_blocks bs + 2) * (bs + 2) <= Z.of_nat fuel) :
  exists r, readdir fuel s i = Ret r.
Proof.
  unfold readdir. destruct (negb _); [by eexists|]. unfold iter_new. rewrite (block_size_ok _ _ Hg). cbn [obind].
  pose proof (geometry_cases _ _ Hg) as Hc. rewrite as_u32_small by (unfold U32, U16 in *; lia).
  set (it := mkIter _ _ _ _ _ _ _). set (f := fun a e => _).
  assert (Hm : 0 <= max_blocks bs) by (unfold max_blocks; destruct Hc as [->|[->| ->]]; simpl; lia).
  destruct (walk_total s bs Hg Hvol f fuel it []) as (r & E).
  - split; simpl; try done; try lia.
  - unfold left_over. simpl. rewrite (proj2 (Z.leb_le bs bs)) by lia. lia.
  - unfold rbind, map_err. rewrite (walk_for_each s f fuel it [] r E) by done. cbn [obind].
    destruct r as [[l|[]]|e]; by eexists.
Qed.

End fs.

(** ** A small volume *)

Definition demo_sb : Ext2SuperBlock :=
  mkSb 32 64 0 32 16 128 None [5; 37] None None None (Lru.new INODE_CACHE_CAPACITY).

Lemma demo_geometry : geometry demo_sb 1024.
Proof. split; simpl; lia. Qed.

Definition demo_data : list Z := (fun n => Z.of_nat (n mod 251)) <$> seq 0 1500.

Definition demo_dir : list dirent :=
  [mkDirent 2 (lit ".") 2 [0; 0; 0]; mkDirent 0 (lit "gone") 1 []; mkDirent 12 (lit "motd") 1 (replicate 988 0)].

Definition pad (l : list Z) : list Z := l ++ replicate (4096 - length l) 0.

(** Blocks 20 and 21 hold a file, block 30 a directory, block 50 pointers. *)
Definition demo_get (sector : Z) : outcome (result (list Z) BlockError) :=
  if sector =? 40 then Ret (Ok (pad (take 1024 demo_data)))
  else if sector =? 42 then Ret (Ok (pad (drop 1024 demo_data)))
  else if sector =? 60 then Ret (Ok (pad (block_bytes demo_dir)))
  else if sector =? 100 then Ret (Ok (pad (to_le 4 112)))
  else Ret (Err IoError).

Definition demo_file : Inode := mkInode 12 Fl.RegularFile 1500 ([20; 21] ++ replicate 13 0).
Definition demo_dir_inode : Inode := mkInode 2 Fl.Directory 1024 (30 :: replicate 14 0).

Lemma demo_short bl ps : Forall is_u32 ps -> (length ps <= 12)%nat -> ps `prefix_of` bl -> laid_out demo_get 1024 bl ps.
Proof.
  intros Hu Hl [k ->]. split; [done| |lia|lia]. intros i _ Hi. by rewrite lookup_app_l.
Qed.

Lemma demo_stored : stored demo_get 1024 demo_file [20; 21] demo_data.
Proof.
  split; try done.
  - apply demo_short; [|simpl; lia|by eexists]. repeat constructor; unfold U32; lia.
  - cbn [length]. lia.
  - vm_compute. lia.
  - intros [|[|k]] p; cbn [lookup list_lookup]; intros [= <-] _; (split; [lia|]);
      [exists (replicate 3072 0)|exists (replicate 3620 0)]; by vm_compute.
Qed.

Lemma demo_dir_stored : dir_stored demo_get 1024 demo_dir_inode [30] [demo_dir].
Proof.
  split; try done.
  - apply demo_short; [|simpl; lia|by eexists]. repeat constructor; unfold U32; lia.
  - cbn [length]. lia.
  - intros [|k] p ds; simpl; intros [= <-] [= <-]. split_and!; [lia|done| |by vm_compute|].
    + repeat constructor; unfold U32, rec_len, U16; simpl; lia.
    + exists (replicate 3072 0). by vm_compute.
Qed.

Lemma inode_location_spec_witness :
  exists sector offset, inode_location demo_sb 18 = Ret (Ok (sector, offset)) /\ 512 * sector + offset = 37 * 1024 + 128.
Proof.
  assert (Ht : forall t, t ∈ groups demo_sb -> 0 <= t /\ t + inodes_per_group demo_sb < U32).
  { intros t. simpl. unfold U32. set_unfold. intros [->|[->|[]]]; lia. }
  pose proof (inode_location_spec demo_sb 1024 18 demo_geometry ltac:(simpl; lia) eq_refl ltac:(simpl; lia) ltac:(lia) Ht)
    as (sector & offset & t & Hg & E & Hb & _).
  injection Hg as <-. exists sector, offset. split; [exact E|]. exact Hb.
Defined.

Lemma resolve_block_ptr_spec_witness :
  resolve_block_ptr demo_get demo_sb (map Z.of_nat (seq 100 12) ++ [50; 0; 0]) 12 = Ret (Ok 112).
Proof.
  apply (resolve_block_ptr_spec demo_get demo_sb 1024 _ (map Z.of_nat (seq 100 13)) 12 112 demo_geometry); [|cbn [length map seq]; lia|done].
  split.
  - repeat constructor; unfold U32; simpl; lia.
  - intros i Hi _. do 12 (destruct i as [|i]; [done|]). lia.
  - intros _. exists 50, (pad (to_le 4 112)). split_and!; [done|lia|unfold U32; lia|by vm_compute|].
    split_and!; [repeat constructor; unfold U32; simpl; lia|simpl; lia|]. exists (replicate 4092 0). by vm_compute.
  - cbn [length map seq]. lia.
Defined.

Lemma ext2_read_spec_witness :
  read demo_get demo_sb demo_file 1000 100 = Ret (Ok (take 100 (drop 1000 demo_data)), 1100).
Proof.
  pose proof (ext2_read_spec demo_get demo_sb 1024 demo_file [20; 21] demo_data 1000 100 demo_geometry demo_stored) as H.
  assert (Hl : (1000 <= length demo_data)%nat) by (vm_compute; lia).
  specialize (H Hl). replace (length (take 100 (drop 1000 demo_data))) with 100%nat in H by (by vm_compute).
  exact H.
Defined.

Lemma ext2_read_hole_witness :
  read demo_get demo_sb (mkInode 13 Fl.RegularFile 3000 ([20; 0; 21] ++ replicate 12 0)) 1024 10 = Ret (Ok [], 1024).
Proof.
  apply (ext2_read_hole demo_get demo_sb 1024); [apply demo_geometry|done|simpl; lia|lia|by vm_compute].
Defined.

Lemma ext2_readdir_spec_witness :
  readdir demo_get 10 demo_sb demo_dir_inode =
    Ret (Ok [Fl.mkDirEntry (lit ".") Fl.Directory; Fl.mkDirEntry (lit "motd") Fl.RegularFile]).
Proof.
  rewrite (ext2_readdir_spec demo_get demo_sb 1024 demo_dir_inode [30] [demo_dir] 10 demo_geometry demo_dir_stored);
    [by vm_compute|vm_compute; lia].
Defined.

Lemma ext2_lookup_spec_witness :
  lookup demo_get 10 (fun _ => false) demo_sb demo_dir_inode (lit "gone") = Ret (Err Fl.NotFound).
Proof.
  rewrite (ext2_lookup_spec demo_get demo_sb 1024 demo_dir_inode [30] [demo_dir] 10 (fun _ => false) (lit "gone")
    demo_geometry demo_dir_stored); [by vm_compute|vm_compute; lia].
Defined.

(** A directory of zeros: every record length is 0. *)
Lemma ext2_readdir_terminates_witness :
  exists r, readdir (fun _ => Ret (Ok (replicate 4096 0))) (Z.to_nat ((max_blocks 1024 + 2) * (1024 + 2))) demo_sb
    (mkInode 2 Fl.Directory 1024 (replicate 15 7)) = Ret r.
Proof.
  apply (ext2_readdir_terminates _ demo_sb 1024).
  - apply demo_geometry.
  - intros sector. eexists. split; [done|]. intros buf E. assert (buf = replicate 4096 0) as -> by congruence.
    split; [by rewrite length_replicate|]. apply Forall_replicate. unfold byte_ok. lia.
  - split; [done|]. cbn [blocks]. apply Forall_replicate. unfold is_u32, U32. lia.
  - unfold U32, U16. simpl. lia.
  - rewrite Z2Nat.id; [lia|]. unfold max_blocks. simpl. lia.
Defined.

End Ext2.
