(* ===== verification/Ramfs.v ===== *)
(** * The RAM file system

    Models [src/src/fs/ramfs.rs] (Module [Ram]); the archive unpacked into it is
    in [Cpio].  An [Arc<Inode>] is the key of
    its allocation in a store, so that a directory reached by two paths is one
    directory; the map of children is the list of its entries in key order. *)

From S2P Require Import Prelude Bytes File.

(** [BTreeMap<String, A>]: entries in the byte order of the keys. *)
Fixpoint bytes_ltb (a b : list Z) : bool :=
  match a, b with
  | [], [] => false
  | [], _ :: _ => true
  | _ :: _, [] => false
  | x :: a, y :: b => (x <? y) || ((x =? y) && bytes_ltb a b)
  end.

Fixpoint bt_get {A} (k : list Z) (l : list (list Z * A)) : option A :=
  match l with
  | [] => None
  | (k', v) :: l => if decide (k = k') then Some v else bt_get k l
  end.

Fixpoint bt_insert {A} (k : list Z) (v : A) (l : list (list Z * A)) : list (list Z * A) :=
  match l with
  | [] => [(k, v)]
  | (k', v') :: l' =>
      if decide (k = k') then (k, v) :: l'
      else if bytes_ltb k k' then (k, v) :: l
      else (k', v') :: bt_insert k v l'
  end.

Lemma bt_get_insert {A} k k' (v : A) l :
  bt_get k' (bt_insert k v l) = if decide (k' = k) then Some v else bt_get k' l.
Proof.
  induction l as [|[k1 v1] l IH]; cbn [bt_insert bt_get]; [done|].
  destruct (decide (k = k1)) as [<-|].
  - cbn [bt_get]. by destruct (decide (k' = k)).
  - destruct (bytes_ltb k k1); cbn [bt_get]; [done|]. rewrite IH.
    destruct (decide (k' = k1)) as [->|]; [|done]. by rewrite decide_False by congruence.
Qed.

(** [path.split('/').filter(|s| !s.is_empty())] *)
Fixpoint split_on (c : Z) (l : list Z) : list (list Z) :=
  match l with
  | [] => [[]]
  | x :: l =>
      if x =? c then [] :: split_on c l
      else match split_on c l with
           | [] => [[x]]
           | p :: ps => (x :: p) :: ps
           end
  end.

Definition components (path : list Z) : list (list Z) := filter (fun p => p <> []) (split_on 47 path).

Module Ram.
Import Fl.

Inductive RamfsNode :=
| File (data : list Z)
| Dir (children : list (list Z * Z))
| CharDev
| BlockDev.

Record Inode := mkInode {
  ino : Z; file_type : FileType; len : Z; rdev : option (Z * Z); node : RamfsNode }.

(** [next_arc] is where the allocator puts the next [Arc]. *)
Record Ramfs := mkRamfs { store : gmap Z Inode; root : Z; next_ino : Z; next_arc : Z }.

Definition new_arc (i : Inode) (fs : Ramfs) : Z * Ramfs :=
  (next_arc fs, mkRamfs (<[next_arc fs := i]> (store fs)) (root fs) (next_ino fs) (next_arc fs + 1)).

Definition set_node (a : Z) (i : Inode) (fs : Ramfs) : Ramfs :=
  mkRamfs (<[a := i]> (store fs)) (root fs) (next_ino fs) (next_arc fs).

Definition alloc_ino (fs : Ramfs) : Z * Ramfs :=
  (next_ino fs, mkRamfs (store fs) (root fs) ((next_ino fs + 1) mod USIZE) (next_arc fs)).

Definition make_dir_inode (n : Z) : Inode := mkInode n Directory 0 None (Dir []).

Definition make_file_inode (data : list Z) (fs : Ramfs) : Z * Ramfs :=
  let '(n, fs) := alloc_ino fs in
  new_arc (mkInode n RegularFile (Z.of_nat (length data)) None (File data)) fs.

Definition make_dev_inode (t : FileType) (major minor : Z) (fs : Ramfs) : outcome (Z * Ramfs) :=
  match t with
  | CharDevice =>
      let '(n, fs) := alloc_ino fs in Ret (new_arc (mkInode n CharDevice 0 (Some (major, minor)) CharDev) fs)
  | BlockDevice =>
      let '(n, fs) := alloc_ino fs in Ret (new_arc (mkInode n BlockDevice 0 (Some (major, minor)) BlockDev) fs)
  | _ => Panic
  end.

(** [Ramfs::new] *)
Definition new : Ramfs := mkRamfs {[ 1 := make_dir_inode 1 ]} 1 2 2.

Definition with_children (cs : list (list Z * Z)) (i : Inode) : Inode :=
  mkInode (ino i) (file_type i) (len i) (rdev i) (Dir cs).

Definition get_or_create_dir (parent : Z) (name : list Z) (fs : Ramfs) : outcome (result Z Error * Ramfs) :=
  let! p := deref (store fs !! parent) in
  match node p with
  | Dir children =>
      match bt_get name children with
      | Some existing => Ret (Ok existing, fs)
      | None =>
          let '(n, fs) := alloc_ino fs in
          let '(a, fs) := new_arc (make_dir_inode n) fs in
          Ret (Ok a, set_node parent (with_children (bt_insert name a children) p) fs)
      end
  | _ => Ret (Err InvalidInput, fs)
  end.

(** Inserting into something that is not a directory does nothing. *)
Definition dir_insert (parent : Z) (name : list Z) (child : Z) (fs : Ramfs) : outcome Ramfs :=
  let! p := deref (store fs !! parent) in
  match node p with
  | Dir children => Ret (set_node parent (with_children (bt_insert name child children) p) fs)
  | _ => Ret fs
  end.

(** The loop over the directories of a path. *)
Fixpoint descend (current : Z) (dirs : list (list Z)) (fs : Ramfs) : outcome (result Z Error * Ramfs) :=
  match dirs with
  | [] => Ret (Ok current, fs)
  | d :: dirs =>
      let! '(r, fs) := get_or_create_dir current d fs in
      match r with
      | Err e => Ret (Err e, fs)
      | Ok next => descend next dirs fs
      end
  end.

Definition insert_dir (path : list Z) (fs : Ramfs) : outcome (result unit Error * Ramfs) :=
  match components path with
  | [] => Ret (Err InvalidInput, fs)
  | parts =>
      let! '(r, fs) := descend (root fs) parts fs in
      match r with Ok _ => Ret (Ok tt, fs) | Err e => Ret (Err e, fs) end
  end.

Definition insert_leaf (path : list Z) (inode : Z) (fs : Ramfs) : outcome (result unit Error * Ramfs) :=
  let parts := components path in
  match last parts with
  | None => Ret (Err InvalidInput, fs)
  | Some filename =>
      let! '(r, fs) := descend (root fs) (take (length parts - 1) parts) fs in
      match r with
      | Err e => Ret (Err e, fs)
      | Ok current => let! fs := dir_insert current filename inode fs in Ret (Ok tt, fs)
      end
  end.

Definition insert_file (path data : list Z) (fs : Ramfs) : outcome (result unit Error * Ramfs) :=
  let '(a, fs) := make_file_inode data fs in insert_leaf path a fs.

Definition insert_chardev (path : list Z) (major minor : Z) (fs : Ramfs) : outcome (result unit Error * Ramfs) :=
  let! '(a, fs) := make_dev_inode CharDevice major minor fs in insert_leaf path a fs.

Definition insert_blockdev (path : list Z) (major minor : Z) (fs : Ramfs) : outcome (result unit Error * Ramfs) :=
  let! '(a, fs) := make_dev_inode BlockDevice major minor fs in insert_leaf path a fs.

(** [RamfsInodeOps::lookup] *)
Definition lookup (fs : Ramfs) (a : Z) (name : list Z) : outcome (result Z Error) :=
  let! i := deref (store fs !! a) in
  match node i with
  | Dir children => match bt_get name children with Some c => Ret (Ok c) | None => Ret (Err NotFound) end
  | _ => Ret (Err NotADirectory)
  end.

(** [RamfsFileOps::read] at [offset], into a buffer of [size] bytes: the bytes
    read and the new offset. *)
Definition read (i : Inode) (offset size : Z) : outcome (result (list Z) Error * Z) :=
  match node i with
  | File data =>
      let! remaining := slice data offset (Z.of_nat (length data)) in
      let n := Z.min (Z.of_nat (length remaining)) size in
      let! chunk := slice remaining 0 n in
      Ret (Ok chunk, offset + n)
  | _ => Ret (Err InvalidInput, offset)
  end.

(** [RamfsFileOps::readdir] *)
Definition readdir (fs : Ramfs) (a : Z) : outcome (result (list DirEntry) Error) :=
  let! i := deref (store fs !! a) in
  match node i with
  | Dir children =>
      let! l := ofold (fun acc '(name, c) =>
          let! ci := deref (store fs !! c) in Ret (acc ++ [mkDirEntry name (file_type ci)])) children [] in
      Ret (Ok l)
  | _ => Ret (Err NotADirectory)
  end.

(** Path resolution from an inode. *)
Fixpoint walk (fs : Ramfs) (a : Z) (parts : list (list Z)) : outcome (result Z Error) :=
  match parts with
  | [] => Ret (Ok a)
  | p :: parts => let? c := lookup fs a p in walk fs c parts
  end.

(** ** The tree

    [child fs a n c]: entry [n] of directory [a] is [c]. *)
Definition child (fs : Ramfs) (a : Z) (n : list Z) (c : Z) : Prop :=
  exists i cs, store fs !! a = Some i /\ node i = Dir cs /\ bt_get n cs = Some c.

Definition is_dir (fs : Ramfs) (a : Z) : Prop := exists i cs, store fs !! a = Some i /\ node i = Dir cs.

(** Every entry names an inode, the root is in no directory, and no inode is
    in two places: the store is a tree. *)
Record wf (fs : Ramfs) : Prop := {
  wf_ids : forall a i, store fs !! a = Some i -> a < next_arc fs;
  wf_root : is_dir fs (root fs);
  wf_child : forall a n c, child fs a n c -> is_Some (store fs !! c) /\ c <> root fs;
  wf_tree : forall a n a' n' c, child fs a n c -> child fs a' n' c -> a = a' /\ n = n' }.

Lemma lookup_child fs a n c : lookup fs a n = Ret (Ok c) <-> child fs a n c.
Proof.
  unfold lookup, child. split.
  - destruct (store fs !! a) as [i|] eqn:Ei; simpl; [|done]. destruct (node i) as [d|cs| |] eqn:E; try done.
    destruct (bt_get n cs) eqn:Eb; [|done]. injection 1 as <-. by exists i, cs.
  - intros (i & cs & -> & E & Hb). simpl. by rewrite E, Hb.
Qed.

Lemma walk_snoc fs ps n c : forall a,
  walk fs a (ps ++ [n]) = Ret (Ok c) <-> exists b, walk fs a ps = Ret (Ok b) /\ child fs b n c.
Proof.
  induction ps as [|p ps IH]; intros a; cbn [app walk].
  - split.
    + unfold rbind. destruct (lookup fs a n) as [[x|]| |] eqn:E; simpl; try done. injection 1 as <-.
      exists a. split; [done|by apply lookup_child].
    + intros (b & Hb & Hc). injection Hb as <-. apply lookup_child in Hc. unfold rbind. by rewrite Hc.
  - unfold rbind. destruct (lookup fs a p) as [[x|]| |]; simpl; [apply IH| | |];
      (split; [done|by intros (b & Hb & _)]).
Qed.

(** In a tree a path is determined by the inode it leads to. *)
Lemma walk_inj fs ps : wf fs -> forall ps' b,
  walk fs (root fs) ps = Ret (Ok b) -> walk fs (root fs) ps' = Ret (Ok b) -> ps = ps'.
Proof.
  intros Hw. induction ps as [|n ps IH] using rev_ind; intros ps' b H1 H2;
    destruct ps' as [|m ps' _] using rev_ind; [done| | |].
  - injection H1 as <-. apply walk_snoc in H2 as (c & _ & Hc). by destruct (wf_child _ Hw _ _ _ Hc) as [_ []].
  - injection H2 as <-. apply walk_snoc in H1 as (c & _ & Hc). by destruct (wf_child _ Hw _ _ _ Hc) as [_ []].
  - apply walk_snoc in H1 as (b1 & Hb1 & Hc1). apply walk_snoc in H2 as (b2 & Hb2 & Hc2).
    destruct (wf_tree _ Hw _ _ _ _ _ Hc1 Hc2) as [-> ->]. by rewrite (IH ps' b2).
Qed.

(** What stays of an inode when the tree grows: a directory stays a directory,
    anything else does not change. *)
Definition kept (fs fs' : Ramfs) (a : Z) : Prop :=
  forall i, store fs !! a = Some i ->
    match node i with Dir _ => is_dir fs' a | _ => store fs' !! a = Some i end.

(** The tree grew: entries were added, to inodes that did not exist before. *)
Record grown (fs fs' : Ramfs) : Prop := {
  gr_wf : wf fs';
  gr_root : root fs' = root fs;
  gr_next : next_arc fs <= next_arc fs';
  gr_child : forall a n c, child fs a n c -> child fs' a n c;
  gr_new : forall a n c, child fs' a n c -> child fs a n c \/ next_arc fs <= c;
  gr_kept : forall a, kept fs fs' a }.

Lemma kept_refl fs a : kept fs fs a.
Proof. intros i Hi. destruct (node i) eqn:E; [done|by exists i, children|done|done]. Qed.

Lemma grown_refl fs : wf fs -> grown fs fs.
Proof. intros Hw. split; auto; [lia|apply kept_refl]. Qed.

Lemma kept_trans fs1 fs2 fs3 a : kept fs1 fs2 a -> kept fs2 fs3 a -> kept fs1 fs3 a.
Proof.
  intros H1 H2 i Hi. specialize (H1 i Hi). destruct (node i) as [d|cs| |] eqn:E.
  - specialize (H2 i H1). by rewrite E in H2.
  - destruct H1 as (i2 & cs2 & Hi2 & E2). specialize (H2 i2 Hi2). by rewrite E2 in H2.
  - specialize (H2 i H1). by rewrite E in H2.
  - specialize (H2 i H1). by rewrite E in H2.
Qed.

Lemma grown_trans fs1 fs2 fs3 : grown fs1 fs2 -> grown fs2 fs3 -> grown fs1 fs3.
Proof.
  intros [] []. split; try done; [congruence|lia|eauto| |].
  - intros a n c Hc. destruct (gr_new1 a n c Hc) as [H|H]; [|right; lia]. destruct (gr_new0 a n c H); auto.
  - intros a. eapply kept_trans; eauto.
Qed.

Lemma grown_walk fs fs' ps : grown fs fs' -> forall a b, walk fs a ps = Ret (Ok b) -> walk fs' a ps = Ret (Ok b).
Proof.
  intros Hg. induction ps as [|n ps IH] using rev_ind; intros a b; [done|].
  rewrite !walk_snoc. intros (c & Hc & Hch). exists c. split; [by apply IH|by apply Hg].
Qed.

(** Allocating an inode without entries. *)
Definition childless (i : Inode) : Prop := forall cs n, node i = Dir cs -> bt_get n cs = None.

Lemma new_arc_child fs i a n c : wf fs -> childless i -> child (new_arc i fs).2 a n c <-> child fs a n c.
Proof.
  intros Hw Hi. unfold child, new_arc. simpl. split.
  - intros (j & cs & Hj & E & Hb). apply lookup_insert_Some in Hj as [[<- <-]|[_ Hj]]; [by rewrite (Hi cs n E) in Hb|eauto].
  - intros (j & cs & Hj & E & Hb). exists j, cs. split_and!; try done. rewrite lookup_insert_ne; [done|].
    intros <-. pose proof (wf_ids _ Hw _ _ Hj). lia.
Qed.

Lemma new_arc_grown fs i : wf fs -> childless i -> grown fs (new_arc i fs).2.
Proof.
  intros Hw Hi. assert (Hfresh : store fs !! next_arc fs = None).
  { destruct (store fs !! next_arc fs) eqn:E; [|done]. pose proof (wf_ids _ Hw _ _ E). lia. }
  assert (Hk : forall a j, store fs !! a = Some j -> store (new_arc i fs).2 !! a = Some j).
  { intros a j Hj. simpl. rewrite lookup_insert_ne; [done|]. intros <-. congruence. }
  split; try done.
  - split.
    + intros a j. simpl. rewrite lookup_insert_Some. intros [[<- _]|[_ Hj]]; [lia|]. pose proof (wf_ids _ Hw _ _ Hj). lia.
    + destruct (wf_root _ Hw) as (j & cs & Hj & E). exists j, cs. split; [by apply Hk|done].
    + intros a n c Hc. rewrite new_arc_child in Hc by done. destruct (wf_child _ Hw _ _ _ Hc) as [[j Hj] Hr].
      split; [|done]. rewrite (Hk c j Hj). by eexists.
    + intros a n a' n' c. rewrite !new_arc_child by done. apply (wf_tree _ Hw).
  - simpl. lia.
  - intros a n c. by rewrite new_arc_child.
  - intros a n c. rewrite new_arc_child by done. auto.
  - intros a j Hj. destruct (node j) eqn:E; [by apply Hk| |by apply Hk|by apply Hk].
    exists j, children. split; [by apply Hk|done].
Qed.

Lemma alloc_ino_grown fs : wf fs -> grown fs (alloc_ino fs).2.
Proof.
  intros Hw. split; try done.
  - destruct Hw. by split.
  - auto.
  - intros a i Hi. apply kept_refl. exact Hi.
Qed.

(** Giving directory [p] the entry [n]. *)
Lemma add_child fs p i cs n x a m c :
  store fs !! p = Some i -> node i = Dir cs ->
  child (set_node p (with_children (bt_insert n x cs) i) fs) a m c <->
  (a = p /\ m = n /\ c = x) \/ (~ (a = p /\ m = n) /\ child fs a m c).
Proof.
  intros Hp Hi. unfold child, set_node. cbn [store]. split.
  - intros (j & cs' & Hj & Ej & Hb). destruct (decide (a = p)) as [->|Hne].
    + rewrite lookup_insert_eq in Hj. injection Hj as <-. cbn in Ej. injection Ej as <-.
      rewrite bt_get_insert in Hb. destruct (decide (m = n)) as [->|Hmn]; [left; naive_solver|right].
      split; [naive_solver|]. by exists i, cs.
    + rewrite lookup_insert_ne in Hj by done. right. split; [naive_solver|]. by exists j, cs'.
  - intros [(-> & -> & ->)|[Hn (j & cs' & Hj & Ej & Hb)]].
    + eexists _, _. rewrite lookup_insert_eq. split_and!; [done|done|]. by rewrite bt_get_insert, decide_True.
    + destruct (decide (a = p)) as [->|Hne].
      * rewrite Hp in Hj. injection Hj as <-. rewrite Hi in Ej. injection Ej as <-.
        eexists _, _. rewrite lookup_insert_eq. split_and!; [done|done|]. rewrite bt_get_insert, decide_False; [done|naive_solver].
      * exists j, cs'. by rewrite lookup_insert_ne.
Qed.

Lemma add_store fs p i cs cs' a :
  store fs !! p = Some i -> node i = Dir cs -> kept fs (set_node p (with_children cs' i) fs) a.
Proof.
  intros Hp Hi j Hj. unfold set_node, is_dir. cbn [store]. destruct (decide (a = p)) as [->|Hne].
  - rewrite Hp in Hj. injection Hj as <-. rewrite Hi. rewrite lookup_insert_eq. by eexists _, _.
  - rewrite lookup_insert_ne by done. destruct (node j) eqn:E; try done. by eexists _, _.
Qed.

(** Putting an inode that is in no directory into one keeps the tree. *)
Lemma add_wf fs p i cs n x :
  wf fs -> store fs !! p = Some i -> node i = Dir cs -> is_Some (store fs !! x) -> x <> root fs ->
  (forall a m, ~ child fs a m x) ->
  wf (set_node p (with_children (bt_insert n x cs) i) fs).
Proof.
  intros Hw Hp Hi Hx Hr Hfree.
  assert (Hk : forall a, is_Some (store fs !! a) -> is_Some (<[p:=with_children (bt_insert n x cs) i]> (store fs) !! a)).
  { intros a Ha. rewrite lookup_insert. by case_decide. }
  split.
  - intros a j. cbn [store set_node next_arc]. rewrite lookup_insert_Some.
    intros [[<- _]|[_ Hj]]; [by apply (wf_ids _ Hw _ i)|by apply (wf_ids _ Hw _ j)].
  - destruct (wf_root _ Hw) as (j & cs' & Hj & Ej).
    pose proof (add_store fs p i cs (bt_insert n x cs) _ Hp Hi j Hj) as H. by rewrite Ej in H.
  - intros a m c. rewrite add_child by done. intros [(-> & -> & ->)|[_ Hc]].
    + split; [by apply Hk|done].
    + destruct (wf_child _ Hw _ _ _ Hc) as [Hs Hn]. split; [by apply Hk|done].
  - intros a m a' m' c. rewrite !add_child by done.
    intros [(-> & -> & ->)|[_ H1]] [(-> & -> & Hx')|[_ H2]]; [done| | |by apply (wf_tree _ Hw _ _ _ _ c)].
    + by destruct (Hfree _ _ H2).
    + subst c. by destruct (Hfree _ _ H1).
Qed.

Lemma wf_next_free fs a m : wf fs -> ~ child fs a m (next_arc fs).
Proof. intros Hw Hc. destruct (wf_child _ Hw _ _ _ Hc) as [[j Hj] _]. pose proof (wf_ids _ Hw _ _ Hj). lia. Qed.

Lemma wf_root_next fs : wf fs -> root fs < next_arc fs.
Proof. intros Hw. destruct (wf_root _ Hw) as (i & cs & Hi & _). by apply (wf_ids _ Hw _ i). Qed.

Lemma grown_dir fs fs' a : grown fs fs' -> is_dir fs a -> is_dir fs' a.
Proof. intros Hg (i & cs & Hi & E). pose proof (gr_kept _ _ Hg a i Hi) as H. by rewrite E in H. Qed.

(** A new inode given a new name. *)
Lemma add_grown fs fs2 p i cs n x :
  grown fs fs2 -> store fs2 !! p = Some i -> node i = Dir cs -> bt_get n cs = None ->
  is_Some (store fs2 !! x) -> next_arc fs <= x -> root fs < next_arc fs -> (forall a m, ~ child fs2 a m x) ->
  grown fs (set_node p (with_children (bt_insert n x cs) i) fs2).
Proof.
  intros G Hp Hi Hn Hx Hlt Hr Hfree. split; try apply G.
  - apply add_wf; try done; [apply G|]. rewrite (gr_root _ _ G). lia.
  - intros a m c Hc. apply (gr_child _ _ G) in Hc. apply (add_child _ _ _ cs); [done..|]. right.
    split; [|done]. intros [-> ->]. destruct Hc as (j & cs' & Hj & Ej & Hb). congruence.
  - intros a m c. rewrite add_child by done. intros [(-> & -> & ->)|[_ H]]; [by right|by apply G].
  - intros a. apply (kept_trans _ fs2); [apply G|by apply (add_store _ _ _ cs)].
Qed.

Lemma get_or_create_dir_spec fs p name :
  wf fs -> is_dir fs p ->
  exists d fs', get_or_create_dir p name fs = Ret (Ok d, fs') /\ grown fs fs' /\ child fs' p name d /\
    (fs' = fs \/ (is_dir fs' d /\ forall m c, ~ child fs' d m c)) /\
    forall x m y, child fs' x m y -> child fs x m y \/ (x = p /\ m = name).
Proof.
  intros Hw (i & cs & Hi & E). unfold get_or_create_dir. rewrite Hi. cbn [deref obind]. rewrite E.
  destruct (bt_get name cs) as [d|] eqn:Eb.
  { exists d, fs. split_and!; [done|by apply grown_refl|by exists i, cs|by left|auto]. }
  pose proof (alloc_ino_grown fs Hw) as G1. pose proof (wf_ids _ Hw _ _ Hi) as Hlt.
  set (j := make_dir_inode (next_ino fs)).
  assert (Hl : childless j) by (intros cs' m [= <-]; done).
  pose proof (new_arc_grown _ _ (gr_wf _ _ G1) Hl) as G2. set (fs2 := (new_arc j (alloc_ino fs).2).2) in *.
  assert (Hi2 : store fs2 !! p = Some i) by (cbn; rewrite lookup_insert_ne; [done|lia]).
  assert (Hd : store fs2 !! next_arc fs = Some j) by apply lookup_insert_eq.
  exists (next_arc fs), (set_node p (with_children (bt_insert name (next_arc fs) cs) i) fs2).
  split_and!; [done| |apply (add_child _ _ _ cs); auto|right|].
  - apply add_grown; try done; [by apply (grown_trans _ _ _ G1)|by apply wf_root_next|].
    intros a m. unfold fs2. rewrite new_arc_child by (done || apply G1). exact (wf_next_free _ a m (gr_wf _ _ G1)).
  - unfold is_dir, child, set_node. cbn [store]. rewrite lookup_insert_ne, Hd by lia. split; [by exists j, []|].
    by intros m c (j' & cs' & [= <-] & [= <-] & ?).
  - intros x m y. rewrite add_child by done. unfold fs2. rewrite new_arc_child by (done || apply G1). naive_solver.
Qed.

(** No prefix of the path leads to something that is not a directory. *)
Definition clear (fs : Ramfs) (a : Z) (dirs : list (list Z)) : Prop :=
  forall pre b, pre `prefix_of` dirs -> walk fs a pre = Ret (Ok b) -> is_dir fs b.

Lemma clear_cons fs a n c dirs : clear fs a (n :: dirs) -> child fs a n c -> clear fs c dirs.
Proof.
  intros Hc Hch pre b Hp Hw. apply (Hc (n :: pre) b); [by apply prefix_cons|].
  cbn [walk]. apply lookup_child in Hch. unfold rbind. by rewrite Hch.
Qed.

Lemma clear_childless fs a dirs : is_dir fs a -> (forall m c, ~ child fs a m c) -> clear fs a dirs.
Proof.
  intros Ha Hno [|n pre] b _ Hw; [by injection Hw as <-|]. cbn [walk] in Hw. unfold rbind in Hw.
  destruct (lookup fs a n) as [[c|]| |] eqn:E; try done. apply lookup_child in E. by destruct (Hno n c).
Qed.

Lemma descend_spec dirs : forall fs a,
  wf fs -> clear fs a dirs ->
  exists d fs', descend a dirs fs = Ret (Ok d, fs') /\ grown fs fs' /\ walk fs' a dirs = Ret (Ok d) /\ is_dir fs' d /\
    forall x m y, child fs' x m y -> child fs x m y \/ exists pre, pre ++ [m] `prefix_of` dirs /\ walk fs' a pre = Ret (Ok x).
Proof.
  induction dirs as [|n dirs IH]; intros fs a Hw Hc; cbn [descend];
    pose proof (Hc [] a (prefix_nil _) eq_refl) as Ha.
  { exists a, fs. split_and!; [done|by apply grown_refl|done|done|auto]. }
  destruct (get_or_create_dir_spec fs a n Hw Ha) as (c & fs1 & -> & G1 & Hch & Hor & Hnew). cbn [obind].
  assert (Hc1 : clear fs1 c dirs).
  { destruct Hor as [->|[Hd Hno]]; [by apply (clear_cons _ a n)|by apply clear_childless]. }
  destruct (IH fs1 c (gr_wf _ _ G1) Hc1) as (d & fs2 & -> & G2 & Hwk & Hd & Hnew2).
  apply (gr_child _ _ G2), lookup_child in Hch. exists d, fs2. split_and!; [done|by apply (grown_trans _ fs1)| |done|].
  { cbn [walk]. unfold rbind. by rewrite Hch. }
  intros x m y [H|(pre & Hpre & Hx)]%Hnew2.
  - apply Hnew in H as [H|[-> ->]]; [by left|right]. exists []. split; [|done]. apply prefix_cons, prefix_nil.
  - right. exists (n :: pre). split; [by apply prefix_cons|]. cbn [walk]. unfold rbind. by rewrite Hch.
Qed.

(** ** Inserting a leaf

    [leaf i]: what [insert_file] and the device variants put into the tree. *)
Definition leaf (i : Inode) : Prop := match node i with Dir _ => False | _ => True end.

Lemma new_arc_walk fs i ps : wf fs -> childless i -> forall a b,
  walk (new_arc i fs).2 a ps = Ret (Ok b) <-> walk fs a ps = Ret (Ok b).
Proof.
  intros Hw Hi. induction ps as [|n ps IH] using rev_ind; intros a b; [done|].
  rewrite !walk_snoc. apply exist_proper. intros c. by rewrite IH, new_arc_child.
Qed.

(** Paths that do not pass through the entry that was set lead where they led. *)
Lemma add_walk fs p i cs n x dirs :
  wf fs -> store fs !! p = Some i -> node i = Dir cs -> walk fs (root fs) dirs = Ret (Ok p) ->
  forall qs b, walk fs (root fs) qs = Ret (Ok b) -> ~ (dirs ++ [n]) `prefix_of` qs ->
  walk (set_node p (with_children (bt_insert n x cs) i) fs) (root fs) qs = Ret (Ok b).
Proof.
  intros Hw Hp Hi Hd. induction qs as [|m qs IH] using rev_ind; intros b Hq Hn; [done|].
  apply walk_snoc in Hq as (c & Hc & Hch). apply walk_snoc. exists c. split.
  - apply IH; [done|]. intros Hpre. apply Hn. by apply prefix_app_r.
  - apply (add_child _ _ _ cs); [done..|]. right. split; [|done]. intros [-> ->].
    apply Hn. by rewrite (walk_inj fs dirs Hw qs p Hd Hc).
Qed.

(** When entries were only given to inodes that did not exist before, what is
    older is where it was. *)
Lemma old_walk fs fs' qs : wf fs -> (forall a n c, child fs' a n c -> child fs a n c \/ next_arc fs <= c) -> forall b,
  walk fs' (root fs) qs = Ret (Ok b) -> b < next_arc fs -> walk fs (root fs) qs = Ret (Ok b).
Proof.
  intros Hw Hnew. induction qs as [|m qs IH] using rev_ind; intros b Hq Hb; [done|]. apply walk_snoc in Hq as (c & Hc & Hch).
  destruct (Hnew _ _ _ Hch) as [Ho|]; [|lia]. apply walk_snoc. exists c. split; [|done]. apply IH; [done|]. destruct Ho as (i & cs & Hi & _). by apply (wf_ids _ Hw _ i).
Qed.

(** What a path passes through is a directory. *)
Lemma walk_prefix fs pre ps a b d : pre `prefix_of` ps -> walk fs a ps = Ret (Ok d) -> is_dir fs d -> walk fs a pre = Ret (Ok b) -> is_dir fs b.
Proof.
  intros [k ->] Hps Hd Hpre. revert a Hps Hpre. induction pre as [|n pre IH]; intros a Hps Hpre; cbn [app walk] in *.
  - injection Hpre as <-. destruct k as [|n k]; cbn [walk] in Hps; [by injection Hps as ->|]. unfold rbind in Hps.
    destruct (lookup fs a n) as [[c|]| |] eqn:E; try done. apply lookup_child in E as (i & cs & Hi & Ei & _). by exists i, cs.
  - unfold rbind in *. destruct (lookup fs a n) as [[c|]| |]; try done. cbn [obind] in *. by eapply IH.
Qed.

Lemma insert_leaf_spec fs i path parts name :
  wf fs -> leaf i -> components path = parts ++ [name] -> clear fs (root fs) parts ->
  exists fs', insert_leaf path (next_arc fs) (new_arc i fs).2 = Ret (Ok tt, fs') /\ wf fs' /\ root fs' = root fs /\
    (exists a, walk fs' (root fs) (parts ++ [name]) = Ret (Ok a) /\ store fs' !! a = Some i) /\
    (forall qs b, walk fs (root fs) qs = Ret (Ok b) -> ~ (parts ++ [name]) `prefix_of` qs ->
       walk fs' (root fs) qs = Ret (Ok b) /\ kept fs fs' b) /\
    (forall qs b, walk fs' (root fs) qs = Ret (Ok b) ->
       walk fs (root fs) qs = Ret (Ok b) \/ qs = parts ++ [name] \/ (qs `prefix_of` parts /\ is_dir fs' b)).
Proof.
  intros Hw Hl Hp Hc. assert (Hcl : childless i) by (intros cs n E; unfold leaf in Hl; by rewrite E in Hl).
  pose proof (new_arc_grown fs i Hw Hcl) as G1. set (fs1 := (new_arc i fs).2) in *.
  assert (Hc1 : clear fs1 (root fs) parts).
  { intros pre b Hpre Hwk. apply (grown_dir fs); [done|]. apply (Hc pre); [done|]. by apply new_arc_walk in Hwk. }
  destruct (descend_spec parts fs1 (root fs) (gr_wf _ _ G1) Hc1) as (d & fs2 & Ed & G2 & Hwd & (j & cs & Hj & Ej) & Hnew).
  unfold insert_leaf. rewrite Hp, last_snoc, length_app. cbn [length].
  rewrite take_app_length' by lia. change (root fs1) with (root fs). rewrite Ed. cbn [obind].
  unfold dir_insert. rewrite Hj. cbn [deref obind]. rewrite Ej. cbn [obind].
  pose proof (gr_root _ _ G2) as Hr2. change (root fs1) with (root fs) in Hr2.
  assert (Hx : store fs2 !! next_arc fs = Some i).
  { pose proof (gr_kept _ _ G2 (next_arc fs) i (lookup_insert_eq _ _ _)) as H. unfold leaf in Hl. by destruct (node i). }
  assert (Hdne : d <> next_arc fs) by (intros ->; unfold leaf in Hl; rewrite Hx in Hj; injection Hj as <-; by rewrite Ej in Hl).
  assert (Hfree : forall a m, ~ child fs2 a m (next_arc fs)).
  { intros a m Hch. apply (gr_new _ _ G2) in Hch as [Hch|Hlt]; [|unfold fs1 in Hlt; cbn in Hlt; lia].
    apply new_arc_child in Hch; [|done..]. by apply wf_next_free in Hch. }
  eexists. split; [done|]. rewrite <- Hr2 in Hwd. set (fs' := set_node d _ fs2).
  assert (Hw' : wf fs') by (apply add_wf; try done; [apply G2|]; rewrite Hr2; pose proof (wf_root_next _ Hw); lia).
  assert (Hsub : forall qs b, walk fs2 (root fs) qs = Ret (Ok b) -> ~ (parts ++ [name]) `prefix_of` qs -> walk fs' (root fs) qs = Ret (Ok b)).
  { rewrite <- Hr2. intros qs b. apply (add_walk _ _ _ _ _ _ parts); try done. apply G2. }
  assert (Hshort : forall qs, qs `prefix_of` parts -> ~ (parts ++ [name]) `prefix_of` qs).
  { intros qs H1%prefix_length H2%prefix_length. rewrite length_app in H2. cbn [length] in H2. lia. }
  rewrite Hr2 in Hwd. pose proof (Hsub parts d Hwd (Hshort parts ltac:(done))) as Hwd'. split_and!.
  - done.
  - done.
  - exists (next_arc fs). split; [|unfold fs', set_node; cbn [store]; by rewrite lookup_insert_ne].
    apply walk_snoc. exists d. split; [done|by apply (add_child _ _ _ cs); auto].
  - intros qs b Hq Hn. split.
    + apply Hsub; [|done]. apply (grown_walk fs1); [done|]. by apply (grown_walk fs).
    + apply (kept_trans _ fs1), (kept_trans _ fs2); [apply G1|apply G2|by apply (add_store _ _ _ cs)].
  - assert (Hch : forall a m c, child fs' a m c -> (a = d /\ m = name) \/ child fs2 a m c) by (intros a m c; unfold fs'; rewrite add_child by done; naive_solver).
    assert (Hold : forall a m c, child fs' a m c -> child fs a m c \/ next_arc fs <= c).
    { intros a m c. unfold fs'. rewrite add_child by done. intros [(_ & _ & ->)|[_ H]]; [right; lia|].
      apply (gr_new _ _ G2) in H as [H|H]; [left; by apply new_arc_child in H|right; unfold fs1 in H; cbn in H; lia]. }
    assert (Hinj : forall ps qs x, walk fs' (root fs) ps = Ret (Ok x) -> walk fs' (root fs) qs = Ret (Ok x) -> ps = qs).
    { rewrite <- Hr2. intros ps qs x. apply (walk_inj fs' ps Hw'). }
    intros qs b Hq. destruct (Z.lt_ge_cases b (next_arc fs)) as [Hb|Hb]; [left; by apply (old_walk fs fs')|right].
    destruct qs as [|m qs _] using rev_ind; [injection Hq as <-; pose proof (wf_root_next _ Hw); lia|].
    pose proof Hq as (x & Hxq & [[-> ->]|Hc2]%Hch)%walk_snoc; [left; by rewrite (Hinj qs parts d)|right].
    apply Hnew in Hc2 as [Hc2|(pre & Hpre & Hwp)].
    + exfalso. apply new_arc_child in Hc2; [|done..]. destruct (wf_child _ Hw _ _ _ Hc2) as [[k Hk] _]. pose proof (wf_ids _ Hw _ _ Hk). lia.
    + assert (Hpp : pre `prefix_of` parts) by (etrans; [by eapply prefix_app_r|exact Hpre]).
      assert (qs = pre) as -> by (eapply Hinj; [exact Hxq|by apply Hsub; [|apply Hshort]]). split; [done|].
      eapply walk_prefix; [exact Hpre|exact Hwd'| |exact Hq]. eexists _, _. unfold fs', set_node. cbn [store]. by rewrite lookup_insert_eq.
Qed.

Lemma walk_store fs1 fs2 ps : store fs1 = store fs2 -> forall a, walk fs1 a ps = walk fs2 a ps.
Proof.
  intros E. induction ps as [|p ps IH]; intros a; cbn [walk]; [done|].
  unfold lookup, rbind. rewrite E. destruct (deref (store fs2 !! a)) as [i| |]; cbn [obind]; [|done..].
  destruct (node i); [done| |done|done]. destruct (bt_get p children); cbn [obind]; [apply IH|done].
Qed.

Lemma clear_alloc fs a dirs : clear fs a dirs -> clear (alloc_ino fs).2 a dirs.
Proof. intros Hc pre b Hp Hw. rewrite (walk_store _ fs) in Hw by done. exact (Hc pre b Hp Hw). Qed.

(** The leaf inode that [insert_file] allocates. *)
Definition file_inode (fs : Ramfs) (data : list Z) : Inode :=
  mkInode (next_ino fs) RegularFile (Z.of_nat (length data)) None (File data).

(** C30: [insert_file] puts the file where its path says and disturbs nothing
    else.  In a tree where no proper prefix of the path leads to something that
    is not a directory, the call succeeds, keeps the tree a tree, and resolving
    the path then gives a regular file with exactly the bytes and the length
    given; every path that does not pass through the inserted one resolves to the
    inode it resolved to, a file with its content, a directory as a directory;
    and no path resolves that did not before, but the inserted one and the
    directories on the way to it.  (Below a file the call answers [Ok] and does
    nothing: [insert_below_file_lost].) *)
Theorem insert_file_spec fs path data parts name :
  wf fs -> components path = parts ++ [name] -> clear fs (root fs) parts ->
  exists fs', insert_file path data fs = Ret (Ok tt, fs') /\ wf fs' /\ root fs' = root fs /\
    (exists a, walk fs' (root fs) (components path) = Ret (Ok a) /\ store fs' !! a = Some (file_inode fs data)) /\
    (forall qs b, walk fs (root fs) qs = Ret (Ok b) -> ~ components path `prefix_of` qs ->
       walk fs' (root fs) qs = Ret (Ok b) /\ kept fs fs' b) /\
    (forall qs b, walk fs' (root fs) qs = Ret (Ok b) ->
       walk fs (root fs) qs = Ret (Ok b) \/ qs = components path \/ (qs `prefix_of` parts /\ is_dir fs' b)).
Proof.
  intros Hw Hp Hc. pose proof (alloc_ino_grown fs Hw) as G.
  destruct (insert_leaf_spec (alloc_ino fs).2 (file_inode fs data) path parts name (gr_wf _ _ G) I Hp
    (clear_alloc _ _ _ Hc)) as (fs' & E & Hw' & Hr & Ha & Hf & Hn).
  exists fs'. rewrite Hp. split_and!; [exact E|done|done|exact Ha|..].
  - intros qs b Hq Hnp. rewrite <- (walk_store (alloc_ino fs).2) in Hq by done. exact (Hf qs b Hq Hnp).
  - intros qs b Hq. rewrite <- (walk_store (alloc_ino fs).2) by done. exact (Hn qs b Hq).
Qed.

Lemma new_wf : wf new.
Proof.
  assert (Hno : forall a n c, ~ child new a n c).
  { intros a n c (i & cs & Hi & E & Hb). cbn in Hi. apply lookup_singleton_Some in Hi as [_ <-]. injection E as <-. done. }
  split.
  - intros a i Hi. cbn in Hi. apply lookup_singleton_Some in Hi as [<- _]. done.
  - by exists (make_dir_inode 1), [].
  - intros a n c Hc. by destruct (Hno a n c).
  - intros a n a' n' c Hc. by destruct (Hno a n c).
Qed.

(** "/etc/motd" and its components *)
Definition motd : list Z := [47; 101; 116; 99; 47; 109; 111; 116; 100].

Lemma insert_file_spec_witness :
  exists fs', insert_file motd [104; 105] new = Ret (Ok tt, fs') /\
    exists a, walk fs' (root fs') [[101; 116; 99]; [109; 111; 116; 100]] = Ret (Ok a) /\
      store fs' !! a = Some (mkInode 2 RegularFile 2 None (File [104; 105])).
Proof.
  destruct (insert_file_spec new motd [104; 105] [[101; 116; 99]] [109; 111; 116; 100] new_wf) as (fs' & E & _ & Hr & Ha & _);
    [reflexivity| |].
  - intros pre b Hp Hwk. destruct pre as [|x pre]; [injection Hwk as <-; apply new_wf|].
    apply prefix_cons_inv_1 in Hp as ->. vm_compute in Hwk. discriminate.
  - exists fs'. split; [exact E|]. rewrite Hr. exact Ha.
Defined.

(** ** Every insertion, on every branch *)
Lemma get_or_create_dir_grown fs p name :
  wf fs -> is_Some (store fs !! p) ->
  exists r fs', get_or_create_dir p name fs = Ret (r, fs') /\ grown fs fs' /\
    (forall d, r = Ok d -> is_Some (store fs' !! d)).
Proof.
  intros Hw [i Hi]. destruct (node i) as [d|cs| |] eqn:E.
  2: { destruct (get_or_create_dir_spec fs p name Hw) as (d & fs' & Ed & G & Hc & _); [by exists i, cs|].
       exists (Ok d), fs'. split_and!; [done..|]. intros d' [= <-]. by apply (wf_child _ (gr_wf _ _ G) _ _ _ Hc). }
  all: exists (Err InvalidInput), fs; unfold get_or_create_dir; rewrite Hi; cbn [deref obind]; rewrite E;
    (split_and!; [done|by apply grown_refl|done]).
Qed.

Lemma descend_grown dirs : forall fs a,
  wf fs -> is_Some (store fs !! a) ->
  exists r fs', descend a dirs fs = Ret (r, fs') /\ grown fs fs' /\ (forall d, r = Ok d -> is_Some (store fs' !! d)).
Proof.
  induction dirs as [|n dirs IH]; intros fs a Hw Ha; cbn [descend].
  { exists (Ok a), fs. split_and!; [done|by apply grown_refl|by intros d [= <-]]. }
  destruct (get_or_create_dir_grown fs a n Hw Ha) as (r & fs1 & -> & G1 & Hs). cbn [obind].
  destruct r as [c|e]; [|exists (Err e), fs1; by split_and!].
  destruct (IH fs1 c (gr_wf _ _ G1) (Hs c eq_refl)) as (r & fs2 & -> & G2 & Hs2).
  exists r, fs2. split_and!; [done|by apply (grown_trans _ fs1)|done].
Qed.

Lemma insert_leaf_wf fs i path :
  wf fs -> leaf i -> exists r fs', insert_leaf path (next_arc fs) (new_arc i fs).2 = Ret (r, fs') /\ wf fs'.
Proof.
  intros Hw Hl. assert (Hcl : childless i) by (intros cs n E; unfold leaf in Hl; by rewrite E in Hl).
  pose proof (new_arc_grown fs i Hw Hcl) as G1. set (fs1 := (new_arc i fs).2) in *.
  unfold insert_leaf. destruct (last (components path)) as [name|]; [|by exists (Err InvalidInput), fs1; split; [|apply G1]].
  destruct (wf_root _ (gr_wf _ _ G1)) as (ri & rcs & Hri & _).
  destruct (descend_grown (take (length (components path) - 1) (components path)) fs1 (root fs1) (gr_wf _ _ G1))
    as (r & fs2 & -> & G2 & Hs); [by exists ri|]. cbn [obind].
  destruct r as [d|e]; [|by exists (Err e), fs2; split; [|apply G2]].
  destruct (Hs d eq_refl) as [j Hj]. exists (Ok tt). unfold dir_insert. rewrite Hj. cbn [deref obind].
  destruct (node j) as [x|cs| |] eqn:Ej; cbn [obind];
    [exists fs2; by split; [|apply G2]| |exists fs2; by split; [|apply G2]..].
  eexists. split; [done|]. apply add_wf; try done; [apply G2| | |].
  - pose proof (gr_kept _ _ G2 (next_arc fs) i (lookup_insert_eq _ _ _)) as H. unfold leaf in Hl. destruct (node i); [by exists i|done|by exists i..].
  - rewrite (gr_root _ _ G2). pose proof (wf_root_next _ Hw). unfold fs1. cbn. lia.
  - intros a m Hch. apply (gr_new _ _ G2) in Hch as [Hch|Hlt]; [|unfold fs1 in Hlt; cbn in Hlt; lia].
    apply new_arc_child in Hch; [|done..]. by apply wf_next_free in Hch.
Qed.

(** The insertions of the interface. *)
Inductive insertion :=
| InsDir (path : list Z)
| InsFile (path data : list Z)
| InsChardev (path : list Z) (major minor : Z)
| InsBlockdev (path : list Z) (major minor : Z).

Definition insert (o : insertion) (fs : Ramfs) : outcome (result unit Error * Ramfs) :=
  match o with
  | InsDir path => insert_dir path fs
  | InsFile path data => insert_file path data fs
  | InsChardev path major minor => insert_chardev path major minor fs
  | InsBlockdev path major minor => insert_blockdev path major minor fs
  end.

Lemma insert_wf o fs : wf fs -> exists r fs', insert o fs = Ret (r, fs') /\ wf fs'.
Proof.
  intros Hw. pose proof (alloc_ino_grown fs Hw) as G.
  destruct o as [path|path data|path major minor|path major minor]; cbn [insert].
  - unfold insert_dir. destruct (components path) as [|n ps] eqn:E; [by exists (Err InvalidInput), fs|].
    destruct (wf_root _ Hw) as (ri & rcs & Hri & _).
    destruct (descend_grown (n :: ps) fs (root fs) Hw) as (r & fs2 & -> & G2 & _); [by exists ri|].
    destruct r; eexists _, _; (split; [done|apply G2]).
  - exact (insert_leaf_wf _ (file_inode fs data) path (gr_wf _ _ G) I).
  - exact (insert_leaf_wf _ (mkInode (next_ino fs) CharDevice 0 (Some (major, minor)) CharDev) path (gr_wf _ _ G) I).
  - exact (insert_leaf_wf _ (mkInode (next_ino fs) BlockDevice 0 (Some (major, minor)) BlockDev) path (gr_wf _ _ G) I).
Qed.

(** C40: the RAM file system is a tree at all times.  From the empty file
    system, any sequence of insertions of directories, files and devices, in
    any order and with any paths, runs to its end without a panic, whatever
    each call returns, and leaves a tree: every entry names an inode, the root
    is in no directory and no inode is in two. *)
Theorem ramfs_tree os :
  exists fs', ofold (fun fs o => let! '(_, fs) := insert o fs in Ret fs) os new = Ret fs' /\ wf fs'.
Proof.
  assert (H : forall fs, wf fs -> exists fs', ofold (fun fs o => let! '(_, fs) := insert o fs in Ret fs) os fs = Ret fs' /\ wf fs');
    [|apply H, new_wf].
  induction os as [|o os IH]; intros fs Hw; cbn [ofold]; [by exists fs|].
  destruct (insert_wf o fs Hw) as (r & fs1 & -> & Hw1). cbn [obind]. by apply IH.
Qed.

Lemma descend_existing dirs : forall fs a d, walk fs a dirs = Ret (Ok d) -> descend a dirs fs = Ret (Ok d, fs).
Proof.
  induction dirs as [|n dirs IH]; intros fs a d; cbn [walk descend]; [by injection 1 as ->|].
  unfold rbind, lookup, get_or_create_dir. destruct (deref (store fs !! a)) as [i| |]; cbn [obind]; [|done..].
  destruct (node i) as [|cs| |]; try done. destruct (bt_get n cs) as [c|]; cbn [obind]; [apply IH|done].
Qed.

Lemma walk_app_err fs ps n : forall a b e,
  walk fs a ps = Ret (Ok b) -> lookup fs b n = Ret (Err e) -> walk fs a (ps ++ [n]) = Ret (Err e).
Proof.
  induction ps as [|p ps IH]; intros a b e; cbn [walk app]; unfold rbind.
  - injection 1 as ->. by intros ->.
  - destruct (lookup fs a p) as [[c|]| |]; cbn [obind]; [apply IH|done..].
Qed.

(** a file inserted below something that is not a directory is lost without
    an error.  When the parent of the path is a regular file, [insert_file]
    returns [Ok], and the path does not resolve afterwards: [dir_insert] does
    nothing for a parent that has no children. *)
Theorem insert_below_file_lost fs path data parts name a i bytes :
  wf fs -> components path = parts ++ [name] ->
  walk fs (root fs) parts = Ret (Ok a) -> store fs !! a = Some i -> node i = File bytes ->
  exists fs', insert_file path data fs = Ret (Ok tt, fs') /\
    walk fs' (root fs') (components path) = Ret (Err NotADirectory).
Proof.
  intros Hw Hp Hwk Hi E. pose proof (alloc_ino_grown fs Hw) as G0. set (j := file_inode fs data).
  pose proof (new_arc_grown _ j (gr_wf _ _ G0)) as G1. pose proof (grown_trans _ _ _ G0 (G1 (fun cs n => ltac:(done)))) as G.
  exists (new_arc j (alloc_ino fs).2).2.
  pose proof (grown_walk _ _ _ G _ _ Hwk) as Hwk'. pose proof (gr_kept _ _ G a i Hi) as Hk. rewrite E in Hk.
  split.
  - change (insert_leaf path (next_arc fs) (new_arc j (alloc_ino fs).2).2 = Ret (Ok tt, (new_arc j (alloc_ino fs).2).2)).
    set (fs1 := (new_arc j (alloc_ino fs).2).2) in *. unfold insert_leaf. rewrite Hp, last_snoc, length_app. cbn [length].
    rewrite take_app_length' by lia. change (root fs1) with (root fs). rewrite (descend_existing _ _ _ _ Hwk'). cbn [obind].
    unfold dir_insert. rewrite Hk. cbn [deref obind]. by rewrite E.
  - rewrite Hp. apply (walk_app_err _ _ _ _ a); [done|]. unfold lookup. rewrite Hk. cbn [deref obind]. by rewrite E.
Qed.

(** "a" then "a/b" *)
Definition fs_a : Ramfs := match insert_file [97] [1] new with Ret (_, fs) => fs | _ => new end.

Lemma insert_below_file_lost_witness :
  exists fs', insert_file [97; 47; 98] [2] fs_a = Ret (Ok tt, fs') /\
    walk fs' (root fs') [[97]; [98]] = Ret (Err NotADirectory).
Proof.
  apply (insert_below_file_lost fs_a [97; 47; 98] [2] [[97]] [98] 2 (mkInode 2 RegularFile 1 None (File [1])) [1]);
    [|vm_compute; reflexivity..].
  destruct (insert_wf (InsFile [97] [1]) new new_wf) as (r & fs' & E & Hw).
  unfold fs_a. cbn [insert] in E. rewrite E. exact Hw.
Defined.

End Ram.
