(* ===== verification/Cpio.v ===== *)
(** * The initial RAM file system

    Models [src/src/fs/initramfs.rs]: the unpacker of CPIO archives in the
    "newc" format, which fills the RAM file system of [Ramfs].  [encode] is
    the format, written as the archiver writes it; the theorems say that
    unpacking an archive makes the insertions its entries stand for, and that
    unpacking ends on every input. *)

From S2P Require Import Prelude Bytes File Ramfs.

Module Cpio.
Import Fl.

Definition CPIO_MAGIC : list Z := lit "070701".
Definition CPIO_MAGIC_LEN : Z := 6.
Definition CPIO_HEADER_SIZE : Z := 110.
Definition CPIO_ALIGN : Z := 4.
Definition CPIO_FIELD_WIDTH : Z := 8.
Definition CPIO_MODE_OFFSET : Z := 14.
Definition CPIO_FILESIZE_OFFSET : Z := 54.
Definition CPIO_RDEVMAJOR_OFFSET : Z := 78.
Definition CPIO_RDEVMINOR_OFFSET : Z := 86.
Definition CPIO_NAMESIZE_OFFSET : Z := 94.

Definition TRAILER : list Z := lit "TRAILER!!!".

Definition align_up (x align : Z) : outcome Z :=
  let! y := uadd x align in
  let! z := usub y 1 in
  let! m := usub align 1 in
  Ret (andn z m).

(** [char::to_digit(16)] *)
Definition hex_digit (c : Z) : option Z :=
  if within 48 57 c then Some (c - 48)
  else if within 97 102 c then Some (c - 87)
  else if within 65 70 c then Some (c - 55)
  else None.

Fixpoint hex_digits (l : list Z) (acc : Z) : option Z :=
  match l with
  | [] => Some acc
  | c :: l =>
      match hex_digit c with
      | None => None
      | Some d => if acc * 16 + d <? USIZE then hex_digits l (acc * 16 + d) else None
      end
  end.

(** [usize::from_str_radix(s, 16).ok()]: a sign may come first. *)
Definition from_str_radix_16 (l : list Z) : option Z :=
  match l with
  | [] => None
  | c :: rest =>
      if c =? 43 then match rest with [] => None | _ => hex_digits rest 0 end
      else hex_digits l 0
  end.

Definition parse_hex (bytes : list Z) : Z :=
  default 0 (from_str_radix_16 (if utf8_valid bytes then bytes else [48])).

Definition field (hdr : list Z) (offset : Z) : outcome Z :=
  let! s := slice hdr offset (offset + CPIO_FIELD_WIDTH) in Ret (parse_hex s).

(** What one entry does to the file system; the result is dropped. *)
Definition insert_entry (cpio hdr filename : list Z) (mode data_start data_end : Z) (fs : Ram.Ramfs)
    : outcome Ram.Ramfs :=
  let fmt := Z.land mode S_IFMT in
  if fmt =? S_IFDIR then
    let! '(_, fs) := Ram.insert_dir filename fs in Ret fs
  else if fmt =? S_IFCHR then
    let! rdevmajor := field hdr CPIO_RDEVMAJOR_OFFSET in
    let! rdevminor := field hdr CPIO_RDEVMINOR_OFFSET in
    let! '(_, fs) := Ram.insert_chardev filename (as_u32 rdevmajor) (as_u32 rdevminor) fs in Ret fs
  else if fmt =? S_IFBLK then
    let! rdevmajor := field hdr CPIO_RDEVMAJOR_OFFSET in
    let! rdevminor := field hdr CPIO_RDEVMINOR_OFFSET in
    let! '(_, fs) := Ram.insert_blockdev filename (as_u32 rdevmajor) (as_u32 rdevminor) fs in Ret fs
  else
    let! data := slice cpio data_start data_end in
    let! '(_, fs) := Ram.insert_file filename data fs in Ret fs.

(** The [while] loop; it ends in [Fault] only when [fuel] runs out. *)
Fixpoint unpack_loop (fuel : nat) (cpio : list Z) (pos : Z) (fs : Ram.Ramfs) : outcome Ram.Ramfs :=
  match fuel with
  | O => Fault
  | S fuel =>
      let! hdr_end := uadd pos CPIO_HEADER_SIZE in
      if negb (hdr_end <=? Z.of_nat (length cpio)) then Ret fs
      else
        let! hdr := slice cpio pos (Z.of_nat (length cpio)) in
        let! magic := slice hdr 0 CPIO_MAGIC_LEN in
        if negb (bytes_eqb magic CPIO_MAGIC) then Ret fs
        else
          let! m := field hdr CPIO_MODE_OFFSET in
          let mode := as_u16 m in
          let! filesize := field hdr CPIO_FILESIZE_OFFSET in
          let! namesize := field hdr CPIO_NAMESIZE_OFFSET in
          let! name_start := uadd pos CPIO_HEADER_SIZE in
          let! name_end := uadd name_start namesize in
          let! name_last := usub name_end 1 in
          let! filename := slice cpio name_start name_last in
          if negb (utf8_valid filename) then Ret fs
          else if bytes_eqb filename TRAILER then Ret fs
          else
            let! data_start := align_up name_end CPIO_ALIGN in
            let! data_end := uadd data_start filesize in
            let! fs := insert_entry cpio hdr filename mode data_start data_end fs in
            let! pos := align_up data_end CPIO_ALIGN in
            unpack_loop fuel cpio pos fs
  end.

(** Each turn of the loop passes a header of 110 bytes. *)
Definition unpack_cpio (fs : Ram.Ramfs) (cpio : list Z) : outcome Ram.Ramfs :=
  unpack_loop (S (length cpio)) cpio 0 fs.

(** [initramfs::new] on the archive between the two addresses of the device
    tree; [mem] reads the bytes of a range of memory. *)
Definition new (mem : Z -> Z -> list Z) (initrd_start initrd_end : Z) : outcome Ram.Ramfs :=
  let! initrd_len := usub initrd_end initrd_start in
  unpack_cpio Ram.new (mem initrd_start initrd_len).

(** ** The archive format *)

(** A header's fields; the ones the unpacker does not read are any bytes:
    [h1] the inode number, [h2] from the user to the modification time, [h3]
    the device the file was on, [h4] the checksum. *)
Record entry := mkEntry {
  e_mode : Z; e_name : list Z; e_data : list Z; e_rdevmajor : Z; e_rdevminor : Z;
  e_h1 : list Z; e_h2 : list Z; e_h3 : list Z; e_h4 : list Z }.

Definition hexd (d : Z) : Z := if d <? 10 then 48 + d else 87 + d.

Fixpoint hexn (n : nat) (x : Z) : list Z :=
  match n with
  | O => []
  | S n => hexn n (x / 16) ++ [hexd (x mod 16)]
  end.

Definition pad4 (n : Z) : list Z := replicate (Z.to_nat ((- n) mod 4)) 0.

Definition header (e : entry) : list Z :=
  CPIO_MAGIC ++ e_h1 e ++ hexn 8 (e_mode e) ++ e_h2 e ++ hexn 8 (Z.of_nat (length (e_data e))) ++ e_h3 e ++
  hexn 8 (e_rdevmajor e) ++ hexn 8 (e_rdevminor e) ++ hexn 8 (Z.of_nat (length (e_name e)) + 1) ++ e_h4 e.

Definition encode (e : entry) : list Z :=
  header e ++ e_name e ++ [0] ++ pad4 (CPIO_HEADER_SIZE + (Z.of_nat (length (e_name e)) + 1)) ++
  e_data e ++ pad4 (Z.of_nat (length (e_data e))).

Definition archive (es : list entry) : list Z := concat (map encode es).

(** What the archiver guarantees of an entry. *)
Record entry_ok (e : entry) : Prop := {
  ok_mode : 0 <= e_mode e < U16;
  ok_major : 0 <= e_rdevmajor e < U32;
  ok_minor : 0 <= e_rdevminor e < U32;
  ok_namesize : Z.of_nat (length (e_name e)) + 1 < U32;
  ok_filesize : Z.of_nat (length (e_data e)) < U32;
  ok_utf8 : utf8_valid (e_name e) = true;
  ok_h1 : length (e_h1 e) = 8%nat;
  ok_h2 : length (e_h2 e) = 32%nat;
  ok_h3 : length (e_h3 e) = 16%nat;
  ok_h4 : length (e_h4 e) = 8%nat }.

(** The insertion an entry stands for. *)
Definition insertion_of (e : entry) : Ram.insertion :=
  let fmt := Z.land (e_mode e) S_IFMT in
  if fmt =? S_IFDIR then Ram.InsDir (e_name e)
  else if fmt =? S_IFCHR then Ram.InsChardev (e_name e) (e_rdevmajor e) (e_rdevminor e)
  else if fmt =? S_IFBLK then Ram.InsBlockdev (e_name e) (e_rdevmajor e) (e_rdevminor e)
  else Ram.InsFile (e_name e) (e_data e).

(** ** Fields *)

Lemma hexn_len n x : length (hexn n x) = n.
Proof. revert x. induction n as [|n IH]; intros x; cbn [hexn]; [done|]. rewrite length_app, IH. cbn [length]. lia. Qed.

Lemma hex_digit_hexd d : 0 <= d < 16 -> hex_digit (hexd d) = Some d.
Proof.
  intros Hd. unfold hex_digit, hexd, within. destruct (Z.ltb_spec d 10); zcases; simpl; try (f_equal; lia); lia.
Qed.

Lemma hex_digits_app l1 l2 : forall acc,
  hex_digits (l1 ++ l2) acc = match hex_digits l1 acc with Some a => hex_digits l2 a | None => None end.
Proof.
  induction l1 as [|c l1 IH]; intros acc; cbn [app hex_digits]; [done|].
  destruct (hex_digit c); [|done]. destruct (_ <? _); [apply IH|done].
Qed.

Lemma hex_digits_hexn n : (n <= 16)%nat -> forall x, 0 <= x < 16 ^ Z.of_nat n -> hex_digits (hexn n x) 0 = Some x.
Proof.
  induction n as [|n IH]; intros Hn x Hx; [cbn in *; f_equal; lia|].
  assert (H16 : 16 ^ Z.of_nat (S n) <= USIZE) by (change USIZE with (16 ^ 16); apply Z.pow_le_mono_r; lia).
  rewrite Nat2Z.inj_succ, Z.pow_succ_r in * by lia.
  cbn [hexn]. rewrite hex_digits_app, IH by lia. cbn [hex_digits].
  rewrite hex_digit_hexd by lia. rewrite (proj2 (Z.ltb_lt _ _)) by lia. f_equal. lia.
Qed.

Lemma hexd_range d : 0 <= d < 16 -> 48 <= hexd d <= 102.
Proof. intros. unfold hexd. destruct (Z.ltb_spec d 10); lia. Qed.

Lemma hexn_range n x : Forall (fun c => 48 <= c <= 102) (hexn n x).
Proof.
  revert x. induction n as [|n IH]; intros x; cbn [hexn]; [done|]. apply Forall_app. split; [apply IH|].
  constructor; [apply hexd_range; lia|done].
Qed.

(** Reading a field gives back what the archiver wrote. *)
Lemma parse_hex_hexn x : 0 <= x < U32 -> parse_hex (hexn 8 x) = x.
Proof.
  intros Hx. unfold parse_hex. pose proof (hexn_range 8 x) as Hr. rewrite ascii_utf8; cycle 1.
  { eapply Forall_impl; [exact Hr|]. simpl. lia. }
  pose proof (hex_digits_hexn 8 ltac:(lia) x Hx) as Hd.
  pose proof (hexn_len 8 x) as Hl. destruct (hexn 8 x) as [|c l]; [done|].
  unfold from_str_radix_16. apply Forall_cons in Hr as [Hc _]. rewrite (proj2 (Z.eqb_neq _ _)) by lia. by rewrite Hd.
Qed.

Lemma slice_cut l1 l2 l3 l a b :
  l = l1 ++ l2 ++ l3 -> a = Z.of_nat (length l1) -> b = a + Z.of_nat (length l2) -> slice l a b = Ret l2.
Proof. intros ->. apply slice_app. Qed.

Lemma field_hexn l l1 l3 x off :
  l = l1 ++ hexn 8 x ++ l3 -> off = Z.of_nat (length l1) -> 0 <= x < U32 -> field l off = Ret x.
Proof.
  intros Hl Ho Hx. unfold field. rewrite (slice_cut l1 (hexn 8 x) l3 l); [|done..|by rewrite hexn_len].
  cbn [obind]. by rewrite parse_hex_hexn.
Qed.

Lemma align_up_4 x : 0 <= x < 2 ^ 63 -> align_up x CPIO_ALIGN = Ret (x + (- x) mod 4).
Proof.
  intros Hx. unfold align_up, CPIO_ALIGN. rewrite uadd_ok by (unfold USIZE; lia). cbn [obind].
  rewrite usub_ok by lia. cbn [obind]. rewrite usub_ok by lia. cbn [obind].
  change (4 - 1) with (2 ^ 2 - 1). rewrite andn_ones by lia. change (2 ^ 2) with 4. f_equal. lia.
Qed.

Lemma padding_len n : Z.of_nat (length (pad4 n)) = (- n) mod 4.
Proof. unfold pad4. rewrite length_replicate. lia. Qed.

Ltac lens := rewrite ?length_app, ?hexn_len; cbn [length].

(** ** One entry *)
Lemma header_len e : entry_ok e -> length (header e) = 110%nat.
Proof.
  intros Hok. unfold header. lens. rewrite (ok_h1 _ Hok), (ok_h2 _ Hok), (ok_h3 _ Hok), (ok_h4 _ Hok). reflexivity.
Qed.

Lemma entry_len e : entry_ok e ->
  Z.of_nat (length (encode e)) =
    110 + (Z.of_nat (length (e_name e)) + 1) + (- (110 + (Z.of_nat (length (e_name e)) + 1))) mod 4 +
    Z.of_nat (length (e_data e)) + (- Z.of_nat (length (e_data e))) mod 4.
Proof.
  intros Hok. unfold encode. lens. rewrite header_len, !Nat2Z.inj_add, !padding_len by done. unfold CPIO_HEADER_SIZE. lia.
Qed.

Section entry.
Context (e : entry) (Hok : entry_ok e) (pre post : list Z).
Let cpio := pre ++ encode e ++ post.
Let pos := Z.of_nat (length pre).
Context (Haligned : pos mod 4 = 0) (Hlen : Z.of_nat (length cpio) < 2 ^ 63).
Let namesize := Z.of_nat (length (e_name e)) + 1.
Let filesize := Z.of_nat (length (e_data e)).
Let data_start := pos + 110 + namesize + (- (110 + namesize)) mod 4.

Lemma cpio_len : Z.of_nat (length cpio) = pos + Z.of_nat (length (encode e)) + Z.of_nat (length post).
Proof. unfold cpio. rewrite !length_app. unfold pos. lia. Qed.

Lemma slice_hdr : slice cpio pos (Z.of_nat (length cpio)) = Ret (encode e ++ post).
Proof. apply (slice_cut pre _ []); [by rewrite app_nil_r|done|]. rewrite cpio_len, length_app. lia. Qed.

Lemma slice_magic : slice (encode e ++ post) 0 CPIO_MAGIC_LEN = Ret CPIO_MAGIC.
Proof. eapply (slice_cut [] CPIO_MAGIC); [|done..]. unfold encode, header. by rewrite <- !app_assoc. Qed.

Lemma field_mode : field (encode e ++ post) CPIO_MODE_OFFSET = Ret (e_mode e).
Proof.
  pose proof Hok as []. eapply (field_hexn _ (CPIO_MAGIC ++ e_h1 e)); [|lens; by rewrite (ok_h1 _ Hok)|unfold U16, U32 in *; lia].
  unfold encode, header. by rewrite <- !app_assoc.
Qed.

Lemma field_filesize : field (encode e ++ post) CPIO_FILESIZE_OFFSET = Ret filesize.
Proof.
  pose proof Hok as []. eapply (field_hexn _ (CPIO_MAGIC ++ e_h1 e ++ hexn 8 (e_mode e) ++ e_h2 e));
    [|lens; by rewrite (ok_h1 _ Hok), (ok_h2 _ Hok)|unfold filesize; lia].
  unfold encode, header. by rewrite <- !app_assoc.
Qed.

Lemma field_rdevmajor : field (encode e ++ post) CPIO_RDEVMAJOR_OFFSET = Ret (e_rdevmajor e).
Proof.
  pose proof Hok as []. eapply (field_hexn _ (CPIO_MAGIC ++ e_h1 e ++ hexn 8 (e_mode e) ++ e_h2 e ++
    hexn 8 (Z.of_nat (length (e_data e))) ++ e_h3 e)); [|lens; by rewrite (ok_h1 _ Hok), (ok_h2 _ Hok), (ok_h3 _ Hok)|done].
  unfold encode, header. by rewrite <- !app_assoc.
Qed.

Lemma field_rdevminor : field (encode e ++ post) CPIO_RDEVMINOR_OFFSET = Ret (e_rdevminor e).
Proof.
  pose proof Hok as []. eapply (field_hexn _ (CPIO_MAGIC ++ e_h1 e ++ hexn 8 (e_mode e) ++ e_h2 e ++
    hexn 8 (Z.of_nat (length (e_data e))) ++ e_h3 e ++ hexn 8 (e_rdevmajor e)));
    [|lens; by rewrite (ok_h1 _ Hok), (ok_h2 _ Hok), (ok_h3 _ Hok)|done].
  unfold encode, header. by rewrite <- !app_assoc.
Qed.

Lemma field_namesize : field (encode e ++ post) CPIO_NAMESIZE_OFFSET = Ret namesize.
Proof.
  pose proof Hok as []. eapply (field_hexn _ (CPIO_MAGIC ++ e_h1 e ++ hexn 8 (e_mode e) ++ e_h2 e ++
    hexn 8 (Z.of_nat (length (e_data e))) ++ e_h3 e ++ hexn 8 (e_rdevmajor e) ++ hexn 8 (e_rdevminor e)));
    [|lens; by rewrite (ok_h1 _ Hok), (ok_h2 _ Hok), (ok_h3 _ Hok)|unfold namesize; lia].
  unfold encode, header. by rewrite <- !app_assoc.
Qed.

Lemma slice_name : slice cpio (pos + CPIO_HEADER_SIZE) (pos + CPIO_HEADER_SIZE + namesize - 1) = Ret (e_name e).
Proof.
  eapply (slice_cut (pre ++ header e) (e_name e)); [|rewrite length_app, header_len by done; unfold pos, CPIO_HEADER_SIZE; lia|
    unfold namesize; lia].
  unfold cpio, encode. by rewrite <- !app_assoc.
Qed.

Lemma slice_data : slice cpio data_start (data_start + filesize) = Ret (e_data e).
Proof.
  eapply (slice_cut (pre ++ header e ++ e_name e ++ [0] ++ pad4 (110 + namesize)) (e_data e)); [| |done].
  - unfold cpio, encode. by rewrite <- !app_assoc.
  - lens. rewrite header_len, !Nat2Z.inj_add, padding_len by done. unfold data_start, namesize, pos. lia.
Qed.

Lemma insert_entry_ok fs :
  insert_entry cpio (encode e ++ post) (e_name e) (e_mode e) data_start (data_start + filesize) fs =
  let! '(_, fs') := Ram.insert (insertion_of e) fs in Ret fs'.
Proof.
  unfold insert_entry, insertion_of. destruct (Z.land (e_mode e) S_IFMT =? S_IFDIR); [done|].
  rewrite field_rdevmajor, field_rdevminor, slice_data. cbn [obind]. rewrite !as_u32_small by apply Hok.
  destruct (_ =? S_IFCHR); [done|]. by destruct (_ =? S_IFBLK).
Qed.

(** One turn of the loop on an entry: a trailer ends it, any other entry is
    inserted and the loop goes on behind it. *)
Lemma unpack_entry fuel fs :
  unpack_loop (S fuel) cpio pos fs =
  if bytes_eqb (e_name e) TRAILER then Ret fs
  else let! '(_, fs') := Ram.insert (insertion_of e) fs in
       unpack_loop fuel cpio (pos + Z.of_nat (length (encode e))) fs'.
Proof.
  pose proof cpio_len as Hcl. pose proof (entry_len e Hok) as Hel. fold namesize filesize in Hel.
  assert (0 <= pos /\ 1 <= namesize /\ 0 <= filesize) as (Hp & Hns & Hfs) by (unfold pos, namesize, filesize; lia).
  cbn [unpack_loop]. unfold CPIO_HEADER_SIZE at 1. rewrite uadd_ok by (unfold USIZE; lia). cbn [obind].
  rewrite (proj2 (Z.leb_le _ _)) by lia. cbn [negb]. rewrite slice_hdr. cbn [obind].
  rewrite slice_magic. cbn [obind]. unfold bytes_eqb at 1. rewrite bool_decide_true by done. cbn [negb].
  rewrite field_mode, field_filesize, field_namesize. cbn [obind].
  rewrite uadd_ok by (unfold USIZE, CPIO_HEADER_SIZE; lia). cbn [obind].
  rewrite uadd_ok by (unfold USIZE, CPIO_HEADER_SIZE; lia). cbn [obind].
  rewrite usub_ok by (unfold CPIO_HEADER_SIZE; lia). cbn [obind].
  rewrite slice_name. cbn [obind]. rewrite (ok_utf8 _ Hok). cbn [negb].
  destruct (bytes_eqb (e_name e) TRAILER); [done|].
  unfold CPIO_HEADER_SIZE. rewrite align_up_4 by lia. cbn [obind].
  replace (pos + 110 + namesize + _) with data_start by (unfold data_start; lia).
  rewrite uadd_ok by (unfold USIZE, data_start; lia). cbn [obind].
  unfold as_u16. rewrite Z.mod_small by apply Hok. rewrite insert_entry_ok.
  destruct (Ram.insert (insertion_of e) fs) as [[r fs']| |]; cbn [obind]; [|done..].
  rewrite align_up_4 by (unfold data_start; lia). cbn [obind]. f_equal. unfold data_start. lia.
Qed.
End entry.

(** ** Archives *)
Definition insert_all (os : list Ram.insertion) (fs : Ram.Ramfs) : outcome Ram.Ramfs :=
  ofold (fun fs o => let! '(_, fs) := Ram.insert o fs in Ret fs) os fs.

Lemma insert_all_wf os : forall fs, Ram.wf fs -> exists fs', insert_all os fs = Ret fs' /\ Ram.wf fs'.
Proof.
  induction os as [|o os IH]; intros fs Hw; unfold insert_all; cbn [ofold]; [by exists fs|].
  destruct (Ram.insert_wf o fs Hw) as (r & fs1 & -> & Hw1). cbn [obind]. by apply IH.
Qed.

Lemma unpack_entries t rest : entry_ok t -> e_name t = TRAILER -> forall es pre fuel fs,
  Forall (fun e => entry_ok e /\ e_name e <> TRAILER) es ->
  Z.of_nat (length pre) mod 4 = 0 -> Z.of_nat (length (pre ++ archive es ++ encode t ++ rest)) < 2 ^ 63 ->
  (length es < fuel)%nat ->
  unpack_loop fuel (pre ++ archive es ++ encode t ++ rest) (Z.of_nat (length pre)) fs = insert_all (map insertion_of es) fs.
Proof.
  intros Ht Hn. induction es as [|e es IH]; intros pre fuel fs Hes Hal Hlen Hf;
    (destruct fuel as [|fuel]; [cbn [length] in Hf; lia|]).
  - cbn [archive map concat app] in *. rewrite (unpack_entry t Ht pre rest) by done.
    rewrite Hn. unfold bytes_eqb. by rewrite bool_decide_true.
  - apply Forall_cons in Hes as [[He Hne] Hes].
    assert (E : pre ++ archive (e :: es) ++ encode t ++ rest = pre ++ encode e ++ (archive es ++ encode t ++ rest))
      by (unfold archive; cbn [map concat]; by rewrite <- !app_assoc).
    rewrite E in *. rewrite (unpack_entry e He) by done.
    unfold bytes_eqb. rewrite bool_decide_false by done. unfold insert_all. cbn [map ofold].
    destruct (Ram.insert (insertion_of e) fs) as [[r fs']| |]; cbn [obind]; [|done..].
    rewrite (app_assoc pre (encode e)) in *. rewrite <- Nat2Z.inj_add, <- length_app.
    apply IH; [done| |done|cbn [length] in Hf; lia].
    rewrite length_app, Nat2Z.inj_add, (entry_len e He). lia.
Qed.

Lemma archive_len es : Forall entry_ok es -> (length es <= length (archive es))%nat.
Proof.
  induction 1 as [|e es He _ IH]; [done|]. unfold archive in *. cbn [map concat]. rewrite length_app. cbn [length].
  pose proof (entry_len e He). lia.
Qed.

(** The archive in memory. *)
Lemma new_archive es t rest fs mem s e : Forall (fun e => entry_ok e /\ e_name e <> TRAILER) es -> entry_ok t -> e_name t = TRAILER ->
  s <= e -> mem s (e - s) = archive es ++ encode t ++ rest -> Z.of_nat (length (archive es ++ encode t ++ rest)) < 2 ^ 63 ->
  insert_all (map insertion_of es) Ram.new = Ret fs -> new mem s e = Ret fs.
Proof.
  intros Hes Ht Hn Hs Hm Hlen Hins. unfold new. rewrite usub_ok by lia. cbn [obind]. rewrite Hm, <- Hins. apply (unpack_entries t rest Ht Hn es []); [done|done|done|].
  pose proof (archive_len es (Forall_impl _ _ _ Hes (fun e H => proj1 H))). rewrite length_app. lia.
Qed.

(** C29: unpacking is the inverse of archiving.  For entries as the archiver
    writes them, with any content of the fields the unpacker skips, followed by
    the trailer and anything after it, [unpack_cpio] runs without a panic and
    does exactly the insertions the entries stand for, in their order:
    directories, character and block devices with their numbers, and files
    with exactly their bytes. *)
Theorem unpack_archive es t rest fs :
  Ram.wf fs -> Forall (fun e => entry_ok e /\ e_name e <> TRAILER) es -> entry_ok t -> e_name t = TRAILER ->
  Z.of_nat (length (archive es ++ encode t ++ rest)) < 2 ^ 63 ->
  exists fs', unpack_cpio fs (archive es ++ encode t ++ rest) = Ret fs' /\
    insert_all (map insertion_of es) fs = Ret fs' /\ Ram.wf fs'.
Proof.
  intros Hw Hes Ht Hn Hlen. destruct (insert_all_wf (map insertion_of es) fs Hw) as (fs' & E & Hw').
  exists fs'. split_and!; [|done|done]. rewrite <- E. unfold unpack_cpio.
  apply (unpack_entries t rest Ht Hn es []); [done|done|done|].
  pose proof (archive_len es (Forall_impl _ _ _ Hes (fun e H => proj1 H))). rewrite length_app. lia.
Qed.

Definition entry_bin : entry :=
  mkEntry 0x41ed (lit "bin") [] 0 0 (lit "00000001") (replicate 32 48) (replicate 16 48) (replicate 8 48).
Definition entry_tty : entry :=
  mkEntry 0x2180 (lit "dev/tty") [] 5 1 (lit "00000002") (replicate 32 48) (replicate 16 48) (replicate 8 48).
Definition entry_sh : entry :=
  mkEntry 0x81ed (lit "bin/sh") [127; 69; 76; 70; 2] 0 0 (lit "00000003") (replicate 32 48) (replicate 16 48) (replicate 8 48).
Definition entry_end : entry :=
  mkEntry 0 TRAILER [] 0 0 (lit "00000000") (replicate 32 48) (replicate 16 48) (replicate 8 48).

Lemma unpack_archive_witness :
  exists fs', unpack_cpio Ram.new (archive [entry_bin; entry_tty; entry_sh] ++ encode entry_end ++ [0; 0; 0; 0]) = Ret fs' /\
    insert_all [Ram.InsDir (lit "bin"); Ram.InsChardev (lit "dev/tty") 5 1; Ram.InsFile (lit "bin/sh") [127; 69; 76; 70; 2]]
      Ram.new = Ret fs' /\ Ram.wf fs'.
Proof.
  apply (unpack_archive [entry_bin; entry_tty; entry_sh] entry_end [0; 0; 0; 0] Ram.new); [apply Ram.new_wf| | |done|vm_compute; done].
  - repeat constructor; vm_compute; done.
  - split; vm_compute; done.
Defined.

(** ** Termination on every input *)
Lemma hex_digits_nonneg l : forall acc x, 0 <= acc -> hex_digits l acc = Some x -> 0 <= x.
Proof.
  induction l as [|c l IH]; intros acc x Ha; cbn [hex_digits]; [by injection 1 as <-|].
  destruct (hex_digit c) as [d|] eqn:E; [|done]. destruct (_ <? _); [|done]. apply IH.
  unfold hex_digit, within in E. zcases; simpl in E; simplify_eq; lia.
Qed.

Lemma parse_hex_nonneg l : 0 <= parse_hex l.
Proof.
  unfold parse_hex, from_str_radix_16. destruct (if utf8_valid l then l else [48]) as [|c rest]; [done|].
  destruct (c =? 43).
  - destruct rest; [done|]. destruct (hex_digits _ 0) eqn:E; [|done]. by apply hex_digits_nonneg in E.
  - destruct (hex_digits _ 0) eqn:E; [|done]. by apply hex_digits_nonneg in E.
Qed.

(** [m] does not run out of fuel, and its result satisfies [P]. *)
Definition safe {A} (m : outcome A) (P : A -> Prop) : Prop :=
  match m with Ret a => P a | Panic => True | Fault => False end.

Lemma safe_bind {A B} (m : outcome A) (k : A -> outcome B) P Q :
  safe m P -> (forall a, P a -> safe (k a) Q) -> safe (obind m k) Q.
Proof. destruct m; cbn; auto. Qed.

Lemma safe_slice l a b : safe (slice l a b) (fun _ => True).
Proof. unfold slice. by destruct (_ && _). Qed.
Lemma safe_uadd a b : safe (uadd a b) (eq (a + b)).
Proof. unfold uadd. by destruct (_ <? _). Qed.
Lemma safe_usub a b : safe (usub a b) (eq (a - b)).
Proof. unfold usub. by destruct (_ <=? _). Qed.
Lemma safe_field l a : safe (field l a) (fun x => 0 <= x).
Proof. apply (safe_bind _ _ (fun _ => True)); [apply safe_slice|]. intros. apply parse_hex_nonneg. Qed.

Lemma safe_align_up x : safe (align_up x CPIO_ALIGN) (fun y => x <= y).
Proof.
  eapply safe_bind; [apply safe_uadd|]. intros ? <-. eapply safe_bind; [apply safe_usub|]. intros ? <-.
  eapply safe_bind; [apply safe_usub|]. intros ? <-. apply (align_up_to_ge x 2). lia.
Qed.

Lemma safe_insert o fs : Ram.wf fs -> safe (let! '(_, fs) := Ram.insert o fs in Ret fs) Ram.wf.
Proof. intros Hw. by destruct (Ram.insert_wf o fs Hw) as (r & fs' & -> & Hw'). Qed.

Lemma safe_insert_entry cpio hdr name mode a b fs : Ram.wf fs -> safe (insert_entry cpio hdr name mode a b fs) Ram.wf.
Proof.
  intros Hw. unfold insert_entry. destruct (_ =? S_IFDIR); [apply (safe_insert (Ram.InsDir name) fs Hw)|].
  destruct (_ =? S_IFCHR); [|destruct (_ =? S_IFBLK)].
  - eapply safe_bind; [apply safe_field|]. intros x _. eapply safe_bind; [apply safe_field|]. intros y _.
    apply (safe_insert (Ram.InsChardev name (as_u32 x) (as_u32 y)) fs Hw).
  - eapply safe_bind; [apply safe_field|]. intros x _. eapply safe_bind; [apply safe_field|]. intros y _.
    apply (safe_insert (Ram.InsBlockdev name (as_u32 x) (as_u32 y)) fs Hw).
  - eapply safe_bind; [apply safe_slice|]. intros d _. apply (safe_insert (Ram.InsFile name d) fs Hw).
Qed.

Lemma unpack_loop_safe cpio fuel : forall pos fs, Ram.wf fs -> 0 < Z.of_nat fuel ->
  Z.of_nat (length cpio) - pos < 110 * Z.of_nat fuel -> safe (unpack_loop fuel cpio pos fs) Ram.wf.
Proof.
  induction fuel as [|fuel IH]; intros pos fs Hw Hp Hf; [lia|cbn [unpack_loop]]. unfold CPIO_HEADER_SIZE.
  eapply safe_bind; [apply safe_uadd|]. intros ? <-.
  destruct (Z.leb_spec (pos + 110) (Z.of_nat (length cpio))); cbn [negb]; [|done].
  eapply safe_bind; [apply safe_slice|]. intros hdr _. eapply safe_bind; [apply safe_slice|]. intros magic _.
  destruct (negb (bytes_eqb _ _)); [done|].
  eapply safe_bind; [apply safe_field|]. intros m _. eapply safe_bind; [apply safe_field|]. intros filesize Hfs.
  eapply safe_bind; [apply safe_field|]. intros namesize Hns.
  eapply safe_bind; [apply safe_uadd|]. intros ? <-. eapply safe_bind; [apply safe_uadd|]. intros ? <-.
  eapply safe_bind; [apply safe_usub|]. intros ? <-. eapply safe_bind; [apply safe_slice|]. intros name _.
  destruct (negb (utf8_valid _)); [done|]. destruct (bytes_eqb _ _); [done|].
  eapply safe_bind; [apply safe_align_up|]. intros data_start Hds. eapply safe_bind; [apply safe_uadd|]. intros ? <-.
  eapply safe_bind; [by apply safe_insert_entry|]. intros fs' Hw'.
  eapply safe_bind; [apply safe_align_up|]. intros pos' Hpos'. cbn beta in *. apply IH; [done|lia|lia].
Qed.

(** unpacking ends, whatever the bytes.  On every byte string the loop of
    [unpack_cpio] passes at least a header of 110 bytes at each turn, so it ends
    within as many turns as there are bytes: it returns, with the file system
    still a tree, or panics on an index out of range. *)
Theorem unpack_terminates fs cpio :
  Ram.wf fs -> unpack_cpio fs cpio <> Fault /\ (forall fs', unpack_cpio fs cpio = Ret fs' -> Ram.wf fs').
Proof.
  intros Hw. assert (H : safe (unpack_cpio fs cpio) Ram.wf) by (apply unpack_loop_safe; [done|lia..]).
  destruct (unpack_cpio fs cpio); cbn in H; naive_solver.
Qed.

Lemma unpack_terminates_witness :
  unpack_cpio Ram.new (lit "070701 not an archive") <> Fault /\
  (forall fs', unpack_cpio Ram.new (lit "070701 not an archive") = Ret fs' -> Ram.wf fs').
Proof. apply (unpack_terminates Ram.new (lit "070701 not an archive")). apply Ram.new_wf. Defined.

(** An entry that says its name has no bytes, not even the final zero, panics:
    the range of its name ends before it starts. *)
Lemma unpack_empty_name :
  unpack_cpio Ram.new (CPIO_MAGIC ++ replicate 104 48) = Panic.
Proof. by vm_compute. Qed.

End Cpio.
