(* ===== verification/Vfs.v ===== *)
(** * The virtual file system

    Models [src/src/vfs.rs]: the mount table, the registry of file systems,
    path lookup across mounts and the reading loops; and [src/src/dev/char.rs],
    the registry of character devices that [vfs_open] consults.  What the
    VFS needs of a file system is the class [FileOps]; [Stream] is what a
    reader relies on, with the RAM file system and ext2 as instances.

    A lookup is a function of the inode and the name, as for ramfs, which
    clones the [Arc] it stores, and for ext2 as long as the inode stays in its
    cache; an inode's identity is [inode_id]. *)

From S2P Require Import Prelude Bytes File Ramfs Ext2.

Module Vfs.
Import Fl.

(** The operation tables of inodes [I] and open files [O]. *)
Class FileOps (I O : Type) := {
  inode_id : I -> Z;
  file_type : I -> FileType;
  rdev : I -> option (Z * Z);
  fops : I -> O;
  lookup_op : I -> list Z -> outcome (result I Error);
  open_op : O -> I -> outcome (result (O * I) Error);
  readdir_op : O -> I -> outcome (result (list DirEntry) Error) }.

Section vfs.
Context {I O : Type} {FileOps0 : FileOps I O}.

Record SuperBlock := mkSuperBlock { root_inode_of : I; fs_type : list Z }.

Record Mount := mkMount { mountpoint_inode : option I; mountpoint : list Z; sb : SuperBlock }.

Record MountInfo := mkMountInfo { mi_id : Z; mi_fs_type : list Z; mi_mountpoint : list Z }.

Record FileSystem := mkFileSystem {
  fs_name : list Z; nodev : bool; fs_mount : option (list Z) -> outcome (result SuperBlock Error) }.

Record CharDevEntry := mkCharDevEntry { cd_name : list Z; cd_fops : O }.

(** The globals of the module. *)
Record state := mkState {
  MOUNTS : option (list Mount);
  FILESYSTEMS : option (list FileSystem);
  CHARDEVS : option (gmap (Z * Z) CharDevEntry) }.

Record File := mkFile { f_fops : O; offset : Z; inode : I }.

Definition file_new (o : O) (i : I) : File := mkFile o 0 i.

(** ** Mount table and registries *)
Definition init (s : SuperBlock) (st : state) : state :=
  mkState (Some [mkMount None [47] s]) (FILESYSTEMS st) (CHARDEVS st).

Definition mounts (st : state) : list MountInfo :=
  match MOUNTS st with
  | None => []
  | Some ms => imap (fun i m => mkMountInfo (Z.of_nat i) (fs_type (sb m)) (mountpoint m)) ms
  end.

Definition register_filesystem (fs : FileSystem) (st : state) : state :=
  mkState (MOUNTS st) (Some (default [] (FILESYSTEMS st) ++ [fs])) (CHARDEVS st).

Definition find_filesystem (st : state) (name : list Z) : option FileSystem :=
  match FILESYSTEMS st with
  | None => None
  | Some fss => List.find (fun fs => bytes_eqb (fs_name fs) name) fss
  end.

Definition filesystems (st : state) : list FileSystem := default [] (FILESYSTEMS st).

Definition chrdev_register (major minor : Z) (name : list Z) (o : O) (st : state) : state :=
  mkState (MOUNTS st) (FILESYSTEMS st)
    (Some (<[(major, minor) := mkCharDevEntry name o]> (default ∅ (CHARDEVS st)))).

Definition chrdev_open (st : state) (i : I) : result File Error :=
  match rdev i with
  | None => Err InvalidInput
  | Some k =>
      match CHARDEVS st ≫= (fun devs => devs !! k) with
      | None => Err NotFound
      | Some e => Ok (file_new (cd_fops e) i)
      end
  end.

(** ** Path lookup *)
Definition root_inode (st : state) : outcome (result I Error) :=
  match MOUNTS st with
  | None => Ret (Err InvalidInput)
  | Some ms => let! m := expect (ms !! 0%nat) in Ret (Ok (root_inode_of (sb m)))
  end.

Fixpoint cross_list (ms : list Mount) (i : I) : I :=
  match ms with
  | [] => i
  | m :: ms =>
      match mountpoint_inode m with
      | Some mp => if inode_id mp =? inode_id i then root_inode_of (sb m) else cross_list ms i
      | None => cross_list ms i
      end
  end.

Definition cross_mount (st : state) (i : I) : I := cross_list (default [] (MOUNTS st)) i.

(** The loop over the components. *)
Fixpoint resolve (st : state) (i : I) (parts : list (list Z)) : outcome (result I Error) :=
  match parts with
  | [] => Ret (Ok i)
  | p :: parts => let? c := lookup_op i p in resolve st (cross_mount st c) parts
  end.

Definition vfs_lookup (st : state) (path : list Z) : outcome (result I Error) :=
  let? i := root_inode st in resolve st i (components path).

Definition vfs_mount_at (source : option (list Z)) (path fs_name : list Z) (st : state)
    : outcome (result state Error) :=
  let? i := vfs_lookup st path in
  match find_filesystem st fs_name with
  | None => Ret (Err NotFound)
  | Some fs =>
      let? s := fs_mount fs source in
      let! ms := expect (MOUNTS st) in
      Ret (Ok (mkState (Some (ms ++ [mkMount (Some i) path s])) (FILESYSTEMS st) (CHARDEVS st)))
  end.

Definition vfs_open (st : state) (path : list Z) : outcome (result File Error) :=
  let? i := vfs_lookup st path in
  if bool_decide (file_type i = CharDevice) then Ret (chrdev_open st i)
  else let? ' (o, i) := open_op (fops i) i in Ret (Ok (file_new o i)).

Definition vfs_readdir (st : state) (path : list Z) : outcome (result (list DirEntry) Error) :=
  let? f := vfs_open st path in readdir_op (f_fops f) (inode f).
End vfs.

(** ** Reading loops

    [vfs_read] is one call of the file's [read]: the bytes put at the front of
    a buffer of the given size, and the file with its offset moved. *)
Section read.
Context {F : Type} (vfs_read : F -> Z -> outcome (result (list Z) Error * F)).

(** The [while] loop of [vfs_read_exact]: [remaining] bytes of the buffer are
    still to be filled.  [Fault] only when [fuel] runs out. *)
Fixpoint read_exact_loop (fuel : nat) (f : F) (remaining : Z) (acc : list Z) : outcome (result (list Z) Error * F) :=
  match fuel with
  | O => Fault
  | S fuel =>
      if remaining =? 0 then Ret (Ok acc, f)
      else
        let! '(r, f) := vfs_read f remaining in
        match r with
        | Err e => Ret (Err e, f)
        | Ok chunk =>
            let n := Z.of_nat (length chunk) in
            if n =? 0 then Ret (Err UnexpectedEof, f)
            else let! remaining := usub remaining n in read_exact_loop fuel f remaining (acc ++ chunk)
        end
  end.

Definition vfs_read_exact (f : F) (size : Z) : outcome (result (list Z) Error * F) :=
  read_exact_loop (S (Z.to_nat size)) f size [].

Fixpoint read_to_string_loop (fuel : nat) (f : F) (out : list Z) : outcome (result unit Error * list Z * F) :=
  match fuel with
  | O => Fault
  | S fuel =>
      let! '(r, f) := vfs_read f 256 in
      match r with
      | Err e => Ret (Err e, out, f)
      | Ok chunk =>
          if Z.of_nat (length chunk) =? 0 then Ret (Ok tt, out, f)
          else if utf8_valid chunk then read_to_string_loop fuel f (out ++ chunk)
          else Ret (Err InvalidUtf8, out, f)
      end
  end.

(** [vfs_read_to_string]: what it appended to the string, whether it fails or
    not.  [fuel] bounds the number of chunks. *)
Definition vfs_read_to_string (fuel : nat) (f : F) (out : list Z) : outcome (result unit Error * list Z * F) :=
  read_to_string_loop fuel f out.
End read.

(** ** What a reader relies on

    A file in a state [sok] holds [content], the bytes from its offset on.  A
    read of at least a byte gives a prefix of them, no longer than the buffer,
    and empty only at the end. *)
Class Stream {F : Type} (vfs_read : F -> Z -> outcome (result (list Z) Error * F)) (sok : F -> Prop) (content : F -> list Z) :=
  stream_read : forall f n, sok f -> 0 < n -> exists chunk f',
    vfs_read f n = Ret (Ok chunk, f') /\ sok f' /\ content f = chunk ++ content f' /\
    Z.of_nat (length chunk) <= n /\ (chunk = [] -> content f = []).

Lemma chunk_stream (data : list Z) off n :
  0 <= off <= Z.of_nat (length data) -> 0 < n ->
  let chunk := take (Z.to_nat n) (drop (Z.to_nat off) data) in
  let off' := off + Z.of_nat (length chunk) in
  0 <= off' <= Z.of_nat (length data) /\ drop (Z.to_nat off) data = chunk ++ drop (Z.to_nat off') data /\
  Z.of_nat (length chunk) <= n /\ (chunk = [] -> drop (Z.to_nat off) data = []).
Proof.
  intros Ho Hn chunk off'.
  assert (Hl : length chunk = Nat.min (Z.to_nat n) (length data - Z.to_nat off)) by (unfold chunk; by rewrite length_take, length_drop).
  split_and!; [unfold off'; lia|unfold off'; lia| |lia|].
  - rewrite <- (take_drop (Z.to_nat n) (drop (Z.to_nat off) data)) at 1. unfold chunk at 1. f_equal.
    rewrite drop_drop. destruct (decide (Z.to_nat n <= length data - Z.to_nat off)%nat).
    + f_equal. unfold off'. lia.
    + rewrite !drop_ge; [done|unfold off'; lia|lia].
  - intros E. apply (f_equal length) in E. rewrite Hl in E. apply nil_length_inv. rewrite length_drop. cbn [length] in E. lia.
Qed.

(** The [read] of ramfs and of procfs on the bytes of the file. *)
Lemma prefix_read data off n :
  0 <= off <= Z.of_nat (length data) -> 0 < n -> exists chunk f',
  (let! remaining := slice data off (Z.of_nat (length data)) in
   let n := Z.min (Z.of_nat (length remaining)) n in
   let! chunk := slice remaining 0 n in
   Ret (Ok chunk : result (list Z) Error, off + n)) = Ret (Ok chunk, f') /\
  0 <= f' <= Z.of_nat (length data) /\ drop (Z.to_nat off) data = chunk ++ drop (Z.to_nat f') data /\
  Z.of_nat (length chunk) <= n /\ (chunk = [] -> drop (Z.to_nat off) data = []).
Proof.
  intros Hoff Hn0. pose proof (chunk_stream data off n Hoff Hn0) as Hc. cbn zeta in Hc.
  unfold slice at 1. rewrite (proj2 (Z.leb_le _ _)), Z.leb_refl by lia. cbn [andb obind].
  rewrite (take_ge (drop _ data)) by (rewrite length_drop; lia).
  unfold slice. rewrite (proj2 (Z.leb_le _ _)), (proj2 (Z.leb_le _ _)) by (rewrite ?length_drop; lia). cbn [andb obind].
  rewrite drop_0, Z.sub_0_r.
  set (k := Z.min _ n). assert (Ek : take (Z.to_nat k) (drop (Z.to_nat off) data) = take (Z.to_nat n) (drop (Z.to_nat off) data)).
  { subst k. destruct (Z.min_spec (Z.of_nat (length (drop (Z.to_nat off) data))) n) as [[? ->]|[? ->]]; [|done].
    rewrite !take_ge by lia. done. }
  rewrite Ek. eexists _, _. split; [done|]. replace (off + k) with (off + Z.of_nat (length (take (Z.to_nat n) (drop (Z.to_nat off) data)))); [done|].
  rewrite length_take. subst k. lia.
Qed.

#[global] Instance ramfs_stream i data (Hn : Ram.node i = Ram.File data) :
  Stream (Ram.read i) (fun off => 0 <= off <= Z.of_nat (length data)) (fun off => drop (Z.to_nat off) data).
Proof. intros off n Hoff Hn0. unfold Ram.read. rewrite Hn. by apply prefix_read. Qed.

#[global] Instance ext2_stream get s bs i ps data (Hg : Ext2.geometry s bs) (Hs : Ext2.stored get bs i ps data) :
  Stream (Ext2.read get s i) (fun off => 0 <= off <= Z.of_nat (length data)) (fun off => drop (Z.to_nat off) data).
Proof.
  intros off n Hoff Hn0. pose proof (Ext2.read_stored get s bs i ps data (Z.to_nat off) (Z.to_nat n) Hg Hs ltac:(lia)) as E.
  rewrite !Z2Nat.id in E by lia. eexists _, _. split; [exact E|].
  pose proof (chunk_stream data off n Hoff Hn0) as Hc. cbn zeta in Hc.
  replace (Z.of_nat (Z.to_nat off + _)) with (off + Z.of_nat (length (take (Z.to_nat n) (drop (Z.to_nat off) data)))) by lia. done.
Qed.

Section stream.
Context {F : Type} (vfs_read : F -> Z -> outcome (result (list Z) Error * F)) (sok : F -> Prop) (content : F -> list Z).
Context {Hstream : Stream vfs_read sok content}.

Lemma read_exact_loop_ok fuel : forall f n acc, sok f -> 0 <= n < Z.of_nat fuel ->
  if n <=? Z.of_nat (length (content f)) then
    exists f', read_exact_loop vfs_read fuel f n acc = Ret (Ok (acc ++ take (Z.to_nat n) (content f)), f') /\ sok f' /\
      content f' = drop (Z.to_nat n) (content f)
  else exists f', read_exact_loop vfs_read fuel f n acc = Ret (Err UnexpectedEof, f').
Proof.
  induction fuel as [|fuel IH]; intros f n acc Hf Hn; [lia|cbn [read_exact_loop]].
  destruct (Z.eqb_spec n 0) as [->|Hn0].
  { rewrite (proj2 (Z.leb_le _ _)) by lia. exists f. by rewrite take_0, app_nil_r, drop_0. }
  destruct (stream_read f n Hf ltac:(lia)) as (chunk & f1 & -> & Hf1 & Hc & Hlen & Hend). cbn [obind].
  destruct (Z.eqb_spec (Z.of_nat (length chunk)) 0) as [E|E].
  { rewrite Hend by (apply nil_length_inv; lia). cbn [length]. rewrite (proj2 (Z.leb_gt _ _)) by lia. by exists f1. }
  rewrite usub_ok by lia. cbn [obind].
  specialize (IH f1 (n - Z.of_nat (length chunk)) (acc ++ chunk) Hf1 ltac:(lia)).
  rewrite Hc, length_app.
  destruct (Z.leb_spec (n - Z.of_nat (length chunk)) (Z.of_nat (length (content f1)))).
  - rewrite (proj2 (Z.leb_le _ _)) by lia. destruct IH as (f' & -> & Hf' & Hd). exists f'.
    rewrite <- app_assoc, take_app_ge, drop_app_ge by lia.
    replace (Z.to_nat n - length chunk)%nat with (Z.to_nat (n - Z.of_nat (length chunk))) by lia. done.
  - rewrite (proj2 (Z.leb_gt _ _)) by lia. exact IH.
Qed.

(** [vfs_read_exact] fills the buffer or says it cannot.  For any file
    system whose reads hand out the content in order, in chunks of any size,
    the loop ends; it returns exactly the next [size] bytes of the file and
    leaves the file right behind them when it has that many, and otherwise
    fails with [UnexpectedEof].  Files of ramfs and of ext2 read that way. *)
Theorem read_exact_spec f size : sok f -> 0 <= size ->
  if size <=? Z.of_nat (length (content f)) then
    exists f', vfs_read_exact vfs_read f size = Ret (Ok (take (Z.to_nat size) (content f)), f') /\ sok f' /\
      content f' = drop (Z.to_nat size) (content f)
  else exists f', vfs_read_exact vfs_read f size = Ret (Err UnexpectedEof, f').
Proof. intros Hf Hs. apply (read_exact_loop_ok (S (Z.to_nat size)) f size []); [done|lia]. Qed.

Lemma read_to_string_ok fuel : forall f out, sok f -> (length (content f) < fuel)%nat ->
  Forall (fun c => 0 <= c <= 127) (content f) ->
  exists f', vfs_read_to_string vfs_read fuel f out = Ret (Ok tt, out ++ content f, f').
Proof.
  unfold vfs_read_to_string.
  induction fuel as [|fuel IH]; intros f out Hf Hl Hascii; [lia|cbn [read_to_string_loop]].
  destruct (stream_read f 256 Hf ltac:(lia)) as (chunk & f1 & -> & Hf1 & Hc & Hlen & Hend). cbn [obind].
  destruct (Z.eqb_spec (Z.of_nat (length chunk)) 0) as [E|E].
  { exists f1. rewrite Hend by (apply nil_length_inv; lia). by rewrite app_nil_r. }
  rewrite Hc in Hl, Hascii |- *. rewrite length_app in Hl. apply Forall_app in Hascii as [Ha1 Ha2].
  rewrite ascii_utf8 by done. destruct (IH f1 (out ++ chunk) Hf1 ltac:(lia) Ha2) as (f' & ->).
  exists f'. by rewrite <- app_assoc.
Qed.
End stream.

(** A file of the RAM file system. *)
Definition motd_inode : Ram.Inode := Ram.mkInode 2 RegularFile 5 None (Ram.File [104; 101; 108; 108; 111]).

Lemma read_exact_spec_witness :
  exists f', vfs_read_exact (Ram.read motd_inode) 1 3 = Ret (Ok [101; 108; 108], f') /\
    0 <= f' <= 5 /\ drop (Z.to_nat f') [104; 101; 108; 108; 111] = [111].
Proof.
  exact (read_exact_spec (Ram.read motd_inode) _ _ (Hstream := ramfs_stream motd_inode [104; 101; 108; 108; 111] eq_refl) 1 3
    ltac:(simpl; lia) ltac:(lia)).
Defined.

(** [vfs_read_to_string] refuses text whose characters straddle its
    chunks.  A ramfs file of 255 ASCII characters followed by a character of two
    bytes, whatever comes after it, is refused with [InvalidUtf8] and nothing
    is appended: the loop checks each chunk of 256 bytes on its own. *)
Theorem read_to_string_splits_char i tail fuel :
  Ram.node i = Ram.File (replicate 255 97 ++ [0xC3; 0xA9] ++ tail) ->
  vfs_read_to_string (Ram.read i) (S fuel) 0 [] = Ret (Err InvalidUtf8, [], 256).
Proof.
  intros Hn. unfold vfs_read_to_string. cbn [read_to_string_loop]. unfold Ram.read. rewrite Hn.
  set (data := replicate 255 97 ++ [0xC3; 0xA9] ++ tail).
  assert (Hl : Z.of_nat (length data) = 257 + Z.of_nat (length tail))
    by (unfold data; rewrite !length_app, length_replicate; cbn [length]; lia).
  unfold slice at 1. rewrite (proj2 (Z.leb_le _ _)), Z.leb_refl by lia. cbn [andb obind].
  rewrite take_ge by (rewrite length_drop; lia). change (drop (Z.to_nat 0) data) with data.
  rewrite Z.min_r by lia. unfold slice. rewrite (proj2 (Z.leb_le 256 _)) by lia. reflexivity.
Qed.

Lemma read_to_string_splits_char_witness :
  utf8_valid (replicate 255 97 ++ [0xC3; 0xA9] ++ [10]) = true /\
  vfs_read_to_string (Ram.read (Ram.mkInode 2 RegularFile 258 None (Ram.File (replicate 255 97 ++ [0xC3; 0xA9] ++ [10])))) 3 0 [] =
    Ret (Err InvalidUtf8, [], 256).
Proof.
  split; [vm_compute; reflexivity|].
  exact (read_to_string_splits_char (Ram.mkInode 2 RegularFile 258 None (Ram.File (replicate 255 97 ++ [0xC3; 0xA9] ++ [10])))
    [10] 2 eq_refl).
Defined.

(** ** Mounts *)
Section mount.
Context {I O : Type} {FileOps0 : FileOps I O}.

(** No lookup on the way from [i] along [parts] gives an inode of identity [k]. *)
Fixpoint avoids (st : @state I O) (i : I) (parts : list (list Z)) (k : Z) : Prop :=
  match parts with
  | [] => True
  | p :: parts =>
      match lookup_op i p with
      | Ret (Ok c) => inode_id c <> k /\ avoids st (cross_mount st c) parts k
      | _ => True
      end
  end.

Definition with_mount (m : @Mount I) (st : @state I O) (ms : list (@Mount I)) : @state I O :=
  mkState (Some (ms ++ [m])) (FILESYSTEMS st) (CHARDEVS st).

(** Some mount's mountpoint is [i]. *)
Definition covered (ms : list (@Mount I)) (i : I) : bool :=
  existsb (fun m => match mountpoint_inode m with Some mp => inode_id mp =? inode_id i | None => false end) ms.

Lemma cross_app ms m i :
  cross_list (ms ++ [m]) i = if covered ms i then cross_list ms i else cross_list [m] i.
Proof.
  induction ms as [|m' ms IH]; [done|]. cbn [app cross_list covered existsb].
  destruct (mountpoint_inode m') as [mp|]; [|exact IH]. destruct (_ =? _); [done|exact IH].
Qed.

Lemma cross_uncovered ms i : covered ms i = false -> cross_list ms i = i.
Proof.
  induction ms as [|m' ms IH]; [done|]. cbn [cross_list covered existsb].
  destruct (mountpoint_inode m') as [mp|]; [|exact IH]. destruct (_ =? _); [done|exact IH].
Qed.

Lemma cross_other ms mp path s i : inode_id i <> inode_id mp ->
  cross_list (ms ++ [mkMount (Some mp) path s]) i = cross_list ms i.
Proof.
  intros Hne. rewrite cross_app. destruct (covered ms i) eqn:E; [done|].
  cbn. rewrite (proj2 (Z.eqb_neq _ _)) by congruence. by rewrite cross_uncovered.
Qed.

Lemma cross_with m st ms i : cross_mount (with_mount m st ms) i = cross_list (ms ++ [m]) i.
Proof. done. Qed.

Lemma cross_at st ms i : MOUNTS st = Some ms -> cross_mount st i = cross_list ms i.
Proof. unfold cross_mount. by intros ->. Qed.

Lemma resolve_avoids st ms mp path s parts : MOUNTS st = Some ms -> forall i,
  avoids st i parts (inode_id mp) ->
  resolve (with_mount (mkMount (Some mp) path s) st ms) i parts = resolve st i parts.
Proof.
  intros Hms. induction parts as [|p parts IH]; intros i Ha; [done|]. cbn [resolve avoids] in *. unfold rbind.
  destruct (lookup_op i p) as [[c|]| |]; cbn [obind]; [|done..]. destruct Ha as [Hc Ha].
  rewrite cross_with, cross_other, <- (cross_at st ms) by done. by apply IH.
Qed.

Lemma resolve_app st ps qs : forall i,
  resolve st i (ps ++ qs) = let? j := resolve st i ps in resolve st j qs.
Proof.
  induction ps as [|p ps IH]; intros i; [done|]. cbn [app resolve]. unfold rbind at 1 3.
  destruct (lookup_op i p) as [[c|]| |]; cbn [obind]; [apply IH|done..].
Qed.

Lemma root_inode_with m st ms r : MOUNTS st = Some ms -> root_inode st = Ret (Ok r) ->
  root_inode (with_mount m st ms) = Ret (Ok r).
Proof. unfold root_inode. intros ->. cbn. by destruct ms. Qed.

(** The situation of a mount: the path leads through [ps] to a directory [d]
    in which [n] is the inode [c]; the file system is registered and mounts. *)
Context (st : @state I O) (ms : list (@Mount I)) (r d c : I) (ps : list (list Z)) (n path : list Z).
Context (source : option (list Z)) (fsn : list Z) (fs : @FileSystem I) (s : @SuperBlock I).
Context (Hms : MOUNTS st = Some ms) (Hr : root_inode st = Ret (Ok r)) (Hpath : components path = ps ++ [n]).
Context (Hd : resolve st r ps = Ret (Ok d)) (Hc : lookup_op d n = Ret (Ok c)).
Context (Hfs : find_filesystem st fsn = Some fs) (Hs : fs_mount fs source = Ret (Ok s)).

Lemma lookup_path : vfs_lookup st path = Ret (Ok (cross_mount st c)).
Proof.
  unfold vfs_lookup, rbind. rewrite Hr. cbn [obind]. rewrite Hpath, resolve_app. unfold rbind. rewrite Hd.
  cbn [obind resolve]. unfold rbind. by rewrite Hc.
Qed.

Lemma mount_at_ok : vfs_mount_at source path fsn st = Ret (Ok (with_mount (mkMount (Some (cross_mount st c)) path s) st ms)).
Proof.
  unfold vfs_mount_at, rbind. rewrite lookup_path. cbn [obind]. rewrite Hfs, Hs. cbn [obind]. by rewrite Hms.
Qed.

(** What is looked up after the mount. *)
Notation mounted_here := (with_mount (mkMount (Some c) path s) st ms).

Lemma mounted_inside path' rest : covered ms c = false -> avoids st r ps (inode_id c) -> components path' = ps ++ [n] ++ rest ->
  vfs_lookup mounted_here path' = resolve mounted_here (root_inode_of s) rest.
Proof.
  intros Hfree Hps E. unfold vfs_lookup, rbind at 1. rewrite (root_inode_with _ _ _ r) by done. cbn [obind].
  rewrite E, resolve_app, resolve_avoids by done. unfold rbind at 1. rewrite Hd. cbn [obind app resolve].
  unfold rbind at 1. rewrite Hc. cbn [obind]. rewrite cross_with, cross_app, Hfree. cbn. by rewrite Z.eqb_refl.
Qed.

Lemma mounted_outside path' : avoids st r (components path') (inode_id c) -> vfs_lookup mounted_here path' = vfs_lookup st path'.
Proof.
  intros Ha. unfold vfs_lookup, rbind. rewrite (root_inode_with _ _ _ r), Hr by done. cbn [obind]. by rewrite resolve_avoids.
Qed.

(** C31: mounting makes the file system appear at its path and nowhere else.
    When the path leads to an inode that is no mountpoint yet, [vfs_mount_at]
    succeeds; every path that continues it resolves from the root of the
    mounted file system; every path on which no lookup gives that inode resolves as
    before; and the mount is listed last in [mounts]. *)
Theorem vfs_mount_at_spec (Hfree : covered ms c = false) (Hps : avoids st r ps (inode_id c)) :
  exists st', vfs_mount_at source path fsn st = Ret (Ok st') /\
    (forall path' rest, components path' = ps ++ [n] ++ rest ->
       vfs_lookup st' path' = resolve st' (root_inode_of s) rest) /\
    (forall path', avoids st r (components path') (inode_id c) -> vfs_lookup st' path' = vfs_lookup st path') /\
    mounts st' = mounts st ++ [mkMountInfo (Z.of_nat (length ms)) (fs_type s) path].
Proof.
  assert (Hcr : cross_mount st c = c) by (unfold cross_mount; rewrite Hms; by apply cross_uncovered).
  eexists. split; [exact mount_at_ok|]. rewrite Hcr. split_and!.
  - intros path' rest. by apply mounted_inside.
  - apply mounted_outside.
  - unfold mounts. rewrite Hms. cbn [with_mount MOUNTS]. rewrite imap_app. cbn [imap app]. by rewrite Nat.add_0_r.
Qed.

(** a second mount at the same path is never seen.  When the path already
    leads to a mountpoint, [vfs_mount_at] returns [Ok] and lists the mount, but
    the path keeps resolving to the root of the first: the second mount covers that root,
    and [cross_mount] crosses once. *)
Theorem second_mount_hidden
    (Hcov : covered ms c = true) (Hps : avoids st r ps (inode_id (cross_mount st c))) :
  exists st', vfs_mount_at source path fsn st = Ret (Ok st') /\
    mounts st' = mounts st ++ [mkMountInfo (Z.of_nat (length ms)) (fs_type s) path] /\
    vfs_lookup st' path = Ret (Ok (cross_mount st c)).
Proof.
  eexists. split; [exact mount_at_ok|]. split.
  - unfold mounts. rewrite Hms. cbn [with_mount MOUNTS]. rewrite imap_app. cbn [imap app]. by rewrite Nat.add_0_r.
  - unfold vfs_lookup, rbind at 1. rewrite (root_inode_with _ _ _ r) by done. cbn [obind].
    rewrite Hpath, resolve_app, resolve_avoids by done. unfold rbind at 1. rewrite Hd. cbn [obind resolve].
    unfold rbind. rewrite Hc. cbn [obind]. by rewrite cross_with, cross_app, Hcov, (cross_at st ms).
Qed.
End mount.

(** ** Two RAM file systems

    An inode is a file system and an [Arc] of it; all the operations are those of
    ramfs. *)
Definition two_ramfs (A B : Ram.Ramfs) : FileOps (bool * Z) unit :=
  let fs_of (i : bool * Z) := if i.1 then B else A in
  let inode_of (i : bool * Z) := default (Ram.make_dir_inode 0) (Ram.store (fs_of i) !! i.2) in
  {| inode_id := fun i : bool * Z => 2 * i.2 + (if i.1 then 1 else 0);
     file_type := fun i => Ram.file_type (inode_of i);
     rdev := fun i => Ram.rdev (inode_of i);
     fops := fun _ => tt;
     lookup_op := fun (i : bool * Z) n => let? c := Ram.lookup (fs_of i) i.2 n in Ret (Ok (i.1, c));
     open_op := fun o i => Ret (Ok (o, i));
     readdir_op := fun _ (i : bool * Z) => Ram.readdir (fs_of i) i.2 |}.

Definition fs_mnt : Ram.Ramfs := match Ram.insert_dir (lit "mnt") Ram.new with Ret (_, fs) => fs | _ => Ram.new end.
Definition sb_a : SuperBlock (I := bool * Z) := mkSuperBlock (false, 1) (lit "ramfs").
Definition sb_b : SuperBlock (I := bool * Z) := mkSuperBlock (true, 1) (lit "ramfs").
Definition fs_b : FileSystem (I := bool * Z) := mkFileSystem (lit "ramfs") true (fun _ => Ret (Ok sb_b)).
Definition booted : state (I := bool * Z) (O := unit) :=
  register_filesystem fs_b (init sb_a (mkState None None None)).

Lemma vfs_mount_at_spec_witness :
  exists st', vfs_mount_at (FileOps0 := two_ramfs fs_mnt Ram.fs_a) None (lit "/mnt") (lit "ramfs") booted = Ret (Ok st') /\
    vfs_lookup (FileOps0 := two_ramfs fs_mnt Ram.fs_a) st' (lit "/mnt/a") = Ret (Ok (true, 2)).
Proof.
  destruct (vfs_mount_at_spec (FileOps0 := two_ramfs fs_mnt Ram.fs_a) booted [mkMount None [47] sb_a] (false, 1) (false, 1)
    (false, 2) [] (lit "mnt") (lit "/mnt") None (lit "ramfs") fs_b sb_b) as (st' & E & Hin & _);
    [vm_compute; reflexivity..|exact Logic.I|].
  exists st'. split; [exact E|]. rewrite (Hin (lit "/mnt/a") [lit "a"]) by (vm_compute; reflexivity).
  injection E as <-. vm_compute. reflexivity.
Defined.

(** [/mnt] with the second file system on it. *)
Definition mounted : state (I := bool * Z) (O := unit) :=
  with_mount (mkMount (Some (false, 2)) (lit "/mnt") sb_b) booted [mkMount None [47] sb_a].

Lemma second_mount_hidden_witness :
  vfs_mount_at (FileOps0 := two_ramfs fs_mnt Ram.fs_a) None (lit "/mnt") (lit "ramfs") booted = Ret (Ok mounted) /\
  exists st', vfs_mount_at (FileOps0 := two_ramfs fs_mnt Ram.fs_a) None (lit "/mnt") (lit "ramfs") mounted = Ret (Ok st') /\
    length (mounts st') = 3%nat /\
    vfs_lookup (FileOps0 := two_ramfs fs_mnt Ram.fs_a) st' (lit "/mnt") = Ret (Ok (true, 1)).
Proof.
  split; [vm_compute; reflexivity|].
  destruct (second_mount_hidden (FileOps0 := two_ramfs fs_mnt Ram.fs_a) mounted
    [mkMount None [47] sb_a; mkMount (Some (false, 2)) (lit "/mnt") sb_b] (false, 1) (false, 1)
    (false, 2) [] (lit "mnt") (lit "/mnt") None (lit "ramfs") fs_b sb_b) as (st' & E & Hm & Hl);
    [vm_compute; reflexivity..|exact Logic.I|].
  exists st'. split; [exact E|]. split; [by rewrite Hm|exact Hl].
Defined.

End Vfs.
