(* ===== verification/Procfs.v ===== *)
(** * The /proc file system and the device registries

    Models [src/src/fs/procfs.rs], the synthetic file system whose files are
    generated when they are opened, and [src/src/dev/block.rs], the registry of
    block devices it lists (the registry of character devices is in [Vfs]).
    Text is bytes; [dec] and [dec3] are the formats [{}] and [{:3}] of an
    unsigned integer. *)

From S2P Require Import Prelude Bytes File Ramfs Vfs.

Module Procfs.
Import Fl.

(** ** Formatting *)
Fixpoint dec_loop (fuel : nat) (n : Z) (acc : list Z) : list Z :=
  match fuel with
  | O => acc
  | S fuel =>
      let acc := (48 + n mod 10) :: acc in
      if n <? 10 then acc else dec_loop fuel (n / 10) acc
  end.

(** A [usize] has at most 20 digits. *)
Definition dec (n : Z) : list Z := dec_loop 20 n [].

Definition dec3 (n : Z) : list Z := replicate (3 - length (dec n)) 32 ++ dec n.

(** ** Block devices: a [BTreeMap] from numbers to name and volume *)
Section registry.
Context {V : Type}.

Record BlkdevEntry := mkBlkdevEntry { bd_name : list Z; volume : V }.

Definition blkdev_register (major minor : Z) (name : list Z) (v : V) (devs : gmap (Z * Z) BlkdevEntry)
    : gmap (Z * Z) BlkdevEntry := <[(major, minor) := mkBlkdevEntry name v]> devs.

Definition blkdev_get (devs : gmap (Z * Z) BlkdevEntry) (major minor : Z) : option V :=
  volume <$> devs !! (major, minor).
End registry.

(** Iteration of a [BTreeMap] is in the order of its keys. *)
Definition key_le {A} (x y : (Z * Z) * A) : Prop :=
  x.1.1 < y.1.1 \/ (x.1.1 = y.1.1 /\ x.1.2 <= y.1.2).

#[global] Instance key_le_dec {A} (x y : (Z * Z) * A) : Decision (key_le x y).
Proof. unfold key_le. apply _. Defined.

Definition in_order {A} (m : gmap (Z * Z) A) : list ((Z * Z) * A) := merge_sort key_le (map_to_list m).

(** [chrdev_for_each], [blkdev_for_each]: what they hand to the closure. *)
Definition chrdev_for_each {I O} (st : @Vfs.state I O) : list (Z * Z * list Z) :=
  match Vfs.CHARDEVS st with
  | None => []
  | Some devs => map (fun '(k, e) => (k.1, k.2, Vfs.cd_name e)) (in_order devs)
  end.

Definition blkdev_for_each {V} (devs : gmap (Z * Z) (@BlkdevEntry V)) : list (Z * Z * list Z) :=
  map (fun '(k, e) => (k.1, k.2, bd_name e)) (in_order devs).

Section procfs.
Context {I O V : Type}.

(** What the generators read: the globals of the VFS and the registry of block
    devices. *)
Record kernel := mkKernel { vfs : @Vfs.state I O; BLOCKDEVS : gmap (Z * Z) (@BlkdevEntry V) }.

Inductive ProcContent :=
| Static (bytes : list Z)
| Dynamic (gen : kernel -> list Z).

Record ProcEntry := mkProcEntry { pe_name : list Z; content : ProcContent }.

Definition device_line (d : Z * Z * list Z) : list Z :=
  let '(major, minor, name) := d in
  dec3 major ++ [32] ++ name ++ lit " (" ++ dec major ++ [58] ++ dec minor ++ [41; 10].

Definition gen_devices (k : kernel) : list Z :=
  lit "Character devices:" ++ [10] ++ concat (map device_line (chrdev_for_each (vfs k))) ++
  [10] ++ lit "Block devices:" ++ [10] ++ concat (map device_line (blkdev_for_each (BLOCKDEVS k))).

Definition gen_filesystems (k : kernel) : list Z :=
  concat (map (fun fs => (if Vfs.nodev fs then lit "nodev" ++ [9] else [9]) ++ Vfs.fs_name fs ++ [10])
            (Vfs.filesystems (vfs k))).

Definition gen_mounts (k : kernel) : list Z :=
  concat (map (fun m => Vfs.mi_fs_type m ++ [32] ++ Vfs.mi_mountpoint m ++ [32] ++ dec (Vfs.mi_id m) ++ [10])
            (Vfs.mounts (vfs k))).

Definition ENTRIES : list ProcEntry :=
  [ mkProcEntry (lit "devices") (Dynamic gen_devices);
    mkProcEntry (lit "filesystems") (Dynamic gen_filesystems);
    mkProcEntry (lit "mounts") (Dynamic gen_mounts);
    mkProcEntry (lit "version") (Static (lit "Nano OS 0.1.0 (riscv64)" ++ [10])) ].

(** ** Inodes: the two kinds of node, and the data of an open file *)
Inductive fs_data :=
| Dir
| File (entry : ProcEntry)
| FileData (data : list Z).

Record Inode := mkInode { ino : Z; file_type : FileType; len : Z; data : fs_data }.

Definition root : Inode := mkInode 1 Directory 0 Dir.

(** [downcast_ref::<ProcfsNode>().unwrap()] panics for the data of an open
    file. *)
Definition lookup (i : Inode) (name : list Z) : outcome (result Inode Error) :=
  match data i with
  | Dir =>
      match list_find (fun e => pe_name e = name) ENTRIES with
      | None => Ret (Err NotFound)
      | Some (idx, entry) => Ret (Ok (mkInode (Z.of_nat idx + 2) RegularFile 0 (File entry)))
      end
  | File _ => Ret (Err NotADirectory)
  | FileData _ => Panic
  end.

Definition readdir (i : Inode) : outcome (result (list DirEntry) Error) :=
  match data i with
  | Dir => Ret (Ok (map (fun e => mkDirEntry (pe_name e) RegularFile) ENTRIES))
  | File _ => Ret (Err NotADirectory)
  | FileData _ => Panic
  end.

Definition generate (c : ProcContent) (k : kernel) : list Z :=
  match c with Static bytes => bytes | Dynamic gen => gen k end.

Definition open (k : kernel) (i : Inode) : outcome (result Inode Error) :=
  match data i with
  | File entry =>
      let d := generate (content entry) k in
      Ret (Ok (mkInode (ino i) RegularFile (Z.of_nat (length d)) (FileData d)))
  | Dir | FileData _ => Ret (Err InvalidInput)
  end.

Definition read (i : Inode) (offset size : Z) : outcome (result (list Z) Error * Z) :=
  match data i with
  | FileData d =>
      let! remaining := slice d offset (Z.of_nat (length d)) in
      let n := Z.min (Z.of_nat (length remaining)) size in
      let! chunk := slice remaining 0 n in
      Ret (Ok chunk, offset + n)
  | _ => Ret (Err InvalidInput, offset)
  end.

(** ** Reading a file of /proc *)
Lemma file_stream i d (Hd : data i = FileData d) :
  Vfs.Stream (read i) (fun off => 0 <= off <= Z.of_nat (length d)) (fun off => drop (Z.to_nat off) d).
Proof.
  intros off n Hoff Hn. unfold read. rewrite Hd. by apply Vfs.prefix_read.
Qed.

(** what /proc lists can be read, and reads as what it was generated from.
    For every name [readdir] lists, [lookup] finds an inode, opening it gives a
    file as long as the text generated from the state of the kernel at that
    moment, and reading it to that length returns exactly this text. *)
Theorem proc_file_content k e :
  e ∈ ENTRIES ->
  exists i f, lookup root (pe_name e) = Ret (Ok i) /\ open k i = Ret (Ok f) /\
    len f = Z.of_nat (length (generate (content e) k)) /\
    exists off, Vfs.vfs_read_exact (read f) 0 (len f) = Ret (Ok (generate (content e) k), off).
Proof.
  intros He.
  assert (exists n, lookup root (pe_name e) = Ret (Ok (mkInode n RegularFile 0 (File e)))) as (n & Hl).
  { unfold ENTRIES in He. repeat (apply elem_of_cons in He as [->|He]; [by eexists|]). by apply elem_of_nil in He. }
  set (d := generate (content e) k). set (f := mkInode n RegularFile (Z.of_nat (length d)) (FileData d)).
  exists (mkInode n RegularFile 0 (File e)), f. split_and!; [done|done|done|].
  pose proof (Vfs.read_exact_loop_ok (read f) _ _ (Hstream := file_stream f d eq_refl) (S (length d)) 0 (len f) []) as H.
  cbn [len f] in H. specialize (H ltac:(lia) ltac:(lia)). change (drop (Z.to_nat 0) d) with d in H.
  rewrite Z.leb_refl, Nat2Z.id, take_ge in H by lia. destruct H as (off & E & _). exists off.
  unfold Vfs.vfs_read_exact. cbn [len f]. by rewrite Nat2Z.id.
Qed.
End procfs.

(** ** The text of /proc/mounts determines the mount table *)
Definition undec (l : list Z) : Z := foldl (fun n c => 10 * n + (c - 48)) 0 l.

Lemma undec_acc l : forall n, foldl (fun n c => 10 * n + (c - 48)) n l = n * 10 ^ Z.of_nat (length l) + undec l.
Proof.
  unfold undec. induction l as [|c l IH]; intros n; [cbn; lia|]. cbn [foldl length].
  rewrite IH, (IH (10 * 0 + (c - 48))), Nat2Z.inj_succ, Z.pow_succ_r by lia. lia.
Qed.

Lemma undec_dec_loop fuel : forall n acc, 0 <= n < 10 ^ Z.of_nat fuel -> (0 < fuel)%nat ->
  undec (dec_loop fuel n acc) = n * 10 ^ Z.of_nat (length acc) + undec acc.
Proof.
  induction fuel as [|fuel IH]; intros n acc Hn Hf; [lia|]. cbn [dec_loop].
  assert (Hs : undec (48 + n mod 10 :: acc) = n mod 10 * 10 ^ Z.of_nat (length acc) + undec acc).
  { unfold undec at 1. cbn [foldl]. rewrite undec_acc. f_equal. f_equal. lia. }
  destruct (Z.ltb_spec n 10).
  - rewrite Hs. rewrite Z.mod_small by lia. done.
  - rewrite Nat2Z.inj_succ, Z.pow_succ_r in Hn by lia.
    destruct fuel as [|fuel]; [change (10 ^ Z.of_nat 0) with 1 in Hn; lia|].
    rewrite IH, Hs by lia. cbn [length]. rewrite Nat2Z.inj_succ, Z.pow_succ_r by lia. 
    set (p := 10 ^ Z.of_nat (length acc)). clearbody p. rewrite (Z.div_mod n 10) at 3 by lia. lia.
Qed.

Lemma undec_dec n : 0 <= n < USIZE -> undec (dec n) = n.
Proof.
  intros Hn. unfold dec. rewrite undec_dec_loop; [cbn; lia| |lia].
  change (10 ^ Z.of_nat 20) with 100000000000000000000. unfold USIZE in Hn. lia.
Qed.

Lemma dec_digits fuel : forall n acc, 0 <= n -> Forall (fun c => 48 <= c <= 57) acc ->
  Forall (fun c => 48 <= c <= 57) (dec_loop fuel n acc).
Proof.
  induction fuel as [|fuel IH]; intros n acc Hn Ha; [done|]. cbn [dec_loop].
  assert (Forall (fun c => 48 <= c <= 57) (48 + n mod 10 :: acc)) by (constructor; [lia|done]).
  destruct (n <? 10); [done|]. apply IH; [lia|done].
Qed.

Lemma split_on_app c l1 l2 : c ∉ l1 -> split_on c (l1 ++ c :: l2) = l1 :: split_on c l2.
Proof.
  induction l1 as [|x l1 IH]; intros Hc; cbn [app split_on].
  - by rewrite Z.eqb_refl.
  - apply not_elem_of_cons in Hc as [Hx Hc]. rewrite (proj2 (Z.eqb_neq _ _)) by congruence. by rewrite IH.
Qed.

Lemma split_on_none c l : c ∉ l -> split_on c l = [l].
Proof.
  induction l as [|x l IH]; intros Hc; cbn [split_on]; [done|].
  apply not_elem_of_cons in Hc as [Hx Hc]. rewrite (proj2 (Z.eqb_neq _ _)) by congruence. by rewrite IH.
Qed.

(** A reader of /proc/mounts. *)
Definition parse_line (l : list Z) : option (list Z * list Z * Z) :=
  match split_on 32 l with [t; p; n] => Some (t, p, undec n) | _ => None end.

Definition parse_mounts (text : list Z) : list (list Z * list Z * Z) := omap parse_line (split_on 10 text).

Definition plain (l : list Z) : Prop := 32 ∉ l /\ 10 ∉ l.

Lemma dec_plain n : 0 <= n -> plain (dec n).
Proof.
  intros Hn. pose proof (dec_digits 20 n [] Hn ltac:(done)) as Hd. rewrite Forall_forall in Hd.
  split; intros Hc; apply Hd in Hc; lia.
Qed.

Lemma parse_mount_lines ms : Forall (fun m => plain (Vfs.mi_fs_type m) /\ plain (Vfs.mi_mountpoint m) /\ 0 <= Vfs.mi_id m < USIZE) ms ->
  parse_mounts (concat (map (fun m => Vfs.mi_fs_type m ++ [32] ++ Vfs.mi_mountpoint m ++ [32] ++ dec (Vfs.mi_id m) ++ [10]) ms)) =
  map (fun m => (Vfs.mi_fs_type m, Vfs.mi_mountpoint m, Vfs.mi_id m)) ms.
Proof.
  unfold parse_mounts. induction 1 as [|m ms ([Ht1 Ht2] & [Hp1 Hp2] & Hi) _ IH]; [done|]. cbn [map concat].
  destruct (dec_plain (Vfs.mi_id m) ltac:(lia)) as [Hd1 Hd2].
  rewrite <- !app_assoc. cbn [app].
  set (rest := concat _) in *.
  replace (Vfs.mi_fs_type m ++ 32 :: Vfs.mi_mountpoint m ++ 32 :: dec (Vfs.mi_id m) ++ 10 :: rest)
    with ((Vfs.mi_fs_type m ++ 32 :: Vfs.mi_mountpoint m ++ 32 :: dec (Vfs.mi_id m)) ++ 10 :: rest)
    by (rewrite <- !app_assoc; cbn [app]; by rewrite <- app_assoc).
  rewrite split_on_app by (rewrite !elem_of_app, !elem_of_cons, !elem_of_app, !elem_of_cons; intuition (done || lia)).
  cbn [omap list_omap]. unfold parse_line at 1.
  rewrite split_on_app, split_on_app, split_on_none, undec_dec by done. by rewrite IH.
Qed.

Lemma mounts_id {I O} (st : @Vfs.state I O) m : m ∈ Vfs.mounts st -> 0 <= Vfs.mi_id m < Z.of_nat (length (Vfs.mounts st)).
Proof.
  unfold Vfs.mounts. destruct (Vfs.MOUNTS st) as [ms|]; [|by intros ?%elem_of_nil].
  rewrite length_imap, elem_of_lookup_imap. intros (i & x & -> & Hx). apply lookup_lt_Some in Hx. simpl. lia.
Qed.

(** /proc/mounts tells the mount table.  As long as the names of file
    system types and mountpoints hold no space and no line end, splitting the
    generated text into lines and fields gives back the type, the mountpoint and
    the number of every mount, in the order of the table. *)
Theorem gen_mounts_roundtrip {I O V} (k : @kernel I O V) :
  Forall (fun m => plain (Vfs.mi_fs_type m) /\ plain (Vfs.mi_mountpoint m)) (Vfs.mounts (vfs k)) ->
  Z.of_nat (length (Vfs.mounts (vfs k))) < USIZE ->
  parse_mounts (gen_mounts k) =
    map (fun m => (Vfs.mi_fs_type m, Vfs.mi_mountpoint m, Vfs.mi_id m)) (Vfs.mounts (vfs k)).
Proof.
  intros Hp Hl. apply parse_mount_lines. rewrite Forall_forall in *. intros m Hm.
  pose proof (mounts_id _ m Hm). destruct (Hp m Hm). split_and!; [done|done|lia..].
Qed.

(** A kernel with two mounts. *)
Definition demo_kernel : @kernel (bool * Z) unit unit := mkKernel Vfs.mounted ∅.

Lemma proc_file_content_witness :
  exists i f off, lookup (root (I := bool * Z) (O := unit) (V := unit)) (lit "mounts") = Ret (Ok i) /\
    open demo_kernel i = Ret (Ok f) /\
    Vfs.vfs_read_exact (read f) 0 (len f) = Ret (Ok (lit "ramfs / 0" ++ [10] ++ lit "ramfs /mnt 1" ++ [10]), off).
Proof.
  destruct (proc_file_content demo_kernel (mkProcEntry (lit "mounts") (Dynamic gen_mounts))) as (i & f & Hl & Ho & _ & off & Hr).
  - unfold ENTRIES. apply elem_of_cons. right. apply elem_of_cons. right. apply elem_of_cons. by left.
  - exists i, f, off. split; [exact Hl|]. split; [exact Ho|]. rewrite Hr. f_equal.
Defined.

Lemma gen_mounts_roundtrip_witness :
  parse_mounts (gen_mounts demo_kernel) = [(lit "ramfs", lit "/", 0); (lit "ramfs", lit "/mnt", 1)].
Proof.
  rewrite (gen_mounts_roundtrip demo_kernel); [reflexivity| |vm_compute; reflexivity].
  repeat constructor; rewrite list_elem_of_In; vm_compute; intuition discriminate.
Defined.

End Procfs.
