(* ===== verification/Uaccess.v ===== *)
(** * Access to user memory

    Models [src/src/syscall/uaccess.rs]: the page-wise copies between kernel
    buffers and user addresses, and the scan for a C string.  The reference
    definitions [store_bytes] and [load_bytes] translate every byte's address on
    its own; the theorems say that copying by pages is the same, whatever the
    alignment and wherever a page is missing. *)

From S2P Require Import Prelude Bytes Memory PageAllocator PageMapper UserMem.

Module Ua.
Import Pte Mapper UMem.

Definition PAGE_SIZE : Z := Mem.PAGE_SIZE.

(** The [while] loop of [copy_out]; each turn copies at least a byte, and
    [Fault] is only for [fuel] running out. *)
Fixpoint copy_out_loop (fuel : nat) (m : memory) (root user_ptr : Z) (remaining : list Z)
    : outcome (result unit unit * memory) :=
  match remaining with
  | [] => Ret (Ok tt, m)
  | _ =>
      match fuel with
      | O => Fault
      | S fuel =>
          let page_offset := Z.land user_ptr (PAGE_SIZE - 1) in
          let chunk_size := Z.min (Z.of_nat (length remaining)) (PAGE_SIZE - page_offset) in
          match virt_to_phys m root user_ptr with
          | None => Ret (Err tt, m)
          | Some phys_addr =>
              let m := write_bytes m phys_addr (take (Z.to_nat chunk_size) remaining) in
              let! user_ptr := uadd user_ptr chunk_size in
              copy_out_loop fuel m root user_ptr (drop (Z.to_nat chunk_size) remaining)
          end
      end
  end.

Definition copy_out (m : memory) (root user_addr : Z) (data : list Z) : outcome (result unit unit * memory) :=
  copy_out_loop (length data) m root user_addr data.

(** [copy_in] into a buffer of [size] bytes: [acc] is what is filled already. *)
Fixpoint copy_in_loop (fuel : nat) (m : memory) (root user_ptr size : Z) (acc : list Z)
    : outcome (result (list Z) unit) :=
  let offset := Z.of_nat (length acc) in
  if offset <? size then
    match fuel with
    | O => Fault
    | S fuel =>
        let page_offset := Z.land user_ptr (PAGE_SIZE - 1) in
        let chunk_size := Z.min (size - offset) (PAGE_SIZE - page_offset) in
        match virt_to_phys m root user_ptr with
        | None => Ret (Err tt)
        | Some phys_addr =>
            let chunk := read_bytes m phys_addr (Z.to_nat chunk_size) in
            let! user_ptr := uadd user_ptr chunk_size in
            copy_in_loop fuel m root user_ptr size (acc ++ chunk)
        end
    end
  else Ret (Ok acc).

Definition copy_in (m : memory) (root user_addr size : Z) : outcome (result (list Z) unit) :=
  copy_in_loop (Z.to_nat size) m root user_addr size [].

(** [chunk.iter().position(|&b| b == 0)] *)
Fixpoint null_pos (l : list Z) : option nat :=
  match l with
  | [] => None
  | b :: l => if b =? 0 then Some 0%nat else S <$> null_pos l
  end.

Fixpoint copy_in_str_loop (fuel : nat) (m : memory) (root user_ptr max_len scanned : Z) (acc : list Z)
    : outcome (result (list Z) unit) :=
  if scanned <? max_len then
    match fuel with
    | O => Fault
    | S fuel =>
        let page_offset := Z.land user_ptr (PAGE_SIZE - 1) in
        let chunk_size := Z.min (max_len - scanned) (PAGE_SIZE - page_offset) in
        match virt_to_phys m root user_ptr with
        | None => Ret (Err tt)
        | Some phys_addr =>
            let chunk := read_bytes m phys_addr (Z.to_nat chunk_size) in
            match null_pos chunk with
            | Some k => if utf8_valid (take k chunk) then Ret (Ok (acc ++ take k chunk)) else Ret (Err tt)
            | None =>
                if utf8_valid chunk then
                  let! user_ptr := uadd user_ptr chunk_size in
                  let! scanned := uadd scanned chunk_size in
                  copy_in_str_loop fuel m root user_ptr max_len scanned (acc ++ chunk)
                else Ret (Err tt)
            end
        end
    end
  else Ret (Err tt).

Definition copy_in_str (m : memory) (root user_addr max_len : Z) : outcome (result (list Z) unit) :=
  copy_in_str_loop (Z.to_nat max_len) m root user_addr max_len 0 [].

(** ** Byte by byte *)
Fixpoint store_bytes (m : memory) (root v : Z) (data : list Z) : result unit unit * memory :=
  match data with
  | [] => (Ok tt, m)
  | x :: data =>
      match virt_to_phys m root v with
      | None => (Err tt, m)
      | Some p => store_bytes (bput m p x) root (v + 1) data
      end
  end.

Fixpoint load_bytes (m : memory) (root v : Z) (n : nat) : result (list Z) unit :=
  match n with
  | O => Ok []
  | S n =>
      match virt_to_phys m root v with
      | None => Err tt
      | Some p => match load_bytes m root (v + 1) n with Ok l => Ok (bget m p :: l) | Err e => Err e end
      end
  end.

(** ** Translation inside a page *)
Lemma join_mask a v c : 0 <= c ->
  Z.lor (andn a (2 ^ c - 1)) (Z.land v (2 ^ c - 1)) = a / 2 ^ c * 2 ^ c + v mod 2 ^ c.
Proof.
  intros Hc. rewrite andn_ones by done. replace (2 ^ c - 1) with (Z.ones c) by (rewrite Z.ones_equiv; lia).
  assert (Hz : Z.land (a / 2 ^ c * 2 ^ c) (Z.land v (Z.ones c)) = 0).
  { rewrite (Z.land_comm v), Z.land_assoc, Z.land_ones by done. rewrite Z.mod_mul; [apply Z.land_0_l|].
    pose proof (pow2_pos c Hc). lia. }
  rewrite <- Z.lxor_lor, <- Z.add_nocarry_lxor by done. by rewrite Z.land_ones.
Qed.

Lemma v2p_eq m root v : virt_to_phys m root v =
  match leaf m root (vpns v) with
  | Some (e, n) => let c := match n with 2%nat => 14 | 1%nat => 21 | _ => 12 end in
                   Some (pte_addr e / 2 ^ c * 2 ^ c + v mod 2 ^ c)
  | None => None
  end.
Proof.
  rewrite virt_to_phys_leaf. destruct (leaf m root (vpns v)) as [[e n]|]; [|done]. cbn zeta. f_equal.
  destruct n as [|[|[|n]]]; [apply (join_mask (pte_addr e) v 12)|apply (join_mask (pte_addr e) v 21)|
    apply (join_mask (pte_addr e) v 14)|apply (join_mask (pte_addr e) v 12)]; done.
Qed.

(** Inside a page translation is a shift. *)
Lemma v2p_shift m root v k : 0 <= k -> v mod 4096 + k < 4096 ->
  virt_to_phys m root (v + k) = (fun p => p + k) <$> virt_to_phys m root v.
Proof.
  intros Hk Hin. rewrite !v2p_eq. assert (E : vpns (v + k) = vpns v).
  { apply vpns_eq. f_equal. lia. }
  rewrite E. destruct (leaf m root (vpns v)) as [[e n]|]; [|done]. cbn. f_equal.
  destruct n as [|[|[|n]]]; [change (2 ^ 12) with 4096|change (2 ^ 21) with 2097152|change (2 ^ 14) with 16384|change (2 ^ 12) with 4096]; lia.
Qed.

Lemma v2p_offset m root v p : virt_to_phys m root v = Some p -> p mod 4096 = v mod 4096.
Proof.
  rewrite v2p_eq. destruct (leaf m root (vpns v)) as [[e n]|]; [|done]. cbn. intros [= <-].
  destruct n as [|[|[|n]]]; [change (2 ^ 12) with 4096|change (2 ^ 21) with 2097152|change (2 ^ 14) with 16384|change (2 ^ 12) with 4096]; lia.
Qed.

Lemma page_offset v : Z.land v (PAGE_SIZE - 1) = v mod 4096.
Proof. change (PAGE_SIZE - 1) with (Z.ones 12). by rewrite Z.land_ones by lia. Qed.

(** ** Copying by pages *)

(** No byte of the range is in a page table. *)
Definition apart (m : memory) (root v : Z) (n : nat) : Prop :=
  forall i p, (i < n)%nat -> virt_to_phys m root (v + Z.of_nat i) = Some p -> ~ is_table m root (page p).

Lemma apart_step m root v n k m' : 
  (forall f, is_table m' root f <-> is_table m root f) -> (forall w, virt_to_phys m' root w = virt_to_phys m root w) ->
  (k <= n)%nat -> apart m root v n -> apart m' root (v + Z.of_nat k) (n - k).
Proof.
  intros Ht Hv Hk Ha i p Hi. rewrite Hv, Ht. replace (v + Z.of_nat k + Z.of_nat i) with (v + Z.of_nat (k + i)) by lia.
  apply Ha. lia.
Qed.

Lemma store_chunk root free l : forall m v p r,
  wf m root free -> virt_to_phys m root v = Some p -> ~ is_table m root (page p) ->
  v mod 4096 + Z.of_nat (length l) <= 4096 ->
  store_bytes m root v (l ++ r) = store_bytes (write_bytes m p l) root (v + Z.of_nat (length l)) r /\
  wf (write_bytes m p l) root free /\ (forall f, is_table (write_bytes m p l) root f <-> is_table m root f) /\
  (forall w, virt_to_phys (write_bytes m p l) root w = virt_to_phys m root w).
Proof.
  induction l as [|x l IH]; intros m v p r Hwf Hv Hp Hin; cbn [app store_bytes write_bytes length] in *.
  { rewrite Z.add_0_r. done. }
  rewrite Hv. destruct (bput_apart m root free p x Hwf Hp) as (Hwf1 & Ht1 & Hv1).
  destruct l as [|y l].
  { cbn [app write_bytes length]. split_and!; done. }
  cbn [length] in Hin. pose proof (v2p_offset _ _ _ _ Hv) as Hoff.
  destruct (IH (bput m p x) (v + 1) (p + 1) r Hwf1) as (E & Hwf2 & Ht2 & Hv2).
  - rewrite Hv1, v2p_shift, Hv by lia. done.
  - rewrite Ht1. replace (page (p + 1)) with (page p); [done|]. unfold page. lia.
  - cbn [length]. lia.
  - rewrite E. split_and!; [f_equal; cbn [length]; lia|done|..].
    + intros f. by rewrite Ht2.
    + intros w. by rewrite Hv2.
Qed.

Lemma copy_out_loop_ok root free : forall fuel data m v,
  wf m root free -> apart m root v (length data) -> 0 <= v -> v + Z.of_nat (length data) < USIZE ->
  (length data <= fuel)%nat -> copy_out_loop fuel m root v data = Ret (store_bytes m root v data).
Proof.
  induction fuel as [|fuel IH]; intros data m v Hwf Ha Hv0 Hv1 Hf.
  { destruct data; [done|cbn [length] in Hf; lia]. }
  destruct data as [|x data]; [done|]. cbn [copy_out_loop]. rewrite page_offset.
  set (n := Z.min _ _). set (d := x :: data) in *.
  assert (Hd : (0 < length d)%nat) by (unfold d; cbn [length]; lia).
  assert (Hn : 0 < n <= Z.of_nat (length d) /\ v mod 4096 + n <= 4096) by (unfold n, PAGE_SIZE, Mem.PAGE_SIZE; lia).
  destruct (virt_to_phys m root v) as [p|] eqn:E.
  2: { unfold d. cbn [store_bytes]. by rewrite E. }
  assert (Hl : length (take (Z.to_nat n) d) = Z.to_nat n) by (rewrite length_take; lia).
  destruct (store_chunk root free (take (Z.to_nat n) d) m v p (drop (Z.to_nat n) d) Hwf E) as (Es & Hwf1 & Ht1 & Hv2).
  { apply (Ha 0%nat); [done|]. by rewrite Z.add_0_r. }
  { rewrite Hl. lia. }
  rewrite take_drop, Hl in Es. rewrite Es. rewrite uadd_ok by lia. cbn [obind].
  replace (v + n) with (v + Z.of_nat (Z.to_nat n)) by lia.
  apply IH; [done| |lia|rewrite length_drop; lia|rewrite length_drop; lia].
  rewrite length_drop. apply (apart_step m); [done|done|lia|done].
Qed.

(** C26: [copy_out] is a copy byte by byte.  For any buffer, address and
    alignment, as long as the range does not end past the address space and
    touches no page table, the page-wise loop returns what translating and
    storing every byte on its own returns: the same result, the same memory,
    and on a missing page an error with the same bytes stored before it. *)
Theorem copy_out_equiv m root free user_addr data
  (Hwf : wf m root free) (Ha : apart m root user_addr (length data))
  (Hv : 0 <= user_addr) (Hend : user_addr + Z.of_nat (length data) < USIZE) :
  copy_out m root user_addr data = Ret (store_bytes m root user_addr data).
Proof. by apply (copy_out_loop_ok root free). Qed.

Lemma load_chunk m root n : forall v p k,
  virt_to_phys m root v = Some p -> v mod 4096 + Z.of_nat n <= 4096 ->
  load_bytes m root v (n + k) =
    match load_bytes m root (v + Z.of_nat n) k with Ok l => Ok (read_bytes m p n ++ l) | Err e => Err e end.
Proof.
  induction n as [|n IH]; intros v p k Hv Hin; cbn [Nat.add load_bytes read_bytes].
  { rewrite Z.add_0_r. by destruct (load_bytes m root v k). }
  rewrite Hv. destruct n as [|n].
  { change (Z.of_nat 1) with 1. cbn [Nat.add read_bytes app]. done. }
  rewrite (IH (v + 1) (p + 1)); [|rewrite v2p_shift, Hv by lia; done|lia].
  replace (v + 1 + Z.of_nat (S n)) with (v + Z.of_nat (S (S n))) by lia. by destruct (load_bytes m root (v + Z.of_nat (S (S n))) k).
Qed.

Lemma copy_in_loop_ok m root size : forall fuel v acc,
  0 <= v -> Z.of_nat (length acc) <= size -> v + (size - Z.of_nat (length acc)) < USIZE ->
  size - Z.of_nat (length acc) <= Z.of_nat fuel ->
  copy_in_loop fuel m root v size acc =
    Ret match load_bytes m root v (Z.to_nat (size - Z.of_nat (length acc))) with Ok l => Ok (acc ++ l) | Err e => Err e end.
Proof.
  induction fuel as [|fuel IH]; intros v acc Hv0 Hacc Hv1 Hf; cbn [copy_in_loop].
  { rewrite (proj2 (Z.ltb_ge _ _)) by lia. replace (Z.to_nat _) with 0%nat by lia. cbn [load_bytes]. by rewrite app_nil_r. }
  destruct (Z.ltb_spec (Z.of_nat (length acc)) size).
  2: { replace (Z.to_nat _) with 0%nat by lia. cbn [load_bytes]. by rewrite app_nil_r. }
  rewrite page_offset. set (n := Z.min _ _).
  assert (Hn : 0 < n <= size - Z.of_nat (length acc) /\ v mod 4096 + n <= 4096) by (unfold n, PAGE_SIZE, Mem.PAGE_SIZE; lia).
  replace (Z.to_nat (size - Z.of_nat (length acc)))
    with (Z.to_nat n + Z.to_nat (size - Z.of_nat (length acc) - n))%nat by lia.
  destruct (virt_to_phys m root v) as [p|] eqn:E.
  2: { destruct (Z.to_nat n) eqn:En; [lia|]. cbn [Nat.add load_bytes]. by rewrite E. }
  rewrite (load_chunk m root (Z.to_nat n) v p) by (done || lia). rewrite uadd_ok by lia. cbn [obind].
  rewrite IH; rewrite ?length_app, ?read_bytes_len; try lia.
  replace (v + Z.of_nat (Z.to_nat n)) with (v + n) by lia.
  replace (Z.to_nat (size - Z.of_nat (length acc + Z.to_nat n))) with (Z.to_nat (size - Z.of_nat (length acc) - n)) by lia.
  destruct (load_bytes m root (v + n) _); [|done]. by rewrite <- app_assoc.
Qed.

(** [copy_in] is a load byte by byte. *)
Lemma copy_in_equiv m root user_addr size :
  0 <= user_addr -> 0 <= size -> user_addr + size < USIZE ->
  copy_in m root user_addr size = Ret (load_bytes m root user_addr (Z.to_nat size)).
Proof.
  intros Hv Hs Hend. unfold copy_in. rewrite copy_in_loop_ok; cbn [length]; try lia.
  rewrite Z.sub_0_r. by destruct (load_bytes m root user_addr (Z.to_nat size)).
Qed.

(** ** Round trip

    [maps m root v ps]: the bytes from [v] on are at the physical addresses [ps]. *)
Definition maps (m : memory) (root v : Z) (ps : list Z) : Prop :=
  forall i p, ps !! i = Some p -> virt_to_phys m root (v + Z.of_nat i) = Some p.

Lemma maps_cons m root v p ps : maps m root v (p :: ps) -> virt_to_phys m root v = Some p /\ maps m root (v + 1) ps.
Proof.
  intros H. split; [rewrite <- (Z.add_0_r v); by apply (H 0%nat)|].
  intros i q Hi. replace (v + 1 + Z.of_nat i) with (v + Z.of_nat (S i)) by lia. by apply H.
Qed.

Lemma maps_apart m root v ps : maps m root v ps -> Forall (fun p => ~ is_table m root (page p)) ps -> apart m root v (length ps).
Proof.
  intros Hm Hf i p Hi Hp. apply lookup_lt_is_Some in Hi as [q Hq]. rewrite (Hm i q Hq) in Hp. injection Hp as <-.
  by eapply Forall_lookup_1 in Hf.
Qed.

Lemma store_maps root free data : forall m v ps,
  wf m root free -> maps m root v ps -> length ps = length data -> Forall (fun p => ~ is_table m root (page p)) ps ->
  NoDup ps -> Forall byte_ok data ->
  exists m', store_bytes m root v data = (Ok tt, m') /\
    (forall w, virt_to_phys m' root w = virt_to_phys m root w) /\
    (forall b, b ∉ ps -> bget m' b = bget m b) /\
    (forall i p x, ps !! i = Some p -> data !! i = Some x -> bget m' p = x) /\
    (forall b, Forall (fun p => page p <> page b) ps -> m' b = m b).
Proof.
  induction data as [|x data IH]; intros m v [|p ps] Hwf Hm Hl Hf Hnd Hb; try discriminate Hl.
  { exists m. done. }
  apply maps_cons in Hm as [Hv Hm]. apply Forall_cons in Hf as [Hp Hf], Hb as [Hx Hb].
  apply NoDup_cons in Hnd as [Hnp Hnd]. injection Hl as Hl. cbn [store_bytes]. rewrite Hv.
  destruct (bput_apart m root free p x Hwf Hp) as (Hwf1 & Ht1 & Hv1).
  destruct (IH (bput m p x) (v + 1) ps Hwf1) as (m' & E & Hv' & Hout & Hin & Hw); try done.
  { intros i q Hi. rewrite Hv1. by apply Hm. }
  { eapply Forall_impl; [exact Hf|]. intros q Hq. by rewrite Ht1. }
  exists m'. split_and!; [done|intros w; by rewrite Hv', Hv1|..].
  - intros b [Hbp Hbs]%not_elem_of_cons. rewrite Hout, bget_bput by done. by rewrite (proj2 (Z.eqb_neq _ _)).
  - intros [|i] q y Hq Hy; [|by eapply Hin]. injection Hq as <-. injection Hy as <-.
    rewrite Hout, bget_bput by done. by rewrite Z.eqb_refl.
  - intros b [Hpb Hb']%Forall_cons. rewrite Hw by done. unfold bput, upd.
    destruct (Z.eqb_spec b (word_of p)) as [->|]; [|done]. by rewrite (proj1 (page_word p p)) in Hpb.
Qed.

Lemma load_maps m root data : forall v ps,
  maps m root v ps -> length ps = length data -> (forall i p x, ps !! i = Some p -> data !! i = Some x -> bget m p = x) ->
  load_bytes m root v (length data) = Ok data.
Proof.
  induction data as [|x data IH]; intros v [|p ps] Hm Hl Hx; try discriminate Hl; [done|].
  apply maps_cons in Hm as [Hv Hm]. injection Hl as Hl. cbn [length load_bytes]. rewrite Hv.
  rewrite (IH (v + 1) ps Hm Hl); [|intros i q y Hi Hy; by apply (Hx (S i))].
  by rewrite (Hx 0%nat p x).
Qed.

(** C27: what the kernel copies out, the process and the kernel read back.  When
    the bytes of the range are mapped to distinct physical bytes outside the
    page tables, [copy_out] succeeds, [copy_in] of the range then returns
    exactly the data, no other byte of memory and no translation has changed. *)
Theorem uaccess_roundtrip m root free user_addr ps data
  (Hwf : wf m root free) (Hm : maps m root user_addr ps) (Hl : length ps = length data) (Hnd : NoDup ps)
  (Hf : Forall (fun p => ~ is_table m root (page p)) ps) (Hb : Forall byte_ok data)
  (Hv : 0 <= user_addr) (Hend : user_addr + Z.of_nat (length data) < USIZE) :
  exists m', copy_out m root user_addr data = Ret (Ok tt, m') /\
    copy_in m' root user_addr (Z.of_nat (length data)) = Ret (Ok data) /\
    (forall b, b ∉ ps -> bget m' b = bget m b) /\ (forall v, virt_to_phys m' root v = virt_to_phys m root v).
Proof.
  destruct (store_maps root free data m user_addr ps) as (m' & E & Hv' & Hout & Hin & _); try done.
  exists m'. unfold copy_out.
  rewrite (copy_out_loop_ok root free), E by (done || rewrite <- Hl; by apply maps_apart). split_and!; try done.
  rewrite copy_in_equiv, Nat2Z.id by lia. f_equal. apply (load_maps m' root data user_addr ps); [|done|done].
  intros i p Hi. rewrite Hv'. by apply Hm.
Qed.

(** ** Strings *)
Lemma null_pos_found s r : 0 ∉ s -> null_pos (s ++ 0 :: r) = Some (length s).
Proof.
  induction s as [|x s IH]; intros Hs; cbn [app null_pos]; [done|].
  apply not_elem_of_cons in Hs as [Hx Hs]. rewrite (proj2 (Z.eqb_neq _ _)) by congruence. by rewrite IH.
Qed.

Lemma null_pos_none s : 0 ∉ s -> null_pos s = None.
Proof.
  induction s as [|x s IH]; intros Hs; cbn [null_pos]; [done|].
  apply not_elem_of_cons in Hs as [Hx Hs]. rewrite (proj2 (Z.eqb_neq _ _)) by congruence. by rewrite IH.
Qed.

Definition ascii (c : Z) : Prop := 0 < c <= 127.

Lemma ascii_ok s : Forall ascii s -> 0 ∉ s /\ utf8_valid s = true.
Proof.
  intros H. split.
  - intros H0. rewrite Forall_forall in H. apply H in H0. unfold ascii in H0. lia.
  - apply ascii_utf8. eapply Forall_impl; [exact H|]. unfold ascii. simpl. lia.
Qed.

Lemma copy_in_str_loop_ok m root max_len : max_len < USIZE -> forall fuel v s scanned acc,
  load_bytes m root v (length s + 1) = Ok (s ++ [0]) -> Forall ascii s ->
  0 <= v -> v + Z.of_nat (length s) < USIZE -> 0 <= scanned -> scanned + Z.of_nat (length s) < max_len ->
  max_len - scanned <= Z.of_nat fuel ->
  copy_in_str_loop fuel m root v max_len scanned acc = Ret (Ok (acc ++ s)).
Proof.
  intros Hmax. induction fuel as [|fuel IH]; intros v s scanned acc Hload Hs Hv0 Hv1 Hsc Hm Hf; [lia|].
  cbn [copy_in_str_loop]. rewrite (proj2 (Z.ltb_lt _ _)) by lia. rewrite page_offset. set (n := Z.min _ _).
  assert (Hn : 0 < n <= max_len - scanned /\ v mod 4096 + n <= 4096) by (unfold n, PAGE_SIZE, Mem.PAGE_SIZE; lia).
  destruct (virt_to_phys m root v) as [p|] eqn:E.
  2: { rewrite Nat.add_1_r in Hload. cbn [load_bytes] in Hload. by rewrite E in Hload. }
  destruct (ascii_ok s Hs) as [Hs0 Hsu].
  destruct (Z.lt_ge_cases (Z.of_nat (length s)) n).
  - rewrite <- (Nat.add_0_r (length s + 1)), (load_chunk m root _ v p) in Hload by (done || lia).
    cbn [load_bytes] in Hload. rewrite app_nil_r in Hload. injection Hload as Hload.
    replace (Z.to_nat n) with (length s + 1 + (Z.to_nat n - (length s + 1)))%nat by lia.
    rewrite read_bytes_app, Hload, <- app_assoc. cbn [app].
    rewrite null_pos_found by done. rewrite take_app_length. by rewrite Hsu.
  - replace (length s + 1)%nat with (Z.to_nat n + (length s - Z.to_nat n + 1))%nat in Hload by lia.
    rewrite (load_chunk m root _ v p) in Hload by (done || lia).
    destruct (load_bytes m root (v + Z.of_nat (Z.to_nat n)) _) as [l|] eqn:El; [|done]. injection Hload as Hload.
    set (chunk := read_bytes m p (Z.to_nat n)) in *.
    assert (Hc : length chunk = Z.to_nat n) by apply read_bytes_len.
    assert (Hsplit : s = chunk ++ drop (Z.to_nat n) s).
    { rewrite <- (take_drop (Z.to_nat n) s) at 1. f_equal. apply (f_equal (take (Z.to_nat n))) in Hload.
      rewrite take_app_length', take_app_le in Hload by lia. done. }
    assert (Hl' : l = drop (Z.to_nat n) s ++ [0]).
    { rewrite Hsplit, <- app_assoc in Hload. by apply app_inv_head in Hload. }
    assert (Hld : length (drop (Z.to_nat n) s) = (length s - Z.to_nat n)%nat) by apply length_drop.
    rewrite Hsplit in Hs. apply Forall_app in Hs as [Hs1 Hs2]. destruct (ascii_ok chunk Hs1) as [Hz Hu].
    rewrite null_pos_none, Hu by done. rewrite !uadd_ok by lia. cbn [obind].
    rewrite (IH (v + n) (drop (Z.to_nat n) s)); [by rewrite <- app_assoc, <- Hsplit| |done|lia..].
    rewrite Hld, <- Hl', <- El. f_equal. lia.
Qed.

(** [copy_in_str] reads C strings.  When user memory holds an ASCII string
    and its final zero, shorter than the limit and crossing any number of
    pages, the scan returns exactly the string; what follows the zero need not
    even be mapped. *)
Theorem copy_in_str_spec m root user_addr max_len s
  (Hload : load_bytes m root user_addr (length s + 1) = Ok (s ++ [0])) (Hs : Forall ascii s)
  (Hv : 0 <= user_addr) (Hend : user_addr + Z.of_nat (length s) < USIZE)
  (Hlen : Z.of_nat (length s) < max_len) (Hmax : max_len < USIZE) :
  copy_in_str m root user_addr max_len = Ret (Ok s).
Proof. unfold copy_in_str. by rewrite (copy_in_str_loop_ok m root max_len Hmax _ _ s 0 []) by (done || lia). Qed.

(** [copy_in_str] refuses a character that crosses a page.  With the two
    bytes of one UTF-8 character in two neighbouring pages, the scan fails
    whatever follows: each page is checked for UTF-8 on its own. *)
Theorem copy_in_str_splits_char m root user_addr max_len
  (Hload : load_bytes m root user_addr 2 = Ok [0xC3; 0xA9]) (Hv : user_addr mod 4096 = 4095) (Hmax : 1 < max_len) :
  copy_in_str m root user_addr max_len = Ret (Err tt).
Proof.
  unfold copy_in_str. destruct (Z.to_nat max_len) as [|fuel] eqn:Ef; [lia|]. cbn [copy_in_str_loop].
  rewrite (proj2 (Z.ltb_lt _ _)), page_offset by lia. unfold PAGE_SIZE, Mem.PAGE_SIZE. rewrite Hv.
  replace (Z.min (max_len - 0) (4096 - 4095)) with 1 by lia.
  cbn [load_bytes] in Hload. destruct (virt_to_phys m root user_addr) as [p|]; [|done].
  destruct (virt_to_phys m root (user_addr + 1)); [|done]. injection Hload as Hb _.
  change (Z.to_nat 1) with 1%nat. cbn [read_bytes null_pos]. rewrite Hb. reflexivity.
Qed.

(** a user pointer to the end of the address space panics the kernel.  A
    buffer that reaches the last byte of the address space, in a page that
    translates, makes the pointer arithmetic of [copy_out] overflow. *)
Theorem copy_out_end_panics m root user_addr data p
  (Hp : virt_to_phys m root user_addr = Some p) (Hlast : USIZE - 4096 <= user_addr < USIZE)
  (Hend : USIZE <= user_addr + Z.of_nat (length data)) :
  copy_out m root user_addr data = Panic.
Proof.
  unfold copy_out. destruct data as [|x data]; [cbn [length] in Hend; lia|]. cbn [length copy_out_loop].
  cbn [length] in Hend. rewrite Hp, page_offset.
  assert (E : Z.min (Z.of_nat (S (length data))) (PAGE_SIZE - user_addr mod 4096) = USIZE - user_addr).
  { unfold PAGE_SIZE, Mem.PAGE_SIZE, USIZE in *. change (2 ^ 64) with 18446744073709551616 in *. lia. }
  rewrite E. unfold uadd. rewrite (proj2 (Z.ltb_ge _ _)) by lia. done.
Qed.

(** ** An address space of two pages *)
Definition user_flags : PageFlags := Z.lor (Z.lor READ WRITE) USER.

(** Pages 0x10000 and 0x11000, fresh. *)
Definition user_mem : memory :=
  match allocate_and_map_pages_zeroed demo_mem demo_pages demo_root 0x10000 8192 user_flags with
  | Ret (m, _) => m
  | _ => demo_mem
  end.

Lemma user_pages : exists free f0 f1, wf user_mem demo_root free /\ f0 <> f1 /\ frame_ok f0 /\ frame_ok f1 /\
  ~ is_table user_mem demo_root f0 /\ ~ is_table user_mem demo_root f1 /\
  forall i, 0 <= i < 8192 -> virt_to_phys user_mem demo_root (0x10000 + i) = Some ((if i <? 4096 then f0 else f1) + i mod 4096).
Proof.
  destruct (fresh_pages demo_mem demo_pages demo_root 0x10000 2 user_flags true demo_mapper_ok)
    as (m & a & fs & Hrun & Hok & Hlen & Hg & _ & _ & Hv);
    [by vm_compute|by vm_compute|lia|vm_compute; lia|intros i _; by apply leaf_empty|].
  assert (E : user_mem = m).
  { unfold user_mem, allocate_and_map_pages_zeroed. change (Z.of_nat 2 * 4096) with 8192 in Hrun. by rewrite Hrun. }
  destruct fs as [|f0 [|f1 [|]]]; try discriminate Hlen.
  assert (H0 : f0 ∈ [f0; f1]) by left. assert (H1 : f1 ∈ [f0; f1]) by (right; left).
  exists (free_frames a), f0, f1. rewrite E. split_and!.
  - apply Hok.
  - pose proof (gv_nodup _ _ _ _ _ _ _ Hg) as Hnd. apply NoDup_cons in Hnd as [Hne _]. intros ->. apply Hne. by left.
  - by apply (gv_frame _ _ _ _ _ _ _ Hg).
  - by apply (gv_frame _ _ _ _ _ _ _ Hg).
  - intros Ht. apply (gv_own _ _ _ _ _ _ _ Hg f0 H0). by right.
  - intros Ht. apply (gv_own _ _ _ _ _ _ _ Hg f1 H1). by right.
  - intros i Hi. rewrite Hv. unfold pidx. change (2 ^ 27) with 134217728.
    destruct (Z.ltb_spec i 4096).
    + replace (Z.to_nat _) with 0%nat by lia. cbn [lookup list_lookup]. f_equal. lia.
    + replace (Z.to_nat _) with 1%nat by lia. cbn [lookup list_lookup]. f_equal. lia.
Qed.

Lemma user_apart v n : 0x10000 <= v -> v + Z.of_nat n <= 0x12000 -> apart user_mem demo_root v n.
Proof.
  intros Hv Hn i p Hi Hp. destruct user_pages as (free & f0 & f1 & _ & _ & [Hf0 _] & [Hf1 _] & Ht0 & Ht1 & Hm).
  replace (v + Z.of_nat i) with (0x10000 + (v + Z.of_nat i - 0x10000)) in Hp by lia. rewrite Hm in Hp by lia.
  injection Hp as <-. set (j := _ - _). destruct (Z.ltb_spec j 4096).
  - replace (page (f0 + j mod 4096)) with f0; [done|]. unfold page. lia.
  - replace (page (f1 + j mod 4096)) with f1; [done|]. unfold page. lia.
Qed.

Lemma copy_out_equiv_witness :
  copy_out user_mem demo_root 0x10ffe [1; 2; 3; 4] = Ret (store_bytes user_mem demo_root 0x10ffe [1; 2; 3; 4]).
Proof.
  destruct user_pages as (free & _ & _ & Hwf & _).
  apply (copy_out_equiv user_mem demo_root free 0x10ffe [1; 2; 3; 4] Hwf); [apply user_apart; simpl; lia|lia|done].
Defined.

Lemma uaccess_roundtrip_witness :
  exists m', copy_out user_mem demo_root 0x10ffe [1; 2; 3; 4] = Ret (Ok tt, m') /\
    copy_in m' demo_root 0x10ffe 4 = Ret (Ok [1; 2; 3; 4]).
Proof.
  destruct user_pages as (free & f0 & f1 & Hwf & Hne & [Hf0 Hr0] & [Hf1 Hr1] & Ht0 & Ht1 & Hm).
  destruct (uaccess_roundtrip user_mem demo_root free 0x10ffe [f0 + 4094; f0 + 4095; f1; f1 + 1] [1; 2; 3; 4] Hwf)
    as (m' & Ho & Hi & _); [|done| | | |lia|done|].
  - intros [|[|[|[|i]]]] p Hi; try done; injection Hi as <-.
    + exact (Hm 4094 ltac:(lia)).
    + exact (Hm 4095 ltac:(lia)).
    + rewrite <- (Z.add_0_r f1). exact (Hm 4096 ltac:(lia)).
    + exact (Hm 4097 ltac:(lia)).
  - repeat (apply NoDup_cons_2; [rewrite ?not_elem_of_cons; split_and?; try lia; apply not_elem_of_nil|]). apply NoDup_nil_2.
  - assert (P : forall f k, f mod 4096 = 0 -> 0 <= k < 4096 -> page (f + k) = f) by (intros; unfold page; lia).
    repeat constructor; [rewrite P by lia..| |rewrite P by lia]; try done.
    replace (page f1) with f1 by (unfold page; lia). done.
  - repeat constructor; unfold byte_ok; lia.
  - exists m'. split; [exact Ho|exact Hi].
Defined.

(** "/etc" across the page boundary, and a two-byte character across it. *)
Definition str_mem : memory :=
  match store_bytes user_mem demo_root 0x10ffe [47; 101; 116; 99; 0] with (_, m) => m end.
Definition char_mem : memory :=
  match store_bytes user_mem demo_root 0x10fff [0xC3; 0xA9; 0] with (_, m) => m end.

Lemma copy_in_str_spec_witness : copy_in_str str_mem demo_root 0x10ffe 256 = Ret (Ok [47; 101; 116; 99]).
Proof.
  apply (copy_in_str_spec str_mem demo_root 0x10ffe 256 [47; 101; 116; 99]);
    [vm_compute; reflexivity|repeat constructor; unfold ascii; lia|lia|done|done|done].
Defined.

Lemma copy_in_str_splits_char_witness :
  utf8_valid [0xC3; 0xA9] = true /\ copy_in_str char_mem demo_root 0x10fff 256 = Ret (Err tt).
Proof.
  split; [reflexivity|]. apply (copy_in_str_splits_char char_mem demo_root 0x10fff 256); [vm_compute; reflexivity|done|done].
Defined.

(** The last page of the address space, mapped for the kernel only, without
    [USER]: the walk uses 39 bits of the address. *)
Definition top_mem : memory :=
  match map_range demo_mem demo_pages demo_root (2 ^ 39 - 4096) 0x8060_0000 (2 ^ 39) demo_flags Size4K with
  | Ret (m, _) => m
  | _ => demo_mem
  end.

Lemma copy_out_end_panics_witness : copy_out top_mem demo_root (2 ^ 64 - 2) [1; 2] = Panic.
Proof.
  apply (copy_out_end_panics top_mem demo_root (2 ^ 64 - 2) [1; 2] 0x8060_0ffe); [by vm_compute|done|done].
Defined.

(** the copies do not ask whether the process may touch a page.  Through a
    mapping without the [USER] flag, which traps a process that uses it, a
    system call writes: [copy_out] succeeds and the byte is stored. *)
Theorem copy_out_ignores_user :
  Z.land demo_flags USER = 0 /\
  exists m', copy_out top_mem demo_root (2 ^ 64 - 4096) [42] = Ret (Ok tt, m') /\ bget m' 0x8060_0000 = 42.
Proof.
  split; [done|]. exists (write_bytes top_mem 0x8060_0000 [42]). split; [|by vm_compute].
  assert (E : virt_to_phys top_mem demo_root (2 ^ 64 - 4096) = Some 0x8060_0000) by (by vm_compute).
  unfold copy_out. cbn [length copy_out_loop]. by rewrite E.
Qed.

End Ua.
