(* ===== verification/Space.v ===== *)
(** * Address spaces

    The invariant of the mappings in a window of an address space ([space_in])
    and what growing and writing it does: the common part of [mmap] and [brk]
    in src/src/syscall/memory.rs, and of the loading of a process.  The window
    of a process is the lower half of Sv39, the addresses below 2^38
    ([space_ok]); a process is loaded through a window of the kernel's. *)

From S2P Require Import Prelude Bytes Memory PageAllocator PageMapper UserMem Uaccess.

Module Space.
Import Pte Mapper UMem Ua.

Definition USER_END : Z := 2 ^ 38.

(** One more table below the table [t] of the first level. *)
Lemma graft_paths m root free i t j L : wf m root free -> tpath m root [i] = Some t -> idx_ok i -> idx_ok j ->
  frame_ok L -> ~ (L ∈ free \/ is_table m root L) ->
  let m' := upd m (slot t j) (pte_set L VALID) in
  tpath m' root [i; j] = Some L /\
  (forall q f, path_ok q -> tpath m' root q = Some f -> (q = [i; j] /\ f = L) \/ (tpath m root q = Some f /\ f <> L)) /\
  (forall v, vpn2 v <> i -> leaf m' root (vpns v) = leaf m root (vpns v)) /\ wf m' root free.
Proof.
  intros Hwf Ht Hi Hj HL HnL m'. assert (Hpo : path_ok [i]) by (split; [simpl; lia|by constructor]).
  destruct (wf_frame _ _ _ Hwf _ _ Hpo Ht) as [Hft _].
  assert (Hold : forall q, path_ok q -> q <> [i; j] -> tpath m' root q = tpath m root q).
  { intros q Hq Hn. apply (tpath_upd_other m root free [i]); try done. intros [r ->]. destruct Hq as [Hq _].
    destruct r; [by apply Hn|]. simpl in Hq. lia. }
  assert (Hnew : tpath m' root [i; j] = Some L).
  { change [i; j] with ([i] ++ [j]). rewrite tpath_snoc, Hold, Ht by done. unfold child, m'.
    rewrite ent_upd, decide_True by done. by rewrite pte_set_valid, pte_set_leaf, pte_addr_set. }
  assert (Hcase : forall q f, path_ok q -> tpath m' root q = Some f -> (q = [i; j] /\ f = L) \/ (tpath m root q = Some f /\ f <> L)).
  { intros q f Hq Hf. destruct (decide (q = [i; j])) as [->|Hn]; [left; split; congruence|right].
    rewrite Hold in Hf by done. split; [done|]. intros ->. apply HnL. right. by exists q. }
  split_and!; [done|done| |split].
  - intros v Hv. apply (leaf_upd_other m root free [i]); try done; [apply vpn_ok|]. intros [r Hr]. by injection Hr as Hr _ _.
  - intros q f Hq Hf. destruct (Hcase q f Hq Hf) as [[-> ->]|[Hf' _]]; [|by apply (wf_frame _ _ _ Hwf q)].
    split; [done|]. intros Hx. apply HnL. by left.
  - intros q q' f Hq Hq' Hf Hf'. destruct (Hcase q f Hq Hf) as [[-> ->]|[Hf1' Hn]], (Hcase q' _ Hq' Hf') as [[-> E]|[Hf2' Hn']]; try done.
    by apply (wf_inj _ _ _ Hwf _ _ f).
Qed.

Section space.
Context {A : Type} `{FrameAllocator A}.

(** The tables are a tree outside the free frames; the addresses of the window
    are mapped by 4 KiB pages only, to frames that are neither free nor tables,
    and no two of them to the same byte. *)
Record space_in (lo hi : Z) (m : memory) (root : Z) (a : A) : Prop := {
  so_map : mapper_ok m root a;
  so_4k : forall v, lo <= v < hi -> leaf_at_most m root (vpns v) 0;
  so_apart : forall v p, lo <= v < hi -> virt_to_phys m root v = Some p -> ~ owned m root a (page p);
  so_inj : forall v v' p, lo <= v < hi -> lo <= v' < hi ->
    virt_to_phys m root v = Some p -> virt_to_phys m root v' = Some p -> v = v' }.
#[global] Arguments so_map {lo hi} m root a _.
#[global] Arguments so_4k {lo hi} m root a _.
#[global] Arguments so_apart {lo hi} m root a _.
#[global] Arguments so_inj {lo hi} m root a _.

(** A window in which no two addresses have the same page number. *)
Definition window (lo hi : Z) : Prop := 0 <= lo /\ hi - lo <= 2 ^ 39 /\ hi < USIZE.

Lemma pidx_in lo hi virt v n : window lo hi -> virt mod 4096 = 0 -> lo <= virt -> virt + Z.of_nat n * 4096 <= hi -> lo <= v < hi ->
  if (virt <=? v) && (v <? virt + Z.of_nat n * 4096) then pidx virt v = (v - virt) / 4096 /\ (v - virt) / 4096 < Z.of_nat n
  else Z.of_nat n <= pidx virt v.
Proof.
  intros (Hw0 & Hw1 & Hw2) Ha H0 H1 Hv. unfold pidx in *. change (2 ^ 39) with 549755813888 in *. change (2 ^ 27) with 134217728.
  destruct (Z.leb_spec virt v), (Z.ltb_spec v (virt + Z.of_nat n * 4096)); cbn [andb]; lia.
Qed.

Lemma bget_zeroed m f b : zeroed m f -> page b = f -> bget m b = 0.
Proof. intros Hz Hb. unfold bget. rewrite Hz; [done|]. by rewrite (proj1 (page_word b b)). Qed.

Lemma bget_touch m root a m' a' b : touch m root a m' a' -> ~ owned m root a (page b) -> bget m' b = bget m b.
Proof. intros [T _] Hb. unfold bget. rewrite T; [done|]. by rewrite (proj1 (page_word b b)). Qed.

(** Growing: fresh pages at [virt], zeroed if asked. *)
Lemma grow_in lo hi m (a : A) root virt n flags zero :
  window lo hi -> space_in lo hi m root a -> flags_ok flags ->
  virt mod 4096 = 0 -> lo <= virt -> virt + Z.of_nat n * 4096 <= hi -> (3 * n <= length (free_frames a))%nat ->
  exists m' a', allocate_and_map_pages_impl m a root virt (Z.of_nat n * 4096) flags zero = Ret (m', a') /\
    space_in lo hi m' root a' /\ (length (free_frames a) <= length (free_frames a') + 3 * n)%nat /\
    (forall v, virt <= v < virt + Z.of_nat n * 4096 ->
       exists p, virt_to_phys m' root v = Some p /\ (zero = true -> bget m' p = 0)) /\
    (forall v, lo <= v < hi -> ~ virt <= v < virt + Z.of_nat n * 4096 ->
       virt_to_phys m' root v = virt_to_phys m root v /\
       forall p, virt_to_phys m root v = Some p -> bget m' p = bget m p) /\
    touch m root a m' a' /\
    (forall v p, lo <= v < hi -> virt_to_phys m' root v = Some p -> virt_to_phys m root v = Some p \/ page p ∈ free_frames a).
Proof.
  intros Hw Hs Hfl Hva Hv0 Hv1 Hfree. pose proof Hw as (Hw0 & Hw1 & Hw2). change (2 ^ 39) with (2 ^ 27 * 4096) in Hw1.
  destruct (fresh_pages m a root virt n flags zero (so_map _ _ _ Hs) Hfl) as (m' & a' & fs & Hrun & Hok & Hlen & Hg & Hu & Hl & Hv);
    [lia|lia|done|intros i Hi; apply (so_4k _ _ _ Hs); lia|].
  assert (Hout : forall v, lo <= v < hi -> ~ virt <= v < virt + Z.of_nat n * 4096 -> fs !! Z.to_nat (pidx virt v) = None).
  { intros v Hu' Hn. apply lookup_ge_None_2. pose proof (pidx_in lo hi virt v n Hw Hva Hv0 Hv1 Hu') as Hp.
    destruct (Z.leb_spec virt v), (Z.ltb_spec v (virt + Z.of_nat n * 4096)); cbn [andb] in Hp; lia. }
  assert (Hin : forall v, virt <= v < virt + Z.of_nat n * 4096 ->
    exists f, fs !! Z.to_nat ((v - virt) / 4096) = Some f /\ fs !! Z.to_nat (pidx virt v) = Some f).
  { intros v Hn. pose proof (pidx_in lo hi virt v n Hw Hva Hv0 Hv1 ltac:(lia)) as Hp.
    rewrite (proj2 (Z.leb_le _ _)), (proj2 (Z.ltb_lt _ _)) in Hp by lia. cbn [andb] in Hp. destruct Hp as [-> Hp].
    destruct (lookup_lt_is_Some_2 fs (Z.to_nat ((v - virt) / 4096))) as [f Hf]; [lia|]. by exists f. }
  assert (Hpg : forall f v, f ∈ fs -> page (f + v mod 4096) = f).
  { intros f v Hf. destruct (gv_frame _ _ _ _ _ _ _ Hg f Hf) as [Hfa _]. unfold page. lia. }
  assert (Hvin : forall v, virt <= v < virt + Z.of_nat n * 4096 -> exists f, fs !! Z.to_nat ((v - virt) / 4096) = Some f /\
    f ∈ fs /\ virt_to_phys m' root v = Some (f + v mod 4096)).
  { intros v Hn. destruct (Hin v Hn) as (f & Hf & Hf'). exists f. split_and!; [done|by eapply list_elem_of_lookup_2|].
    by rewrite Hv, Hf'. }
  assert (Hvout : forall v, lo <= v < hi -> ~ virt <= v < virt + Z.of_nat n * 4096 ->
    virt_to_phys m' root v = virt_to_phys m root v).
  { intros v Hu' Hn. by rewrite Hv, Hout. }
  assert (Hdec : forall v, {virt <= v < virt + Z.of_nat n * 4096} + {~ virt <= v < virt + Z.of_nat n * 4096})
    by (intros v; destruct (decide (virt <= v)), (decide (v < virt + Z.of_nat n * 4096)); (left; lia) || (right; lia)).
  assert (Hfree_p : forall f v, f ∈ fs -> owned m root a (page (f + v mod 4096))).
  { intros f v Hf. rewrite Hpg by done. left. by apply (gv_free _ _ _ _ _ _ _ Hg). }
  exists m', a'. split; [exact Hrun|]. split_and!; [split|done|..].
  - done.
  - intros v Hv' e k. rewrite Hl. destruct (fs !! Z.to_nat (pidx virt v)); [intros [= _ <-]; lia|by apply (so_4k _ _ _ Hs)].
  - intros v p Hv' Hp. destruct (Hdec v) as [Hn|Hn].
    + destruct (Hvin v Hn) as (f & _ & Hf & E). rewrite E in Hp. injection Hp as <-. rewrite Hpg by done.
      by apply (gv_own _ _ _ _ _ _ _ Hg).
    + rewrite Hvout in Hp by done. intros Ho. apply (so_apart _ _ _ Hs v p Hv' Hp).
      by apply (gv_touch _ _ _ _ _ _ _ Hg).
  - intros v v' p Hv' Hv'' Hp Hp'. destruct (Hdec v) as [Hn|Hn], (Hdec v') as [Hn'|Hn'].
    + destruct (Hvin v Hn) as (f & Hf & Hfs & E), (Hvin v' Hn') as (f' & Hf' & Hfs' & E').
      rewrite E in Hp. rewrite E', <- Hp in Hp'. injection Hp' as Hp'.
      pose proof (Hpg f v Hfs) as P1. pose proof (Hpg f' v' Hfs') as P2. rewrite Hp', P1 in P2. subst f'.
      pose proof (NoDup_lookup _ _ _ _ (gv_nodup _ _ _ _ _ _ _ Hg) Hf Hf'). lia.
    + destruct (Hvin v Hn) as (f & _ & Hfs & E). rewrite E in Hp. injection Hp as <-.
      rewrite Hvout in Hp' by done. by destruct (so_apart _ _ _ Hs v' _ Hv'' Hp'); apply Hfree_p.
    + destruct (Hvin v' Hn') as (f & _ & Hfs & E). rewrite E in Hp'. injection Hp' as <-.
      rewrite Hvout in Hp by done. by destruct (so_apart _ _ _ Hs v _ Hv' Hp); apply Hfree_p.
    + rewrite Hvout in Hp, Hp' by done. by apply (so_inj _ _ _ Hs v v' p).
  - intros v Hn. destruct (Hvin v Hn) as (f & _ & Hf & E). eexists. split; [exact E|]. intros ->.
    apply (bget_zeroed m' f); [by apply (gv_zero _ _ _ _ _ _ _ Hg)|by apply Hpg].
  - intros v Hv' Hn. split; [by apply Hvout|]. intros p Hp.
    apply (bget_touch m root a m' a'); [apply (gv_touch _ _ _ _ _ _ _ Hg)|by apply (so_apart _ _ _ Hs v)].
  - apply (gv_touch _ _ _ _ _ _ _ Hg).
  - intros v p Hv' Hp. destruct (Hdec v) as [Hn|Hn]; [|left; by rewrite <- Hvout].
    destruct (Hvin v Hn) as (f & _ & Hf & E). rewrite E in Hp. injection Hp as <-. right. rewrite Hpg by done.
    by apply (gv_free _ _ _ _ _ _ _ Hg).
Qed.

(** Loads see the fresh pages as zeros and everything else as before. *)
Lemma load_zeros m root virt k : forall v,
  (forall i, 0 <= i < Z.of_nat k -> exists p, virt_to_phys m root (v + i) = Some p /\ bget m p = 0) ->
  virt = v -> load_bytes m root v k = Ok (replicate k 0).
Proof.
  revert virt. induction k as [|k IH]; intros virt v Hz E; [done|]. cbn [load_bytes replicate].
  destruct (Hz 0 ltac:(lia)) as (p & Hp & Hb). rewrite Z.add_0_r in Hp. rewrite Hp, Hb.
  rewrite (IH (v + 1) (v + 1)); [done| |done]. intros i Hi. rewrite <- Z.add_assoc. apply Hz. lia.
Qed.

Lemma load_same m m' root k : forall v,
  (forall i, 0 <= i < Z.of_nat k -> virt_to_phys m' root (v + i) = virt_to_phys m root (v + i) /\
     forall p, virt_to_phys m root (v + i) = Some p -> bget m' p = bget m p) ->
  load_bytes m' root v k = load_bytes m root v k.
Proof.
  induction k as [|k IH]; intros v Hs; [done|]. cbn [load_bytes].
  destruct (Hs 0 ltac:(lia)) as (Hp & Hb). rewrite Z.add_0_r in Hp, Hb. rewrite Hp.
  destruct (virt_to_phys m root v) as [p|]; [|done]. rewrite (Hb p eq_refl).
  rewrite IH; [done|]. intros i Hi. rewrite <- Z.add_assoc. apply Hs. lia.
Qed.

(** Bytes written to user addresses leave the space as it is. *)
Lemma space_write lo hi m (a : A) root m' :
  space_in lo hi m root a -> (forall b, is_table m root (page b) -> m' b = m b) -> space_in lo hi m' root a.
Proof.
  intros Hs Hag'. destruct (so_map _ _ _ Hs) as [Hi Hwf Hfr].
  destruct (same_tables m m' root _ Hwf Hag') as [_ Hl].
  destruct (same_tables_v2p m m' root _ Hwf Hag') as (Hwf' & Hit & Hv).
  split.
  - by split.
  - intros v Hv' e k. rewrite Hl. by apply (so_4k _ _ _ Hs).
  - intros v p Hv' Hp. rewrite Hv in Hp. intros [Ho|Ho]; apply (so_apart _ _ _ Hs v p Hv' Hp); [by left|right; by apply Hit].
  - intros v v' p H1 H2. rewrite !Hv. by apply (so_inj _ _ _ Hs).
Qed.

(** The physical bytes of a range that loads. *)
Lemma load_phys m root n : forall v l, load_bytes m root v n = Ok l -> exists ps, length ps = n /\ maps m root v ps.
Proof.
  induction n as [|n IH]; intros v l; cbn [load_bytes]; [by exists []|].
  destruct (virt_to_phys m root v) as [p|] eqn:E; [|done].
  destruct (load_bytes m root (v + 1) n) as [l'|] eqn:El; [|done]. intros _.
  destruct (IH _ _ El) as (ps & Hl & Hm). exists (p :: ps). split; [simpl; lia|].
  intros [|i] q Hq; [injection Hq as <-; by rewrite Z.add_0_r|].
  replace (v + Z.of_nat (S i)) with (v + 1 + Z.of_nat i) by lia. by apply Hm.
Qed.

(** Storing to a mapped range of a sound space: the range holds the data,
    every other range is as before, and the space stays sound. *)
Lemma store_in lo hi m (a : A) root v data old :
  window lo hi -> space_in lo hi m root a -> lo <= v -> v + Z.of_nat (length data) <= hi -> Forall byte_ok data ->
  load_bytes m root v (length data) = Ok old ->
  exists m', store_bytes m root v data = (Ok tt, m') /\ copy_out m root v data = Ret (Ok tt, m') /\ space_in lo hi m' root a /\
    load_bytes m' root v (length data) = Ok data /\ (forall w, virt_to_phys m' root w = virt_to_phys m root w) /\
    (forall b, (forall w p, lo <= w < hi -> virt_to_phys m root w = Some p -> page p <> page b) -> m' b = m b) /\
    (forall b, (forall w p, v <= w < v + Z.of_nat (length data) -> virt_to_phys m root w = Some p -> p <> b) -> bget m' b = bget m b) /\
    forall w n, lo <= w -> w + Z.of_nat n <= hi -> w + Z.of_nat n <= v \/ v + Z.of_nat (length data) <= w ->
      load_bytes m' root w n = load_bytes m root w n.
Proof.
  intros (Hlo & _ & Hhi) Hs Hv0 Hv1 Hb Hload. destruct (load_phys _ _ _ _ _ Hload) as (ps & Hl & Hm).
  assert (Hat : forall i p, ps !! i = Some p -> lo <= v + Z.of_nat i < hi /\ virt_to_phys m root (v + Z.of_nat i) = Some p).
  { intros i p Hi. pose proof (lookup_lt_Some _ _ _ Hi). split; [lia|by apply Hm]. }
  assert (Hown : forall p, p ∈ ps -> ~ owned m root a (page p)).
  { intros p (i & Hi)%list_elem_of_lookup. destruct (Hat i p Hi) as [Hr Hp]. by apply (so_apart _ _ _ Hs (v + Z.of_nat i)). }
  assert (Hf : Forall (fun p => ~ is_table m root (page p)) ps).
  { apply Forall_forall. intros p Hp Ht. apply (Hown p Hp). by right. }
  assert (Hnd : NoDup ps).
  { apply NoDup_alt. intros i j p Hi Hj. destruct (Hat i p Hi) as [Hri Hpi], (Hat j p Hj) as [Hrj Hpj].
    pose proof (so_inj _ _ _ Hs _ _ _ Hri Hrj Hpi Hpj). lia. }
  pose proof (mo_wf _ _ _ (so_map _ _ _ Hs)) as Hwf.
  destruct (store_maps root _ data m v ps Hwf Hm Hl Hf Hnd Hb) as (m' & E & Hv' & Hout & Hin & Hw).
  exists m'. split; [exact E|]. split.
  { unfold copy_out. rewrite (copy_out_loop_ok root (free_frames a)), E; [done|done|rewrite <- Hl; by apply maps_apart|lia..]. }
  split_and!; [..|done| | |].
  - apply (space_write lo hi m a root m' Hs). intros b Hob. apply Hw, Forall_forall. intros p Hp Epb.
    apply (Hown p Hp). right. by rewrite Epb.
  - apply (load_maps m' root data v ps); [|done|done]. intros i p Hi. rewrite Hv'. by apply Hm.
  - intros b Hb'. apply Hw, Forall_forall. intros p (j & Hj)%list_elem_of_lookup. destruct (Hat j p Hj) as [Hr Hp]. by eapply Hb'.
  - intros b Hb'. apply Hout. intros (j & Hj)%list_elem_of_lookup. destruct (Hat j b Hj) as [Hr Hp]. pose proof (lookup_lt_Some _ _ _ Hj).
    by apply (Hb' (v + Z.of_nat j) b ltac:(lia) Hp).
  - intros w n Hw0 Hw1 Hd. apply load_same. intros i Hi. split; [by apply Hv'|].
    intros p Hp. apply Hout. intros (j & Hj)%list_elem_of_lookup. destruct (Hat j p Hj) as [Hrj Hpj].
    pose proof (so_inj _ _ _ Hs (w + i) _ _ ltac:(lia) Hrj Hp Hpj). pose proof (lookup_lt_Some _ _ _ Hj). lia.
Qed.

(** A frame that is none of the space's: not free, no table, not mapped. *)
Definition foreign (lo hi : Z) (m : memory) (root : Z) (a : A) (g : Z) : Prop :=
  ~ owned m root a g /\ forall v p, lo <= v < hi -> virt_to_phys m root v = Some p -> page p <> g.

(** Tables stay; foreign frames stay foreign and keep their contents. *)
Definition left_alone (lo hi : Z) (m : memory) (root : Z) (a : A) (m' : memory) (a' : A) : Prop :=
  grows m root m' /\ forall g, foreign lo hi m root a g -> foreign lo hi m' root a' g /\ forall b, page b = g -> m' b = m b.

Lemma left_alone_refl lo hi m root a : left_alone lo hi m root a m a.
Proof. split; [by intros q u|done]. Qed.

Lemma left_alone_trans lo hi m root a m1 a1 m2 a2 :
  left_alone lo hi m root a m1 a1 -> left_alone lo hi m1 root a1 m2 a2 -> left_alone lo hi m root a m2 a2.
Proof.
  intros [G1 H1] [G2 H2]. split; [by intros q u Hq Hu; apply G2, G1|]. intros g Hg. destruct (H1 g Hg) as [Hg1 Hb1], (H2 g Hg1) as [Hg2 Hb2]. split; [done|].
  intros b Hb. by rewrite Hb2, Hb1.
Qed.

Lemma grow_left_alone lo hi m (a : A) root m' a' :
  touch m root a m' a' ->
  (forall v p, lo <= v < hi -> virt_to_phys m' root v = Some p -> virt_to_phys m root v = Some p \/ page p ∈ free_frames a) ->
  left_alone lo hi m root a m' a'.
Proof.
  intros (T1 & T2 & T3) Hv. split; [done|]. intros g [Ho Hm]. split; [split|].
  - intros Ho'. by apply Ho, T2.
  - intros v p Hr Hp Eg. destruct (Hv v p Hr Hp) as [Hp'|Hp']; [by apply (Hm v p)|]. apply Ho. left. by rewrite <- Eg.
  - intros b <-. by apply T1.
Qed.

Lemma store_left_alone lo hi m (a : A) root m' free :
  wf m root free -> (forall v p, lo <= v < hi -> virt_to_phys m root v = Some p -> ~ owned m root a (page p)) ->
  (forall b, (forall v p, lo <= v < hi -> virt_to_phys m root v = Some p -> page p <> page b) -> m' b = m b) ->
  left_alone lo hi m root a m' a.
Proof.
  intros Hwf Hap Hb.
  assert (Hag : forall b, is_table m root (page b) -> m' b = m b).
  { intros b Ht. apply Hb. intros v p Hv Hp E. apply (Hap v p Hv Hp). right. by rewrite E. }
  destruct (same_tables_v2p m m' root free Hwf Hag) as (_ & Hit & Hv), (same_tables m m' root free Hwf Hag) as [Hpt _].
  split; [by intros q u Hq; rewrite Hpt|]. intros g [Ho Hm]. split; [split|].
  - intros [Hf|Ht]; apply Ho; [by left|right; by apply Hit].
  - intros v p. rewrite Hv. apply Hm.
  - intros b <-. apply Hb. intros v p. apply Hm.
Qed.

Lemma space_mono lo hi lo' hi' m root (a : A) : lo <= lo' -> hi' <= hi -> space_in lo hi m root a -> space_in lo' hi' m root a.
Proof.
  intros Hl Hh [Hm H4 Ha Hi]. split; [done|..]; intros v; intros; [eapply H4|eapply Ha|eapply Hi]; try done; lia.
Qed.

(** A frame of one's own, mapped at [virt] with what it holds. *)
Lemma map_own lo hi m (a : A) root virt S flags :
  window lo hi -> space_in lo hi m root a -> flags_ok flags -> virt mod 4096 = 0 -> lo <= virt -> virt + 4096 <= hi ->
  foreign lo hi m root a S -> frame_ok S -> (2 <= length (free_frames a))%nat ->
  exists m' a', map_range m a root virt S (virt + 4096) flags Size4K = Ret (m', a') /\ space_in lo hi m' root a' /\
    frames_used 2 a a' /\ touch m root a m' a' /\
    forall v, lo <= v < hi -> virt_to_phys m' root v = if decide (virt <= v < virt + 4096) then Some (S + (v - virt)) else virt_to_phys m root v.
Proof.
  intros Hw Hs Hfl Hva Hv0 Hv1 [HnS HmS] HfS Hfree. pose proof Hw as (Hw0 & Hw1 & Hw2). pose proof HfS as [Sa Sb].
  assert (2 ^ 48 < USIZE - 4096) by done.
  pose proof (so_4k _ _ _ Hs virt ltac:(lia)) as Hsup.
  destruct (map_one m a root virt S flags (so_map _ _ _ Hs)) as (m' & a' & Hrun & Hok & Hu & Hl); try done; try lia.
  assert (T : touch m root a m' a') by (eapply map_one_touch; try exact Hrun; try done; try lia; apply (so_map _ _ _ Hs)).
  assert (Hv : forall v, lo <= v < hi -> (vpns v = vpns virt <-> virt <= v < virt + 4096)).
  { intros v Hr. pose proof (vpns_pidx virt v 0 Hva ltac:(lia)) as Hpx. rewrite Z.add_0_r in Hpx. rewrite Hpx.
    pose proof (pidx_in lo hi virt v 1 Hw Hva Hv0 ltac:(lia) Hr) as Hpi.
    destruct (Z.leb_spec virt v), (Z.ltb_spec v (virt + Z.of_nat 1 * 4096)); cbn [andb] in Hpi; lia. }
  assert (Htr : forall v, lo <= v < hi ->
    virt_to_phys m' root v = if decide (virt <= v < virt + 4096) then Some (S + (v - virt)) else virt_to_phys m root v).
  { intros v Hr. rewrite !virt_to_phys_leaf, Hl. destruct (decide (vpns v = vpns virt)) as [E|E]; rewrite (Hv v Hr) in E.
    - rewrite decide_True by done. cbn [leaf_mask]. rewrite pte_addr_set, page_join by (done || lia). f_equal. lia.
    - by rewrite decide_False. }
  exists m', a'. split; [exact Hrun|]. split_and!; [split|done|done..|done].
  - done.
  - intros v Hr e k. rewrite Hl. destruct (decide _); [intros [= _ <-]; lia|by apply (so_4k _ _ _ Hs)].
  - intros v p Hr. rewrite Htr by done. destruct T as (_ & T & _). destruct (decide _) as [E|E].
    + intros [= <-] Ho%T. apply HnS. revert Ho. unfold page. by replace (4096 * ((S + (v - virt)) / 4096)) with S by lia.
    + intros Hp Ho%T. by apply (so_apart _ _ _ Hs v p Hr Hp).
  - assert (Hx : forall v v' p, lo <= v < hi -> virt_to_phys m root v = Some p -> p = S + (v' - virt) -> virt <= v' < virt + 4096 -> False).
    { intros v v' p Hr Hp -> Hr'. apply (HmS v _ Hr Hp). unfold page. lia. }
    intros v v' p Hr Hr'. rewrite !Htr by done. destruct (decide _) as [E|E], (decide _) as [E'|E'].
    + intros [= <-] [= E1]. lia.
    + intros [= <-] Hp. by destruct (Hx v' v _ Hr' Hp eq_refl E).
    + intros Hp [= <-]. by destruct (Hx v v' _ Hr Hp eq_refl E').
    + by apply (so_inj _ _ _ Hs).
Qed.

(** The allocator gives a frame; it is none of the space's then. *)
Lemma take_frame lo hi m (a : A) P : space_in lo hi m P a -> free_frames a <> [] ->
  exists S a1, frame_alloc a = Ret (Some S, a1) /\ frame_ok S /\ space_in lo hi m P a1 /\ foreign lo hi m P a1 S /\ frames_used 1 a a1 /\
    forall g, foreign lo hi m P a g -> foreign lo hi m P a1 g /\ g <> S.
Proof.
  intros Hs Hne. pose proof (so_map _ _ _ Hs) as Hm.
  destruct (alloc_frame m P a Hm Hne) as (S & a1 & Hrun & Hi1 & Hin & HfS & Hu & Hin1 & Hfr1).
  assert (HSt : ~ is_table m P S). { intros (q & Hq & Ht). by destruct (wf_frame _ _ _ (mo_wf _ _ _ Hm) q S Hq Ht) as [_ []]. }
  assert (Hsub : forall f, owned m P a1 f -> owned m P a f) by (intros f [Hf|Hf]; [left; by apply Hin1 in Hf as [? _]|by right]).
  exists S, a1. split_and!; [done|done| | |done|].
  - destruct Hs as [_ H4 Ha Hj]. split; [|done| |done].
    + split; [done| |done]. destruct (mo_wf _ _ _ Hm) as [Hwf Hwj]. split; [|done]. intros q t Hq Ht.
      destruct (Hwf q t Hq Ht) as [? Hn]. split; [done|]. intros Hx. by apply Hin1 in Hx as [? _].
    + intros v p Hr Hp Ho. by apply (Ha v p Hr Hp), Hsub.
  - split; [intros [Hx|Hx]; [by apply Hin1 in Hx as [_ ?]|done]|]. intros v p Hr Hp <-. apply (so_apart _ _ _ Hs v p Hr Hp). by left.
  - intros g [Ho Hg]. split; [split; [by intros Hx; apply Ho, Hsub|done]|]. intros ->. apply Ho. by left.
Qed.

(** Writing the frame [S] changes nothing of the space. *)
Lemma write_frame lo hi m m2 P (a : A) S : space_in lo hi m P a -> foreign lo hi m P a S -> (forall b, page b <> S -> m2 b = m b) ->
  space_in lo hi m2 P a /\ (forall v, virt_to_phys m2 P v = virt_to_phys m P v) /\ (forall v p, lo <= v < hi -> virt_to_phys m P v = Some p -> bget m2 p = bget m p) /\
  forall g, foreign lo hi m P a g -> foreign lo hi m2 P a g.
Proof.
  intros Hs [Ho Hm] Hb.
  assert (Hag : forall b, is_table m P (page b) -> m2 b = m b) by (intros b Ht; apply Hb; intros <-; apply Ho; by right).
  destruct (same_tables_v2p m m2 P _ (mo_wf _ _ _ (so_map _ _ _ Hs)) Hag) as (_ & Hit & Hv). split_and!; [by apply (space_write _ _ m)|done| |].
  - intros v p Hr Hp. unfold bget. rewrite Hb; [done|]. rewrite (proj1 (page_word p p)). by apply (Hm v).
  - intros g [Hg1 Hg2]. split; [intros [Hx|Hx]; apply Hg1; [by left|right; by apply Hit]|]. intros v p Hr. rewrite Hv. by apply Hg2.
Qed.

(** A table of another space, grafted outside the window. *)
Lemma graft lo hi m (a : A) root vt L :
  space_in lo hi m root a -> leaf_at_most m root (vpns vt) 0 -> (forall v, lo <= v < hi -> vpn2 v <> vpn2 vt) ->
  frame_ok L -> foreign lo hi m root a L -> free_frames a <> [] ->
  exists m' a', set_l1_page_table_for_phys m a root vt L = Ret (m', a') /\ space_in lo hi m' root a' /\
    tpath m' root [vpn2 vt; vpn1 vt] = Some L /\ frames_used 1 a a' /\
    (forall b, ~ owned m root a (page b) -> m' b = m b) /\ (forall f, owned m' root a' f -> f = L \/ owned m root a f) /\
    forall v, lo <= v < hi -> virt_to_phys m' root v = virt_to_phys m root v.
Proof.
  intros Hs Hsup Hi HL [HnL HmL] Hne.
  pose proof (vpn_ok vt) as [H2 [H1 [H0 _]%Forall_cons]%Forall_cons]%Forall_cons.
  assert (Hnil : path_ok []) by (split; [simpl; lia|done]).
  destruct (next_table_spec m a root [] root (vpn2 vt) [vpn1 vt; vpn0 vt] 0 (so_map _ _ _ Hs) Hnil)
    as (t1 & m1 & a1 & E1 & Hok1 & Hu1 & Hp1 & Hl1); simpl; try done; try lia.
  assert (T : touch m root a m1 a1).
  { apply (next_table_touch m a root [] root (vpn2 vt) t1); try done; [apply (so_map _ _ _ Hs)|simpl; lia]. }
  unfold set_l1_page_table_for_phys. rewrite E1. cbn [obind]. change (tpath m1 root [vpn2 vt] = Some t1) in Hp1. pose proof (mo_wf _ _ _ Hok1) as Hwf1.
  assert (Hpo : path_ok [vpn2 vt]) by (split; [simpl; lia|by constructor]).
  destruct (wf_frame _ _ _ Hwf1 _ _ Hpo Hp1) as [Hf1 _].
  destruct (graft_paths m1 root (free_frames a1) (vpn2 vt) t1 (vpn1 vt) L Hwf1 Hp1 H2 H1 HL) as (Hnew & Hcase & Hleaf & Hwf').
  { intros [Hx|Hx]; apply HnL, T; [by left|by right]. }
  set (m' := upd m1 _ _) in *.
  assert (Htr : forall v, lo <= v < hi -> leaf m' root (vpns v) = leaf m root (vpns v)).
  { intros v Hr. rewrite <- Hl1 by (done || apply vpn_ok). by apply Hleaf, Hi. }
  assert (Hv : forall v, lo <= v < hi -> virt_to_phys m' root v = virt_to_phys m root v) by (intros v Hr; by rewrite !virt_to_phys_leaf, Htr).
  assert (Hown : forall f, owned m' root a1 f -> f = L \/ owned m root a f).
  { intros f [Hx|(q & Hq & Hx)]; [right; apply T; by left|]. destruct (Hcase q f Hq Hx) as [[_ ->]|[Hx' _]]; [by left|right; apply T; right; by exists q]. }
  exists m', a1. split; [done|]. split_and!; [|done|done| |done|done].
  - split.
    + split; [apply Hok1|done|apply Hok1].
    + intros v Hr e k. rewrite Htr by done. by apply (so_4k _ _ _ Hs).
    + intros v p Hr. rewrite Hv by done. intros Hp [E|Ho]%Hown; [by apply (HmL v p Hr Hp)|by apply (so_apart _ _ _ Hs v p Hr Hp)].
    + intros v v' p Hr Hr'. rewrite !Hv by done. by apply (so_inj _ _ _ Hs).
  - intros b Hb. unfold m', upd. rewrite (proj2 (Z.eqb_neq _ _)); [by apply T|]. intros ->. apply Hb, T.
    rewrite (proj1 (slot_page _ _ Hf1 H1)). right. by exists [vpn2 vt].
Qed.

(** ** The space of a process *)
Definition space_ok : memory -> Z -> A -> Prop := space_in 0 USER_END.

Lemma user_window : window 0 USER_END.
Proof. done. Qed.

Lemma grow_space m (a : A) root virt n flags :
  space_ok m root a -> flags_ok flags ->
  virt mod 4096 = 0 -> 0 <= virt -> virt + Z.of_nat n * 4096 <= USER_END -> (3 * n <= length (free_frames a))%nat ->
  exists m' a', allocate_and_map_pages_zeroed m a root virt (Z.of_nat n * 4096) flags = Ret (m', a') /\
    space_ok m' root a' /\ (length (free_frames a) <= length (free_frames a') + 3 * n)%nat /\
    (forall v, virt <= v < virt + Z.of_nat n * 4096 ->
       exists p, virt_to_phys m' root v = Some p /\ bget m' p = 0) /\
    (forall v, 0 <= v < USER_END -> ~ virt <= v < virt + Z.of_nat n * 4096 ->
       virt_to_phys m' root v = virt_to_phys m root v /\
       forall p, virt_to_phys m root v = Some p -> bget m' p = bget m p).
Proof.
  intros Hs Hfl Hva Hv0 Hv1 Hfree.
  destruct (grow_in 0 USER_END m a root virt n flags true user_window Hs Hfl Hva Hv0 Hv1 Hfree) as (m' & a' & Hrun & Hs' & Hn & Hin & Hout & _).
  exists m', a'. split_and!; [exact Hrun|done|done| |done]. intros v Hv. destruct (Hin v Hv) as (p & Hp & Hz). exists p. auto.
Qed.

Lemma store_space m (a : A) root v data old :
  space_ok m root a -> 0 <= v -> v + Z.of_nat (length data) <= USER_END -> Forall byte_ok data ->
  load_bytes m root v (length data) = Ok old ->
  exists m', copy_out m root v data = Ret (Ok tt, m') /\ space_ok m' root a /\
    load_bytes m' root v (length data) = Ok data /\
    (forall b, (forall w p, v <= w < v + Z.of_nat (length data) -> virt_to_phys m root w = Some p -> p <> b) -> bget m' b = bget m b) /\
    forall w n, 0 <= w -> w + Z.of_nat n <= USER_END -> w + Z.of_nat n <= v \/ v + Z.of_nat (length data) <= w ->
      load_bytes m' root w n = load_bytes m root w n.
Proof.
  intros Hs Hv0 Hv1 Hb Hl. destruct (store_in 0 USER_END m a root v data old user_window Hs Hv0 Hv1 Hb Hl)
    as (m' & _ & E & Hs' & Hd & _ & _ & Hp & Ho). by exists m'.
Qed.
End space.

End Space.
