(* ===== verification/Syscall.v ===== *)
(** * System calls

    Models [src/src/syscall/]: the dispatcher [handle] (mod.rs), the file calls
    over the table of descriptors (file.rs), [mmap] and [brk] (memory.rs), the
    stubs (signal.rs, process.rs) and the error numbers (errno.rs), with the
    trap frame of types/src/lib.rs and the process context of process.rs.

    Files are any [KernelFiles]: what the calls use of the virtual file
    system.  [vec_zeroed] is the allocation of a kernel buffer; a size the
    allocator cannot represent panics, running out of heap is not modelled.
    [yield_now] gives the processor away and comes back with the caller's
    state (see [Thread]); it has no effect here. *)

From S2P Require Import Prelude Bytes Memory PageAllocator PageMapper UserMem Uaccess Space File Ramfs.

(** ** Trap frames (types/src/lib.rs) *)
Module Tf.

(** [GpRegisters]: x1 to x31, in order. *)
Definition GpRegisters := list Z.

Definition get (r : GpRegisters) (index : Z) : outcome Z :=
  if index =? 0 then Ret 0
  else if (1 <=? index) && (index <=? 31) then deref (r !! Z.to_nat (index - 1))
  else Panic.

(** A write through [get_mut]. *)
Definition set (r : GpRegisters) (index x : Z) : outcome GpRegisters :=
  if index =? 0 then Panic
  else if (1 <=? index) && (index <=? 31) then Ret (<[Z.to_nat (index - 1) := x]> r)
  else Panic.

Record ProcessTrapFrame := mkFrame {
  registers : GpRegisters; pc : Z; sepc : Z; sstatus : Z; stval : Z; scause : Z; satp : Z }.

(** The argument registers a0 to a7 are x10 to x17. *)
Definition a (n : nat) (tf : ProcessTrapFrame) : Z := default 0 (registers tf !! (9 + n)%nat).

Definition set_a0 (x : Z) (tf : ProcessTrapFrame) : ProcessTrapFrame :=
  mkFrame (<[9%nat := x]> (registers tf)) (pc tf) (sepc tf) (sstatus tf) (stval tf) (scause tf) (satp tf).

Definition set_pc (x : Z) (tf : ProcessTrapFrame) : ProcessTrapFrame :=
  mkFrame (registers tf) x (sepc tf) (sstatus tf) (stval tf) (scause tf) (satp tf).

End Tf.

Module Sys.
Import Pte Mapper UMem Ua Space Fl Tf.

(** errno.rs, as the [usize] a process sees. *)
Definition as_usize (e : Z) : Z := e mod USIZE.
Definition ENOENT : Z := -2.
Definition EIO : Z := -5.
Definition EBADF : Z := -9.
Definition EFAULT : Z := -14.

(** ** What the calls use of the virtual file system *)
Class KernelFiles (W F : Type) := {
  k_open : W -> list Z -> outcome (result F Error * W);
  k_read : W -> F -> Z -> outcome (result (list Z) Error * F * W);
  k_write : W -> F -> list Z -> outcome (result Z Error * F * W);
  k_ino : F -> Z;
  k_type : F -> FileType;
  k_len : F -> Z;
  k_rdev : F -> option (Z * Z) }.

Section syscalls.
Context {W F A : Type} `{KernelFiles W F} `{FrameAllocator A}.

(** [process::Context] *)
Record Context_ := mkContext {
  root_table : Z; heap_begin : Z; heap_end : Z; mmap_next : Z; files : list (option F) }.

(** What a system call works on. *)
Record kstate := mkK { mem : memory; frames : A; ctx : Context_; world : W; thread_id : Z }.

Definition with_ctx (c : Context_) (k : kstate) : kstate := mkK (mem k) (frames k) c (world k) (thread_id k).
Definition with_mem (m : memory) (k : kstate) : kstate := mkK m (frames k) (ctx k) (world k) (thread_id k).
Definition with_files (fs : list (option F)) (c : Context_) : Context_ :=
  mkContext (root_table c) (heap_begin c) (heap_end c) (mmap_next c) fs.
Definition with_file (fd : Z) (f : F) (w : W) (k : kstate) : kstate :=
  mkK (mem k) (frames k) (with_files (<[Z.to_nat fd := Some f]> (files (ctx k))) (ctx k)) w (thread_id k).

(** [ctx.files.get(fd)], with the pattern [Some(Some(f))]. *)
Definition get_file (k : kstate) (fd : Z) : option F := mjoin (files (ctx k) !! Z.to_nat fd).

(** [alloc::vec![0u8; n]] *)
Definition vec_zeroed (n : Z) : outcome unit := if n <? 2 ^ 63 then Ret tt else Panic.

(** ** Files *)
Definition sys_write (fd buf count : Z) (k : kstate) : outcome (Z * kstate) :=
  match get_file k fd with
  | None => Ret (EBADF, k)
  | Some file =>
      let! _ := vec_zeroed count in
      let! r := copy_in (mem k) (root_table (ctx k)) buf count in
      match r with
      | Err _ => Ret (EFAULT, k)
      | Ok kbuf =>
          let! '(r, file, w) := k_write (world k) file kbuf in
          let k := with_file fd file w k in
          match r with
          | Err _ => Ret (EIO, k)
          | Ok written => Ret (written, k)
          end
      end
  end.

Definition write (tf : ProcessTrapFrame) (k : kstate) : outcome (ProcessTrapFrame * kstate) :=
  let! '(r, k) := sys_write (a 0 tf) (a 1 tf) (a 2 tf) k in
  Ret (set_a0 (as_usize r) tf, k).

(** The first free slot of the table, or a new one. *)
Definition alloc_fd (file : F) (fs : list (option F)) : nat * list (option F) :=
  match list_find (fun slot => slot = None) fs with
  | Some (i, _) => (i, <[i := Some file]> fs)
  | None => (length fs, fs ++ [Some file])
  end.

Definition openat (tf : ProcessTrapFrame) (k : kstate) : outcome (ProcessTrapFrame * kstate) :=
  let! r := copy_in_str (mem k) (root_table (ctx k)) (a 1 tf) 256 in
  match r with
  | Err _ => Ret (set_a0 (as_usize EFAULT) tf, k)
  | Ok path =>
      let! '(r, w) := k_open (world k) path in
      let k := mkK (mem k) (frames k) (ctx k) w (thread_id k) in
      match r with
      | Err _ => Ret (set_a0 (as_usize ENOENT) tf, k)
      | Ok file =>
          let '(fd, fs) := alloc_fd file (files (ctx k)) in
          Ret (set_a0 (Z.of_nat fd) tf, with_ctx (with_files fs (ctx k)) k)
      end
  end.

(** [fcntl] does nothing, not even to [a0]. *)
Definition fcntl (tf : ProcessTrapFrame) (k : kstate) : outcome (ProcessTrapFrame * kstate) := Ret (tf, k).

Definition STAT_DEFAULT_MODE : Z := 0x124.
Definition STAT_BLKSIZE : Z := 4096.
Definition RDEV_MINOR_BITS : Z := 8.

(** [struct Stat]: its fields in the order of the layout, the ones that stay
    zero included. *)
Record Stat := mkStat { st_ino : Z; st_mode : Z; st_nlink : Z; st_rdev : Z; st_size : Z; st_blksize : Z }.

Definition stat_bytes (s : Stat) : list Z :=
  to_le 8 0 ++ to_le 8 (st_ino s) ++ to_le 4 (st_mode s) ++ to_le 4 (st_nlink s) ++ to_le 4 0 ++ to_le 4 0 ++
  to_le 8 (st_rdev s) ++ to_le 8 0 ++ to_le 8 (st_size s) ++ to_le 4 (st_blksize s) ++ to_le 4 0 ++
  concat (replicate 7 (to_le 8 0)) ++ to_le 4 0 ++ to_le 4 0.

Definition mode_type (t : FileType) : Z :=
  match t with
  | RegularFile => S_IFREG
  | Directory => S_IFDIR
  | CharDevice => S_IFCHR
  | BlockDevice => S_IFBLK
  end.

Definition stat_of (f : F) : Stat :=
  mkStat (k_ino f) (Z.lor (mode_type (k_type f)) STAT_DEFAULT_MODE) 1
    (match k_rdev f with
     | Some (major, minor) => Z.lor (Z.shiftl major RDEV_MINOR_BITS) minor
     | None => 0
     end) (k_len f) STAT_BLKSIZE.

Definition newfstat (tf : ProcessTrapFrame) (k : kstate) : outcome (ProcessTrapFrame * kstate) :=
  match get_file k (a 0 tf) with
  | None => Ret (set_a0 (as_usize EBADF) tf, k)
  | Some f =>
      let! '(r, m) := copy_out (mem k) (root_table (ctx k)) (a 1 tf) (stat_bytes (stat_of f)) in
      let k := with_mem m k in
      match r with
      | Err _ => Ret (set_a0 (as_usize EFAULT) tf, k)
      | Ok _ => Ret (set_a0 0 tf, k)
      end
  end.

Definition read (tf : ProcessTrapFrame) (k : kstate) : outcome (ProcessTrapFrame * kstate) :=
  let fd := a 0 tf in
  match get_file k fd with
  | None => Ret (set_a0 (as_usize EBADF) tf, k)
  | Some file =>
      let! _ := vec_zeroed (a 2 tf) in
      let! '(r, file, w) := k_read (world k) file (a 2 tf) in
      let k := with_file fd file w k in
      match r with
      | Err _ => Ret (set_a0 (as_usize EIO) tf, k)
      | Ok bytes =>
          if 0 <? Z.of_nat (length bytes) then
            let! '(r, m) := copy_out (mem k) (root_table (ctx k)) (a 1 tf) bytes in
            let k := with_mem m k in
            match r with
            | Err _ => Ret (set_a0 (as_usize EFAULT) tf, k)
            | Ok _ => Ret (set_a0 (Z.of_nat (length bytes)) tf, k)
            end
          else Ret (set_a0 (Z.of_nat (length bytes)) tf, k)
      end
  end.

Definition close (tf : ProcessTrapFrame) (k : kstate) : outcome (ProcessTrapFrame * kstate) :=
  let fd := a 0 tf in
  match get_file k fd with
  | Some _ => Ret (set_a0 0 tf, with_ctx (with_files (<[Z.to_nat fd := None]> (files (ctx k))) (ctx k)) k)
  | None => Ret (set_a0 (as_usize EBADF) tf, k)
  end.

(** ** Memory *)
Definition USER_RW : PageFlags := Z.lor (Z.lor (Z.lor (Z.lor READ WRITE) ACCESSED) DIRTY) USER.
Definition EXPECTED_PROT : Z := 0x3.
Definition EXPECTED_FLAGS : Z := 0x22.

Definition mmap (tf : ProcessTrapFrame) (k : kstate) : outcome (ProcessTrapFrame * kstate) :=
  let addr_hint := a 0 tf in
  let len := a 1 tf in
  let prot := a 2 tf in
  let flags := a 3 tf in
  if negb (addr_hint =? 0) || (len =? 0) || negb (prot =? EXPECTED_PROT) || negb (flags =? EXPECTED_FLAGS) then
    Ret (set_a0 (USIZE - 1 - 37 + 1) tf, k)
  else
    let c := ctx k in
    let! size := Mem.align_up len in
    let virt_addr := mmap_next c in
    let! '(m, fr) := allocate_and_map_pages_zeroed (mem k) (frames k) (root_table c) virt_addr size USER_RW in
    let! next := uadd (mmap_next c) size in
    Ret (set_a0 virt_addr tf,
         mkK m fr (mkContext (root_table c) (heap_begin c) (heap_end c) next (files c)) (world k) (thread_id k)).

Definition brk (tf : ProcessTrapFrame) (k : kstate) : outcome (ProcessTrapFrame * kstate) :=
  let c := ctx k in
  if a 0 tf =? 0 then Ret (set_a0 (heap_end c) tf, k)
  else
    let! top := Mem.align_up (a 0 tf) in
    let! size := usub top (heap_end c) in
    let! '(m, fr) := allocate_and_map_pages_zeroed (mem k) (frames k) (root_table c) (heap_end c) size USER_RW in
    let! e := uadd (heap_end c) size in
    Ret (set_a0 e tf, mkK m fr (mkContext (root_table c) (heap_begin c) e (mmap_next c) (files c)) (world k) (thread_id k)).

(** ** The rest *)
Definition generic_stub (tf : ProcessTrapFrame) (k : kstate) : outcome (ProcessTrapFrame * kstate) := Ret (set_a0 0 tf, k).
Definition set_tid_address (tf : ProcessTrapFrame) (k : kstate) : outcome (ProcessTrapFrame * kstate) :=
  Ret (set_a0 (thread_id k) tf, k).
Definition gettid (tf : ProcessTrapFrame) (k : kstate) : outcome (ProcessTrapFrame * kstate) :=
  Ret (set_a0 (thread_id k) tf, k).

(** The [match] on the number of the call; [None] for a number it does not
    know. *)
Definition syscall (number : Z) (tf : ProcessTrapFrame) (k : kstate) : option (outcome (ProcessTrapFrame * kstate)) :=
  if bool_decide (number ∈ [73; 134; 132; 135]) then Some (generic_stub tf k)
  else if number =? 96 then Some (set_tid_address tf k)
  else if number =? 178 then Some (gettid tf k)
  else if number =? 222 then Some (mmap tf k)
  else if number =? 214 then Some (brk tf k)
  else if number =? 64 then Some (write tf k)
  else if number =? 56 then Some (openat tf k)
  else if number =? 25 then Some (fcntl tf k)
  else if number =? 80 then Some (newfstat tf k)
  else if number =? 63 then Some (read tf k)
  else if number =? 57 then Some (close tf k)
  else None.

(** [handle]; [Ret None] stands for the endless loop on an unknown call. *)
Definition handle (tf : ProcessTrapFrame) (k : kstate) : outcome (option (ProcessTrapFrame * kstate)) :=
  match syscall (a 7 tf) tf k with
  | None => Ret None
  | Some run =>
      let! '(tf, k) := run in
      let! pc := uadd (sepc tf) 4 in
      Ret (Some (set_pc pc tf, k))
  end.

(** ** The table of descriptors

    The table stands for the finite map from descriptors to open files. *)
Definition fdmap (fs : list (option F)) : gmap nat F := omap id (map_seq 0 fs).

Lemma fdmap_lookup fs i : fdmap fs !! i = mjoin (fs !! i).
Proof. unfold fdmap. rewrite lookup_omap, lookup_map_seq_0. by destruct (fs !! i) as [[]|]. Qed.

Lemma alloc_fd_spec file fs : let '(fd, fs') := alloc_fd file fs in
  fdmap fs' = <[fd := file]> (fdmap fs) /\ fdmap fs !! fd = None /\ (forall j, (j < fd)%nat -> is_Some (fdmap fs !! j)).
Proof.
  unfold alloc_fd. destruct (list_find (fun slot => slot = None) fs) as [[i x]|] eqn:E.
  - apply list_find_Some in E as (Hi & -> & Hlt). split_and!.
    + apply map_eq. intros j. rewrite lookup_insert, !fdmap_lookup, list_lookup_insert.
      pose proof (lookup_lt_Some _ _ _ Hi). by repeat case_decide; subst; try lia.
    + by rewrite fdmap_lookup, Hi.
    + intros j Hj. rewrite fdmap_lookup. destruct (fs !! j) as [[f|]|] eqn:Ej; [by exists f|by destruct (Hlt j None)|].
      apply lookup_ge_None in Ej. pose proof (lookup_lt_Some _ _ _ Hi). lia.
  - apply list_find_None in E. split_and!.
    + apply map_eq. intros j. rewrite lookup_insert, !fdmap_lookup. case_decide as Hj; [subst; by rewrite list_lookup_middle|].
      destruct (decide (j < length fs)%nat); [by rewrite lookup_app_l|].
      rewrite !lookup_ge_None_2; [done|lia|rewrite length_app; simpl; lia].
    + rewrite fdmap_lookup, lookup_ge_None_2 by lia. done.
    + intros j Hj. rewrite fdmap_lookup. destruct (lookup_lt_is_Some_2 fs j Hj) as [[f|] Ej]; rewrite Ej; [by exists f|].
      eapply Forall_lookup_1 in E; [|exact Ej]. done.
Qed.

(** the file table is a finite map.  A successful [openat] returns the
    lowest descriptor in use by no open file and binds it to the new file;
    [close] of an open descriptor returns 0 and unbinds it, and of any other
    number returns EBADF; no other descriptor changes. *)
Theorem fd_table_spec tf k :
  (forall path file w,
     copy_in_str (mem k) (root_table (ctx k)) (a 1 tf) 256 = Ret (Ok path) -> k_open (world k) path = Ret (Ok file, w) ->
     exists fd k', openat tf k = Ret (set_a0 (Z.of_nat fd) tf, k') /\
       fdmap (files (ctx k')) = <[fd := file]> (fdmap (files (ctx k))) /\
       fdmap (files (ctx k)) !! fd = None /\ (forall j, (j < fd)%nat -> is_Some (fdmap (files (ctx k)) !! j))) /\
  (exists k', close tf k =
     Ret (set_a0 (if fdmap (files (ctx k)) !! Z.to_nat (a 0 tf) then 0 else as_usize EBADF) tf, k') /\
     fdmap (files (ctx k')) = delete (Z.to_nat (a 0 tf)) (fdmap (files (ctx k)))).
Proof.
  split.
  - intros path file w E1 E2. unfold openat. rewrite E1. cbn [obind]. rewrite E2. cbn [obind ctx files].
    pose proof (alloc_fd_spec file (files (ctx k))) as Hs. destruct (alloc_fd file (files (ctx k))) as [fd fs'].
    exists fd. eexists. split; [done|]. exact Hs.
  - unfold close, get_file. rewrite fdmap_lookup. set (fd := Z.to_nat (a 0 tf)).
    destruct (files (ctx k) !! fd) as [[f|]|] eqn:E; cbn [mjoin option_join].
    + eexists. split; [done|]. cbn [with_ctx with_files ctx files]. apply map_eq. intros j.
      rewrite lookup_delete, !fdmap_lookup, list_lookup_insert. pose proof (lookup_lt_Some _ _ _ E).
      by repeat case_decide; subst; try lia.
    + exists k. split; [done|]. symmetry. apply delete_id. by rewrite fdmap_lookup, E.
    + exists k. split; [done|]. symmetry. apply delete_id. by rewrite fdmap_lookup, E.
Qed.

(** ** What a call may change of the frame *)
Definition only_a0 (tf tf' : ProcessTrapFrame) : Prop := tf' = tf \/ exists x, tf' = set_a0 x tf.

Definition call_ok (tf : ProcessTrapFrame) (k : kstate) (run : outcome (ProcessTrapFrame * kstate)) : Prop :=
  match run with
  | Ret (tf', k') => only_a0 tf tf' /\ root_table (ctx k') = root_table (ctx k)
  | _ => True
  end.

Lemma call_bind {B} (m : outcome B) tf k run : (forall b, call_ok tf k (run b)) -> call_ok tf k (obind m run).
Proof. intros Hr. by destruct m; cbn [obind]. Qed.

Lemma call_a0 tf k x k' : root_table (ctx k') = root_table (ctx k) -> call_ok tf k (Ret (set_a0 x tf, k')).
Proof. intros E. split; [right; by exists x|done]. Qed.

Ltac call_step :=
  match goal with
  | |- call_ok _ _ (obind _ _) => apply call_bind; intros ?
  | |- call_ok _ _ (Ret (set_a0 _ _, _)) => apply call_a0; done
  | |- call_ok _ _ (match ?x with _ => _ end) => destruct x
  | |- call_ok _ _ (let '_ := ?x in _) => destruct x
  end.

Lemma sys_write_root fd buf count k r k' : sys_write fd buf count k = Ret (r, k') -> root_table (ctx k') = root_table (ctx k).
Proof.
  unfold sys_write. destruct (get_file k fd); [|by intros [= _ <-]]. intros E. bind_inv E. bind_inv K.
  destruct r1; [|by injection K0 as _ <-]. bind_inv K0. destruct r1 as [[[n|e] f'] w]; by injection K as _ <-.
Qed.

Lemma syscall_only_a0 n tf k run : syscall n tf k = Some run -> call_ok tf k run.
Proof.
  unfold syscall. intros Hs.
  repeat match type of Hs with (if ?b then _ else _) = _ => destruct b end; try discriminate Hs; injection Hs as <-;
  unfold generic_stub, set_tid_address, gettid, mmap, brk, openat, newfstat, read, close; try (by repeat call_step).
  - unfold write. destruct (sys_write _ _ _ _) as [[r k']| |] eqn:E; [|done..]. cbn [obind].
    apply call_a0. by apply sys_write_root in E.
  - split; [by left|done].
Qed.

Lemma handle_only_a0 tf k tf' k' : handle tf k = Ret (Some (tf', k')) ->
  exists tf1, only_a0 tf tf1 /\ tf' = set_pc (sepc tf + 4) tf1 /\ root_table (ctx k') = root_table (ctx k).
Proof.
  unfold handle. destruct (syscall (a 7 tf) tf k) as [run|] eqn:E; [|done]. apply syscall_only_a0 in E.
  intros Hr. bind_inv Hr. subst run. destruct r as [tf1 k1]. bind_inv K. apply uadd_Ret_inv in E0 as [-> _].
  injection K0 as <- <-. destruct E as [Ho ->]. exists tf1. split_and!; [done| |done]. by destruct Ho as [->|[x ->]].
Qed.

(** a system call returns behind its [ecall] and changes one register.
    Whatever the call, its arguments and its result, when [handle] returns, the
    program counter is the trapping instruction's address plus 4, every
    general register but a0 and every other field of the frame are as at the
    trap, and the process still runs on its own page table. *)
Theorem handle_frame tf k tf' k' :
  handle tf k = Ret (Some (tf', k')) ->
  pc tf' = sepc tf + 4 /\ sepc tf' = sepc tf /\ sstatus tf' = sstatus tf /\ satp tf' = satp tf /\
  (forall i, i <> 9%nat -> registers tf' !! i = registers tf !! i) /\ root_table (ctx k') = root_table (ctx k).
Proof.
  intros Hr. destruct (handle_only_a0 tf k tf' k' Hr) as (tf1 & Ho & -> & ->).
  destruct Ho as [->|[x ->]]; cbn [set_pc set_a0 pc sepc sstatus satp registers]; split_and!; try done.
  intros i Hi. apply (list_lookup_insert_ne (registers tf)); congruence.
Qed.

(** ** Memory *)
Lemma align_up_spec x : 0 <= x -> x + 4096 < USIZE -> exists n : nat,
  Mem.align_up x = Ret (Z.of_nat n * 4096) /\ x <= Z.of_nat n * 4096 < x + 4096.
Proof.
  intros Hx0 Hx1. unfold Mem.align_up, Mem.PAGE_SIZE. rewrite uadd_ok by lia. cbn [obind].
  pose proof (align_up_to_ge x 12 ltac:(lia)) as Hge. pose proof (align_up_to_mod x 12 ltac:(lia)) as Hm.
  change (andn (x + 4096 - 1) (4096 - 1)) with (align_up_to x (2 ^ 12)). change (2 ^ 12) with 4096 in *.
  exists (Z.to_nat (align_up_to x 4096 / 4096)). split; [f_equal; lia|lia].
Qed.

(** The state of a process between system calls. *)
Record proc_ok (k : kstate) : Prop := {
  po_space : space_ok (mem k) (root_table (ctx k)) (frames k);
  po_heap : heap_end (ctx k) mod 4096 = 0 /\ 0 <= heap_end (ctx k);
  po_mmap : mmap_next (ctx k) mod 4096 = 0 /\ 0 <= mmap_next (ctx k) }.

(** What the process sees: the range at [v] became zeros, all else is as it was. *)
Definition grown_by (k k' : kstate) (v size : Z) : Prop :=
  let root := root_table (ctx k) in
  root_table (ctx k') = root /\ files (ctx k') = files (ctx k) /\
  load_bytes (mem k') root v (Z.to_nat size) = Ok (replicate (Z.to_nat size) 0) /\
  forall w n, 0 <= w -> w + Z.of_nat n <= USER_END -> w + Z.of_nat n <= v \/ v + size <= w ->
    load_bytes (mem k') root w n = load_bytes (mem k) root w n.

Lemma user_rw_ok : flags_ok USER_RW.
Proof. by vm_compute. Qed.

Lemma grow_loads m m' root v n :
  0 <= v -> v + Z.of_nat n * 4096 <= USER_END ->
  (forall w, v <= w < v + Z.of_nat n * 4096 -> exists p, virt_to_phys m' root w = Some p /\ bget m' p = 0) ->
  (forall w, 0 <= w < USER_END -> ~ v <= w < v + Z.of_nat n * 4096 ->
     virt_to_phys m' root w = virt_to_phys m root w /\ forall p, virt_to_phys m root w = Some p -> bget m' p = bget m p) ->
  load_bytes m' root v (Z.to_nat (Z.of_nat n * 4096)) = Ok (replicate (Z.to_nat (Z.of_nat n * 4096)) 0) /\
  forall w j, 0 <= w -> w + Z.of_nat j <= USER_END -> w + Z.of_nat j <= v \/ v + Z.of_nat n * 4096 <= w ->
    load_bytes m' root w j = load_bytes m root w j.
Proof.
  intros Hv0 Hv1 Hin Hout. split.
  - apply (load_zeros m' root v); [|done]. intros i Hi. apply Hin. lia.
  - intros w j Hw0 Hw1 Hd. apply load_same. intros i Hi. apply Hout; lia.
Qed.

(** C9: [mmap] gives the process fresh zeroed memory.  With frames enough, an
    anonymous private mapping of [len] bytes returns the next free address,
    [len] rounded up to pages reads there as zeros, every other range of
    the process reads as before, and the state of the process stays sound: no two
    addresses share a byte, and none reaches a page table or a free frame. *)
Theorem mmap_spec tf k (Hk : proc_ok k)
  (Ha0 : a 0 tf = 0) (Hlen : 0 < a 1 tf) (Ha2 : a 2 tf = EXPECTED_PROT) (Ha3 : a 3 tf = EXPECTED_FLAGS)
  (Hend : mmap_next (ctx k) + a 1 tf + 4096 <= USER_END)
  (Hfree : 3 * (a 1 tf + 4096) <= 4096 * Z.of_nat (length (free_frames (frames k)))) :
  exists k' size, mmap tf k = Ret (set_a0 (mmap_next (ctx k)) tf, k') /\ a 1 tf <= size < a 1 tf + 4096 /\
    mmap_next (ctx k') = mmap_next (ctx k) + size /\ proc_ok k' /\ grown_by k k' (mmap_next (ctx k)) size.
Proof.
  destruct Hk as [Hs Hh [Hm Hm0]]. assert (HU : USER_END < USIZE) by done.
  destruct (align_up_spec (a 1 tf)) as (n & En & Hn); [lia..|].
  destruct (grow_space (mem k) (frames k) (root_table (ctx k)) (mmap_next (ctx k)) n USER_RW Hs user_rw_ok Hm Hm0)
    as (m' & a' & Hrun & Hs' & _ & Hin & Hout); [lia|lia|].
  unfold mmap. rewrite Ha0, Ha2, Ha3, (proj2 (Z.eqb_neq (a 1 tf) 0)) by lia. cbn [negb Z.eqb orb].
  change (negb (EXPECTED_PROT =? EXPECTED_PROT) || negb (EXPECTED_FLAGS =? EXPECTED_FLAGS)) with false. cbn iota.
  rewrite En. cbn [obind]. rewrite Hrun. cbn [obind]. rewrite uadd_ok by lia. cbn [obind].
  eexists _, _. split; [done|]. split; [exact Hn|]. split; [done|]. split.
  - split; cbn; [done|done|lia].
  - destruct (grow_loads (mem k) m' (root_table (ctx k)) (mmap_next (ctx k)) n Hm0 ltac:(lia) Hin Hout). by split_and!.
Qed.

(** [brk] likewise, at the end of the heap. *)
Theorem brk_spec tf k (Hk : proc_ok k) (Ha : heap_end (ctx k) <= a 0 tf) (Hpos : 0 < a 0 tf) (Hend : a 0 tf + 4096 <= USER_END)
  (Hfree : 3 * (a 0 tf + 4096 - heap_end (ctx k)) <= 4096 * Z.of_nat (length (free_frames (frames k)))) :
  exists k' e, brk tf k = Ret (set_a0 e tf, k') /\ a 0 tf <= e < a 0 tf + 4096 /\
    heap_end (ctx k') = e /\ proc_ok k' /\ grown_by k k' (heap_end (ctx k)) (e - heap_end (ctx k)).
Proof.
  destruct Hk as [Hs [Hh Hh0] Hmm]. assert (HU : USER_END < USIZE) by done.
  destruct (align_up_spec (a 0 tf)) as (t & Et & Ht); [lia..|].
  set (n := Z.to_nat ((Z.of_nat t * 4096 - heap_end (ctx k)) / 4096)).
  assert (Hn : Z.of_nat t * 4096 - heap_end (ctx k) = Z.of_nat n * 4096) by (unfold n; lia).
  destruct (grow_space (mem k) (frames k) (root_table (ctx k)) (heap_end (ctx k)) n USER_RW Hs user_rw_ok Hh Hh0)
    as (m' & a' & Hrun & Hs' & _ & Hin & Hout); [lia|lia|].
  unfold brk. rewrite (proj2 (Z.eqb_neq (a 0 tf) 0)) by lia. rewrite Et. cbn [obind]. rewrite usub_ok by lia. cbn [obind].
  rewrite Hn, Hrun. cbn [obind]. rewrite uadd_ok by lia. cbn [obind].
  eexists _, _. split; [done|]. split; [lia|]. split; [done|]. split.
  - split; cbn; [done|lia|done].
  - replace (heap_end (ctx k) + Z.of_nat n * 4096 - heap_end (ctx k)) with (Z.of_nat n * 4096) by lia.
    destruct (grow_loads (mem k) m' (root_table (ctx k)) (heap_end (ctx k)) n Hh0 ltac:(lia) Hin Hout). by split_and!.
Qed.

(** [brk] to a lower address panics the kernel.  Asking for an end of the
    heap that rounds up below the present one underflows. *)
Theorem brk_shrink_panics tf k (Hlow : 0 < a 0 tf) (Hbelow : a 0 tf + 4096 <= heap_end (ctx k)) (Hmax : heap_end (ctx k) < USIZE) :
  brk tf k = Panic.
Proof.
  destruct (align_up_spec (a 0 tf)) as (n & En & Hn); [lia..|].
  unfold brk. rewrite (proj2 (Z.eqb_neq (a 0 tf) 0)) by lia. rewrite En. cbn [obind]. by rewrite usub_panic by lia.
Qed.


(** [read] with a size of 2^63 or more panics the kernel: the size of the
    kernel's buffer comes from the process unchecked. *)
Theorem read_huge_panics tf k file (Hf : get_file k (a 0 tf) = Some file) (Hsize : 2 ^ 63 <= a 2 tf) :
  read tf k = Panic.
Proof. unfold read, vec_zeroed. rewrite Hf. by rewrite (proj2 (Z.ltb_ge _ _)). Qed.
End syscalls.

(** ** A process over the RAM file system *)
#[global] Instance ram_files : KernelFiles Ram.Ramfs (Ram.Inode * Z) := {
  k_open fs path :=
    let! r := Ram.walk fs (Ram.root fs) (components path) in
    match r with
    | Err e => Ret (Err e, fs)
    | Ok i => let! i := deref (Ram.store fs !! i) in Ret (Ok (i, 0), fs)
    end;
  k_read fs f n := let! '(r, off) := Ram.read f.1 f.2 n in Ret (r, (f.1, off), fs);
  k_write fs f _ := Ret (Err InvalidInput, f, fs);
  k_ino f := Ram.ino f.1;
  k_type f := Ram.file_type f.1;
  k_len f := Ram.len f.1;
  k_rdev f := Ram.rdev f.1 }.

Lemma demo_space : space_ok demo_mem demo_root demo_pages.
Proof.
  split; [apply demo_mapper_ok|intros v _; by apply leaf_empty|..].
  - intros v p _ Hp. rewrite virt_to_phys_leaf in Hp. pose proof (vpn_ok v) as Hv. apply Forall_cons in Hv as [Hv _].
    unfold vpns in Hp. cbn [leaf] in Hp. done.
  - intros v v' p _ _ Hp. rewrite virt_to_phys_leaf in Hp. unfold vpns in Hp. cbn [leaf] in Hp. done.
Qed.

(** A frame with the argument registers [a0] to [a3] and the call number [a7]. *)
Definition call_frame (a0 a1 a2 a3 a7 : Z) : ProcessTrapFrame :=
  mkFrame (replicate 9 0 ++ [a0; a1; a2; a3; 0; 0; 0; a7] ++ replicate 14 0) 0 0x1_0000 0 0 8 0.

Definition demo_k : kstate (W := Ram.Ramfs) (F := Ram.Inode * Z) (A := Pages.PageAllocator) :=
  mkK demo_mem demo_pages (mkContext demo_root 0x20000 0x20000 0x1_0000_0000 []) Ram.fs_a 1.

Lemma demo_k_ok : proc_ok demo_k.
Proof. split; [apply demo_space|done|done]. Qed.

Lemma mmap_spec_witness :
  exists k' size, mmap (call_frame 0 100 3 0x22 222) demo_k = Ret (set_a0 0x1_0000_0000 (call_frame 0 100 3 0x22 222), k') /\
    100 <= size /\ load_bytes (mem k') demo_root 0x1_0000_0000 (Z.to_nat size) = Ok (replicate (Z.to_nat size) 0).
Proof.
  destruct (mmap_spec (call_frame 0 100 3 0x22 222) demo_k demo_k_ok) as (k' & size & E & Hs & _ & _ & _ & _ & Hz & _);
    [reflexivity|done|reflexivity|reflexivity|by vm_compute|by vm_compute|].
  exists k', size. split; [exact E|]. split; [exact (proj1 Hs)|exact Hz].
Defined.

Lemma brk_spec_witness :
  exists k' e, brk (call_frame 0x20064 0 0 0 214) demo_k = Ret (set_a0 e (call_frame 0x20064 0 0 0 214), k') /\
    0x20064 <= e /\ heap_end (ctx k') = e.
Proof.
  destruct (brk_spec (call_frame 0x20064 0 0 0 214) demo_k demo_k_ok) as (k' & e & E & Hs & He & _);
    [by vm_compute|done|by vm_compute|by vm_compute|].
  exists k', e. split; [exact E|]. split; [exact (proj1 Hs)|exact He].
Defined.

Lemma brk_shrink_panics_witness : brk (call_frame 0x10000 0 0 0 214) demo_k = Panic.
Proof. apply (brk_shrink_panics (call_frame 0x10000 0 0 0 214) demo_k); by vm_compute. Defined.

Lemma handle_frame_witness :
  exists tf' k', handle (call_frame 5 0 0 0 178) demo_k = Ret (Some (tf', k')) /\ pc tf' = 0x1_0004 /\ a 0 tf' = 1.
Proof.
  eexists _, _. assert (E : handle (call_frame 5 0 0 0 178) demo_k = Ret (Some (set_pc 0x1_0004 (set_a0 1 (call_frame 5 0 0 0 178)), demo_k)))
    by reflexivity.
  split; [exact E|]. split; [|reflexivity]. exact (proj1 (handle_frame _ _ _ _ E)).
Defined.

(** A process with two pages and one open file. *)
Definition user_frames : Pages.PageAllocator :=
  match allocate_and_map_pages_zeroed demo_mem demo_pages demo_root 0x10000 8192 user_flags with
  | Ret (_, a) => a
  | _ => demo_pages
  end.

Definition hello : Ram.Inode := Ram.mkInode 2 RegularFile 5 None (Ram.File [104; 101; 108; 108; 111]).

Definition user_k : kstate (W := Ram.Ramfs) (F := Ram.Inode * Z) (A := Pages.PageAllocator) :=
  mkK user_mem user_frames (mkContext demo_root 0x20000 0x20000 0x1_0000_0000 [Some (hello, 1)]) Ram.fs_a 1.

Lemma user_k_ok : proc_ok user_k.
Proof.
  split; [|done|done].
  destruct (grow_space demo_mem demo_pages demo_root 0x10000 2 user_flags demo_space) as (m & a & Hrun & Hs & _);
    [by vm_compute|done|done|done|vm_compute; lia|].
  change (Z.of_nat 2 * 4096) with 8192 in Hrun. unfold user_k, user_mem, user_frames. cbn [mem ctx root_table frames].
  by rewrite Hrun.
Qed.


Lemma read_huge_panics_witness : read (call_frame 0 0x10ffe (2 ^ 63) 0 63) user_k = Panic.
Proof. apply (read_huge_panics (call_frame 0 0x10ffe (2 ^ 63) 0 63) user_k (hello, 1)); by vm_compute. Defined.

(** "/a" at 0x10000. *)
Definition open_k : kstate (W := Ram.Ramfs) (F := Ram.Inode * Z) (A := Pages.PageAllocator) :=
  mkK (snd (store_bytes user_mem demo_root 0x10000 [47; 97; 0])) user_frames
    (mkContext demo_root 0x20000 0x20000 0x1_0000_0000 [Some (hello, 1); None; Some (hello, 0)]) Ram.fs_a 1.

Lemma fd_table_spec_witness :
  exists fd k', openat (call_frame 0 0x10000 0 0 56) open_k = Ret (set_a0 (Z.of_nat fd) (call_frame 0 0x10000 0 0 56), k') /\
    fdmap (files (ctx k')) = <[fd := (Ram.mkInode 2 RegularFile 1 None (Ram.File [1]), 0)]> (fdmap (files (ctx open_k))).
Proof.
  destruct (proj1 (fd_table_spec (call_frame 0 0x10000 0 0 56) open_k) [47; 97]
    (Ram.mkInode 2 RegularFile 1 None (Ram.File [1]), 0) Ram.fs_a) as (fd & k' & E & Hm & _);
    [vm_compute; reflexivity|vm_compute; reflexivity|].
  exists fd, k'. split; [exact E|exact Hm].
Defined.

End Sys.
