(* ===== verification/Amo.v ===== *)
(** * Atomic memory operations in software

    Models [src/src/amo.rs]: on a processor that faults on atomics, the kernel
    decodes the trapping instruction and performs it.  [isa_amo] is what the
    RISC-V manual says the instruction does; the theorems compare the two. *)

From S2P Require Import Prelude Bytes PageMapper UserMem Uaccess Syscall.

Module Amo.
Import Mapper UMem Tf.

(** [read_unaligned], [read_volatile] and [write_volatile] of an [n]-byte
    integer. *)
Definition read_int (n : nat) (m : memory) (p : Z) : Z := from_le (read_bytes m p n).
Definition write_int (n : nat) (m : memory) (p x : Z) : memory := write_bytes m p (to_le n x).

Record fields := mkFields { opcode : Z; funct3 : Z; funct5 : Z; rd : Z; rs1 : Z; rs2 : Z }.

Definition decode (inst : Z) : fields :=
  mkFields (Z.land inst 0x7f) (Z.land (Z.shiftr inst 12) 0x7) (Z.land (Z.shiftr inst 27) 0x1f)
    (Z.land (Z.shiftr inst 7) 0x1f) (Z.land (Z.shiftr inst 15) 0x1f) (Z.land (Z.shiftr inst 20) 0x1f).

Definition with_regs (r : GpRegisters) (tf : ProcessTrapFrame) : ProcessTrapFrame :=
  mkFrame r (pc tf) (sepc tf) (sstatus tf) (stval tf) (scause tf) (satp tf).

(** [read_volatile] checks the alignment of its pointer in this build.  The
    three operations: the width in bytes and the value to store. *)
Definition amo_op (funct5 funct3 : Z) : option (nat * (Z -> Z -> Z)) :=
  if (funct5 =? 0x1) && (funct3 =? 0x2) then Some (4%nat, fun prev val => as_u32 val)
  else if (funct5 =? 0x0) && (funct3 =? 0x2) then Some (4%nat, fun prev val => (prev + as_u32 val) mod U32)
  else if (funct5 =? 0x0) && (funct3 =? 0x3) then Some (8%nat, fun prev val => (prev + val) mod USIZE)
  else None.

Definition handle_amo_fault (tf : ProcessTrapFrame) (m : memory) (root : Z) : outcome (ProcessTrapFrame * memory) :=
  let! phys_sepc := expect (virt_to_phys m root (sepc tf)) in
  let inst := decode (read_int 4 m phys_sepc) in
  if negb (opcode inst =? 0x2f) then Panic
  else
    let! virt_addr := get (registers tf) (rs1 inst) in
    let! phys_addr := expect (virt_to_phys m root virt_addr) in
    match amo_op (funct5 inst) (funct3 inst) with
    | None => Panic
    | Some (n, op) =>
        let! val := get (registers tf) (rs2 inst) in
        let! _ := if phys_addr mod Z.of_nat n =? 0 then Ret tt else Panic in
        let prev := read_int n m phys_addr in
        let m := write_int n m phys_addr (op prev val) in
        let! regs := set (registers tf) (rd inst) prev in
        let! pc := uadd (sepc tf) 4 in
        Ret (set_pc pc (with_regs regs tf), m)
    end.

(** ** The instruction set *)

(** An AMO instruction word. *)
Definition encode_amo (f5 aqrl r2 r1 f3 d : Z) : Z :=
  0x2f + d * 2 ^ 7 + f3 * 2 ^ 12 + r1 * 2 ^ 15 + r2 * 2 ^ 20 + aqrl * 2 ^ 25 + f5 * 2 ^ 27.

Lemma decode_encode f5 aqrl r2 r1 f3 d :
  0 <= f5 < 32 -> 0 <= aqrl < 4 -> 0 <= r2 < 32 -> 0 <= r1 < 32 -> 0 <= f3 < 8 -> 0 <= d < 32 ->
  decode (encode_amo f5 aqrl r2 r1 f3 d) = mkFields 0x2f f3 f5 d r1 r2.
Proof.
  intros. assert (L7 : forall x, Z.land x 0x7f = x mod 128) by (intros x; apply (Z.land_ones x 7); lia).
  assert (L3 : forall x, Z.land x 0x7 = x mod 8) by (intros x; apply (Z.land_ones x 3); lia).
  assert (L5 : forall x, Z.land x 0x1f = x mod 32) by (intros x; apply (Z.land_ones x 5); lia).
  unfold decode. rewrite L7, L3, !L5, !Z.shiftr_div_pow2 by lia. unfold encode_amo.
  change (2 ^ 7) with 128. change (2 ^ 12) with 4096. change (2 ^ 27) with 134217728. change (2 ^ 15) with 32768.
  change (2 ^ 20) with 1048576. change (2 ^ 25) with 33554432.
  f_equal; lia.
Qed.

(** Sign extension of an [n]-byte integer to a 64-bit register. *)
Definition sext (n : nat) (x : Z) : Z :=
  if x <? 256 ^ Z.of_nat n / 2 then x else x - 256 ^ Z.of_nat n + USIZE.

Inductive amo_kind := AmoSwapW | AmoAddW | AmoAddD.

Definition kind_funct5 (k : amo_kind) : Z := match k with AmoSwapW => 1 | _ => 0 end.
Definition kind_funct3 (k : amo_kind) : Z := match k with AmoAddD => 3 | _ => 2 end.
Definition kind_width (k : amo_kind) : nat := match k with AmoAddD => 8%nat | _ => 4%nat end.

(** The value stored: the low bits of the sum, or of the register. *)
Definition kind_op (k : amo_kind) (old val : Z) : Z :=
  match k with
  | AmoSwapW => val mod 2 ^ 32
  | AmoAddW => (old + val) mod 2 ^ 32
  | AmoAddD => (old + val) mod 2 ^ 64
  end.

(** x0 reads as zero and writes to it are dropped. *)
Definition xget (r : GpRegisters) (i : Z) : Z := if i =? 0 then 0 else default 0 (r !! Z.to_nat (i - 1)).
Definition xset (r : GpRegisters) (i x : Z) : GpRegisters := if i =? 0 then r else <[Z.to_nat (i - 1) := x]> r.

Definition isa_amo (k : amo_kind) (d r1 r2 : Z) (r : GpRegisters) (m : memory) (p : Z) : GpRegisters * memory :=
  let n := kind_width k in
  let old := read_int n m p in
  (xset r d (sext n old), write_int n m p (kind_op k old (xget r r2))).

Lemma get_xget r i : length r = 31%nat -> 0 <= i < 32 -> get r i = Ret (xget r i).
Proof.
  intros Hr Hi. unfold get, xget. destruct (Z.eqb_spec i 0); [done|].
  rewrite (proj2 (Z.leb_le 1 i)), (proj2 (Z.leb_le i 31)) by lia. cbn [andb].
  destruct (lookup_lt_is_Some_2 (r : list Z) (Z.to_nat (i - 1))) as [x Hx]; [lia|].
  unfold GpRegisters in *. by rewrite Hx.
Qed.

Lemma xget_xset r i x : length r = 31%nat -> 0 < i < 32 -> xget (xset r i x) i = x.
Proof.
  intros Hr Hi. unfold xget, xset. rewrite (proj2 (Z.eqb_neq i 0)) by lia.
  change GpRegisters with (list Z) in *. by rewrite list_lookup_insert_eq by lia.
Qed.

Lemma amo_op_kind k : exists op, amo_op (kind_funct5 k) (kind_funct3 k) = Some (kind_width k, op) /\
  forall old val, op old val = kind_op k old val.
Proof.
  destruct k; eexists; (split; [reflexivity|]); intros old val; cbn [kind_op].
  - done.
  - unfold as_u32. change (2 ^ 32) with U32. by rewrite Zplus_mod_idemp_r.
  - done.
Qed.

(** What the handler does with an AMO instruction and a destination other than x0. *)
Lemma handle_amo_run tf m root k aqrl d r1 r2 ps p :
  length (registers tf) = 31%nat -> 0 <= aqrl < 4 -> 0 < d < 32 -> 0 <= r1 < 32 -> 0 <= r2 < 32 -> 0 <= sepc tf < USIZE - 4 ->
  virt_to_phys m root (sepc tf) = Some ps ->
  read_int 4 m ps = encode_amo (kind_funct5 k) aqrl r2 r1 (kind_funct3 k) d ->
  virt_to_phys m root (xget (registers tf) r1) = Some p ->
  p mod Z.of_nat (kind_width k) = 0 ->
  let old := read_int (kind_width k) m p in
  handle_amo_fault tf m root =
    Ret (set_pc (sepc tf + 4) (with_regs (<[Z.to_nat (d - 1) := old]> (registers tf)) tf),
         write_int (kind_width k) m p (kind_op k old (xget (registers tf) r2))).
Proof.
  intros Hr Haq Hd H1 H2 Hpc Hps Hin Hp Hal old. unfold handle_amo_fault. rewrite Hps. cbn [expect obind]. rewrite Hin.
  rewrite decode_encode by (destruct k; cbn; lia). cbn [opcode funct3 funct5 rd rs1 rs2].
  rewrite !get_xget by done. cbn [Z.eqb negb obind]. change (0x2f =? 0x2f) with true. cbn [negb]. rewrite Hp. cbn [expect obind].
  destruct (amo_op_kind k) as (op & -> & Hop). rewrite Hal. cbn [Z.eqb obind]. fold old. rewrite Hop. unfold set.
  rewrite (proj2 (Z.eqb_neq d 0)), (proj2 (Z.leb_le 1 d)), (proj2 (Z.leb_le d 31)) by lia. cbn [andb obind].
  by rewrite uadd_ok by lia.
Qed.

(** C38: the emulation does what the manual says, where it does: for the three
    operations, any registers but x0 as destination, and for the word
    operations an old value below 2^31, the frame and the memory are those of
    the instruction, and execution goes on behind it. *)
Theorem amo_matches_isa tf m root k aqrl d r1 r2 ps p
  (Hr : length (registers tf) = 31%nat) (Haq : 0 <= aqrl < 4) (Hd : 0 < d < 32) (H1 : 0 <= r1 < 32) (H2 : 0 <= r2 < 32)
  (Hpc : 0 <= sepc tf < USIZE - 4) (Hps : virt_to_phys m root (sepc tf) = Some ps)
  (Hin : read_int 4 m ps = encode_amo (kind_funct5 k) aqrl r2 r1 (kind_funct3 k) d)
  (Hp : virt_to_phys m root (xget (registers tf) r1) = Some p)
  (Hal : p mod Z.of_nat (kind_width k) = 0)
  (Hold : k = AmoAddD \/ read_int 4 m p < 2 ^ 31) :
  let '(r', m') := isa_amo k d r1 r2 (registers tf) m p in
  handle_amo_fault tf m root = Ret (set_pc (sepc tf + 4) (with_regs r' tf), m').
Proof.
  unfold isa_amo. rewrite (handle_amo_run tf m root k aqrl d r1 r2 ps p) by done. unfold xset.
  rewrite (proj2 (Z.eqb_neq d 0)) by lia. do 4 f_equal. symmetry. unfold sext.
  destruct k; cbn [kind_width] in *; [destruct Hold as [|Hold]; [done|]..|].
  - change (256 ^ Z.of_nat 4 / 2) with (2 ^ 31). by rewrite (proj2 (Z.ltb_lt _ _)).
  - change (256 ^ Z.of_nat 4 / 2) with (2 ^ 31). by rewrite (proj2 (Z.ltb_lt _ _)).
  - change (256 ^ Z.of_nat 8) with USIZE. f_equal. destruct (_ <? _); lia.
Qed.

(** a word operation on a value of 2^31 or more returns the wrong register
    value: the manual extends the sign into the upper half, the handler
    leaves it zero. *)
Theorem amo_word_not_sign_extended tf m root k aqrl d r1 r2 ps p
  (Hr : length (registers tf) = 31%nat) (Haq : 0 <= aqrl < 4) (Hd : 0 < d < 32) (H1 : 0 <= r1 < 32) (H2 : 0 <= r2 < 32)
  (Hpc : 0 <= sepc tf < USIZE - 4) (Hps : virt_to_phys m root (sepc tf) = Some ps)
  (Hin : read_int 4 m ps = encode_amo (kind_funct5 k) aqrl r2 r1 (kind_funct3 k) d)
  (Hp : virt_to_phys m root (xget (registers tf) r1) = Some p)
  (Hal : p mod Z.of_nat (kind_width k) = 0) (Hk : k <> AmoAddD) (Hold : 2 ^ 31 <= read_int 4 m p) :
  exists tf' m', handle_amo_fault tf m root = Ret (tf', m') /\ xget (registers tf') d = read_int 4 m p /\
    xget (isa_amo k d r1 r2 (registers tf) m p).1 d = read_int 4 m p + (2 ^ 64 - 2 ^ 32).
Proof.
  assert (Ew : kind_width k = 4%nat) by by destruct k.
  eexists _, _. split; [by apply (handle_amo_run tf m root k aqrl d r1 r2 ps p)|].
  unfold isa_amo. rewrite Ew. cbn [registers set_pc with_regs fst]. split.
  { rewrite <- (xget_xset (registers tf) d (read_int 4 m p)) at 2 by done. unfold xset.
    by rewrite (proj2 (Z.eqb_neq d 0)) by lia. }
  rewrite xget_xset by done.
  unfold sext. change (256 ^ Z.of_nat 4 / 2) with (2 ^ 31). rewrite (proj2 (Z.ltb_ge _ _)) by done. cbn. unfold USIZE. lia.
Qed.

(** an atomic whose result is dropped panics the kernel.  With x0 as the
    destination, as compilers write an atomic store or add without a result,
    the memory is written and then the write to x0 panics. *)
Theorem amo_x0_panics tf m root k aqrl r1 r2 ps p
  (Hr : length (registers tf) = 31%nat) (Haq : 0 <= aqrl < 4) (H1 : 0 <= r1 < 32) (H2 : 0 <= r2 < 32)
  (Hps : virt_to_phys m root (sepc tf) = Some ps)
  (Hin : read_int 4 m ps = encode_amo (kind_funct5 k) aqrl r2 r1 (kind_funct3 k) 0)
  (Hp : virt_to_phys m root (xget (registers tf) r1) = Some p) (Hal : p mod Z.of_nat (kind_width k) = 0) :
  handle_amo_fault tf m root = Panic.
Proof.
  unfold handle_amo_fault. rewrite Hps. cbn [expect obind]. rewrite Hin.
  rewrite decode_encode by (destruct k; cbn; lia). cbn [opcode funct3 funct5 rd rs1 rs2].
  rewrite !get_xget by done. change (0x2f =? 0x2f) with true. cbn [negb obind]. rewrite Hp. cbn [expect obind].
  destruct (amo_op_kind k) as (op & -> & Hop). rewrite Hal. cbn [Z.eqb obind]. done.
Qed.

(** ** Witnesses: code and data in the two pages of [Ua.user_mem] *)
Import Ua.

(** amoadd.w a0, a1, (a2) at 0x10000; the word at 0x11000. *)
Definition amo_frame : ProcessTrapFrame := mkFrame (replicate 10 0 ++ [5; 0x11000] ++ replicate 19 0) 0 0x10000 0 0 0 0.
Lemma amo_frame_pc : 0 <= sepc amo_frame < USIZE - 4.
Proof. by vm_compute. Qed.

Definition amo_mem (d old : Z) : memory :=
  snd (store_bytes (snd (store_bytes user_mem demo_root 0x10000 (to_le 4 (encode_amo 0 0 11 12 2 d)))) demo_root 0x11000 (to_le 4 old)).

Lemma amo_matches_isa_witness :
  exists p, virt_to_phys (amo_mem 10 7) demo_root (xget (registers amo_frame) 12) = Some p /\
    let '(r', m') := isa_amo AmoAddW 10 12 11 (registers amo_frame) (amo_mem 10 7) p in
    xget r' 10 = 7 /\ handle_amo_fault amo_frame (amo_mem 10 7) demo_root = Ret (set_pc (sepc amo_frame + 4) (with_regs r' amo_frame), m').
Proof.
  destruct (virt_to_phys (amo_mem 10 7) demo_root (xget (registers amo_frame) 12)) as [p|] eqn:Ep; [|vm_compute in Ep; discriminate].
  destruct (virt_to_phys (amo_mem 10 7) demo_root (sepc amo_frame)) as [ps|] eqn:Eps; [|vm_compute in Eps; discriminate].
  exists p. split; [reflexivity|].
  assert (Hal : p mod 4 = 0) by (vm_compute in Ep; injection Ep as <-; by vm_compute).
  assert (Hps : read_int 4 (amo_mem 10 7) ps = encode_amo 0 0 11 12 2 10) by (vm_compute in Eps; injection Eps as <-; by vm_compute).
  assert (Hp : read_int 4 (amo_mem 10 7) p = 7) by (vm_compute in Ep; injection Ep as <-; by vm_compute).
  pose proof (amo_matches_isa amo_frame (amo_mem 10 7) demo_root AmoAddW 0 10 12 11 ps p eq_refl ltac:(lia) ltac:(lia) ltac:(lia) ltac:(lia)
    amo_frame_pc Eps Hps Ep Hal ltac:(right; rewrite Hp; lia)) as H.
  unfold isa_amo in *. split; [|exact H]. cbn [kind_width]. rewrite Hp. reflexivity.
Defined.

Lemma amo_word_not_sign_extended_witness :
  exists tf' m', handle_amo_fault amo_frame (amo_mem 10 0xFFFF_FFFF) demo_root = Ret (tf', m') /\ xget (registers tf') 10 = 0xFFFF_FFFF.
Proof.
  destruct (virt_to_phys (amo_mem 10 0xFFFF_FFFF) demo_root (xget (registers amo_frame) 12)) as [p|] eqn:Ep; [|vm_compute in Ep; discriminate].
  destruct (virt_to_phys (amo_mem 10 0xFFFF_FFFF) demo_root (sepc amo_frame)) as [ps|] eqn:Eps; [|vm_compute in Eps; discriminate].
  assert (Hal : p mod 4 = 0) by (vm_compute in Ep; injection Ep as <-; by vm_compute).
  assert (Hps : read_int 4 (amo_mem 10 0xFFFF_FFFF) ps = encode_amo 0 0 11 12 2 10) by (vm_compute in Eps; injection Eps as <-; by vm_compute).
  assert (Hp : read_int 4 (amo_mem 10 0xFFFF_FFFF) p = 0xFFFF_FFFF) by (vm_compute in Ep; injection Ep as <-; by vm_compute).
  destruct (amo_word_not_sign_extended amo_frame (amo_mem 10 0xFFFF_FFFF) demo_root AmoAddW 0 10 12 11 ps p eq_refl ltac:(lia) ltac:(lia)
    ltac:(lia) ltac:(lia) amo_frame_pc Eps Hps Ep Hal ltac:(discriminate) ltac:(rewrite Hp; lia)) as (tf' & m' & E & Hx & _).
  exists tf', m'. split; [exact E|]. rewrite Hx. exact Hp.
Defined.

Lemma amo_x0_panics_witness : handle_amo_fault amo_frame (amo_mem 0 7) demo_root = Panic.
Proof.
  destruct (virt_to_phys (amo_mem 0 7) demo_root (xget (registers amo_frame) 12)) as [p|] eqn:Ep; [|vm_compute in Ep; discriminate].
  destruct (virt_to_phys (amo_mem 0 7) demo_root (sepc amo_frame)) as [ps|] eqn:Eps; [|vm_compute in Eps; discriminate].
  assert (Hal : p mod 4 = 0) by (vm_compute in Ep; injection Ep as <-; by vm_compute).
  assert (Hps : read_int 4 (amo_mem 0 7) ps = encode_amo 0 0 11 12 2 0) by (vm_compute in Eps; injection Eps as <-; by vm_compute).
  exact (amo_x0_panics amo_frame (amo_mem 0 7) demo_root AmoAddW 0 12 11 ps p eq_refl ltac:(lia) ltac:(lia) ltac:(lia) Eps Hps Ep Hal).
Defined.

End Amo.
