(* ===== verification/Asm.v ===== *)
(** * The instructions of the assembly parts

    The kernel enters and leaves traps, switches threads and starts up in
    assembly.  This file holds the machine those pieces run on: the general
    registers, the supervisor registers they touch, a word memory behind an
    address translation, and the instructions they use, with the meaning the
    RISC-V manual gives them.  [translate] is the translation in force for a
    value of [satp]; an address it does not map, or a word that is not
    aligned, is a [Fault].  The offsets are those build.rs writes for the
    structures of types/src/lib.rs. *)

From S2P Require Import Prelude.

Module Asm.

Inductive reg :=
| Zero | Ra | Sp | Gp | Tp | T0 | T1 | T2 | S0 | S1
| A0 | A1 | A2 | A3 | A4 | A5 | A6 | A7
| S2 | S3 | S4 | S5 | S6 | S7 | S8 | S9 | S10 | S11 | T3 | T4 | T5 | T6.

#[global] Instance reg_eq_dec : EqDecision reg.
Proof. solve_decision. Defined.

Inductive csr_name := Sscratch | Sepc | Scause | Stval | Sstatus | Satp | Stvec | Sie.

#[global] Instance csr_eq_dec : EqDecision csr_name.
Proof. solve_decision. Defined.

(** The fields of [GpRegisters] in order. *)
Definition gp_registers : list reg :=
  [Ra; Sp; Gp; Tp; T0; T1; T2; S0; S1; A0; A1; A2; A3; A4; A5; A6; A7;
   S2; S3; S4; S5; S6; S7; S8; S9; S10; S11; T3; T4; T5; T6].

(** The number of a register, x0 to x31. *)
Definition num (r : reg) : Z :=
  match r with
  | Zero => 0 | Ra => 1 | Sp => 2 | Gp => 3 | Tp => 4 | T0 => 5 | T1 => 6 | T2 => 7
  | S0 => 8 | S1 => 9 | A0 => 10 | A1 => 11 | A2 => 12 | A3 => 13 | A4 => 14 | A5 => 15
  | A6 => 16 | A7 => 17 | S2 => 18 | S3 => 19 | S4 => 20 | S5 => 21 | S6 => 22 | S7 => 23
  | S8 => 24 | S9 => 25 | S10 => 26 | S11 => 27 | T3 => 28 | T4 => 29 | T5 => 30 | T6 => 31
  end.

(** [offset_of!(GpRegisters, r)]: eight bytes per field. *)
Definition gp_offset (r : reg) : Z := 8 * (num r - 1).

Lemma gp_registers_offset i r : gp_registers !! i = Some r -> gp_offset r = 8 * Z.of_nat i.
Proof.
  intros Hi. assert (Hlt : (i < 31)%nat) by (apply lookup_lt_Some in Hi; exact Hi).
  do 31 (destruct i as [|i]; [injection Hi as <-; reflexivity|]). lia.
Qed.

Lemma elem_of_gp r : r ∈ gp_registers <-> r <> Zero.
Proof.
  split; [intros Hr ->; by apply (bool_decide_eq_true_2 _) in Hr|].
  intros Hr. apply (bool_decide_eq_true_1 _). by destruct r.
Qed.

Lemma gp_offset_bound r : r <> Zero -> 0 <= gp_offset r <= 240 /\ gp_offset r mod 8 = 0.
Proof. intros Hr. unfold gp_offset. split; [destruct r; cbn; (done || lia)|]. rewrite Z.mul_comm. apply Z_mod_mult. Qed.

Lemma num_inj r r' : num r = num r' -> r = r'.
Proof. destruct r, r'; (reflexivity || discriminate). Qed.

Section machine.
(** [K] is the part of the system the assembly does not touch. *)
Context {K : Type} (translate : Z -> Z -> option Z).

Record hart := mkHart { x : reg -> Z; csr : csr_name -> Z; mem : Z -> Z; rest : K }.

Definition setx (r : reg) (v : Z) (h : hart) : hart :=
  if decide (r = Zero) then h
  else mkHart (fun r' => if decide (r' = r) then v else x h r') (csr h) (mem h) (rest h).
Definition setcsr (c : csr_name) (v : Z) (h : hart) : hart :=
  mkHart (x h) (fun c' => if decide (c' = c) then v else csr h c') (mem h) (rest h).
Definition upd (m : Z -> Z) (p v : Z) : Z -> Z := fun q => if q =? p then v else m q.
Definition setmem (p v : Z) (h : hart) : hart := mkHart (x h) (csr h) (upd (mem h) p v) (rest h).

(** Where the doubleword at [v] is. *)
Definition word (h : hart) (v : Z) : outcome Z :=
  let! p := deref (translate (csr h Satp) (v mod USIZE)) in
  if p mod 8 =? 0 then Ret p else Fault.

Inductive instr :=
| Csrrw (rd : reg) (c : csr_name) (rs : reg)
| Csrr (rd : reg) (c : csr_name)
| Csrw (c : csr_name) (rs : reg)
| Csrc (c : csr_name) (rs : reg)
| Sd (rs : reg) (off : Z) (base : reg)
| Ld (rd : reg) (off : Z) (base : reg)
| Mv (rd rs : reg)
| Li (rd : reg) (v : Z)
| La (rd : reg) (symbol : Z)
| Addi (rd rs : reg) (v : Z)
| Add (rd rs rt : reg)
| Or (rd rs rt : reg)
| And (rd rs rt : reg)
| Slli (rd rs : reg) (n : Z)
| Srli (rd rs : reg) (n : Z)
| Beqz (rs : reg) (skipped : nat)  (* forward, over [skipped] instructions *)
| Fence                             (* sfence.vma and the T-Head cache instructions *)
| Call (f : hart -> outcome hart).

Definition exec1 (i : instr) (h : hart) : outcome hart :=
  match i with
  | Csrrw rd c rs => Ret (setx rd (csr h c) (setcsr c (x h rs) h))
  | Csrr rd c => Ret (setx rd (csr h c) h)
  | Csrw c rs => Ret (setcsr c (x h rs) h)
  | Csrc c rs => Ret (setcsr c (Z.ldiff (csr h c) (x h rs)) h)
  | Sd rs off base => let! p := word h (x h base + off) in Ret (setmem p (x h rs) h)
  | Ld rd off base => let! p := word h (x h base + off) in Ret (setx rd (mem h p) h)
  | Mv rd rs => Ret (setx rd (x h rs) h)
  | Li rd v => Ret (setx rd v h)
  | La rd symbol => Ret (setx rd symbol h)
  | Addi rd rs v => Ret (setx rd ((x h rs + v) mod USIZE) h)
  | Add rd rs rt => Ret (setx rd ((x h rs + x h rt) mod USIZE) h)
  | Or rd rs rt => Ret (setx rd (Z.lor (x h rs) (x h rt)) h)
  | And rd rs rt => Ret (setx rd (Z.land (x h rs) (x h rt)) h)
  | Slli rd rs n => Ret (setx rd (Z.shiftl (x h rs) n mod USIZE) h)
  | Srli rd rs n => Ret (setx rd (Z.shiftr (x h rs) n) h)
  | Beqz _ _ | Fence => Ret h
  | Call f => f h
  end.

(** A run of instructions; the first [skip] are jumped over. *)
Fixpoint exec (code : list instr) (skip : nat) (h : hart) : outcome (nat * hart) :=
  match code with
  | [] => Ret (skip, h)
  | i :: code =>
      match skip with
      | S skip => exec code skip h
      | O =>
          let! h' := exec1 i h in
          exec code (match i with Beqz rs n => if x h rs =? 0 then n else 0%nat | _ => 0%nat end) h'
      end
  end.

Lemma exec_app code code2 n h : exec (code ++ code2) n h = obind (exec code n h) (fun '(n, h) => exec code2 n h).
Proof.
  revert n h. induction code as [|i code IH]; intros n h; [done|]. cbn [app exec]. destruct n as [|n]; [|apply IH].
  destruct (exec1 i h); cbn [obind]; [apply IH|done..].
Qed.

Lemma exec_sd rs o b code h p : word h (x h b + o) = Ret p ->
  exec (Sd rs o b :: code) 0 h = exec code 0 (setmem p (x h rs) h).
Proof. intros E. cbn [exec exec1]. by rewrite E. Qed.

Lemma exec_ld rd o b code h p : word h (x h b + o) = Ret p ->
  exec (Ld rd o b :: code) 0 h = exec code 0 (setx rd (mem h p) h).
Proof. intros E. cbn [exec exec1]. by rewrite E. Qed.

(** The cache flush on a T-Head processor. *)
Lemma exec_flush r code h : exec (Beqz r 2 :: Fence :: Fence :: Fence :: code) 0 h = exec code 0 h.
Proof. cbn [exec exec1 obind]. by destruct (x h r =? 0). Qed.

Lemma exec_pure i code h h' :
  match i with Beqz _ _ | Sd _ _ _ | Ld _ _ _ => False | _ => exec1 i h = Ret h' end ->
  exec (i :: code) 0 h = exec code 0 h'.
Proof. destruct i; try done; cbn [exec]; by intros ->. Qed.

Lemma setx_x r v h r' : x (setx r v h) r' = if decide (r' = r) then (if decide (r = Zero) then x h r' else v) else x h r'.
Proof. unfold setx. repeat case_decide; cbn; repeat case_decide; congruence. Qed.

Lemma setx_eq r v h : r <> Zero -> x (setx r v h) r = v.
Proof. intros. rewrite setx_x. by rewrite decide_True, decide_False. Qed.

Lemma setx_ne r v h r' : r' <> r -> x (setx r v h) r' = x h r'.
Proof. intros. rewrite setx_x. by rewrite decide_False. Qed.

Lemma setx_csr r v h : csr (setx r v h) = csr h.
Proof. unfold setx. by case_decide. Qed.

Lemma setx_mem r v h : mem (setx r v h) = mem h.
Proof. unfold setx. by case_decide. Qed.

Lemma setx_rest r v h : rest (setx r v h) = rest h.
Proof. unfold setx. by case_decide. Qed.

(** ** A structure in memory

    The words of a structure at the virtual address [v] in the address space
    [s]: the word at offset [o] is at the physical address [at_ o]. *)
Record region (s v n : Z) (at_ : Z -> Z) : Prop := {
  rg_at : forall o, 0 <= o < n -> o mod 8 = 0 -> translate s ((v + o) mod USIZE) = Some (at_ o) /\ at_ o mod 8 = 0;
  rg_inj : forall o o', 0 <= o < n -> 0 <= o' < n -> o mod 8 = 0 -> o' mod 8 = 0 -> at_ o = at_ o' -> o = o' }.

Lemma word_region h v n at_ o :
  region (csr h Satp) v n at_ -> 0 <= o < n -> o mod 8 = 0 -> word h (v + o) = Ret (at_ o).
Proof. intros [Ha _] Ho Hm. destruct (Ha o Ho Hm) as [Ht H8]. unfold word. rewrite Ht. cbn [deref obind]. by rewrite H8. Qed.

(** Storing and loading a list of registers at their offsets. *)
Definition stored (at_ : Z -> Z) (l : list (reg * Z)) (h : hart) : Z -> Z :=
  foldl (fun m '(r, o) => upd m (at_ o) (x h r)) (mem h) l.

Definition in_struct (n : Z) (l : list (reg * Z)) : Prop := Forall (fun '(_, o) => 0 <= o < n /\ o mod 8 = 0) l.

Lemma exec_sd_list base n at_ l h : region (csr h Satp) (x h base) n at_ -> in_struct n l ->
  exec (map (fun '(r, o) => Sd r o base) l) 0 h = Ret (0%nat, mkHart (x h) (csr h) (stored at_ l h) (rest h)).
Proof.
  intros Hr. revert h Hr. induction l as [|[r o] l IH]; intros h Hr Hl; [by destruct h|]. apply Forall_cons in Hl as [[Ho Hm] Hl'].
  cbn [map exec exec1]. rewrite (word_region h (x h base) n at_) by done. cbn [obind]. by rewrite IH.
Qed.

Lemma stored_at n s v at_ l h : region s v n at_ -> in_struct n l -> forall o, 0 <= o < n -> o mod 8 = 0 ->
  (o ∉ l.*2 -> stored at_ l h (at_ o) = mem h (at_ o)) /\
  (forall r, NoDup (l.*2) -> (r, o) ∈ l -> stored at_ l h (at_ o) = x h r).
Proof.
  intros Hr Hl o Ho Hm. unfold stored. revert Hl. generalize (mem h) as m.
  induction l as [|[r1 o1] l IH]; intros m Hl; cbn [foldl fmap list_fmap snd].
  - split; [done|]. intros r _ Hin. by apply elem_of_nil in Hin.
  - apply Forall_cons in Hl as [[Ho1 Hm1] Hl']. destruct (IH (upd m (at_ o1) (x h r1)) Hl') as [H1 H2]. split.
    + intros Hn. apply not_elem_of_cons in Hn as [Hne Hn]. rewrite H1 by done. unfold upd.
      destruct (Z.eqb_spec (at_ o) (at_ o1)) as [E|]; [|done]. by apply (rg_inj _ _ _ _ Hr) in E.
    + intros r Hnd Hin. apply NoDup_cons in Hnd as [Hnot Hnd]. apply elem_of_cons in Hin as [[= -> ->]|Hin]; [|by apply H2].
      rewrite H1 by done. unfold upd. by rewrite Z.eqb_refl.
Qed.

Lemma stored_off at_ l h q : (forall r o, (r, o) ∈ l -> q <> at_ o) -> stored at_ l h q = mem h q.
Proof.
  unfold stored. generalize (mem h) as m. induction l as [|[r o] l IH]; intros m Hq; [done|]. cbn [foldl].
  rewrite IH by (intros r' o' Hin; apply (Hq r' o'); by right). unfold upd.
  destruct (Z.eqb_spec q (at_ o)) as [E|]; [|done]. exfalso. apply (Hq r o); [by left|done].
Qed.

Definition loaded (at_ : Z -> Z) (l : list (reg * Z)) (h : hart) : reg -> Z :=
  foldl (fun f '(r, o) r' => if decide (r' = r) then mem h (at_ o) else f r') (x h) l.

Lemma exec_ld_list base n at_ l h : region (csr h Satp) (x h base) n at_ -> in_struct n l -> base ∉ l.*1 -> Zero ∉ l.*1 ->
  exec (map (fun '(r, o) => Ld r o base) l) 0 h = Ret (0%nat, mkHart (loaded at_ l h) (csr h) (mem h) (rest h)).
Proof.
  revert h. induction l as [|[r o] l IH]; intros h Hr Hl Hb Hz; [by destruct h|]. apply Forall_cons in Hl as [[Ho Hm] Hl'].
  cbn [fmap list_fmap fst] in *. apply not_elem_of_cons in Hb as [Hb Hb']. apply not_elem_of_cons in Hz as [Hz Hz'].
  cbn [map exec exec1]. rewrite (word_region h (x h base) n at_) by done. cbn [obind]. rewrite IH; [| |done..].
  - unfold setx. rewrite decide_False by done. done.
  - rewrite setx_csr, setx_ne by done. done.
Qed.

Lemma loaded_at at_ l h r : (r ∉ l.*1 -> loaded at_ l h r = x h r) /\
  (forall o, NoDup (l.*1) -> (r, o) ∈ l -> loaded at_ l h r = mem h (at_ o)).
Proof.
  unfold loaded. generalize (x h) as f. induction l as [|[r1 o1] l IH]; intros f; cbn [foldl fmap list_fmap fst].
  - split; [done|]. intros o _ Hin. by apply elem_of_nil in Hin.
  - destruct (IH (fun r' => if decide (r' = r1) then mem h (at_ o1) else f r')) as [H1 H2]. split.
    + intros Hn. apply not_elem_of_cons in Hn as [Hne Hn]. rewrite H1 by done. by rewrite decide_False.
    + intros o Hnd Hin. apply NoDup_cons in Hnd as [Hnot Hnd]. apply elem_of_cons in Hin as [[= -> ->]|Hin]; [|by apply H2].
      rewrite H1 by done. by rewrite decide_True.
Qed.

Lemma upd_eq m p v : upd m p v p = v.
Proof. unfold upd. by rewrite Z.eqb_refl. Qed.

Lemma upd_ne m p v q : q <> p -> upd m p v q = m q.
Proof. intros Hq. unfold upd. by rewrite (proj2 (Z.eqb_neq q p)). Qed.

Lemma setcsr_eq h c v : csr (setcsr c v h) c = v.
Proof. cbn. by rewrite decide_True. Qed.

Lemma setcsr_ne h c v c' : c' <> c -> csr (setcsr c v h) c' = csr h c'.
Proof. intros. cbn. by rewrite decide_False. Qed.

Lemma setcsr_x h c v : x (setcsr c v h) = x h.
Proof. done. Qed.

Lemma setcsr_mem h c v : mem (setcsr c v h) = mem h.
Proof. done. Qed.

Lemma setcsr_rest h c v : rest (setcsr c v h) = rest h.
Proof. done. Qed.

Lemma setmem_x h p v : x (setmem p v h) = x h.
Proof. done. Qed.

Lemma setmem_csr h p v : csr (setmem p v h) = csr h.
Proof. done. Qed.

Lemma setmem_mem h p v : mem (setmem p v h) = upd (mem h) p v.
Proof. done. Qed.

Lemma setmem_rest h p v : rest (setmem p v h) = rest h.
Proof. done. Qed.

Lemma rg_ne s v n at_ o o' : region s v n at_ -> 0 <= o < n -> 0 <= o' < n -> o mod 8 = 0 -> o' mod 8 = 0 -> o <> o' ->
  at_ o <> at_ o'.
Proof. intros Hr ? ? ? ? Hne E. apply Hne. by apply (rg_inj _ _ _ _ Hr). Qed.

End machine.

(** Registers at their places in a [GpRegisters]. *)
Definition at_gp (rs : list reg) : list (reg * Z) := map (fun r => (r, gp_offset r)) rs.

Lemma at_gp_struct n l : Zero ∉ l -> 248 <= n -> in_struct n (at_gp l).
Proof.
  intros Hl Hn. apply Forall_forall. intros [r o] Hin. apply list_elem_of_fmap in Hin as (r' & [= -> ->] & Hin).
  destruct (gp_offset_bound r'); [by intros ->|]. split; [lia|done].
Qed.

Lemma gp_offset_inj r r' : gp_offset r = gp_offset r' -> r = r'.
Proof. unfold gp_offset. intros. apply num_inj. lia. Qed.

Lemma at_gp_fst l : (at_gp l).*1 = l.
Proof. unfold at_gp. rewrite <- list_fmap_compose. apply list_fmap_id. Qed.

Lemma at_gp_nodup l : NoDup l -> NoDup (at_gp l).*2.
Proof.
  intros Hl. unfold at_gp. rewrite <- list_fmap_compose. apply NoDup_fmap_2; [|done]. intros r r'. apply gp_offset_inj.
Qed.

Lemma elem_of_at_gp l r : r ∈ l -> (r, gp_offset r) ∈ at_gp l.
Proof. intros Hr. apply list_elem_of_fmap. by exists r. Qed.

Lemma not_at_gp l r : r ∉ l -> gp_offset r ∉ (at_gp l).*2.
Proof.
  intros Hr Hi. apply list_elem_of_fmap in Hi as ([r' o] & E & Hi). apply list_elem_of_fmap in Hi as (r2 & [= -> ->] & Hi).
  cbn in E. apply gp_offset_inj in E as ->. done.
Qed.

Arguments hart : clear implicits.
Arguments instr : clear implicits.

Create HintDb hart.
#[export] Hint Rewrite @setx_csr @setx_mem @setx_rest @setcsr_x @setcsr_mem @setcsr_rest @setmem_x @setmem_csr @setmem_mem
  @setmem_rest @setcsr_eq : hart.
#[export] Hint Rewrite @setx_eq @setx_ne @setcsr_ne using discriminate : hart.

(** One instruction; a load or store finds its word in a structure at [v]. *)
Ltac hart_simp := autorewrite with hart.
Ltac known := repeat match goal with E : csr _ _ = _ |- _ => rewrite E | E : x _ _ = _ |- _ => rewrite E end.
Ltac pstep := erewrite exec_pure by reflexivity; hart_simp.
Ltac in_region v Rg := hart_simp; known; eapply (word_region _ _ v); [hart_simp; known; exact Rg|done..].
Ltac sstep v Rg := erewrite exec_sd by in_region v Rg; hart_simp.
Ltac lstep v Rg := erewrite exec_ld by in_region v Rg; hart_simp.

End Asm.
