(* ===== verification/Trap.v ===== *)
(** * Traps from user mode

    Models [src/src/trap.rs]: [trap_entry], instruction by instruction, and
    the Rust function [trap_handler] it calls, which dispatches to the system
    calls, the emulation of atomics and the interrupt controller.  The
    theorems follow a process through the whole trap: from its registers into
    the frame, through the handler, and back. *)

From S2P Require Import Prelude Bytes PageAllocator PageMapper UserMem Uaccess Syscall Asm Amo.

Module Trap.
Import Asm Tf.

(** ** The offsets build.rs writes *)
Definition TTF_USER_SP : Z := 0.
Definition TTF_T0 : Z := 8.
Definition TTF_KERNEL_SATP : Z := 16.
Definition TTF_IS_LICHEE_RVNANO : Z := 24.
Definition TTF_KERNEL_SP : Z := 32.
Definition TTF_SIZE : Z := 40.

Definition PTF (r : reg) : Z := gp_offset r.
Definition PTF_PC : Z := 248.
Definition PTF_SEPC : Z := 256.
Definition PTF_SSTATUS : Z := 264.
Definition PTF_STVAL : Z := 272.
Definition PTF_SCAUSE : Z := 280.
Definition PTF_SATP : Z := 288.
Definition PTF_SIZE : Z := 296.

Section user.
Context {K : Type} (translate : Z -> Z -> option Z).
Notation hart := (hart K).

Definition trap_entry (trap_handler : hart -> outcome hart) : list (instr K) :=
  [ Csrrw Sp Sscratch Sp;
    Sd T0 TTF_T0 Sp;
    Csrr T0 Sscratch;
    Sd T0 TTF_USER_SP Sp;
    Csrw Sscratch Sp;
    Ld T0 TTF_KERNEL_SATP Sp;
    Csrw Satp T0;
    Ld T0 TTF_IS_LICHEE_RVNANO Sp;
    Beqz T0 2;
    Fence;
    Fence;
    Fence;
    Mv T0 Sp;
    Ld Sp TTF_KERNEL_SP Sp;
    Sd T1 (PTF T1) Sp;
    Ld T1 TTF_USER_SP T0;
    Sd T1 (PTF Sp) Sp;
    Ld T1 TTF_T0 T0;
    Sd T1 (PTF T0) Sp;
    Sd Ra (PTF Ra) Sp;
    Sd Gp (PTF Gp) Sp;
    Sd Tp (PTF Tp) Sp;
    Sd T2 (PTF T2) Sp;
    Sd S0 (PTF S0) Sp;
    Sd S1 (PTF S1) Sp;
    Sd A0 (PTF A0) Sp;
    Sd A1 (PTF A1) Sp;
    Sd A2 (PTF A2) Sp;
    Sd A3 (PTF A3) Sp;
    Sd A4 (PTF A4) Sp;
    Sd A5 (PTF A5) Sp;
    Sd A6 (PTF A6) Sp;
    Sd A7 (PTF A7) Sp;
    Sd S2 (PTF S2) Sp;
    Sd S3 (PTF S3) Sp;
    Sd S4 (PTF S4) Sp;
    Sd S5 (PTF S5) Sp;
    Sd S6 (PTF S6) Sp;
    Sd S7 (PTF S7) Sp;
    Sd S8 (PTF S8) Sp;
    Sd S9 (PTF S9) Sp;
    Sd S10 (PTF S10) Sp;
    Sd S11 (PTF S11) Sp;
    Sd T3 (PTF T3) Sp;
    Sd T4 (PTF T4) Sp;
    Sd T5 (PTF T5) Sp;
    Sd T6 (PTF T6) Sp;
    Csrr T0 Sepc;
    Sd T0 PTF_SEPC Sp;
    Csrr T0 Scause;
    Sd T0 PTF_SCAUSE Sp;
    Csrr T0 Stval;
    Sd T0 PTF_STVAL Sp;
    Csrr T0 Sstatus;
    Sd T0 PTF_SSTATUS Sp;
    Mv A0 Sp;
    Call trap_handler;
    Mv Sp A0;
    Ld Ra (PTF Ra) Sp;
    Ld Gp (PTF Gp) Sp;
    Ld Tp (PTF Tp) Sp;
    Ld T1 (PTF T1) Sp;
    Ld T2 (PTF T2) Sp;
    Ld S0 (PTF S0) Sp;
    Ld S1 (PTF S1) Sp;
    Ld A0 (PTF A0) Sp;
    Ld A1 (PTF A1) Sp;
    Ld A2 (PTF A2) Sp;
    Ld A3 (PTF A3) Sp;
    Ld A4 (PTF A4) Sp;
    Ld A5 (PTF A5) Sp;
    Ld A6 (PTF A6) Sp;
    Ld A7 (PTF A7) Sp;
    Ld S2 (PTF S2) Sp;
    Ld S3 (PTF S3) Sp;
    Ld S4 (PTF S4) Sp;
    Ld S5 (PTF S5) Sp;
    Ld S6 (PTF S6) Sp;
    Ld S7 (PTF S7) Sp;
    Ld S8 (PTF S8) Sp;
    Ld S9 (PTF S9) Sp;
    Ld S10 (PTF S10) Sp;
    Ld S11 (PTF S11) Sp;
    Ld T3 (PTF T3) Sp;
    Ld T4 (PTF T4) Sp;
    Ld T5 (PTF T5) Sp;
    Ld T6 (PTF T6) Sp;
    Ld T0 PTF_PC Sp;
    Csrw Sepc T0;
    Ld T0 PTF_SSTATUS Sp;
    Csrw Sstatus T0;
    Ld T0 PTF_SATP Sp;
    Csrw Satp T0;
    Csrr Sp Sscratch;
    Ld T0 TTF_IS_LICHEE_RVNANO Sp;
    Beqz T0 2;
    Fence;
    Fence;
    Fence;
    Ld T0 TTF_T0 Sp;
    Ld Sp TTF_USER_SP Sp ].

(** The registers saved and restored in order. *)
Definition saved : list reg :=
  [Ra; Gp; Tp; T2; S0; S1; A0; A1; A2; A3; A4; A5; A6; A7; S2; S3; S4; S5; S6; S7; S8; S9; S10; S11; T3; T4; T5; T6].
Definition restored : list reg :=
  [Ra; Gp; Tp; T1; T2; S0; S1; A0; A1; A2; A3; A4; A5; A6; A7; S2; S3; S4; S5; S6; S7; S8; S9; S10; S11; T3; T4; T5; T6].

Lemma trap_entry_parts f :
  trap_entry f = take 19 (trap_entry f) ++ map (fun '(r, o) => Sd r o Sp) (at_gp saved)
    ++ take 9 (drop 47 (trap_entry f)) ++ [Call f; Mv Sp A0] ++ map (fun '(r, o) => Ld r o Sp) (at_gp restored)
    ++ drop 87 (trap_entry f).
Proof. reflexivity. Qed.

(** ** Entry

    The trampoline frame at [T] is mapped in the process' address space [U]
    and in the kernel's [ks], at the same place; the process frame at [F] is
    mapped in the kernel's. *)
Record mapped (U ks T F : Z) (at_t at_f : Z -> Z) : Prop := {
  mp_user : region translate U T TTF_SIZE at_t;
  mp_kernel : region translate ks T TTF_SIZE at_t;
  mp_frame : region translate ks F PTF_SIZE at_f;
  mp_apart : forall o o', 0 <= o < TTF_SIZE -> 0 <= o' < PTF_SIZE -> o mod 8 = 0 -> o' mod 8 = 0 -> at_t o <> at_f o' }.

(** What the entry code relies on: [sscratch] points to the trampoline frame,
    which holds the kernel's address space and the process frame; the frame
    holds the address space to return to. *)
Record user_ready (U ks T F : Z) (at_t at_f : Z -> Z) (h : hart) : Prop := {
  ur_scratch : csr h Sscratch = T;
  ur_satp : csr h Satp = U;
  ur_kernel : mem h (at_t TTF_KERNEL_SATP) = ks;
  ur_sp : mem h (at_t TTF_KERNEL_SP) = F;
  ur_frame : mem h (at_f PTF_SATP) = U }.

Lemma enter_spec f U ks T F at_t at_f (h : hart) :
  mapped U ks T F at_t at_f -> csr h Sscratch = T -> csr h Satp = U ->
  mem h (at_t TTF_KERNEL_SATP) = ks -> mem h (at_t TTF_KERNEL_SP) = F ->
  exists h1, exec translate (take 19 (trap_entry f)) 0 h = Ret (0%nat, h1) /\
    x h1 Sp = F /\ (forall r, r ∉ [Sp; T0; T1] -> x h1 r = x h r) /\
    csr h1 Sscratch = T /\ csr h1 Satp = ks /\ (forall c, c ∉ [Sscratch; Satp] -> csr h1 c = csr h c) /\ rest h1 = rest h /\
    mem h1 = upd (upd (upd (upd (upd (mem h) (at_t TTF_T0) (x h T0)) (at_t TTF_USER_SP) (x h Sp))
                   (at_f (PTF T1)) (x h T1)) (at_f (PTF Sp)) (x h Sp)) (at_f (PTF T0)) (x h T0).
Proof.
  intros [Hu Hk Hf Hap] HT HU Hks HF. cbn [take trap_entry].
  assert (Hin : forall o, o = TTF_KERNEL_SATP \/ o = TTF_IS_LICHEE_RVNANO \/ o = TTF_KERNEL_SP ->
    at_t o <> at_t TTF_T0 /\ at_t o <> at_t TTF_USER_SP).
  { intros o Ho. split; intros E; (apply (rg_inj _ _ _ _ _ Hu) in E; [|by destruct Ho as [->|[->| ->]]..]); by destruct Ho as [->|[->| ->]]. }
  pstep. sstep T Hu. pstep. sstep T Hu. pstep. lstep T Hu. pstep.
  rewrite !upd_ne by (apply Hin; auto). rewrite Hks. lstep T Hk. rewrite exec_flush. pstep. lstep T Hk.
  rewrite !upd_ne by (apply Hin; auto). rewrite HF. sstep F Hf. lstep T Hk.
  rewrite upd_ne by (by apply Hap). rewrite upd_eq. sstep F Hf. lstep T Hk.
  rewrite !(upd_ne _ (at_f _)) by (by apply Hap).
  rewrite upd_ne by (intros E; apply (rg_inj _ _ _ _ _ Hu) in E; done). rewrite upd_eq. sstep F Hf.
  eexists. split; [reflexivity|]. hart_simp. split_and!; try done.
  - intros r Hr. apply not_elem_of_cons in Hr as [H1 Hr]. apply not_elem_of_cons in Hr as [H2 Hr]. apply not_elem_of_cons in Hr as [H3 _].
    destruct r; first [congruence | reflexivity].
  - intros c Hc. apply not_elem_of_cons in Hc as [H1 Hc]. apply not_elem_of_cons in Hc as [H2 _].
    destruct c; first [congruence | reflexivity].
Qed.

(** The frame as the Rust code sees it. *)
Definition frame_in (m : Z -> Z) (at_f : Z -> Z) : ProcessTrapFrame :=
  mkFrame (map (fun r => m (at_f (PTF r))) gp_registers) (m (at_f PTF_PC)) (m (at_f PTF_SEPC)) (m (at_f PTF_SSTATUS))
    (m (at_f PTF_STVAL)) (m (at_f PTF_SCAUSE)) (m (at_f PTF_SATP)).

Lemma saved_words U ks T F at_t at_f (h h1 : hart) :
  mapped U ks T F at_t at_f -> (forall r, r ∉ [Sp; T0; T1] -> x h1 r = x h r) ->
  mem h1 = upd (upd (upd (upd (upd (mem h) (at_t TTF_T0) (x h T0)) (at_t TTF_USER_SP) (x h Sp))
                 (at_f (PTF T1)) (x h T1)) (at_f (PTF Sp)) (x h Sp)) (at_f (PTF T0)) (x h T0) ->
  let m := stored at_f (at_gp saved) h1 in
  (forall r, r <> Zero -> m (at_f (PTF r)) = x h r) /\
  (forall o, 248 <= o < PTF_SIZE -> o mod 8 = 0 -> m (at_f o) = mem h (at_f o)) /\
  m (at_t TTF_USER_SP) = x h Sp /\ m (at_t TTF_T0) = x h T0 /\
  (forall o, 16 <= o < TTF_SIZE -> o mod 8 = 0 -> m (at_t o) = mem h (at_t o)).
Proof.
  intros [Hu _ Hf Hap] Hx HM m.
  assert (Hst : in_struct PTF_SIZE (at_gp saved)) by (apply at_gp_struct; [by apply (bool_decide_eq_true_1 _)|done]).
  assert (Hnd : NoDup ((at_gp saved).*2)) by (apply at_gp_nodup; by apply (bool_decide_eq_true_1 _)).
  assert (Hoff : forall r, r <> Zero -> 0 <= PTF r < PTF_SIZE /\ PTF r mod 8 = 0).
  { intros r Hr. pose proof (gp_offset_bound r Hr). unfold PTF, PTF_SIZE. split; [lia|tauto]. }
  assert (Hne : forall o r, 0 <= o < PTF_SIZE -> o mod 8 = 0 -> r <> Zero -> o <> PTF r -> at_f o <> at_f (PTF r)).
  { intros o r Ho Ho8 Hr. destruct (Hoff r Hr). by apply (rg_ne _ _ _ _ _ _ _ Hf). }
  assert (Hraw : forall q, (forall r, r <> Zero -> q <> at_f (PTF r)) ->
    m q = upd (upd (mem h) (at_t TTF_T0) (x h T0)) (at_t TTF_USER_SP) (x h Sp) q).
  { intros q Hq. unfold m. rewrite stored_off.
    - rewrite HM. by rewrite !(upd_ne _ (at_f _)) by (by apply Hq).
    - intros r o Hin. apply list_elem_of_fmap in Hin as (r' & [= -> ->] & Hin). apply Hq. intros ->. revert Hin. by apply (bool_decide_eq_true_1 _). }
  split_and!.
  - intros r Hr. destruct (Hoff r Hr) as [Ho Ho8]. destruct (stored_at _ _ _ _ _ _ h1 Hf Hst (PTF r) Ho Ho8) as [Hout Hin].
    destruct (decide (r ∈ saved)) as [Hs|Hs].
    + unfold m. rewrite (Hin r Hnd) by (by apply elem_of_at_gp). apply Hx. intros Hr3. revert Hs.
      rewrite !elem_of_cons, elem_of_nil in Hr3. destruct Hr3 as [->|[->|[->|[]]]]; by apply (bool_decide_eq_true_1 _).
    + unfold m. rewrite Hout by (by apply not_at_gp).
      rewrite HM. destruct r; try done; try (exfalso; apply Hs; by apply (bool_decide_eq_true_1 _)).
      * rewrite upd_ne by (by apply Hne). by rewrite upd_eq.
      * by rewrite upd_eq.
      * rewrite !(upd_ne _ _ _ (at_f (PTF T1))) by (by apply Hne). by rewrite upd_eq.
  - intros o Ho Ho8. rewrite Hraw.
    + by rewrite !upd_ne by (intros E; symmetry in E; revert E; apply Hap; unfold TTF_SIZE, TTF_T0, TTF_USER_SP, PTF_SIZE in *; lia || done).
    + intros r Hr. apply Hne; [unfold PTF_SIZE in *; lia|done|done|]. pose proof (gp_offset_bound r Hr). unfold PTF. lia.
  - rewrite Hraw; [by rewrite upd_eq|]. intros r Hr. destruct (Hoff r Hr). by apply Hap.
  - rewrite Hraw; [|intros r Hr; destruct (Hoff r Hr); by apply Hap].
    rewrite upd_ne by (by apply (rg_ne _ _ _ _ _ _ _ Hu)). by rewrite upd_eq.
  - intros o Ho Ho8. unfold TTF_SIZE in *.
    rewrite Hraw; [|intros r Hr; destruct (Hoff r Hr); apply Hap; unfold TTF_SIZE; lia || done].
    by rewrite !upd_ne by (apply (rg_ne _ _ _ _ _ _ _ Hu); unfold TTF_SIZE, TTF_T0, TTF_USER_SP; lia || done).
Qed.

Lemma save_spec f U ks T F at_t at_f (h : hart) :
  mapped U ks T F at_t at_f -> csr h Sscratch = T -> csr h Satp = U ->
  mem h (at_t TTF_KERNEL_SATP) = ks -> mem h (at_t TTF_KERNEL_SP) = F ->
  exists h2, exec translate (take 56 (trap_entry f)) 0 h = Ret (0%nat, h2) /\
    x h2 A0 = F /\ csr h2 Sscratch = T /\ csr h2 Satp = ks /\ rest h2 = rest h /\
    frame_in (mem h2) at_f = mkFrame (map (x h) gp_registers) (mem h (at_f PTF_PC)) (csr h Sepc) (csr h Sstatus) (csr h Stval)
      (csr h Scause) (mem h (at_f PTF_SATP)) /\
    mem h2 (at_t TTF_USER_SP) = x h Sp /\ mem h2 (at_t TTF_T0) = x h T0 /\
    (forall o, 16 <= o < TTF_SIZE -> o mod 8 = 0 -> mem h2 (at_t o) = mem h (at_t o)).
Proof.
  intros Hm HT HU Hks HF. destruct (enter_spec f U ks T F at_t at_f h) as (h1 & E1 & Hsp & Hx & Hc1 & Hc2 & Hc & Hr & HM); [done..|].
  destruct (saved_words U ks T F at_t at_f h h1 Hm Hx HM) as (Wr & Wo & Wt1 & Wt2 & Wt). destruct Hm as [Hu Hk Hf Hap].
  change (take 56 (trap_entry f)) with (take 19 (trap_entry f) ++ map (fun '(r, o) => Sd r o Sp) (at_gp saved)
    ++ take 9 (drop 47 (trap_entry f))).
  rewrite exec_app, E1. cbn [obind]. rewrite exec_app.
  rewrite (exec_sd_list _ Sp PTF_SIZE at_f) by (first [by rewrite Hc2, Hsp | apply at_gp_struct; [by apply (bool_decide_eq_true_1 _)|done]]).
  cbn [obind]. set (h1' := mkHart _ _ _ _). 
  assert (Hc2' : csr h1' Satp = ks) by done. assert (Hsp' : x h1' Sp = F) by done.
  cbn [drop take trap_entry].
  do 4 (pstep; sstep F Hf). pstep. eexists. split; [reflexivity|]. hart_simp.
  assert (Hcs : forall c, c ∉ [Sscratch; Satp] -> csr h1' c = csr h c) by exact Hc.
  split_and!; try done.
  - unfold frame_in. f_equal.
    + apply map_ext_in. intros r Hin. apply list_elem_of_In, elem_of_gp in Hin. pose proof (gp_offset_bound r Hin) as [Hb Hb8].
      rewrite !upd_ne by (apply (rg_ne _ _ _ _ _ _ _ Hf); unfold PTF, PTF_SIZE, PTF_SEPC, PTF_SCAUSE, PTF_STVAL, PTF_SSTATUS in *; (lia || done)).
      by apply Wr.
    + rewrite !upd_ne by (by apply (rg_ne _ _ _ _ _ _ _ Hf)). by apply Wo.
    + rewrite !(upd_ne _ _ _ (at_f PTF_SEPC)) by (by apply (rg_ne _ _ _ _ _ _ _ Hf)). rewrite upd_eq. apply Hcs. by apply (bool_decide_eq_true_1 _).
    + rewrite upd_eq. apply Hcs. by apply (bool_decide_eq_true_1 _).
    + rewrite !(upd_ne _ _ _ (at_f PTF_STVAL)) by (by apply (rg_ne _ _ _ _ _ _ _ Hf)). rewrite upd_eq. apply Hcs. by apply (bool_decide_eq_true_1 _).
    + rewrite !(upd_ne _ _ _ (at_f PTF_SCAUSE)) by (by apply (rg_ne _ _ _ _ _ _ _ Hf)). rewrite upd_eq. apply Hcs. by apply (bool_decide_eq_true_1 _).
    + rewrite !upd_ne by (by apply (rg_ne _ _ _ _ _ _ _ Hf)). by apply Wo.
  - rewrite !upd_ne by (by apply Hap). done.
  - rewrite !upd_ne by (by apply Hap). done.
  - intros o Ho Ho8. rewrite !upd_ne by (apply Hap; unfold TTF_SIZE in *; lia || done). by apply Wt.
Qed.

(** ** Return *)
Lemma restore_spec f U ks T F at_t at_f (h : hart) :
  mapped U ks T F at_t at_f -> x h A0 = F -> csr h Sscratch = T -> csr h Satp = ks -> mem h (at_f PTF_SATP) = U ->
  exists h', exec translate (drop 57 (trap_entry f)) 0 h = Ret (0%nat, h') /\
    (forall r, r ∉ [Zero; Sp; T0] -> x h' r = mem h (at_f (PTF r))) /\
    x h' Sp = mem h (at_t TTF_USER_SP) /\ x h' T0 = mem h (at_t TTF_T0) /\
    csr h' Sepc = mem h (at_f PTF_PC) /\ csr h' Sstatus = mem h (at_f PTF_SSTATUS) /\ csr h' Satp = U /\ csr h' Sscratch = T /\
    mem h' = mem h /\ rest h' = rest h.
Proof.
  intros [Hu Hk Hf Hap] HF HT Hks HU.
  change (drop 57 (trap_entry f)) with (Mv Sp A0 :: map (fun '(r, o) => Ld r o Sp) (at_gp restored) ++ drop 87 (trap_entry f)).
  pstep. rewrite exec_app. rewrite HF.
  rewrite (exec_ld_list _ Sp PTF_SIZE at_f);
    [| by hart_simp; rewrite Hks | apply at_gp_struct; [by apply (bool_decide_eq_true_1 _)|done] | rewrite at_gp_fst; by apply (bool_decide_eq_true_1 _)..].
  cbn [obind]. set (h1 := mkHart _ _ _ _).
  destruct (loaded_at at_f (at_gp restored) (setx Sp F h) Sp) as [Hsp _].
  assert (Hsp1 : x h1 Sp = F).
  { unfold h1. cbn [x]. rewrite Hsp by (rewrite at_gp_fst; by apply (bool_decide_eq_true_1 _)). by rewrite setx_eq. }
  assert (Hks1 : csr h1 Satp = ks) by (unfold h1; cbn [csr]; by rewrite setx_csr).
  assert (HT1 : csr h1 Sscratch = T) by (unfold h1; cbn [csr]; by rewrite setx_csr).
  assert (Hm1 : mem h1 = mem h) by (unfold h1; cbn [mem]; by rewrite setx_mem).
  cbn [drop trap_entry]. lstep F Hf. pstep. lstep F Hf. pstep. lstep F Hf. pstep. rewrite Hm1, HU. pstep.
  rewrite HT1. lstep T Hu. rewrite exec_flush. lstep T Hu. lstep T Hu. rewrite Hm1.
  eexists. split; [reflexivity|]. hart_simp. split_and!; try done.
  - intros r Hr. apply not_elem_of_cons in Hr as [H1 Hr]. apply not_elem_of_cons in Hr as [H2 Hr]. apply not_elem_of_cons in Hr as [H3 _].
    transitivity (x h1 r); [destruct r; first [congruence | reflexivity]|].
    unfold h1. cbn [x]. destruct (loaded_at at_f (at_gp restored) (setx Sp F h) r) as [_ Hl].
    rewrite (Hl (PTF r)); [by rewrite setx_mem | |].
    + rewrite at_gp_fst. by apply (bool_decide_eq_true_1 _).
    + apply elem_of_at_gp, (bool_decide_eq_true_1 _). by destruct r.
Qed.

(** ** The call of the handler

    The compiled [trap_handler] gets the address of the frame in [a0] and
    returns it; the frame then holds what the Rust function left there.
    Registers and supervisor registers are [junk] afterwards, but for those
    that select the address space and the trampoline frame.  When the handler
    gave the hart away, the scheduler has put the frame's [sp] and [t0] into
    the trampoline frame before coming back ([switched], thread.rs). *)
Definition frame_words (tf : ProcessTrapFrame) : list (Z * Z) :=
  zip (map PTF gp_registers) (registers tf)
  ++ [(PTF_PC, pc tf); (PTF_SEPC, sepc tf); (PTF_SSTATUS, sstatus tf); (PTF_STVAL, stval tf); (PTF_SCAUSE, scause tf); (PTF_SATP, satp tf)].

Definition put_frame (at_f : Z -> Z) (tf : ProcessTrapFrame) (m : Z -> Z) : Z -> Z :=
  foldl (fun m '(o, v) => upd m (at_f o) v) m (frame_words tf).

Definition reg_of (tf : ProcessTrapFrame) (r : reg) : Z := default 0 (registers tf !! Z.to_nat (num r - 1)).

Definition rust_call (H : ProcessTrapFrame -> K -> outcome (option (ProcessTrapFrame * K))) (at_t at_f : Z -> Z)
    (switched : bool) (junk : reg -> Z) (jcsr : csr_name -> Z) (h : hart) : outcome hart :=
  let! r := H (frame_in (mem h) at_f) (rest h) in
  match r with
  | None => Panic
  | Some (tf, k) =>
      let m := put_frame at_f tf (mem h) in
      let m := if switched then upd (upd m (at_t TTF_USER_SP) (reg_of tf Sp)) (at_t TTF_T0) (reg_of tf T0) else m in
      Ret (mkHart (fun r => if decide (r = A0) then x h A0 else junk r)
             (fun c => if decide (c = Sscratch \/ c = Satp) then csr h c else jcsr c) m k)
  end.

Lemma foldl_upd (at_f : Z -> Z) (ws : list (Z * Z)) m q : (forall o v, (o, v) ∈ ws -> q <> at_f o) -> foldl (fun m '(o, v) => upd m (at_f o) v) m ws q = m q.
Proof.
  revert m. induction ws as [|[o v] ws IH]; intros m Hq; [done|]. cbn [foldl].
  rewrite IH by (intros o' v' Hin; apply (Hq o' v'); by right). apply upd_ne. apply (Hq o v). by left.
Qed.

Lemma foldl_upd_at s v0 n at_f (ws : list (Z * Z)) m o v : region translate s v0 n at_f -> Forall (fun '(o, _) => 0 <= o < n /\ o mod 8 = 0) ws ->
  NoDup ws.*1 -> (o, v) ∈ ws -> foldl (fun m '(o, v) => upd m (at_f o) v) m ws (at_f o) = v.
Proof.
  intros Hr Hw. revert m. induction ws as [|[o1 v1] ws IH]; intros m Hnd Hin; [by apply elem_of_nil in Hin|].
  apply Forall_cons in Hw as [[Ho Ho8] Hw]. apply NoDup_cons in Hnd as [Hn Hnd]. cbn [foldl fst] in *.
  apply elem_of_cons in Hin as [[= -> ->]|Hin]; [|by apply IH]. rewrite foldl_upd; [apply upd_eq|].
  intros o' v' Hi E. apply (rg_inj _ _ _ _ _ Hr) in E as ->; [|done| |done|].
  - apply Hn. apply list_elem_of_fmap. by exists (o', v').
  - rewrite Forall_forall in Hw. by apply (Hw (o', v')).
  - rewrite Forall_forall in Hw. by apply (Hw (o', v')).
Qed.

Lemma frame_words_fst tf : length (registers tf) = 31%nat ->
  (frame_words tf).*1 = map (fun i => 8 * Z.of_nat i) (seq 0 37).
Proof.
  intros Hl. unfold frame_words. rewrite fmap_app, fst_zip by (rewrite length_map, Hl; done). reflexivity.
Qed.

Lemma frame_words_struct tf : length (registers tf) = 31%nat ->
  Forall (fun '(o, _) => 0 <= o < PTF_SIZE /\ o mod 8 = 0) (frame_words tf) /\ NoDup (frame_words tf).*1.
Proof.
  intros Hl. pose proof (frame_words_fst tf Hl) as E. split.
  - apply Forall_forall. intros [o v] Hin. assert (Ho : o ∈ (frame_words tf).*1) by (apply list_elem_of_fmap; by exists (o, v)).
    rewrite E in Ho. apply list_elem_of_fmap in Ho as (i & -> & Hi). apply elem_of_seq in Hi. unfold PTF_SIZE. split; [lia|].
    rewrite Z.mul_comm. apply Z_mod_mult.
  - rewrite E. apply NoDup_fmap_2; [intros i j; lia|]. apply NoDup_seq.
Qed.

Lemma reg_of_frame tf r : length (registers tf) = 31%nat -> r <> Zero -> (PTF r, reg_of tf r) ∈ frame_words tf.
Proof.
  intros Hl Hr. apply elem_of_app. left. apply elem_of_gp in Hr as Hg. apply list_elem_of_lookup_1 in Hg as [i Hi].
  apply list_elem_of_lookup. exists i. pose proof (gp_registers_offset i r Hi) as Ho.
  assert (Hlt : (i < 31)%nat) by (apply lookup_lt_Some in Hi; exact Hi).
  destruct (lookup_lt_is_Some_2 (registers tf : list Z) i) as [v Hv]; [lia|].
  apply lookup_zip_Some. split; [by rewrite list_lookup_fmap, Hi|]. unfold reg_of.
  replace (Z.to_nat (num r - 1)) with i by (unfold gp_offset in Ho; lia). change GpRegisters with (list Z) in *. by rewrite Hv.
Qed.

Lemma reg_of_map (g : reg -> Z) tf r : registers tf = map g gp_registers -> r <> Zero -> reg_of tf r = g r.
Proof. intros E Hr. unfold reg_of. rewrite E. by destruct r. Qed.

Lemma put_frame_at s v0 at_f tf m o v : region translate s v0 PTF_SIZE at_f -> length (registers tf) = 31%nat ->
  (o, v) ∈ frame_words tf -> put_frame at_f tf m (at_f o) = v.
Proof. intros Hr Hl. destruct (frame_words_struct tf Hl). by apply (foldl_upd_at s v0 PTF_SIZE). Qed.

(** A trap brings a process back with the registers its frame holds.  From
    any state of a process, the entry code saves every register, [sepc],
    [scause], [stval] and [sstatus] where the handler finds them; whatever the
    handler leaves in the frame, the return code loads: all registers, the
    program counter, [sstatus] and the address space.  The exceptions are
    [sp] and [t0], which come from the trampoline frame: they have the values
    at the trap, unless the thread was switched away meanwhile.  The
    trampoline frame is back in [sscratch] for the next trap. *)
Lemma user_trap_run H U ks T F at_t at_f sw junk jcsr (h : hart) tf' k'
  (Hm : mapped U ks T F at_t at_f) (Hu : user_ready U ks T F at_t at_f h)
  (Hrun : H (mkFrame (map (x h) gp_registers) (mem h (at_f PTF_PC)) (csr h Sepc) (csr h Sstatus) (csr h Stval) (csr h Scause)
               (mem h (at_f PTF_SATP))) (rest h) = Ret (Some (tf', k')))
  (Hl : length (registers tf') = 31%nat) (Hsatp : satp tf' = U) :
  exists h', exec translate (trap_entry (rust_call H at_t at_f sw junk jcsr)) 0 h = Ret (0%nat, h') /\ rest h' = k' /\
    (forall r, r ∉ [Zero; Sp; T0] -> x h' r = reg_of tf' r) /\
    (forall r, r ∈ [Sp; T0] -> x h' r = if sw then reg_of tf' r else x h r) /\
    csr h' Sepc = pc tf' /\ csr h' Sstatus = sstatus tf' /\ user_ready U ks T F at_t at_f h'.
Proof.
  destruct Hu as [HT HU Hks HF _]. set (f := rust_call H at_t at_f sw junk jcsr).
  destruct (save_spec f U ks T F at_t at_f h) as (h2 & E2 & Ha & HT2 & Hk2 & Hr2 & Hfr & Hsp & Ht0 & Hrst); [done..|].
  change (trap_entry f) with (take 56 (trap_entry f) ++ Call f :: drop 57 (trap_entry f)).
  rewrite exec_app, E2. cbn [obind exec exec1]. unfold f at 1, rust_call. rewrite Hfr, Hr2, Hrun. cbn [obind].
  set (h3 := mkHart _ _ _ _).
  assert (Hread : forall o v, (o, v) ∈ frame_words tf' -> mem h3 (at_f o) = v).
  { intros o v Hin. destruct (frame_words_struct tf' Hl) as [Hw _]. rewrite Forall_forall in Hw. destruct (Hw _ Hin) as [Ho Ho8].
    unfold h3. cbn [mem]. destruct sw; rewrite ?upd_ne by (intros E; symmetry in E; revert E; by apply (mp_apart _ _ _ _ _ _ Hm));
    exact (put_frame_at ks F at_f tf' _ o v (mp_frame _ _ _ _ _ _ Hm) Hl Hin). }
  assert (Hkeep : forall o, 0 <= o < TTF_SIZE -> o mod 8 = 0 -> put_frame at_f tf' (mem h2) (at_t o) = mem h2 (at_t o)).
  { intros o Ho Ho8. apply foldl_upd. intros o' v Hin. destruct (frame_words_struct tf' Hl) as [Hw _]. rewrite Forall_forall in Hw.
    destruct (Hw _ Hin). by apply (mp_apart _ _ _ _ _ _ Hm). }
  destruct (restore_spec f U ks T F at_t at_f h3) as (h' & E' & Hx & Hxsp & Hxt0 & Hpc & Hst & Hsa & Hsc & Hmem & Hrest);
    [done|exact Ha|exact HT2|exact Hk2| |].
  { rewrite (Hread PTF_SATP (satp tf')); [done|]. apply elem_of_app. right. by repeat (left || right). }
  exists h'. split; [exact E'|]. split; [exact Hrest|]. split_and!; try done.
  - intros r Hr. rewrite (Hx r Hr). apply Hread, reg_of_frame; [done|]. intros ->. apply Hr. by left.
  - intros r Hr. apply elem_of_cons in Hr as [->|Hr]; [|apply list_elem_of_singleton in Hr as ->].
    + rewrite Hxsp. unfold h3. cbn [mem]. destruct sw; [|by rewrite Hkeep].
      rewrite upd_ne by (by apply (rg_ne _ _ _ _ _ _ _ (mp_user _ _ _ _ _ _ Hm))). apply upd_eq.
    + rewrite Hxt0. unfold h3. cbn [mem]. destruct sw; [apply upd_eq|by rewrite Hkeep].
  - rewrite Hpc. apply Hread. apply elem_of_app. right. by repeat (left || right).
  - rewrite Hst. apply Hread. apply elem_of_app. right. by repeat (left || right).
  - assert (Htt : forall o, 16 <= o < TTF_SIZE -> o mod 8 = 0 -> mem h' (at_t o) = mem h (at_t o)).
    { intros o Ho Ho8. rewrite Hmem. unfold h3. cbn [mem]. rewrite <- (Hrst o Ho Ho8), <- Hkeep by (unfold TTF_SIZE in *; lia || done).
      destruct sw; [|done]. by rewrite !upd_ne by (apply (rg_ne _ _ _ _ _ _ _ (mp_user _ _ _ _ _ _ Hm));
        unfold TTF_SIZE, TTF_T0, TTF_USER_SP in *; lia || done). }
    split; [done|done|by rewrite Htt|by rewrite Htt|]. rewrite Hmem, (Hread PTF_SATP (satp tf')); [done|].
    apply elem_of_app. right. by repeat (left || right).
Qed.

End user.

(** ** The handler *)

(** riscv.rs *)
Definition SCAUSE_INTERRUPT_BIT : Z := 2 ^ 63.
Definition is_interrupt (scause : Z) : bool := negb (Z.land scause SCAUSE_INTERRUPT_BIT =? 0).
Definition interrupt_code (scause : Z) : Z := andn scause SCAUSE_INTERRUPT_BIT.
Definition EXTERNAL : Z := 9.
Definition STORE_ACCESS_FAULT : Z := 7.
Definition ECALL_FROM_U : Z := 8.
Definition LOAD_PAGE_FAULT : Z := 13.
Definition STORE_PAGE_FAULT : Z := 15.

Section rust.
Context {W F A : Type} {KF : Sys.KernelFiles W F} {FA : FrameAllocator A}.
Notation kstate := (Sys.kstate (W := W) (F := F) (A := A)).

(** [dispatch_irq] (drivers/plic.rs) runs the handlers of the pending
    interrupts. *)
Context (dispatch_irq : kstate -> outcome kstate).

Definition trap_handler (tf : ProcessTrapFrame) (k : kstate) : outcome (option (ProcessTrapFrame * kstate)) :=
  if is_interrupt (scause tf) then
    let tf := set_pc (sepc tf) tf in
    if interrupt_code (scause tf) =? EXTERNAL then
      let! k := dispatch_irq k in
      Ret (Some (tf, k))
    else Panic
  else if scause tf =? STORE_ACCESS_FAULT then
    let! '(tf, m) := Amo.handle_amo_fault tf (Sys.mem k) (Sys.root_table (Sys.ctx k)) in
    Ret (Some (tf, Sys.with_mem m k))
  else if (scause tf =? LOAD_PAGE_FAULT) || (scause tf =? STORE_PAGE_FAULT) then Panic
  else if scause tf =? ECALL_FROM_U then Sys.handle tf k
  else Panic.

Context (translate : Z -> Z -> option Z).

(** C13: a system call is transparent.  A process that executes [ecall] and
    whose call returns gets the hart back behind the [ecall] with every
    register but a0 as it left it, also [sp] and [t0], whether or not other
    threads ran meanwhile; a0 holds the result, the address space and
    [sstatus] are the same, and the next trap will find its frames. *)
Theorem ecall_transparent U ks T Fr at_t at_f sw junk jcsr (h : hart kstate) tf' k'
  (Hm : mapped translate U ks T Fr at_t at_f) (Hu : user_ready U ks T Fr at_t at_f h)
  (Hcause : csr h Scause = ECALL_FROM_U)
  (Hrun : Sys.handle (mkFrame (map (x h) gp_registers) (mem h (at_f PTF_PC)) (csr h Sepc) (csr h Sstatus) (csr h Stval)
               (csr h Scause) (mem h (at_f PTF_SATP))) (rest h) = Ret (Some (tf', k'))) :
  exists h', exec translate (trap_entry (rust_call trap_handler at_t at_f sw junk jcsr)) 0 h = Ret (0%nat, h') /\ rest h' = k' /\
    (forall r, r ∉ [Zero; A0] -> x h' r = x h r) /\ x h' A0 = a 0 tf' /\
    csr h' Sepc = csr h Sepc + 4 /\ csr h' Sstatus = csr h Sstatus /\ user_ready U ks T Fr at_t at_f h'.
Proof.
  destruct (Sys.handle_only_a0 _ _ _ _ Hrun) as (tf1 & Ho & Etf & _).
  destruct (user_trap_run translate trap_handler U ks T Fr at_t at_f sw junk jcsr h tf' k')
    as (h' & E & Hr & Hx & Hst & Hpc & Hss & Hur); [done|done| | | |].
  - unfold trap_handler. cbn [scause]. rewrite Hcause in *. exact Hrun.
  - subst tf'. by destruct Ho as [->|[v ->]].
  - subst tf'. by destruct Ho as [->|[v ->]]; apply (ur_frame _ _ _ _ _ _ _ Hu).
  - assert (Hreg : forall r, r ∉ [Zero; A0] -> reg_of tf' r = x h r).
    { intros r Hr0. subst tf'. apply not_elem_of_cons in Hr0 as [Hz Hr0]. apply not_elem_of_cons in Hr0 as [Ha _].
      destruct Ho as [->|[v ->]]; destruct r; first [congruence | reflexivity]. }
    exists h'. split; [exact E|]. split; [exact Hr|]. split_and!; [| | | |done].
    + intros r Hr0. rewrite <- (Hreg r Hr0). apply not_elem_of_cons in Hr0 as [Hz Hr0].
      destruct (decide (r ∈ [Sp; T0])) as [Hs|Hs].
      * rewrite (Hst r Hs). destruct sw; [done|]. symmetry. apply Hreg. apply not_elem_of_cons. by split.
      * apply Hx. apply not_elem_of_cons. by split.
    + rewrite (Hx A0) by (by apply (bool_decide_eq_true_1 _)). done.
    + rewrite Hpc. by subst tf'; destruct Ho as [->|[v ->]].
    + rewrite Hss. by subst tf'; destruct Ho as [->|[v ->]].
Qed.

(** an interrupt is invisible to the process it interrupts: whatever the
    handlers of the devices do, the process goes on at the instruction that
    was interrupted with every register as it was. *)
Theorem interrupt_transparent U ks T Fr at_t at_f sw junk jcsr (h : hart kstate) k'
  (Hm : mapped translate U ks T Fr at_t at_f) (Hu : user_ready U ks T Fr at_t at_f h)
  (Hcause : csr h Scause = 2 ^ 63 + EXTERNAL) (Hirq : dispatch_irq (rest h) = Ret k') :
  exists h', exec translate (trap_entry (rust_call trap_handler at_t at_f sw junk jcsr)) 0 h = Ret (0%nat, h') /\ rest h' = k' /\
    (forall r, r <> Zero -> x h' r = x h r) /\
    csr h' Sepc = csr h Sepc /\ csr h' Sstatus = csr h Sstatus /\ user_ready U ks T Fr at_t at_f h'.
Proof.
  edestruct (user_trap_run translate trap_handler U ks T Fr at_t at_f sw junk jcsr h)
    as (h' & E & Hr & Hx & Hst & Hpc & Hss & Hur); [done|done| | | |].
  - unfold trap_handler. cbn [scause set_pc sepc]. rewrite Hcause. change (is_interrupt (2 ^ 63 + EXTERNAL)) with true.
    change (interrupt_code (2 ^ 63 + EXTERNAL) =? EXTERNAL) with true. rewrite Hirq. reflexivity.
  - reflexivity.
  - exact (ur_frame _ _ _ _ _ _ _ Hu).
  - exists h'. split; [exact E|]. split; [exact Hr|]. split_and!; try done.
    intros r Hz. destruct (decide (r ∈ [Sp; T0])) as [Hs|Hs].
    + rewrite (Hst r Hs). destruct sw; [|done]. by apply (reg_of_map (x h)).
    + rewrite (Hx r) by (apply not_elem_of_cons; by split). by apply (reg_of_map (x h)).
Qed.

(** an emulated atomic with [t0] as destination loses its result.  The
    handler puts the old value into the frame, and the return code takes
    [t0] from the trampoline frame: the process sees its old [t0]. *)
Theorem amo_t0_lost U ks T Fr at_t at_f junk jcsr (h : hart kstate) kind aqrl r1 r2 ps p
  (Hm : mapped translate U ks T Fr at_t at_f) (Hu : user_ready U ks T Fr at_t at_f h)
  (Hcause : csr h Scause = STORE_ACCESS_FAULT) (Haq : 0 <= aqrl < 4) (H1 : 0 <= r1 < 32) (H2 : 0 <= r2 < 32)
  (Hpc0 : 0 <= csr h Sepc < USIZE - 4)
  (Hps : Mapper.virt_to_phys (Sys.mem (rest h)) (Sys.root_table (Sys.ctx (rest h))) (csr h Sepc) = Some ps)
  (Hin : Amo.read_int 4 (Sys.mem (rest h)) ps =
         Amo.encode_amo (Amo.kind_funct5 kind) aqrl r2 r1 (Amo.kind_funct3 kind) (num T0))
  (Hp : Mapper.virt_to_phys (Sys.mem (rest h)) (Sys.root_table (Sys.ctx (rest h)))
          (Amo.xget (map (x h) gp_registers) r1) = Some p)
  (Hal : p mod Z.of_nat (Amo.kind_width kind) = 0) :
  exists h', exec translate (trap_entry (rust_call trap_handler at_t at_f false junk jcsr)) 0 h = Ret (0%nat, h') /\
    x h' T0 = x h T0 /\ csr h' Sepc = csr h Sepc + 4 /\
    Sys.mem (rest h') = (Amo.isa_amo kind (num T0) r1 r2 (map (x h) gp_registers) (Sys.mem (rest h)) p).2.
Proof.
  edestruct (user_trap_run translate trap_handler U ks T Fr at_t at_f false junk jcsr h)
    as (h' & E & Hr & Hx & Hst & Hpc & Hss & Hur); [done|done| | | |].
  - unfold trap_handler. cbn [scause]. rewrite Hcause. change (is_interrupt STORE_ACCESS_FAULT) with false.
    change (STORE_ACCESS_FAULT =? STORE_ACCESS_FAULT) with true. cbv iota.
    rewrite (Amo.handle_amo_run _ _ _ kind aqrl (num T0) r1 r2 ps p); [cbn [obind]; reflexivity|done..].
  - cbn [registers set_pc Amo.with_regs]. change GpRegisters with (list Z). by rewrite length_insert.
  - exact (ur_frame _ _ _ _ _ _ _ Hu).
  - exists h'. split; [exact E|]. split_and!.
    + by rewrite (Hst T0) by (right; left).
    + by rewrite Hpc.
    + by rewrite Hr.
Qed.

End rust.

(** ** Witnesses: frames at 0x1000 and 0x2000, mapped where they are *)
Definition id_map (s v : Z) : option Z := Some v.
Definition ttf_at (o : Z) : Z := 0x1000 + o.
Definition ptf_at (o : Z) : Z := 0x2000 + o.

Lemma id_region s v n : 0 <= v -> v mod 8 = 0 -> v + n <= USIZE -> region id_map s v n (fun o => v + o).
Proof.
  intros Hv H8 Hn. split.
  - intros o Ho Ho8. unfold id_map. rewrite Z.mod_small by lia. split; [done|]. lia.
  - intros. lia.
Qed.

Lemma id_mapped : mapped id_map 5 7 0x1000 0x2000 ttf_at ptf_at.
Proof.
  split; [apply id_region; done..|]. intros o o' Ho Ho' _ _. unfold ttf_at, ptf_at, TTF_SIZE, PTF_SIZE in *. lia.
Qed.

(** A process whose registers hold their numbers plus 100, with [a2] and [a7] as given. *)
Definition demo_hart {K} (cause a2 a7 pc : Z) (k : K) : hart K :=
  mkHart (fun r => match r with A2 => a2 | A7 => a7 | _ => 100 + num r end)
    (fun c => match c with Sscratch => 0x1000 | Sepc => pc | Scause => cause | Satp => 5 | _ => 0 end)
    (fun p => if p =? 0x1010 then 7 else if p =? 0x1020 then 0x2000 else if p =? 0x2120 then 5 else 0) k.

Lemma ecall_transparent_witness :
  exists h', exec id_map (trap_entry (rust_call (trap_handler (fun k => Ret k)) ttf_at ptf_at true (fun _ => 0) (fun _ => 0))) 0
      (demo_hart 8 0 178 0x10000 Sys.demo_k) = Ret (0%nat, h') /\ x h' T0 = 105 /\ x h' A0 = 1 /\ csr h' Sepc = 0x10004.
Proof.
  edestruct (ecall_transparent (fun k => Ret k) id_map 5 7 0x1000 0x2000 ttf_at ptf_at true (fun _ => 0) (fun _ => 0)
    (demo_hart 8 0 178 0x10000 Sys.demo_k)) as (h' & E & _ & Hx & Ha & Hpc & _);
    [apply id_mapped|by split|reflexivity|reflexivity|].
  exists h'. split; [exact E|]. split; [|split; [exact Ha|exact Hpc]].
  rewrite (Hx T0) by (by apply (bool_decide_eq_true_1 _)). reflexivity.
Defined.

Lemma interrupt_transparent_witness :
  exists h', exec id_map (trap_entry (rust_call (trap_handler (fun k => Ret k)) ttf_at ptf_at false (fun _ => 0) (fun _ => 0))) 0
      (demo_hart (2 ^ 63 + 9) 0 0 0x10000 Sys.demo_k) = Ret (0%nat, h') /\ x h' Sp = 102 /\ csr h' Sepc = 0x10000.
Proof.
  edestruct (interrupt_transparent (fun k => Ret k) id_map 5 7 0x1000 0x2000 ttf_at ptf_at false (fun _ => 0) (fun _ => 0)
    (demo_hart (2 ^ 63 + 9) 0 0 0x10000 Sys.demo_k)) as (h' & E & _ & Hx & Hpc & _);
    [apply id_mapped|by split|reflexivity|reflexivity|].
  exists h'. split; [exact E|]. split; [|exact Hpc]. by rewrite (Hx Sp).
Defined.

Lemma amo_t0_lost_witness :
  exists h', exec id_map (trap_entry (rust_call (trap_handler (fun k => Ret k)) ttf_at ptf_at false (fun _ => 0) (fun _ => 0))) 0
      (demo_hart 7 0x11000 0 0x10000 (Sys.with_mem (Amo.amo_mem 5 7) Sys.demo_k)) = Ret (0%nat, h') /\ x h' T0 = 105.
Proof.
  set (h := demo_hart 7 0x11000 0 0x10000 (Sys.with_mem (Amo.amo_mem 5 7) Sys.demo_k)).
  destruct (Mapper.virt_to_phys (Sys.mem (rest h)) (Sys.root_table (Sys.ctx (rest h)))
    (Amo.xget (map (x h) gp_registers) 12)) as [p|] eqn:Ep; [|vm_compute in Ep; discriminate].
  destruct (Mapper.virt_to_phys (Sys.mem (rest h)) (Sys.root_table (Sys.ctx (rest h))) (csr h Sepc)) as [ps|] eqn:Eps;
    [|vm_compute in Eps; discriminate].
  assert (Hal : p mod 4 = 0) by (vm_compute in Ep; injection Ep as <-; by vm_compute).
  assert (Hps : Amo.read_int 4 (Sys.mem (rest h)) ps = Amo.encode_amo 0 0 11 12 2 (num T0))
    by (vm_compute in Eps; injection Eps as <-; by vm_compute).
  assert (Hpc : 0 <= csr h Sepc < USIZE - 4) by (split; [discriminate|reflexivity]).
  destruct (amo_t0_lost (fun k => Ret k) id_map 5 7 0x1000 0x2000 ttf_at ptf_at (fun _ => 0) (fun _ => 0) h Amo.AmoAddW 0 12 11 ps p
    id_mapped ltac:(split; reflexivity) eq_refl ltac:(lia) ltac:(lia) ltac:(lia) Hpc Eps Hps Ep Hal) as (h' & E & Hx & _).
  exists h'. split; [exact E|exact Hx].
Defined.

End Trap.
