(* ===== verification/KernelTrap.v ===== *)
(** * Traps in the kernel

    Models [src/src/kernel_trap.rs]: [kernel_trap_entry], instruction by
    instruction, and [kernel_trap_handler], which serves the interrupt and
    steps over a [wfi].  The theorem is that the interrupted kernel code does
    not notice. *)

From S2P Require Import Prelude Bytes Asm Trap.

Module KTrap.
Import Asm Trap.

(** build.rs *)
Definition KTF (r : reg) : Z := gp_offset r.
Definition KTF_SEPC : Z := 248.
Definition KTF_SIZE : Z := 256.

(** riscv.rs *)
Definition SSTATUS_SPIE : Z := Z.shiftl 1 5.
Definition INSTR_WFI : Z := 0x10500073.

(** ** The handler *)
Section handler.
Context {K : Type} (dispatch_irq : K -> outcome K).

(** The instruction at [sepc], from the bytes of the kernel's code. *)
Definition instr_at (code : Z -> Z) (sepc : Z) : outcome Z :=
  if sepc mod 4 =? 0 then Ret (from_le [code sepc; code (sepc + 1); code (sepc + 2); code (sepc + 3)])
  else
    let low := from_le [code sepc; code (sepc + 1)] in
    let! second := uadd sepc 2 in
    let high := from_le [code second; code (second + 1)] in
    Ret (Z.lor low (Z.shiftl high 16)).

(** The value left in [sepc] of the frame, which holds [sepc] on entry. *)
Definition kernel_trap_handler (code : Z -> Z) (scause sepc : Z) (k : K) : outcome (Z * K) :=
  if is_interrupt scause then
    if interrupt_code scause =? EXTERNAL then
      let! k := dispatch_irq k in
      if sepc mod 2 =? 0 then
        let! instr := instr_at code sepc in
        if instr =? INSTR_WFI then
          let! next := uadd sepc 4 in
          Ret (next, k)
        else Ret (sepc, k)
      else Ret (sepc, k)
    else Panic
  else Panic.

End handler.

Section entry.
Context {K : Type} (translate : Z -> Z -> option Z).
Notation hart := (hart K).

Definition kernel_trap_entry (kernel_trap_handler : hart -> outcome hart) : list (instr K) :=
  [ Csrrw Sp Sscratch Sp;
    Addi Sp Sp (- KTF_SIZE);
    Sd Ra (KTF Ra) Sp;
    Sd Gp (KTF Gp) Sp;
    Sd Tp (KTF Tp) Sp;
    Sd T0 (KTF T0) Sp;
    Sd T1 (KTF T1) Sp;
    Sd T2 (KTF T2) Sp;
    Sd S0 (KTF S0) Sp;
    Sd S1 (KTF S1) Sp;
    Sd A0 (KTF A0) Sp;
    Sd A1 (KTF A1) Sp;
    Sd A2 (KTF A2) Sp;
    Sd A3 (KTF A3) Sp;
    Sd A4 (KTF A4) Sp;
    Sd A5 (KTF A5) Sp;
    Sd A6 (KTF A6) Sp;
    Sd A7 (KTF A7) Sp;
    Sd S2 (KTF S2) Sp;
    Sd S3 (KTF S3) Sp;
    Sd S4 (KTF S4) Sp;
    Sd S5 (KTF S5) Sp;
    Sd S6 (KTF S6) Sp;
    Sd S7 (KTF S7) Sp;
    Sd S8 (KTF S8) Sp;
    Sd S9 (KTF S9) Sp;
    Sd S10 (KTF S10) Sp;
    Sd S11 (KTF S11) Sp;
    Sd T3 (KTF T3) Sp;
    Sd T4 (KTF T4) Sp;
    Sd T5 (KTF T5) Sp;
    Sd T6 (KTF T6) Sp;
    Csrr T0 Sscratch;
    Sd T0 (KTF Sp) Sp;
    Csrr T0 Sepc;
    Sd T0 KTF_SEPC Sp;
    Mv A0 Sp;
    Call kernel_trap_handler;
    Ld T0 KTF_SEPC Sp;
    Csrw Sepc T0;
    Ld T0 (KTF Sp) Sp;
    Csrw Sscratch T0;
    Li T0 SSTATUS_SPIE;
    Csrc Sstatus T0;
    Ld Ra (KTF Ra) Sp;
    Ld Gp (KTF Gp) Sp;
    Ld Tp (KTF Tp) Sp;
    Ld T0 (KTF T0) Sp;
    Ld T1 (KTF T1) Sp;
    Ld T2 (KTF T2) Sp;
    Ld S0 (KTF S0) Sp;
    Ld S1 (KTF S1) Sp;
    Ld A0 (KTF A0) Sp;
    Ld A1 (KTF A1) Sp;
    Ld A2 (KTF A2) Sp;
    Ld A3 (KTF A3) Sp;
    Ld A4 (KTF A4) Sp;
    Ld A5 (KTF A5) Sp;
    Ld A6 (KTF A6) Sp;
    Ld A7 (KTF A7) Sp;
    Ld S2 (KTF S2) Sp;
    Ld S3 (KTF S3) Sp;
    Ld S4 (KTF S4) Sp;
    Ld S5 (KTF S5) Sp;
    Ld S6 (KTF S6) Sp;
    Ld S7 (KTF S7) Sp;
    Ld S8 (KTF S8) Sp;
    Ld S9 (KTF S9) Sp;
    Ld S10 (KTF S10) Sp;
    Ld S11 (KTF S11) Sp;
    Ld T3 (KTF T3) Sp;
    Ld T4 (KTF T4) Sp;
    Ld T5 (KTF T5) Sp;
    Ld T6 (KTF T6) Sp;
    Addi Sp Sp KTF_SIZE;
    Csrrw Sp Sscratch Sp ].

Definition but_sp : list reg :=
  [Ra; Gp; Tp; T0; T1; T2; S0; S1; A0; A1; A2; A3; A4; A5; A6; A7; S2; S3; S4; S5; S6; S7; S8; S9; S10; S11; T3; T4; T5; T6].

(** The compiled handler: it puts the program counter to resume at into the
    frame at [a0], and leaves [sp] and the address space alone. *)
Definition kernel_call (H : Z -> Z -> K -> outcome (Z * K)) (at_k : Z -> Z) (junk : reg -> Z) (jcsr : csr_name -> Z)
    (h : hart) : outcome hart :=
  let! '(pc, k) := H (csr h Scause) (csr h Sepc) (rest h) in
  Ret (mkHart (fun r => if decide (r = Sp) then x h Sp else junk r)
         (fun c => if decide (c = Satp) then csr h c else jcsr c) (upd (mem h) (at_k KTF_SEPC) pc) k).

Lemma kernel_save f S ks at_k (h : hart) :
  region translate ks (S - KTF_SIZE) KTF_SIZE at_k -> csr h Sscratch = S -> KTF_SIZE <= S < USIZE -> csr h Satp = ks ->
  exists h2, exec translate (take 37 (kernel_trap_entry f)) 0 h = Ret (0%nat, h2) /\
    x h2 Sp = S - KTF_SIZE /\ csr h2 Satp = ks /\ csr h2 Scause = csr h Scause /\ csr h2 Sepc = csr h Sepc /\ rest h2 = rest h /\
    (forall r, r <> Zero -> mem h2 (at_k (KTF r)) = x h r) /\ mem h2 (at_k KTF_SEPC) = csr h Sepc.
Proof.
  intros Hk HS Hb Hks.
  change (take 37 (kernel_trap_entry f)) with (take 2 (kernel_trap_entry f) ++ map (fun '(r, o) => Sd r o Sp) (at_gp but_sp)
    ++ take 5 (drop 32 (kernel_trap_entry f))).
  rewrite exec_app. cbn [take kernel_trap_entry]. pstep. pstep. cbn [exec obind]. rewrite HS, Z.mod_small by (unfold KTF_SIZE in *; lia).
  set (h1 := setx Sp _ _). assert (Hsp : x h1 Sp = S - KTF_SIZE) by (unfold h1; hart_simp; lia).
  assert (Hks1 : csr h1 Satp = ks) by (unfold h1; hart_simp; done).
  rewrite exec_app. rewrite (exec_sd_list _ Sp KTF_SIZE at_k);
    [|by rewrite Hks1, Hsp|apply at_gp_struct; [by apply (bool_decide_eq_true_1 _)|done]].
  cbn [obind]. set (h2 := mkHart _ _ _ _).
  assert (Hsp2 : x h2 Sp = S - KTF_SIZE) by done. assert (Hks2 : csr h2 Satp = ks) by done.
  cbn [take drop kernel_trap_entry]. pstep. sstep (S - KTF_SIZE) Hk. pstep. sstep (S - KTF_SIZE) Hk. pstep.
  eexists. split; [reflexivity|]. hart_simp. 
  assert (Hin : forall r, r <> Zero -> 0 <= KTF r < KTF_SIZE /\ KTF r mod 8 = 0 /\ KTF r <> KTF_SEPC).
  { intros r Hr. pose proof (gp_offset_bound r Hr). unfold KTF, KTF_SIZE, KTF_SEPC. lia. }
  split_and!; try done; [|by rewrite upd_eq].
  intros r Hr. destruct (Hin r Hr) as (Ho & Ho8 & Hn). rewrite upd_ne by (by apply (rg_ne _ _ _ _ _ _ _ Hk)).
  destruct (decide (r = Sp)) as [->|Hsp0]; [by rewrite upd_eq|].
  assert (Hns : KTF r <> KTF Sp) by (intros E; apply gp_offset_inj in E; done).
  rewrite upd_ne by (by apply (rg_ne _ _ _ _ _ _ _ Hk)).
  destruct (stored_at _ _ _ _ _ (at_gp but_sp) h1 Hk) with (o := KTF r) as [_ Hin'];
    [apply at_gp_struct; [by apply (bool_decide_eq_true_1 _)|done]|done|done|].
  transitivity (x h1 r).
  - apply (Hin' r); [apply at_gp_nodup; by apply (bool_decide_eq_true_1 _)|]. apply elem_of_at_gp, (bool_decide_eq_true_1 _). by destruct r.
  - destruct r; first [congruence | reflexivity].
Qed.

Lemma kernel_restore f S ks at_k (h : hart) :
  region translate ks (S - KTF_SIZE) KTF_SIZE at_k -> x h Sp = S - KTF_SIZE -> KTF_SIZE <= S < USIZE -> csr h Satp = ks ->
  exists h', exec translate (drop 38 (kernel_trap_entry f)) 0 h = Ret (0%nat, h') /\
    (forall r, r <> Zero -> x h' r = mem h (at_k (KTF r))) /\ csr h' Sepc = mem h (at_k KTF_SEPC) /\
    csr h' Sstatus = Z.ldiff (csr h Sstatus) SSTATUS_SPIE /\ csr h' Sscratch = S /\ csr h' Satp = ks /\
    mem h' = mem h /\ rest h' = rest h.
Proof.
  intros Hk Hsp Hb Hks.
  change (drop 38 (kernel_trap_entry f)) with (take 6 (drop 38 (kernel_trap_entry f)) ++
    map (fun '(r, o) => Ld r o Sp) (at_gp but_sp) ++ drop 74 (kernel_trap_entry f)).
  rewrite exec_app. cbn [take drop kernel_trap_entry].
  lstep (S - KTF_SIZE) Hk. pstep. lstep (S - KTF_SIZE) Hk. pstep. pstep. pstep. cbn [exec obind].
  set (h1 := setcsr Sstatus _ _).
  assert (Hsp1 : x h1 Sp = S - KTF_SIZE) by done. assert (Hks1 : csr h1 Satp = ks) by done.
  rewrite exec_app. rewrite (exec_ld_list _ Sp KTF_SIZE at_k);
    [|by rewrite Hks1, Hsp1|apply at_gp_struct; [by apply (bool_decide_eq_true_1 _)|done]
     |rewrite at_gp_fst; by apply (bool_decide_eq_true_1 _)..].
  cbn [obind]. set (h2 := mkHart _ _ _ _).
  assert (Hl : forall r, r <> Zero -> r <> Sp -> x h2 r = mem h (at_k (KTF r))).
  { intros r Hr Hr2. unfold h2. cbn [x]. apply (proj2 (loaded_at at_k (at_gp but_sp) h1 r)); [rewrite at_gp_fst; by apply (bool_decide_eq_true_1 _)|].
    apply elem_of_at_gp, (bool_decide_eq_true_1 _). by destruct r. }
  assert (Hsp2 : x h2 Sp = S - KTF_SIZE).
  { unfold h2. cbn [x]. rewrite (proj1 (loaded_at at_k (at_gp but_sp) h1 Sp)); [done|].
    rewrite at_gp_fst. by apply (bool_decide_eq_true_1 _). }
  pstep. pstep. eexists. split; [reflexivity|]. hart_simp. rewrite Hsp2.
  replace ((S - KTF_SIZE + KTF_SIZE) mod USIZE) with S by (rewrite Z.mod_small; unfold KTF_SIZE in *; lia).
  split_and!; try done.
  intros r Hr. destruct (decide (r = Sp)) as [->|Hr2]; [by rewrite setx_eq|].
  rewrite setx_ne by done. rewrite setcsr_x, setx_ne by done. by apply Hl.
Qed.

(** C15: an interrupt in the kernel is invisible to the code it interrupts.
    For an external interrupt whose handlers return, every register, [sp]
    included, has its value back, the trap stack is ready for the next trap,
    interrupts are off after the return, and execution goes on at the
    interrupted instruction, or behind it when that is a [wfi]. *)
Theorem kernel_trap_transparent dispatch_irq code S ks at_k junk jcsr (h : hart) k' instr
  (Hk : region translate ks (S - KTF_SIZE) KTF_SIZE at_k) (HS : csr h Sscratch = S) (Hb : KTF_SIZE <= S < USIZE)
  (Hks : csr h Satp = ks) (Hcause : csr h Scause = 2 ^ 63 + EXTERNAL) (Hirq : dispatch_irq (rest h) = Ret k')
  (Hpc : 0 <= csr h Sepc < USIZE - 4) (Hal : csr h Sepc mod 2 = 0) (Hin : instr_at code (csr h Sepc) = Ret instr) :
  exists h', exec translate (kernel_trap_entry (kernel_call (kernel_trap_handler dispatch_irq code) at_k junk jcsr)) 0 h = Ret (0%nat, h') /\
    (forall r, r <> Zero -> x h' r = x h r) /\ csr h' Sscratch = S /\ csr h' Satp = ks /\
    csr h' Sepc = (if instr =? INSTR_WFI then csr h Sepc + 4 else csr h Sepc) /\
    Z.testbit (csr h' Sstatus) 5 = false /\ rest h' = k'.
Proof.
  set (f := kernel_call _ _ _ _).
  destruct (kernel_save f S ks at_k h) as (h2 & E2 & Hsp & Hks2 & Hc2 & Hp2 & Hr2 & Hw & _); [done..|].
  change (kernel_trap_entry f) with (take 37 (kernel_trap_entry f) ++ Call f :: drop 38 (kernel_trap_entry f)).
  rewrite exec_app, E2. cbn [obind exec exec1]. unfold f at 1, kernel_call, kernel_trap_handler.
  rewrite Hc2, Hp2, Hr2, Hcause. change (is_interrupt (2 ^ 63 + EXTERNAL)) with true.
  change (interrupt_code (2 ^ 63 + EXTERNAL) =? EXTERNAL) with true. rewrite Hirq. cbn [obind].
  rewrite (proj2 (Z.eqb_eq _ _) Hal), Hin. cbn [obind].
  set (pc := if instr =? INSTR_WFI then csr h Sepc + 4 else csr h Sepc).
  replace (if instr =? INSTR_WFI then _ else _) with (Ret (pc, k'))
    by (unfold pc; destruct (instr =? INSTR_WFI); [by rewrite uadd_ok by lia|done]).
  cbn [obind]. set (h3 := mkHart _ _ _ _).
  destruct (kernel_restore f S ks at_k h3) as (h' & E' & Hx & Hpc' & Hst & Hsc & Hsa & _ & Hrest); [done|exact Hsp|done|exact Hks2|].
  exists h'. split; [exact E'|]. split_and!; [|done|done| | |done].
  - intros r Hr. rewrite (Hx r Hr), <- (Hw r Hr). unfold h3. cbn [mem]. apply upd_ne.
    pose proof (gp_offset_bound r Hr). apply (rg_ne _ _ _ _ _ _ _ Hk); unfold KTF, KTF_SIZE, KTF_SEPC; lia || done.
  - rewrite Hpc'. unfold h3. cbn [mem]. apply upd_eq.
  - rewrite Hst, Z.ldiff_spec. unfold SSTATUS_SPIE. rewrite Z.shiftl_spec by lia. by rewrite andb_false_r.
Qed.

End entry.

(** The idle thread, stopped in its [wfi] at 0x8020_0000. *)
Definition idle_code (p : Z) : Z :=
  if p =? 0x8020_0000 then 0x73 else if p =? 0x8020_0002 then 0x50 else if p =? 0x8020_0003 then 0x10 else 0.

Definition idle_hart : hart nat :=
  mkHart (fun r => 100 + num r)
    (fun c => match c with Sscratch => 0x3000 | Sepc => 0x8020_0000 | Scause => 2 ^ 63 + 9 | Satp => 7 | _ => 0 end) (fun _ => 0) 0%nat.

Lemma kernel_trap_transparent_witness :
  exists h', exec id_map (kernel_trap_entry (kernel_call (kernel_trap_handler (fun k => Ret (S k)) idle_code)
      (fun o => 0x3000 - KTF_SIZE + o) (fun _ => 0) (fun _ => 0))) 0 idle_hart = Ret (0%nat, h') /\
    x h' Sp = 102 /\ csr h' Sepc = 0x8020_0004 /\ rest h' = 1%nat.
Proof.
  destruct (kernel_trap_transparent id_map (fun k => Ret (S k)) idle_code 0x3000 7 (fun o => 0x3000 - KTF_SIZE + o)
    (fun _ => 0) (fun _ => 0) idle_hart 1%nat INSTR_WFI) as (h' & E & Hx & _ & _ & Hpc & _ & Hr);
    [by apply id_region|reflexivity|done|reflexivity|reflexivity|reflexivity|done|reflexivity|reflexivity|].
  exists h'. split; [exact E|]. split; [by rewrite (Hx Sp)|]. split; [exact Hpc|exact Hr].
Defined.

End KTrap.
