(* ===== verification/Switch.v ===== *)
(** * The context switch in assembly

    Models the assembly of [src/src/thread.rs]: [yield_now] with its helper
    [save_context_with_ra_in_t1], and [restore_context_asm].  [Thread] models
    them as one step each, saving and loading a [ThreadContext]; this file
    shows that the instructions do that. *)

From S2P Require Import Prelude Asm Trap Thread.

Module Switch.
Import Asm.

(** build.rs: the offsets in [ThreadContext]. *)
Definition TC (r : reg) : Z :=
  match r with
  | Sp => 0 | Ra => 8 | S0 => 16 | S1 => 24 | S2 => 32 | S3 => 40 | S4 => 48 | S5 => 56
  | S6 => 64 | S7 => 72 | S8 => 80 | S9 => 88 | S10 => 96 | S11 => 104
  | _ => 112
  end.
Definition TC_SIZE : Z := 112.

Definition callee_saved : list reg := [Sp; Ra; S0; S1; S2; S3; S4; S5; S6; S7; S8; S9; S10; S11].

Section switch.
Context {K : Type} (translate : Z -> Z -> option Z).
Notation hart := (hart K).

(** [current_thread] is the address of [CURRENT_THREAD], [context_offset] the
    place of the context in a [Thread]. *)
Definition save_context_with_ra_in_t1 (current_thread context_offset : Z) : list (instr K) :=
  [ La T0 current_thread;
    Ld T0 0 T0;
    Addi T0 T0 context_offset;
    Sd Sp (TC Sp) T0;
    Sd T1 (TC Ra) T0;
    Sd S0 (TC S0) T0;
    Sd S1 (TC S1) T0;
    Sd S2 (TC S2) T0;
    Sd S3 (TC S3) T0;
    Sd S4 (TC S4) T0;
    Sd S5 (TC S5) T0;
    Sd S6 (TC S6) T0;
    Sd S7 (TC S7) T0;
    Sd S8 (TC S8) T0;
    Sd S9 (TC S9) T0;
    Sd S10 (TC S10) T0;
    Sd S11 (TC S11) T0 ].

(** Ends in [ret], to the [ra] it loaded. *)
Definition restore_context_asm : list (instr K) :=
  [ Ld Sp (TC Sp) A0;
    Ld Ra (TC Ra) A0;
    Ld S0 (TC S0) A0;
    Ld S1 (TC S1) A0;
    Ld S2 (TC S2) A0;
    Ld S3 (TC S3) A0;
    Ld S4 (TC S4) A0;
    Ld S5 (TC S5) A0;
    Ld S6 (TC S6) A0;
    Ld S7 (TC S7) A0;
    Ld S8 (TC S8) A0;
    Ld S9 (TC S9) A0;
    Ld S10 (TC S10) A0;
    Ld S11 (TC S11) A0 ].

(** [call]: the return address in [ra], then the callee's code. *)
Definition call (code : list (instr K)) (return_address : Z) (h : hart) : outcome hart :=
  let! '(_, h) := exec translate code 0 (setx Ra return_address h) in
  Ret h.

Definition yield_now (current_thread context_offset return_address : Z) (yield_impl : hart -> outcome hart) : list (instr K) :=
  [ Mv T1 Ra;
    Call (call (save_context_with_ra_in_t1 current_thread context_offset) return_address);
    Call yield_impl ].

(** The context in the registers, and in memory. *)
Definition in_regs (h : hart) : Thr.ThreadContext :=
  Thr.mkContext (x h Sp) (x h Ra) (x h S0) (x h S1) (x h S2) (x h S3) (x h S4) (x h S5) (x h S6) (x h S7) (x h S8) (x h S9)
    (x h S10) (x h S11).

Definition in_mem (m : Z -> Z) (at_c : Z -> Z) : Thr.ThreadContext :=
  Thr.mkContext (m (at_c 0)) (m (at_c 8)) (m (at_c 16)) (m (at_c 24)) (m (at_c 32)) (m (at_c 40)) (m (at_c 48)) (m (at_c 56))
    (m (at_c 64)) (m (at_c 72)) (m (at_c 80)) (m (at_c 88)) (m (at_c 96)) (m (at_c 104)).

Definition saved_regs : list (reg * Z) := (Sp, TC Sp) :: (T1, TC Ra) :: map (fun r => (r, TC r)) (drop 2 callee_saved).
Definition restored_regs : list (reg * Z) := map (fun r => (r, TC r)) callee_saved.

Lemma in_struct_dec n l : forallb (fun '(_, o) => (0 <=? o) && (o <? n) && (o mod 8 =? 0)) l = true -> in_struct n l.
Proof. intros Hl. apply Forall_forall. intros [r o] Hin. rewrite forallb_forall in Hl. apply list_elem_of_In in Hin.
  apply Hl in Hin. lia. Qed.

(** Saving: the context of the current thread holds the registers, with [ra]
    from [t1]. *)
Lemma save_context_spec cur off ks P p_cur at_c (h : hart) :
  csr h Satp = ks -> word translate h cur = Ret p_cur -> mem h p_cur = P -> 0 <= P -> P + off < USIZE -> 0 <= off ->
  region translate ks (P + off) TC_SIZE at_c ->
  exists h', exec translate (save_context_with_ra_in_t1 cur off) 0 h = Ret (0%nat, h') /\
    in_mem (mem h') at_c = in_regs (setx Ra (x h T1) h) /\ csr h' = csr h /\ rest h' = rest h.
Proof.
  intros Hks Hw HP H0 H1 H2 Hr.
  change (save_context_with_ra_in_t1 cur off) with (take 3 (save_context_with_ra_in_t1 cur off)
    ++ map (fun '(r, o) => Sd r o T0) saved_regs).
  rewrite exec_app. cbn [take save_context_with_ra_in_t1]. pstep.
  erewrite exec_ld by (hart_simp; rewrite Z.add_0_r; exact Hw). pstep. cbn [exec obind]. rewrite HP, Z.mod_small by lia.
  set (h1 := setx T0 _ _). assert (HT0 : x h1 T0 = P + off) by (unfold h1; hart_simp; done).
  assert (Hks1 : csr h1 Satp = ks) by (unfold h1; hart_simp; done).
  rewrite (exec_sd_list _ T0 TC_SIZE at_c); [|by rewrite Hks1, HT0|by apply in_struct_dec].
  eexists. split; [reflexivity|]. split_and!; [|unfold h1; cbn [csr]; by hart_simp|unfold h1; cbn [rest]; by hart_simp].
  assert (Hst : forall r o, (r, o) ∈ saved_regs -> 0 <= o < TC_SIZE -> o mod 8 = 0 -> stored at_c saved_regs h1 (at_c o) = x h1 r).
  { intros r o Hin Ho Ho8. apply (stored_at _ _ _ _ _ saved_regs h1 Hr); [by apply in_struct_dec|done|done| |done].
    by apply (bool_decide_eq_true_1 _). }
  unfold in_mem, in_regs. cbn [mem].
  rewrite (Hst Sp 0), (Hst T1 8), (Hst S0 16), (Hst S1 24), (Hst S2 32), (Hst S3 40), (Hst S4 48), (Hst S5 56), (Hst S6 64), (Hst S7 72),
    (Hst S8 80), (Hst S9 88), (Hst S10 96), (Hst S11 104) by (first [by apply (bool_decide_eq_true_1 _) | done]).
  reflexivity.
Qed.

Lemma restore_context_spec ks P at_c (h : hart) : csr h Satp = ks -> x h A0 = P -> region translate ks P TC_SIZE at_c ->
  exists h', exec translate restore_context_asm 0 h = Ret (0%nat, h') /\
    in_regs h' = in_mem (mem h) at_c /\ csr h' = csr h /\ mem h' = mem h /\ rest h' = rest h.
Proof.
  intros Hks HP Hr. change restore_context_asm with (map (fun '(r, o) => @Ld K r o A0) restored_regs).
  rewrite (exec_ld_list _ A0 TC_SIZE at_c); [|by rewrite Hks, HP|by apply in_struct_dec|by apply (bool_decide_eq_true_1 _)..].
  eexists. split; [reflexivity|]. split_and!; try done.
Qed.

(** The scheduler comes back to a thread: it returns to [restore_context_asm]
    with the context of the thread as it found it. *)
Definition comes_back (yield_impl : hart -> outcome hart) (ks P : Z) (at_c : Z -> Z) (c : Thr.ThreadContext) : Prop :=
  forall h1, in_mem (mem h1) at_c = c -> csr h1 Satp = ks ->
    exists h2, yield_impl h1 = Ret h2 /\ in_mem (mem h2) at_c = c /\ csr h2 Satp = ks /\ x h2 A0 = P.

(** giving up the hart saves the thread and the switch back brings it back.
    [yield_now] calls the scheduler with the thread's context equal to the
    callee-saved registers of the caller of [yield_now], its return address
    included; when the scheduler comes back to the thread, through any number
    of other threads that leave that context alone, [restore_context_asm] puts
    the stack pointer, the return address and s0 to s11 back. *)
Theorem yield_now_resumes cur off ret yield_impl ks P p_cur at_c (h : hart)
  (Hks : csr h Satp = ks) (Hw : word translate (setx Ra ret (setx T1 (x h Ra) h)) cur = Ret p_cur) (HP : mem h p_cur = P)
  (H0 : 0 <= P) (Hoff : 0 <= off) (Hend : P + off < USIZE) (Hr : region translate ks (P + off) TC_SIZE at_c)
  (Hrun : comes_back yield_impl ks (P + off) at_c (in_regs h)) :
  exists h', exec translate (yield_now cur off ret yield_impl ++ restore_context_asm) 0 h = Ret (0%nat, h') /\ in_regs h' = in_regs h.
Proof.
  rewrite exec_app. unfold yield_now. pstep. cbn [exec exec1]. unfold call.
  destruct (save_context_spec cur off ks P p_cur at_c (setx Ra ret (setx T1 (x h Ra) h))) as (h1 & E1 & Hm & Hc1 & _);
    [by hart_simp|done|by hart_simp|done..|].
  rewrite E1. cbn [obind]. destruct (Hrun h1) as (h2 & -> & Hkeep & Hks2 & Ha0); [by rewrite Hm|by rewrite Hc1; hart_simp|].
  cbn [obind]. destruct (restore_context_spec ks (P + off) at_c h2) as (h' & E' & Hreg & _ & _ & Hrest); [done..|].
  exists h'. split; [exact E'|]. congruence.
Qed.

End switch.

(** A thread at 0x4000, its context 16 bytes in; the scheduler comes back at
    once, with every register changed. *)
Definition thread_hart : hart unit :=
  mkHart (fun r => 100 + num r) (fun c => match c with Satp => 7 | _ => 0 end) (fun p => if p =? 0x500 then 0x4000 else 0) ().

Lemma yield_now_resumes_witness :
  exists h', exec Trap.id_map (yield_now Trap.id_map 0x500 16 0x9999
      (fun h => Ret (mkHart (fun r => if decide (r = A0) then 0x4010 else 0) (csr h) (mem h) (rest h))) ++ restore_context_asm) 0 thread_hart
    = Ret (0%nat, h') /\ in_regs h' = in_regs thread_hart.
Proof.
  apply (yield_now_resumes Trap.id_map 0x500 16 0x9999 _ 7 0x4000 0x500 (fun o => 0x4010 + o) thread_hart);
    [reflexivity|reflexivity|reflexivity|done|done|done|by apply Trap.id_region|].
  intros h1 Hm Hs. eexists. split; [reflexivity|]. by split_and!.
Defined.

End Switch.
