(* ===== verification/Start.v ===== *)
(** * Entering the kernel and entering a process

    Models the assembly of [src/src/trampoline.rs], the first instructions of
    the kernel, and [src/src/process_trampoline.rs], which gives the hart to a
    process for the first time. *)

From S2P Require Import Prelude Asm Trap KernelTrap.

Module Start.
Import Asm Trap KTrap.

Section start.
Context {K : Type} (translate : Z -> Z -> option Z).
Notation hart := (hart K).

(** ** [_start] *)

(** The addresses the linker gives. *)
Record symbols := mkSymbols { STACK_TOP : Z; ROOT_PAGE_TABLE : Z; start_addr : Z; image_phys_end : Z; rust_main : Z }.

Definition start_head (s : symbols) : list (instr K) :=
  [ Mv S0 A0;
    Mv S1 A1;
    La Sp (STACK_TOP s + 4096 * 16);
    La T0 (ROOT_PAGE_TABLE s);
    Li T1 0;
    Li T2 512 ].

Definition start_clear : list (instr K) :=
  [ Sd T1 0 T0;
    Addi T0 T0 8;
    Addi T2 T2 (-1) ].

Definition start_tail (s : symbols) : list (instr K) :=
  [ Li T3 0x80000;
    Slli T3 T3 10;
    Li T4 0x0CF;
    Or T3 T3 T4;
    La T0 (ROOT_PAGE_TABLE s);
    Sd T3 16 T0;
    Li T5 510;
    Slli T5 T5 3;
    Add T5 T5 T0;
    Sd T3 0 T5;
    La T6 (ROOT_PAGE_TABLE s);
    Srli T6 T6 12;
    Li T5 1;
    Slli T5 T5 63;
    Or T6 T6 T5;
    Csrw Satp T6;
    Fence;
    Mv A0 S0;
    Mv A1 S1;
    La A2 (start_addr s);
    La A3 (image_phys_end s);
    La T0 (rust_main s) ].

(** The loop "0: body; bnez r, 0b". *)
Fixpoint do_while (fuel : nat) (body : list (instr K)) (r : reg) (h : hart) : outcome hart :=
  match fuel with
  | O => Fault
  | S fuel =>
      let! '(_, h) := exec translate body 0 h in
      if x h r =? 0 then Ret h else do_while fuel body r h
  end.

(** Ends in [jr t0], to [rust_main]. *)
Definition start (fuel : nat) (s : symbols) (h : hart) : outcome hart :=
  let! '(_, h) := exec translate (start_head s) 0 h in
  let! h := do_while fuel start_clear T2 h in
  let! '(_, h) := exec translate (start_tail s) 0 h in
  Ret h.

(** Paging is off: an address is physical. *)
Definition bare (h : hart) : Prop := forall v, 0 <= v < USIZE -> translate (csr h Satp) v = Some v.

(** What the clearing loop changes. *)
Record cleared (h h' : hart) (root n : Z) : Prop := {
  cl_x : forall r, r ∉ [T0; T2] -> x h' r = x h r;
  cl_csr : csr h' = csr h;
  cl_rest : rest h' = rest h;
  cl_zero : forall i, 0 <= i < n -> mem h' (root + 8 * i) = 0;
  cl_same : forall p, p < root \/ root + 8 * n <= p -> mem h' p = mem h p }.

Lemma clear_loop n fuel (h : hart) a : bare h -> x h T1 = 0 -> x h T0 = a -> x h T2 = Z.of_nat n -> (0 < n <= fuel)%nat ->
  0 <= a -> a mod 8 = 0 -> a + 8 * Z.of_nat n < USIZE ->
  exists h', do_while fuel start_clear T2 h = Ret h' /\ cleared h h' a (Z.of_nat n).
Proof.
  intros Hb Ht1. revert n a h Hb Ht1. induction fuel as [|fuel IH]; intros n a h Hb Ht1 Ht0 Ht2 Hn Ha Ha8 Hend; [lia|].
  cbn [do_while]. unfold start_clear at 1.
  erewrite exec_sd by (unfold word; rewrite Ht0, Z.add_0_r, Z.mod_small, Hb by lia; cbn [deref obind]; rewrite Ha8; reflexivity).
  pstep. pstep. cbn [exec obind]. rewrite Ht0, Ht1, Ht2. set (h1 := setx T2 _ _).
  assert (HT2 : x h1 T2 = Z.of_nat (n - 1)) by (unfold h1; hart_simp; rewrite Z.mod_small; unfold USIZE in *; lia).
  assert (HT0 : x h1 T0 = a + 8) by (unfold h1; hart_simp; rewrite Z.mod_small; lia).
  assert (Hm1 : mem h1 = upd (mem h) a 0) by done.
  assert (Hx1 : forall r, r ∉ [T0; T2] -> x h1 r = x h r).
  { intros r Hr. apply not_elem_of_cons in Hr as [H1 Hr]. apply not_elem_of_cons in Hr as [H2 _]. destruct r; first [congruence|reflexivity]. }
  rewrite HT2. destruct (Z.eqb_spec (Z.of_nat (n - 1)) 0) as [En|En].
  - exists h1. split; [done|]. split; [done|done|done| |].
    + intros i Hi. rewrite Hm1. replace (a + 8 * i) with a by lia. apply upd_eq.
    + intros p Hp. rewrite Hm1. apply upd_ne. lia.
  - destruct (IH (n - 1)%nat (a + 8) h1) as (h' & E' & [Hx Hc Hr Hz Hs]); [done| |done|done|lia..|].
    + rewrite Hx1; [done|]. by apply (bool_decide_eq_true_1 _).
    + exists h'. split; [done|]. split.
      * intros r Hr0. by rewrite Hx, Hx1.
      * by rewrite Hc.
      * by rewrite Hr.
      * intros i Hi. destruct (decide (i = 0)) as [->|Hi0].
        -- rewrite Hs by lia. rewrite Hm1. replace (a + 8 * 0) with a by lia. apply upd_eq.
        -- replace (a + 8 * i) with (a + 8 + 8 * (i - 1)) by lia. apply Hz. lia.
      * intros p Hp. rewrite Hs by lia. rewrite Hm1. apply upd_ne. lia.
Qed.

(** A walk of a Sv39 table that ends at the root: a leaf there maps 1 GiB. *)
Definition walk_1g (m : Z -> Z) (root v : Z) : option Z :=
  let e := m (root + 8 * (Z.shiftr v 30 mod 512)) in
  if Z.testbit e 0 && negb (Z.land e 0xE =? 0) then Some (Z.shiftl (Z.shiftr e 10) 12 + v mod 2 ^ 30) else None.

(** The leaf: frame 0x80000, V R W X A D. *)
Definition leaf_2g : Z := 0x200000CF.

Lemma walk_leaf m root v i : v / 2 ^ 30 mod 512 = i -> m (root + 8 * i) = leaf_2g -> walk_1g m root v = Some (2 ^ 31 + v mod 2 ^ 30).
Proof. intros Hi Hm. unfold walk_1g. rewrite Z.shiftr_div_pow2 by lia. rewrite Hi, Hm. reflexivity. Qed.

Lemma lor_top a : 0 <= a < 2 ^ 63 -> Z.lor a (2 ^ 63) = 2 ^ 63 + a.
Proof.
  intros Ha. pose proof (Z.add_lor_land a (2 ^ 63)) as E. enough (Z.land a (2 ^ 63) = 0) by lia.
  apply Z.bits_inj'. intros n Hn. rewrite Z.land_spec, Z.pow2_bits_eqb, Z.bits_0 by lia. destruct (Z.eqb_spec 63 n) as [<-|]; [|by rewrite andb_false_r].
  by rewrite Z.testbit_odd, Z.shiftr_div_pow2, Z.div_small by lia.
Qed.

(** [_start] brings the hart into [rust_main] with paging on.  From any
    registers and any contents of memory, with paging off, the code clears
    the root table, whose other 510 entries end up zero, and maps the first
    gigabyte of RAM twice, where it is and in the upper half; [satp] selects
    that table, the arguments of the firmware are passed on with the limits of
    the image, and nothing but the table is written. *)
Theorem start_spec s (h : hart) (Hb : bare h)
  (Hroot : 0 <= ROOT_PAGE_TABLE s /\ ROOT_PAGE_TABLE s mod 4096 = 0 /\ ROOT_PAGE_TABLE s + 4096 < 2 ^ 56) :
  exists h', start 512 s h = Ret h' /\
    (forall v, 0x8000_0000 <= v < 0xC000_0000 -> walk_1g (mem h') (ROOT_PAGE_TABLE s) v = Some v) /\
    (forall v, 0xFFFF_FFFF_8000_0000 <= v < 0xFFFF_FFFF_C000_0000 ->
      walk_1g (mem h') (ROOT_PAGE_TABLE s) v = Some (v - 0xFFFF_FFFF_0000_0000)) /\
    (forall i, 0 <= i < 512 -> i <> 2 -> i <> 510 -> mem h' (ROOT_PAGE_TABLE s + 8 * i) = 0) /\
    (forall p, p < ROOT_PAGE_TABLE s \/ ROOT_PAGE_TABLE s + 4096 <= p -> mem h' p = mem h p) /\
    csr h' Satp = 2 ^ 63 + ROOT_PAGE_TABLE s / 4096 /\
    x h' T0 = rust_main s /\ x h' Sp = STACK_TOP s + 65536 /\ x h' A0 = x h A0 /\ x h' A1 = x h A1 /\
    x h' A2 = start_addr s /\ x h' A3 = image_phys_end s.
Proof.
  destruct Hroot as (Hr0 & Hr12 & Hr1). assert (Hr8 : ROOT_PAGE_TABLE s mod 8 = 0) by lia.
  unfold start, start_head. do 6 pstep. cbn [exec obind]. set (h1 := setx T2 _ _).
  destruct (clear_loop 512 512 h1 (ROOT_PAGE_TABLE s)) as (h2 & E2 & [Hx Hc Hrest Hz Hs]);
    [exact Hb|reflexivity|reflexivity|reflexivity|lia|done|done|unfold USIZE; lia|].
  rewrite E2. cbn [obind].
  assert (Hb2 : forall v, 0 <= v < USIZE -> translate (csr h2 Satp) v = Some v) by (rewrite Hc; exact Hb).
  unfold start_tail. do 5 pstep.
  erewrite exec_sd; cycle 1.
  { hart_simp. unfold word. hart_simp. rewrite Z.mod_small, Hb2 by (unfold USIZE; lia). cbn [deref obind].
    rewrite (proj2 (Z.eqb_eq _ _)) by lia. reflexivity. }
  do 3 pstep.
  erewrite exec_sd; cycle 1.
  { hart_simp. unfold word. hart_simp. change (Z.shiftl 510 3 mod USIZE) with 4080. rewrite Z.add_0_r.
    rewrite !Z.mod_small, Hb2 by (rewrite ?Z.mod_small; unfold USIZE; lia). cbn [deref obind].
    rewrite (proj2 (Z.eqb_eq _ _)) by lia. reflexivity. }
  do 12 pstep. cbn [exec obind].
  eexists. split; [reflexivity|]. hart_simp.
  change (Z.lor (Z.shiftl 524288 10 mod USIZE) 207) with leaf_2g.
  split_and!; try reflexivity.
  - intros v Hv. rewrite (walk_leaf _ _ v 2); [f_equal; lia|lia|]. rewrite upd_ne by lia. apply upd_eq.
  - intros v Hv. rewrite (walk_leaf _ _ v 510); [f_equal; lia|lia|].
    replace (ROOT_PAGE_TABLE s + 8 * 510) with (4080 + ROOT_PAGE_TABLE s) by lia. apply upd_eq.
  - intros i Hi H2 H510. rewrite !upd_ne by lia. apply Hz. lia.
  - intros p Hp. rewrite !upd_ne by lia. apply Hs. lia.
  - change (Z.shiftl 1 63 mod USIZE) with (2 ^ 63). rewrite Z.shiftr_div_pow2 by lia. change (2 ^ 12) with 4096.
    apply lor_top. lia.
  - apply (Hx Sp). by apply (bool_decide_eq_true_1 _).
  - apply (Hx S0). by apply (bool_decide_eq_true_1 _).
  - apply (Hx S1). by apply (bool_decide_eq_true_1 _).
Qed.

(** ** [enter_process] *)

(** riscv.rs *)
Definition SIE_SSIE : Z := Z.shiftl 1 1.
Definition SIE_SEIE : Z := Z.shiftl 1 9.
Definition SSTATUS_SPP : Z := Z.shiftl 1 8.

(** The registers the compiler chose for the operands. *)
Record operands := mkOperands {
  trap_entry_ : reg; satp_value : reg; user_pc : reg; user_sp : reg; sie_value : reg; sstatus_spie : reg; sstatus_spp_mask : reg }.

(** [trap_frame] is the address of the static [TRAMPOLINE_TRAP_FRAME]. *)
Definition enter_asm (trap_frame : Z) (o : operands) : list (instr K) :=
  [ La T0 trap_frame;
    Ld T0 0 T0;
    Csrw Sscratch T0;
    Csrw Sie (sie_value o);
    Csrr T1 Sstatus;
    Or T1 T1 (sstatus_spie o);
    And T1 T1 (sstatus_spp_mask o);
    Csrw Sstatus T1;
    Csrw Stvec (trap_entry_ o);
    Csrw Satp (satp_value o);
    Ld T0 TTF_IS_LICHEE_RVNANO T0;
    Beqz T0 2;
    Fence;
    Fence;
    Fence;
    Csrw Sepc (user_pc o);
    Mv Sp (user_sp o) ].

(** The operands hold the values the Rust code passes; they are not the
    registers the code uses itself. *)
Definition passed (o : operands) (entry satp pc sp : Z) (h : hart) : Prop :=
  x h (trap_entry_ o) = entry /\ x h (satp_value o) = satp /\ x h (user_pc o) = pc /\ x h (user_sp o) = sp /\
  x h (sie_value o) = Z.lor SIE_SSIE SIE_SEIE /\ x h (sstatus_spie o) = SSTATUS_SPIE /\
  x h (sstatus_spp_mask o) = USIZE - 1 - SSTATUS_SPP /\
  Forall (fun r => r ∉ [Zero; T0; T1; Sp])
    [trap_entry_ o; satp_value o; user_pc o; user_sp o; sie_value o; sstatus_spie o; sstatus_spp_mask o].

(** The Rust code stores the frame and the address space of the process before. *)
Definition enter_process (trap_frame : Z) (o : operands) (at_t at_f : Z -> Z) (frame satp : Z) (h : hart) : outcome (nat * hart) :=
  let h := setmem (at_t TTF_KERNEL_SP) frame h in
  let h := setmem (at_f PTF_SATP) satp h in
  exec translate (enter_asm trap_frame o) 0 h.

(** [enter_process] starts the process where its frame says, and ready for
    its traps.  At the final [sret] the program counter and the stack pointer
    are those of the frame, the address space is the process', interrupts will
    be on in user mode, traps go to [trap_entry], and all that [trap_entry]
    relies on holds. *)
Theorem enter_process_ready o at_t at_f U ks T F sym p entry (h : hart)
  (Hm : mapped translate U ks T F at_t at_f) (Hks : csr h Satp = ks) (Hk : mem h (at_t TTF_KERNEL_SATP) = ks)
  (Hsym : 0 <= sym < USIZE) (Hw : translate ks sym = Some p) (Hp8 : p mod 8 = 0) (HT : mem h p = T)
  (Hpt : p <> at_t TTF_KERNEL_SP) (Hpf : p <> at_f PTF_SATP)
  (Hpass : passed o entry U (mem h (at_f PTF_PC)) (mem h (at_f (PTF Sp))) h) :
  exists h', enter_process sym o at_t at_f F U h = Ret (0%nat, h') /\ user_ready U ks T F at_t at_f h' /\
    csr h' Sepc = mem h (at_f PTF_PC) /\ x h' Sp = mem h (at_f (PTF Sp)) /\ csr h' Stvec = entry /\
    Z.testbit (csr h' Sstatus) 5 = true /\ Z.testbit (csr h' Sstatus) 8 = false /\ rest h' = rest h.
Proof.
  destruct Hm as [Hu Hkr Hf Hap]. destruct Hpass as (He & Hs & Hpc & Hsp & Hsie & Hspie & Hmask & Hno).
  rewrite !Forall_cons, !not_elem_of_cons in Hno. destruct Hno as (N1 & N2 & N3 & N4 & N5 & N6 & N7 & _).
  unfold enter_process. set (h0 := setmem (at_f PTF_SATP) U (setmem (at_t TTF_KERNEL_SP) F h)). unfold enter_asm.
  pstep. erewrite exec_ld; cycle 1.
  { hart_simp. unfold word. hart_simp. rewrite Z.add_0_r, Z.mod_small by done. change (csr h0 Satp) with (csr h Satp).
    rewrite Hks, Hw. cbn [deref obind]. rewrite Hp8. reflexivity. }
  assert (Hp0 : mem h0 p = T) by (unfold h0; hart_simp; by rewrite !upd_ne by done).
  do 7 (pstep; rewrite ?setx_ne by tauto; hart_simp). rewrite Hp0. pstep. rewrite !setx_ne by tauto. hart_simp. rewrite !setx_ne by tauto. hart_simp.
  change (x h0) with (x h). rewrite Hs.
  lstep T Hu. rewrite exec_flush. pstep. pstep. 
  cbn [exec]. eexists. split; [reflexivity|].
  repeat first [rewrite setx_ne by tauto | progress hart_simp]. change (x h0) with (x h). change (csr h0) with (csr h).
  rewrite Hpc, Hsp, He, Hspie, Hmask.
  split_and!; try done.
  - split; hart_simp; try done.
    + unfold h0. hart_simp. rewrite upd_ne by (by apply Hap). by rewrite upd_ne by (by apply (rg_ne _ _ _ _ _ _ _ Hu)).
    + unfold h0. hart_simp. rewrite upd_ne by (by apply Hap). apply upd_eq.
    + unfold h0. hart_simp. apply upd_eq.
  - rewrite Z.land_spec, Z.lor_spec. change (Z.testbit SSTATUS_SPIE 5) with true. by rewrite orb_true_r.
  - rewrite Z.land_spec. change (Z.testbit (USIZE - 1 - SSTATUS_SPP) 8) with false. apply andb_false_r.
Qed.

End start.

(** ** Witnesses *)
Definition demo_symbols : symbols := mkSymbols 0x8021_0000 0x8022_0000 0x8020_0000 0x8040_0000 0x8020_1000.

Lemma start_spec_witness :
  exists h', start id_map 512 demo_symbols (mkHart (fun r => num r) (fun _ => 0) (fun p => p) ()) = Ret h' /\
    walk_1g (mem h') 0x8022_0000 0xFFFF_FFFF_8020_1000 = Some 0x8020_1000 /\ x h' A1 = 11.
Proof.
  destruct (start_spec id_map demo_symbols (mkHart (fun r => num r) (fun _ => 0) (fun p => p) ()))
    as (h' & E & _ & Hw & _ & _ & _ & _ & _ & _ & Ha & _); [done|by vm_compute|].
  exists h'. split; [exact E|]. split; [|exact Ha]. exact (Hw 0xFFFF_FFFF_8020_1000 ltac:(lia)).
Defined.

(** The frame at 0x2000 says pc 0x10000 and sp 0xffd0; the symbol is at 0x800. *)
Definition enter_hart : hart unit :=
  mkHart (fun r => match r with
                   | A0 => 0x9000 | A1 => 5 | A2 => 0x10000 | A3 => 0xffd0 | A4 => 0x202 | A5 => 0x20
                   | A6 => USIZE - 1 - 0x100 | _ => 0
                   end)
    (fun c => match c with Satp => 7 | _ => 0 end)
    (fun p => if p =? 0x800 then 0x1000 else if p =? 0x1010 then 7 else if p =? 0x20f8 then 0x10000 else if p =? 0x2008 then 0xffd0 else 0) ().

Lemma enter_process_ready_witness :
  exists h', enter_process id_map 0x800 (mkOperands A0 A1 A2 A3 A4 A5 A6) ttf_at ptf_at 0x2000 5 enter_hart = Ret (0%nat, h') /\
    csr h' Sepc = 0x10000 /\ x h' Sp = 0xffd0.
Proof.
  destruct (enter_process_ready id_map (mkOperands A0 A1 A2 A3 A4 A5 A6) ttf_at ptf_at 5 7 0x1000 0x2000 0x800 0x800 0x9000 enter_hart)
    as (h' & E & _ & Hpc & Hsp & _); [apply id_mapped|reflexivity|reflexivity|done|reflexivity|reflexivity|reflexivity|done|done| |].
  - split_and!; [reflexivity..|]. by apply (bool_decide_eq_true_1 _).
  - exists h'. split; [exact E|]. split; [exact Hpc|exact Hsp].
Defined.

End Start.
