(* ===== verification/Elf.v ===== *)
(** * Reading ELF files

    Models [src/src/read_elf.rs]: the headers as [repr(C)] structures read
    from the bytes of a file, over any file that can be read and sought. *)

From S2P Require Import Prelude Bytes Block File Ext2 Ramfs Vfs.

Module Elf.
Import Fl Vfs.

Record Elf64Header := mkHeader {
  e_ident : list Z; e_type : Z; e_machine : Z; e_version : Z; e_entry : Z; e_phoff : Z; e_shoff : Z; e_flags : Z;
  e_ehsize : Z; e_phentsize : Z; e_phnum : Z; e_shentsize : Z; e_shnum : Z; e_shstrndx : Z }.

Record Elf64ProgramHeader := mkPhdr {
  p_type : Z; p_flags : Z; p_offset : Z; p_vaddr : Z; p_paddr : Z; p_filesz : Z; p_memsz : Z; p_align : Z }.

Definition PT_LOAD : Z := 1.

(** [size_of] and the fields of the two structures in a buffer. *)
Definition HEADER_SIZE : Z := 64.
Definition PHDR_SIZE : Z := 56.

Definition field (buf : list Z) (offset size : nat) : Z := from_le (take size (drop offset buf)).

Definition header_of (buf : list Z) : Elf64Header :=
  mkHeader (take 16 buf) (field buf 16 2) (field buf 18 2) (field buf 20 4) (field buf 24 8) (field buf 32 8) (field buf 40 8)
    (field buf 48 4) (field buf 52 2) (field buf 54 2) (field buf 56 2) (field buf 58 2) (field buf 60 2) (field buf 62 2).

Definition phdr_of (buf : list Z) : Elf64ProgramHeader :=
  mkPhdr (field buf 0 4) (field buf 4 4) (field buf 8 8) (field buf 16 8) (field buf 24 8) (field buf 32 8) (field buf 40 8)
    (field buf 48 8).

Section elf.
Context {F : Type} (vfs_read : F -> Z -> outcome (result (list Z) Error * F))
  (vfs_seek : F -> SeekFrom -> outcome (result unit Error * F)).

Definition read_elf64_header (reader : F) : outcome (result Elf64Header Error * F) :=
  let! '(r, reader) := vfs_read_exact vfs_read reader HEADER_SIZE in
  match r with
  | Ok buf => Ret (Ok (header_of buf), reader)
  | Err e => Ret (Err e, reader)
  end.

Definition read_program_header (reader : F) : outcome (result Elf64ProgramHeader Error * F) :=
  let! '(r, reader) := vfs_read_exact vfs_read reader PHDR_SIZE in
  match r with
  | Ok buf => Ret (Ok (phdr_of buf), reader)
  | Err e => Ret (Err e, reader)
  end.

(** The loop: [n] headers are still to be read. *)
Fixpoint read_phdrs (n : nat) (reader : F) (acc : list Elf64ProgramHeader) : outcome (result (list Elf64ProgramHeader) Error * F) :=
  match n with
  | O => Ret (Ok acc, reader)
  | S n =>
      let! '(r, reader) := read_program_header reader in
      match r with
      | Ok ph => read_phdrs n reader (acc ++ [ph])
      | Err e => Ret (Err e, reader)
      end
  end.

Definition read_program_headers (reader : F) (header : Elf64Header) : outcome (result (list Elf64ProgramHeader) Error * F) :=
  let! '(r, reader) := vfs_seek reader (Start (e_phoff header)) in
  match r with
  | Ok _ => read_phdrs (Z.to_nat (e_phnum header)) reader []
  | Err e => Ret (Err e, reader)
  end.

(** ** Files

    A file of the bytes [data] that reads in order and can be sought: what the
    loader relies on. *)
Class SeekFile (data : list Z) (sok : F -> Prop) (content : F -> list Z) := {
  sf_stream :: Stream vfs_read sok content;
  sf_seek : forall f n, sok f -> 0 <= n -> exists f',
    vfs_seek f (Start n) = Ret (Ok tt, f') /\ sok f' /\ content f' = drop (Z.to_nat (Z.min n (Z.of_nat (length data)))) data }.

Context (data : list Z) (sok : F -> Prop) (content : F -> list Z) {SF : SeekFile data sok content}.

Lemma read_exact_some f n : sok f -> 0 <= n -> n <= Z.of_nat (length (content f)) ->
  exists f', vfs_read_exact vfs_read f n = Ret (Ok (take (Z.to_nat n) (content f)), f') /\ sok f' /\
    content f' = drop (Z.to_nat n) (content f).
Proof.
  intros Hf Hn Hl. pose proof (read_exact_loop_ok vfs_read sok content (S (Z.to_nat n)) f n [] Hf ltac:(lia)) as H.
  rewrite (proj2 (Z.leb_le _ _)) in H by done. exact H.
Qed.

(** A program header at the offset [o] of the file. *)
Definition phdr_at (o : Z) : Elf64ProgramHeader := phdr_of (take 56 (drop (Z.to_nat o) data)).

Lemma read_phdrs_ok n : forall f o acc, sok f -> content f = drop (Z.to_nat o) data -> 0 <= o ->
  o + 56 * Z.of_nat n <= Z.of_nat (length data) ->
  exists f', read_phdrs n f acc = Ret (Ok (acc ++ map (fun i => phdr_at (o + 56 * Z.of_nat i)) (seq 0 n)), f') /\ sok f'.
Proof.
  induction n as [|n IH]; intros f o acc Hf Hc Ho Hl; [exists f; cbn; by rewrite app_nil_r|]. cbn [read_phdrs]. unfold read_program_header.
  destruct (read_exact_some f PHDR_SIZE Hf) as (f1 & -> & Hf1 & Hc1); [done|rewrite Hc, length_drop; unfold PHDR_SIZE; lia|]. cbn [obind].
  destruct (IH f1 (o + 56) (acc ++ [phdr_of (take (Z.to_nat PHDR_SIZE) (content f))]) Hf1) as (f' & E & Hf'); [|lia|lia|].
  { rewrite Hc1, Hc, drop_drop. f_equal. unfold PHDR_SIZE. lia. }
  exists f'. split; [|done]. rewrite E, <- app_assoc. do 3 f_equal. cbn [seq map app]. rewrite Hc.
  replace (o + 56 * Z.of_nat 0) with o by lia. f_equal. apply (f_equal (cons (phdr_at o))).
  rewrite <- seq_shift, map_map. apply map_ext. intros i. f_equal. lia.
Qed.
End elf.

(** [vfs_seek] on a file of [len] bytes whose operations have the default
    [seek]: the files of ramfs and ext2 are such files. *)
Definition vfs_seek (len offset : Z) (pos : SeekFrom) : outcome (result unit Error * Z) :=
  let! offset := seek offset len pos in
  Ret (Ok tt, offset).

#[global] Instance ramfs_seekable i data (Hn : Ram.node i = Ram.File data) (Hl : Ram.len i = Z.of_nat (length data)) :
  SeekFile (Ram.read i) (vfs_seek (Ram.len i)) data (fun off => 0 <= off <= Z.of_nat (length data)) (fun off => drop (Z.to_nat off) data).
Proof.
  split; [by apply ramfs_stream|]. intros off n Hoff Hn0. unfold vfs_seek. rewrite Hl. cbn [seek obind]. eexists. split; [done|]. split; [lia|done].
Qed.

#[global] Instance ext2_seekable get s bs i ps data (Hg : Ext2.geometry s bs) (Hs : Ext2.stored get bs i ps data) :
  SeekFile (Ext2.read get s i) (vfs_seek (Ext2.len i)) data (fun off => 0 <= off <= Z.of_nat (length data)) (fun off => drop (Z.to_nat off) data).
Proof.
  split; [by eapply ext2_stream|]. intros off n Hoff Hn0. unfold vfs_seek. rewrite (Ext2.sd_len _ _ _ _ _ Hs). cbn [seek obind].
  eexists. split; [done|]. split; [lia|done].
Qed.

End Elf.
