(* ===== verification/Loader.v ===== *)
(** * Loading a process

    Models [src/src/process_memory_map.rs]: [load_elf] maps and fills the
    segments of an ELF file through a window of the kernel's address space,
    [switch_pages_to_user] opens their pages to user mode, and [init_from_elf]
    moves the window into the new process, builds its first stack page and maps
    the trampoline. *)

From S2P Require Import Prelude Bytes Memory PageAllocator PageMapper Dtb KernelMap UserMem Uaccess Space File Vfs Elf Syscall.

Module Load.
Import Pte Mapper UMem Ua Space Fl Vfs Elf Tf.

Definition PROCESS_LOAD_AREA : Z := 0xffff_ffc0_0000_0000.
Definition PROCESS_LOAD_AREA_ENTRY : Z := 0x100.
Definition PROCESS_STACK_START : Z := 0xffe0_0000.
Definition PROCESS_STACK_STARTING_SIZE : Z := 0x4000.
Definition PROCESS_MMAP_START : Z := 0x1_0000_0000.

Definition AT_NULL : Z := 0.
Definition AT_PHDR : Z := 3.
Definition AT_PHENT : Z := 4.
Definition AT_PHNUM : Z := 5.
Definition AT_PAGESZ : Z := 6.
Definition AT_BASE : Z := 7.
Definition AT_SECURE : Z := 23.

Definition SEGMENT_FLAGS : PageFlags := Z.lor (Z.lor (Z.lor (Z.lor READ WRITE) EXECUTE) ACCESSED) DIRTY.
Definition STACK_FLAGS : PageFlags := Z.lor (Z.lor (Z.lor (Z.lor READ WRITE) ACCESSED) DIRTY) USER.

Section load.
Context {F : Type} (vfs_read : F -> Z -> outcome (result (list Z) Error * F))
  (vfs_seek : F -> SeekFrom -> outcome (result unit Error * F)).
Context {A : Type} {FA : FrameAllocator A}.
Notation world := (@Kmap.world A).

(** A write through a kernel pointer: a page fault where nothing is mapped. *)
Definition kernel_store (w : world) (v : Z) (bytes : list Z) : outcome world :=
  match store_bytes (Kmap.mem w) (Kmap.root w) v bytes with
  | (Ok _, m) => Ret (Kmap.with_map w (m, Kmap.frames w))
  | (Err _, _) => Fault
  end.

(** The body of the loop of [load_elf] for a loadable segment.  [base_vaddr] and
    [heap_start] are the variables of the loop. *)
Definition load_segment (ph : Elf64ProgramHeader) (base_vaddr heap_start : Z) (w : world) (f : F)
    : outcome (result (Z * Z) unit * world * F) :=
  let offset := p_offset ph in
  let virt_addr := p_vaddr ph in
  let mem_size := p_memsz ph in
  let file_size := p_filesz ph in
  let base_vaddr := if offset =? 0 then virt_addr else base_vaddr in
  let! virt_addr_start := uadd virt_addr PROCESS_LOAD_AREA in
  let! segment_end := uadd virt_addr mem_size in
  let! virt_addr_end := Mem.align_up segment_end in
  let virt_addr_load_start := Mem.align_down virt_addr_start in
  let! virt_addr_load_end := uadd virt_addr_end PROCESS_LOAD_AREA in
  let heap_start := if heap_start <? virt_addr_end then virt_addr_end else heap_start in
  let! size := usub virt_addr_load_end virt_addr_load_start in
  let! w := Kmap.allocate_and_map_process_load_area_range w virt_addr_load_start size SEGMENT_FLAGS in
  let! '(r, f) := vfs_seek f (Start offset) in
  match r with
  | Err _ => Ret (Err tt, w, f)
  | Ok _ =>
      let! '(r, f) := vfs_read_exact vfs_read f file_size in
      match r with
      | Err _ => Ret (Err tt, w, f)
      | Ok bytes =>
          let! w := kernel_store w virt_addr_start bytes in
          let! zero_start := uadd virt_addr_start file_size in
          let! zeros := usub mem_size file_size in
          let! w := kernel_store w zero_start (replicate (Z.to_nat zeros) 0) in
          Ret (Ok (base_vaddr, heap_start), w, f)
      end
  end.

Fixpoint load_segments (phs : list Elf64ProgramHeader) (base_vaddr heap_start : Z) (w : world) (f : F)
    : outcome (result (Z * Z) unit * world * F) :=
  match phs with
  | [] => Ret (Ok (base_vaddr, heap_start), w, f)
  | ph :: phs =>
      if p_type ph =? PT_LOAD then
        let! '(r, w, f) := load_segment ph base_vaddr heap_start w f in
        match r with
        | Ok (base_vaddr, heap_start) => load_segments phs base_vaddr heap_start w f
        | Err e => Ret (Err e, w, f)
        end
      else load_segments phs base_vaddr heap_start w f
  end.

Definition load_elf (header : Elf64Header) (w : world) (f : F) : outcome (result (Z * Z) unit * world * F) :=
  let! '(r, f) := read_program_headers vfs_read vfs_seek f header in
  match r with
  | Err _ => Panic
  | Ok program_headers => load_segments program_headers (USIZE - 1) 0 w f
  end.

(** ** Opening the pages *)
Definition user_entry (t : Z) (m : memory) (i : nat) : memory :=
  let e := ent m t (Z.of_nat i) in
  if is_valid e then upd m (slot t (Z.of_nat i)) (set_user_flag e) else m.

Definition user_table (t : Z) (m : memory) (i : nat) : memory :=
  let l1_entry := ent m t (Z.of_nat i) in
  if is_valid l1_entry then foldl (user_entry (pte_addr l1_entry)) m (seq 0 512) else m.

Definition switch_pages_to_user (t : Z) (m : memory) : memory := foldl (user_table t) m (seq 0 512).

(** ** The stack *)

(** [sp -= 8; ptr::write(sp, v)] *)
Definition push (v : Z) (st : Z * memory) : outcome (Z * memory) :=
  let! sp := usub st.1 8 in
  Ret (sp, upd st.2 sp v).

Definition push_aux (st : Z * memory) (kv : Z * Z) : outcome (Z * memory) :=
  let! st := push kv.2 st in
  push kv.1 st.

(** The auxiliary vector in the order of the pushes. *)
Definition aux_vector (phdr_addr phnum phent : Z) : list (Z * Z) :=
  [(AT_NULL, 0); (AT_SECURE, 0); (AT_BASE, 0); (AT_PAGESZ, Mem.PAGE_SIZE); (AT_PHENT, phent); (AT_PHNUM, phnum); (AT_PHDR, phdr_addr)].

Definition build_stack (phdr_addr phnum phent : Z) (st : Z * memory) : outcome (Z * memory) :=
  let! st := ofold push_aux (aux_vector phdr_addr phnum phent) st in
  let! st := push 0 st in
  let! st := push 0 st in
  let! st := push 0 st in
  push 1 st.

(** ** [init_from_elf] *)

(** What the function changes of the process context. *)
Record process_init := mkProcess { page_map : Z; trap_frame : ProcessTrapFrame; heap_begin : Z; heap_end : Z }.

Definition set_reg (i : nat) (x : Z) (tf : ProcessTrapFrame) : ProcessTrapFrame :=
  mkFrame (<[i := x]> (registers tf)) (pc tf) (sepc tf) (sstatus tf) (stval tf) (scause tf) (satp tf).

Definition set_mem (m : memory) (w : world) : world := Kmap.with_map w (m, Kmap.frames w).

(** Moving the window: its table becomes the first of the process. *)
Definition move_window (root_table : Z) (w : world) : world :=
  let kernel_root := Kmap.root w in
  let t := pte_addr (ent (Kmap.mem w) kernel_root PROCESS_LOAD_AREA_ENTRY) in
  let m := switch_pages_to_user t (Kmap.mem w) in
  let m := upd m (slot root_table 0) (pte_set t VALID) in
  set_mem (upd m (slot kernel_root PROCESS_LOAD_AREA_ENTRY) 0) w.

Definition map_stack (root_table first_stack_page : Z) (w : world) : outcome world :=
  let! process_stack_end := usub PROCESS_STACK_START Mem.PAGE_SIZE in
  let! ma := map_range (Kmap.mem w) (Kmap.frames w) root_table process_stack_end first_stack_page PROCESS_STACK_START STACK_FLAGS Size4K in
  let rest := PROCESS_STACK_STARTING_SIZE - Mem.PAGE_SIZE in
  let! remaining_process_stack_end := usub process_stack_end rest in
  let! ma := allocate_and_map_pages ma.1 ma.2 root_table remaining_process_stack_end rest STACK_FLAGS in
  Ret (Kmap.with_map w ma).

Definition init_from_elf (c : process_init) (w : world) (f : F) : outcome (process_init * world) :=
  let! '(r, f) := read_elf64_header vfs_read f in
  match r with
  | Err _ => Panic
  | Ok header =>
      let! '(r, w, f) := load_elf header w f in
      match r with
      | Err _ => Panic
      | Ok (base_vaddr, heap_start) =>
          let tf := set_pc (e_entry header) (trap_frame c) in
          let w := move_window (page_map c) w in
          let! '(page, frames) := frame_alloc (Kmap.frames w) in
          let! first_stack_page := expect page in
          let w := Kmap.with_map w (Kmap.mem w, frames) in
          let! sp := uadd first_stack_page Mem.PAGE_SIZE in
          let! phdr_addr := uadd (e_phoff header) base_vaddr in
          let! st := build_stack phdr_addr (e_phnum header) (e_phentsize header) (sp, Kmap.mem w) in
          let w := set_mem st.2 w in
          let tf := set_reg 9 1 (set_reg 10 0 tf) in
          let! top := uadd first_stack_page Mem.PAGE_SIZE in
          let! used := usub top st.1 in
          let! user_sp := usub PROCESS_STACK_START used in
          let tf := set_reg 1 user_sp tf in
          let! w := map_stack (page_map c) first_stack_page w in
          let! ma := set_l1_page_table_for_phys (Kmap.mem w) (Kmap.frames w) (page_map c) Kmap.TRAMPOLINE_TRAP_FRAME (Kmap.LAST_L1_PTE w) in
          Ret (mkProcess (page_map c) tf heap_start heap_start, Kmap.with_map w ma)
      end
  end.

(** ** Loading a segment *)
Lemma load_app m root v a b la lb : load_bytes m root v a = Ok la -> load_bytes m root (v + Z.of_nat a) b = Ok lb ->
  load_bytes m root v (a + b) = Ok (la ++ lb).
Proof.
  revert v la. induction a as [|a IH]; intros v la; cbn [load_bytes Nat.add].
  { intros [= <-]. by rewrite Z.add_0_r. }
  destruct (virt_to_phys m root v) as [p|]; [|done]. destruct (load_bytes m root (v + 1) a) as [l|] eqn:E; [|done].
  intros [= <-] Hb. rewrite (IH _ _ E); [done|]. by replace (v + 1 + Z.of_nat a) with (v + Z.of_nat (S a)) by lia.
Qed.

Lemma load_mapped m root n : forall v,
  (forall i, 0 <= i < Z.of_nat n -> exists p, virt_to_phys m root (v + i) = Some p) -> exists l, load_bytes m root v n = Ok l.
Proof.
  induction n as [|n IH]; intros v Hv; [by exists []|]. cbn [load_bytes].
  destruct (Hv 0 ltac:(lia)) as [p Hp]. rewrite Z.add_0_r in Hp. rewrite Hp.
  destruct (IH (v + 1)) as [l ->]; [|by eexists]. intros i Hi. rewrite <- Z.add_assoc. apply Hv. lia.
Qed.

Definition AREA_END : Z := PROCESS_LOAD_AREA + 2 ^ 30.

Lemma area_window : window PROCESS_LOAD_AREA AREA_END.
Proof. done. Qed.

Lemma segment_flags_ok : flags_ok SEGMENT_FLAGS.
Proof. done. Qed.

Section segments.
Context (data : list Z) (sok : F -> Prop) (content : F -> list Z) {SF : SeekFile vfs_read vfs_seek data sok content}.

(** The pages of a segment, and what its memory is to hold. *)
Definition seg_lo (ph : Elf64ProgramHeader) : Z := p_vaddr ph / 4096 * 4096.
Definition seg_hi (ph : Elf64ProgramHeader) : Z := (p_vaddr ph + p_memsz ph + 4095) / 4096 * 4096.
Definition seg_pages (ph : Elf64ProgramHeader) : nat := Z.to_nat ((seg_hi ph - seg_lo ph) / 4096).

Definition seg_image (ph : Elf64ProgramHeader) : list Z :=
  take (Z.to_nat (p_filesz ph)) (drop (Z.to_nat (p_offset ph)) data) ++ replicate (Z.to_nat (p_memsz ph - p_filesz ph)) 0.

(** A segment the loader can take: inside the first gigabyte and the file. *)
Record seg_ok (ph : Elf64ProgramHeader) : Prop := {
  sg_off : 0 <= p_offset ph;
  sg_vaddr : 0 <= p_vaddr ph;
  sg_sizes : 0 <= p_filesz ph <= p_memsz ph;
  sg_end : p_vaddr ph + p_memsz ph + 4096 <= 2 ^ 30;
  sg_file : p_offset ph + p_filesz ph <= Z.of_nat (length data) }.

(** A sound window of the kernel's address space. *)
Definition area_ok (w : world) : Prop := space_in PROCESS_LOAD_AREA AREA_END (Kmap.mem w) (Kmap.root w) (Kmap.frames w).

(** Only memory and frames change. *)
Definition same_kernel (w w' : world) : Prop :=
  w' = Kmap.with_map w (Kmap.mem w', Kmap.frames w').

Lemma align_up_4096 x : 0 <= x -> x + 4096 < USIZE -> Mem.align_up x = Ret ((x + 4095) / 4096 * 4096).
Proof.
  intros Hx0 Hx1. destruct (Sys.align_up_spec x Hx0 Hx1) as (n & -> & Hn). f_equal. lia.
Qed.

Lemma align_down_4096 x : Mem.align_down x = x / 4096 * 4096.
Proof.
  unfold Mem.align_down, Mem.PAGE_SIZE. exact (andn_ones x 12 ltac:(lia)).
Qed.

(** Frames of others keep their contents. *)
Definition alone (w w' : world) : Prop :=
  left_alone PROCESS_LOAD_AREA AREA_END (Kmap.mem w) (Kmap.root w) (Kmap.frames w) (Kmap.mem w') (Kmap.frames w').

(** What loading a segment does. *)
Record loaded (ph : Elf64ProgramHeader) (w w' : world) : Prop := {
  ld_kernel : same_kernel w w';
  ld_area : area_ok w';
  ld_frames : (length (free_frames (Kmap.frames w)) <= length (free_frames (Kmap.frames w')) + 3 * seg_pages ph)%nat;
  ld_image : load_bytes (Kmap.mem w') (Kmap.root w') (PROCESS_LOAD_AREA + p_vaddr ph) (Z.to_nat (p_memsz ph)) = Ok (seg_image ph);
  ld_other : forall u n, PROCESS_LOAD_AREA <= u -> u + Z.of_nat n <= AREA_END ->
    u + Z.of_nat n <= PROCESS_LOAD_AREA + seg_lo ph \/ PROCESS_LOAD_AREA + seg_hi ph <= u ->
    load_bytes (Kmap.mem w') (Kmap.root w') u n = load_bytes (Kmap.mem w) (Kmap.root w) u n;
  ld_alone : alone w w' }.

Lemma kernel_store_ok (w : world) v bytes old :
  area_ok w -> PROCESS_LOAD_AREA <= v -> v + Z.of_nat (length bytes) <= AREA_END -> Forall byte_ok bytes ->
  load_bytes (Kmap.mem w) (Kmap.root w) v (length bytes) = Ok old ->
  exists w', kernel_store w v bytes = Ret w' /\ same_kernel w w' /\ area_ok w' /\ Kmap.frames w' = Kmap.frames w /\
    load_bytes (Kmap.mem w') (Kmap.root w') v (length bytes) = Ok bytes /\
    (forall u, virt_to_phys (Kmap.mem w') (Kmap.root w') u = virt_to_phys (Kmap.mem w) (Kmap.root w) u) /\ alone w w' /\
    forall u n, PROCESS_LOAD_AREA <= u -> u + Z.of_nat n <= AREA_END -> u + Z.of_nat n <= v \/ v + Z.of_nat (length bytes) <= u ->
      load_bytes (Kmap.mem w') (Kmap.root w') u n = load_bytes (Kmap.mem w) (Kmap.root w) u n.
Proof.
  intros Hw Hv Hend Hb Hl. destruct (store_in _ _ _ _ _ v bytes old area_window Hw Hv Hend Hb Hl) as (m' & E & _ & Hs & Hd & Ht & Hout & _ & Ho).
  unfold kernel_store. rewrite E. eexists. split; [reflexivity|]. split_and!; try done.
  by apply (store_left_alone _ _ _ _ _ _ (free_frames (Kmap.frames w))); [apply (so_map _ _ _ Hw)|apply (so_apart _ _ _ Hw)|].
Qed.

(** The bytes of the file and the zeros behind them, into mapped memory. *)
Lemma fill_segment_ok ph (w : world) bytes :
  area_ok w -> seg_ok ph -> Forall byte_ok bytes -> Z.of_nat (length bytes) = p_filesz ph ->
  (forall i, 0 <= i < p_memsz ph -> exists p, virt_to_phys (Kmap.mem w) (Kmap.root w) (PROCESS_LOAD_AREA + p_vaddr ph + i) = Some p) ->
  exists w', (let! w := kernel_store w (PROCESS_LOAD_AREA + p_vaddr ph) bytes in
              let! zero_start := uadd (PROCESS_LOAD_AREA + p_vaddr ph) (p_filesz ph) in
              let! zeros := usub (p_memsz ph) (p_filesz ph) in
              kernel_store w zero_start (replicate (Z.to_nat zeros) 0)) = Ret w' /\
    same_kernel w w' /\ area_ok w' /\ Kmap.frames w' = Kmap.frames w /\
    load_bytes (Kmap.mem w') (Kmap.root w') (PROCESS_LOAD_AREA + p_vaddr ph) (Z.to_nat (p_memsz ph)) =
      Ok (bytes ++ replicate (Z.to_nat (p_memsz ph - p_filesz ph)) 0) /\ alone w w' /\
    forall u n, PROCESS_LOAD_AREA <= u -> u + Z.of_nat n <= AREA_END ->
      u + Z.of_nat n <= PROCESS_LOAD_AREA + p_vaddr ph \/ PROCESS_LOAD_AREA + p_vaddr ph + p_memsz ph <= u ->
      load_bytes (Kmap.mem w') (Kmap.root w') u n = load_bytes (Kmap.mem w) (Kmap.root w) u n.
Proof.
  intros Hw [Ho Hv Hs He Hfile] Hb Hbl Hm. unfold AREA_END in *. change (2 ^ 30) with 1073741824 in *.
  set (v := PROCESS_LOAD_AREA + p_vaddr ph) in *. set (k := Z.to_nat (p_memsz ph - p_filesz ph)).
  assert (Hvr : PROCESS_LOAD_AREA <= v /\ v + p_memsz ph <= PROCESS_LOAD_AREA + 1073741824 /\ 0 <= v /\ v + p_memsz ph < USIZE).
  { unfold v, PROCESS_LOAD_AREA, USIZE. lia. }
  destruct (load_mapped (Kmap.mem w) (Kmap.root w) (length bytes) v) as [old Hold]; [intros i Hi; apply Hm; lia|].
  destruct (kernel_store_ok w v bytes old Hw) as (w2 & -> & Hk2 & Hw2 & Hfr2 & Hd2 & Ht2 & Hal2 & Ho2); [lia|unfold AREA_END; lia|done|done|].
  cbn [obind]. rewrite uadd_ok, usub_ok by lia. cbn [obind]. fold k. rewrite <- Hbl.
  destruct (load_mapped (Kmap.mem w2) (Kmap.root w2) (length (replicate k 0)) (v + Z.of_nat (length bytes))) as [old2 Hold2].
  { intros i Hi. rewrite length_replicate in Hi. rewrite Ht2, <- Z.add_assoc. apply Hm. unfold k in Hi. lia. }
  destruct (kernel_store_ok w2 (v + Z.of_nat (length bytes)) (replicate k 0) old2 Hw2)
    as (w3 & -> & Hk3 & Hw3 & Hfr3 & Hd3 & Ht3 & Hal3 & Ho3);
    [lia|rewrite length_replicate; unfold AREA_END, k; lia|apply Forall_replicate; unfold byte_ok; lia|done|].
  rewrite length_replicate in *. exists w3. split_and!; [done|by rewrite Hk3, Hk2|done|congruence| | |].
  - replace (Z.to_nat (p_memsz ph)) with (length bytes + k)%nat by (unfold k; lia). apply load_app; [|done].
    rewrite Ho3; [done|lia|unfold AREA_END; lia|lia].
  - unfold alone in *. replace (Kmap.root w2) with (Kmap.root w) in Hal3 by (by rewrite Hk2). by eapply left_alone_trans.
  - intros u n Hu Hun Hd. rewrite Ho3, Ho2; [done|done|done|lia|done|done|unfold k; lia].
Qed.

Lemma load_segment_ok ph base heap (w : world) f :
  area_ok w -> seg_ok ph -> Forall byte_ok data -> sok f -> (3 * seg_pages ph <= length (free_frames (Kmap.frames w)))%nat ->
  exists w' f', load_segment ph base heap w f =
      Ret (Ok ((if p_offset ph =? 0 then p_vaddr ph else base), Z.max heap (seg_hi ph)), w', f') /\ sok f' /\ loaded ph w w'.
Proof.
  intros Hw Hok Hbytes Hf Hfree. pose proof Hok as [Ho Hv Hs He Hfile]. change (2 ^ 30) with 1073741824 in He.
  assert (Hhi : seg_lo ph <= p_vaddr ph /\ 0 <= seg_lo ph /\ p_vaddr ph + p_memsz ph <= seg_hi ph /\ seg_hi ph <= 1073741824 /\
    seg_lo ph mod 4096 = 0 /\ seg_hi ph - seg_lo ph = Z.of_nat (seg_pages ph) * 4096).
  { unfold seg_pages, seg_hi, seg_lo. lia. }
  destruct Hhi as (H1 & H0 & H2 & H3 & H4 & H5).
  unfold load_segment. rewrite uadd_ok by (unfold PROCESS_LOAD_AREA, USIZE; lia). cbn [obind].
  rewrite uadd_ok by (unfold USIZE; lia). cbn [obind]. rewrite align_up_4096 by (unfold USIZE; lia). cbn [obind].
  fold (seg_hi ph). rewrite align_down_4096.
  replace ((p_vaddr ph + PROCESS_LOAD_AREA) / 4096 * 4096) with (PROCESS_LOAD_AREA + seg_lo ph) by (unfold seg_lo, PROCESS_LOAD_AREA; lia).
  rewrite uadd_ok by (unfold PROCESS_LOAD_AREA, USIZE; lia). cbn [obind]. rewrite usub_ok by lia. cbn [obind].
  replace (seg_hi ph + PROCESS_LOAD_AREA - (PROCESS_LOAD_AREA + seg_lo ph)) with (Z.of_nat (seg_pages ph) * 4096) by lia.
  unfold Kmap.allocate_and_map_process_load_area_range, Kmap.kmap_new, allocate_and_map_pages.
  destruct (grow_in _ _ _ _ _ (PROCESS_LOAD_AREA + seg_lo ph) (seg_pages ph) SEGMENT_FLAGS false area_window Hw segment_flags_ok)
    as (m1 & a1 & -> & Hs1 & Hn1 & Hin1 & Hout1 & Htou & Hnew); [unfold PROCESS_LOAD_AREA; lia|lia|unfold AREA_END; lia|done|].
  cbn [obind]. set (w1 := Kmap.with_map w (m1, a1)).
  destruct (sf_seek vfs_read vfs_seek f (p_offset ph) Hf Ho) as (f1 & -> & Hf1 & Hc1). cbn [obind]. rewrite Z.min_l in Hc1 by lia.
  destruct (read_exact_some vfs_read vfs_seek data sok content f1 (p_filesz ph) Hf1) as (f2 & -> & Hf2 & _);
    [lia|rewrite Hc1, length_drop; lia|]. cbn [obind]. rewrite Hc1. set (bytes := take _ _).
  destruct (fill_segment_ok ph w1 bytes Hs1 Hok) as (w3 & E & Hk3 & Hw3 & Hfr3 & Him & Hal & Hot).
  { by apply Forall_take, Forall_drop. }
  { unfold bytes. rewrite length_take, length_drop. lia. }
  { intros i Hi. destruct (Hin1 (PROCESS_LOAD_AREA + p_vaddr ph + i)) as (p & Hp & _); [lia|by exists p]. }
  replace (p_vaddr ph + PROCESS_LOAD_AREA) with (PROCESS_LOAD_AREA + p_vaddr ph) by lia.
  exists w3, f2. split_and!; [|done|split].
  - destruct (kernel_store w1 _ bytes) as [w2| |]; [|done..]. cbn [obind] in *. bind_inv E. bind_inv K. rewrite E0, E. cbn [obind]. rewrite K0. cbn [obind].
    by replace (if heap <? seg_hi ph then seg_hi ph else heap) with (Z.max heap (seg_hi ph)) by (destruct (Z.ltb_spec heap (seg_hi ph)); lia).
  - unfold same_kernel in *. by rewrite Hk3.
  - done.
  - by rewrite Hfr3.
  - done.
  - intros u n Hu Hun Hd. rewrite Hot by (done || lia). apply load_same. intros i Hi. apply Hout1; unfold AREA_END in *; lia.
  - eapply left_alone_trans; [by apply (grow_left_alone _ _ _ _ _ _ _ Htou)|exact Hal].
Qed.

(** ** Loading all of them *)
Definition loads (phs : list Elf64ProgramHeader) : list Elf64ProgramHeader := filter (fun ph => p_type ph = PT_LOAD) phs.

(** No two segments share a page. *)
Definition seg_apart (a b : Elf64ProgramHeader) : Prop := seg_hi a <= seg_lo b \/ seg_hi b <= seg_lo a.

Definition total_pages (l : list Elf64ProgramHeader) : nat := foldr (fun ph n => seg_pages ph + n)%nat 0%nat l.

Definition base_of (base : Z) (l : list Elf64ProgramHeader) : Z := foldl (fun b ph => if p_offset ph =? 0 then p_vaddr ph else b) base l.
Definition heap_of (heap : Z) (l : list Elf64ProgramHeader) : Z := foldl (fun h ph => Z.max h (seg_hi ph)) heap l.

Lemma seg_bounds ph : seg_ok ph -> 0 <= seg_lo ph <= p_vaddr ph /\ p_vaddr ph + p_memsz ph <= seg_hi ph <= 2 ^ 30.
Proof. intros [Ho Hv Hs He Hf]. unfold seg_lo, seg_hi. change (2 ^ 30) with 1073741824 in *. lia. Qed.

Lemma load_segments_ok phs : Forall byte_ok data -> forall base heap (w : world) f,
  area_ok w -> sok f -> Forall seg_ok (loads phs) -> ForallOrdPairs seg_apart (loads phs) ->
  (3 * total_pages (loads phs) <= length (free_frames (Kmap.frames w)))%nat ->
  exists w' f', load_segments phs base heap w f = Ret (Ok (base_of base (loads phs), heap_of heap (loads phs)), w', f') /\
    same_kernel w w' /\ area_ok w' /\
    (forall ph, ph ∈ loads phs -> load_bytes (Kmap.mem w') (Kmap.root w') (PROCESS_LOAD_AREA + p_vaddr ph) (Z.to_nat (p_memsz ph)) = Ok (seg_image ph)) /\
    (forall u n, PROCESS_LOAD_AREA <= u -> u + Z.of_nat n <= AREA_END ->
      Forall (fun ph => u + Z.of_nat n <= PROCESS_LOAD_AREA + seg_lo ph \/ PROCESS_LOAD_AREA + seg_hi ph <= u) (loads phs) ->
      load_bytes (Kmap.mem w') (Kmap.root w') u n = load_bytes (Kmap.mem w) (Kmap.root w) u n) /\
    (length (free_frames (Kmap.frames w)) <= length (free_frames (Kmap.frames w')) + 3 * total_pages (loads phs))%nat /\ alone w w'.
Proof.
  intros Hb. induction phs as [|ph phs IH]; intros base heap w f Hw Hf Hok Hap Hfr.
  { exists w, f. split; [done|]. split_and!; [by destruct w|done|by intros ph ?%elem_of_nil|done|cbn; lia|apply left_alone_refl]. }
  cbn [load_segments]. unfold loads in *. destruct (Z.eqb_spec (p_type ph) PT_LOAD) as [Ht|Ht].
  2:{ rewrite (filter_cons_False (fun ph => p_type ph = PT_LOAD) ph phs Ht) in *. by apply IH. }
  rewrite (filter_cons_True (fun ph => p_type ph = PT_LOAD) ph phs Ht) in *. apply Forall_cons in Hok as [Hs Hok]. inversion Hap as [|? ? Ha Hap']; subst.
  set (l := filter (fun ph => p_type ph = PT_LOAD) phs) in *. change (total_pages (ph :: l)) with (seg_pages ph + total_pages l)%nat in *.
  destruct (load_segment_ok ph base heap w f Hw Hs Hb Hf) as (w1 & f1 & -> & Hf1 & [Hk1 Hw1 Hn1 Him Hot Hal1]); [lia|]. cbn [obind].
  destruct (IH (if p_offset ph =? 0 then p_vaddr ph else base) (Z.max heap (seg_hi ph)) w1 f1 Hw1 Hf1 Hok Hap')
    as (w2 & f2 & -> & Hk2 & Hw2 & Him2 & Hot2 & Hn2 & Hal2); [lia|].
  exists w2, f2. split_and!; [done|unfold same_kernel in *; by rewrite Hk2, Hk1|done| | |lia|].
  - intros ph' [->|Hin]%elem_of_cons; [|by apply Him2]. pose proof (seg_bounds ph Hs). destruct Hs as [_ _ Hsz _ _].
    rewrite Hot2; [done|lia|unfold AREA_END; lia|]. rewrite List.Forall_forall in Ha. apply List.Forall_forall. intros b Hin.
    destruct (Ha b Hin); lia.
  - intros u n Hu Hun [Hd Hds]%Forall_cons. rewrite Hot2 by done. by apply Hot.
  - unfold alone in *. replace (Kmap.root w1) with (Kmap.root w) in Hal2 by (by rewrite Hk1). by eapply left_alone_trans.
Qed.
End segments.

End load.

End Load.
