(* ===== verification/Move.v ===== *)
(** * The window becomes a process

    The theorems on [Load.switch_pages_to_user] and [Load.move_window]: the
    table of the kernel's window becomes the first table of the process with
    its pages open to user mode; the process sees every byte at its address
    without the window's offset, its space is sound, and the kernel keeps its
    other tables and an empty window. *)

From S2P Require Import Prelude Bytes Memory PageAllocator PageMapper Dtb KernelMap UserMem Uaccess Space File Vfs Elf Syscall Loader.

Module Move.
Import Pte Mapper UMem Ua Space Load.

(** ** [switch_pages_to_user] *)

(** An entry with user mode allowed, when it is valid. *)
Definition uflag (e : Z) : Z := if is_valid e then set_user_flag e else e.

Lemma slot_ne t i t' i' : frame_ok t -> frame_ok t' -> idx_ok i -> idx_ok i' -> t <> t' \/ i <> i' -> slot t i <> slot t' i'.
Proof. unfold frame_ok, idx_ok, PAGE_ENTRIES, slot. intros. lia. Qed.

Lemma user_entries_spec l0 m n : frame_ok l0 -> (n <= 512)%nat ->
  let m' := foldl (user_entry l0) m (seq 0 n) in
  (forall j, 0 <= j < Z.of_nat n -> ent m' l0 j = uflag (ent m l0 j)) /\
  (forall b, (forall j, 0 <= j < Z.of_nat n -> b <> slot l0 j) -> m' b = m b).
Proof.
  intros Hl. induction n as [|n IH]; intros Hn; [split; [lia|done]|]. destruct IH as [Hin Hout]; [lia|].
  cbv zeta. rewrite seq_S, foldl_app. cbn [foldl Nat.add]. set (m1 := foldl (user_entry l0) m (seq 0 n)) in *.
  assert (He : ent m1 l0 (Z.of_nat n) = ent m l0 (Z.of_nat n)).
  { unfold ent. apply Hout. intros j Hj. apply slot_ne; [done|done|unfold idx_ok, PAGE_ENTRIES; lia..|]. right. lia. }
  unfold user_entry. rewrite He. split.
  - intros j Hj. destruct (decide (j = Z.of_nat n)) as [->|Hne].
    + unfold uflag. destruct (is_valid (ent m l0 (Z.of_nat n))); [|done]. unfold ent, upd. by rewrite Z.eqb_refl.
    + rewrite <- (Hin j) by lia. destruct (is_valid _); [|done]. unfold ent, upd.
      rewrite (proj2 (Z.eqb_neq _ _)); [done|]. apply slot_ne; [done|done|unfold idx_ok, PAGE_ENTRIES; lia..|]. by right.
  - intros b Hb. rewrite <- (Hout b) by (intros j Hj; apply Hb; lia). destruct (is_valid _); [|done]. unfold upd.
    rewrite (proj2 (Z.eqb_neq _ _)); [done|]. apply Hb. lia.
Qed.

(** The tables below [t]: frames other than [t], no two of them the same. *)
Record below (m : memory) (t : Z) : Prop := {
  bl_frame : forall i, idx_ok i -> is_valid (ent m t i) = true -> frame_ok (pte_addr (ent m t i)) /\ pte_addr (ent m t i) <> t;
  bl_inj : forall i j, idx_ok i -> idx_ok j -> is_valid (ent m t i) = true -> is_valid (ent m t j) = true ->
    pte_addr (ent m t i) = pte_addr (ent m t j) -> i = j }.

Lemma page_slot t i : frame_ok t -> idx_ok i -> page (slot t i) = t.
Proof. intros Ht Hi. apply (proj1 (slot_page t i Ht Hi)). Qed.

Lemma switch_spec t m n : frame_ok t -> below m t -> (n <= 512)%nat ->
  let m' := foldl (user_table t) m (seq 0 n) in
  (forall i j, 0 <= i < Z.of_nat n -> idx_ok j -> is_valid (ent m t i) = true ->
     ent m' (pte_addr (ent m t i)) j = uflag (ent m (pte_addr (ent m t i)) j)) /\
  (forall b, (forall i, 0 <= i < Z.of_nat n -> is_valid (ent m t i) = true -> page b <> pte_addr (ent m t i)) -> m' b = m b).
Proof.
  intros Ht Hb. induction n as [|n IH]; intros Hn; [split; [lia|done]|]. destruct IH as [Hin Hout]; [lia|].
  cbv zeta. rewrite seq_S, foldl_app. cbn [foldl Nat.add]. set (m1 := foldl (user_table t) m (seq 0 n)) in *.
  assert (Hidx : forall i, 0 <= i < Z.of_nat (S n) -> idx_ok i) by (unfold idx_ok, PAGE_ENTRIES; lia).
  assert (Hti : forall i, 0 <= i < Z.of_nat (S n) -> ent m1 t i = ent m t i).
  { intros i Hi. unfold ent. apply Hout. intros k Hk Hv. rewrite page_slot by (done || by apply Hidx).
    destruct (bl_frame _ _ Hb k (Hidx k ltac:(lia)) Hv) as [_ Hne]. congruence. }
  unfold user_table. rewrite Hti by lia. destruct (is_valid (ent m t (Z.of_nat n))) eqn:Ev.
  2:{ split.
      - intros i j Hi Hj Hv. apply Hin; [|done|done]. assert (i <> Z.of_nat n) by congruence. lia.
      - intros b Hbn. apply Hout. intros i Hi. apply Hbn. lia. }
  destruct (bl_frame _ _ Hb _ (Hidx (Z.of_nat n) ltac:(lia)) Ev) as [Hfr Hne]. set (l0 := pte_addr (ent m t (Z.of_nat n))) in *.
  destruct (user_entries_spec l0 m1 512 Hfr ltac:(lia)) as [Hin2 Hout2]. cbv zeta in Hin2, Hout2.
  assert (Hl0 : forall j, idx_ok j -> ent m1 l0 j = ent m l0 j).
  { intros j Hj. unfold ent. apply Hout. intros i Hi Hv. rewrite page_slot by done. intros E.
    pose proof (bl_inj _ _ Hb _ _ (Hidx i ltac:(lia)) (Hidx (Z.of_nat n) ltac:(lia)) Hv Ev ltac:(by symmetry)). lia. }
  split.
  - intros i j Hi Hj Hv. destruct (decide (i = Z.of_nat n)) as [->|Hi'].
    + fold l0. rewrite Hin2 by (unfold idx_ok, PAGE_ENTRIES in Hj; lia). by rewrite Hl0.
    + rewrite <- (Hin i j) by (done || lia). unfold ent at 1. apply Hout2. intros k Hk E. apply (f_equal page) in E.
      destruct (bl_frame _ _ Hb i (Hidx i Hi) Hv) as [Hfi _].
      rewrite !page_slot in E by (done || unfold idx_ok, PAGE_ENTRIES; lia).
      by apply Hi', (bl_inj _ _ Hb); [by apply Hidx|apply Hidx; lia|..].
  - intros b Hbn. rewrite <- (Hout b) by (intros i Hi; apply Hbn; lia). apply Hout2. intros j Hj ->.
    apply (Hbn (Z.of_nat n)); [lia|done|]. apply page_slot; [done|]. unfold idx_ok, PAGE_ENTRIES. lia.
Qed.

Lemma uflag_valid e : is_valid (uflag e) = is_valid e.
Proof.
  unfold uflag. destruct (is_valid e) eqn:E; [|done]. unfold is_valid, set_user_flag in *. rewrite Z.land_lor_distr_l.
  change (Z.land USER VALID) with 0. by rewrite Z.lor_0_r.
Qed.

Lemma uflag_leaf e : is_leaf (uflag e) = is_leaf e.
Proof.
  unfold uflag. destruct (is_valid e); [|done]. unfold is_leaf, pte_flags, set_user_flag.
  rewrite <- !Z.land_assoc, Z.land_lor_distr_l. change (Z.land USER (Z.land 0x3ff RWX)) with 0. by rewrite Z.lor_0_r.
Qed.

Lemma uflag_addr e : pte_addr (uflag e) = pte_addr e.
Proof.
  unfold uflag. destruct (is_valid e); [|done]. unfold pte_addr, set_user_flag. rewrite Z.shiftr_lor.
  change (Z.shiftr USER 10) with 0. by rewrite Z.lor_0_r.
Qed.

(** ** Moving the window *)
Lemma area_vpns v : 0 <= v < 2 ^ 30 -> vpns v = [0; vpn1 v; vpn0 v] /\ vpns (PROCESS_LOAD_AREA + v) = [256; vpn1 v; vpn0 v].
Proof.
  intros Hv. change (2 ^ 30) with 1073741824 in Hv. unfold vpns.
  destruct (vpn_arith v) as (-> & -> & ->), (vpn_arith (PROCESS_LOAD_AREA + v)) as (-> & -> & ->).
  unfold PROCESS_LOAD_AREA. change (2 ^ 18) with 262144. change (2 ^ 9) with 512.
  split; repeat (f_equal; try lia).
Qed.

Section move.
Context {A : Type} {FA : FrameAllocator A}.
Context (m : memory) (K P : Z) (a : A).
Context (Hs : space_in PROCESS_LOAD_AREA AREA_END m K a) (Hv256 : is_valid (ent m K 256) = true).
Context (HP : foreign PROCESS_LOAD_AREA AREA_END m K a P) (HfP : frame_ok P) (HP0 : forall i, idx_ok i -> ent m P i = 0).

Definition win : Z := pte_addr (ent m K 256).

Lemma idx_256 : idx_ok 256.
Proof. done. Qed.

Lemma win_path : tpath m K [256] = Some win.
Proof.
  cbn. unfold child. rewrite Hv256. cbn [andb]. destruct (is_leaf (ent m K 256)) eqn:E; [|done].
  destruct (area_vpns 0) as [_ Ev]; [lia|]. exfalso.
  assert (H2 : (2 <= 0)%nat); [|lia]. apply (so_4k _ _ _ Hs PROCESS_LOAD_AREA ltac:(unfold AREA_END; lia) (ent m K 256)).
  rewrite Z.add_0_r in Ev. rewrite Ev. cbn [leaf length]. by rewrite Hv256, E.
Qed.

Lemma win_child i : idx_ok i -> is_valid (ent m win i) = true -> tpath m K [256; i] = Some (pte_addr (ent m win i)).
Proof.
  intros Hi Hv. change [256; i] with ([256] ++ [i]). rewrite tpath_snoc, win_path. unfold child. rewrite Hv. cbn [andb].
  destruct (is_leaf (ent m win i)) eqn:E; [|done]. exfalso. unfold idx_ok, PAGE_ENTRIES in Hi.
  destruct (area_vpns (i * 2 ^ 21)) as [_ Ev]; [lia|]. assert (H1 : (1 <= 0)%nat); [|lia].
  apply (so_4k _ _ _ Hs (PROCESS_LOAD_AREA + i * 2 ^ 21) ltac:(unfold AREA_END; lia) (ent m win i)). rewrite Ev.
  destruct (vpn_arith (i * 2 ^ 21)) as (_ & Hv1 & _). replace (vpn1 (i * 2 ^ 21)) with i
    by (rewrite Hv1; change (2 ^ 21) with (4096 * 2 ^ 9); rewrite Z.mul_assoc, (Z.mul_comm i 4096), <- Z.mul_assoc, Z.mul_comm, !Z.div_mul by done; lia).
  pose proof win_path as Hw. cbn in Hw. unfold child in Hw. rewrite Hv256 in Hw. cbn [andb] in Hw.
  cbn [leaf length]. rewrite Hv256. destruct (is_leaf (ent m K 256)); [done|]. cbn [negb orb Nat.eqb]. fold win. by rewrite Hv, E.
Qed.

Lemma path_256 : path_ok [256].
Proof. split; [cbn; lia|]. apply Forall_singleton. done. Qed.

Lemma path_child i : idx_ok i -> path_ok [256; i].
Proof. intros Hi. split; [cbn; lia|]. repeat apply Forall_cons_2; [done|done|constructor]. Qed.

Lemma win_wf : wf m K (free_frames a).
Proof. apply (so_map _ _ _ Hs). Qed.

Lemma win_frame : frame_ok win /\ win ∉ free_frames a.
Proof. apply (wf_frame _ _ _ win_wf [256]); [apply path_256|apply win_path]. Qed.

Lemma win_table : is_table m K win.
Proof. exists [256]. split; [apply path_256|apply win_path]. Qed.

Lemma child_table i : idx_ok i -> is_valid (ent m win i) = true -> is_table m K (pte_addr (ent m win i)).
Proof. intros Hi Hv. exists [256; i]. split; [by apply path_child|by apply win_child]. Qed.

Lemma root_table_K : is_table m K K.
Proof. exists []. split; [split; [cbn; lia|constructor]|done]. Qed.

Lemma P_no_table f : is_table m K f -> f <> P.
Proof. intros Ht ->. apply (proj1 HP). by right. Qed.

Lemma win_below : below m win.
Proof.
  split.
  - intros i Hi Hv. destruct (wf_frame _ _ _ win_wf _ _ (path_child i Hi) (win_child i Hi Hv)) as [Hf _]. split; [done|]. intros E.
    pose proof (win_child i Hi Hv) as Hp. rewrite E in Hp.
    by pose proof (wf_inj _ _ _ win_wf _ _ _ path_256 (path_child i Hi) win_path Hp).
  - intros i j Hi Hj Hvi Hvj E. pose proof (win_child i Hi Hvi) as Hpi. pose proof (win_child j Hj Hvj) as Hpj. rewrite E in Hpi.
    by pose proof (wf_inj _ _ _ win_wf _ _ _ (path_child i Hi) (path_child j Hj) Hpi Hpj) as [= ->].
Qed.

Lemma K_ne : K <> win /\ forall i, idx_ok i -> is_valid (ent m win i) = true -> pte_addr (ent m win i) <> K.
Proof.
  assert (Hnil : path_ok []) by (split; [cbn; lia|constructor]). assert (Hroot : tpath m K [] = Some K) by done. split.
  - intros E. pose proof win_path as Hp. rewrite <- E in Hp. by pose proof (wf_inj _ _ _ win_wf _ _ _ Hnil path_256 Hroot Hp).
  - intros i Hi Hv E. pose proof (win_child i Hi Hv) as Hp. rewrite E in Hp.
    by pose proof (wf_inj _ _ _ win_wf _ _ _ Hnil (path_child i Hi) Hroot Hp).
Qed.

Lemma K_frame : frame_ok K.
Proof. apply (wf_frame _ _ _ win_wf []); [split; [cbn; lia|constructor]|done]. Qed.

(** The memory after the move. *)
Definition moved : memory := upd (upd (switch_pages_to_user win m) (slot P 0) (pte_set win VALID)) (slot K 256) 0.

Lemma moved_other b : page b <> P -> page b <> K -> (forall i, idx_ok i -> is_valid (ent m win i) = true -> page b <> pte_addr (ent m win i)) ->
  moved b = m b.
Proof.
  intros H1 H2 H3. unfold moved, upd. rewrite !(proj2 (Z.eqb_neq b _)).
  - apply (switch_spec win m 512 (proj1 win_frame) win_below ltac:(lia)). intros i Hi. apply H3. unfold idx_ok, PAGE_ENTRIES. lia.
  - intros ->. apply H1. by apply page_slot.
  - intros ->. apply H2. apply page_slot; [apply K_frame|done].
Qed.

Lemma moved_ent t i : frame_ok t -> idx_ok i -> t <> P -> t <> K ->
  (forall j, idx_ok j -> is_valid (ent m win j) = true -> t <> pte_addr (ent m win j)) -> ent moved t i = ent m t i.
Proof. intros Ht Hi H1 H2 H3. unfold ent. apply moved_other; rewrite page_slot by done; done. Qed.

Lemma moved_win i : idx_ok i -> ent moved win i = ent m win i.
Proof.
  intros Hi. apply moved_ent; [apply win_frame|done|apply P_no_table, win_table|symmetry; apply K_ne|].
  intros j Hj Hv E. by destruct (bl_frame _ _ win_below j Hj Hv).
Qed.

Lemma moved_leafs i j : idx_ok i -> idx_ok j -> is_valid (ent m win i) = true ->
  ent moved (pte_addr (ent m win i)) j = uflag (ent m (pte_addr (ent m win i)) j).
Proof.
  intros Hi Hj Hv. destruct (bl_frame _ _ win_below i Hi Hv) as [Hf _].
  rewrite <- (proj1 (switch_spec win m 512 (proj1 win_frame) win_below ltac:(lia)) i j) by (done || unfold idx_ok, PAGE_ENTRIES in *; lia).
  unfold ent, moved, upd. rewrite !(proj2 (Z.eqb_neq _ _)); [done|..].
  - apply slot_ne; [done..|]. left. by apply P_no_table, child_table.
  - apply slot_ne; [done|apply K_frame|done|done|]. left. by apply K_ne.
Qed.

Lemma moved_P i : idx_ok i -> ent moved P i = if decide (i = 0) then pte_set win VALID else 0.
Proof.
  intros Hi. unfold ent, moved, upd. rewrite (proj2 (Z.eqb_neq _ (slot K 256))).
  2:{ apply slot_ne; [done|apply K_frame|done|done|]. left. intros E. apply (P_no_table K root_table_K). done. }
  destruct (decide (i = 0)) as [->|Hne]; [by rewrite Z.eqb_refl|].
  rewrite (proj2 (Z.eqb_neq _ _)) by (apply slot_ne; [done..|by right]). rewrite <- (HP0 i Hi). unfold ent.
  apply (switch_spec win m 512 (proj1 win_frame) win_below ltac:(lia)). intros k Hk Hv. rewrite page_slot by done. intros E. symmetry in E. revert E.
  apply P_no_table, child_table; [|done]. unfold idx_ok, PAGE_ENTRIES. lia.
Qed.

Lemma win_not_leaf : is_leaf (ent m K 256) = false.
Proof. pose proof win_path as Hw. cbn in Hw. unfold child in Hw. rewrite Hv256 in Hw. by destruct (is_leaf _). Qed.

Lemma child_not_leaf i : idx_ok i -> is_valid (ent m win i) = true -> is_leaf (ent m win i) = false.
Proof.
  intros Hi Hv. pose proof (win_child i Hi Hv) as Hp. change [256; i] with ([256] ++ [i]) in Hp. rewrite tpath_snoc, win_path in Hp.
  unfold child in Hp. rewrite Hv in Hp. by destruct (is_leaf _).
Qed.

Lemma valid_flags : flags_ok VALID.
Proof. done. Qed.

Lemma moved_child : child moved P 0 = Some win.
Proof.
  unfold child. rewrite moved_P by done. rewrite decide_True by done. rewrite pte_set_valid, pte_set_leaf.
  change (intersects VALID RWX) with false. cbn [andb negb]. by rewrite pte_addr_set by (apply win_frame || apply valid_flags).
Qed.

Lemma moved_leaf v : 0 <= v < 2 ^ 30 -> leaf moved P (vpns v) =
  match leaf m K (vpns (PROCESS_LOAD_AREA + v)) with Some (e, k) => Some (uflag e, k) | None => None end.
Proof.
  intros Hv. destruct (area_vpns v Hv) as [-> ->]. pose proof (vpn_ok v) as Hi. apply Forall_cons in Hi as [_ Hi].
  apply Forall_cons in Hi as [Hi Hj]. apply Forall_cons in Hj as [Hj _].
  change [0; vpn1 v; vpn0 v] with ([0] ++ [vpn1 v; vpn0 v]). change [256; vpn1 v; vpn0 v] with ([256] ++ [vpn1 v; vpn0 v]).
  rewrite (leaf_app moved P [0] win [vpn1 v; vpn0 v]); [|cbn; by rewrite moved_child|done].
  rewrite (leaf_app m K [256] win [vpn1 v; vpn0 v]); [|apply win_path|done].
  cbn [leaf length]. rewrite moved_win by done. destruct (is_valid (ent m win (vpn1 v))) eqn:Ev; [|done]. cbn [negb].
  rewrite child_not_leaf by done. cbn [orb Nat.eqb]. rewrite moved_leafs by done. rewrite uflag_valid, uflag_leaf.
  rewrite !orb_true_r. by destruct (is_valid (ent m (pte_addr (ent m win (vpn1 v))) (vpn0 v))) eqn:E; rewrite ?E.
Qed.

Lemma moved_v2p v : 0 <= v < 2 ^ 30 -> virt_to_phys moved P v = virt_to_phys m K (PROCESS_LOAD_AREA + v).
Proof.
  intros Hv. rewrite !virt_to_phys_leaf, moved_leaf by done. destruct (leaf m K _) as [[e k]|] eqn:E; [|done].
  rewrite uflag_addr. assert (k = 0%nat) as ->.
  { pose proof (so_4k _ _ _ Hs (PROCESS_LOAD_AREA + v) ltac:(unfold AREA_END; lia) e k E). lia. }
  cbn [leaf_mask]. do 2 f_equal. change 0xfff with (Z.ones 12). rewrite !Z.land_ones by lia. change (2 ^ 12) with 4096.
  unfold PROCESS_LOAD_AREA. lia.
Qed.

Lemma high_vpn v : 2 ^ 30 <= v < 2 ^ 39 -> exists i r, vpns v = i :: r /\ i <> 0 /\ idx_ok i.
Proof.
  intros Hv. pose proof (vpn_ok v) as Hi. apply Forall_cons in Hi as [Hi _]. exists (vpn2 v), [vpn1 v; vpn0 v]. split_and!; [done| |done].
  destruct (vpn_arith v) as (-> & _). change (2 ^ 18) with 262144. change (2 ^ 30) with 1073741824 in Hv.
  change (2 ^ 39) with 549755813888 in Hv. lia.
Qed.

Lemma moved_high v : 2 ^ 30 <= v < 2 ^ 39 -> leaf moved P (vpns v) = None.
Proof. intros Hv. destruct (high_vpn v Hv) as (i & r & -> & Hi & Hok). cbn [leaf]. rewrite moved_P by done. by rewrite decide_False. Qed.

(** The tables of the process. *)
Lemma moved_tables q f : path_ok q -> tpath moved P q = Some f ->
  (q = [] /\ f = P) \/ (q = [0] /\ f = win) \/ exists i, idx_ok i /\ is_valid (ent m win i) = true /\ q = [0; i] /\ f = pte_addr (ent m win i).
Proof.
  intros [Hl Hq] Hf. destruct q as [|i q]; [left; by injection Hf as ->|]. apply Forall_cons in Hq as [Hi Hq].
  cbn [tpath] in Hf. unfold child in Hf. rewrite moved_P in Hf by done. destruct (decide (i = 0)) as [->|]; [|done].
  pose proof moved_child as Hc. unfold child in Hc. rewrite moved_P in Hc by done. rewrite decide_True in Hc by done. rewrite Hc in Hf.
  right. destruct q as [|j q]; [left; by injection Hf as ->|]. right. apply Forall_cons in Hq as [Hj _].
  destruct q; [|cbn in Hl; lia]. cbn [tpath] in Hf. unfold child in Hf. rewrite moved_win in Hf by done.
  destruct (is_valid (ent m win j)) eqn:Ev; [|done]. cbn [andb] in Hf. destruct (is_leaf _); [done|]. injection Hf as <-. by exists j.
Qed.

Lemma moved_is_table f : is_table moved P f -> f = P \/ is_table m K f.
Proof.
  intros (q & Hq & Hf). destruct (moved_tables q f Hq Hf) as [[_ ->]|[[_ ->]|(i & Hi & Hv & _ & ->)]];
    [by left|right; apply win_table|right; by apply child_table].
Qed.

Lemma moved_space : space_in 0 (2 ^ 39) moved P a.
Proof.
  pose proof (so_map _ _ _ Hs) as [Hi Hwf Hfr]. split.
  - split; [done| |done]. split.
    + intros q f Hq Hf. destruct (moved_tables q f Hq Hf) as [[_ ->]|[[_ ->]|(i & Hidx & Hv & _ & ->)]].
      * split; [done|]. intros HPf. apply (proj1 HP). by left.
      * apply win_frame.
      * apply (wf_frame _ _ _ Hwf [256; i]); [by apply path_child|by apply win_child].
    + intros q1 q2 f H1 H2 F1 F2.
      destruct (moved_tables q1 f H1 F1) as [[-> E1]|[[-> E1]|(i & Hii & Hvi & -> & E1)]],
        (moved_tables q2 f H2 F2) as [[-> E2]|[[-> E2]|(j & Hjj & Hvj & -> & E2)]]; subst f; try done.
      * by destruct (P_no_table win win_table).
      * by destruct (P_no_table _ (child_table j Hjj Hvj)).
      * by destruct (P_no_table win win_table).
      * by destruct (bl_frame _ _ win_below j Hjj Hvj).
      * by destruct (P_no_table _ (child_table i Hii Hvi)).
      * by destruct (bl_frame _ _ win_below i Hii Hvi).
      * by rewrite (bl_inj _ _ win_below i j).
  - intros v Hv e k. destruct (decide (v < 2 ^ 30)); [|by rewrite moved_high by lia]. rewrite moved_leaf by lia.
    destruct (leaf m K _) as [[e' k']|] eqn:E; [|done]. intros [= _ <-].
    by apply (so_4k _ _ _ Hs (PROCESS_LOAD_AREA + v) ltac:(unfold AREA_END; lia) e').
  - intros v p Hv Hp Ho. destruct (decide (v < 2 ^ 30)); [|by rewrite virt_to_phys_leaf, moved_high in Hp by lia].
    rewrite moved_v2p in Hp by lia. assert (Hr : PROCESS_LOAD_AREA <= PROCESS_LOAD_AREA + v < AREA_END) by (unfold AREA_END; lia).
    destruct Ho as [Ho|Ho]; [by apply (so_apart _ _ _ Hs _ p Hr Hp); left|].
    destruct (moved_is_table _ Ho) as [E|Ht]; [by apply (proj2 HP _ p Hr Hp)|]. apply (so_apart _ _ _ Hs _ p Hr Hp). by right.
  - intros v v' p Hv Hv' Hp Hp'. destruct (decide (v < 2 ^ 30)); [|by rewrite virt_to_phys_leaf, moved_high in Hp by lia].
    destruct (decide (v' < 2 ^ 30)); [|by rewrite virt_to_phys_leaf, moved_high in Hp' by lia].
    rewrite moved_v2p in Hp, Hp' by lia.
    pose proof (so_inj _ _ _ Hs (PROCESS_LOAD_AREA + v) (PROCESS_LOAD_AREA + v') p ltac:(unfold AREA_END; lia) ltac:(unfold AREA_END; lia) Hp Hp'). lia.
Qed.

(** Every byte of the window is where it was, in the process. *)
Lemma moved_load v n : 0 <= v -> v + Z.of_nat n <= 2 ^ 30 -> load_bytes moved P v n = load_bytes m K (PROCESS_LOAD_AREA + v) n.
Proof.
  revert v. induction n as [|n IH]; intros v Hv Hn; [done|]. cbn [load_bytes]. rewrite moved_v2p by lia.
  destruct (virt_to_phys m K (PROCESS_LOAD_AREA + v)) as [p|] eqn:E; [|done].
  rewrite IH by lia. replace (PROCESS_LOAD_AREA + (v + 1)) with (PROCESS_LOAD_AREA + v + 1) by lia.
  assert (Hb : bget moved p = bget m p); [|by rewrite Hb].
  assert (Hr : PROCESS_LOAD_AREA <= PROCESS_LOAD_AREA + v < AREA_END) by (unfold AREA_END; lia).
  assert (Hno : forall f, is_table m K f -> page p <> f).
  { intros f Ht <-. apply (so_apart _ _ _ Hs _ p Hr E). by right. }
  unfold bget. rewrite moved_other; [done|..]; rewrite (proj1 (page_word p p)).
  - by apply (proj2 HP _ p Hr E).
  - by apply Hno, root_table_K.
  - intros i Hi Hv'. by apply Hno, child_table.
Qed.

(** Frames that are none of the process's. *)
Lemma moved_foreign g : g ∉ free_frames a -> g <> P -> (forall q, path_ok (256 :: q) -> tpath m K (256 :: q) <> Some g) ->
  (forall v p, PROCESS_LOAD_AREA <= v < AREA_END -> virt_to_phys m K v = Some p -> page p <> g) -> foreign 0 (2 ^ 39) moved P a g.
Proof.
  intros Hn HgP Hq Hm. split.
  - intros [Ho|(q & Hok & Ho)]; [done|]. destruct (moved_tables q g Hok Ho) as [[_ ->]|[[_ ->]|(i & Hi & Hv & _ & ->)]]; [done| |].
    + by apply (Hq [] path_256), win_path.
    + by apply (Hq [i] (path_child i Hi)), win_child.
  - intros v p Hr Hp. destruct (decide (v < 2 ^ 30)); [|by rewrite virt_to_phys_leaf, moved_high in Hp by lia].
    rewrite moved_v2p in Hp by lia. apply (Hm (PROCESS_LOAD_AREA + v)); [unfold AREA_END; lia|done].
Qed.

Lemma moved_foreign_table g q : path_ok q -> tpath m K q = Some g -> head q <> Some 256 -> foreign 0 (2 ^ 39) moved P a g.
Proof.
  intros Hq Ht Hh. apply moved_foreign.
  - by destruct (wf_frame _ _ _ win_wf q g Hq Ht).
  - apply P_no_table. by exists q.
  - intros r Hr Hg. by rewrite (wf_inj _ _ _ win_wf q (256 :: r) g) in Hh.
  - intros v p Hr Hp <-. apply (so_apart _ _ _ Hs v p Hr Hp). right. by exists q.
Qed.
(** The kernel keeps its other tables; its window is empty. *)
Lemma moved_K i : idx_ok i -> ent moved K i = if decide (i = 256) then 0 else ent m K i.
Proof.
  intros Hi. unfold ent, moved, upd. destruct (decide (i = 256)) as [->|Hne]; [by rewrite Z.eqb_refl|].
  rewrite !(proj2 (Z.eqb_neq _ _)).
  - apply (switch_spec win m 512 (proj1 win_frame) win_below ltac:(lia)). intros k Hk Hv. rewrite page_slot by (done || apply K_frame).
    intros E. symmetry in E. revert E. apply K_ne; [unfold idx_ok, PAGE_ENTRIES; lia|done].
  - apply slot_ne; [apply K_frame|done|done|done|]. left. apply P_no_table, root_table_K.
  - apply slot_ne; [apply K_frame|apply K_frame|done|done|]. by right.
Qed.

Lemma moved_K_table q t i : path_ok q -> q <> [] -> head q <> Some 256 -> tpath m K q = Some t -> idx_ok i -> ent moved t i = ent m t i.
Proof.
  intros Hq Hn Hh Ht Hi. destruct (wf_frame _ _ _ win_wf q t Hq Ht) as [Hf _]. apply moved_ent; [done|done| | |].
  - apply P_no_table. by exists q.
  - intros ->. assert (Hr : tpath m K [] = Some K) by done. by rewrite (wf_inj _ _ _ win_wf q [] K Hq (conj (Nat.le_0_l 2) (Forall_nil_2 _)) Ht Hr) in Hn.
  - intros j Hj Hv ->. by rewrite (wf_inj _ _ _ win_wf q [256; j] _ Hq (path_child j Hj) Ht (win_child j Hj Hv)) in Hh.
Qed.

Lemma moved_K_path q : path_ok q -> tpath moved K q = if decide (head q = Some 256) then None else tpath m K q.
Proof.
  intros [Hl Hq]. destruct q as [|i q]; [done|]. cbn [head]. apply Forall_cons in Hq as [Hi Hq]. cbn [tpath]. unfold child. rewrite moved_K by done.
  destruct (decide (i = 256)) as [->|Hne]; [by rewrite decide_True|]. rewrite decide_False by congruence.
  destruct (is_valid (ent m K i) && negb (is_leaf (ent m K i))) eqn:E; [|done]. destruct q as [|j q]; [done|].
  apply Forall_cons in Hq as [Hj _]. destruct q; [|cbn in Hl; lia]. cbn [tpath]. unfold child.
  rewrite (moved_K_table [i]); [done|split; [cbn; lia|by constructor]|done|cbn; congruence| |done]. cbn [tpath]. unfold child. by rewrite E.
Qed.

Lemma moved_K_none v : PROCESS_LOAD_AREA <= v < AREA_END -> leaf moved K (vpns v) = None.
Proof.
  intros Hv. destruct (area_vpns (v - PROCESS_LOAD_AREA)) as [_ E]; [unfold AREA_END in Hv; lia|].
  replace (PROCESS_LOAD_AREA + (v - PROCESS_LOAD_AREA)) with v in E by lia. rewrite E. cbn [leaf]. by rewrite moved_K.
Qed.

Lemma moved_K_space : space_in PROCESS_LOAD_AREA AREA_END moved K a.
Proof.
  destruct (so_map _ _ _ Hs) as [Hi Hwf Hfr]. split; [split; [done| |done]|..].
  - split.
    + intros q t Hq. rewrite moved_K_path by done. destruct (decide _); [done|]. by apply (wf_frame _ _ _ Hwf).
    + intros q q' t Hq Hq'. rewrite !moved_K_path by done. repeat (destruct (decide _); [done|]). by apply (wf_inj _ _ _ Hwf).
  - intros v Hv e k. by rewrite moved_K_none.
  - intros v p Hv. by rewrite virt_to_phys_leaf, moved_K_none.
  - intros v v' p Hv _. by rewrite virt_to_phys_leaf, moved_K_none.
Qed.
End move.

End Move.
