(* ===== verification/LoaderInv.v ===== *)
(** * A loaded process

    The theorems on [Load.init_from_elf]: after the window has moved into the
    process ([Move]) the stack holds what a C runtime expects, and the process
    starts in a state the system calls can work on; the frames of everyone
    else are as they were. *)

From S2P Require Import Prelude Bytes Memory PageAllocator PageMapper Dtb KernelMap UserMem Uaccess Space File Ramfs Vfs Elf Syscall Loader Move.

Module LoadInv.
Import Pte Mapper UMem Ua Space Fl Vfs Elf Tf Load Move.

(** ** The stack *)

(** What the process finds from its stack pointer upwards: [argc], [argv] with
    one null pointer, no environment, and the auxiliary vector. *)
Definition stack_words (phdr phnum phent : Z) : list Z :=
  [1; 0; 0; 0; AT_PHDR; phdr; AT_PHNUM; phnum; AT_PHENT; phent; AT_PAGESZ; Mem.PAGE_SIZE; AT_BASE; 0; AT_SECURE; 0; AT_NULL; 0].

Definition STACK_BYTES : Z := 144.
Definition USER_SP : Z := PROCESS_STACK_START - STACK_BYTES.

Fixpoint pushes (l : list Z) (st : Z * memory) : outcome (Z * memory) :=
  match l with [] => Ret st | x :: l => let! st := push x st in pushes l st end.

Lemma pushes_ok l : forall sp m, 0 <= sp - 8 * Z.of_nat (length l) -> sp < USIZE ->
  exists m', pushes l (sp, m) = Ret (sp - 8 * Z.of_nat (length l), m') /\
    (forall i x, l !! i = Some x -> m' (sp - 8 * Z.of_nat (S i)) = x) /\
    forall b, ~ sp - 8 * Z.of_nat (length l) <= b < sp -> m' b = m b.
Proof.
  induction l as [|x l IH]; intros sp m H0 H1.
  { exists m. cbn. rewrite Z.sub_0_r. by split_and!. }
  cbn [pushes length] in *. unfold push. cbn [fst snd]. rewrite usub_ok by lia. cbn [obind].
  destruct (IH (sp - 8) (upd m (sp - 8) x)) as (m' & -> & Hw & Ho); [lia|lia|].
  exists m'. split_and!; [do 2 f_equal; lia| |].
  - intros [|i] y; cbn [lookup list_lookup].
    + intros [= <-]. replace (sp - 8 * Z.of_nat 1) with (sp - 8) by lia. rewrite Ho by lia. unfold upd. by rewrite Z.eqb_refl.
    + intros Hy. rewrite <- (Hw i y Hy). f_equal. lia.
  - intros b Hb. rewrite Ho by lia. unfold upd. rewrite (proj2 (Z.eqb_neq _ _)); [done|lia].
Qed.

Lemma build_stack_pushes phdr phnum phent st : build_stack phdr phnum phent st = pushes (rev (stack_words phdr phnum phent)) st.
Proof.
  destruct st as [sp m]. unfold build_stack, stack_words. cbn [rev app ofold aux_vector pushes push_aux fst snd].
  unfold push_aux. cbn [fst snd].
  repeat match goal with |- context [push ?x (?p, ?n)] => destruct (push x (p, n)) as [[? ?]| |]; cbn [obind]; [|reflexivity..] end. reflexivity.
Qed.

Lemma build_stack_ok phdr phnum phent P m : frame_ok P ->
  exists m', build_stack phdr phnum phent (P + 4096, m) = Ret (P + 4096 - STACK_BYTES, m') /\
    (forall i x, stack_words phdr phnum phent !! i = Some x -> m' (P + 4096 - STACK_BYTES + 8 * Z.of_nat i) = x) /\
    forall b, page b <> P -> m' b = m b.
Proof.
  intros [Sa [S0 S1]]. assert (2 ^ 48 < USIZE - 4096) by done. rewrite build_stack_pushes.
  destruct (pushes_ok (rev (stack_words phdr phnum phent)) (P + 4096) m) as (m' & -> & Hw & Ho); [change (length _) with 18%nat; lia|lia|].
  exists m'. change (length _) with 18%nat in *. split_and!; [done| |].
  - intros i x Hx. pose proof (lookup_lt_Some _ _ _ Hx) as Hi. change (length _) with 18%nat in Hi.
    rewrite <- (Hw (17 - i)%nat x); [f_equal; unfold STACK_BYTES; lia|].
    change (rev (stack_words phdr phnum phent)) with (reverse (stack_words phdr phnum phent)). rewrite reverse_lookup by (cbn; lia).
    change (length _) with 18%nat. by replace (18 - S (17 - i))%nat with i by lia.
  - intros b Hb. apply Ho. intros Hr. apply Hb. unfold page. lia.
Qed.

Lemma path_last : path_ok [511; 511].
Proof. split; [cbn; lia|]. repeat apply Forall_cons_2; [done|done|constructor]. Qed.

Lemma path_nil : path_ok [].
Proof. split; [cbn; lia|constructor]. Qed.

(** A frame that a process's user tables and pages do not use. *)
Definition clear_of {A} `{FrameAllocator A} (m : memory) (P : Z) (a : A) (g : Z) : Prop :=
  g ∉ free_frames a /\ (forall q, path_ok q -> q <> [511; 511] -> tpath m P q <> Some g) /\
  forall v p, 0 <= v < USER_END -> virt_to_phys m P v = Some p -> page p <> g.

Section stack.
Context {A : Type} {FA : FrameAllocator A}.
Notation world := (@Kmap.world A).
Notation own := (space_in 0 (2 ^ 39)).

Lemma all_window : window 0 (2 ^ 39).
Proof. done. Qed.

Lemma stack_flags_ok : flags_ok STACK_FLAGS.
Proof. done. Qed.

(** Frames other than [S] that are none of the space's stay as they are. *)
Definition spared (S : Z) (m : memory) (P : Z) (a : A) (m' : memory) (a' : A) : Prop :=
  forall g, g <> S -> foreign 0 (2 ^ 39) m P a g -> foreign 0 (2 ^ 39) m' P a' g /\ forall b, page b = g -> m' b = m b.

Lemma spared_trans S m P a m1 a1 m2 a2 : spared S m P a m1 a1 -> spared S m1 P a1 m2 a2 -> spared S m P a m2 a2.
Proof.
  intros H1 H2 g Hg Hf. destruct (H1 g Hg Hf) as [Hf1 Hb1], (H2 g Hg Hf1) as [Hf2 Hb2]. split; [done|]. intros b Hb. by rewrite Hb2, Hb1.
Qed.

(** The kernel's space over what a process has done to its own. *)
Lemma area_after m2 K (a : A) m4 P a4 : space_in PROCESS_LOAD_AREA AREA_END m2 K a ->
  (forall v, PROCESS_LOAD_AREA <= v < AREA_END -> leaf m2 K (vpns v) = None) -> space_ok m4 P a4 ->
  (forall t, is_table m2 K t -> t ∉ free_frames a4 /\ forall b, page b = t -> m4 b = m2 b) ->
  space_in PROCESS_LOAD_AREA AREA_END m4 K a4 /\ (forall q, path_ok q -> tpath m4 K q = tpath m2 K q) /\
  forall v, PROCESS_LOAD_AREA <= v < AREA_END -> virt_to_phys m4 K v = None.
Proof.
  intros [[_ Hwf _] _ _ _] Hno [[Hi4 _ Hf4] _ _ _] Ht.
  assert (Hag : forall b, is_table m2 K (page b) -> m4 b = m2 b) by (intros b Hb; by apply (Ht _ Hb)).
  destruct (same_tables m2 m4 K _ Hwf Hag) as [Hp Hl].
  assert (Hv : forall v, PROCESS_LOAD_AREA <= v < AREA_END -> virt_to_phys m4 K v = None) by (intros v Hr; by rewrite virt_to_phys_leaf, Hl, Hno).
  split_and!; [|done|done]. split; [split; [done| |done]|..].
  - split.
    + intros q t Hq. rewrite Hp by done. intros Hqt. split; [by apply (wf_frame _ _ _ Hwf q)|]. apply Ht. by exists q.
    + intros q q' t Hq Hq'. rewrite !Hp by done. by apply (wf_inj _ _ _ Hwf).
  - intros v Hr e k. by rewrite Hl, Hno.
  - intros v p Hr. by rewrite Hv.
  - intros v v' p Hr _. by rewrite Hv.
Qed.

(** The first page of the stack, mapped where it is expected. *)
Lemma first_page m (a : A) P S : own m P a -> foreign 0 (2 ^ 39) m P a S -> frame_ok S -> (2 <= length (free_frames a))%nat ->
  exists m' a', map_range m a P (PROCESS_STACK_START - 4096) S PROCESS_STACK_START STACK_FLAGS Size4K = Ret (m', a') /\
    own m' P a' /\ frames_used 2 a a' /\ spared S m P a m' a' /\ (forall b, page b = S -> m' b = m b) /\
    (forall v p, 0 <= v < 2 ^ 39 -> virt_to_phys m P v = Some p -> bget m' p = bget m p) /\
    forall v, 0 <= v < 2 ^ 39 -> virt_to_phys m' P v =
      if decide (PROCESS_STACK_START - 4096 <= v < PROCESS_STACK_START) then Some (S + (v - (PROCESS_STACK_START - 4096))) else virt_to_phys m P v.
Proof.
  intros Hs HS HfS Hfree. set (virt := PROCESS_STACK_START - 4096).
  destruct (map_own 0 (2 ^ 39) m a P virt S STACK_FLAGS all_window Hs stack_flags_ok) as (m' & a' & Hrun & Hs' & Hu & T & Hv); try done.
  pose proof T as (T1 & T2 & _).
  exists m', a'. split; [exact Hrun|]. split_and!; [done|done| |by intros b <-; apply T1, HS| |exact Hv].
  2:{ intros v p Hr Hp. apply (bget_touch m P a m' a'); [done|by apply (so_apart _ _ _ Hs v)]. }
  intros g Hg [Ho Hm]. split; [split; [by intros Hx; apply Ho, T2|]|intros b <-; by apply T1].
  intros v p Hr. rewrite Hv by done. destruct (decide _) as [E|E]; [|by apply Hm]. intros [= <-] <-. apply Hg. unfold page.
  destruct HfS. lia.
Qed.

Lemma map_stack_ok (w : world) P S :
  own (Kmap.mem w) P (Kmap.frames w) -> foreign 0 (2 ^ 39) (Kmap.mem w) P (Kmap.frames w) S -> frame_ok S ->
  (11 <= length (free_frames (Kmap.frames w)))%nat ->
  exists m' a', map_stack P S w = Ret (Kmap.with_map w (m', a')) /\ own m' P a' /\
    (length (free_frames (Kmap.frames w)) <= length (free_frames a') + 11)%nat /\
    spared S (Kmap.mem w) P (Kmap.frames w) m' a' /\ (forall b, page b = S -> m' b = Kmap.mem w b) /\
    (forall v, PROCESS_STACK_START - 4096 <= v < PROCESS_STACK_START -> virt_to_phys m' P v = Some (S + (v - (PROCESS_STACK_START - 4096)))) /\
    (forall v, PROCESS_STACK_START - PROCESS_STACK_STARTING_SIZE <= v < PROCESS_STACK_START -> exists p, virt_to_phys m' P v = Some p) /\
    forall v, 0 <= v < PROCESS_STACK_START - PROCESS_STACK_STARTING_SIZE ->
      virt_to_phys m' P v = virt_to_phys (Kmap.mem w) P v /\ forall p, virt_to_phys (Kmap.mem w) P v = Some p -> bget m' p = bget (Kmap.mem w) p.
Proof.
  destruct w as [m a root he l1 cpu csr tf]. cbn [Kmap.mem Kmap.frames]. intros Hs HS HfS Hfree. unfold map_stack. rewrite usub_ok by done. cbn [obind].
  destruct (first_page m a P S Hs HS HfS) as (m1 & a1 & Hrun & Hs1 & Hu1 & Hsp1 & HS1 & Hb1 & Hv1); [lia|].
  change Mem.PAGE_SIZE with 4096. cbn [Kmap.mem Kmap.frames]. rewrite Hrun. cbn [obind fst snd].
  set (end1 := PROCESS_STACK_START - 4096) in *. set (rest := PROCESS_STACK_STARTING_SIZE - 4096). rewrite usub_ok by done. cbn [obind].
  set (virt := end1 - rest).
  destruct (grow_in 0 (2 ^ 39) m1 a1 P virt 3 STACK_FLAGS false all_window Hs1 stack_flags_ok)
    as (m2 & a2 & Hrun2 & Hs2 & Hn2 & Hin2 & Hout2 & T2 & Hnew2); try done; [destruct Hu1; lia|].
  change (Z.of_nat 3 * 4096) with rest in *. unfold allocate_and_map_pages. rewrite Hrun2. cbn [obind].
  assert (Hc : virt = 4292853760 /\ end1 = 4292866048 /\ rest = 12288 /\ PROCESS_STACK_START = 4292870144 /\ PROCESS_STACK_STARTING_SIZE = 16384)
    by done. destruct Hc as (Cv & Ce & Cr & Cs & Cz). change (2 ^ 39) with 549755813888 in *.
  assert (Hfirst : forall v, end1 <= v < PROCESS_STACK_START -> virt_to_phys m1 P v = Some (S + (v - end1))).
  { intros v Hv. rewrite Hv1 by lia. by rewrite decide_True by lia. }
  assert (HSo : ~ owned m1 P a1 S).
  { replace S with (page (S + (end1 - end1))) by (unfold page; destruct HfS; lia). apply (so_apart _ _ _ Hs1 end1); [lia|]. apply Hfirst. lia. }
  exists m2, a2. split_and!; [done|done|destruct Hu1; lia| | | | |].
  - eapply spared_trans; [exact Hsp1|]. intros g _ Hg. by apply (grow_left_alone 0 (2 ^ 39) m1 a1 P m2 a2 T2 Hnew2).
  - intros b Hb. rewrite <- HS1 by done. apply T2. by rewrite Hb.
  - intros v Hv. rewrite (proj1 (Hout2 v ltac:(lia) ltac:(lia))). by apply Hfirst.
  - intros v Hv. destruct (decide (v < end1)); [destruct (Hin2 v ltac:(lia)) as (p & Hp & _); by exists p|].
    rewrite (proj1 (Hout2 v ltac:(lia) ltac:(lia))), Hfirst by lia. by eexists.
  - intros v Hv. destruct (Hout2 v ltac:(lia) ltac:(lia)) as [E2 B2]. rewrite E2 in *. rewrite Hv1 in * by lia. rewrite decide_False in * by lia.
    split; [done|]. intros p Hp. rewrite (B2 p Hp). apply (Hb1 v); [lia|done].
Qed.
Lemma tramp_vpns : vpns (2 ^ 39 - 0x20_0000) = vpns Kmap.TRAMPOLINE_TRAP_FRAME /\ vpn2 Kmap.TRAMPOLINE_TRAP_FRAME = 511 /\ vpn1 Kmap.TRAMPOLINE_TRAP_FRAME = 511.
Proof. by vm_compute. Qed.

Lemma user_vpn2 v : 0 <= v < USER_END -> vpn2 v <> 511.
Proof.
  intros Hv. destruct (vpn_arith v) as (-> & _). unfold USER_END in Hv. change (2 ^ 18) with 262144. change (2 ^ 38) with 274877906944 in Hv. lia.
Qed.

(** From the window's memory to the finished space: the page, its words, the
    mappings and the trampoline. *)
Lemma stack_ready (w : world) P phdr phnum phent :
  let m := Kmap.mem w in let a := Kmap.frames w in let L := Kmap.LAST_L1_PTE w in
  own m P a -> foreign 0 (2 ^ 39) m P a L -> frame_ok L -> (13 <= length (free_frames a))%nat ->
  exists S a1 m2 m3 a3 m4 a4,
    frame_alloc a = Ret (Some S, a1) /\ frame_ok S /\ build_stack phdr phnum phent (S + 4096, m) = Ret (S + 4096 - STACK_BYTES, m2) /\
    map_stack P S (Kmap.with_map w (m2, a1)) = Ret (Kmap.with_map w (m3, a3)) /\
    set_l1_page_table_for_phys m3 a3 P Kmap.TRAMPOLINE_TRAP_FRAME L = Ret (m4, a4) /\
    space_ok m4 P a4 /\ tpath m4 P [511; 511] = Some L /\ (length (free_frames a) <= length (free_frames a4) + 13)%nat /\
    (forall i x, stack_words phdr phnum phent !! i = Some x -> exists p, virt_to_phys m4 P (USER_SP + 8 * Z.of_nat i) = Some p /\ m4 p = x) /\
    (forall v, PROCESS_STACK_START - PROCESS_STACK_STARTING_SIZE <= v < PROCESS_STACK_START -> exists p, virt_to_phys m4 P v = Some p) /\
    (forall v n, 0 <= v -> v + Z.of_nat n <= PROCESS_STACK_START - PROCESS_STACK_STARTING_SIZE -> load_bytes m4 P v n = load_bytes m P v n) /\
    forall g, foreign 0 (2 ^ 39) m P a g -> clear_of m4 P a4 g /\ forall b, page b = g -> m4 b = m b.
Proof.
  intros m a L Hs HL HfL Hfree.
  destruct (take_frame 0 (2 ^ 39) m a P Hs) as (S & a1 & Hal & HfS & Hs1 & HS1 & [Hu1 _] & Hg1); [by apply (free_ne 12)|].
  destruct (build_stack_ok phdr phnum phent S m HfS) as (m2 & Hb & Hw & Hout).
  destruct (write_frame 0 (2 ^ 39) m m2 P a1 S Hs1 HS1 Hout) as (Hs2 & Hv2 & Hbt2 & Hg2).
  destruct (map_stack_ok (Kmap.with_map w (m2, a1)) P S Hs2 (Hg2 _ HS1) HfS) as (m3 & a3 & Hst & Hs3 & Hn3 & Hsp3 & HS3 & Hf3 & Hst3 & Hl3);
    [cbn; lia|]. cbn [Kmap.mem Kmap.frames Kmap.with_map fst snd] in *.
  assert (Hall : forall g, foreign 0 (2 ^ 39) m P a g -> foreign 0 (2 ^ 39) m3 P a3 g /\ forall b, page b = g -> m3 b = m b).
  { intros g Hg. destruct (Hg1 g Hg) as [Hg' Hne]. destruct (Hsp3 g Hne (Hg2 g Hg')) as [Hg3 Hb3]. split; [done|].
    intros b Hb'. rewrite Hb3, Hout by congruence. done. }
  destruct (Hall L HL) as [[HL3 HL3'] _]. destruct tramp_vpns as (Tv & T2 & T1).
  destruct (graft 0 USER_END m3 a3 P Kmap.TRAMPOLINE_TRAP_FRAME L) as (m4 & a4 & Hgr & Hs4 & Ht4 & Hu4 & Hb4 & Ho4 & Hv4).
  { by apply (space_mono 0 (2 ^ 39)). }
  { rewrite <- Tv. by apply (so_4k _ _ _ Hs3). }
  { intros v Hv. rewrite T2. by apply user_vpn2. }
  { done. }
  { split; [done|]. intros v p Hv. apply HL3'. unfold USER_END in Hv. lia. }
  { apply (free_ne 0). lia. }
  rewrite T1, T2 in Ht4.
  assert (HUE : PROCESS_STACK_START <= USER_END) by done.
  assert (Hcs : PROCESS_STACK_STARTING_SIZE = 16384 /\ PROCESS_STACK_START = 4292870144) by done. destruct Hcs as [Cz Cs].
  assert (Hkeep : forall v p, 0 <= v < PROCESS_STACK_START -> virt_to_phys m3 P v = Some p -> forall b, page b = page p -> m4 b = m3 b).
  { intros v p Hv Hp b E. apply Hb4. rewrite E. by apply (so_apart _ _ _ Hs3 v); [lia|]. }
  exists S, a1, m2, m3, a3, m4, a4. split; [done|]. split; [done|]. split; [done|]. split; [by destruct w|].
  split_and!; [done|done|done|destruct Hu4; lia| | | |].
  - intros i x Hx. pose proof (lookup_lt_Some _ _ _ Hx) as Hi. change (length _) with 18%nat in Hi.
    assert (Hr : PROCESS_STACK_START - 4096 <= USER_SP + 8 * Z.of_nat i < PROCESS_STACK_START) by (unfold USER_SP, STACK_BYTES; lia).
    pose proof (Hf3 _ Hr) as Hp3. eexists. rewrite Hv4, Hp3 by lia. split; [done|]. revert Hp3.
    replace (S + (USER_SP + 8 * Z.of_nat i - (PROCESS_STACK_START - 4096))) with (S + 4096 - STACK_BYTES + 8 * Z.of_nat i) by (unfold USER_SP; lia).
    set (b := S + 4096 - STACK_BYTES + 8 * Z.of_nat i). assert (Hp : page b = S) by (unfold page, b, STACK_BYTES; destruct HfS; lia).
    intros Hp3. rewrite (Hkeep (USER_SP + 8 * Z.of_nat i) b ltac:(lia) Hp3 b eq_refl), HS3 by done. by apply Hw.
  - intros v Hv. rewrite Hv4 by lia. by apply Hst3.
  - intros v n H0 H1. apply load_same. intros i Hi. assert (Hr : 0 <= v + i < PROCESS_STACK_START - PROCESS_STACK_STARTING_SIZE) by lia.
    destruct (Hl3 (v + i) Hr) as [E3 B3]. rewrite Hv4, E3, Hv2 by lia. split; [done|]. intros p Hp. 
    rewrite <- (Hbt2 (v + i)), <- B3 by (done || lia || by rewrite Hv2).
    unfold bget. rewrite (Hkeep (v + i) p); [done|lia|by rewrite E3, Hv2|by rewrite (proj1 (page_word p p))].
  - intros g Hg. destruct (Hall _ Hg) as [[Hn Hm] Hbb]. split; [split_and!|].
    + intros Hx. apply Hn. left. by apply Hu4.
    + intros q Hq Hne Ht. destruct (Ho4 g) as [->|Ho]; [right; by exists q| |done].
      by rewrite (wf_inj _ _ _ (mo_wf _ _ _ (so_map _ _ _ Hs4)) q [511; 511] L Hq path_last Ht Ht4) in Hne.
    + intros v p Hv. rewrite Hv4 by done. apply Hm. unfold USER_END in Hv. lia.
    + intros b <-. by rewrite Hb4, Hbb.
Qed.
End stack.

(** ** A process from a file *)
Section init.
Context {F : Type} (vfs_read : F -> Z -> outcome (result (list Z) Error * F))
  (vfs_seek : F -> SeekFrom -> outcome (result unit Error * F)).
Context {A : Type} {FA : FrameAllocator A}.
Context (data : list Z) (sok : F -> Prop) (content : F -> list Z) {SF : SeekFile vfs_read vfs_seek data sok content}.
Notation world := (@Kmap.world A).

Definition header : Elf64Header := header_of (take 64 data).
Definition phdrs : list Elf64ProgramHeader :=
  map (fun i => phdr_at data (e_phoff header + 56 * Z.of_nat i)) (seq 0 (Z.to_nat (e_phnum header))).

(** A file the loader can take: its headers and segments are in the file, no
    two segments share a page, and one of them starts at the file's start. *)
Record elf_ok : Prop := {
  eo_bytes : Forall byte_ok data;
  eo_size : 64 <= Z.of_nat (length data) < 2 ^ 63;
  eo_phdrs : e_phoff header + 56 * e_phnum header <= Z.of_nat (length data);
  eo_segs : Forall (seg_ok data) (loads phdrs);
  eo_apart : ForallOrdPairs seg_apart (loads phdrs);
  eo_first : Exists (fun ph => p_offset ph = 0 /\ 0 < p_memsz ph) (loads phdrs) }.

(** A kernel that can take one more process, with the root table [P]. *)
Record kernel_ok (w : world) (P : Z) : Prop := {
  ko_area : area_ok w;
  ko_root : foreign PROCESS_LOAD_AREA AREA_END (Kmap.mem w) (Kmap.root w) (Kmap.frames w) P;
  ko_frame : frame_ok P;
  ko_empty : forall i, idx_ok i -> ent (Kmap.mem w) P i = 0;
  ko_last : tpath (Kmap.mem w) (Kmap.root w) [511; 511] = Some (Kmap.LAST_L1_PTE w);
  ko_frames : (3 * total_pages (loads phdrs) + 13 <= length (free_frames (Kmap.frames w)))%nat }.

(** The started process. *)
Record started (c : process_init) (w : world) (c' : process_init) (w' : world) : Prop := {
  sp_kernel : same_kernel w w';
  sp_root : page_map c' = page_map c;
  sp_space : space_ok (Kmap.mem w') (page_map c) (Kmap.frames w');
  sp_pc : pc (trap_frame c') = e_entry header;
  sp_sp : registers (trap_frame c') = <[1%nat := USER_SP]> (<[9%nat := 1]> (<[10%nat := 0]> (registers (trap_frame c))));
  sp_heap : heap_begin c' = heap_of 0 (loads phdrs) /\ heap_end c' = heap_of 0 (loads phdrs);
  sp_segments : forall ph, ph ∈ loads phdrs ->
    load_bytes (Kmap.mem w') (page_map c) (p_vaddr ph) (Z.to_nat (p_memsz ph)) = Ok (seg_image data ph);
  sp_stack : forall i x, stack_words (e_phoff header + base_of (USIZE - 1) (loads phdrs)) (e_phnum header) (e_phentsize header) !! i = Some x ->
    exists p, virt_to_phys (Kmap.mem w') (page_map c) (USER_SP + 8 * Z.of_nat i) = Some p /\ Kmap.mem w' p = x;
  sp_mapped : forall v, PROCESS_STACK_START - PROCESS_STACK_STARTING_SIZE <= v < PROCESS_STACK_START ->
    exists p, virt_to_phys (Kmap.mem w') (page_map c) v = Some p;
  sp_trampoline : tpath (Kmap.mem w') (page_map c) [511; 511] = Some (Kmap.LAST_L1_PTE w);
  sp_area : area_ok w';
  sp_last : tpath (Kmap.mem w') (Kmap.root w) [511; 511] = Some (Kmap.LAST_L1_PTE w);
  sp_window : forall v, PROCESS_LOAD_AREA <= v < AREA_END -> virt_to_phys (Kmap.mem w') (Kmap.root w) v = None;
  sp_apart : forall t, is_table (Kmap.mem w') (Kmap.root w) t -> clear_of (Kmap.mem w') (page_map c) (Kmap.frames w') t;
  sp_frames : (length (free_frames (Kmap.frames w)) <= length (free_frames (Kmap.frames w')) + (3 * total_pages (loads phdrs) + 13))%nat;
  sp_others : forall g, foreign PROCESS_LOAD_AREA AREA_END (Kmap.mem w) (Kmap.root w) (Kmap.frames w) g -> g <> page_map c ->
    ~ is_table (Kmap.mem w') (Kmap.root w) g /\ clear_of (Kmap.mem w') (page_map c) (Kmap.frames w') g /\
    forall b, page b = g -> Kmap.mem w' b = Kmap.mem w b }.

Lemma base_of_bound l : Forall (seg_ok data) l -> forall b, Exists (fun ph => p_offset ph = 0 /\ 0 < p_memsz ph) l \/ 0 <= b <= 2 ^ 30 ->
  0 <= base_of b l <= 2 ^ 30.
Proof.
  induction 1 as [|ph l Hs _ IH]; intros b Hb; [destruct Hb as [Hb|Hb]; [by apply Exists_nil in Hb|done]|]. apply IH.
  pose proof (seg_bounds data ph Hs) as [Hb1 Hb2]. destruct Hs as [_ Hv Hsz He _]. destruct (Z.eqb_spec (p_offset ph) 0) as [E|E]; [right; lia|].
  destruct Hb as [[[? _]|Hx]%Exists_cons|Hb]; [lia|by left|by right].
Qed.

Lemma field_nonneg buf o n : Forall byte_ok buf -> 0 <= field buf o n.
Proof. intros Hb. unfold field. apply from_le_bound. by apply Forall_take, Forall_drop. Qed.

(** The headers are read and every loadable segment is filled in. *)
Lemma load_elf_ok (w : world) f : elf_ok -> area_ok w -> sok f ->
  (3 * total_pages (loads phdrs) <= length (free_frames (Kmap.frames w)))%nat ->
  exists w' f', load_elf vfs_read vfs_seek header w f = Ret (Ok (base_of (USIZE - 1) (loads phdrs), heap_of 0 (loads phdrs)), w', f') /\
    same_kernel w w' /\ area_ok w' /\ alone w w' /\
    (length (free_frames (Kmap.frames w)) <= length (free_frames (Kmap.frames w')) + 3 * total_pages (loads phdrs))%nat /\
    forall ph, ph ∈ loads phdrs -> load_bytes (Kmap.mem w') (Kmap.root w') (PROCESS_LOAD_AREA + p_vaddr ph) (Z.to_nat (p_memsz ph)) = Ok (seg_image data ph).
Proof.
  intros [Hb Hsz Hph Hsg Hap _] Hw Hf Hfree. assert (Hbh : Forall byte_ok (take 64 data)) by by apply Forall_take.
  assert (Hoff : 0 <= e_phoff header) by (by apply field_nonneg). assert (Hnum : 0 <= e_phnum header) by (by apply field_nonneg).
  unfold load_elf, read_program_headers. destruct (sf_seek vfs_read vfs_seek f (e_phoff header) Hf Hoff) as (f1 & -> & Hf1 & Hc1). cbn [obind].
  rewrite Z.min_l in Hc1 by lia.
  destruct (read_phdrs_ok vfs_read vfs_seek data sok content (Z.to_nat (e_phnum header)) f1 (e_phoff header) [] Hf1 Hc1 Hoff) as (f2 & -> & Hf2); [lia|].
  cbn [obind app]. fold phdrs.
  destruct (load_segments_ok vfs_read vfs_seek data sok content phdrs Hb (USIZE - 1) 0 w f2 Hw Hf2 Hsg Hap Hfree)
    as (w' & f' & -> & Hk & Hw' & Him & _ & Hn & Hal). exists w', f'. by split_and!.
Qed.

Lemma window_valid (w : world) ph : area_ok w -> seg_ok data ph -> 0 < p_memsz ph ->
  load_bytes (Kmap.mem w) (Kmap.root w) (PROCESS_LOAD_AREA + p_vaddr ph) (Z.to_nat (p_memsz ph)) = Ok (seg_image data ph) ->
  is_valid (ent (Kmap.mem w) (Kmap.root w) 256) = true.
Proof.
  intros Hw [_ Hv _ He _] Hpos. replace (Z.to_nat (p_memsz ph)) with (S (Z.to_nat (p_memsz ph - 1))) by lia. cbn [load_bytes].
  destruct (virt_to_phys _ _ _) as [p|] eqn:E; [|done]. intros _. rewrite virt_to_phys_leaf in E.
  destruct (area_vpns (p_vaddr ph)) as [_ Ev]; [lia|]. rewrite Ev in E. cbn [leaf] in E. by destruct (is_valid _).
Qed.

(** What moving the window leaves for the stack to work on. *)
Lemma window_moved (w : world) P f : elf_ok -> kernel_ok w P -> sok f ->
  exists w1 f1, load_elf vfs_read vfs_seek header w f = Ret (Ok (base_of (USIZE - 1) (loads phdrs), heap_of 0 (loads phdrs)), w1, f1) /\
    same_kernel w w1 /\ let w2 := move_window P w1 in same_kernel w w2 /\ Kmap.frames w2 = Kmap.frames w1 /\
    space_in 0 (2 ^ 39) (Kmap.mem w2) P (Kmap.frames w2) /\ (13 <= length (free_frames (Kmap.frames w2)))%nat /\
    (length (free_frames (Kmap.frames w)) <= length (free_frames (Kmap.frames w2)) + 3 * total_pages (loads phdrs))%nat /\
    (forall ph, ph ∈ loads phdrs -> load_bytes (Kmap.mem w2) P (p_vaddr ph) (Z.to_nat (p_memsz ph)) = Ok (seg_image data ph)) /\
    frame_ok (Kmap.LAST_L1_PTE w) /\ foreign 0 (2 ^ 39) (Kmap.mem w2) P (Kmap.frames w2) (Kmap.LAST_L1_PTE w) /\
    area_ok w2 /\ tpath (Kmap.mem w2) (Kmap.root w) [511; 511] = Some (Kmap.LAST_L1_PTE w) /\
    (forall v, PROCESS_LOAD_AREA <= v < AREA_END -> leaf (Kmap.mem w2) (Kmap.root w) (vpns v) = None) /\
    (forall t, is_table (Kmap.mem w2) (Kmap.root w) t -> foreign 0 (2 ^ 39) (Kmap.mem w2) P (Kmap.frames w2) t) /\
    forall g, foreign PROCESS_LOAD_AREA AREA_END (Kmap.mem w) (Kmap.root w) (Kmap.frames w) g -> g <> P ->
      foreign 0 (2 ^ 39) (Kmap.mem w2) P (Kmap.frames w2) g /\ ~ is_table (Kmap.mem w2) (Kmap.root w) g /\
      forall b, page b = g -> Kmap.mem w2 b = Kmap.mem w b.
Proof.
  intros He [Hw HP HfP HP0 HL Hfr] Hf. destruct (load_elf_ok w f He Hw Hf) as (w1 & f1 & E & Hk & Hw1 & [Hgr Hal] & Hn & Him); [lia|].
  exists w1, f1. split; [exact E|]. split; [done|]. destruct He as [Hb _ _ Hsg Hap Hfi].
  apply Exists_exists in Hfi as (ph0 & Hin0 & _ & Hpos0).
  assert (Hv : is_valid (ent (Kmap.mem w1) (Kmap.root w1) 256) = true).
  { apply (window_valid w1 ph0 Hw1); [by apply (proj1 (Forall_forall _ _) Hsg)|done|by apply Him]. }
  unfold area_ok in Hw1. assert (HK : Kmap.root w1 = Kmap.root w) by (by rewrite Hk). rewrite HK in *.
  destruct (Hal P HP) as [HP1 HPb]. assert (HP01 : forall i, idx_ok i -> ent (Kmap.mem w1) P i = 0).
  { intros i Hi. rewrite <- (HP0 i Hi). apply HPb. by apply page_slot. }
  set (m2 := moved (Kmap.mem w1) (Kmap.root w) P).
  assert (E2 : move_window P w1 = Kmap.with_map w1 (m2, Kmap.frames w1)).
  { unfold move_window, set_mem, m2, moved, win. cbn [Kmap.with_map Kmap.mem Kmap.frames Kmap.root fst snd]. by rewrite HK. }
  rewrite E2. cbn [Kmap.with_map Kmap.mem Kmap.frames Kmap.root fst snd].
  pose proof (Hgr _ _ path_last HL) as HL1.
  split_and!; [by rewrite Hk|done| |lia|lia| | | | | | | |].
  - by apply moved_space.
  - intros ph Hin. pose proof (proj1 (Forall_forall _ _) Hsg ph Hin) as [_ H1 H2 H3 _]. rewrite <- (Him ph Hin).
    apply (moved_load (Kmap.mem w1) (Kmap.root w) P (Kmap.frames w1) Hw1 Hv HP1 HfP HP01); lia.
  - exact (proj1 (wf_frame _ _ _ (win_wf _ _ _ Hw1) _ _ path_last HL1)).
  - apply (moved_foreign_table (Kmap.mem w1) (Kmap.root w) P (Kmap.frames w1) Hw1 Hv HP1 HfP HP01 _ _ path_last HL1). discriminate.
  - unfold area_ok. cbn [Kmap.with_map Kmap.mem Kmap.frames Kmap.root fst snd]. rewrite HK. by apply moved_K_space.
  - unfold m2. rewrite (moved_K_path _ _ _ (Kmap.frames w1) Hw1 Hv HP1 HfP _ path_last). rewrite decide_False by discriminate. exact HL1.
  - intros v Hr. by apply (moved_K_none _ _ _ (Kmap.frames w1)).
  - intros t (q & Hq & Ht). unfold m2 in Ht. rewrite (moved_K_path _ _ _ (Kmap.frames w1) Hw1 Hv HP1 HfP _ Hq) in Ht.
    destruct (decide (head q = Some 256)) as [|Hh]; [discriminate|].
    exact (moved_foreign_table (Kmap.mem w1) (Kmap.root w) P (Kmap.frames w1) Hw1 Hv HP1 HfP HP01 t q Hq Ht Hh).
  - intros g Hg Hne. destruct (Hal _ Hg) as [[Hg1 Hg2] Hgb]. split_and!.
    + apply (moved_foreign (Kmap.mem w1) (Kmap.root w) P (Kmap.frames w1) Hw1 Hv HP1 HfP HP01); [|exact Hne| |exact Hg2].
      * intros Hx. apply Hg1. by left.
      * intros q Hq Ht. apply Hg1. right. exists (256 :: q). split; [exact Hq|exact Ht].
    + intros (q & Hq & Ht). unfold m2 in Ht. rewrite (moved_K_path _ _ _ (Kmap.frames w1) Hw1 Hv HP1 HfP _ Hq) in Ht.
      destruct (decide (head q = Some 256)); [discriminate|]. apply Hg1. right. exists q. split; [exact Hq|exact Ht].
    + intros b <-. rewrite <- Hgb by reflexivity. unfold m2. rewrite (moved_other _ _ _ (Kmap.frames w1) Hw1 Hv HfP); [reflexivity|exact Hne|..].
      * intros Ex. apply Hg1. right. rewrite Ex. by apply root_table_K.
      * intros i Hi Hvi Ex. apply Hg1. right. rewrite Ex. exact (child_table _ _ (Kmap.frames w1) Hw1 Hv i Hi Hvi).
Qed.
(** The whole of [init_from_elf]. *)
Lemma init_from_elf_ok (c : process_init) (w : world) f
  (He : elf_ok) (Hw : kernel_ok w (page_map c)) (Hf : sok f) (Hc : content f = data) :
  exists c' w', init_from_elf vfs_read vfs_seek c w f = Ret (c', w') /\ started c w c' w'.
Proof.
  pose proof (eo_size He) as Hsz. unfold init_from_elf, read_elf64_header.
  destruct (read_exact_some vfs_read vfs_seek data sok content f HEADER_SIZE Hf) as (f0 & -> & Hf0 & _); [done|rewrite Hc; unfold HEADER_SIZE; lia|].
  cbn [obind]. rewrite Hc. change (take (Z.to_nat HEADER_SIZE) data) with (take 64 data). fold header.
  destruct (window_moved w (page_map c) f0 He Hw Hf0) as (w1 & f1 & -> & Hk1 & Hk2 & Hfr2 & Hs2 & Hn2 & Hc2 & Him & HfL & HL & Ha2 & HL2' & Hno & HtK & Hot).
  cbn [obind]. set (w2 := move_window (page_map c) w1) in *. set (P := page_map c) in *.
  assert (HL2 : Kmap.LAST_L1_PTE w2 = Kmap.LAST_L1_PTE w) by (by rewrite Hk2).
  set (phdr := e_phoff header + base_of (USIZE - 1) (loads phdrs)).
  destruct (stack_ready w2 P phdr (e_phnum header) (e_phentsize header)) as (S & a1 & m2 & m3 & a3 & m4 & a4 & Hal & HfS & Hbs & Hms & Hgr & Hs4 & Ht4 & Hc4 & Hwd & Hmp & Hld & Hfo);
    [exact Hs2|by rewrite HL2|by rewrite HL2|exact Hn2|].
  rewrite Hal. cbn [obind expect]. destruct HfS as [HSa [HS0 HS1]]. assert (2 ^ 48 < USIZE - 4096) by done. change Mem.PAGE_SIZE with 4096.
  assert (Hbase : 0 <= base_of (USIZE - 1) (loads phdrs) <= 2 ^ 30) by (apply base_of_bound; [apply (eo_segs He)|left; apply (eo_first He)]).
  assert (Hoff : 0 <= e_phoff header) by (apply field_nonneg, Forall_take, (eo_bytes He)).
  assert (Hnum : 0 <= e_phnum header) by (apply field_nonneg, Forall_take, (eo_bytes He)).
  assert (Hend : e_phoff header <= 2 ^ 63) by (pose proof (eo_phdrs He); lia).
  rewrite uadd_ok by lia. cbn [obind]. rewrite uadd_ok by (assert (2 ^ 63 + 2 ^ 30 < USIZE) by done; lia).
  cbn [obind]. fold phdr. cbn [Kmap.mem Kmap.with_map fst snd]. rewrite Hbs. cbn [obind fst snd].
  rewrite usub_ok by (unfold STACK_BYTES; lia). cbn [obind]. rewrite usub_ok by (unfold STACK_BYTES, PROCESS_STACK_START; lia). cbn [obind].
  replace (S + 4096 - (S + 4096 - STACK_BYTES)) with STACK_BYTES by lia. fold USER_SP.
  change (set_mem m2 (Kmap.with_map w2 (Kmap.mem w2, a1))) with (Kmap.with_map w2 (m2, a1)). fold P. rewrite Hms. cbn [obind].
  cbn [Kmap.mem Kmap.frames Kmap.LAST_L1_PTE Kmap.with_map fst snd]. rewrite Hgr. cbn [obind].
  assert (HR2 : Kmap.root w2 = Kmap.root w) by (by rewrite Hk2). unfold area_ok in Ha2. rewrite HR2 in Ha2.
  destruct (area_after (Kmap.mem w2) (Kmap.root w) (Kmap.frames w2) m4 P a4 Ha2 Hno Hs4) as (HA & HAp & HAv).
  { intros t Ht. destruct (Hfo t (HtK t Ht)) as [[Hn _] Hbt]. by split. }
  assert (HAt : forall t, is_table m4 (Kmap.root w) t -> is_table (Kmap.mem w2) (Kmap.root w) t).
  { intros t (q & Hq & Ht). exists q. by rewrite <- HAp. }
  eexists _, _. split; [reflexivity|]. unfold set_reg, set_pc. cbn [Kmap.mem Kmap.frames Kmap.with_map fst snd pc registers].
  split; cbn [page_map trap_frame heap_begin heap_end pc registers Kmap.mem Kmap.frames Kmap.with_map fst snd]; fold P; try reflexivity.
  - by rewrite Hk2.
  - exact Hs4.
  - by split.
  - intros ph Hin. pose proof (proj1 (Forall_forall _ _) (eo_segs He) ph Hin) as [_ H1 H2 H3 _]. rewrite <- (Him ph Hin). apply Hld; [done|].
    change (2 ^ 30) with 1073741824 in H3. unfold PROCESS_STACK_START, PROCESS_STACK_STARTING_SIZE. lia.
  - exact Hwd.
  - exact Hmp.
  - by rewrite <- HL2.
  - unfold area_ok. cbn [Kmap.root Kmap.mem Kmap.frames Kmap.with_map fst snd]. rewrite HR2. exact HA.
  - rewrite (HAp _ path_last). exact HL2'.
  - intros v Hv. by rewrite HAv.
  - intros t Ht. by apply Hfo, HtK, HAt.
  - lia.
  - intros g Hg Hne. destruct (Hot g Hg Hne) as (Hg2 & Hnt & E2). destruct (Hfo _ Hg2) as [Hcl Hfb]. split_and!.
    + intros Ht. by apply Hnt, HAt.
    + done.
    + intros b Hb. by rewrite Hfb, E2.
Qed.

(** C8: A sound executable starts a process: [init_from_elf] returns, every
    loadable segment is at its address with the bytes of the file and zeros
    behind them, the stack pointer points at [argc], [argv] and the auxiliary
    vector, the program counter at the entry point, the trampoline is mapped,
    the address space is one the system calls can work on, the kernel's window
    is empty again, and no frame of anyone else has changed. *)
Theorem init_from_elf_spec (c : process_init) (w : world) f
  (He : elf_ok) (Hw : kernel_ok w (page_map c)) (Hf : sok f) (Hc : content f = data) :
  exists c' w', init_from_elf vfs_read vfs_seek c w f = Ret (c', w') /\ started c w c' w'.
Proof. by apply init_from_elf_ok. Qed.
End init.

(** ** An example: a file of one segment *)
Definition demo_elf : list Z :=
  [127; 69; 76; 70; 2; 1; 1; 0] ++ replicate 8 0 ++ to_le 2 2 ++ to_le 2 243 ++ to_le 4 1 ++ to_le 8 0x10078 ++ to_le 8 64 ++
  to_le 8 0 ++ to_le 4 0 ++ to_le 2 64 ++ to_le 2 56 ++ to_le 2 1 ++ to_le 2 0 ++ to_le 2 0 ++ to_le 2 0 ++
  to_le 4 1 ++ to_le 4 5 ++ to_le 8 0 ++ to_le 8 0x10000 ++ to_le 8 0x10000 ++ to_le 8 124 ++ to_le 8 200 ++ to_le 8 4096 ++ [115; 0; 0; 0].

Definition demo_file : Ram.Inode := Ram.mkInode 7 RegularFile 124 None (Ram.File demo_elf).

#[global] Instance demo_seekable : SeekFile (Ram.read demo_file) (vfs_seek 124) demo_elf
  (fun off => 0 <= off <= Z.of_nat (length demo_elf)) (fun off => drop (Z.to_nat off) demo_elf).
Proof. by apply (ramfs_seekable demo_file demo_elf). Qed.

Lemma demo_elf_ok : elf_ok demo_elf.
Proof.
  split.
  - by apply (bool_decide_unpack _).
  - by vm_compute.
  - by vm_compute.
  - vm_compute (loads _). repeat constructor; by vm_compute.
  - vm_compute (loads _). repeat constructor.
  - vm_compute (loads _). constructor. by vm_compute.
Qed.

Definition boot_pages : Pages.PageAllocator := Pages.mkPA (Some 0x8050_0000) 64 64 {[ 0x8050_0000 := Pages.mkNode None 64 ]}.
Definition boot_root : Z := 0x8040_0000.
Definition boot_last : Z := 0x8041_0000.
Definition boot_process : process_init := mkProcess 0x8042_0000 (mkFrame (replicate 31 0) 0 0 0 0 0 0) 0 0.

(** A kernel whose table holds the trampoline's and nothing else. *)
Definition boot_world : Kmap.world :=
  match set_l1_page_table_for_phys (fun _ => 0) boot_pages boot_root Kmap.TRAMPOLINE_TRAP_FRAME boot_last with
  | Ret (m, a) => Kmap.mkWorld m a boot_root 0 boot_last 0 0 (0, 0)
  | _ => Kmap.mkWorld (fun _ => 0) boot_pages boot_root 0 boot_last 0 0 (0, 0)
  end.

Lemma boot_mapper_ok : mapper_ok (fun _ => 0) boot_root boot_pages.
Proof.
  split.
  - exists [(0x8050_0000, 64%nat)]. split; [|apply (bool_decide_unpack _); by vm_compute|apply (bool_decide_unpack _); by vm_compute|done].
    split_and!; [done|lia|]. by exists None.
  - apply wf_empty; [done| |done]. apply (bool_decide_unpack _). by vm_compute.
  - intros f Hf. assert (Forall frame_ok (free_frames boot_pages)) as Hall by (apply (bool_decide_unpack _); by vm_compute).
    by eapply Forall_forall in Hall.
Qed.

Lemma boot_no_leaf v : leaf (fun _ => 0) boot_root (vpns v) = None.
Proof. done. Qed.

Lemma boot_not_owned g : frame_ok g -> g <> boot_root -> g < 0x8050_0000 -> ~ owned (fun _ => 0) boot_root boot_pages g.
Proof.
  intros Hg Hne Hlt [Hx|(q & [_ Hq] & Hx)].
  - assert (Forall (fun f => 0x8050_0000 <= f) (free_frames boot_pages)) as Hall by (apply (bool_decide_unpack _); by vm_compute).
    apply (proj1 (Forall_forall _ _) Hall) in Hx. lia.
  - destruct q; [injection Hx as <-; done|]. done.
Qed.

Lemma boot_space lo hi : space_in lo hi (fun _ => 0) boot_root boot_pages.
Proof. split; [apply boot_mapper_ok|..]; intros v; intros; by rewrite ?virt_to_phys_leaf in *. Qed.

Lemma boot_foreign lo hi g : frame_ok g -> g <> boot_root -> g < 0x8050_0000 -> foreign lo hi (fun _ => 0) boot_root boot_pages g.
Proof. intros Hg Hne Hlt. split; [by apply boot_not_owned|]. intros v p _. by rewrite virt_to_phys_leaf. Qed.

Lemma area_vpn2 v : PROCESS_LOAD_AREA <= v < AREA_END -> vpn2 v <> 511.
Proof.
  intros Hv. destruct (vpn_arith v) as (-> & _). unfold AREA_END, PROCESS_LOAD_AREA in Hv. change (2 ^ 18) with 262144. change (2 ^ 30) with 1073741824 in Hv. lia.
Qed.

Lemma boot_ok : kernel_ok demo_elf boot_world 0x8042_0000.
Proof.
  destruct tramp_vpns as (_ & T2 & T1).
  destruct (graft PROCESS_LOAD_AREA AREA_END (fun _ => 0) boot_pages boot_root Kmap.TRAMPOLINE_TRAP_FRAME boot_last)
    as (m & a & E & Hs & Ht & [Hn _] & Hb & Ho & Hv); 
    [apply boot_space|by apply leaf_empty|rewrite T2; apply area_vpn2|done|by apply boot_foreign|intros Hx; by vm_compute in Hx|].
  rewrite T1, T2 in Ht. change (length (free_frames boot_pages)) with 64%nat in Hn.
  assert (HP : ~ owned (fun _ => 0) boot_root boot_pages 0x8042_0000) by (by apply boot_not_owned).
  unfold boot_world. rewrite E. split; cbn [Kmap.mem Kmap.frames Kmap.root Kmap.LAST_L1_PTE].
  - exact Hs.
  - split; [by intros [?|?]%Ho|]. intros v p Hr. rewrite Hv by done. by rewrite virt_to_phys_leaf.
  - done.
  - intros i Hi. unfold ent. rewrite Hb; [done|]. by rewrite page_slot.
  - exact Ht.
  - change (total_pages _) with 1%nat. lia.
Qed.

Lemma init_from_elf_spec_witness : exists c' w',
  init_from_elf (Ram.read demo_file) (vfs_seek 124) boot_process boot_world 0 = Ret (c', w') /\ pc (trap_frame c') = 0x10078 /\
  load_bytes (Kmap.mem w') 0x8042_0000 0x10000 200 = Ok (demo_elf ++ replicate 76 0) /\ registers (trap_frame c') !! 1%nat = Some 0xffdf_ff70.
Proof.
  destruct (init_from_elf_spec (Ram.read demo_file) (vfs_seek 124) demo_elf _ _ boot_process boot_world 0 demo_elf_ok boot_ok)
    as (c' & w' & E & Hst); [split; [lia|by vm_compute]|done|].
  exists c', w'. split; [exact E|]. split_and!.
  - rewrite (sp_pc _ _ _ _ _ Hst). by vm_compute.
  - destruct (loads (phdrs demo_elf)) as [|ph l] eqn:El; [by vm_compute in El|].
    pose proof (sp_segments _ _ _ _ _ Hst ph) as Hseg. rewrite El in Hseg. specialize (Hseg ltac:(by left)).
    vm_compute in El. injection El as <- _. exact Hseg.
  - by rewrite (sp_sp _ _ _ _ _ Hst).
Defined.

(** ** Files the loader does not take *)

(** [demo_elf] with other program headers: type, offset, address, file size and
    memory size of each. *)
Definition small_elf (segs : list (Z * Z * Z * Z * Z)) : list Z :=
  take 56 demo_elf ++ to_le 2 (Z.of_nat (length segs)) ++ replicate 6 0 ++
  concat (map (fun '(t, o, v, fs, ms) => to_le 4 t ++ to_le 4 5 ++ to_le 8 o ++ to_le 8 v ++ to_le 8 v ++ to_le 8 fs ++ to_le 8 ms ++ to_le 8 4096) segs).

Definition small_file (segs : list (Z * Z * Z * Z * Z)) : Ram.Inode :=
  Ram.mkInode 7 RegularFile (Z.of_nat (length (small_elf segs))) None (Ram.File (small_elf segs)).

Definition load_small (segs : list (Z * Z * Z * Z * Z)) : outcome (result (Z * Z) unit * Kmap.world * Z) :=
  load_elf (Ram.read (small_file segs)) (vfs_seek (Z.of_nat (length (small_elf segs)))) (header (small_elf segs)) boot_world 0.

(** Two segments that share a page: mapping the second replaces the page, and
    the bytes of the first (here the magic number of the file) are gone. *)
Lemma shared_page_lost :
  match load_small [(1, 0, 0x10000, 4, 4); (1, 64, 0x10100, 4, 4)] with
  | Ret (Ok _, w, _) => load_bytes (Kmap.mem w) boot_root (PROCESS_LOAD_AREA + 0x10000) 4
  | _ => Err tt
  end = Ok [0; 0; 0; 0] /\
  match load_small [(1, 0, 0x10000, 4, 4)] with
  | Ret (Ok _, w, _) => load_bytes (Kmap.mem w) boot_root (PROCESS_LOAD_AREA + 0x10000) 4
  | _ => Err tt
  end = Ok [127; 69; 76; 70].
Proof. by vm_compute. Qed.

(** No segment at the start of the file: the address of the program headers
    overflows. *)
Lemma no_first_segment_panics :
  init_from_elf (Ram.read (small_file [(1, 64, 0x10000, 4, 4)])) (vfs_seek (Z.of_nat (length (small_elf [(1, 64, 0x10000, 4, 4)])))) boot_process boot_world 0
  = Panic.
Proof. by vm_compute. Qed.

End LoadInv.
