(* ===== verification/Spawn.v ===== *)
(** * Spawning a process

    Models [process::Context::new] of [src/src/process.rs] and [spawn_process]
    of [src/src/kthread/user_process.rs]: a process is a page table and a
    trap frame at the top of its kernel thread's stack, filled by
    [Load.init_from_elf], with the console as its first three files, and its
    thread is queued.  The theorems compose the loader with the scheduler and
    the system calls: the process starts in a state the system calls can work
    on, the kernel can spawn another, and the processes there are keep their
    memory. *)

From S2P Require Import Prelude Bytes Memory PageAllocator PageMapper Dtb KernelMap UserMem Uaccess Space File Ramfs Vfs Elf Syscall Thread Loader Move LoaderInv.

Module Spawn.
Import Pte Mapper UMem Ua Space Fl Vfs Elf Tf Load Move LoadInv.

(** [size_of::<ProcessTrapFrame>()]: 31 registers and six words. *)
Definition FRAME_SIZE : Z := 296.

(** What [write_bytes] leaves of the frame. *)
Definition zero_frame : ProcessTrapFrame := mkFrame (replicate 31 0) 0 0 0 0 0 0.

(** "/dev/console" *)
Definition CONSOLE : list Z := [47; 100; 101; 118; 47; 99; 111; 110; 115; 111; 108; 101].

Section spawn.
Context {W F A : Type} {FA : FrameAllocator A}.
Context (vfs_open : W -> list Z -> outcome (result F Error * W))
  (vfs_read : F -> Z -> outcome (result (list Z) Error * F)) (vfs_seek : F -> SeekFrom -> outcome (result unit Error * F)).
Notation world := (@Kmap.world A).

(** [process::Context]; the trap frame it points to is part of it. *)
Record Context := mkContext { ctx : @Sys.Context_ F; satp : Z; frame : ProcessTrapFrame }.

Definition context_new (w : world) : outcome (Context * world) :=
  let! '(root, m, a) := new (Kmap.mem w) (Kmap.frames w) in
  Ret (mkContext (Sys.mkContext root 0 0 PROCESS_MMAP_START []) (Mapper.satp root) zero_frame, Kmap.with_map w (m, a)).

(** [init_from_elf] on a context. *)
Definition init_context (c : Context) (w : world) (f : F) : outcome (Context * world) :=
  let! '(p, w) := init_from_elf vfs_read vfs_seek
    (mkProcess (Sys.root_table (ctx c)) (frame c) (Sys.heap_begin (ctx c)) (Sys.heap_end (ctx c))) w f in
  Ret (mkContext (Sys.mkContext (page_map p) (heap_begin p) (heap_end p) (Sys.mmap_next (ctx c)) (Sys.files (ctx c)))
         (satp c) (trap_frame p), w).

(** [process_ctx.files.push(Some(vfs_open("/dev/console").expect(..)))] *)
Definition push_console (c : Context) (v : W) : outcome (Context * W) :=
  let! '(r, v) := vfs_open v CONSOLE in
  match r with
  | Err _ => Panic
  | Ok f => Ret (mkContext (Sys.with_files (Sys.files (ctx c) ++ [Some f]) (ctx c)) (satp c) (frame c), v)
  end.

(** What the scheduler reads of the context in the box at [ptr]. *)
Definition as_process (ptr trap_frame_ptr : Z) (c : Context) : Thr.Process :=
  Thr.mkProcess ptr trap_frame_ptr (default 0 (registers (frame c) !! 1%nat)) (default 0 (registers (frame c) !! 4%nat)).

(** [buf] is where the allocator put the thread's stack and [ptr] where it put
    the context; [entry] is the address of [user_thread_entry]. *)
Definition spawn_process (path : list Z) (entry buf ptr : Z) (v : W) (k : Thr.kernel) (w : world)
    : outcome (result (Z * Context) unit * W * Thr.kernel * world) :=
  let! '(r, v) := vfs_open v path in
  match r with
  | Err _ => Ret (Err tt, v, k, w)
  | Ok file =>
      let! '(thread, k) := Thr.new entry buf k in
      let! stack_top := uadd (Thr.stack thread).1 (Thr.stack thread).2 in
      let! trap_frame_ptr := usub stack_top FRAME_SIZE in
      let thread := Thr.with_context (Thr.with_sp trap_frame_ptr (Thr.context thread)) thread in
      let! '(c, w) := context_new w in
      let! '(c, w) := init_context c w file in
      let! '(c, v) := push_console c v in
      let! '(c, v) := push_console c v in
      let! '(c, v) := push_console c v in
      let thread := Thr.with_process (Some (as_process ptr trap_frame_ptr c)) thread in
      let '(thread_id, k) := Thr.add thread k in
      Ret (Ok (thread_id, c), v, k, w)
  end.

(** ** The kernel between processes *)

(** The window is sound, and the trampoline's table is where the map has it. *)
Record ready (w : world) : Prop := {
  rd_area : area_ok w;
  rd_last : tpath (Kmap.mem w) (Kmap.root w) [511; 511] = Some (Kmap.LAST_L1_PTE w) }.

(** A process in memory: its space is sound, and its tables (but for the
    trampoline's, which is the kernel's) and pages are none of the kernel's. *)
Record resident (w : world) (Q : Z) : Prop := {
  rs_space : space_ok (Kmap.mem w) Q (Kmap.frames w);
  rs_last : tpath (Kmap.mem w) Q [511; 511] = Some (Kmap.LAST_L1_PTE w);
  rs_tables : forall q t, path_ok q -> q <> [511; 511] -> tpath (Kmap.mem w) Q q = Some t ->
    foreign PROCESS_LOAD_AREA AREA_END (Kmap.mem w) (Kmap.root w) (Kmap.frames w) t;
  rs_pages : forall v p, 0 <= v < USER_END -> virt_to_phys (Kmap.mem w) Q v = Some p ->
    foreign PROCESS_LOAD_AREA AREA_END (Kmap.mem w) (Kmap.root w) (Kmap.frames w) (page p) }.

(** Every process sees what it saw, and none of the kernel's frames are its. *)
Definition kept (w w' : world) : Prop := forall Q, resident w Q -> resident w' Q /\
  (forall v, 0 <= v < USER_END -> virt_to_phys (Kmap.mem w') Q v = virt_to_phys (Kmap.mem w) Q v) /\
  forall v n, 0 <= v -> v + Z.of_nat n <= USER_END -> load_bytes (Kmap.mem w') Q v n = load_bytes (Kmap.mem w) Q v n.

(** Two processes have no page in common. *)
Definition separate (w : world) (P Q : Z) : Prop := forall v v' p p', 0 <= v < USER_END -> 0 <= v' < USER_END ->
  virt_to_phys (Kmap.mem w) P v = Some p -> virt_to_phys (Kmap.mem w) Q v' = Some p' -> page p <> page p'.

(** Frames of others keep their contents and stay foreign: then processes are kept. *)
Lemma kept_by (w w' : world) : ready w -> same_kernel w w' ->
  frame_inv (Kmap.frames w') -> (forall f, f ∈ free_frames (Kmap.frames w') -> frame_ok f) -> Kmap.LAST_L1_PTE w ∉ free_frames (Kmap.frames w') ->
  (forall g, foreign PROCESS_LOAD_AREA AREA_END (Kmap.mem w) (Kmap.root w) (Kmap.frames w) g ->
     foreign PROCESS_LOAD_AREA AREA_END (Kmap.mem w') (Kmap.root w') (Kmap.frames w') g /\ forall b, page b = g -> Kmap.mem w' b = Kmap.mem w b) ->
  kept w w'.
Proof.
  intros [Ha HL] Hk Hi Hfo HLf Hg Q [[[Hiq Hwf Hfr] H4 Hap Hinj] HLq Ht Hp]. set (m := Kmap.mem w) in *. set (m' := Kmap.mem w') in *.
  assert (He : forall q t i, path_ok q -> q <> [511; 511] -> tpath m Q q = Some t -> idx_ok i -> ent m' t i = ent m t i).
  { intros q t i Hq Hn Hqt Hi'. unfold ent. apply (Hg t (Ht q t Hq Hn Hqt)). apply page_slot; [|done]. exact (proj1 (wf_frame _ _ _ Hwf q t Hq Hqt)). }
  assert (Hpt : forall q, path_ok q -> tpath m' Q q = tpath m Q q).
  { intros q Hq. apply tpath_frame; [done|]. intros r t i Hr Hrt. pose proof (prefix_path_ok _ _ Hr Hq) as [Hl Hok]. rewrite length_app in Hl.
    cbn [length] in Hl. apply Forall_app in Hok as [Hok Hok2]. apply (He r); [split; [lia|done]| |done|by apply (proj1 (Forall_singleton idx_ok i))].
    intros ->. cbn in Hl. lia. }
  assert (Hlf : forall v, 0 <= v < USER_END -> leaf m' Q (vpns v) = leaf m Q (vpns v)).
  { intros v Hv. apply (leaf_frame m m' Q (vpns v) []); [done|]. intros r t i _ Hr Hrt. cbn [app] in Hr. pose proof (vpn_ok v) as Hok.
    pose proof (prefix_length _ _ Hr) as Hl. rewrite length_app in Hl. cbn [length vpns] in Hl.
    destruct Hr as [r' Hr]. rewrite Hr in Hok. apply Forall_app in Hok as [[Hok Hok2]%Forall_app _].
    apply (He r); [split; [lia|done]| |done|by apply (proj1 (Forall_singleton idx_ok i))].
    intros ->. injection Hr as Hr _ _. by apply (user_vpn2 v). }
  assert (Hv : forall v, 0 <= v < USER_END -> virt_to_phys m' Q v = virt_to_phys m Q v) by (intros v Hr; by rewrite !virt_to_phys_leaf, Hlf).
  assert (HLw : Kmap.LAST_L1_PTE w' = Kmap.LAST_L1_PTE w) by (by rewrite Hk).
  split; [|split; [done|]].
  - split; [split; [split; [done| |done]|..]|..].
    + split.
      * intros q t Hq. rewrite Hpt by done. intros Hqt. split; [exact (proj1 (wf_frame _ _ _ Hwf q t Hq Hqt))|].
        destruct (decide (q = [511; 511])) as [->|Hn]; [by replace t with (Kmap.LAST_L1_PTE w) by congruence|].
        destruct (Hg t (Ht q t Hq Hn Hqt)) as [[Hx _] _]. intros Hf. apply Hx. by left.
      * intros q q' t Hq Hq'. rewrite !Hpt by done. by apply (wf_inj _ _ _ Hwf).
    + intros v Hr e k. rewrite Hlf by done. by apply H4.
    + intros v p Hr. rewrite Hv by done. intros Hvp Ho. destruct (Hg _ (Hp v p Hr Hvp)) as [[Hx _] _]. destruct Ho as [Ho|(q & Hq & Ho)].
      * apply Hx. by left.
      * rewrite Hpt in Ho by done. apply (Hap v p Hr Hvp). right. by exists q.
    + intros v v' p Hr Hr'. rewrite !Hv by done. by apply Hinj.
    + rewrite Hpt by apply path_last. by rewrite HLw.
    + intros q t Hq Hn. rewrite Hpt by done. intros Hqt. by apply Hg, (Ht q).
    + intros v p Hr. rewrite Hv by done. intros Hvp. by apply Hg, (Hp v).
  - intros v n H0 H1. apply load_same. intros i Hi'. rewrite Hv by lia. split; [done|]. intros p Hvp.
    unfold bget. destruct (Hg _ (Hp (v + i) p ltac:(lia) Hvp)) as [_ Hb]. rewrite Hb; [done|]. by rewrite (proj1 (page_word p p)).
Qed.

(** A fresh page table: one frame less, and nothing of anyone's. *)
Lemma context_new_ok data (w : world) : ready w -> (3 * total_pages (loads (phdrs data)) + 14 <= length (free_frames (Kmap.frames w)))%nat ->
  exists P w1, context_new w = Ret (mkContext (Sys.mkContext P 0 0 PROCESS_MMAP_START []) (Mapper.satp P) zero_frame, w1) /\
    same_kernel w w1 /\ kernel_ok data w1 P /\ (length (free_frames (Kmap.frames w)) <= length (free_frames (Kmap.frames w1)) + 1)%nat /\
    forall g, foreign PROCESS_LOAD_AREA AREA_END (Kmap.mem w) (Kmap.root w) (Kmap.frames w) g ->
      foreign PROCESS_LOAD_AREA AREA_END (Kmap.mem w1) (Kmap.root w1) (Kmap.frames w1) g /\ g <> P /\ forall b, page b = g -> Kmap.mem w1 b = Kmap.mem w b.
Proof.
  intros [Ha HL] Hfree.
  destruct (take_frame _ _ _ _ _ Ha) as (P & a1 & Hal & HfP & Ha1 & HP & [Hu _] & Hg); [by apply (free_ne 0); lia|].
  assert (Hout : forall b, page b <> P -> zero_page (Kmap.mem w) P b = Kmap.mem w b).
  { intros b Hb. unfold zero_page. destruct (_ && _) eqn:E; [|done]. apply andb_prop in E as [E1%Z.leb_le E2%Z.ltb_lt].
    destruct Hb. unfold page, frame_ok in *. lia. }
  destruct (write_frame _ _ _ _ _ _ _ Ha1 HP Hout) as (Ha2 & _ & _ & Hg2).
  destruct (same_tables (Kmap.mem w) (zero_page (Kmap.mem w) P) (Kmap.root w) _ (mo_wf _ _ _ (so_map _ _ _ Ha1))) as [Hpt _].
  { intros b Ht. apply Hout. intros <-. apply (proj1 HP). by right. }
  exists P, (Kmap.with_map w (zero_page (Kmap.mem w) P, a1)). unfold context_new, new. rewrite Hal. split_and!; [done|done| |cbn; lia|].
  - split; cbn [Kmap.with_map Kmap.mem Kmap.frames Kmap.root Kmap.LAST_L1_PTE fst snd]; [done|by apply Hg2|done| | |lia].
    + intros i Hi. apply (zero_page_zeroed _ _ HfP). by apply page_slot.
    + rewrite Hpt by apply path_last. exact HL.
  - intros g Hfg. destruct (Hg g Hfg) as [Hg1 Hne]. split_and!; [by apply Hg2|done|]. intros b <-. by apply Hout.
Qed.

(** After loading: the kernel is ready again, the process is resident and the others are kept. *)
Lemma started_kept data c (w0 w : world) c' (w' : world) :
  ready w0 -> same_kernel w0 w -> started data c w c' w' ->
  (forall g, foreign PROCESS_LOAD_AREA AREA_END (Kmap.mem w0) (Kmap.root w0) (Kmap.frames w0) g ->
     foreign PROCESS_LOAD_AREA AREA_END (Kmap.mem w) (Kmap.root w) (Kmap.frames w) g /\ g <> page_map c /\ forall b, page b = g -> Kmap.mem w b = Kmap.mem w0 b) ->
  ready w' /\ resident w' (page_map c) /\ kept w0 w' /\ forall Q, resident w0 Q -> separate w' (page_map c) Q.
Proof.
  intros Hr Hk0 [Hk _ Hsp _ _ _ _ _ _ Htr Harea Hlast Hwin Hap _ Hoth] Hg.
  assert (HR : Kmap.root w' = Kmap.root w) by (by rewrite Hk). assert (HLw : Kmap.LAST_L1_PTE w' = Kmap.LAST_L1_PTE w) by (by rewrite Hk).
  assert (HL0 : Kmap.LAST_L1_PTE w = Kmap.LAST_L1_PTE w0) by (by rewrite Hk0).
  assert (Hfor : forall g, g ∉ free_frames (Kmap.frames w') -> ~ is_table (Kmap.mem w') (Kmap.root w) g ->
    foreign PROCESS_LOAD_AREA AREA_END (Kmap.mem w') (Kmap.root w') (Kmap.frames w') g).
  { intros g H1 H2. rewrite HR. split; [by intros [?|?]|]. intros v p Hv. by rewrite Hwin. }
  pose proof (so_map _ _ _ Hsp) as [Hi Hwf Hfr].
  assert (Hkept : kept w0 w').
  { apply kept_by; [done|by rewrite Hk, Hk0|done|done| |].
    + rewrite <- HL0. rewrite <- HR in Hlast. exact (proj2 (wf_frame _ _ _ (mo_wf _ _ _ (so_map _ _ _ Harea)) _ _ path_last Hlast)).
    + intros g Hfg. destruct (Hg g Hfg) as (Hg1 & Hne & Hb1), (Hoth g Hg1 Hne) as (Hnt & [Hnf _] & Hb2). split; [by apply Hfor|].
      intros b Hb. by rewrite Hb2, Hb1. }
  split_and!.
  - split; [done|]. by rewrite HR, HLw.
  - split; [done|by rewrite HLw|..].
    + intros q t Hq Hn Ht. apply Hfor; [exact (proj2 (wf_frame _ _ _ Hwf q t Hq Ht))|]. intros Htk. by apply (proj1 (proj2 (Hap t Htk)) q Hq Hn).
    + intros v p Hv Hp. apply Hfor; [intros Hx; apply (so_apart _ _ _ Hsp v p Hv Hp); by left|].
      intros Htk. by apply (proj2 (proj2 (Hap _ Htk)) v p Hv Hp).
  - done.
  - intros Q HQ v v' p p' Hv Hv' Hp Hp' E. destruct (Hkept Q HQ) as (_ & Htr' & _). rewrite Htr' in Hp' by done.
    destruct (Hg _ (rs_pages _ _ HQ v' p' Hv' Hp')) as (Hg1 & Hne & _). destruct (Hoth _ Hg1 Hne) as (_ & (_ & _ & Hcl) & _). by apply (Hcl v p Hv Hp).
Qed.

Lemma heap_of_aligned l : forall h, h mod 4096 = 0 -> 0 <= h -> heap_of h l mod 4096 = 0 /\ 0 <= heap_of h l.
Proof.
  induction l as [|ph l IH]; intros h Hh H0; [done|]. apply IH; [|lia].
  destruct (Z.max_spec h (seg_hi ph)) as [[_ ->]|[_ ->]]; [|done]. unfold seg_hi. lia.
Qed.

(** A spawned process: its thread is queued last, its frame starts it at the
    entry point on the stack the loader built, its files are the console, its
    segments are in its memory and the system calls can work on it. *)
Record spawned (data : list Z) (entry buf ptr : Z) (k : Thr.kernel) (v : W) (con : list F) (c : Context) (k' : Thr.kernel) (w' : world) : Prop := {
  sw_thread : Thr.table k' = <[Thr.next_id (Thr.manager k) := Thr.mkThread (Thr.next_id (Thr.manager k)) Thr.Ready
      (Thr.mkContext (buf + Thr.STACK_SIZE - FRAME_SIZE) entry 0 0 0 0 0 0 0 0 0 0 0 0) (buf, Thr.STACK_SIZE) []
      (Some (as_process ptr (buf + Thr.STACK_SIZE - FRAME_SIZE) c))]> (Thr.table k);
  sw_queue : Thr.queue k' = Thr.queue k ++ [Thr.next_id (Thr.manager k)];
  sw_files : Sys.files (ctx c) = Some <$> con;
  sw_pc : pc (frame c) = e_entry (header data);
  sw_sp : registers (frame c) !! 1%nat = Some USER_SP;
  sw_segments : forall ph, ph ∈ loads (phdrs data) ->
    load_bytes (Kmap.mem w') (Sys.root_table (ctx c)) (p_vaddr ph) (Z.to_nat (p_memsz ph)) = Ok (seg_image data ph);
  sw_proc : Sys.proc_ok (Sys.mkK (Kmap.mem w') (Kmap.frames w') (ctx c) v (Thr.next_id (Thr.manager k))) }.

(** The whole of [spawn_process]. *)
Lemma spawn_process_ok data (sok : F -> Prop) (content : F -> list Z) {SF : SeekFile vfs_read vfs_seek data sok content}
  path entry buf ptr v0 (k : Thr.kernel) (w : world) f v1 c0 v2 c1 v3 c2 v4
  (Hopen : vfs_open v0 path = Ret (Ok f, v1)) (Hf : sok f) (Hc : content f = data) (He : elf_ok data)
  (Hc0 : vfs_open v1 CONSOLE = Ret (Ok c0, v2)) (Hc1 : vfs_open v2 CONSOLE = Ret (Ok c1, v3)) (Hc2 : vfs_open v3 CONSOLE = Ret (Ok c2, v4))
  (Hr : ready w) (Hfree : (3 * total_pages (loads (phdrs data)) + 14 <= length (free_frames (Kmap.frames w)))%nat)
  (Hbuf : 0 <= buf /\ buf + Thr.STACK_SIZE < USIZE) :
  exists c k' w', spawn_process path entry buf ptr v0 k w = Ret (Ok (Thr.next_id (Thr.manager k), c), v4, k', w') /\
    spawned data entry buf ptr k v4 [c0; c1; c2] c k' w' /\ ready w' /\ resident w' (Sys.root_table (ctx c)) /\ kept w w' /\
    (forall Q, resident w Q -> separate w' (Sys.root_table (ctx c)) Q) /\ Thr.next_id (Thr.manager k') = (Thr.next_id (Thr.manager k) + 1) mod USIZE /\
    (length (free_frames (Kmap.frames w)) <= length (free_frames (Kmap.frames w')) + (3 * total_pages (loads (phdrs data)) + 14))%nat.
Proof.
  unfold spawn_process. rewrite Hopen. cbn [obind]. unfold Thr.new. destruct (Thr.allocate_thread_id (Thr.manager k)) as [tid mgr] eqn:Et.
  injection Et as <- <-. rewrite uadd_ok by (unfold Thr.STACK_SIZE in *; lia). cbn [obind Thr.stack fst snd].
  rewrite uadd_ok by (unfold Thr.STACK_SIZE in *; lia). cbn [obind]. rewrite usub_ok by (unfold Thr.STACK_SIZE, FRAME_SIZE in *; lia). cbn [obind].
  destruct (context_new_ok data w Hr Hfree) as (P & w1 & -> & Hk1 & Hko & Hn1 & Hg1). cbn [obind]. unfold init_context.
  cbn [ctx frame satp Sys.root_table Sys.heap_begin Sys.heap_end Sys.mmap_next Sys.files].
  destruct (init_from_elf_ok vfs_read vfs_seek data sok content (mkProcess P zero_frame 0 0) w1 f He Hko Hf Hc) as (p & w2 & -> & Hst). cbn [obind].
  destruct (started_kept data _ w w1 p w2 Hr Hk1 Hst Hg1) as (Hr2 & Hres & Hkept & Hsep).
  unfold push_console. rewrite Hc0. cbn [obind]. rewrite Hc1. cbn [obind]. rewrite Hc2. cbn [obind Thr.add].
  eexists _, _, _. split; [reflexivity|]. destruct Hst as [_ Hroot Hsp Hpc Hregs [_ Hheap] Hseg _ _ _ _ _ _ _ Hn2 _].
  cbn [page_map Load.trap_frame] in *. destruct (heap_of_aligned (loads (phdrs data)) 0) as [Hh1 Hh2]; [done|done|].
  split; [|cbn [ctx Sys.with_files Sys.root_table]; rewrite Hroot; split_and!; [done..|lia]].
  split; cbn [ctx frame satp Sys.with_files Sys.files Sys.root_table Sys.heap_end Sys.mmap_next]; rewrite ?Hroot; try done.
  - by rewrite Hregs.
  - split; cbn [Sys.mem Sys.frames Sys.ctx Sys.root_table Sys.heap_end Sys.mmap_next]; rewrite ?Hheap, ?Hroot; done.
Qed.

(** C10: [spawn_process] on a sound executable succeeds; the kernel can spawn
    another process afterwards, and every process there was keeps its memory and
    shares no page with the new one. *)
Theorem spawn_process_spec data (sok : F -> Prop) (content : F -> list Z) {SF : SeekFile vfs_read vfs_seek data sok content}
  path entry buf ptr v0 (k : Thr.kernel) (w : world) f v1 c0 v2 c1 v3 c2 v4
  (Hopen : vfs_open v0 path = Ret (Ok f, v1)) (Hf : sok f) (Hc : content f = data) (He : elf_ok data)
  (Hc0 : vfs_open v1 CONSOLE = Ret (Ok c0, v2)) (Hc1 : vfs_open v2 CONSOLE = Ret (Ok c1, v3)) (Hc2 : vfs_open v3 CONSOLE = Ret (Ok c2, v4))
  (Hr : ready w) (Hfree : (3 * total_pages (loads (phdrs data)) + 14 <= length (free_frames (Kmap.frames w)))%nat)
  (Hbuf : 0 <= buf /\ buf + Thr.STACK_SIZE < USIZE) :
  exists c k' w', spawn_process path entry buf ptr v0 k w = Ret (Ok (Thr.next_id (Thr.manager k), c), v4, k', w') /\
    spawned data entry buf ptr k v4 [c0; c1; c2] c k' w' /\ ready w' /\ resident w' (Sys.root_table (ctx c)) /\ kept w w' /\
    forall Q, resident w Q -> separate w' (Sys.root_table (ctx c)) Q.
Proof.
  destruct (spawn_process_ok data sok content path entry buf ptr v0 k w f v1 c0 v2 c1 v3 c2 v4 Hopen Hf Hc He Hc0 Hc1 Hc2 Hr Hfree Hbuf)
    as (c & k' & w' & E & H1 & H2 & H3 & H4 & H5 & _). by exists c, k', w'.
Qed.
End spawn.

(** ** An example over the RAM file system *)
Definition ram_read (f : Ram.Inode * Z) (n : Z) : outcome (result (list Z) Error * (Ram.Inode * Z)) :=
  let! '(r, off) := Ram.read f.1 f.2 n in Ret (r, (f.1, off)).

Definition ram_seek (f : Ram.Inode * Z) (pos : SeekFrom) : outcome (result unit Error * (Ram.Inode * Z)) :=
  let! '(r, off) := vfs_seek (Ram.len f.1) f.2 pos in Ret (r, (f.1, off)).

#[global] Instance ram_seek_file : SeekFile ram_read ram_seek demo_elf
  (fun f => f.1 = demo_file /\ 0 <= f.2 <= Z.of_nat (length demo_elf)) (fun f => drop (Z.to_nat f.2) demo_elf).
Proof.
  split.
  - intros [i off] n [Hi Ho] Hn. cbn [fst snd] in *. subst i. unfold ram_read.
    destruct (@stream_read _ _ _ _ (ramfs_stream demo_file demo_elf eq_refl) off n Ho Hn) as (chunk & off' & E & Ho' & Hc). cbn [fst snd]. rewrite E.
    eexists _, _. split; [done|]. by split.
  - intros [i off] n [Hi Ho] Hn. cbn [fst snd] in *. subst i. eexists. split; [done|]. cbn [fst snd]. split; [split; [done|]|done].
    change (Ram.len demo_file) with 124. change (Z.of_nat (length demo_elf)) with 124. lia.
Qed.

Definition boot_files : Ram.Ramfs := Ram.mkRamfs
  {[ 0 := Ram.mkInode 1 Directory 0 None (Ram.Dir [([112], 1); ([100; 101; 118], 2)]); 1 := demo_file;
     2 := Ram.mkInode 2 Directory 0 None (Ram.Dir [([99; 111; 110; 115; 111; 108; 101], 3)]);
     3 := Ram.mkInode 3 CharDevice 0 (Some (5, 1)) Ram.CharDev ]} 0 4 4.

Definition boot_threads : Thr.kernel := Thr.mkKernel Thr.manager_new None None 0 Thr.demo_cpu.

Lemma boot_ready : ready boot_world.
Proof. destruct boot_ok as [Ha _ _ _ HL _]. by split. Qed.

(** Spawning "/p" in a kernel with nothing else. *)
Lemma spawn_process_spec_witness : exists c k' w',
  spawn_process Sys.k_open ram_read ram_seek [47; 112] 0x8020_0000 0x9000_0000 0x9001_0000 boot_files boot_threads boot_world
    = Ret (Ok (1, c), boot_files, k', w') /\ Thr.queue k' = [1] /\ ready w' /\ length (Sys.files (ctx c)) = 3%nat.
Proof.
  destruct (spawn_process_spec Sys.k_open ram_read ram_seek demo_elf _ _ [47; 112] 0x8020_0000 0x9000_0000 0x9001_0000 boot_files boot_threads boot_world
    (demo_file, 0) boot_files (Ram.mkInode 3 CharDevice 0 (Some (5, 1)) Ram.CharDev, 0) boot_files (Ram.mkInode 3 CharDevice 0 (Some (5, 1)) Ram.CharDev, 0)
    boot_files (Ram.mkInode 3 CharDevice 0 (Some (5, 1)) Ram.CharDev, 0) boot_files) as (c & k' & w' & E & Hs & Hr & _).
  - by vm_compute.
  - by vm_compute.
  - done.
  - apply demo_elf_ok.
  - by vm_compute.
  - by vm_compute.
  - by vm_compute.
  - apply boot_ready.
  - apply Nat.leb_le. by vm_compute.
  - by vm_compute.
  - exists c, k', w'. split_and!; [exact E|by rewrite (sw_queue _ _ _ _ _ _ _ _ _ _ Hs)|done|by rewrite (sw_files _ _ _ _ _ _ _ _ _ _ Hs)].
Defined.

End Spawn.
