(* ===== verification/Menu.v ===== *)
(** * Running processes from the boot menu

    Models [run_process_as_kthread] and [run_two_processes] of
    [src/src/kernel_main.rs]: the program of the archive is spawned once or
    twice and the scheduler started.  The theorem composes the loader, the
    address spaces and the scheduler. *)

From S2P Require Import Prelude Bytes Memory PageAllocator PageMapper Dtb KernelMap UserMem Uaccess Space File Ramfs Vfs Elf Syscall Thread Loader Move LoaderInv Spawn.

Module Menu.
Import Pte Mapper UMem Ua Space Fl Vfs Elf Tf Load Move LoadInv Spawn.

(** "/prog_example" *)
Definition PROGRAM : list Z := lit "/prog_example".

Section menu.
Context {W F A : Type} {FA : FrameAllocator A}.
Context (vfs_open : W -> list Z -> outcome (result F Error * W))
  (vfs_read : F -> Z -> outcome (result (list Z) Error * F)) (vfs_seek : F -> SeekFrom -> outcome (result unit Error * F)).
Notation world := (@Kmap.world A).

(** The machine once the scheduler runs; [None] is the loop that waits for
    interrupts after an error. *)
Definition machine : Type := option (list (@Context F) * W * Thr.kernel * world).

Definition run_process_as_kthread (entry buf ptr : Z) (v : W) (k : Thr.kernel) (w : world) : outcome machine :=
  let! '(r, v, k, w) := spawn_process vfs_open vfs_read vfs_seek PROGRAM entry buf ptr v k w in
  match r with
  | Err _ => Ret None
  | Ok (_, c) => let! k := Thr.start_scheduler k in Ret (Some ([c], v, k, w))
  end.

Definition run_two_processes (entry buf ptr buf' ptr' : Z) (v : W) (k : Thr.kernel) (w : world) : outcome machine :=
  let! '(r, v, k, w) := spawn_process vfs_open vfs_read vfs_seek PROGRAM entry buf ptr v k w in
  match r with
  | Err _ => Ret None
  | Ok (_, c) =>
      let! '(r, v, k, w) := spawn_process vfs_open vfs_read vfs_seek PROGRAM entry buf' ptr' v k w in
      match r with
      | Err _ => Ret None
      | Ok (_, c') => let! k := Thr.start_scheduler k in Ret (Some ([c; c'], v, k, w))
      end
  end.

(** ** What comes up *)
Context (data : list Z) (sok : F -> Prop) (content : F -> list Z) {SF : SeekFile vfs_read vfs_seek data sok content}.

(** The file system gives the program and then the console three times. *)
Record opens (v : W) (f c0 c1 c2 : F) (v' : W) : Prop := {
  op_program : exists v1 v2 v3, vfs_open v PROGRAM = Ret (Ok f, v1) /\ vfs_open v1 CONSOLE = Ret (Ok c0, v2) /\ vfs_open v2 CONSOLE = Ret (Ok c1, v3) /\
    vfs_open v3 CONSOLE = Ret (Ok c2, v');
  op_sound : sok f /\ content f = data }.

(** The image of the program in the space [Q]. *)
Definition image (w : world) (Q : Z) : Prop := forall ph, ph ∈ loads (phdrs data) ->
  load_bytes (Kmap.mem w) Q (p_vaddr ph) (Z.to_nat (p_memsz ph)) = Ok (seg_image data ph).

(** The first of the queue runs, the others wait. *)
Definition running (q : list Z) (k : Thr.kernel) : Prop :=
  match q with
  | [] => False
  | i :: q => Thr.CURRENT_THREAD k = Some i /\ Thr.queue k = q /\ exists t, Thr.table k !! i = Some t /\ Thr.state t = Thr.Running /\ Thr.regs (Thr.hart k) = Thr.context t /\ Thr.pc (Thr.hart k) = Thr.ra (Thr.context t)
  end.

Lemma start_ok k q : Thr.queue k = q -> q <> [] -> Forall (fun i => is_Some (Thr.table k !! i)) q -> exists k', Thr.start_scheduler k = Ret k' /\ running q k'.
Proof.
  intros Hq Hne Hall. destruct q as [|i q]; [done|]. apply Forall_cons in Hall as [[t Ht] _]. unfold Thr.start_scheduler, Thr.schedule, Thr.dequeue_ready.
  unfold Thr.queue in Hq. rewrite Hq. unfold Thr.get_thread. cbn [Thr.thread_table]. unfold Thr.table in Ht. rewrite Ht. cbn [expect obind].
  eexists. split; [done|]. unfold running. split; [by destruct (Thr.process _)|]. split; [by destruct (Thr.process _)|]. exists (Thr.with_state Thr.Running t).
  split_and!; [|done|by destruct (Thr.process _)|by destruct (Thr.process _)].
  destruct (Thr.process _); unfold Thr.table; cbn; by rewrite lookup_insert_eq.
Qed.

(** Spawning once, from [opens]. *)
Lemma spawn_ok entry buf ptr v (k : Thr.kernel) (w : world) f c0 c1 c2 v' : opens v f c0 c1 c2 v' -> elf_ok data -> ready w ->
  (3 * total_pages (loads (phdrs data)) + 14 <= length (free_frames (Kmap.frames w)))%nat -> 0 <= buf /\ buf + Thr.STACK_SIZE < USIZE ->
  Forall (fun i => is_Some (Thr.table k !! i)) (Thr.queue k) ->
  exists c k' w', spawn_process vfs_open vfs_read vfs_seek PROGRAM entry buf ptr v k w = Ret (Ok (Thr.next_id (Thr.manager k), c), v', k', w') /\
    image w' (Sys.root_table (ctx c)) /\ pc (frame c) = e_entry (header data) /\ length (Sys.files (ctx c)) = 3%nat /\
    Thr.queue k' = Thr.queue k ++ [Thr.next_id (Thr.manager k)] /\ Forall (fun i => is_Some (Thr.table k' !! i)) (Thr.queue k') /\
    Thr.next_id (Thr.manager k') = (Thr.next_id (Thr.manager k) + 1) mod USIZE /\
    ready w' /\ resident w' (Sys.root_table (ctx c)) /\ kept w w' /\ (forall Q, resident w Q -> separate w' (Sys.root_table (ctx c)) Q) /\
    (length (free_frames (Kmap.frames w)) <= length (free_frames (Kmap.frames w')) + (3 * total_pages (loads (phdrs data)) + 14))%nat.
Proof.
  intros [(v1 & v2 & v3 & O1 & O2 & O3 & O4) [Hf Hc]] He Hr Hfree Hbuf Hq.
  destruct (spawn_process_ok vfs_open vfs_read vfs_seek data sok content PROGRAM entry buf ptr v k w f v1 c0 v2 c1 v3 c2 v' O1 Hf Hc He O2 O3 O4 Hr Hfree Hbuf)
    as (c & k' & w' & E & [T1 T2 T3 T4 _ T5 _] & H2 & H3 & H4 & H5 & H6 & H7).
  exists c, k', w'. split_and!; try done.
  - by rewrite T3.
  - rewrite T2, T1. apply Forall_app. split; [|apply Forall_singleton; rewrite lookup_insert_eq; by eexists].
    eapply Forall_impl; [exact Hq|]. cbn beta. intros i Hi. destruct (decide (i = Thr.next_id (Thr.manager k))) as [->|Hn]; [rewrite lookup_insert_eq; by eexists|by rewrite lookup_insert_ne].
Qed.

(** Two processes from the menu: both are loaded, at the entry point with the
    image of the program in their own memory and the console as their files;
    they have no page in common; and the scheduler runs the first thread of the
    queue, with the two processes at its end. *)
Theorem run_two_processes_spec entry buf ptr buf' ptr' v (k : Thr.kernel) (w : world) f c0 c1 c2 v' f' d0 d1 d2 v''
  (He : elf_ok data) (Ho : opens v f c0 c1 c2 v') (Ho' : opens v' f' d0 d1 d2 v'') (Hr : ready w)
  (Hfree : (2 * (3 * total_pages (loads (phdrs data)) + 14) <= length (free_frames (Kmap.frames w)))%nat)
  (Hbuf : 0 <= buf /\ buf + Thr.STACK_SIZE < USIZE) (Hbuf' : 0 <= buf' /\ buf' + Thr.STACK_SIZE < USIZE)
  (Hq : Forall (fun i => is_Some (Thr.table k !! i)) (Thr.queue k)) :
  exists c c' k' w', run_two_processes entry buf ptr buf' ptr' v k w = Ret (Some ([c; c'], v'', k', w')) /\
    Forall (fun c => image w' (Sys.root_table (ctx c)) /\ resident w' (Sys.root_table (ctx c)) /\ pc (frame c) = e_entry (header data) /\ length (Sys.files (ctx c)) = 3%nat) [c; c'] /\
    separate w' (Sys.root_table (ctx c')) (Sys.root_table (ctx c)) /\
    running (Thr.queue k ++ [Thr.next_id (Thr.manager k); (Thr.next_id (Thr.manager k) + 1) mod USIZE]) k'.
Proof.
  unfold run_two_processes. destruct (spawn_ok entry buf ptr v k w f c0 c1 c2 v' Ho He Hr ltac:(lia) Hbuf Hq) as (c & k1 & w1 & -> & I1 & P1 & F1 & Q1 & A1 & N1 & R1 & Re1 & _ & _ & L1). cbn [obind].
  destruct (spawn_ok entry buf' ptr' v' k1 w1 f' d0 d1 d2 v'' Ho' He R1 ltac:(lia) Hbuf' A1) as (c' & k2 & w2 & -> & I2 & P2 & F2 & Q2 & A2 & N2 & R2 & Re2 & K2 & S2 & L2). cbn [obind].
  rewrite Q1, N1, <- app_assoc in Q2. cbn [app] in Q2. destruct (start_ok k2 _ Q2) as (k3 & -> & Hrun); [by destruct (Thr.queue k)|by rewrite <- Q2|]. cbn [obind].
  exists c, c', k3, w2. split; [done|]. destruct (K2 _ Re1) as (Re1' & _ & Hld). split_and!; [|by apply S2|done].
  repeat apply Forall_cons_2; [|done|apply Forall_nil_2]. split_and!; [|done|done|done]. intros ph Hph. rewrite Hld; [by apply I1|..].
  - pose proof (proj1 (Forall_forall _ _) (eo_segs data He) ph Hph) as [_ H1 H2 H3 _]. lia.
  - pose proof (proj1 (Forall_forall _ _) (eo_segs data He) ph Hph) as [_ H1 H2 H3 _]. change (2 ^ 30) with 1073741824 in H3. unfold USER_END. change (2 ^ 38) with 274877906944. lia.
Qed.

(** One process. *)
Theorem run_process_spec entry buf ptr v (k : Thr.kernel) (w : world) f c0 c1 c2 v'
  (He : elf_ok data) (Ho : opens v f c0 c1 c2 v') (Hr : ready w)
  (Hfree : (3 * total_pages (loads (phdrs data)) + 14 <= length (free_frames (Kmap.frames w)))%nat)
  (Hbuf : 0 <= buf /\ buf + Thr.STACK_SIZE < USIZE) (Hq : Forall (fun i => is_Some (Thr.table k !! i)) (Thr.queue k)) :
  exists c k' w', run_process_as_kthread entry buf ptr v k w = Ret (Some ([c], v', k', w')) /\ image w' (Sys.root_table (ctx c)) /\
    pc (frame c) = e_entry (header data) /\ running (Thr.queue k ++ [Thr.next_id (Thr.manager k)]) k'.
Proof.
  unfold run_process_as_kthread. destruct (spawn_ok entry buf ptr v k w f c0 c1 c2 v' Ho He Hr Hfree Hbuf Hq) as (c & k1 & w1 & -> & I1 & P1 & F1 & Q1 & A1 & N1 & R1 & Re1 & _ & _ & L1). cbn [obind].
  destruct (start_ok k1 _ Q1) as (k2 & -> & Hrun); [by destruct (Thr.queue k)|by rewrite <- Q1|]. cbn [obind]. by exists c, k2, w1.
Qed.
End menu.

(** ** An example over the RAM file system *)
Definition menu_files : Ram.Ramfs := Ram.mkRamfs
  {[ 0 := Ram.mkInode 1 Directory 0 None (Ram.Dir [(lit "prog_example", 1); (lit "dev", 2)]); 1 := demo_file;
     2 := Ram.mkInode 2 Directory 0 None (Ram.Dir [(lit "console", 3)]);
     3 := Ram.mkInode 3 CharDevice 0 (Some (5, 1)) Ram.CharDev ]} 0 4 4.

Definition console_file : Ram.Inode * Z := (Ram.mkInode 3 CharDevice 0 (Some (5, 1)) Ram.CharDev, 0).

Lemma menu_opens : opens Sys.k_open demo_elf (fun f => f.1 = demo_file /\ 0 <= f.2 <= Z.of_nat (length demo_elf)) (fun f => drop (Z.to_nat f.2) demo_elf)
  menu_files (demo_file, 0) console_file console_file console_file menu_files.
Proof. split; [exists menu_files, menu_files, menu_files; split_and!; by vm_compute|]. split; [split; by vm_compute|done]. Qed.

Lemma run_two_processes_spec_witness : exists c c' k' w',
  run_two_processes Sys.k_open ram_read ram_seek 0x8020_0000 0x9000_0000 0x9001_0000 0x9002_0000 0x9003_0000 menu_files boot_threads boot_world
    = Ret (Some ([c; c'], menu_files, k', w')) /\ separate w' (Sys.root_table (ctx c')) (Sys.root_table (ctx c)) /\ running [1; 2] k'.
Proof.
  destruct (run_two_processes_spec Sys.k_open ram_read ram_seek demo_elf _ _ 0x8020_0000 0x9000_0000 0x9001_0000 0x9002_0000 0x9003_0000 menu_files boot_threads boot_world
    _ _ _ _ _ _ _ _ _ _ demo_elf_ok menu_opens menu_opens boot_ready) as (c & c' & k' & w' & E & _ & Hs & Hr).
  - apply Nat.leb_le. by vm_compute.
  - by vm_compute.
  - by vm_compute.
  - apply Forall_nil_2.
  - exists c, c', k', w'. split_and!; [exact E|exact Hs|exact Hr].
Defined.

Lemma run_process_spec_witness : exists c k' w',
  run_process_as_kthread Sys.k_open ram_read ram_seek 0x8020_0000 0x9000_0000 0x9001_0000 menu_files boot_threads boot_world = Ret (Some ([c], menu_files, k', w')) /\ running [1] k'.
Proof.
  destruct (run_process_spec Sys.k_open ram_read ram_seek demo_elf _ _ 0x8020_0000 0x9000_0000 0x9001_0000 menu_files boot_threads boot_world
    _ _ _ _ _ demo_elf_ok menu_opens boot_ready) as (c & k' & w' & E & _ & _ & Hr).
  - apply Nat.leb_le. by vm_compute.
  - by vm_compute.
  - apply Forall_nil_2.
  - exists c, k', w'. split; [exact E|exact Hr].
Defined.

End Menu.

