(* ===== verification/Plic.v ===== *)
(** * Device registers and the interrupt controller

    [Mm] is the access to device registers: volatile reads and writes of a
    width at an address, over any device.  [Plic] models
    [src/src/drivers/plic.rs] on top of it: the table of handlers, claiming,
    dispatching and completing an interrupt, and enabling one.  What the driver
    relies on of the hardware is the class [PlicDevice], which states the
    registers as the RISC-V PLIC specification describes them. *)

From S2P Require Import Prelude Memory Bytes Dtb.

Module Mm.

(** [mmio_read width address] and [mmio_write width address value]. *)
Class Mmio (D : Type) := {
  mmio_read : Z -> Z -> D -> Z * D;
  mmio_write : Z -> Z -> Z -> D -> D }.

End Mm.

Module Plic.
Import Mm.

Definition QEMU_PLIC_BASE : Z := 0x0c00_0000.
Definition NANO_PLIC_BASE : Z := 0x7000_0000.

Definition PRIORITY_OFFSET : Z := 0x0000.
Definition ENABLE_OFFSET : Z := 0x2000.
Definition PLIC_CONTEXT_BASE : Z := 0x200000.
Definition PLIC_CONTEXT_STRIDE : Z := 0x1000.
Definition CLAIM_COMPLETE_OFFSET : Z := 0x4.
Definition PLIC_S_MODE_CONTEXT_ID : Z := 1.
Definition PLIC_S_CONTEXT : Z := PLIC_CONTEXT_BASE + PLIC_CONTEXT_STRIDE * PLIC_S_MODE_CONTEXT_ID.
Definition PLIC_ENABLE_CONTEXT_STRIDE : Z := 0x80.
Definition MAX_IRQ : Z := 64.

Section plic.
Context {D : Type} {MD : Mmio D}.
(** The state the handlers work on. *)
Context {S : Type}.

(** The statics of the module; a null handler is 0. *)
Record plic := mkPlic { PLIC_BASE : Z; IRQ_HANDLERS : list Z; dev : D; rest : S }.

Definition with_dev (d : D) (p : plic) : plic := mkPlic (PLIC_BASE p) (IRQ_HANDLERS p) d (rest p).

Definition init (cpu : Fdt.CpuType) (p : plic) : outcome plic :=
  let plic_base := match cpu with Fdt.Qemu => QEMU_PLIC_BASE | Fdt.LicheeRVNano => NANO_PLIC_BASE | _ => QEMU_PLIC_BASE end in
  let p := mkPlic plic_base (IRQ_HANDLERS p) (dev p) (rest p) in
  let! threshold_reg := uadd plic_base PLIC_S_CONTEXT in
  Ret (with_dev (mmio_write 4 threshold_reg 0 (dev p)) p).

Definition claim (p : plic) : outcome (Z * plic) :=
  if PLIC_BASE p =? 0 then Ret (0, p)
  else
    let! a := uadd (PLIC_BASE p) PLIC_S_CONTEXT in
    let! claim_reg := uadd a CLAIM_COMPLETE_OFFSET in
    let '(irq, d) := mmio_read 4 claim_reg (dev p) in
    Ret (irq, with_dev d p).

Definition complete (irq : Z) (p : plic) : outcome plic :=
  if PLIC_BASE p =? 0 then Ret p
  else
    let! a := uadd (PLIC_BASE p) PLIC_S_CONTEXT in
    let! complete_reg := uadd a CLAIM_COMPLETE_OFFSET in
    Ret (with_dev (mmio_write 4 complete_reg irq (dev p)) p).

(** [call] runs the function at an address with the number of an interrupt. *)
Definition dispatch_irq (call : Z -> Z -> S * D -> outcome (S * D)) (p : plic) : outcome plic :=
  let! '(irq, p) := claim p in
  if irq =? 0 then Ret p
  else if MAX_IRQ <=? irq then complete irq p
  else
    let! handler_ptr := expect (IRQ_HANDLERS p !! Z.to_nat irq) in
    let! p := (if negb (handler_ptr =? 0) then
                 let! '(s, d) := call handler_ptr irq (rest p, dev p) in
                 Ret (mkPlic (PLIC_BASE p) (IRQ_HANDLERS p) d s)
               else Ret p) in
    complete irq p.

(** The handlers live in a static array; an index out of it panics. *)
Definition set_handler (irq handler : Z) (p : plic) : outcome plic :=
  if irq <? Z.of_nat (length (IRQ_HANDLERS p))
  then Ret (mkPlic (PLIC_BASE p) (<[Z.to_nat irq := handler]> (IRQ_HANDLERS p)) (dev p) (rest p)) else Panic.

Definition register_irq (irq_id handler : Z) (p : plic) : outcome plic :=
  let irq := irq_id in
  if MAX_IRQ <=? irq then Ret p
  else
    let! p := set_handler irq handler p in
    let base := PLIC_BASE p in
    if base =? 0 then Ret p
    else
      let! a := uadd base PRIORITY_OFFSET in
      let! off := umul irq 4 in
      let! priority_reg := uadd a off in
      let d := mmio_write 4 priority_reg 1 (dev p) in
      let! e := uadd base ENABLE_OFFSET in
      let! enable_base := uadd e (PLIC_ENABLE_CONTEXT_STRIDE * PLIC_S_MODE_CONTEXT_ID) in
      let word_index := irq / 32 in
      let irq_bit := Z.shiftl 1 (irq mod 32) in
      let! off := umul word_index 4 in
      let! enable_word := uadd enable_base off in
      let '(current, d) := mmio_read 4 enable_word d in
      let d := mmio_write 4 enable_word (Z.lor current irq_bit) d in
      Ret (with_dev d p).

(** ** The hardware *)
Class PlicDevice (base : Z) := {
  enabled : D -> Z -> bool;      (* in the supervisor context of hart 0 *)
  prio : D -> Z -> Z;
  serving : D -> list Z;         (* claimed and not yet completed *)
  pd_claim : forall d irq d', mmio_read 4 (base + 0x201004) d = (irq, d') ->
    0 <= irq /\ serving d' = (if irq =? 0 then serving d else irq :: serving d) /\
    (irq <> 0 -> enabled d irq = true) /\ (forall i, enabled d' i = enabled d i) /\ (forall i, prio d' i = prio d i);
  pd_complete : forall d irq l, serving d = irq :: l ->
    let d' := mmio_write 4 (base + 0x201004) irq d in
    serving d' = l /\ (forall i, enabled d' i = enabled d i) /\ (forall i, prio d' i = prio d i);
  pd_priority : forall d irq v, 0 <= irq < 1024 ->
    let d' := mmio_write 4 (base + irq * 4) v d in
    (forall i, prio d' i = if i =? irq then v else prio d i) /\ (forall i, enabled d' i = enabled d i) /\ serving d' = serving d;
  pd_enable_read : forall d k v d', 0 <= k < 32 -> mmio_read 4 (base + 0x2080 + k * 4) d = (v, d') ->
    (forall i, i / 32 = k -> Z.testbit v (i mod 32) = enabled d i) /\ (forall i, enabled d' i = enabled d i) /\
    (forall i, prio d' i = prio d i) /\ serving d' = serving d;
  pd_enable_write : forall d k v, 0 <= k < 32 ->
    let d' := mmio_write 4 (base + 0x2080 + k * 4) v d in
    (forall i, enabled d' i = if i / 32 =? k then Z.testbit v (i mod 32) else enabled d i) /\
    (forall i, prio d' i = prio d i) /\ serving d' = serving d }.

Section device.
Context (base : Z) (Hbase : 0 < base < 2 ^ 32) {PD : PlicDevice base}.

(** The driver's state on an initialised controller. *)
Definition plic_ok (p : plic) : Prop := PLIC_BASE p = base /\ length (IRQ_HANDLERS p) = 64%nat.

(** [register_irq] enables exactly the interrupt it is given, with a priority
    that lets it through, and binds its handler; every other interrupt and its
    handler are as before. *)
Theorem register_irq_spec irq h p (Hp : plic_ok p) (Hirq : 0 < irq < MAX_IRQ) :
  exists p', register_irq irq h p = Ret p' /\ plic_ok p' /\ rest p' = rest p /\
    (forall i, enabled (dev p') i = (i =? irq) || enabled (dev p) i) /\
    (forall i, prio (dev p') i = if i =? irq then 1 else prio (dev p) i) /\ serving (dev p') = serving (dev p) /\
    (forall i, IRQ_HANDLERS p' !! i = if decide (i = Z.to_nat irq) then Some h else IRQ_HANDLERS p !! i).
Proof.
  destruct p as [b hs d s], Hp as [Hb Hl]. cbn [PLIC_BASE IRQ_HANDLERS dev rest] in *. subst b. unfold MAX_IRQ in Hirq.
  change (2 ^ 32) with 4294967296 in Hbase. unfold register_irq. unfold MAX_IRQ. rewrite (proj2 (Z.leb_gt _ _)) by lia.
  unfold set_handler. cbn [IRQ_HANDLERS PLIC_BASE dev rest]. rewrite Hl, (proj2 (Z.ltb_lt _ _)) by lia. cbn [obind PLIC_BASE dev].
  rewrite (proj2 (Z.eqb_neq _ _)) by lia. unfold PRIORITY_OFFSET, ENABLE_OFFSET, PLIC_ENABLE_CONTEXT_STRIDE, PLIC_S_MODE_CONTEXT_ID.
  repeat (rewrite ?umul_ok, ?uadd_ok by (unfold USIZE; lia); cbn [obind]).
  replace (base + 0 + irq * 4) with (base + irq * 4) by lia. replace (base + 0x2000 + 0x80 * 1 + irq / 32 * 4) with (base + 0x2080 + irq / 32 * 4) by lia.
  destruct (pd_priority d irq 1 ltac:(lia)) as (Hp1 & He1 & Hs1). set (d1 := mmio_write 4 _ 1 d) in *.
  destruct (mmio_read 4 _ d1) as [v d2] eqn:E2. destruct (pd_enable_read d1 (irq / 32) v d2 ltac:(lia) E2) as (Hv & He2 & Hp2 & Hs2).
  destruct (pd_enable_write d2 (irq / 32) (Z.lor v (Z.shiftl 1 (irq mod 32))) ltac:(lia)) as (He3 & Hp3 & Hs3). set (d3 := mmio_write 4 _ _ d2) in *.
  eexists. split; [reflexivity|]. cbn [with_dev dev rest IRQ_HANDLERS PLIC_BASE]. split_and!; [split; [done|cbn; by rewrite length_insert]|done| | |congruence|].
  - intros i. rewrite He3, <- He1, <- He2. destruct (Z.eqb_spec (i / 32) (irq / 32)) as [E|E].
    + rewrite Z.lor_spec, (Hv i E), He2, Z.shiftl_1_l, Z.pow2_bits_eqb by lia. rewrite orb_comm. f_equal.
      destruct (Z.eqb_spec (irq mod 32) (i mod 32)), (Z.eqb_spec i irq); try done; lia.
    + destruct (Z.eqb_spec i irq) as [->|]; [done|]. done.
  - intros i. by rewrite Hp3, Hp2, Hp1.
  - intros i. destruct (decide _) as [->|]; [apply list_lookup_insert_eq; lia|by apply list_lookup_insert_ne].
Qed.

(** Every interrupt that is claimed is completed: whether or not it is in
    range and has a handler, [dispatch_irq] leaves in service what was in
    service.  A registered handler is called with the number of the interrupt. *)
Theorem dispatch_irq_completes (call : Z -> Z -> S * D -> outcome (S * D)) p (Hp : plic_ok p)
  (Hcall : forall h irq s d, exists s' d', call h irq (s, d) = Ret (s', d') /\ serving d' = serving d) :
  exists p', dispatch_irq call p = Ret p' /\ plic_ok p' /\ serving (dev p') = serving (dev p) /\
    forall irq h, fst (mmio_read 4 (base + 0x201004) (dev p)) = irq -> 0 < irq < MAX_IRQ -> IRQ_HANDLERS p !! Z.to_nat irq = Some h -> h <> 0 ->
      exists d', call h irq (rest p, snd (mmio_read 4 (base + 0x201004) (dev p))) = Ret (rest p', d').
Proof.
  destruct p as [b hs d s], Hp as [Hb Hl]. cbn [PLIC_BASE IRQ_HANDLERS dev rest] in *. subst b. change (2 ^ 32) with 4294967296 in Hbase.
  assert (Hreg : forall (A : Type) (k : Z -> outcome A), (let! a := uadd base PLIC_S_CONTEXT in let! r := uadd a CLAIM_COMPLETE_OFFSET in k r) = k (base + 0x201004)).
  { intros A k. unfold PLIC_S_CONTEXT, PLIC_CONTEXT_BASE, PLIC_CONTEXT_STRIDE, PLIC_S_MODE_CONTEXT_ID, CLAIM_COMPLETE_OFFSET.
    rewrite !uadd_ok by (unfold USIZE; lia). cbn [obind]. rewrite uadd_ok by (unfold USIZE; lia). cbn [obind]. f_equal. lia. }
  unfold dispatch_irq, claim, complete. cbn [PLIC_BASE dev]. rewrite (proj2 (Z.eqb_neq base 0)) by lia. rewrite Hreg.
  destruct (mmio_read 4 (base + 0x201004) d) as [irq d1] eqn:E1. destruct (pd_claim d irq d1 E1) as (H0 & Hs1 & _). cbn [obind fst snd].
  destruct (Z.eqb_spec irq 0) as [->|Hne].
  { eexists. split; [reflexivity|]. split_and!; [done|done|]. intros ? ? <- ?. lia. }
  unfold MAX_IRQ in *. cbn [PLIC_BASE dev with_dev IRQ_HANDLERS rest].
  destruct (Z.leb_spec 64 irq).
  { rewrite (proj2 (Z.eqb_neq base 0)), Hreg by lia. eexists. split; [reflexivity|]. destruct (pd_complete d1 irq _ Hs1) as (Hs2 & _).
    split_and!; [done|done|]. intros ? ? <- ?. lia. }
  destruct (lookup_lt_is_Some_2 hs (Z.to_nat irq)) as [h Hh]; [lia|]. rewrite Hh. cbn [expect obind].
  destruct (Z.eqb_spec h 0) as [->|Hh0]; cbn [negb].
  - cbn [obind PLIC_BASE dev with_dev]. rewrite (proj2 (Z.eqb_neq base 0)), Hreg by lia. eexists. split; [reflexivity|].
    destruct (pd_complete d1 irq _ Hs1) as (Hs2 & _). split_and!; [done|done|]. intros ? h' <- _ Hh' Hn. congruence.
  - destruct (Hcall h irq s d1) as (s' & d2 & Ec & Hs2). rewrite Ec. cbn [obind PLIC_BASE dev with_dev]. rewrite (proj2 (Z.eqb_neq base 0)), Hreg by lia.
    rewrite Hs1 in Hs2. destruct (pd_complete d2 irq _ Hs2) as (Hs3 & _). eexists. split; [reflexivity|]. split_and!; [done|done|].
    intros ? h' <- _ Hh' _. rewrite Hh in Hh'. injection Hh' as <-. exists d2. exact Ec.
Qed.
End device.
End plic.

(** ** A simulated controller *)
Record sim := mkSim { pending : list Z; en : Z; pr : Z -> Z; srv : list Z }.

Definition sim_ready (d : sim) (i : Z) : bool := (0 <? i) && Z.testbit (en d) i.

Definition sim_read (w addr : Z) (d : sim) : Z * sim :=
  let a := addr - QEMU_PLIC_BASE in
  if a =? 0x201004 then
    match list_find (fun i => sim_ready d i = true) (pending d) with
    | Some (n, i) => (i, mkSim (delete n (pending d)) (en d) (pr d) (i :: srv d))
    | None => (0, d)
    end
  else if (0x2080 <=? a) && (a <? 0x2100) then (Z.land (Z.shiftr (en d) (32 * ((a - 0x2080) / 4))) (Z.ones 32), d)
  else (0, d).

Definition sim_write (w addr v : Z) (d : sim) : sim :=
  let a := addr - QEMU_PLIC_BASE in
  if a =? 0x201004 then
    match srv d with i :: l => if i =? v then mkSim (pending d) (en d) (pr d) l else d | [] => d end
  else if (0x2080 <=? a) && (a <? 0x2100) then
    let s := 32 * ((a - 0x2080) / 4) in
    mkSim (pending d) (Z.lor (Z.ldiff (en d) (Z.shiftl (Z.ones 32) s)) (Z.shiftl (Z.land v (Z.ones 32)) s)) (pr d) (srv d)
  else if (0 <=? a) && (a <? 0x1000) then mkSim (pending d) (en d) (fun i => if i =? a / 4 then v else pr d i) (srv d)
  else d.

#[local] Instance sim_mmio : Mmio sim := { mmio_read := sim_read; mmio_write := sim_write }.

Lemma sim_word e s v i : 0 <= s -> 0 <= i -> i / 32 = s -> let m := Z.shiftl (Z.ones 32) (32 * s) in
  Z.testbit (Z.lor (Z.ldiff e m) (Z.shiftl (Z.land v (Z.ones 32)) (32 * s))) i = Z.testbit v (i mod 32).
Proof.
  intros Hs Hi E m. rewrite Z.lor_spec, Z.ldiff_spec, !Z.shiftl_spec, Z.land_spec, Z.ones_spec_low, andb_true_r by lia.
  unfold m. rewrite Z.shiftl_spec, Z.ones_spec_low, andb_false_r by lia. cbn [orb]. f_equal. lia.
Qed.

Lemma sim_word_other e s v i : 0 <= s -> i / 32 <> s -> let m := Z.shiftl (Z.ones 32) (32 * s) in
  Z.testbit (Z.lor (Z.ldiff e m) (Z.shiftl (Z.land v (Z.ones 32)) (32 * s))) i = Z.testbit e i.
Proof.
  intros Hs E m. destruct (decide (0 <= i)) as [Hi|Hi]; [|by rewrite !Z.testbit_neg_r by lia].
  assert (Hz : Z.testbit (Z.ones 32) (i - 32 * s) = false) by (destruct (decide (0 <= i - 32 * s)); [apply Z.ones_spec_high; lia|apply Z.testbit_neg_r; lia]).
  rewrite Z.lor_spec, Z.ldiff_spec, !Z.shiftl_spec, Z.land_spec by lia. unfold m. rewrite Z.shiftl_spec, Hz by lia.
  by rewrite andb_true_r, andb_false_r, orb_false_r.
Qed.

#[local, refine] Instance sim_plic : PlicDevice QEMU_PLIC_BASE := {|
  enabled := fun d i => Z.testbit (en d) i; prio := pr; serving := srv |}.
Proof.
  all: unfold mmio_read, mmio_write; cbn [sim_mmio]; unfold sim_read, sim_write.
  - intros d irq d'. replace (QEMU_PLIC_BASE + 0x201004 - QEMU_PLIC_BASE) with 0x201004 by lia. cbn [Z.eqb Pos.eqb].
    destruct (list_find _ _) as [[n i]|] eqn:E; [|intros [= <- <-]; done]. apply list_find_Some in E as (_ & E & _).
    unfold sim_ready in E. apply andb_prop in E as [E1%Z.ltb_lt E2]. intros [= <- <-]. cbn. rewrite (proj2 (Z.eqb_neq _ _)) by lia.
    split_and!; [lia|done|done|done|done].
  - intros d irq l E. replace (QEMU_PLIC_BASE + 0x201004 - QEMU_PLIC_BASE) with 0x201004 by lia. cbn [Z.eqb Pos.eqb]. rewrite E, Z.eqb_refl. done.
  - intros d irq v Hi. replace (QEMU_PLIC_BASE + irq * 4 - QEMU_PLIC_BASE) with (irq * 4) by lia.
    rewrite (proj2 (Z.eqb_neq _ _)), (proj2 (Z.leb_gt 0x2080 _)), (proj2 (Z.leb_le 0 _)), (proj2 (Z.ltb_lt _ 0x1000)) by lia. cbn.
    by rewrite Z.div_mul by lia.
  - intros d k v d' Hk. replace (QEMU_PLIC_BASE + 0x2080 + k * 4 - QEMU_PLIC_BASE) with (0x2080 + k * 4) by lia.
    rewrite (proj2 (Z.eqb_neq _ _)), (proj2 (Z.leb_le 0x2080 _)), (proj2 (Z.ltb_lt _ 0x2100)) by lia. cbn [andb].
    replace ((0x2080 + k * 4 - 0x2080) / 4) with k by lia. intros [= <- <-]. split_and!; try done.
    intros i <-. rewrite Z.land_spec, Z.shiftr_spec, Z.ones_spec_low, andb_true_r by lia. f_equal. lia.
  - intros d k v Hk. replace (QEMU_PLIC_BASE + 0x2080 + k * 4 - QEMU_PLIC_BASE) with (0x2080 + k * 4) by lia.
    rewrite (proj2 (Z.eqb_neq _ _)), (proj2 (Z.leb_le 0x2080 _)), (proj2 (Z.ltb_lt _ 0x2100)) by lia. cbn [andb].
    replace ((0x2080 + k * 4 - 0x2080) / 4) with k by lia. cbn [en pr srv]. split_and!; [|done|done].
    intros i. destruct (Z.eqb_spec (i / 32) k) as [E|E]; [apply sim_word; lia|by apply sim_word_other; [lia|]].
Defined.

Definition demo_plic : plic := mkPlic QEMU_PLIC_BASE (replicate 64 0) (mkSim [10; 3] 0 (fun _ => 0) []) (@nil Z).

(** The handlers of the example write down who was called. *)
Definition log_call (h irq : Z) (sd : list Z * sim) : outcome (list Z * sim) := Ret (h :: irq :: sd.1, sd.2).

Lemma register_irq_spec_witness : exists p', register_irq 10 0x8020_1234 demo_plic = Ret p' /\
  Z.testbit (en (dev p')) 10 = true /\ Z.testbit (en (dev p')) 3 = false.
Proof.
  destruct (register_irq_spec QEMU_PLIC_BASE ltac:(done) 10 0x8020_1234 demo_plic) as (p' & E & _ & _ & He & _); [done|done|].
  exists p'. split; [exact E|]. split; [exact (He 10)|exact (He 3)].
Defined.

Definition demo_plic' : plic := match register_irq 10 0x8020_1234 demo_plic with Ret p => p | _ => demo_plic end.

Lemma dispatch_irq_completes_witness : exists p', dispatch_irq log_call demo_plic' = Ret p' /\ srv (dev p') = [].
Proof.
  destruct (dispatch_irq_completes QEMU_PLIC_BASE ltac:(done) log_call demo_plic') as (p' & E & _ & Hs & _); [done| |].
  - intros h irq s d. by eexists _, _.
  - exists p'. split; [exact E|exact Hs].
Defined.

End Plic.
