(* ===== verification/Uart.v ===== *)
(** * The console: UART driver and writer thread

    [Uart] models [src/src/drivers/uart.rs]: the registers of a 16550 at the
    spacing and width of the machine, polled and interrupt-driven output.
    [Writer] models [src/src/kthread/uart_writer.rs]: the ring between the
    writer thread and the transmit interrupt, the conversion of line feeds, and
    filling the FIFO.  The kernel runs its threads with interrupts off (they
    are on in user mode, in the idle loop and in a window of [yield_now]), so
    an interrupt finds the writer thread waiting: in [receive_message] or
    blocked for space.

    What the driver relies on of the hardware is the class [Uart16550], as the
    data sheet of the 16550 describes it: the transmit FIFO has 16 places, it
    is empty when the line status says so, and a byte written to a full FIFO is
    lost. *)

From S2P Require Import Prelude Memory Bytes Dtb Collections Plic.

Module Uart.
Import Mm.

Record UartConfig := mkConfig { base : Z; reg_shift : Z; reg_io_width : Z }.

Definition QEMU_UART : UartConfig := mkConfig 0x1000_0000 0 1.
Definition NANO_UART : UartConfig := mkConfig 0x0414_0000 2 4.
Definition QEMU_UART_IRQ : Z := 10.
Definition NANO_UART_IRQ : Z := 0x2c.
Definition TX_FIFO_SIZE : nat := 16.

Definition THR_OFFSET : Z := 0.
Definition RBR_OFFSET : Z := 0.
Definition IER_OFFSET : Z := 1.
Definition FCR_OFFSET : Z := 2.
Definition IIR_OFFSET : Z := 2.
Definition LSR_OFFSET : Z := 5.
Definition LSR_THRE : Z := Z.shiftl 1 5.
Definition LSR_DR : Z := Z.shiftl 1 0.
Definition IER_THRE : Z := Z.shiftl 1 1.
Definition IER_RDA : Z := Z.shiftl 1 0.
Definition FCR_FIFO_ENABLE : Z := 0x01.
Definition FCR_RX_RESET : Z := 0x02.
Definition FCR_TX_RESET : Z := 0x04.
Definition IIR_NO_INTERRUPT : Z := 0x01.
Definition IIR_ID_MASK : Z := 0x0E.
Definition IIR_RX_DATA : Z := 0x04.
Definition IIR_TX_EMPTY : Z := 0x02.
Definition IIR_RX_TIMEOUT : Z := 0x0C.

Section driver.
Context {D : Type} {MD : Mmio D}.

Definition reg_addr (u : UartConfig) (n : Z) : outcome Z := uadd (base u) (Z.shiftl n (reg_shift u)).

Definition read_reg (u : UartConfig) (offset : Z) (d : D) : outcome (Z * D) :=
  let! a := reg_addr u offset in
  if reg_io_width u =? 4 then let '(v, d) := mmio_read 4 a d in Ret (v mod 256, d)
  else Ret (mmio_read 1 a d).

Definition write_reg (u : UartConfig) (offset val : Z) (d : D) : outcome D :=
  let! a := reg_addr u offset in
  if reg_io_width u =? 4 then Ret (mmio_write 4 a val d) else Ret (mmio_write 1 a val d).

Definition tx_ready (u : UartConfig) (d : D) : outcome (bool * D) :=
  let! '(lsr, d) := read_reg u LSR_OFFSET d in
  Ret (negb (Z.land lsr LSR_THRE =? 0), d).

(** [while !uart.tx_ready() {}], at most [fuel] times. *)
Fixpoint wait_tx (fuel : nat) (u : UartConfig) (d : D) : outcome D :=
  match fuel with
  | O => Fault
  | S fuel =>
      let! '(ready, d) := tx_ready u d in
      if ready : bool then Ret d else wait_tx fuel u d
  end.

Definition write_byte_nowait (u : UartConfig) (byte : Z) (d : D) : outcome D := write_reg u THR_OFFSET byte d.

Definition write_byte (fuel : nat) (u : UartConfig) (byte : Z) (d : D) : outcome D :=
  let! d := wait_tx fuel u d in
  write_reg u THR_OFFSET byte d.

Fixpoint write_str (fuel : nat) (u : UartConfig) (s : list Z) (d : D) : outcome D :=
  match s with
  | [] => Ret d
  | byte :: s => let! d := write_byte fuel u byte d in write_str fuel u s d
  end.

Definition enable_tx_interrupt (u : UartConfig) (d : D) : outcome D :=
  let! '(current, d) := read_reg u IER_OFFSET d in
  write_reg u IER_OFFSET (Z.lor current IER_THRE) d.

(** [!IER_THRE] on a [u8] is [0xfd]. *)
Definition disable_tx_interrupt (u : UartConfig) (d : D) : outcome D :=
  let! '(current, d) := read_reg u IER_OFFSET d in
  write_reg u IER_OFFSET (Z.land current (255 - IER_THRE)) d.

Definition enable_rx_interrupt (u : UartConfig) (d : D) : outcome D :=
  let! '(current, d) := read_reg u IER_OFFSET d in
  write_reg u IER_OFFSET (Z.lor current IER_RDA) d.

Definition read_byte (u : UartConfig) (d : D) : outcome (option Z * D) :=
  let! '(lsr, d) := read_reg u LSR_OFFSET d in
  if negb (Z.land lsr LSR_DR =? 0) then let! '(b, d) := read_reg u RBR_OFFSET d in Ret (Some b, d) else Ret (None, d).

(** The configuration [init] stores in the statics, with the interrupt it
    registers; and what it does to the device. *)
Definition config_of (cpu : Fdt.CpuType) : UartConfig * Z :=
  match cpu with Fdt.LicheeRVNano => (NANO_UART, NANO_UART_IRQ) | _ => (QEMU_UART, QEMU_UART_IRQ) end.

Definition init {S : Type} (cpu : Fdt.CpuType) (handle_irq : Z) (p : @Plic.plic D S) : outcome (UartConfig * @Plic.plic D S) :=
  let '(config, irq) := config_of cpu in
  let! d := write_reg config FCR_OFFSET (Z.lor (Z.lor FCR_FIFO_ENABLE FCR_RX_RESET) FCR_TX_RESET) (Plic.dev p) in
  let! p := Plic.register_irq irq handle_irq (Plic.with_dev d p) in
  Ret (config, p).

(** [get]: the statics are zero before [init]. *)
Definition get (u : UartConfig) : outcome UartConfig :=
  let! _ := oassert (negb (base u =? 0)) in Ret u.

(** ** The hardware *)
Class Uart16550 (u : UartConfig) := {
  line : D -> list Z;         (* the bytes taken for transmission, in order *)
  room : D -> nat;            (* free places of the transmit FIFO *)
  ier : D -> Z;               (* the interrupt enable register *)
  ua_base : 0 < base u;
  ua_room : forall d, (room d <= 16)%nat;
  ua_ier : forall d, 0 <= ier d < 256;
  ua_lsr : forall d, exists v d', read_reg u LSR_OFFSET d = Ret (v, d') /\ line d' = line d /\ ier d' = ier d /\
    (room d <= room d')%nat /\ (Z.land v LSR_THRE <> 0 -> room d' = 16%nat);
  ua_thr : forall d n b, room d = S n -> exists d', write_reg u THR_OFFSET b d = Ret d' /\
    line d' = line d ++ [b] /\ ier d' = ier d /\ (n <= room d')%nat;
  ua_thr_full : forall d b, room d = O -> exists d', write_reg u THR_OFFSET b d = Ret d' /\ line d' = line d /\ ier d' = ier d;
  ua_ier_read : forall d, exists d', read_reg u IER_OFFSET d = Ret (ier d, d') /\ line d' = line d /\ ier d' = ier d /\ (room d <= room d')%nat;
  ua_ier_write : forall d v, 0 <= v < 256 -> exists d', write_reg u IER_OFFSET v d = Ret d' /\ line d' = line d /\ ier d' = v /\ (room d <= room d')%nat;
  (* time passes: the FIFO empties, and polling the line status ends *)
  tick : D -> D;
  ua_tick : forall d, line (tick d) = line d /\ ier (tick d) = ier d /\ (room d <= room (tick d))%nat;
  ua_empties : forall d, exists n, room (Nat.iter n tick d) = 16%nat;
  ua_progress : forall d, exists fuel d', wait_tx fuel u d = Ret d' }.

Context (u : UartConfig) {UD : Uart16550 u}.

Lemma wait_tx_ok fuel : forall d d', wait_tx fuel u d = Ret d' -> line d' = line d /\ ier d' = ier d /\ room d' = 16%nat.
Proof.
  induction fuel as [|fuel IH]; intros d d'; [done|]. cbn [wait_tx]. unfold tx_ready.
  destruct (ua_lsr d) as (v & d1 & -> & Hl & Hi & _ & Hr). cbn [obind].
  destruct (Z.eqb_spec (Z.land v LSR_THRE) 0) as [E|E]; cbn [negb].
  - intros H. destruct (IH _ _ H) as (-> & -> & ->). done.
  - intros [= <-]. by rewrite Hr.
Qed.

Lemma enable_tx_ok d : exists d', enable_tx_interrupt u d = Ret d' /\ line d' = line d /\ Z.testbit (ier d') 1 = true /\ (room d <= room d')%nat.
Proof.
  unfold enable_tx_interrupt. destruct (ua_ier_read d) as (d1 & -> & Hl1 & Hi1 & Hr1). cbn [obind]. pose proof (ua_ier d).
  destruct (ua_ier_write d1 (Z.lor (ier d) IER_THRE)) as (d2 & -> & Hl2 & Hi2 & Hr2); [by apply (lor_lt_pow2 8)|].
  exists d2. split_and!; [done|congruence| |lia]. rewrite Hi2, Z.lor_spec. by rewrite orb_true_r.
Qed.

Lemma disable_tx_ok d : exists d', disable_tx_interrupt u d = Ret d' /\ line d' = line d /\ Z.testbit (ier d') 1 = false /\ (room d <= room d')%nat.
Proof.
  unfold disable_tx_interrupt. destruct (ua_ier_read d) as (d1 & -> & Hl1 & Hi1 & Hr1). cbn [obind]. pose proof (ua_ier d).
  destruct (ua_ier_write d1 (Z.land (ier d) (255 - IER_THRE))) as (d2 & -> & Hl2 & Hi2 & Hr2); [apply (land_lt_pow2 8); [lia|done]|].
  exists d2. split_and!; [done|congruence| |lia]. rewrite Hi2, Z.land_spec. by rewrite andb_false_r.
Qed.

(** Polled output: every byte is taken, in order, if the FIFO empties in time. *)
Lemma write_str_out fuel s : forall d d', write_str fuel u s d = Ret d' -> line d' = line d ++ s.
Proof.
  induction s as [|b s IH]; intros d d'; cbn [write_str]; [intros [= <-]; by rewrite app_nil_r|].
  intros H. destruct (write_byte fuel u b d) as [d1| |] eqn:E1; [|done..]. cbn [obind] in H. unfold write_byte in E1.
  destruct (wait_tx fuel u d) as [d0| |] eqn:E0; [|done..]. cbn [obind] in E1. destruct (wait_tx_ok _ _ _ E0) as (Hl & _ & Hr).
  destruct (ua_thr d0 15 b Hr) as (d2 & E2 & Hl2 & _). rewrite E2 in E1. injection E1 as <-.
  by rewrite (IH _ _ H), Hl2, Hl, <- app_assoc.
Qed.
End driver.

End Uart.

Module Writer.
Import Mm Uart.

Definition TX_RING_SIZE : nat := 1024.

Section writer.
Context {D : Type} {MD : Mmio D}.

(** The statics of the module, the device and whether the writer thread is
    blocked. *)
Record tx := mkTx {
  TX_RING : Ring.ring; TX_ACTIVE : bool; WAITING_FOR_SPACE : bool; BUFFER_SPACE_AVAILABLE : bool; dev : D; blocked : bool }.

Definition with_ring (r : Ring.ring) (s : tx) : tx := mkTx r (TX_ACTIVE s) (WAITING_FOR_SPACE s) (BUFFER_SPACE_AVAILABLE s) (dev s) (blocked s).
Definition with_dev (d : D) (s : tx) : tx := mkTx (TX_RING s) (TX_ACTIVE s) (WAITING_FOR_SPACE s) (BUFFER_SPACE_AVAILABLE s) d (blocked s).
Definition set_active (b : bool) (s : tx) : tx := mkTx (TX_RING s) b (WAITING_FOR_SPACE s) (BUFFER_SPACE_AVAILABLE s) (dev s) (blocked s).
Definition set_waiting (b : bool) (s : tx) : tx := mkTx (TX_RING s) (TX_ACTIVE s) b (BUFFER_SPACE_AVAILABLE s) (dev s) (blocked s).
Definition set_space (b : bool) (s : tx) : tx := mkTx (TX_RING s) (TX_ACTIVE s) (WAITING_FOR_SPACE s) b (dev s) (blocked s).
Definition set_blocked (b : bool) (s : tx) : tx := mkTx (TX_RING s) (TX_ACTIVE s) (WAITING_FOR_SPACE s) (BUFFER_SPACE_AVAILABLE s) (dev s) b.

(** One turn of the loop that fills the FIFO: a byte written, or the ring
    found empty and the interrupt disabled. *)
Definition fill_step (u : UartConfig) (s : tx) : outcome (bool * tx) :=
  let! '(b, r) := Ring.pop (TX_RING s) in
  match b with
  | Some byte =>
      let s := with_ring r s in
      let! d := write_byte_nowait u byte (dev s) in
      Ret (true, with_dev d s)
  | None =>
      let s := set_active false s in
      let! d := disable_tx_interrupt u (dev s) in
      Ret (false, with_dev d s)
  end.

Fixpoint fill (k : nat) (u : UartConfig) (s : tx) : outcome (bool * tx) :=
  match k with
  | O => Ret (true, s)
  | S k => let! '(more, s) := fill_step u s in if more : bool then fill k u s else Ret (false, s)
  end.

(** After a full FIFO: keep the interrupt enabled while there is data. *)
Definition keep_going (u : UartConfig) (s : tx) : outcome tx :=
  if negb (Ring.is_empty (TX_RING s)) then
    let s := set_active true s in
    let! d := enable_tx_interrupt u (dev s) in
    Ret (with_dev d s)
  else Ret s.

Definition drain_ring_to_fifo (fuel : nat) (u : UartConfig) (s : tx) : outcome tx :=
  let! u := get u in
  let! d := wait_tx fuel u (dev s) in
  let! '(more, s) := fill TX_FIFO_SIZE u (with_dev d s) in
  if more : bool then keep_going u s else Ret s.

Definition notify_tx_ready (fuel : nat) (u : UartConfig) (s : tx) : outcome tx :=
  let! s := drain_ring_to_fifo fuel u s in
  if WAITING_FOR_SPACE s then
    let s := set_waiting false s in
    let s := set_space true s in
    Ret (set_blocked false s)
  else Ret s.

(** What [handle_irq] prints. *)
Inductive event := UartRx (byte : Z) | Unhandled (id : Z).

Fixpoint drain_rx (fuel : nat) (u : UartConfig) (d : D) : outcome (list event * D) :=
  match fuel with
  | O => Fault
  | S fuel =>
      let! '(b, d) := read_byte u d in
      match b with
      | Some byte => let! '(out, d) := drain_rx fuel u d in Ret (UartRx byte :: out, d)
      | None => Ret ([], d)
      end
  end.

Fixpoint service (fuel : nat) (u : UartConfig) (s : tx) : outcome (list event * tx) :=
  match fuel with
  | O => Fault
  | S fuel' =>
      let! '(iir, d) := read_reg u IIR_OFFSET (dev s) in
      let s := with_dev d s in
      if negb (Z.land iir IIR_NO_INTERRUPT =? 0) then Ret ([], s)
      else
        let id := Z.land iir IIR_ID_MASK in
        if (id =? IIR_RX_DATA) || (id =? IIR_RX_TIMEOUT) then
          let! '(out, d) := drain_rx fuel' u (dev s) in
          let! '(out', s) := service fuel' u (with_dev d s) in
          Ret (out ++ out', s)
        else if id =? IIR_TX_EMPTY then
          let! s := notify_tx_ready fuel' u s in
          Ret ([], s)
        else
          let! '(out', s) := service fuel' u s in
          Ret (Unhandled id :: out', s)
  end.

Definition handle_irq (fuel : nat) (u : UartConfig) (s : tx) : outcome (list event * tx) :=
  let! u := get u in
  service fuel u s.

(** The slices [write_data] pushes: the text between line feeds, and for each
    line feed a carriage return and a line feed. *)
Fixpoint slices (fuel : nat) (remaining : list Z) : list (list Z) :=
  match fuel, remaining with
  | S fuel, _ :: _ =>
      let newline_pos := fst <$> list_find (fun b => b = 10) remaining in
      let chunk_end := default (length remaining) newline_pos in
      (if (0 <? chunk_end)%nat then [take chunk_end remaining] else []) ++
      match newline_pos with
      | Some _ => [13; 10] :: slices fuel (drop (chunk_end + 1) remaining)
      | None => []
      end
  | _, _ => []
  end.

(** ** The writer thread *)

(** Where the thread is: in [receive_message]; in [push_slice_blocking] with
    what is left of a slice and the slices after it; there and waiting for
    space. *)
Inductive phase :=
| Idle
| Push (s : list Z) (todo : list (list Z))
| Wait (s : list Z) (todo : list (list Z)).

(** [inbox] are the buffers sent to the thread; [taken] all it has received. *)
Record conf := mkConf { st : tx; ph : phase; inbox : list (list Z); taken : list Z }.

(** A full ring: enable the interrupt, announce the wait and block. *)
Definition wait_for_space (u : UartConfig) (s : tx) : outcome tx :=
  let s := set_active true s in
  let! u := get u in
  let! d := enable_tx_interrupt u (dev s) in
  let s := set_waiting true (set_space false (with_dev d s)) in
  Ret (set_blocked true s).

(** The next step of the thread, if it has one: [writer_entry] takes a message
    and [write_data] pushes its slices and kicks the transmission off.  Without
    a message or space the thread is blocked; woken without space it blocks
    again. *)
Definition thread_step (fuel : nat) (u : UartConfig) (c : conf) : option (outcome conf) :=
  let s := st c in
  let go (s : tx) (p : phase) := mkConf s p (inbox c) (taken c) in
  match ph c with
  | Idle =>
      match inbox c with
      | data :: rest => Some (Ret (mkConf s (Push [] (slices (length data) data)) rest (taken c ++ data)))
      | [] => None
      end
  | Push [] [] => Some (let! s := drain_ring_to_fifo fuel u s in Ret (go s Idle))
  | Push [] (sl :: todo) => Some (Ret (go s (Push sl todo)))
  | Push sl todo =>
      Some (let! '(pushed, r) := Ring.push_slice (TX_RING s) sl in
            let s := with_ring r s in
            if pushed =? 0 then let! s := wait_for_space u s in Ret (go s (Wait sl todo))
            else Ret (go s (Push (drop (Z.to_nat pushed) sl) todo)))
  | Wait sl todo =>
      if blocked s then None
      else if BUFFER_SPACE_AVAILABLE s then Some (Ret (go (set_waiting false s) (Push sl todo)))
      else Some (Ret (go (set_blocked true s) (Wait sl todo)))
  end.

(** [send_write]: a message for the thread, which wakes it. *)
Definition send_write (buf : list Z) (c : conf) : conf :=
  mkConf (set_blocked false (st c)) (ph c) (inbox c ++ [buf]) (taken c).

(** Writing to [/dev/console]: [UartFileOps::write]. *)
Definition uart_file_write (buf : list Z) (c : conf) : Z * conf := (Z.of_nat (length buf), send_write buf c).

(** The converted text. *)
Definition crlf (l : list Z) : list Z := concat (map (fun b => if decide (b = 10) then [13; 10] else [b]) l).

Lemma crlf_app l k : crlf (l ++ k) = crlf l ++ crlf k.
Proof. unfold crlf. by rewrite map_app, concat_app. Qed.

Lemma crlf_plain l : (forall b, b ∈ l -> b <> 10) -> crlf l = l.
Proof.
  induction l as [|b l IH]; intros Hl; [done|]. change (crlf (b :: l)) with ((if decide (b = 10) then [13; 10] else [b]) ++ crlf l).
  rewrite decide_False by (apply Hl; left). rewrite IH; [done|]. intros x Hx. apply Hl. by right.
Qed.

Lemma slices_crlf fuel : forall l, (length l <= fuel)%nat -> concat (slices fuel l) = crlf l.
Proof.
  induction fuel as [|fuel IH]; intros l Hl; [by destruct l; [|cbn in Hl; lia]|]. destruct l as [|b l]; [done|].
  cbn [slices]. set (r := b :: l) in *. destruct (list_find (fun b => b = 10) r) as [[i x]|] eqn:E; cbn [fmap option_fmap option_map fst default from_option id].
  - apply list_find_Some in E as (Hi & -> & Hbefore). pose proof (lookup_lt_Some _ _ _ Hi) as Hlt.
    assert (Hr : crlf r = crlf (take i r) ++ [13; 10] ++ crlf (drop (S i) r)).
    { rewrite <- (take_drop_middle r i 10 Hi) at 1. by rewrite crlf_app. }
    rewrite Hr.
    rewrite <- (IH (drop (S i) r)) by (rewrite length_drop; lia). rewrite (crlf_plain (take i r)).
    2:{ intros y (j & Hj)%list_elem_of_lookup. apply lookup_take_Some in Hj as [Hj Hji]. by apply (Hbefore j). }
    replace (i + 1)%nat with (S i) by lia. destruct (Nat.ltb_spec 0 i) as [Hp|Hp].
    + cbn [app concat]. done.
    + replace i with 0%nat by lia. done.
  - rewrite (proj2 (Nat.ltb_lt _ _)) by (cbn; lia). rewrite app_nil_r. cbn [concat]. rewrite app_nil_r, take_ge by lia.
    rewrite crlf_plain; [done|]. intros y Hy. rewrite list_find_None in E. rewrite Forall_forall in E. by apply E.
Qed.

Context (u : UartConfig) {UD : Uart16550 u}.

Lemma get_ok : get u = Ret u.
Proof. unfold get. pose proof (ua_base (u := u)). by rewrite (proj2 (Z.eqb_neq _ _)) by lia. Qed.

(** An interrupt the device reports as the transmit interrupt is
    [notify_tx_ready], once; one it does not report is nothing. *)
Lemma handle_irq_tx fuel s iir d : read_reg u IIR_OFFSET (dev s) = Ret (iir, d) -> Z.land iir IIR_NO_INTERRUPT = 0 -> Z.land iir IIR_ID_MASK = IIR_TX_EMPTY ->
  handle_irq (S fuel) u s = (let! s := notify_tx_ready fuel u (with_dev d s) in Ret ([], s)).
Proof. intros E H1 H2. unfold handle_irq. rewrite get_ok. cbn [obind service]. by rewrite E; cbn [obind]; rewrite H1, H2. Qed.

Lemma handle_irq_none fuel s iir d : read_reg u IIR_OFFSET (dev s) = Ret (iir, d) -> Z.land iir IIR_NO_INTERRUPT <> 0 ->
  handle_irq (S fuel) u s = Ret ([], with_dev d s).
Proof. intros E H1. unfold handle_irq. rewrite get_ok. cbn [obind service]. rewrite E. cbn [obind]. by rewrite (proj2 (Z.eqb_neq _ _)). Qed.

(** The ring of the thread holds [q]. *)
Definition ring_ok (s : tx) (q : list Z) : Prop := Ring.queue (TX_RING s) q /\ Ring.N (TX_RING s) = Z.of_nat TX_RING_SIZE.

(** What the flags about space say. *)
Definition flags (s : tx) : bool * bool * bool := (WAITING_FOR_SPACE s, BUFFER_SPACE_AVAILABLE s, blocked s).

(** The transmit interrupt is enabled. *)
Definition tx_irq (s : tx) : bool := Z.testbit (ier (dev s)) 1.

Lemma fill_ok k : forall s q, ring_ok s q -> (k <= room (dev s))%nat ->
  exists more s', fill k u s = Ret (more, s') /\ ring_ok s' (drop k q) /\ line (dev s') = line (dev s) ++ take k q /\
    flags s' = flags s /\ (more = false -> drop k q = []).
Proof.
  induction k as [|k IH]; intros s q [Hq HN] Hr; cbn [fill].
  { exists true, s. rewrite drop_0, take_0, app_nil_r. by split_and!. }
  unfold fill_step. pose proof (Ring.pop_queue _ _ Hq) as Hpop. destruct q as [|x q].
  - rewrite Hpop. cbn [obind]. destruct (disable_tx_ok u (dev (set_active false s))) as (d' & -> & Hl & _). cbn [obind].
    exists false, (with_dev d' (set_active false s)). cbn [take drop]. rewrite app_nil_r. by split_and!.
  - destruct Hpop as (r & -> & HN' & Hq'). cbn [obind with_ring dev]. unfold write_byte_nowait.
    destruct (room (dev s)) as [|n] eqn:Er; [lia|]. destruct (ua_thr (dev s) n x Er) as (d' & -> & Hl & _ & Hr'). cbn [obind].
    destruct (IH (with_dev d' (with_ring r s)) q) as (more & s' & -> & Hs' & Hl' & Hf & Hm); [split; [done|]; cbn; congruence|cbn; lia|].
    exists more, s'. split_and!; [done|done| |done|done]. rewrite Hl'. cbn [dev with_dev with_ring take]. by rewrite Hl, <- app_assoc.
Qed.

Lemma keep_going_ok s q : ring_ok s q ->
  exists s', keep_going u s = Ret s' /\ ring_ok s' q /\ line (dev s') = line (dev s) /\ flags s' = flags s /\ (q <> [] -> tx_irq s' = true).
Proof.
  intros [Hq HN]. unfold keep_going. rewrite (Ring.is_empty_queue _ _ Hq). destruct (decide (q = [])) as [->|Hne].
  - rewrite bool_decide_eq_true_2 by done. by exists s.
  - rewrite bool_decide_eq_false_2 by done. cbn [negb].
    destruct (enable_tx_ok u (dev (set_active true s))) as (d' & -> & Hl & Hb & _). cbn [obind]. eexists. by split_and!.
Qed.

(** [drain_ring_to_fifo] moves up to 16 bytes, and leaves the interrupt enabled
    while there are more. *)
Lemma drain_ok fuel s q d : ring_ok s q -> wait_tx fuel u (dev s) = Ret d ->
  exists s', drain_ring_to_fifo fuel u s = Ret s' /\ ring_ok s' (drop 16 q) /\ line (dev s') = line (dev s) ++ take 16 q /\
    flags s' = flags s /\ (drop 16 q <> [] -> tx_irq s' = true).
Proof.
  intros Hs Hw. unfold drain_ring_to_fifo. rewrite get_ok. cbn [obind]. rewrite Hw. cbn [obind].
  destruct (wait_tx_ok u _ _ _ Hw) as (Hl & _ & Hr).
  destruct (fill_ok TX_FIFO_SIZE (with_dev d s) q) as (more & s1 & -> & Hs1 & Hl1 & Hf1 & Hm); [done|cbn; unfold TX_FIFO_SIZE; lia|]. cbn [obind].
  change (line (dev (with_dev d s))) with (line d) in Hl1. rewrite Hl in Hl1. change TX_FIFO_SIZE with 16%nat in *. destruct more.
  - destruct (keep_going_ok s1 _ Hs1) as (s2 & -> & Hs2 & Hl2 & Hf2 & Hi). exists s2. split_and!; [done|done|congruence|by rewrite Hf2|done].
  - exists s1. split_and!; [done|done|done|done|]. by rewrite Hm.
Qed.

Lemma drain_inv fuel s q s' : ring_ok s q -> drain_ring_to_fifo fuel u s = Ret s' ->
  ring_ok s' (drop 16 q) /\ line (dev s') = line (dev s) ++ take 16 q /\ flags s' = flags s /\ (drop 16 q <> [] -> tx_irq s' = true).
Proof.
  intros Hs E. destruct (wait_tx fuel u (dev s)) as [d| |] eqn:Hw.
  - destruct (drain_ok fuel s q d Hs Hw) as (s1 & E1 & H). rewrite E1 in E. by injection E as <-.
  - unfold drain_ring_to_fifo in E. by rewrite get_ok in E; cbn [obind] in E; rewrite Hw in E.
  - unfold drain_ring_to_fifo in E. by rewrite get_ok in E; cbn [obind] in E; rewrite Hw in E.
Qed.

(** ** Steps of the system *)

(** The device asks for the transmit interrupt. *)
Definition irq_raised (d : D) : Prop := Z.testbit (ier d) 1 = true /\ room d = 16%nat.

Definition with_st (s : tx) (c : conf) : conf := mkConf s (ph c) (inbox c) (taken c).

(** Interrupts are off while the thread runs: one finds it waiting. *)
Definition waits (p : phase) : Prop := match p with Push _ _ => False | _ => True end.

Inductive run_step : conf -> conf -> Prop :=
| run_thread fuel c c' : thread_step fuel u c = Some (Ret c') -> run_step c c'
| run_irq fuel c s' : waits (ph c) -> irq_raised (dev (st c)) -> notify_tx_ready fuel u (st c) = Ret s' -> run_step c (with_st s' c)
| run_tick c : run_step c (with_st (with_dev (tick (dev (st c))) (st c)) c).

(** The writer as [init] leaves it. *)
Definition started (d : D) : conf := mkConf (mkTx (Ring.new TX_RING_SIZE) false false false d false) Idle [] [].

(** The states of a run in which [msgs] have been written so far. *)
Inductive reachable (d : D) : list (list Z) -> conf -> Prop :=
| reach_started : reachable d [] (started d)
| reach_run msgs c c' : reachable d msgs c -> run_step c c' -> reachable d msgs c'
| reach_send msgs buf c : reachable d msgs c -> reachable d (msgs ++ [buf]) (send_write buf c).

(** The bytes the thread still has to push. *)
Definition pending (p : phase) : list Z := match p with Idle => [] | Push s todo | Wait s todo => s ++ concat todo end.

(** A thread waiting for space: it has been told there is some, or the
    interrupt that will tell it is on its way. *)
Definition will_wake (s : tx) (q : list Z) : Prop :=
  (BUFFER_SPACE_AVAILABLE s = true /\ blocked s = false) \/ (WAITING_FOR_SPACE s = true /\ tx_irq s = true /\ q <> []).

Definition no_stall (s : tx) (q : list Z) (p : phase) : Prop :=
  match p with
  | Idle => q <> [] -> tx_irq s = true
  | Push _ _ => True
  | Wait sl _ => sl <> [] /\ will_wake s q
  end.

(** What is on the line, in the ring and still to be pushed is the text
    received, converted; and nothing stalls. *)
Definition winv (line0 : list Z) (c : conf) : Prop := exists q,
  ring_ok (st c) q /\ line (dev (st c)) ++ q ++ pending (ph c) = line0 ++ crlf (taken c) /\ no_stall (st c) q (ph c).

Lemma push_ok line0 c fuel x sl todo q : ph c = Push (x :: sl) todo -> ring_ok (st c) q ->
  line (dev (st c)) ++ q ++ pending (ph c) = line0 ++ crlf (taken c) ->
  exists c', thread_step fuel u c = Some (Ret c') /\ winv line0 c' /\ inbox c' = inbox c /\ taken c' = taken c /\
    line (dev (st c')) = line (dev (st c)) /\
    ((exists s', ph c' = Push s' todo /\ (length s' < length (x :: sl))%nat) \/ (ph c' = Wait (x :: sl) todo /\ BUFFER_SPACE_AVAILABLE (st c') = false)).
Proof.
  intros Hp [Hq HN] Hd. rewrite Hp in Hd. unfold thread_step. rewrite Hp. cbn [pending] in Hd.
  destruct (Ring.push_slice_queue (TX_RING (st c)) q (x :: sl) Hq) as (k & r & -> & HN' & Hk & Hq'). cbn [obind].
  destruct (Z.eqb_spec k 0) as [E|E].
  - rewrite E in *. change (Z.to_nat 0) with 0%nat in Hq'. rewrite take_0, app_nil_r in Hq'. unfold wait_for_space. rewrite get_ok. cbn [obind].
    destruct (enable_tx_ok u (dev (set_active true (with_ring r (st c))))) as (d & -> & Hl & Hb & _). cbn [obind].
    eexists. split; [reflexivity|]. split_and!; [|done|done|by cbn; rewrite Hl|by right]. exists q. split_and!; [split; [done|cbn; congruence]| |].
    + cbn. by rewrite Hl.
    + split; [done|]. right. split_and!; [done|done|]. intros ->. rewrite HN in Hk. unfold TX_RING_SIZE in Hk. cbn [length] in Hk. lia.
  - eexists. split; [reflexivity|]. split_and!; [|done|done|done|].
    + exists (q ++ take (Z.to_nat k) (x :: sl)). split_and!; [split; [done|cbn; congruence]| |done]. cbn [ph st with_ring dev pending taken].
      rewrite <- Hd. transitivity (line (dev (st c)) ++ q ++ (take (Z.to_nat k) (x :: sl) ++ drop (Z.to_nat k) (x :: sl)) ++ concat todo);
        [by rewrite !app_assoc|by rewrite take_drop].
    + left. eexists. split; [done|]. rewrite length_drop. destruct Hq as (lo & [_ _ _ _ Hroom _]). cbn [length] in *. lia.
Qed.

(** Every step keeps the invariant. *)
Lemma thread_winv line0 fuel c c' : winv line0 c -> thread_step fuel u c = Some (Ret c') -> winv line0 c'.
Proof.
  intros (q & Hs & Hd & Hn). destruct (ph c) as [|sl todo|sl todo] eqn:Hp.
  - unfold thread_step. rewrite Hp. destruct (inbox c) as [|data rest]; [done|]. intros [= <-]. exists q. split_and!; [done| |done].
    cbn [ph st pending taken app]. rewrite crlf_app, slices_crlf by done. cbn [pending] in Hd. rewrite app_nil_r in Hd. by rewrite !app_assoc, Hd.
  - destruct sl as [|x sl].
    + unfold thread_step. rewrite Hp. destruct todo as [|sl todo]; [|intros [= <-]; by exists q].
      intros E. destruct (drain_ring_to_fifo fuel u (st c)) as [s'| |] eqn:Ed; [|done..]. injection E as <-.
      destruct (drain_inv fuel _ _ _ Hs Ed) as (Hs' & Hl & _ & Hi). exists (drop 16 q). split_and!; [done| |done].
      cbn [ph st pending taken] in *. rewrite Hl, <- app_assoc, (app_assoc (take 16 q)), take_drop. exact Hd.
    + intros E. rewrite <- Hp in Hd. destruct (push_ok line0 c fuel x sl todo q Hp Hs Hd) as (c1 & E1 & Hw & _). rewrite E1 in E. by injection E as <-.
  - unfold thread_step. rewrite Hp. destruct Hn as [Hne Hww]. destruct (blocked (st c)) eqn:Eb; [done|]. destruct (BUFFER_SPACE_AVAILABLE (st c)) eqn:Es.
    + intros [= <-]. by exists q.
    + intros [= <-]. exists q. split_and!; [done|done|]. split; [done|]. right. destruct Hww as [[? _]|Hww]; [congruence|done].
Qed.

Lemma notify_inv fuel s q s' : ring_ok s q -> notify_tx_ready fuel u s = Ret s' ->
  ring_ok s' (drop 16 q) /\ line (dev s') = line (dev s) ++ take 16 q /\ (drop 16 q <> [] -> tx_irq s' = true) /\
  (if WAITING_FOR_SPACE s then BUFFER_SPACE_AVAILABLE s' = true /\ blocked s' = false else flags s' = flags s).
Proof.
  intros Hs. unfold notify_tx_ready. destruct (drain_ring_to_fifo fuel u s) as [s1| |] eqn:E; [|done..]. cbn [obind].
  destruct (drain_inv fuel s q s1 Hs E) as (Hs1 & Hl & Hf & Hi). injection Hf as Hw Hb Hk. rewrite Hw. destruct (WAITING_FOR_SPACE s) eqn:Ew.
  - by intros [= <-].
  - intros [= <-]. split_and!; [done|done|done|]. unfold flags. by rewrite Hw, Hb, Hk, Ew.
Qed.

Lemma irq_winv line0 fuel c s' : winv line0 c -> waits (ph c) -> notify_tx_ready fuel u (st c) = Ret s' -> winv line0 (with_st s' c).
Proof.
  intros (q & Hs & Hd & Hn) Hp E. destruct (notify_inv fuel _ _ _ Hs E) as (Hs' & Hl & Hi & Hf). exists (drop 16 q).
  split_and!; [done| |].
  - cbn [with_st st ph taken]. rewrite Hl, <- app_assoc, (app_assoc (take 16 q)), take_drop. exact Hd.
  - cbn [with_st st ph]. destruct (ph c) as [| |sl todo]; [done|done|]. destruct Hn as [Hne Hww]. split; [done|]. left.
    destruct (WAITING_FOR_SPACE (st c)) eqn:Ew; [done|]. unfold flags in Hf. injection Hf as _ Hb Hk. rewrite Hb, Hk. destruct Hww as [?|[? _]]; [done|congruence].
Qed.

Lemma run_winv line0 c c' : winv line0 c -> run_step c c' -> winv line0 c'.
Proof.
  intros Hw Hst. destruct Hst as [fuel c c' E|fuel c s' Hp _ E|c]; [by eapply thread_winv|by eapply irq_winv|].
  destruct Hw as (q & Hs & Hd & Hn). destruct (ua_tick (dev (st c))) as (Hl & Hi & _). exists q. split_and!; [done|by cbn; rewrite Hl|].
  cbn [with_st st ph]. unfold no_stall, will_wake, tx_irq in *. cbn [with_dev dev BUFFER_SPACE_AVAILABLE blocked WAITING_FOR_SPACE]. by rewrite Hi.
Qed.

(** Nor do the steps of the writer change what there is to write. *)
Lemma run_total c c' : run_step c c' -> taken c' ++ concat (inbox c') = taken c ++ concat (inbox c).
Proof.
  intros Hst. destruct Hst as [fuel c c' E|fuel c s' _ _ _|c]; [|done..]. unfold thread_step in E.
  destruct (ph c) as [|sl todo|sl todo].
  - destruct (inbox c) as [|data rest]; [done|]. injection E as <-. cbn. by rewrite <- app_assoc.
  - destruct sl as [|x sl]; [destruct todo as [|sl todo]|].
    + injection E as E. apply obind_Ret_inv in E as (s & _ & E). by injection E as <-.
    + by injection E as <-.
    + injection E as E. apply obind_Ret_inv in E as ([k r] & _ & E). cbn beta iota in E. destruct (k =? 0); [|by injection E as <-].
      apply obind_Ret_inv in E as (s & _ & E). by injection E as <-.
  - destruct (blocked (st c)); [done|]. by destruct (BUFFER_SPACE_AVAILABLE (st c)); injection E as <-.
Qed.

Lemma reachable_winv d msgs c : reachable d msgs c -> winv (line d) c /\ taken c ++ concat (inbox c) = concat msgs.
Proof.
  induction 1 as [|msgs c c' _ [Hw Ht] Hst|msgs buf c _ [Hw Ht]].
  - split; [|done]. exists []. split_and!; [split; [|done]|by cbn; rewrite !app_nil_r|by intros ?]. exists 0. split; [done..|]. intros i Hi. cbn in Hi. lia.
  - split; [by eapply run_winv|]. by rewrite (run_total _ _ Hst).
  - cbn [send_write taken inbox]. rewrite !concat_app. rewrite app_assoc, Ht. split; [|done]. destruct Hw as (q & Hs & Hd & Hn). exists q.
    split_and!; [done|done|]. cbn [send_write st ph]. destruct (ph c) as [| |sl todo]; [done|done|].
    destruct Hn as [Hne [[H1 H2]|H2]]; (split; [done|]); [by left|by right].
Qed.

(** ** Everything is sent *)
Lemma ticks n c : exists c', rtc run_step c c' /\ ph c' = ph c /\ inbox c' = inbox c /\ taken c' = taken c /\ TX_RING (st c') = TX_RING (st c) /\
  flags (st c') = flags (st c) /\ tx_irq (st c') = tx_irq (st c) /\ line (dev (st c')) = line (dev (st c)) /\ dev (st c') = Nat.iter n tick (dev (st c)).
Proof.
  induction n as [|n (c1 & Hr & Hp & Hi & Ht & Hq & Hf & Hx & Hl & Hd)]; [by exists c|].
  exists (with_st (with_dev (tick (dev (st c1))) (st c1)) c1). destruct (ua_tick (dev (st c1))) as (Hl1 & Hi1 & _).
  split; [by eapply rtc_r; [exact Hr|apply run_tick]|]. cbn [with_st with_dev st ph inbox taken TX_RING dev].
  split_and!; [done..|by rewrite <- Hf| |by rewrite Hl1|by rewrite Hd].
  unfold tx_irq in *. cbn [with_dev dev]. by rewrite Hi1.
Qed.

(** An enabled interrupt comes, and moves up to 16 bytes to the line. *)
Lemma interrupt c q : waits (ph c) -> ring_ok (st c) q -> tx_irq (st c) = true ->
  exists c', rtc run_step c c' /\ ph c' = ph c /\ inbox c' = inbox c /\ taken c' = taken c /\ ring_ok (st c') (drop 16 q).
Proof.
  intros Hp [Hq HN] Hi. destruct (ua_empties (dev (st c))) as [n Hn].
  destruct (ticks n c) as (c1 & Hr1 & Hp1 & Hb1 & Ht1 & Hq1 & _ & Hi1 & _ & Hd1).
  assert (Hs1 : ring_ok (st c1) q) by (split; by rewrite Hq1).
  destruct (ua_progress (dev (st c1))) as (fuel & d & Hw). destruct (drain_ok fuel (st c1) q d Hs1 Hw) as (s2 & E2 & _).
  assert (exists s', notify_tx_ready fuel u (st c1) = Ret s') as [s' En].
  { unfold notify_tx_ready. rewrite E2. cbn [obind]. destruct (WAITING_FOR_SPACE s2); by eexists. }
  destruct (notify_inv fuel _ _ _ Hs1 En) as (Hs' & _). exists (with_st s' c1). split; [|by split_and!].
  eapply rtc_r; [exact Hr1|]. apply (run_irq fuel); [by rewrite Hp1| |done]. split; [by rewrite <- Hi1 in Hi|by rewrite Hd1].
Qed.

(** What is left to do: bytes in the ring, bytes to push, slices and messages to
    come to, and whether the thread has just been woken. *)
Definition weight (data : list Z) : nat := 2 * length (crlf data) + length (slices (length data) data) + 2.

Definition effort (q : list Z) (c : conf) : nat :=
  3 * (length q + sum_list_with weight (inbox c) +
       match ph c with Idle => 0 | Push s todo | Wait s todo => 2 * length (s ++ concat todo) + length todo + 1 end) +
  match ph c with Idle => 0 | Push _ _ => 1 | Wait _ _ => if BUFFER_SPACE_AVAILABLE (st c) && negb (blocked (st c)) then 2 else 0 end.

Definition closer (q : list Z) (c : conf) : Prop := exists c' q', rtc run_step c c' /\
  taken c' ++ concat (inbox c') = taken c ++ concat (inbox c) /\ ring_ok (st c') q' /\ (effort q' c' < effort q c)%nat.

Lemma effort_base q c p : ph c = p -> effort q c =
  (3 * (length q + sum_list_with weight (inbox c) + match p with Idle => 0 | Push s todo | Wait s todo => 2 * length (s ++ concat todo) + length todo + 1 end) +
  match p with Idle => 0 | Push _ _ => 1 | Wait _ _ => if BUFFER_SPACE_AVAILABLE (st c) && negb (blocked (st c)) then 2 else 0 end)%nat.
Proof. by intros <-. Qed.

(** An interrupt that is on its way brings it closer. *)
Lemma irq_closer c q : waits (ph c) -> ring_ok (st c) q -> tx_irq (st c) = true -> q <> [] ->
  (forall s todo, ph c = Wait s todo -> BUFFER_SPACE_AVAILABLE (st c) && negb (blocked (st c)) = false) -> closer q c.
Proof.
  intros Hp Hs Hi Hne Hw. destruct (interrupt c q Hp Hs Hi) as (c' & Hr & Ep & Eb & Et & Hs'). exists c', (drop 16 q).
  split_and!; [done|by rewrite Eb, Et|done|]. rewrite (effort_base _ c' _ Ep), Eb. unfold effort. rewrite length_drop.
  destruct q as [|x q]; [done|]. cbn [length]. destruct (ph c) as [|s todo|s todo] eqn:E; [lia|done|]. rewrite (Hw s todo eq_refl).
  clear. destruct (BUFFER_SPACE_AVAILABLE (st c') && negb (blocked (st c'))); lia.
Qed.

(** The thread's own steps do. *)
Lemma push_closer line0 c q sl todo : ph c = Push sl todo -> ring_ok (st c) q ->
  line (dev (st c)) ++ q ++ pending (ph c) = line0 ++ crlf (taken c) -> closer q c.
Proof.
  intros Hp Hs Hd. destruct sl as [|x sl]; [destruct todo as [|sl todo]|].
  - destruct (ua_progress (dev (st c))) as (fuel & d & Hw). destruct (drain_ok fuel _ _ _ Hs Hw) as (s' & E & Hs' & _).
    exists (mkConf s' Idle (inbox c) (taken c)), (drop 16 q). split_and!; [|done|done|].
    + apply rtc_once, (run_thread fuel). unfold thread_step. by rewrite Hp, E.
    + rewrite (effort_base _ c _ Hp). unfold effort. cbn [ph inbox]. rewrite length_drop. lia.
  - exists (mkConf (st c) (Push sl todo) (inbox c) (taken c)), q. split_and!; [|done|done|].
    + apply rtc_once, (run_thread 0). unfold thread_step. by rewrite Hp.
    + rewrite (effort_base _ c _ Hp). unfold effort. cbn [ph inbox app concat length]. lia.
  - destruct (push_ok line0 c 0 x sl todo q Hp Hs Hd) as (c' & E & (q' & Hs' & Hd' & _) & Eb & Et & El & Hc). exists c', q'.
    split_and!; [by apply rtc_once, (run_thread 0)|by rewrite Eb, Et|done|].
    rewrite (effort_base _ c _ Hp). rewrite Hp in Hd. rewrite <- Et, <- Hd', El in Hd. apply app_inv_head, (f_equal length) in Hd.
    rewrite !length_app in Hd. destruct Hc as [(s' & Hp' & Hlen)|[Hp' Hb]]; rewrite Hp' in Hd; cbn [pending] in Hd; rewrite (effort_base _ c' _ Hp'), Eb; rewrite !length_app in *.
    + lia.
    + rewrite Hb. cbn [andb]. lia.
Qed.

(** Unless all is sent, some steps bring it closer. *)
Lemma comes_closer line0 c q : ring_ok (st c) q -> line (dev (st c)) ++ q ++ pending (ph c) = line0 ++ crlf (taken c) -> no_stall (st c) q (ph c) ->
  (ph c = Idle /\ inbox c = [] /\ q = []) \/ closer q c.
Proof.
  intros Hs Hd Hn. destruct (ph c) as [|sl todo|sl todo] eqn:Hp.
  - destruct (inbox c) as [|data rest] eqn:Eb.
    + destruct (decide (q = [])) as [->|Hne]; [by left|]. right. apply irq_closer; [by rewrite Hp|done|by apply Hn|done|]. by rewrite Hp.
    + right. exists (mkConf (st c) (Push [] (slices (length data) data)) rest (taken c ++ data)), q. split_and!; [|by cbn; rewrite Eb, <- app_assoc|done|].
      * apply rtc_once, (run_thread 0). unfold thread_step. by rewrite Hp, Eb.
      * rewrite (effort_base _ c _ Hp), Eb. unfold effort. cbn [ph inbox sum_list_with app]. unfold weight at 2. rewrite slices_crlf by done. lia.
  - right. rewrite <- Hp in Hd. by eapply push_closer.
  - right. destruct Hn as [_ Hww]. destruct (BUFFER_SPACE_AVAILABLE (st c) && negb (blocked (st c))) eqn:E.
    + apply andb_true_iff in E as [H1 H2%negb_true_iff].
      exists (mkConf (set_waiting false (st c)) (Push sl todo) (inbox c) (taken c)), q. split_and!; [|done|done|].
      * apply rtc_once, (run_thread 0). unfold thread_step. by rewrite Hp, H2, H1.
      * rewrite (effort_base _ c _ Hp), H1, H2. unfold effort. cbn [ph inbox negb andb]. lia.
    + destruct Hww as [[H1 H2]|(H1 & H2 & H3)]; [by rewrite H1, H2 in E|]. apply irq_closer; [by rewrite Hp|done..].
Qed.

Lemma run_winv_rtc line0 c c' : rtc run_step c c' -> winv line0 c -> winv line0 c'.
Proof. induction 1 as [|c c1 c' Hst _ IH]; [done|]. intros Hw. by eapply IH, run_winv. Qed.

Lemma sent_eventually line0 n : forall c q, winv line0 c -> ring_ok (st c) q -> (effort q c < n)%nat ->
  exists c', rtc run_step c c' /\ ph c' = Idle /\ inbox c' = [] /\ line (dev (st c')) = line0 ++ crlf (taken c ++ concat (inbox c)).
Proof.
  induction n as [|n IH]; intros c q Hw Hs Hn; [lia|]. pose proof Hw as (q0 & Hs0 & Hd & Hns).
  assert (q0 = q) as -> by exact (Ring.queue_unique _ _ _ (proj1 Hs0) (proj1 Hs)).
  destruct (comes_closer line0 c q Hs Hd Hns) as [(Hp & Eb & ->)|(c1 & q1 & Hr & Et & Hs1 & Hlt)].
  - exists c. split_and!; [done..|]. rewrite Hp in Hd. cbn [pending app] in Hd. rewrite app_nil_r in Hd. by rewrite Eb, app_nil_r.
  - destruct (IH c1 q1) as (c' & Hr' & Hp & Eb & Hl); [by eapply run_winv_rtc|done|lia|]. exists c'.
    split_and!; [by etrans|done|done|by rewrite <- Et].
Qed.

(** C11: what is on the line at any time is a prefix of the text written,
    each line feed preceded by a carriage return; and the writer can always send
    the rest: it never waits for an interrupt that is disabled or for a wake-up
    nobody owes it. *)
Theorem writer_delivers d msgs c (Hc : reachable d msgs c) :
  line (dev (st c)) `prefix_of` line d ++ crlf (concat msgs) /\
  exists c', rtc run_step c c' /\ ph c' = Idle /\ inbox c' = [] /\ line (dev (st c')) = line d ++ crlf (concat msgs).
Proof.
  destruct (reachable_winv _ _ _ Hc) as [Hw Ht]. pose proof Hw as (q & Hs & Hd & _). rewrite <- Ht. split.
  - rewrite crlf_app, app_assoc, <- Hd, <- !app_assoc. eexists. reflexivity.
  - apply (sent_eventually (line d) (S (effort q c)) c q Hw Hs). lia.
Qed.

End writer.

(** ** A simulated 16550 *)

(** [busy] bytes wait in the FIFO; reading the line status takes the time of a
    byte. *)
Record sim := mkSim { out : list Z; busy : nat; en : Z }.

Definition sim_tick (d : sim) : sim := mkSim (out d) (pred (busy d)) (en d).

Definition sim_read (w addr : Z) (d : sim) : Z * sim :=
  let a := addr - base QEMU_UART in
  if a =? LSR_OFFSET then ((if (busy d =? 0)%nat then LSR_THRE else 0), sim_tick d)
  else if a =? IER_OFFSET then (en d mod 256, d)
  else if a =? IIR_OFFSET then ((if (busy d =? 0)%nat && Z.testbit (en d) 1 then IIR_TX_EMPTY else IIR_NO_INTERRUPT), d)
  else (0, d).

Definition sim_write (w addr v : Z) (d : sim) : sim :=
  let a := addr - base QEMU_UART in
  if a =? THR_OFFSET then if (busy d <? 16)%nat then mkSim (out d ++ [v]) (S (busy d)) (en d) else d
  else if a =? IER_OFFSET then mkSim (out d) (busy d) (v mod 256)
  else d.

#[local] Instance sim_mmio : Mmio sim := { mmio_read := sim_read; mmio_write := sim_write }.

Lemma sim_lsr d : read_reg QEMU_UART LSR_OFFSET d = Ret ((if (busy d =? 0)%nat then LSR_THRE else 0), sim_tick d).
Proof. done. Qed.

Lemma sim_wait n : forall d, busy d = n -> wait_tx (S n) QEMU_UART d = Ret (mkSim (out d) 0 (en d)).
Proof.
  induction n as [|n IH]; intros d E; cbn [wait_tx]; unfold tx_ready; rewrite sim_lsr, E; cbn [obind Nat.eqb Z.land Z.eqb negb].
  - unfold sim_tick. by rewrite E.
  - change (wait_tx (S n) QEMU_UART (sim_tick d) = Ret (mkSim (out d) 0 (en d))). rewrite IH; [done|]. cbn. lia.
Qed.

#[local, refine] Instance sim_uart : Uart16550 QEMU_UART := {|
  line := out; room := fun d => (16 - busy d)%nat; ier := fun d => en d mod 256; tick := sim_tick |}.
Proof.
  - done.
  - intros d. lia.
  - intros d. apply Z.mod_pos_bound. lia.
  - intros d. rewrite sim_lsr. eexists _, _. split; [reflexivity|]. cbn [sim_tick out en busy]. split_and!; [done|done|lia|].
    destruct (Nat.eqb_spec (busy d) 0) as [->|]; [done|]. intros H. by destruct H.
  - intros d n b Hr. exists (mkSim (out d ++ [b]) (S (busy d)) (en d)). cbn [out busy en]. split_and!; [|done|done|lia].
    change (write_reg QEMU_UART THR_OFFSET b d) with (Ret (if (busy d <? 16)%nat then mkSim (out d ++ [b]) (S (busy d)) (en d) else d)).
    by rewrite (proj2 (Nat.ltb_lt _ _)) by lia.
  - intros d b Hr. exists d. split_and!; [|done|done].
    change (write_reg QEMU_UART THR_OFFSET b d) with (Ret (if (busy d <? 16)%nat then mkSim (out d ++ [b]) (S (busy d)) (en d) else d)).
    by rewrite (proj2 (Nat.ltb_ge _ _)) by lia.
  - intros d. by exists d.
  - intros d v Hv. exists (mkSim (out d) (busy d) (v mod 256)). split_and!; [done|done| |done]. cbn [en]. rewrite !Z.mod_small; lia.
  - intros d. cbn [sim_tick out en busy]. split_and!; [done|done|lia].
  - intros d. exists (busy d). assert (H : forall n e, busy (Nat.iter n sim_tick e) = (busy e - n)%nat); [|by rewrite H, Nat.sub_diag].
    intros n e. induction n as [|n IH]; [cbn; lia|]. rewrite Nat.iter_succ. cbn [sim_tick busy]. rewrite IH. lia.
  - intros d. eexists _, _. by apply (sim_wait (busy d)).
Defined.

Definition idle_uart : sim := mkSim [] 0 0.

(** "Hi" and a line feed, written and sent. *)
Lemma writer_delivers_witness : exists c', rtc (run_step QEMU_UART) (send_write [72; 105; 10] (started idle_uart)) c' /\
  ph c' = Idle /\ inbox c' = [] /\ out (dev (st c')) = [72; 105; 13; 10].
Proof.
  destruct (writer_delivers QEMU_UART idle_uart [[72; 105; 10]] (send_write [72; 105; 10] (started idle_uart))) as [_ Hc]; [|exact Hc].
  apply (reach_send QEMU_UART idle_uart []), reach_started.
Defined.

End Writer.
