(* ===== verification/Sd.v ===== *)
(** * The SD card driver

    Models [src/src/drivers/sd.rs]: setting the controller up, starting a
    transfer of one buffer through an ADMA2 descriptor, and the interrupt that
    ends it.  The controller is the class [Sdhci], the behaviour the SD Host
    Controller specification documents: registers hold what was written to
    them, status registers are cleared by writing ones, and writing the command
    register starts the transfer the other registers describe.  The processor
    of the board does not keep its data cache coherent with the memory the
    controller reads, so the descriptor has two values: the one in the cache
    and the one the controller sees. *)

From S2P Require Import Prelude Memory Bytes Dtb Dispatcher Plic.

Module Sd.
Import Mm Blk.

Definition SD_BASE : Z := 0x0431_0000.
Definition SD_IRQ : Z := 36.

Definition REG_BLOCK_SIZE : Z := 0x04.
Definition REG_BLOCK_COUNT : Z := 0x06.
Definition REG_ARGUMENT : Z := 0x08.
Definition REG_XFER_MODE : Z := 0x0c.
Definition REG_HOST_CONTROL : Z := 0x28.
Definition REG_DATA_TIMEOUT : Z := 0x2e.
Definition REG_NORMAL_INT_STATUS : Z := 0x30.
Definition REG_ERROR_INT_STATUS : Z := 0x32.
Definition REG_NORMAL_INT_STATUS_EN : Z := 0x34.
Definition REG_ERROR_INT_STATUS_EN : Z := 0x36.
Definition REG_NORMAL_INT_SIGNAL_EN : Z := 0x38.
Definition REG_ERROR_INT_SIGNAL_EN : Z := 0x3a.
Definition REG_HOST_CONTROL2 : Z := 0x3e.
Definition REG_ADMA_ADDR_LOW : Z := 0x58.
Definition REG_ADMA_ADDR_HIGH : Z := 0x5c.

Definition DATA_TIMEOUT_VALUE : Z := 0x0e.

Definition XFER_MODE_DMA_ENABLE : Z := Z.shiftl 1 0.
Definition XFER_MODE_BLOCK_COUNT_EN : Z := Z.shiftl 1 1.
Definition XFER_MODE_AUTO_CMD12_EN : Z := Z.shiftl 1 2.
Definition XFER_MODE_DATA_DIR_READ : Z := Z.shiftl 1 4.
Definition XFER_MODE_MULTI_BLOCK : Z := Z.shiftl 1 5.

Definition CMD_INDEX_SHIFT : Z := 8.
Definition CMD_DATA_PRESENT : Z := Z.shiftl 1 5.
Definition CMD_CRC_CHECK : Z := Z.shiftl 1 4.
Definition CMD_INDEX_CHECK : Z := Z.shiftl 1 3.
Definition CMD_RESP_TYPE_R1 : Z := Z.shiftl 1 1.

Definition SD_CMD17_READ_SINGLE : Z := 17.
Definition SD_CMD18_READ_MULTIPLE : Z := 18.
Definition SD_CMD24_WRITE_SINGLE : Z := 24.
Definition SD_CMD25_WRITE_MULTIPLE : Z := 25.

Definition INT_TRANSFER_COMPLETE : Z := Z.shiftl 1 1.
Definition HOST_CTRL_DMA_MASK : Z := 0x18.
Definition HOST_CTRL_ADMA2_64 : Z := 0x18.
Definition HOST_CTRL2_64BIT_ADDR : Z := Z.shiftl 1 13.
Definition ADMA2_ACT_TRAN : Z := Z.shiftl 2 4.
Definition ADMA2_END : Z := Z.shiftl 1 1.
Definition ADMA2_VALID : Z := Z.shiftl 1 0.

#[local] Instance CpuType_eq_dec : EqDecision Fdt.CpuType.
Proof. solve_decision. Defined.

Record Adma2Desc := mkDesc { attr : Z; length : Z; addr_lo : Z; addr_hi : Z }.

(** [Adma2Desc::new]. *)
Definition desc_new (addr length : Z) (is_end : bool) : Adma2Desc :=
  let attr := Z.lor ADMA2_VALID ADMA2_ACT_TRAN in
  let attr := if is_end then Z.lor attr ADMA2_END else attr in
  mkDesc attr length (as_u32 addr) (as_u32 (Z.shiftr addr 32)).

Section driver.
Context {D : Type} {MD : Mmio D}.
Context (cpu : Fdt.CpuType).

(** The driver with the statics it uses: [desc_table] as the processor sees it
    and [seen] as the controller does; [called] are the results the completion
    handler was called with. *)
Record sd := mkSd {
  desc_table : Adma2Desc; seen : Adma2Desc; desc_table_phys : Z; dev : D;
  COMPLETION_HANDLER : Z; called : list (result unit BlockError) }.

Definition with_dev (f : D -> D) (s : sd) : sd := mkSd (desc_table s) (seen s) (desc_table_phys s) (f (dev s)) (COMPLETION_HANDLER s) (called s).

Definition read16 (offset : Z) (d : D) : Z * D := mmio_read 2 (SD_BASE + offset) d.
Definition read8 (offset : Z) (d : D) : Z * D := mmio_read 1 (SD_BASE + offset) d.
Definition write32 (offset val : Z) (d : D) : D := mmio_write 4 (SD_BASE + offset) val d.
Definition write16 (offset val : Z) (d : D) : D := mmio_write 2 (SD_BASE + offset) val d.
Definition write8 (offset val : Z) (d : D) : D := mmio_write 1 (SD_BASE + offset) val d.

(** A store of the processor; on other machines the controller sees it at once. *)
Definition set_desc (x : Adma2Desc) (s : sd) : sd :=
  mkSd x (if decide (cpu = Fdt.LicheeRVNano) then seen s else x) (desc_table_phys s) (dev s) (COMPLETION_HANDLER s) (called s).

Definition flush_dcache_for_dma (s : sd) : sd :=
  if decide (cpu = Fdt.LicheeRVNano) then mkSd (desc_table s) (desc_table s) (desc_table_phys s) (dev s) (COMPLETION_HANDLER s) (called s) else s.

(** What [new] does to the registers. *)
Definition setup (d : D) : D :=
  let d := write16 REG_NORMAL_INT_STATUS_EN 0xffff d in
  let d := write16 REG_ERROR_INT_STATUS_EN 0xffff d in
  let '(host_ctrl2, d) := read16 REG_HOST_CONTROL2 d in
  let host_ctrl2 := Z.lor host_ctrl2 HOST_CTRL2_64BIT_ADDR in
  let d := write16 REG_HOST_CONTROL2 host_ctrl2 d in
  let '(host_ctrl, d) := read8 REG_HOST_CONTROL d in
  let host_ctrl := Z.lor (Z.land host_ctrl (255 - HOST_CTRL_DMA_MASK)) HOST_CTRL_ADMA2_64 in
  write8 REG_HOST_CONTROL host_ctrl d.

Section io.
Context (kernel_virt_to_phys : Z -> option Z).

(** [new], with the zeroed descriptor [alloc_within_page] returned at [table]
    and the address of the interrupt handler. *)
Definition new {S : Type} (table sd_irq_handler : Z) (p : @Plic.plic D S) : outcome (result sd BlockError * @Plic.plic D S) :=
  match kernel_virt_to_phys table with
  | None => Ret (Err IoError, p)
  | Some desc_table_phys =>
      let p := Plic.with_dev (setup (Plic.dev p)) p in
      let! p := Plic.register_irq SD_IRQ sd_irq_handler p in
      let zero := mkDesc 0 0 0 0 in
      Ret (Ok (mkSd zero zero desc_table_phys (Plic.dev p) 0 []), p)
  end.

(** The values of the mode and command registers. *)
Definition command (sector_count xfer_dir cmd_single cmd_multi : Z) : Z :=
  let '(xfer_mode, cmd_index) :=
    if sector_count =? 1 then (Z.lor xfer_dir XFER_MODE_DMA_ENABLE, cmd_single)
    else (Z.lor (Z.lor (Z.lor (Z.lor xfer_dir XFER_MODE_DMA_ENABLE) XFER_MODE_BLOCK_COUNT_EN) XFER_MODE_MULTI_BLOCK) XFER_MODE_AUTO_CMD12_EN, cmd_multi) in
  let cmd := Z.lor (Z.lor (Z.lor (Z.lor (as_u16 (Z.shiftl cmd_index CMD_INDEX_SHIFT)) CMD_DATA_PRESENT) CMD_CRC_CHECK) CMD_INDEX_CHECK) CMD_RESP_TYPE_R1 in
  Z.lor xfer_mode (Z.shiftl cmd 16).

(** The register writes of [start_io]. *)
Definition program (desc_phys sector sector_count cmd : Z) (d : D) : D :=
  let d := write32 REG_ADMA_ADDR_LOW (as_u32 desc_phys) d in
  let d := write32 REG_ADMA_ADDR_HIGH (as_u32 (Z.shiftr desc_phys 32)) d in
  let d := write16 REG_NORMAL_INT_STATUS 0xffff d in
  let d := write16 REG_ERROR_INT_STATUS 0xffff d in
  let d := write16 REG_BLOCK_SIZE (as_u16 BLOCK_SIZE) d in
  let d := write16 REG_BLOCK_COUNT (as_u16 sector_count) d in
  let d := write8 REG_DATA_TIMEOUT DATA_TIMEOUT_VALUE d in
  let d := write32 REG_ARGUMENT sector d in
  let d := write16 REG_NORMAL_INT_SIGNAL_EN INT_TRANSFER_COMPLETE d in
  let d := write16 REG_ERROR_INT_SIGNAL_EN 0xffff d in
  write32 REG_XFER_MODE cmd d.

Definition start_io (sector : Z) (b : buffer) (xfer_dir cmd_single cmd_multi : Z) (s : sd) : outcome (result unit BlockError * sd) :=
  let! v := validate_read_buffer b in
  match v with
  | Err e => Ret (Err e, s)
  | Ok sector_count =>
      match kernel_virt_to_phys (ptr b) with
      | None => Ret (Err IoError, s)
      | Some buf_phys =>
          let s := set_desc (desc_new buf_phys (as_u16 (len b)) true) s in
          let s := flush_dcache_for_dma s in
          Ret (Ok tt, with_dev (program (desc_table_phys s) sector sector_count (command sector_count xfer_dir cmd_single cmd_multi)) s)
      end
  end.

Definition set_completion_handler (handler : Z) (s : sd) : sd := mkSd (desc_table s) (seen s) (desc_table_phys s) (dev s) handler (called s).

Definition sd_start_read (s : sd) (sector : Z) (b : buffer) : outcome (result unit BlockError * sd) :=
  start_io sector b XFER_MODE_DATA_DIR_READ SD_CMD17_READ_SINGLE SD_CMD18_READ_MULTIPLE s.

Definition sd_start_write (s : sd) (sector : Z) (b : buffer) : outcome (result unit BlockError * sd) :=
  start_io sector b 0 SD_CMD24_WRITE_SINGLE SD_CMD25_WRITE_MULTIPLE s.

End io.

Definition call_completion_handler (r : result unit BlockError) (s : sd) : sd :=
  if negb (COMPLETION_HANDLER s =? 0) then mkSd (desc_table s) (seen s) (desc_table_phys s) (dev s) (COMPLETION_HANDLER s) (called s ++ [r]) else s.

(** [!INT_TRANSFER_COMPLETE] on a [u16] is [0xfffd]. *)
Definition sd_irq_handler (s : sd) : sd :=
  let '(status, d) := read16 REG_NORMAL_INT_STATUS (dev s) in
  let '(err, d) := read16 REG_ERROR_INT_STATUS d in
  let d := write16 REG_NORMAL_INT_SIGNAL_EN 0 d in
  let d := write16 REG_ERROR_INT_SIGNAL_EN 0 d in
  let s := with_dev (fun _ => d) s in
  if negb (err =? 0) then call_completion_handler (Err IoError) (with_dev (write16 REG_ERROR_INT_STATUS 0xffff) s)
  else
    let s := if negb (Z.land status INT_TRANSFER_COMPLETE =? 0) then
               call_completion_handler (Ok tt) (flush_dcache_for_dma (with_dev (write16 REG_NORMAL_INT_STATUS INT_TRANSFER_COMPLETE) s))
             else s in
    let others := Z.land status (0xffff - INT_TRANSFER_COMPLETE) in
    if negb (others =? 0) then with_dev (write16 REG_NORMAL_INT_STATUS others) s else s.

(** ** The hardware *)

(** What a command register write starts. *)
Record transfer := mkTransfer {
  t_sector : Z; t_block_size : Z; t_block_count : Z; t_desc : Z; t_command : Z;
  t_signals : Z; t_error_signals : Z; t_status : Z; t_error_status : Z }.

(** Registers that hold what is written, by width. *)
Definition settable : list (Z * Z) :=
  [(2, REG_BLOCK_SIZE); (2, REG_BLOCK_COUNT); (4, REG_ARGUMENT); (1, REG_HOST_CONTROL); (1, REG_DATA_TIMEOUT);
   (2, REG_NORMAL_INT_STATUS_EN); (2, REG_ERROR_INT_STATUS_EN); (2, REG_NORMAL_INT_SIGNAL_EN); (2, REG_ERROR_INT_SIGNAL_EN);
   (2, REG_HOST_CONTROL2); (4, REG_ADMA_ADDR_LOW); (4, REG_ADMA_ADDR_HIGH)].

Definition statuses : list Z := [REG_NORMAL_INT_STATUS; REG_ERROR_INT_STATUS].

Definition snapshot (reg : Z -> Z) (v : Z) : transfer :=
  mkTransfer (reg REG_ARGUMENT) (reg REG_BLOCK_SIZE) (reg REG_BLOCK_COUNT) (reg REG_ADMA_ADDR_LOW + reg REG_ADMA_ADDR_HIGH * U32) v
    (reg REG_NORMAL_INT_SIGNAL_EN) (reg REG_ERROR_INT_SIGNAL_EN) (reg REG_NORMAL_INT_STATUS) (reg REG_ERROR_INT_STATUS).

Class Sdhci := {
  reg : D -> Z -> Z;
  issued : D -> list transfer;
  sh_read : forall w off d, (w, off) ∈ (2, REG_NORMAL_INT_STATUS) :: (2, REG_ERROR_INT_STATUS) :: settable -> exists d',
    mmio_read w (SD_BASE + off) d = (reg d off, d') /\ (forall o, reg d' o = reg d o) /\ issued d' = issued d;
  sh_write : forall w off v d, (w, off) ∈ settable -> 0 <= v < 2 ^ (8 * w) -> let d' := mmio_write w (SD_BASE + off) v d in
    (forall o, reg d' o = if o =? off then v else reg d o) /\ issued d' = issued d;
  sh_clear : forall off v d, off ∈ statuses -> 0 <= v < U16 -> let d' := mmio_write 2 (SD_BASE + off) v d in
    (forall o, reg d' o = if o =? off then Z.ldiff (reg d off) v else reg d o) /\ issued d' = issued d;
  sh_start : forall v d, 0 <= v < U32 -> let d' := mmio_write 4 (SD_BASE + REG_XFER_MODE) v d in
    issued d' = issued d ++ [snapshot (reg d) v];
  sh_status : forall d off, off ∈ statuses -> 0 <= reg d off < U16 }.

Context {SH : Sdhci}.

(** Writing all ones clears a status register. *)
Lemma clear_all d off : off ∈ statuses ->
  (forall o, reg (write16 off 0xffff d) o = if o =? off then 0 else reg d o) /\ issued (write16 off 0xffff d) = issued d.
Proof.
  intros Ho. destruct (sh_clear off 0xffff d Ho) as [Hr Hi]; [done|]. split; [|done]. intros o. unfold write16. rewrite Hr.
  destruct (o =? off); [|done]. pose proof (sh_status d off Ho) as Hs. unfold U16 in Hs. change 0xffff with (Z.ones 16).
  rewrite Z.ldiff_ones_r, Z.shiftr_div_pow2, Z.div_small by lia. done.
Qed.

(** Registers after some writes. *)
Definition write_ok (x : Z * Z * Z) : Prop := let '(w, off, v) := x in
  ((w, off) ∈ settable /\ 0 <= v < 2 ^ (8 * w)) \/ (w = 2 /\ off ∈ statuses /\ v = 0xffff).

Definition set_reg (f : Z -> Z) (x : Z * Z * Z) : Z -> Z := let '(w, off, v) := x in
  fun o => if o =? off then (if bool_decide (off ∈ statuses) then 0 else v) else f o.

Lemma settable_statuses w off : (w, off) ∈ settable -> off ∉ statuses.
Proof.
  intros Hs. assert (H : Forall (fun x : Z * Z => x.2 ∉ statuses) settable) by by apply (bool_decide_unpack _); vm_compute.
  rewrite Forall_forall in H. exact (H _ Hs).
Qed.

Lemma writes_ok l : forall d, Forall write_ok l -> let d' := foldl (fun d '(w, off, v) => mmio_write w (SD_BASE + off) v d) d l in
  (forall o, reg d' o = foldl set_reg (reg d) l o) /\ issued d' = issued d.
Proof.
  induction l as [|[[w off] v] l IH]; intros d Hl; [done|]. apply Forall_cons in Hl as [Hx Hl]. cbn [foldl].
  destruct (IH (mmio_write w (SD_BASE + off) v d) Hl) as [Hr Hi].
  assert (Hstep : (forall o, reg (mmio_write w (SD_BASE + off) v d) o = set_reg (reg d) (w, off, v) o) /\ issued (mmio_write w (SD_BASE + off) v d) = issued d).
  { unfold set_reg. destruct Hx as [[Hs Hv]|(-> & Hs & ->)].
    - rewrite bool_decide_eq_false_2 by by eapply settable_statuses. exact (sh_write w off v d Hs Hv).
    - rewrite bool_decide_eq_true_2 by done. exact (clear_all d off Hs). }
  destruct Hstep as [Hr1 Hi1]. split; [|by rewrite Hi]. intros o. rewrite Hr. clear -Hr1.
  assert (Hext : forall f g, (forall o, f o = g o) -> forall o, foldl set_reg f l o = foldl set_reg g l o); [|by apply Hext].
  clear. induction l as [|[[w off] v] l IH]; intros f g H o; [done|]. cbn [foldl]. apply IH. intros o'. cbn. by destruct (o' =? off).
Qed.

Lemma program_ok desc_phys sector n cmd d : 0 <= desc_phys < USIZE -> 0 <= sector < U32 -> 0 <= n < U16 -> 0 <= cmd < U32 ->
  issued (program desc_phys sector n cmd d) = issued d ++ [mkTransfer sector 512 n desc_phys cmd 2 0xffff 0 0].
Proof.
  intros Hp Hs Hn Hc. assert (H32 : forall x, 0 <= as_u32 x < U32) by (intros; apply Z.mod_pos_bound; done).
  set (l := [(4, REG_ADMA_ADDR_LOW, as_u32 desc_phys); (4, REG_ADMA_ADDR_HIGH, as_u32 (Z.shiftr desc_phys 32)); (2, REG_NORMAL_INT_STATUS, 0xffff);
    (2, REG_ERROR_INT_STATUS, 0xffff); (2, REG_BLOCK_SIZE, as_u16 BLOCK_SIZE); (2, REG_BLOCK_COUNT, as_u16 n); (1, REG_DATA_TIMEOUT, DATA_TIMEOUT_VALUE);
    (4, REG_ARGUMENT, sector); (2, REG_NORMAL_INT_SIGNAL_EN, INT_TRANSFER_COMPLETE); (2, REG_ERROR_INT_SIGNAL_EN, 0xffff)]).
  destruct (writes_ok l d) as [Hr Hi].
  { unfold l. repeat apply Forall_cons_2; [..|apply Forall_nil_2]; cbn [write_ok];
      first [left; split; [by apply (bool_decide_unpack _); vm_compute|] | right; split_and!; [done|by apply (bool_decide_unpack _); vm_compute|done]];
      first [exact (H32 _)|exact Hs|apply Z.mod_pos_bound; done|done]. }
  change (program desc_phys sector n cmd d) with (mmio_write 4 (SD_BASE + REG_XFER_MODE) cmd (foldl (fun d '(w, off, v) => mmio_write w (SD_BASE + off) v d) d l)).
  rewrite sh_start by done. rewrite Hi. do 2 f_equal. unfold snapshot. rewrite !Hr.
  transitivity (mkTransfer sector (as_u16 BLOCK_SIZE) (as_u16 n) (as_u32 desc_phys + as_u32 (Z.shiftr desc_phys 32) * U32) cmd 2 0xffff 0 0); [done|].
  rewrite u32_halves by done. unfold as_u16. by rewrite (Z.mod_small n) by done.
Qed.

(** ** Starting a transfer *)
Section start.
Context (kernel_virt_to_phys : Z -> option Z).

Definition sd_ok (s : sd) : Prop := 0 <= desc_table_phys s < USIZE.

(** The descriptor of the whole buffer at physical address [p]. *)
Definition describes (x : Adma2Desc) (p : Z) (b : buffer) : Prop :=
  attr x = 0x23 /\ length x = len b /\ (0 <= p < USIZE -> addr_lo x + addr_hi x * U32 = p).

Lemma start_io_ok s sector b dir single multi : sd_ok s -> buffer_ok b -> 0 <= sector < U32 ->
  (forall n, 0 <= command n dir single multi < U32) ->
  (exists e, start_io kernel_virt_to_phys sector b dir single multi s = Ret (Err e, s) /\ (~ dma_ok b \/ kernel_virt_to_phys (ptr b) = None)) \/
  (exists p s', dma_ok b /\ kernel_virt_to_phys (ptr b) = Some p /\ start_io kernel_virt_to_phys sector b dir single multi s = Ret (Ok tt, s') /\
     describes (seen s') p b /\ desc_table_phys s' = desc_table_phys s /\
     COMPLETION_HANDLER s' = COMPLETION_HANDLER s /\ called s' = called s /\
     issued (dev s') = issued (dev s) ++
       [mkTransfer sector 512 (len b / 512) (desc_table_phys s) (command (len b / 512) dir single multi) 2 0xffff 0 0]).
Proof.
  intros Hs Hb Hsec Hc. unfold start_io. destruct (validate_spec b Hb) as [(Hok & -> & Hn)|(Hno & ->)]; cbn [obind]; [|left; eauto].
  destruct (kernel_virt_to_phys (ptr b)) as [p|]; [right|left; eauto]. eexists p, _. split_and!; [done|done|done| | | | |].
  - assert (E : seen (flush_dcache_for_dma (set_desc (desc_new p (as_u16 (len b)) true) s)) = desc_new p (as_u16 (len b)) true).
    { unfold flush_dcache_for_dma, set_desc. cbn [seen]. by destruct (decide _). }
    cbn [with_dev seen]. rewrite E. split_and!; [done| |apply u32_halves]. destruct Hok as (? & ? & ? & ?). apply Z.mod_small. unfold U16. lia.
  - unfold flush_dcache_for_dma. cbn [with_dev]. by destruct (decide _).
  - unfold flush_dcache_for_dma. cbn [with_dev]. by destruct (decide _).
  - unfold flush_dcache_for_dma. cbn [with_dev]. by destruct (decide _).
  - assert (Hd : dev (flush_dcache_for_dma (set_desc (desc_new p (as_u16 (len b)) true) s)) = dev s) by (unfold flush_dcache_for_dma; by destruct (decide _)).
    assert (Hq : desc_table_phys (flush_dcache_for_dma (set_desc (desc_new p (as_u16 (len b)) true) s)) = desc_table_phys s) by (unfold flush_dcache_for_dma; by destruct (decide _)).
    cbn [with_dev dev]. rewrite Hd, Hq. apply program_ok; [done|done|unfold U16; lia|done].
Qed.

Lemma sd_total s sector b : sd_ok s -> buffer_ok b -> exists r s', sd_start_read kernel_virt_to_phys s sector b = Ret (r, s') /\ sd_ok s'.
Proof.
  intros Hs Hb. unfold sd_start_read, start_io. destruct (validate_spec b Hb) as [(_ & -> & _)|(_ & ->)]; cbn [obind]; [|by eexists _, _].
  destruct (kernel_virt_to_phys (ptr b)) as [p|]; [|by eexists _, _]. eexists _, _. split; [done|].
  unfold flush_dcache_for_dma. by destruct (decide _).
Qed.

#[global] Instance sd_driver : BlockDriver sd := {
  driver_ok := sd_ok;
  start_read := sd_start_read kernel_virt_to_phys;
  start_read_total := sd_total }.

(** C32: starting a read of the SD card fails and changes nothing, exactly when the
    buffer breaks a rule for DMA or has no physical address; or it starts one
    transfer: of the sectors from the one asked for, as many as fit the buffer,
    with the single or the multiple block read command, to the buffer's
    physical address, which the descriptor the controller sees names with the
    buffer's full length; old status bits are cleared and the interrupts for
    the end of the transfer and for errors enabled before it starts. *)
Theorem sd_start_read_spec s sector b (Hs : sd_ok s) (Hb : buffer_ok b) (Hsec : 0 <= sector < U32) :
  (exists e, sd_start_read kernel_virt_to_phys s sector b = Ret (Err e, s) /\ (~ dma_ok b \/ kernel_virt_to_phys (ptr b) = None)) \/
  (exists p s' x, dma_ok b /\ kernel_virt_to_phys (ptr b) = Some p /\ sd_start_read kernel_virt_to_phys s sector b = Ret (Ok tt, s') /\ sd_ok s' /\
     describes (seen s') p b /\ issued (dev s') = issued (dev s) ++ [x] /\
     t_sector x = sector /\ t_block_size x * t_block_count x = len b /\ t_desc x = desc_table_phys s /\
     t_command x = (if len b =? 512 then 0x113a_0011 else 0x123a_0037) /\
     t_signals x = 2 /\ t_error_signals x = 0xffff /\ t_status x = 0 /\ t_error_status x = 0).
Proof.
  destruct (start_io_ok s sector b XFER_MODE_DATA_DIR_READ SD_CMD17_READ_SINGLE SD_CMD18_READ_MULTIPLE Hs Hb Hsec)
    as [(e & E & He)|(p & s' & Hok & Hp & E & Hseen & Hd & _ & _ & Hi)]; [|left; eauto|right].
  { intros n. unfold command. by destruct (n =? 1). }
  eexists p, s', _. split_and!; [done|done|exact E|unfold sd_ok; by rewrite Hd|done|exact Hi|..]; cbn [t_sector t_block_size t_block_count t_desc t_command t_signals t_error_signals t_status t_error_status].
  all: try done. all: destruct Hok as (? & ? & ? & ?).
  - lia.
  - unfold command. destruct (Z.eqb_spec (len b / 512) 1), (Z.eqb_spec (len b) 512); [done|lia|lia|done].
Qed.

(** A write does the same in the other direction. *)
Lemma sd_start_write_ok s sector b : sd_ok s -> buffer_ok b -> 0 <= sector < U32 ->
  (exists e, sd_start_write kernel_virt_to_phys s sector b = Ret (Err e, s) /\ (~ dma_ok b \/ kernel_virt_to_phys (ptr b) = None)) \/
  (exists p s', kernel_virt_to_phys (ptr b) = Some p /\ sd_start_write kernel_virt_to_phys s sector b = Ret (Ok tt, s') /\ describes (seen s') p b /\
     issued (dev s') = issued (dev s) ++
       [mkTransfer sector 512 (len b / 512) (desc_table_phys s) (if len b =? 512 then 0x183a_0001 else 0x193a_0027) 2 0xffff 0 0]).
Proof.
  intros Hs Hb Hsec. destruct (start_io_ok s sector b 0 SD_CMD24_WRITE_SINGLE SD_CMD25_WRITE_MULTIPLE Hs Hb Hsec)
    as [(e & E & He)|(p & s' & Hok & Hp & E & Hseen & _ & _ & _ & Hi)]; [|left; eauto|right].
  { intros n. unfold command. by destruct (n =? 1). }
  exists p, s'. split_and!; [done|done|done|]. rewrite Hi. do 3 f_equal. destruct Hok as (? & ? & ? & ?).
  unfold command. destruct (Z.eqb_spec (len b / 512) 1), (Z.eqb_spec (len b) 512); [done|lia|lia|done].
Qed.

End start.

(** ** The end of a transfer *)
Lemma write_signals d : let d' := write16 REG_ERROR_INT_SIGNAL_EN 0 (write16 REG_NORMAL_INT_SIGNAL_EN 0 d) in
  (forall o, reg d' o = if o =? REG_ERROR_INT_SIGNAL_EN then 0 else if o =? REG_NORMAL_INT_SIGNAL_EN then 0 else reg d o) /\ issued d' = issued d.
Proof.
  cbn zeta. unfold write16. destruct (sh_write 2 REG_NORMAL_INT_SIGNAL_EN 0 d) as [R1 I1]; [by apply (bool_decide_unpack _); vm_compute|done|].
  destruct (sh_write 2 REG_ERROR_INT_SIGNAL_EN 0 (mmio_write 2 (SD_BASE + REG_NORMAL_INT_SIGNAL_EN) 0 d)) as [R2 I2]; [by apply (bool_decide_unpack _); vm_compute|done|].
  split; [|by rewrite I2]. intros o. rewrite R2. destruct (o =? REG_ERROR_INT_SIGNAL_EN); [done|]. apply R1.
Qed.

Definition outcome_of (status err : Z) : list (result unit BlockError) :=
  if negb (err =? 0) then [Err IoError] else if Z.testbit status 1 then [Ok tt] else [].

Lemma tc_bit st : Z.land st INT_TRANSFER_COMPLETE = if Z.testbit st 1 then 2 else 0.
Proof.
  apply Z.bits_inj'. intros n Hn. change INT_TRANSFER_COMPLETE with (2 ^ 1). rewrite Z.land_spec, Z.pow2_bits_eqb by lia.
  destruct (Z.eqb_spec 1 n) as [<-|Hne]; [rewrite andb_true_r; by destruct (Z.testbit st 1)|]. rewrite andb_false_r.
  destruct (Z.testbit st 1); [|by rewrite Z.bits_0]. change 2 with (2 ^ 1). by rewrite Z.pow2_bits_false by lia.
Qed.

Lemma others_bits n : 0 <= n -> Z.testbit (0xffff - INT_TRANSFER_COMPLETE) n = (n <? 16) && negb (n =? 1).
Proof.
  intros Hn. change (0xffff - INT_TRANSFER_COMPLETE) with (Z.ldiff (Z.ones 16) (2 ^ 1)). rewrite Z.ldiff_spec, Z.pow2_bits_eqb, Z.eqb_sym by lia. f_equal.
  destruct (Z.ltb_spec n 16); [by rewrite Z.ones_spec_low by lia|by rewrite Z.ones_spec_high by lia].
Qed.

(** Acknowledging [others] and, when it is set, the end of the transfer, clears
    the register. *)
Lemma ack_all st : 0 <= st < U16 -> let others := Z.land st (0xffff - INT_TRANSFER_COMPLETE) in
  Z.ldiff (if Z.testbit st 1 then Z.ldiff st INT_TRANSFER_COMPLETE else st) others = 0.
Proof.
  intros Hst others. apply Z.bits_inj'. intros n Hn. rewrite Z.bits_0, Z.ldiff_spec. unfold others. rewrite Z.land_spec, others_bits by done.
  destruct (Z.eqb_spec n 1) as [->|Hne].
  - rewrite andb_false_r. destruct (Z.testbit st 1) eqn:E; [by rewrite Z.ldiff_spec, andb_false_r|by rewrite E].
  - assert (Hhi : n <? 16 = false -> Z.testbit st n = false).
    { intros H%Z.ltb_ge. rewrite <- (Z.mod_small st (2 ^ 16)) by done. by apply Z.mod_pow2_bits_high; lia. }
    assert (Hbit : Z.testbit (if Z.testbit st 1 then Z.ldiff st INT_TRANSFER_COMPLETE else st) n = Z.testbit st n).
    { destruct (Z.testbit st 1); [|done]. change INT_TRANSFER_COMPLETE with (2 ^ 1). by rewrite Z.ldiff_spec, Z.pow2_bits_false, andb_true_r by lia. }
    rewrite Hbit. destruct (n <? 16); [by destruct (Z.testbit st n)|by rewrite Hhi].
Qed.

Lemma clear_status d v : 0 <= v < U16 ->
  (forall o, reg (write16 REG_NORMAL_INT_STATUS v d) o = if o =? REG_NORMAL_INT_STATUS then Z.ldiff (reg d REG_NORMAL_INT_STATUS) v else reg d o) /\
  issued (write16 REG_NORMAL_INT_STATUS v d) = issued d.
Proof. intros Hv. exact (sh_clear REG_NORMAL_INT_STATUS v d ltac:(left) Hv). Qed.

(** The two acknowledgements of [sd_irq_handler]. *)
Definition ack (st : Z) (d : D) : D :=
  let d := if Z.testbit st 1 then write16 REG_NORMAL_INT_STATUS INT_TRANSFER_COMPLETE d else d in
  let others := Z.land st (0xffff - INT_TRANSFER_COMPLETE) in
  if negb (others =? 0) then write16 REG_NORMAL_INT_STATUS others d else d.

Lemma ack_ok d : let d' := ack (reg d REG_NORMAL_INT_STATUS) d in
  (forall o, reg d' o = if o =? REG_NORMAL_INT_STATUS then 0 else reg d o) /\ issued d' = issued d.
Proof.
  set (st := reg d REG_NORMAL_INT_STATUS). assert (Hst : 0 <= st < U16) by (apply sh_status; left). cbn zeta. unfold ack.
  set (d1 := if Z.testbit st 1 then _ else d).
  assert (H1 : (forall o, reg d1 o = if o =? REG_NORMAL_INT_STATUS then (if Z.testbit st 1 then Z.ldiff st INT_TRANSFER_COMPLETE else st) else reg d o) /\ issued d1 = issued d).
  { unfold d1. destruct (Z.testbit st 1); [by apply clear_status|]. split; [|done]. intros o. by destruct (Z.eqb_spec o REG_NORMAL_INT_STATUS) as [->|]. }
  destruct H1 as [R1 I1]. pose proof (ack_all st Hst) as Ha. cbn zeta in Ha. set (others := Z.land st _) in *.
  destruct (Z.eqb_spec others 0) as [E|E]; cbn [negb].
  - split; [|done]. intros o. rewrite R1. rewrite E, Z.ldiff_0_r in Ha. by rewrite Ha.
  - destruct (clear_status d1 others) as [R2 I2]; [apply (land_lt_pow2 16); [lia|done]|]. split; [|by rewrite I2].
    intros o. rewrite R2, R1, Z.eqb_refl, Ha. destruct (o =? REG_NORMAL_INT_STATUS) eqn:Eo; [done|]. by rewrite R1, Eo.
Qed.

(** The reads and writes at the start of the handler, and what it does then. *)
Lemma irq_reads s : exists d,
  sd_irq_handler s = (let st := reg (dev s) REG_NORMAL_INT_STATUS in
    if negb (reg (dev s) REG_ERROR_INT_STATUS =? 0) then call_completion_handler (Err IoError) (with_dev (fun _ => write16 REG_ERROR_INT_STATUS 0xffff d) s)
    else
      let s' := if Z.testbit st 1 then call_completion_handler (Ok tt) (flush_dcache_for_dma s) else s in
      with_dev (fun _ => ack st d) s') /\
  (forall o, reg d o = if o =? REG_ERROR_INT_SIGNAL_EN then 0 else if o =? REG_NORMAL_INT_SIGNAL_EN then 0 else reg (dev s) o) /\ issued d = issued (dev s).
Proof.
  unfold sd_irq_handler, read16.
  destruct (sh_read 2 REG_NORMAL_INT_STATUS (dev s)) as (d1 & -> & R1 & I1); [by apply (bool_decide_unpack _); vm_compute|].
  destruct (sh_read 2 REG_ERROR_INT_STATUS d1) as (d2 & -> & R2 & I2); [by apply (bool_decide_unpack _); vm_compute|]. rewrite R1.
  set (st := reg (dev s) REG_NORMAL_INT_STATUS). destruct (write_signals d2) as [R3 I3]. cbn zeta in R3, I3.
  exists (write16 REG_ERROR_INT_SIGNAL_EN 0 (write16 REG_NORMAL_INT_SIGNAL_EN 0 d2)). split_and!; [|intros o; by rewrite R3, R2, R1|by rewrite I3, I2].
  cbn zeta. destruct (negb (reg (dev s) REG_ERROR_INT_STATUS =? 0)); [done|]. rewrite tc_bit. unfold ack, with_dev, call_completion_handler, flush_dcache_for_dma.
  destruct (Z.testbit st 1); cbn [Z.eqb negb desc_table seen desc_table_phys dev COMPLETION_HANDLER called].
  - destruct (decide _); cbn [desc_table seen desc_table_phys dev COMPLETION_HANDLER called]; destruct (negb (COMPLETION_HANDLER s =? 0)); by destruct (negb _).
  - by destruct (negb _).
Qed.

(** C33: the interrupt handler reports the end of a transfer once: an error when
    the controller has one, success when the transfer is complete, and nothing
    when neither is so; it turns the interrupts off and acknowledges what it
    reported, so that the controller stops asking. *)
Theorem sd_irq_handler_spec s (Hh : COMPLETION_HANDLER s <> 0) :
  let s' := sd_irq_handler s in let st := reg (dev s) REG_NORMAL_INT_STATUS in let err := reg (dev s) REG_ERROR_INT_STATUS in
  called s' = called s ++ outcome_of st err /\
  reg (dev s') REG_NORMAL_INT_SIGNAL_EN = 0 /\ reg (dev s') REG_ERROR_INT_SIGNAL_EN = 0 /\
  (err <> 0 -> reg (dev s') REG_ERROR_INT_STATUS = 0) /\ (err = 0 -> reg (dev s') REG_NORMAL_INT_STATUS = 0) /\
  issued (dev s') = issued (dev s) /\ desc_table s' = desc_table s /\ desc_table_phys s' = desc_table_phys s.
Proof.
  cbn zeta. destruct (irq_reads s) as (d & -> & R & I). cbn zeta.
  set (st := reg (dev s) REG_NORMAL_INT_STATUS). set (err := reg (dev s) REG_ERROR_INT_STATUS). unfold outcome_of.
  assert (Hcall : forall r s1, COMPLETION_HANDLER s1 = COMPLETION_HANDLER s -> call_completion_handler r s1 =
    mkSd (desc_table s1) (seen s1) (desc_table_phys s1) (dev s1) (COMPLETION_HANDLER s1) (called s1 ++ [r])).
  { intros r s1 E. unfold call_completion_handler. by rewrite E, (proj2 (Z.eqb_neq _ _)). }
  destruct (Z.eqb_spec err 0) as [He|He]; cbn [negb].
  - destruct (ack_ok d) as [R' I']. rewrite (R REG_NORMAL_INT_STATUS : reg d _ = st) in R', I'.
    set (s1 := if Z.testbit st 1 then _ else s).
    assert (H1 : called s1 = called s ++ (if Z.testbit st 1 then [Ok tt] else []) /\ desc_table s1 = desc_table s /\ desc_table_phys s1 = desc_table_phys s).
    { unfold s1. destruct (Z.testbit st 1); [|by rewrite app_nil_r]. unfold flush_dcache_for_dma. rewrite Hcall by by destruct (decide _). by destruct (decide _). }
    destruct H1 as (H1 & H2 & H3). cbn [with_dev called dev desc_table desc_table_phys].
    split_and!; [done|by rewrite R', R|by rewrite R', R|done|intros _; by rewrite R'|by rewrite I'|done|done].
  - rewrite Hcall by done. cbn [with_dev called dev desc_table desc_table_phys].
    destruct (clear_all d REG_ERROR_INT_STATUS) as [R' I']; [right; left|].
    split_and!; [done|by rewrite R', R|by rewrite R', R|intros _; by rewrite R'|done|by rewrite I'|done|done].
Qed.

End driver.
(** ** A simulated controller *)
Record sim := mkSim { regs : Z -> Z; cmds : list transfer }.

Definition sim_reg (d : sim) (o : Z) : Z := if bool_decide (o ∈ statuses) then regs d o mod U16 else regs d o.

Definition sim_read (w addr : Z) (d : sim) : Z * sim := (sim_reg d (addr - SD_BASE), d).

Definition sim_write (w addr v : Z) (d : sim) : sim :=
  let off := addr - SD_BASE in
  if bool_decide (off ∈ statuses) then mkSim (fun o => if o =? off then Z.ldiff (sim_reg d off) v else regs d o) (cmds d)
  else if off =? REG_XFER_MODE then mkSim (regs d) (cmds d ++ [snapshot (sim_reg d) v])
  else mkSim (fun o => if o =? off then v else regs d o) (cmds d).

#[local] Instance sim_mmio : Mmio sim := { mmio_read := sim_read; mmio_write := sim_write }.

#[local, refine] Instance sim_sdhci : Sdhci := {| reg := sim_reg; issued := cmds |}.
Proof.
  all: unfold mmio_read, mmio_write; cbn [sim_mmio]; unfold sim_read, sim_write.
  - intros w off d _. exists d. by replace (SD_BASE + off - SD_BASE) with off by lia.
  - intros w off v d Hs Hv. replace (SD_BASE + off - SD_BASE) with off by lia. pose proof (settable_statuses _ _ Hs) as Hn.
    rewrite bool_decide_eq_false_2 by done. destruct (Z.eqb_spec off REG_XFER_MODE) as [->|_].
    { exfalso. revert Hs. clear. unfold settable. rewrite !elem_of_cons, elem_of_nil. naive_solver. }
    split; [|done]. intros o. unfold sim_reg. cbn [regs]. destruct (Z.eqb_spec o off) as [->|]; [|done]. by rewrite bool_decide_eq_false_2.
  - intros off v d Hs Hv. replace (SD_BASE + off - SD_BASE) with off by lia. rewrite bool_decide_eq_true_2 by done. split; [|done].
    intros o. unfold sim_reg at 1. cbn [regs]. destruct (Z.eqb_spec o off) as [->|]; [|by unfold sim_reg].
    unfold sim_reg. rewrite bool_decide_eq_true_2 by done. apply Z.bits_inj'. intros n Hn. unfold U16.
    destruct (decide (n < 16)); [by rewrite Z.mod_pow2_bits_low by lia|]. by rewrite Z.ldiff_spec, !Z.mod_pow2_bits_high by lia.
  - done.
  - intros d off Hs. unfold sim_reg. rewrite bool_decide_eq_true_2 by done. apply Z.mod_pos_bound. done.
Defined.

Definition demo_sd : sd := mkSd (mkDesc 0 0 0 0) (mkDesc 0 0 0 0) 0x8040_0000 (mkSim (fun _ => 0) []) 0x8020_5678 [].

(** The heap at a constant distance from its frames. *)
Definition demo_phys (v : Z) : option Z := if v <? 0x1000 then None else Some (v + 0x8000_0000).

Lemma sd_start_read_spec_witness : exists s' x, sd_start_read Fdt.LicheeRVNano demo_phys demo_sd 2048 (mkBuffer 0x5000 4096) = Ret (Ok tt, s') /\
  cmds (dev s') = [x] /\ t_sector x = 2048 /\ t_block_size x * t_block_count x = 4096 /\ t_command x = 0x123a_0037.
Proof.
  destruct (sd_start_read_spec Fdt.LicheeRVNano demo_phys demo_sd 2048 (mkBuffer 0x5000 4096)) as [(e & E & _)|(p & s' & x & _ & _ & E & _ & _ & Hi & H1 & H2 & _ & H3 & _)];
    [done|unfold buffer_ok; cbn; unfold USIZE; lia|done|exfalso; by vm_compute in E|].
  exists s', x. split; [exact E|]. split; [exact Hi|]. split; [exact H1|]. split; [exact H2|exact H3].
Defined.

(** The controller after the transfer: command and transfer complete. *)
Definition done_sd : sd := mkSd (mkDesc 0 0 0 0) (mkDesc 0 0 0 0) 0x8040_0000 (mkSim (fun o => if o =? REG_NORMAL_INT_STATUS then 3 else 0) []) 0x8020_5678 [].

Lemma sd_irq_handler_spec_witness : called (sd_irq_handler Fdt.LicheeRVNano done_sd) = [Ok tt] /\
  sim_reg (dev (sd_irq_handler Fdt.LicheeRVNano done_sd)) REG_NORMAL_INT_STATUS = 0.
Proof.
  destruct (sd_irq_handler_spec Fdt.LicheeRVNano done_sd) as (H1 & _ & _ & _ & H2 & _); [done|]. split; [exact H1|apply H2; done].
Defined.

End Sd.
