(* ===== verification/VirtioDev.v ===== *)
(** * Bringing up the VirtIO block device

    Models the rest of [src/src/drivers/virtio_blk.rs] ([Dispatcher.Virtio] has
    the request path): probing the eight slots of the bus, the initialisation
    sequence, and the interrupt handler.  What the bus records of the driver is
    the sequence of its register writes, the class [VirtioBus]; the device side
    of the protocol is the automaton [monitor], written from the VirtIO
    specification (version 1, devices on memory-mapped buses), which lists the
    rules a sequence of writes breaks. *)

From S2P Require Import Prelude Memory Bytes Dtb Dispatcher Plic.

Module VirtioDev.
Import Mm Blk.

Definition VIRTIO_BASE : Z := 0x1000_1000.
Definition VIRTIO_STRIDE : Z := 0x1000.
Definition VIRTIO_COUNT : nat := 8.
Definition VIRTIO_IRQ_BASE : Z := 1.

Definition VIRTIO_MAGIC : Z := 0x7472_6976.
Definition VERSION : Z := 2.
Definition DEVICE_ID_BLOCK : Z := 2.
Definition QUEUE_READY_VALUE : Z := 1.

Definition REG_MAGIC_VALUE : Z := 0x000.
Definition REG_VERSION : Z := 0x004.
Definition REG_DEVICE_ID : Z := 0x008.
Definition REG_DRIVER_FEATURES : Z := 0x020.
Definition REG_QUEUE_SEL : Z := 0x030.
Definition REG_QUEUE_NUM_MAX : Z := 0x034.
Definition REG_QUEUE_NUM : Z := 0x038.
Definition REG_QUEUE_READY : Z := 0x044.
Definition REG_QUEUE_NOTIFY : Z := 0x050.
Definition REG_INTERRUPT_STATUS : Z := 0x060.
Definition REG_INTERRUPT_ACK : Z := 0x064.
Definition REG_STATUS : Z := 0x070.
Definition REG_QUEUE_DESC_LOW : Z := 0x080.
Definition REG_QUEUE_DESC_HIGH : Z := 0x084.
Definition REG_QUEUE_AVAIL_LOW : Z := 0x090.
Definition REG_QUEUE_AVAIL_HIGH : Z := 0x094.
Definition REG_QUEUE_USED_LOW : Z := 0x0a0.
Definition REG_QUEUE_USED_HIGH : Z := 0x0a4.

Definition STATUS_ACKNOWLEDGE : Z := 1.
Definition STATUS_DRIVER : Z := 2.
Definition STATUS_FEATURES_OK : Z := 8.
Definition STATUS_DRIVER_OK : Z := 4.
Definition INT_USED_BUFFER : Z := 0x1.

Section driver.
Context {D : Type} {MD : Mmio D}.

Definition read32 (base offset : Z) (d : D) : Z * D := mmio_read 4 (base + offset) d.
Definition write32 (base offset val : Z) (d : D) : D := mmio_write 4 (base + offset) val d.

(** The slots from [i], [n] of them. *)
Fixpoint probe_from (n : nat) (i : Z) (d : D) : option Z * D :=
  match n with
  | O => (None, d)
  | S n =>
      let base := VIRTIO_BASE + i * VIRTIO_STRIDE in
      let '(magic, d) := read32 base REG_MAGIC_VALUE d in
      if negb (magic =? VIRTIO_MAGIC) then probe_from n (i + 1) d
      else
        let '(version, d) := read32 base REG_VERSION d in
        if negb (version =? VERSION) then probe_from n (i + 1) d
        else
          let '(device_id, d) := read32 base REG_DEVICE_ID d in
          if device_id =? DEVICE_ID_BLOCK then (Some base, d) else probe_from n (i + 1) d
  end.

Definition probe (d : D) : option Z * D := probe_from VIRTIO_COUNT 0 d.

(** The steps of [new] up to [FEATURES_OK]. *)
Definition negotiate (base : Z) (d : D) : bool * D :=
  let d := write32 base REG_STATUS 0 d in
  let d := write32 base REG_STATUS (Z.lor STATUS_ACKNOWLEDGE STATUS_DRIVER) d in
  let d := write32 base REG_DRIVER_FEATURES 0 d in
  let d := write32 base REG_STATUS (Z.lor (Z.lor STATUS_ACKNOWLEDGE STATUS_DRIVER) STATUS_FEATURES_OK) d in
  let '(status, d) := read32 base REG_STATUS d in
  (negb (Z.land status STATUS_FEATURES_OK =? 0), d).

(** The size of the queue; false when the device has none. *)
Definition select_queue (base : Z) (d : D) : bool * D :=
  let d := write32 base REG_QUEUE_SEL 0 d in
  let '(max_size, d) := read32 base REG_QUEUE_NUM_MAX d in
  if max_size =? 0 then (false, d) else (true, write32 base REG_QUEUE_NUM (as_u32 Virtio.VIRTIO_QUEUE_SIZE) d).

(** Where the queue is; the device goes live. *)
Definition go_live (base desc_phys avail_phys used_phys : Z) (d : D) : D :=
  let d := write32 base REG_QUEUE_DESC_LOW (as_u32 desc_phys) d in
  let d := write32 base REG_QUEUE_DESC_HIGH (as_u32 (Z.shiftr desc_phys 32)) d in
  let d := write32 base REG_QUEUE_AVAIL_LOW (as_u32 avail_phys) d in
  let d := write32 base REG_QUEUE_AVAIL_HIGH (as_u32 (Z.shiftr avail_phys 32)) d in
  let d := write32 base REG_QUEUE_USED_LOW (as_u32 used_phys) d in
  let d := write32 base REG_QUEUE_USED_HIGH (as_u32 (Z.shiftr used_phys 32)) d in
  let d := write32 base REG_QUEUE_READY QUEUE_READY_VALUE d in
  write32 base REG_STATUS (Z.lor (Z.lor (Z.lor STATUS_ACKNOWLEDGE STATUS_DRIVER) STATUS_FEATURES_OK) STATUS_DRIVER_OK) d.

(** The zeroed boxes [alloc_within_page] returns, by address. *)
Record boxes := mkBoxes { desc : Z; avail : Z; used : Z; req : Z; status : Z }.

Section phys.
Context (kernel_virt_to_phys : Z -> option Z).

(** [new] up to the registration of the interrupt handler. *)
Definition attach (x : boxes) (d : D) : result (Z * Virtio.VirtioBlk) BlockError * D :=
  let '(found, d) := probe d in
  match found with
  | None => (Err IoError, d)
  | Some base =>
      let '(ok, d) := negotiate base d in
      if negb ok then (Err IoError, d)
      else
        let '(ok, d) := select_queue base d in
        if negb ok then (Err IoError, d)
        else
          match kernel_virt_to_phys (desc x), kernel_virt_to_phys (avail x), kernel_virt_to_phys (used x) with
          | Some desc_phys, Some avail_phys, Some used_phys =>
              let d := go_live base desc_phys avail_phys used_phys d in
              match kernel_virt_to_phys (req x), kernel_virt_to_phys (status x) with
              | Some req_phys, Some status_phys =>
                  (Ok (base, Virtio.mkVirtio (replicate 4 (Virtio.mkDesc 0 0 0 0)) (replicate 6 0) (Virtio.mkReq 0 0) 0 req_phys status_phys 0), d)
              | _, _ => (Err IoError, d)
              end
          | _, _, _ => (Err IoError, d)
          end
  end.

Definition new {S : Type} (x : boxes) (virtio_irq_handler : Z) (p : @Plic.plic D S) : outcome (result (Z * Virtio.VirtioBlk) BlockError * @Plic.plic D S) :=
  let '(r, d) := attach x (Plic.dev p) in
  let p := Plic.with_dev d p in
  match r with
  | Err e => Ret (Err e, p)
  | Ok (base, v) =>
      let! off := usub base VIRTIO_BASE in
      let device_index := as_u32 (off / VIRTIO_STRIDE) in
      let irq := VIRTIO_IRQ_BASE + device_index in
      let! p := Plic.register_irq irq virtio_irq_handler p in
      Ret (Ok (base, v), p)
  end.

End phys.

(** The interrupt handler: [handler] is [COMPLETION_HANDLER], and the result
    what it is called with, if it is. *)
Definition virtio_irq_handler (DEVICE_BASE handler : Z) (d : D) : option (result unit BlockError) * D :=
  if DEVICE_BASE =? 0 then (None, d)
  else
    let '(int_status, d) := read32 DEVICE_BASE REG_INTERRUPT_STATUS d in
    if negb (Z.land int_status INT_USED_BUFFER =? 0) then
      let d := write32 DEVICE_BASE REG_INTERRUPT_ACK int_status d in
      (if negb (handler =? 0) then Some (Ok tt) else None, d)
    else (None, d).

(** ** The device side of the protocol *)

(** The driver's view of a register the source has no name for. *)
Definition REG_DRIVER_FEATURES_SEL : Z := 0x024.

(** The rules on writes: status bits are added in order, and the last only with a
    ready queue; features are written in their phase, to a selected word; a
    driver of such a device accepts [VIRTIO_F_VERSION_1], bit 32; the queue is
    set up between [FEATURES_OK] and [DRIVER_OK], selected and not ready, with a
    size that is a power of two and no more than the device's maximum; a live
    device only is notified. *)
Inductive rule := StatusOrder | VersionOne | FeaturesPhase | FeaturesSelected | QueuePhase | QueueSelected | QueueSize | QueueEmpty | NotLive | NoRegister.

(** Device status, the words selected, the features accepted by word, and the
    registers of the queue as last written. *)
Record vdev := mkVdev { vstatus : Z; vfeatures_sel : option Z; vfeatures : Z -> Z; vqueue_sel : option Z; vregs : Z -> Z }.

(** After a reset nothing is known of the selectors. *)
Definition vreset : vdev := mkVdev 0 None (fun _ => 0) None (fun _ => 0).

Definition queue_regs : list Z :=
  [REG_QUEUE_NUM; REG_QUEUE_READY; REG_QUEUE_DESC_LOW; REG_QUEUE_DESC_HIGH; REG_QUEUE_AVAIL_LOW; REG_QUEUE_AVAIL_HIGH; REG_QUEUE_USED_LOW; REG_QUEUE_USED_HIGH].

Definition need (r : rule) (b : bool) : list rule := if b then [] else [r].

Definition status_rules (s : vdev) (v : Z) : list rule :=
  need StatusOrder ((Z.land (vstatus s) v =? vstatus s) && implb (Z.testbit v 1) (Z.testbit v 0) && implb (Z.testbit v 3) (Z.testbit v 1) &&
    implb (Z.testbit v 2) (Z.testbit v 3 && (vregs s REG_QUEUE_READY =? 1))) ++
  need VersionOne (implb (Z.testbit v 3 && negb (Z.testbit (vstatus s) 3)) (Z.testbit (vfeatures s 1) 0)).

Definition queue_phase (s : vdev) : bool := Z.testbit (vstatus s) 3 && negb (Z.testbit (vstatus s) 2).

Definition queue_rules (max off v : Z) (s : vdev) : list rule :=
  need QueuePhase (queue_phase s && (vregs s REG_QUEUE_READY =? 0)) ++ need QueueSelected (bool_decide (vqueue_sel s <> None)) ++
  (if off =? REG_QUEUE_NUM then need QueueSize ((0 <? v) && (v <=? max) && (Z.land v (v - 1) =? 0)) else []) ++
  (if off =? REG_QUEUE_READY then need QueueEmpty (negb (vregs s REG_QUEUE_NUM =? 0)) else []).

(** A write of the driver to a device whose queue has at most [max] entries: the
    rules it breaks, and the registers as written. *)
Definition observe (max : Z) (s : vdev) (w : Z * Z) : list rule * vdev :=
  let '(off, v) := w in
  if off =? REG_STATUS then
    if v =? 0 then ([], vreset) else (status_rules s v, mkVdev v (vfeatures_sel s) (vfeatures s) (vqueue_sel s) (vregs s))
  else if off =? REG_DRIVER_FEATURES_SEL then ([], mkVdev (vstatus s) (Some v) (vfeatures s) (vqueue_sel s) (vregs s))
  else if off =? REG_DRIVER_FEATURES then
    (need FeaturesPhase (Z.testbit (vstatus s) 1 && negb (Z.testbit (vstatus s) 3)) ++ need FeaturesSelected (bool_decide (vfeatures_sel s <> None)),
     match vfeatures_sel s with
     | Some word => mkVdev (vstatus s) (Some word) (fun o => if o =? word then v else vfeatures s o) (vqueue_sel s) (vregs s)
     | None => s
     end)
  else if off =? REG_QUEUE_SEL then (need QueuePhase (queue_phase s), mkVdev (vstatus s) (vfeatures_sel s) (vfeatures s) (Some v) (vregs s))
  else if bool_decide (off ∈ queue_regs) then
    (queue_rules max off v s, mkVdev (vstatus s) (vfeatures_sel s) (vfeatures s) (vqueue_sel s) (fun o => if o =? off then v else vregs s o))
  else if (off =? REG_QUEUE_NOTIFY) || (off =? REG_INTERRUPT_ACK) then (need NotLive (Z.testbit (vstatus s) 2), s)
  else ([NoRegister], s).

Fixpoint monitor (max : Z) (s : vdev) (ws : list (Z * Z)) : list rule * vdev :=
  match ws with
  | [] => ([], s)
  | w :: ws => let '(l, s) := observe max s w in let '(k, s) := monitor max s ws in (l ++ k, s)
  end.

(** A live device: its queue of [n] entries, and where the parts of it are. *)
Definition live (s : vdev) (n desc_phys avail_phys used_phys : Z) : Prop :=
  let at_ lo hi := vregs s lo + vregs s hi * U32 in
  vstatus s = 15 /\ vregs s REG_QUEUE_READY = 1 /\ vregs s REG_QUEUE_NUM = n /\ at_ REG_QUEUE_DESC_LOW REG_QUEUE_DESC_HIGH = desc_phys /\
  at_ REG_QUEUE_AVAIL_LOW REG_QUEUE_AVAIL_HIGH = avail_phys /\ at_ REG_QUEUE_USED_LOW REG_QUEUE_USED_HIGH = used_phys.

(** ** The bus *)

(** The bus keeps the writes in order.  Identification and queue size are fixed
    by the hardware ([hw]). *)
Class VirtioBus := {
  log : D -> list (Z * Z);
  hw : Z -> Z;
  vb_write : forall a v d, log (mmio_write 4 a v d) = log d ++ [(a, v)];
  vb_read : forall a d, exists v d', mmio_read 4 a d = (v, d') /\ log d' = log d /\
    ((a - VIRTIO_BASE) mod VIRTIO_STRIDE ∈ [REG_MAGIC_VALUE; REG_VERSION; REG_DEVICE_ID; REG_QUEUE_NUM_MAX] -> v = hw a) }.

Context {VB : VirtioBus}.

Definition slot (i : Z) : Z := VIRTIO_BASE + i * VIRTIO_STRIDE.

Definition is_block (base : Z) : Prop :=
  hw (base + REG_MAGIC_VALUE) = VIRTIO_MAGIC /\ hw (base + REG_VERSION) = VERSION /\ hw (base + REG_DEVICE_ID) = DEVICE_ID_BLOCK.

Lemma read_hw i off d : off ∈ [REG_MAGIC_VALUE; REG_VERSION; REG_DEVICE_ID; REG_QUEUE_NUM_MAX] ->
  exists d', read32 (slot i) off d = (hw (slot i + off), d') /\ log d' = log d.
Proof.
  intros Ho. unfold read32. destruct (vb_read (slot i + off) d) as (v & d' & -> & Hl & Hv). exists d'. split; [|done]. f_equal. apply Hv.
  replace (slot i + off - VIRTIO_BASE) with (off + i * VIRTIO_STRIDE) by (unfold slot; lia). rewrite Z_mod_plus_full.
  assert (Hf : Forall (fun o => o mod VIRTIO_STRIDE = o) [REG_MAGIC_VALUE; REG_VERSION; REG_DEVICE_ID; REG_QUEUE_NUM_MAX]) by by repeat constructor.
  rewrite Forall_forall in Hf. by rewrite (Hf off Ho).
Qed.

(** [probe] finds the first block device. *)
Lemma probe_from_ok n : forall i d, exists r d', probe_from n i d = (r, d') /\ log d' = log d /\
  match r with
  | Some base => exists k, i <= k < i + Z.of_nat n /\ base = slot k /\ is_block base /\ forall j, i <= j < k -> ~ is_block (slot j)
  | None => forall j, i <= j < i + Z.of_nat n -> ~ is_block (slot j)
  end.
Proof.
  induction n as [|n IH]; intros i d; cbn [probe_from]; [exists None, d; split_and!; [done..|lia]|]. fold (slot i).
  assert (Hskip : ~ is_block (slot i) -> forall d1, log d1 = log d -> exists r d', probe_from n (i + 1) d1 = (r, d') /\ log d' = log d /\
    match r with
    | Some base => exists k, i <= k < i + Z.of_nat (S n) /\ base = slot k /\ is_block base /\ forall j, i <= j < k -> ~ is_block (slot j)
    | None => forall j, i <= j < i + Z.of_nat (S n) -> ~ is_block (slot j)
    end).
  { intros Hno d1 Hl. destruct (IH (i + 1) d1) as (r & d' & E & Hl' & Hr). exists r, d'. split_and!; [done|congruence|]. destruct r as [base|].
    - destruct Hr as (k & Hk & Hb & Hy & Hn). exists k. split_and!; [lia|lia|done|done|]. intros j Hj. destruct (decide (j = i)) as [->|]; [done|apply Hn; lia].
    - intros j Hj. destruct (decide (j = i)) as [->|]; [done|apply Hr; lia]. }
  destruct (read_hw i REG_MAGIC_VALUE d) as (d1 & -> & L1); [left|].
  destruct (Z.eqb_spec (hw (slot i + REG_MAGIC_VALUE)) VIRTIO_MAGIC) as [E1|E1]; cbn [negb]; [|apply Hskip; [by intros (? & _)|done]].
  destruct (read_hw i REG_VERSION d1) as (d2 & -> & L2); [right; left|].
  destruct (Z.eqb_spec (hw (slot i + REG_VERSION)) VERSION) as [E2|E2]; cbn [negb]; [|apply Hskip; [by intros (_ & ? & _)|congruence]].
  destruct (read_hw i REG_DEVICE_ID d2) as (d3 & -> & L3); [right; right; left|].
  destruct (Z.eqb_spec (hw (slot i + REG_DEVICE_ID)) DEVICE_ID_BLOCK) as [E3|E3]; [|apply Hskip; [by intros (_ & _ & ?)|congruence]].
  eexists _, d3. split_and!; [done|congruence|]. exists i. split_and!; [lia|lia|done|done|lia].
Qed.

(** The writes of each part of [new]. *)
Definition at_base (base : Z) (ws : list (Z * Z)) : list (Z * Z) := map (fun w => (base + w.1, w.2)) ws.

Definition negotiate_writes : list (Z * Z) := [(REG_STATUS, 0); (REG_STATUS, 3); (REG_DRIVER_FEATURES, 0); (REG_STATUS, 11)].
Definition queue_writes : list (Z * Z) := [(REG_QUEUE_SEL, 0); (REG_QUEUE_NUM, 4)].
Definition live_writes (desc_phys avail_phys used_phys : Z) : list (Z * Z) :=
  [(REG_QUEUE_DESC_LOW, as_u32 desc_phys); (REG_QUEUE_DESC_HIGH, as_u32 (Z.shiftr desc_phys 32));
   (REG_QUEUE_AVAIL_LOW, as_u32 avail_phys); (REG_QUEUE_AVAIL_HIGH, as_u32 (Z.shiftr avail_phys 32));
   (REG_QUEUE_USED_LOW, as_u32 used_phys); (REG_QUEUE_USED_HIGH, as_u32 (Z.shiftr used_phys 32)); (REG_QUEUE_READY, 1); (REG_STATUS, 15)].


(** The device takes [FEATURES_OK] back. *)
Definition refused (base : Z) (d : D) : Prop := exists d1 v d2, read32 base REG_STATUS d1 = (v, d2) /\ log d1 = log d ++ at_base base negotiate_writes /\
  Z.land v STATUS_FEATURES_OK = 0.

Definition unmapped (kernel_virt_to_phys : Z -> option Z) (x : boxes) : Prop :=
  exists a, a ∈ [desc x; avail x; used x; req x; status x] /\ kernel_virt_to_phys a = None.

Lemma negotiate_log base d : exists ok d', negotiate base d = (ok, d') /\ log d' = log d ++ at_base base negotiate_writes /\
  (ok = false -> forall d0, log d0 = log d -> refused base d0).
Proof.
  unfold negotiate. set (d1 := write32 base REG_STATUS (Z.lor (Z.lor _ _) _) _). destruct (vb_read (base + REG_STATUS) d1) as (v & d' & E & Hl & _).
  assert (L1 : log d1 = log d ++ at_base base negotiate_writes) by (unfold d1, write32; rewrite !vb_write, <- !app_assoc; done).
  unfold read32. rewrite E. eexists _, d'. split; [done|]. split; [congruence|]. intros Hf d0 H0. exists d1, v, d'. split; [done|]. split; [congruence|].
  by destruct (Z.eqb_spec (Z.land v STATUS_FEATURES_OK) 0).
Qed.

Lemma select_queue_log i d : exists d', log d' = log d ++ at_base (slot i) queue_writes /\
  (hw (slot i + REG_QUEUE_NUM_MAX) <> 0 -> select_queue (slot i) d = (true, d')) /\
  (hw (slot i + REG_QUEUE_NUM_MAX) = 0 -> fst (select_queue (slot i) d) = false).
Proof.
  unfold select_queue. destruct (read_hw i REG_QUEUE_NUM_MAX (write32 (slot i) REG_QUEUE_SEL 0 d)) as (d1 & -> & L1); [by apply (bool_decide_unpack _); vm_compute|].
  exists (write32 (slot i) REG_QUEUE_NUM 4 d1). unfold write32 in *. split_and!.
  - by rewrite vb_write, L1, vb_write, <- app_assoc.
  - intros Hn. by rewrite (proj2 (Z.eqb_neq _ _)).
  - intros ->. done.
Qed.

Lemma go_live_log base desc_phys avail_phys used_phys d :
  log (go_live base desc_phys avail_phys used_phys d) = log d ++ at_base base (live_writes desc_phys avail_phys used_phys).
Proof. unfold go_live, write32. rewrite !vb_write, <- !app_assoc. done. Qed.

Lemma monitor_app max l k : forall s, monitor max s (l ++ k) =
  let '(x, s') := monitor max s l in let '(y, s'') := monitor max s' k in (x ++ y, s'').
Proof.
  induction l as [|w l IH]; intros s; cbn [app monitor]; [by destruct (monitor max s k)|]. destruct (observe max s w) as [x s1]. rewrite IH.
  destruct (monitor max s1 l) as [y s2]. destruct (monitor max s2 k) as [z s3]. by rewrite app_assoc.
Qed.

(** The rules broken by the drivers of the kernel, which set up queues of four and
    of eight entries: they accept no feature, without having selected any, and
    give the device a queue that may be too large for it. *)
Definition broken (n max : Z) : list rule := [FeaturesSelected; VersionOne] ++ (if n <=? max then [] else [QueueSize]).

Definition negotiated : vdev := mkVdev 11 None (fun _ => 0) (Some 0) (fun _ => 0).

Lemma monitor_before max s : monitor max s (negotiate_writes ++ [(REG_QUEUE_SEL, 0)]) = ([FeaturesSelected; VersionOne], negotiated).
Proof. reflexivity. Qed.

Lemma monitor_num n max : n = 4 \/ n = 8 -> observe max negotiated (REG_QUEUE_NUM, n) =
  (if n <=? max then [] else [QueueSize], mkVdev 11 None (fun _ => 0) (Some 0) (fun o => if o =? REG_QUEUE_NUM then n else 0)).
Proof.
  intros [-> | ->]; unfold observe; rewrite (bool_decide_eq_true_2 (REG_QUEUE_NUM ∈ queue_regs)) by left; unfold queue_rules; cbn -[Z.leb];
    by rewrite andb_true_r, app_nil_r.
Qed.

Lemma writes_observed n max s desc_phys avail_phys used_phys : n = 4 \/ n = 8 -> 0 <= desc_phys < USIZE -> 0 <= avail_phys < USIZE -> 0 <= used_phys < USIZE ->
  exists s', monitor max s (negotiate_writes ++ [(REG_QUEUE_SEL, 0); (REG_QUEUE_NUM, n)] ++ live_writes desc_phys avail_phys used_phys) = (broken n max, s') /\
    live s' n desc_phys avail_phys used_phys.
Proof.
  intros Hn Hd Ha Hu. change (negotiate_writes ++ [?a; ?b] ++ ?l) with ((negotiate_writes ++ [a]) ++ [b] ++ l).
  rewrite monitor_app, monitor_before. cbn [app monitor]. rewrite monitor_num by done. unfold broken. generalize (if n <=? max then [] else [QueueSize]). intros q.
  match goal with |- context [monitor max ?s0 (live_writes _ _ _)] => set (s1 := s0) end.
  assert (exists s', monitor max s1 (live_writes desc_phys avail_phys used_phys) = ([], s') /\ live s' n desc_phys avail_phys used_phys) as (s' & -> & Hl).
  { destruct Hn as [-> | ->]; (eexists; split; [reflexivity|]; by split_and!; try apply u32_halves). }
  exists s'. by rewrite app_nil_r.
Qed.

Lemma fresh_wf req_phys status_phys : Virtio.wf (Virtio.mkVirtio (replicate 4 (Virtio.mkDesc 0 0 0 0)) (replicate 6 0) (Virtio.mkReq 0 0) 0 req_phys status_phys 0).
Proof. split; [done|]. split; [done|]. apply (Forall_replicate (fun x => 0 <= x < U16) 6 0). done. Qed.

(** C37: initialisation takes the first block device of the bus and brings it
    up: whatever state the device was in before, it is live at the end, with a
    queue of four entries whose parts are at the physical addresses of the
    driver's structures, which satisfy what the request path relies on.  Of the
    rules of the specification on register writes, the driver breaks exactly
    these: it writes the accepted features without selecting a word of them and
    does not accept [VIRTIO_F_VERSION_1], and, when the device's maximum is below
    four, it sets a queue size above it.  It fails only without a block device,
    and then writes nothing, or when that device refuses the features, has no
    queue, or one of the structures is not mapped. *)
Theorem virtio_attach_spec kernel_virt_to_phys x d (Hk : forall a p, kernel_virt_to_phys a = Some p -> 0 <= p < USIZE) :
  match attach kernel_virt_to_phys x d with
  | (Ok (base, v), d') =>
      (exists k, 0 <= k < 8 /\ base = slot k /\ is_block base /\ forall j, 0 <= j < k -> ~ is_block (slot j)) /\ Virtio.wf v /\
      exists ws desc_phys avail_phys used_phys, log d' = log d ++ at_base base ws /\
        kernel_virt_to_phys (desc x) = Some desc_phys /\ kernel_virt_to_phys (avail x) = Some avail_phys /\ kernel_virt_to_phys (used x) = Some used_phys /\
        forall s, exists s', monitor (hw (base + REG_QUEUE_NUM_MAX)) s ws = (broken 4 (hw (base + REG_QUEUE_NUM_MAX)), s') /\ live s' 4 desc_phys avail_phys used_phys
  | (Err e, d') => e = IoError /\
      ((forall j, 0 <= j < 8 -> ~ is_block (slot j)) /\ log d' = log d \/
       exists k, 0 <= k < 8 /\ is_block (slot k) /\ (forall j, 0 <= j < k -> ~ is_block (slot j)) /\
         (refused (slot k) d \/ hw (slot k + REG_QUEUE_NUM_MAX) = 0 \/ unmapped kernel_virt_to_phys x))
  end.
Proof.
  unfold attach, probe. destruct (probe_from_ok VIRTIO_COUNT 0 d) as (r & d1 & -> & L1 & Hr). destruct r as [base|]; [|split; [done|]; by left].
  destruct Hr as (k & Hk' & -> & Hb & Hn).
  assert (Hun : forall a, a ∈ [desc x; avail x; used x; req x; status x] -> kernel_virt_to_phys a = None -> unmapped kernel_virt_to_phys x) by (intros a Ha E; by exists a).
  assert (Herr : forall l, refused (slot k) d \/ hw (slot k + REG_QUEUE_NUM_MAX) = 0 \/ unmapped kernel_virt_to_phys x -> IoError = IoError /\
      ((forall j, 0 <= j < 8 -> ~ is_block (slot j)) /\ l = log d \/ exists k, 0 <= k < 8 /\ is_block (slot k) /\ (forall j, 0 <= j < k -> ~ is_block (slot j)) /\
         (refused (slot k) d \/ hw (slot k + REG_QUEUE_NUM_MAX) = 0 \/ unmapped kernel_virt_to_phys x))).
  { intros l H. split; [done|]. right. exists k. unfold VIRTIO_COUNT in Hk'. split; [lia|]. by split_and!. }
  destruct (negotiate_log (slot k) d1) as (ok & d2 & -> & L2 & Hf). destruct ok; [cbn [negb]|apply Herr; left; by apply Hf].
  destruct (select_queue_log k d2) as (d3 & L3 & Hq & Hz). destruct (decide (hw (slot k + REG_QUEUE_NUM_MAX) = 0)) as [E0|E0].
  { specialize (Hz E0). destruct (select_queue (slot k) d2) as [ok d4]. cbn in Hz. rewrite Hz. apply Herr. auto. }
  rewrite (Hq E0). cbn [negb].
  destruct (kernel_virt_to_phys (desc x)) as [dp|] eqn:E1; [|apply Herr; do 2 right; apply (Hun (desc x)); [set_solver|done]].
  destruct (kernel_virt_to_phys (avail x)) as [ap|] eqn:E2; [|apply Herr; do 2 right; apply (Hun (avail x)); [set_solver|done]].
  destruct (kernel_virt_to_phys (used x)) as [up|] eqn:E3; [|apply Herr; do 2 right; apply (Hun (used x)); [set_solver|done]].
  destruct (kernel_virt_to_phys (req x)) as [rp|] eqn:E4; [|apply Herr; do 2 right; apply (Hun (req x)); [set_solver|done]].
  destruct (kernel_virt_to_phys (status x)) as [sp|] eqn:E5; [|apply Herr; do 2 right; apply (Hun (status x)); [set_solver|done]].
  split; [by exists k|]. split; [exact (fresh_wf rp sp)|].
  exists (negotiate_writes ++ queue_writes ++ live_writes dp ap up), dp, ap, up. split_and!; [|done..|].
  - rewrite go_live_log, L3, L2, L1. unfold at_base. by rewrite !map_app, !app_assoc.
  - intros s. exact (writes_observed 4 (hw (slot k + REG_QUEUE_NUM_MAX)) s dp ap up (or_introl eq_refl) (Hk _ _ E1) (Hk _ _ E2) (Hk _ _ E3)).
Qed.

(** ** The interrupt *)

(** The handler acknowledges what it read, once, and only a used buffer
    completes a request. *)
Lemma virtio_irq_handler_ok base handler d : base <> 0 -> handler <> 0 -> exists v r d',
  virtio_irq_handler base handler d = (r, d') /\ fst (read32 base REG_INTERRUPT_STATUS d) = v /\
  r = (if Z.land v 1 =? 0 then None else Some (Ok tt)) /\ log d' = log d ++ (if Z.land v 1 =? 0 then [] else [(base + REG_INTERRUPT_ACK, v)]).
Proof.
  intros Hb Hh. unfold virtio_irq_handler. rewrite (proj2 (Z.eqb_neq base 0)), (proj2 (Z.eqb_neq handler 0)) by done. unfold read32, write32.
  destruct (vb_read (base + REG_INTERRUPT_STATUS) d) as (v & d' & -> & Hl & _). exists v. unfold INT_USED_BUFFER.
  destruct (Z.land v 1 =? 0); cbn [negb]; eexists _, _; (split; [done|]); split_and!; [done|done|by rewrite app_nil_r|done|done|by rewrite vb_write, Hl].
Qed.

(** The completion handler never hears of an error: the status byte the device
    writes is not looked at. *)
Theorem virtio_error_lost base handler d r d' : virtio_irq_handler base handler d = (Some r, d') -> r = Ok tt.
Proof.
  unfold virtio_irq_handler. destruct (base =? 0); [done|]. destruct (read32 _ _ d) as [v d1]. destruct (negb _); [|done]. destruct (negb (handler =? 0)); [|done].
  by intros [= <- _].
Qed.

End driver.
(** ** A simulated bus *)

(** A block device in the slot at 0x10003000, whose queue has at most [max]
    entries. *)
Definition sim_hw (max a : Z) : Z :=
  let off := a - 0x1000_3000 in
  if off =? REG_MAGIC_VALUE then VIRTIO_MAGIC else if off =? REG_VERSION then VERSION else if off =? REG_DEVICE_ID then DEVICE_ID_BLOCK
  else if off =? REG_QUEUE_NUM_MAX then max else if off =? REG_STATUS then 11 else if off =? REG_INTERRUPT_STATUS then 1 else 0.

Definition sim_mmio (max : Z) : Mmio (list (Z * Z)) :=
  {| mmio_read := fun _ a d => (sim_hw max a, d); mmio_write := fun _ a v d => d ++ [(a, v)] |}.

#[refine] Definition sim_bus (max : Z) : VirtioBus (MD := sim_mmio max) := {| log := fun d => d; hw := sim_hw max |}.
Proof. all: done || (intros a d; by eexists _, _). Defined.

Definition demo_boxes : boxes := mkBoxes 0x100 0x200 0x300 0x400 0x500.
Definition demo_phys (a : Z) : option Z := if (0 <=? a) && (a <? 0x1_0000) then Some (a + 0x8040_0000) else None.

Lemma demo_phys_ok a p : demo_phys a = Some p -> 0 <= p < USIZE.
Proof. unfold demo_phys. destruct (Z.leb_spec 0 a), (Z.ltb_spec a 0x1_0000); cbn [andb]; try done. intros [= <-]. unfold USIZE. lia. Qed.

(** A device that was live before. *)
Definition used_dev : vdev := mkVdev 15 (Some 0) (fun _ => 1) (Some 1) (fun _ => 7).
Definition from_base (d : list (Z * Z)) : list (Z * Z) := map (fun w => (w.1 - 0x1000_3000, w.2)) d.

Lemma virtio_attach_spec_witness : exists v d', attach (MD := sim_mmio 1024) demo_phys demo_boxes [] = (Ok (0x1000_3000, v), d') /\ Virtio.wf v /\
  exists ws s', d' = at_base 0x1000_3000 ws /\ monitor 1024 used_dev ws = ([FeaturesSelected; VersionOne], s') /\ live s' 4 0x8040_0100 0x8040_0200 0x8040_0300.
Proof.
  pose proof (virtio_attach_spec (MD := sim_mmio 1024) (VB := sim_bus 1024) demo_phys demo_boxes [] demo_phys_ok) as H. revert H.
  destruct (attach (MD := sim_mmio 1024) demo_phys demo_boxes []) as [r d'] eqn:E. vm_compute in E. injection E as <- <-.
  intros (_ & Hwf & ws & dp & ap & up & Hl & [= <-] & [= <-] & [= <-] & Ha). eexists _, _. split; [reflexivity|]. split; [exact Hwf|].
  destruct (Ha used_dev) as (s' & Hs' & Hlive). exists ws, s'. split; [exact Hl|]. split; [exact Hs'|exact Hlive].
Defined.

(** The device is not told which word of the features is meant, and its
    [VIRTIO_F_VERSION_1] is not accepted. *)
Lemma virtio_features_unselected : exists v d', attach (MD := sim_mmio 1024) demo_phys demo_boxes [] = (Ok (0x1000_3000, v), d') /\
  (monitor 1024 vreset (from_base d')).1 = [FeaturesSelected; VersionOne].
Proof. eexists _, _. split; [vm_compute; reflexivity|by vm_compute]. Qed.

(** A device with a smaller queue is driven all the same, against the protocol. *)
Lemma virtio_small_queue : exists v d', attach (MD := sim_mmio 2) demo_phys demo_boxes [] = (Ok (0x1000_3000, v), d') /\
  QueueSize ∈ (monitor 2 vreset (from_base d')).1.
Proof. eexists _, _. split; [vm_compute; reflexivity|]. vm_compute. right. right. left. Qed.

End VirtioDev.
