(* ===== verification/BlockInit.v ===== *)
(** * Bringing the block layer up

    Models [src/src/block/init.rs]: the thread that reads the partition table
    of the disk and registers a cached volume for every partition and the
    whole disk as block devices.  The drivers are in [VirtioDev] and [Sd]; what
    they make of a disk is an argument here. *)

From S2P Require Import Prelude Bytes Dtb Dispatcher Block Vfs Procfs.

Module BlockInit.
Import Blk Mbr Vol Procfs.

Definition SECTOR_SIZE : Z := 512.
Definition SCSI_DISK_MAJOR : Z := 8.

(** [Arc<dyn BlockVolume>]: the volumes there are. *)
Inductive dyn_volume :=
| Whole (v : WholeDiskVolume)
| CachedPart (c : Cached.CachedVolume (V := PartitionVolume)).

Notation devices := (gmap (Z * Z) (BlkdevEntry (V := dyn_volume))).

(** The letter is computed in a [u8]. *)
Definition disk_base_name (major : Z) : outcome (list Z) :=
  let index := Z.max 0 (major - SCSI_DISK_MAJOR) mod 256 in
  if 97 + index <? 256 then Ret [115; 100; 97 + index] else Panic.

(** What [VirtioBlk::new] and [SdCardAdma::new] followed by [BlockDisk::new]
    give. *)
Definition init_driver (cpu : Fdt.CpuType) (virtio sd : option BlockDisk) : outcome BlockDisk :=
  match cpu with
  | Fdt.Qemu => expect virtio
  | Fdt.LicheeRVNano => expect sd
  | _ => Panic
  end.

(** [None]: the thread has ended. *)
Definition read_partition_table (disk : BlockDisk) : outcome (option (list Partition)) :=
  let! r := read_blocks (mkWhole disk) 0 SECTOR_SIZE in
  match r with
  | Ok buf => let! partitions := parse_mbr buf in Ret (Some partitions)
  | Err _ => Ret None
  end.

(** One turn of the loop of [register_partitions]. *)
Definition register_partition (disk : BlockDisk) (devs : devices) (part : Partition) : outcome devices :=
  let part_number := number part in
  let cached := CachedPart (Cached.new (mkPartVol disk part)) in
  let! base := disk_base_name SCSI_DISK_MAJOR in
  Ret (blkdev_register SCSI_DISK_MAJOR part_number (base ++ dec part_number) cached devs).

Definition register_partitions (disk : BlockDisk) (partitions : list Partition) (devs : devices) : outcome (Z * devices) :=
  let! devs := ofold (register_partition disk) partitions devs in
  Ret (Z.of_nat (length partitions), devs).

(** The whole thread; the result is the registry it leaves. *)
Definition init_thread (cpu : Fdt.CpuType) (virtio sd : option BlockDisk) (devs : devices) : outcome devices :=
  let! disk := init_driver cpu virtio sd in
  let! r := read_partition_table disk in
  match r with
  | None => Ret devs
  | Some partitions =>
      let! '(_, devs) := register_partitions disk partitions devs in
      let! name := disk_base_name SCSI_DISK_MAJOR in
      Ret (blkdev_register SCSI_DISK_MAJOR 0 name (Whole (mkWhole disk)) devs)
  end.

(** ** The numbers of partitions *)

(** A sector always parses, into partitions numbered from 1 in order. *)
Definition numbered (lo : Z) (l : list Partition) : Prop := Forall (fun p => 0 < number p <= lo) l /\ NoDup (number <$> l).

Lemma parse_entry_numbered block0 acc i : length block0 = 512%nat -> 0 <= i < 4 -> numbered i acc ->
  exists acc', parse_entry block0 acc i = Ret acc' /\ numbered (i + 1) acc'.
Proof.
  intros Hl Hi [Hn Hd]. unfold parse_entry, le_at, MBR_PARTITION_TABLE_OFFSET, MBR_PARTITION_ENTRY_SIZE, PARTITION_LBA_OFFSET, PARTITION_SECTORS_OFFSET.
  destruct (slice_ok block0 (446 + i * 16) (446 + i * 16 + 16)) as (e & -> & He); [lia..|]. cbn [obind]. replace (Z.to_nat _) with 16%nat in He by lia.
  destruct (lookup_lt_is_Some_2 e (Z.to_nat PARTITION_TYPE_OFFSET)) as [t Ht]; [rewrite He; unfold PARTITION_TYPE_OFFSET; lia|]. rewrite Ht. cbn [obind expect].
  destruct (slice_ok e 8 (8 + 4)) as (x & -> & _); [lia..|]. cbn [obind]. destruct (slice_ok e 12 (12 + 4)) as (y & -> & _); [lia..|]. cbn [obind].
  assert (Hw : Forall (fun p => 0 < number p <= i + 1) acc) by (eapply Forall_impl; [exact Hn|]; cbn; lia).
  destruct (_ && _); eexists; (split; [done|]); split; [done|done|..].
  - apply Forall_app_2; [done|]. apply Forall_singleton. cbn. lia.
  - rewrite fmap_app. apply NoDup_app. split_and!; [done| |apply NoDup_singleton]. intros n Hin ->%list_elem_of_singleton.
    apply list_elem_of_fmap in Hin as (p & Hp & Hin). rewrite Forall_forall in Hn. specialize (Hn _ Hin). cbn in Hp. lia.
Qed.

Lemma parse_mbr_numbered block0 : length block0 = 512%nat -> exists l, parse_mbr block0 = Ret l /\ numbered 4 l.
Proof.
  intros Hl. unfold parse_mbr, le_at, MBR_SIGNATURE_OFFSET. destruct (slice_ok block0 510 (510 + 2)) as (x & -> & _); [lia..|]. cbn [obind].
  destruct (negb _); [exists []; split; [done|]; split; [done|apply NoDup_nil_2]|]. cbn [ofold].
  destruct (parse_entry_numbered block0 [] 0) as (a1 & -> & H1); [done|lia|split; [done|apply NoDup_nil_2]|]. cbn [obind].
  destruct (parse_entry_numbered block0 a1 1) as (a2 & -> & H2); [done|lia|done|]. cbn [obind].
  destruct (parse_entry_numbered block0 a2 2) as (a3 & -> & H3); [done|lia|done|]. cbn [obind].
  destruct (parse_entry_numbered block0 a3 3) as (a4 & -> & H4); [done|lia|done|]. cbn [obind]. by exists a4.
Qed.

(** ** The registry *)
Definition sda : list Z := lit "sda".

(** What a partition is registered as. *)
Definition entry_of (disk : BlockDisk) (p : Partition) : BlkdevEntry :=
  mkBlkdevEntry (sda ++ dec (number p)) (CachedPart (Cached.new (mkPartVol disk p))).

Lemma register_ok disk l : NoDup (number <$> l) -> forall devs, exists devs', ofold (register_partition disk) l devs = Ret devs' /\
  (forall p, p ∈ l -> devs' !! (8, number p) = Some (entry_of disk p)) /\
  forall k, (forall p, p ∈ l -> k <> (8, number p)) -> devs' !! k = devs !! k.
Proof.
  induction l as [|p l IH]; intros Hd devs; [exists devs; split_and!; [done|intros p Hp; by apply elem_of_nil in Hp|done]|].
  rewrite fmap_cons, NoDup_cons in Hd. destruct Hd as [Hp Hd]. cbn [ofold].
  change (register_partition disk devs p) with (Ret (<[(8, number p) := entry_of disk p]> devs) : outcome devices). cbn [obind].
  destruct (IH Hd (<[(8, number p) := entry_of disk p]> devs)) as (devs' & -> & Hin & Hout). exists devs'. split_and!; [done| |].
  - intros q [->|Hq]%elem_of_cons; [|by apply Hin]. rewrite Hout; [by rewrite lookup_insert_eq|].
    intros r Hr [= E]. apply Hp, list_elem_of_fmap. by exists r.
  - intros k Hk. rewrite Hout; [|intros q Hq; apply Hk; by right]. rewrite lookup_insert_ne; [done|]. intros E. by apply (Hk p); [left|].
Qed.

(** C35: the block layer comes up with exactly the devices of the disk.  When
    the first sector can be read, every partition of its table, whatever the
    sector holds, is registered as [sda1] to [sda4] under its number, as a
    cached volume confined to it with an empty cache, the disk itself as [sda];
    no other entry of the registry changes.  When it cannot be read the
    registry stays as it is. *)
Theorem init_thread_spec cpu virtio sd disk devs (Hd : init_driver cpu virtio sd = Ret disk) :
  match disk_read_blocks disk 0 512 with
  | Ok buf => length buf = 512%nat -> exists parts devs', parse_mbr buf = Ret parts /\ numbered 4 parts /\ init_thread cpu virtio sd devs = Ret devs' /\
      (forall p, p ∈ parts -> devs' !! (8, number p) = Some (entry_of disk p)) /\
      devs' !! (8, 0) = Some (mkBlkdevEntry sda (Whole (mkWhole disk))) /\
      (forall k, k <> (8, 0) -> (forall p, p ∈ parts -> k <> (8, number p)) -> devs' !! k = devs !! k)
  | Err _ => init_thread cpu virtio sd devs = Ret devs
  end.
Proof.
  unfold init_thread, read_partition_table. rewrite Hd. cbn [obind read_blocks whole_volume whole_read_blocks whole_disk]. change SECTOR_SIZE with 512.
  destruct (disk_read_blocks disk 0 512) as [buf|e]; [|done]. cbn [obind]. intros Hl.
  destruct (parse_mbr_numbered buf Hl) as (parts & E & Hn). rewrite E. cbn [obind]. unfold register_partitions.
  destruct (register_ok disk parts (proj2 Hn) devs) as (d1 & -> & Hin & Hout). cbn [obind].
  exists parts. eexists. split; [done|]. split; [done|]. split; [reflexivity|].
  unfold blkdev_register. change SCSI_DISK_MAJOR with 8. split_and!.
  - intros p Hp. rewrite lookup_insert_ne; [by apply Hin|]. intros [= E0]. destruct Hn as [Hn _]. rewrite Forall_forall in Hn. specialize (Hn _ Hp). lia.
  - by rewrite lookup_insert_eq.
  - intros k Hk Hp. rewrite lookup_insert_ne by done. by apply Hout.
Qed.

(** A disk with two partitions. *)
Definition demo_sector : list Z :=
  image (replicate 446 0) (demo_entry 0x0c 2048 1000) (demo_entry 0x83 4096 5000) (demo_entry 0 0 0) (demo_entry 0 0 0).

Definition two_partitions : BlockDisk := mkDisk (fun sector n => if (sector =? 0) && (n =? 512) then Ok demo_sector else Err IoError).

Lemma init_thread_spec_witness : exists devs', init_thread Fdt.Qemu (Some two_partitions) None ∅ = Ret devs' /\
  blkdev_get devs' 8 2 = Some (CachedPart (Cached.new (mkPartVol two_partitions (mkPartition 2 4096 5000)))) /\
  devs' !! (8, 3) = None.
Proof.
  pose proof (init_thread_spec Fdt.Qemu (Some two_partitions) None two_partitions ∅ eq_refl) as H.
  change (disk_read_blocks two_partitions 0 512) with (Ok demo_sector : result (list Z) BlockError) in H. cbn beta iota in H.
  destruct H as (parts & devs' & E & _ & Ei & Hin & _ & Hout); [by vm_compute|].
  assert (Ep : parts = [mkPartition 1 2048 1000; mkPartition 2 4096 5000]) by (vm_compute in E; by injection E). subst parts.
  exists devs'. split; [exact Ei|]. split.
  - unfold blkdev_get. by rewrite (Hin (mkPartition 2 4096 5000) ltac:(right; left) : devs' !! (8, 2) = _).
  - rewrite Hout; [by rewrite lookup_empty|done|]. intros p Hp. rewrite !elem_of_cons, elem_of_nil in Hp. destruct Hp as [->|[->|[]]]; done.
Defined.

End BlockInit.
