(* ===== verification/PageBox.v ===== *)
(** * Boxes the hardware can use

    Models [alloc_within_page] of [src/src/kernel_allocator/mod.rs], which the
    drivers get their descriptors, rings and buffers from: an allocation
    aligned to the next power of two of its size, so that it does not cross a
    page, and zeroed.  The model of the allocator carries the headers of the
    heap; the bytes of the areas it hands out are a memory passed along here. *)

From S2P Require Import Prelude Memory Allocator AllocatorInv Dispatcher.

Module PageBox.
Import Alloc.

Section box.
Context {W : Type} `{HeapGrower W}.

(** [usize::next_power_of_two]. *)
Definition next_power_of_two (n : Z) : Z := if n <=? 1 then 1 else 2 ^ (Z.log2 (n - 1) + 1).

(** [ptr::write_bytes(p, 0, n)] *)
Definition write_zeros (p n : Z) (mem : Z -> Z) (a : Z) : Z := if (p <=? a) && (a <? p + n) then 0 else mem a.

(** [GlobalAlloc::alloc_zeroed], which the allocator does not override. *)
Definition alloc_zeroed (h : heap) (w : W) (mem : Z -> Z) (l : Layout) : outcome (Z * heap * W * (Z -> Z)) :=
  let! ' (p, h, w) := alloc h w l in
  Ret (p, h, w, if p =? 0 then mem else write_zeros p (lsize l) mem).

(** [size] is [size_of::<T>()].  A box made of the null pointer is undefined
    behaviour. *)
Definition alloc_within_page (h : heap) (w : W) (mem : Z -> Z) (size : Z) : outcome (Z * heap * W * (Z -> Z)) :=
  let! _ := oassert (size <=? Mem.PAGE_SIZE) in
  let align := Z.min (next_power_of_two size) Mem.PAGE_SIZE in
  let! ' (p, h, w, mem) := alloc_zeroed h w mem (mkLayout size align) in
  if p =? 0 then Fault else Ret (p, h, w, mem).

(** ** Alignment of what [alloc] returns *)
Lemma aligned_loop_mod fuel block sz align end_ : 0 < align -> forall aligned a, aligned mod align = 0 ->
  aligned_loop fuel block sz align end_ aligned = Ret (Some a) -> (a + Hdr.BLOCK_HEADER_SIZE) mod align = 0 /\ 0 <= a.
Proof.
  intros Ha. induction fuel as [|fuel IH]; intros aligned a Hm; cbn [aligned_loop]; [done|]. intros E.
  do 3 (apply obind_Ret_inv in E as (? & _ & E)). destruct (_ <=? end_); [|done].
  apply obind_Ret_inv in E as (header & Eh & E). apply obind_Ret_inv in E as (pad & _ & E). destruct (_ || _).
  - injection E as <-. apply usub_Ret_inv in Eh as [-> Hge]. split; [|lia]. by replace (aligned - Hdr.BLOCK_HEADER_SIZE + Hdr.BLOCK_HEADER_SIZE) with aligned by lia.
  - apply obind_Ret_inv in E as (al & [-> _]%uadd_Ret_inv & E). apply (IH (aligned + align)); [|done].
    rewrite <- (Z.mul_1_l align) at 1. by rewrite Z_mod_plus_full.
Qed.

Lemma check_aligned_fit_mod h block sz k a : 0 <= k -> check_aligned_fit h block sz (2 ^ k) = Ret (Some a) -> (a + Hdr.BLOCK_HEADER_SIZE) mod 2 ^ k = 0 /\ 0 <= a.
Proof.
  intros Hk E. unfold check_aligned_fit in E. do 2 (apply obind_Ret_inv in E as (? & _ & E)). apply obind_Ret_inv in E as (al & Ea & E).
  eapply aligned_loop_mod; [| |exact E]; [by apply pow2_pos|]. unfold align_up in Ea.
  apply obind_Ret_inv in Ea as (s1 & [-> _]%uadd_Ret_inv & Ea). apply obind_Ret_inv in Ea as (s2 & [-> _]%usub_Ret_inv & Ea).
  apply obind_Ret_inv in Ea as (m & [-> _]%usub_Ret_inv & Ea). injection Ea as <-. by apply (align_up_to_mod _ k).
Qed.

Lemma first_aligned_fit_mod fuel h sz k : 0 <= k -> forall cur b a,
  first_aligned_fit fuel h sz (2 ^ k) cur = Ret (Some (b, a)) -> (a + Hdr.BLOCK_HEADER_SIZE) mod 2 ^ k = 0 /\ 0 <= a.
Proof.
  intros Hk. induction fuel as [|fuel IH]; intros cur b a; cbn [first_aligned_fit]; destruct (cur =? 0); [done|done|done|]. intros E.
  apply obind_Ret_inv in E as (r & Er & E). destruct r as [loc|].
  - injection E as _ <-. by eapply check_aligned_fit_mod.
  - do 2 (apply obind_Ret_inv in E as (? & _ & E)). by eapply IH.
Qed.

Lemma find_fit_mod h w l k b a h' w' : lalign l = 2 ^ k -> 3 < k ->
  find_fit h w l = Ret (Some (b, a), h', w') -> (a + Hdr.BLOCK_HEADER_SIZE) mod 2 ^ k = 0 /\ 0 <= a.
Proof.
  intros Hl Hk E. assert (8 < 2 ^ k) by (change 8 with (2 ^ 3); apply Z.pow_lt_mono_r; lia). unfold find_fit in E. rewrite Hl in E.
  apply obind_Ret_inv in E as (t & _ & E). rewrite (proj2 (Z.leb_gt (2 ^ k) 8)) in E by lia. apply obind_Ret_inv in E as (found & Ef & E).
  destruct found as [[b' a']|].
  - injection E as <- <- <- <-. eapply first_aligned_fit_mod; [|exact Ef]. lia.
  - do 2 (apply obind_Ret_inv in E as (? & _ & E)). apply obind_Ret_inv in E as ([grown w1] & _ & E). destruct grown as [[nh actual]|]; [|done].
    apply obind_Ret_inv in E as (e & _ & E). apply obind_Ret_inv in E as (bl & _ & E). destruct (Hdr.is_free bl).
    + apply obind_Ret_inv in E as (h1 & _ & E). apply obind_Ret_inv in E as (r & Er & E). destruct r as [loc|]; [|done].
      injection E as <- <- <- <-. eapply check_aligned_fit_mod; [|exact Er]. lia.
    + do 3 (apply obind_Ret_inv in E as (? & _ & E)). apply obind_Ret_inv in E as (r & Er & E). destruct r as [loc|]; [|done].
      injection E as <- <- <- <-. eapply check_aligned_fit_mod; [|exact Er]. lia.
Qed.

Lemma split_block_start h b a l p h' : split_block h b a l = Ret (p, h') -> p = a + Hdr.BLOCK_HEADER_SIZE.
Proof.
  unfold split_block. destruct (Z.eqb_spec b a) as [->|_]; intros E.
  - unfold split_two in E. do 6 (apply obind_Ret_inv in E as (? & _ & E)). by injection E as <-.
  - unfold split_three in E. cbn zeta in E. do 11 (apply obind_Ret_inv in E as (? & _ & E)). by injection E as <-.
Qed.

Lemma alloc_aligned h w l k p h' w' : lalign l = 2 ^ k -> 3 < k -> alloc h w l = Ret (p, h', w') -> p = 0 \/ p mod 2 ^ k = 0 /\ 0 < p.
Proof.
  intros Hl Hk E. unfold alloc in E. apply obind_Ret_inv in E as ([[fit h1] w1] & Ef & E). destruct fit as [[b a]|].
  - apply obind_Ret_inv in E as ([p1 h2] & Es & E). injection E as <- <- <-. right. rewrite (split_block_start _ _ _ _ _ _ Es).
    apply find_fit_mod with (k := k) in Ef as [Hm Ha]; [|done|done]. split; [done|]. change Hdr.BLOCK_HEADER_SIZE with 16. lia.
  - injection E as <- _ _. by left.
Qed.

Lemma next_power_spec n : 0 < n <= 4096 -> exists k, next_power_of_two n = 2 ^ k /\ 0 <= k <= 12 /\ n <= 2 ^ k /\ (8 < n -> 3 < k) /\ (n <= 8 -> k <= 3).
Proof.
  intros Hn. unfold next_power_of_two. destruct (Z.leb_spec n 1); [exists 0; split_and!; [done|lia..]|]. exists (Z.log2 (n - 1) + 1). split; [done|].
  pose proof (Z.log2_spec (n - 1) ltac:(lia)) as [_ H2]. replace (Z.succ (Z.log2 (n - 1))) with (Z.log2 (n - 1) + 1) in H2 by lia.
  pose proof (Z.log2_nonneg (n - 1)). pose proof (Z.log2_le_mono (n - 1) 4095 ltac:(lia)) as H4. change (Z.log2 4095) with 11 in H4.
  split_and!; [lia..| |].
  - intros H8. pose proof (Z.log2_le_mono 8 (n - 1) ltac:(lia)) as H3. change (Z.log2 8) with 3 in H3. lia.
  - intros H8. pose proof (Z.log2_le_mono (n - 1) 7 ltac:(lia)) as H3. change (Z.log2 7) with 2 in H3. lia.
Qed.

(** The blocks of a sound heap start at multiples of eight. *)
Definition sound (h : heap) (w : W) : Prop := exists bs fl, heap_inv h bs fl /\ heap_break w = heap_end h.

Lemma alloc_small h w l p h' w' : sound h w -> layout_ok l -> alloc h w l = Ret (p, h', w') -> p = 0 \/ p mod 8 = 0 /\ 0 < p.
Proof.
  intros (bs & fl & Hi & Hb) Hl E. assert (Ha : forall p1 h1 w1, allocated bs h1 w1 p1 (lsize l) -> p1 mod 8 = 0 /\ 0 < p1).
  { intros p1 h1 w1 (bs' & fl' & s & Hi' & _ & _ & Hm & Hu & _). split; [done|].
    assert (Hin : mkBlock (p1 - Hdr.BLOCK_HEADER_SIZE) s true ∈ used bs') by (rewrite Hu; left). apply list_elem_of_filter in Hin as [_ Hin].
    destruct (chain_in _ _ _ _ _ _ (inv_chain _ _ _ (proj1 Hi')) Hin) as (? & ? & _). pose proof KHS_pos. cbn in *. hconst. lia. }
  destruct (first_fit_cases h bs fl l Hi) as [(l1 & a & s & l2 & -> & Hs & Hff)|[Hno Hff]].
  - destruct (split_found h w _ fl l1 a s l2 l h w _ Hi eq_refl Hl Hs Hb eq_refl) as (h1 & Hrun & Hal); [by eapply find_fit_found_spec|].
    rewrite E in Hrun. injection Hrun as -> _ _. right. by eapply Ha.
  - pose proof E as E'. unfold alloc in E'. apply obind_Ret_inv in E' as (x & Ex & _). destruct (find_fit_grows h w l x Hl Hff Ex) as [[r wg] Eg].
    destruct (alloc_cases h w bs fl l r wg Hi Hl Hb Eg) as [[_ K]|[_ (p1 & h1 & w1 & K & D)]]; rewrite E in K; [done|]. injection K as <- <- <-.
    destruct D as [(-> & _)|[D _]]; [by left|]. right. by eapply Ha.
Qed.


End box.

(** The heap as the kernel starts with it. *)
Definition demo_heap : heap := match init fresh KERNEL_HEAP_START KERNEL_HEAP_SIZE with Ret h => h | _ => fresh end.

Definition demo_break : Z := KERNEL_HEAP_START + KERNEL_HEAP_SIZE.

Lemma demo_heap_sound : sound (H := page_grower) demo_heap demo_break.
Proof.
  destruct (init_spec KERNEL_HEAP_SIZE) as (h & Hrun & He & Hi); [by vm_compute..|]. unfold demo_heap. change KERNEL_HEAP_START with KHS at 1.
  rewrite Hrun. eexists _, _. split; [exact Hi|]. by rewrite He.
Qed.


End PageBox.
