(* ===== verification/Disk.v ===== *)
(** * Reading the disk

    Composes the dispatcher of [Dispatcher] with its clients, its driver and the
    device: [request_read_block], [send_read_completion], [spawn_dispatcher] and
    [dispatcher_entry] of [src/src/block/disk/dispatcher.rs] and
    [BlockDisk::read_blocks] of [src/src/block/disk/mod.rs].  Threads lend
    buffers to the dispatcher and block; the device fills one buffer at a time
    by DMA and interrupts; the rest of the kernel runs in between.

    What the composition needs of a driver is the class [DmaDriver]: from what
    the driver left for the device, the device can read off one transfer, and it
    is the one asked for.  The VirtIO and SD drivers are instances. *)

From S2P Require Import Prelude Memory Dtb PageAllocator PageMapper Allocator KernelMap KernelInit Dispatcher Plic Sd.

Module Disk.
Import Blk Disp.

(** Where the kernel's buffers are in physical memory: buffers in the heap that
    do not overlap do not overlap there either. *)
Class HeapMap (kernel_virt_to_phys : Z -> option Z) := {
  in_heap : buffer -> Prop;
  hm_apart : forall b1 b2 p1 p2, in_heap b1 -> in_heap b2 -> dma_ok b1 -> dma_ok b2 ->
    ptr b1 + len b1 <= ptr b2 \/ ptr b2 + len b2 <= ptr b1 ->
    kernel_virt_to_phys (ptr b1) = Some p1 -> kernel_virt_to_phys (ptr b2) = Some p2 ->
    p1 + len b1 <= p2 \/ p2 + len b2 <= p1 }.

(** A driver whose device can tell what to do: [transfer] is the first sector,
    the physical address and the number of bytes of the read last started.
    [on_failure] is what the driver's interrupt handler reports of a transfer the
    device has failed. *)
Class DmaDriver (kernel_virt_to_phys : Z -> option Z) (D : Type) {BD : BlockDriver D} := {
  transfer : D -> option (Z * Z * Z);
  on_failure : result unit BlockError;
  dd_started : forall d sector b d', driver_ok d -> buffer_ok b -> 0 <= sector < U32 -> start_read d sector b = Ret (Ok tt, d') ->
    dma_ok b /\ exists p, kernel_virt_to_phys (ptr b) = Some p /\ transfer d' = Some (sector, p, len b);
  dd_accepts : forall d sector b p, driver_ok d -> buffer_ok b -> dma_ok b -> kernel_virt_to_phys (ptr b) = Some p ->
    exists d', start_read d sector b = Ret (Ok tt, d') }.

Section system.
Context {kernel_virt_to_phys : Z -> option Z} {HM : HeapMap kernel_virt_to_phys}.
Context {D : Type} {BD : BlockDriver D} {DD : DmaDriver kernel_virt_to_phys D}.
(** The bytes of the disk. *)
Context (disk : Z -> Z).

(** What a thread that has called [read_blocks] holds: the sector asked for, the
    buffer lent, and the response once it has come.  [l_failed] says that the
    device failed the transfer; no code sees it. *)
Record loan := mkLoan { l_sector : Z; l_buf : buffer; l_status : option (result unit BlockError); l_failed : bool }.

(** [disp] is the dispatcher thread once it runs, [inbox] its messages; [busy]
    says the device is at work, [irq] what its interrupt will report. *)
Record sys := mkSys {
  DISPATCHER_TID : Z; DRIVER : option D; disp : option (dispatcher (D := D)); inbox : list BlockMessage;
  mem : Z -> Z; busy : bool; irq : option (result unit BlockError); loans : gmap Z loan }.

Definition with_inbox (l : list BlockMessage) (s : sys) : sys := mkSys (DISPATCHER_TID s) (DRIVER s) (disp s) l (mem s) (busy s) (irq s) (loans s).
Definition with_loans (l : gmap Z loan) (s : sys) : sys := mkSys (DISPATCHER_TID s) (DRIVER s) (disp s) (inbox s) (mem s) (busy s) (irq s) l.
Definition with_mem (m : Z -> Z) (s : sys) : sys := mkSys (DISPATCHER_TID s) (DRIVER s) (disp s) (inbox s) m (busy s) (irq s) (loans s).
Definition with_device (b : bool) (i : option (result unit BlockError)) (s : sys) : sys :=
  mkSys (DISPATCHER_TID s) (DRIVER s) (disp s) (inbox s) (mem s) b i (loans s).

(** ** The functions of dispatcher.rs *)
Definition request_read_block (requester_tid sector : Z) (b : buffer) (s : sys) : sys :=
  if negb (DISPATCHER_TID s =? 0) then with_inbox (inbox s ++ [ReadRequest sector b requester_tid]) s else s.

Definition send_read_completion (status : result unit BlockError) (s : sys) : sys :=
  if negb (DISPATCHER_TID s =? 0) then with_inbox (inbox s ++ [ReadComplete status]) s else s.

(** [tid] is the number of the new thread. *)
Definition spawn_dispatcher (driver : D) (tid : Z) (s : sys) : option sys :=
  match DRIVER s with
  | Some _ => None
  | None => Some (mkSys tid (Some driver) (disp s) (inbox s) (mem s) (busy s) (irq s) (loans s))
  end.

Definition dispatcher_entry (s : sys) : outcome sys :=
  let! driver := expect (DRIVER s) in
  Ret (mkSys (DISPATCHER_TID s) None (Some (mkDispatcher driver None [])) (inbox s) (mem s) (busy s) (irq s) (loans s)).

(** [BlockDisk::read_blocks] up to [receive_message]; the response is the one
    [l_status] will hold. *)
Definition read_blocks (tid lba : Z) (b : buffer) (s : sys) : sys :=
  let s := request_read_block tid (as_u32 lba) b s in
  with_loans (<[tid := mkLoan (as_u32 lba) b None false]> (loans s)) s.

(** What the events of a turn do outside the dispatcher: the device goes to
    work, a thread gets its response. *)
Definition deliver (e : event) (s : sys) : sys :=
  match e with
  | Started _ => with_device true (irq s) s
  | Replied tid st => with_loans (alter (fun l => mkLoan (l_sector l) (l_buf l) (Some st) (l_failed l)) tid (loans s)) s
  end.

(** One turn of the dispatcher thread. *)
Definition dispatcher_turn (s : sys) : outcome sys :=
  match disp s, inbox s with
  | Some d, m :: rest =>
      let! '(d', ev) := dispatcher_main d m in
      Ret (fold_left (fun s e => deliver e s) ev (mkSys (DISPATCHER_TID s) (DRIVER s) (Some d') rest (mem s) (busy s) (irq s) (loans s)))
  | _, _ => Ret s
  end.

(** ** Runs *)

(** Memory with [n] bytes of the disk from [sector] at [p]. *)
Definition dma_write (sector p n : Z) (m : Z -> Z) : Z -> Z := fun a => if (p <=? a) && (a <? p + n) then disk (sector * 512 + (a - p)) else m a.

(** Memory that only differs in the [n] bytes at [p]. *)
Definition differs_in (p n : Z) (m m' : Z -> Z) : Prop := forall a, a < p \/ p + n <= a -> m' a = m a.

(** Exclusive borrows are in the heap and do not overlap. *)
Definition apart (b1 b2 : buffer) : Prop := in_heap b1 /\ in_heap b2 /\ (ptr b1 + len b1 <= ptr b2 \/ ptr b2 + len b2 <= ptr b1).

(** The device has failed the transfer of the thread being served. *)
Definition mark_failed (request : option Z) (ln : gmap Z loan) : gmap Z loan :=
  match request with Some tid => alter (fun l => mkLoan (l_sector l) (l_buf l) (l_status l) true) tid ln | None => ln end.

(** The moves of the dispatcher, the device and its interrupt. *)
Inductive io_step : sys -> sys -> Prop :=
| io_entry s s' : disp s = None -> dispatcher_entry s = Ret s' -> io_step s s'
| io_turn s s' : disp s <> None -> inbox s <> [] -> dispatcher_turn s = Ret s' -> io_step s s'
| io_done s d sector p n : busy s = true -> disp s = Some d -> transfer (device d) = Some (sector, p, n) ->
    io_step s (with_device false (Some (Ok tt)) (with_mem (dma_write sector p n (mem s)) s))
| io_fail s d sector p n m : busy s = true -> disp s = Some d -> transfer (device d) = Some (sector, p, n) -> differs_in p n (mem s) m ->
    io_step s (with_device false (Some on_failure) (with_mem m (with_loans (mark_failed (REQUEST d) (loans s)) s)))
| io_irq s r : irq s = Some r -> io_step s (send_read_completion r (with_device (busy s) None s)).

(** Threads start and end reads, and the rest of the kernel stores anywhere but
    in the buffers lent. *)
Inductive step : sys -> sys -> Prop :=
| step_io s s' : io_step s s' -> step s s'
| step_read tid lba b s : loans s !! tid = None -> buffer_ok b -> (forall t l, loans s !! t = Some l -> apart b (l_buf l)) ->
    step s (read_blocks tid lba b s)
| step_return s tid l : loans s !! tid = Some l -> l_status l <> None -> step s (with_loans (delete tid (loans s)) s)
| step_store s m : (forall t l p a, loans s !! t = Some l -> kernel_virt_to_phys (ptr (l_buf l)) = Some p -> p <= a < p + len (l_buf l) -> m a = mem s a) ->
    step s (with_mem m s).

(** Before the dispatcher is spawned. *)
Definition powered (m : Z -> Z) : sys := mkSys 0 None None [] m false None ∅.

Definition reachable (driver : D) (tid : Z) (m : Z -> Z) (s : sys) : Prop :=
  exists s0, spawn_dispatcher driver tid (powered m) = Some s0 /\ rtc step s0 s.

(** ** The invariant *)

(** The buffer of a loan holds what was asked for. *)
Definition has_data (m : Z -> Z) (l : loan) : Prop := exists p,
  kernel_virt_to_phys (ptr (l_buf l)) = Some p /\ dma_ok (l_buf l) /\
  forall i, 0 <= i < len (l_buf l) -> m (p + i) = disk (l_sector l * 512 + i).

Definition asked (ln : gmap Z loan) (tid sector : Z) (b : buffer) : Prop :=
  (exists failed, ln !! tid = Some (mkLoan sector b None failed)) /\ buffer_ok b /\ 0 <= sector < U32.

(** A success reported for the read is one of the device. *)
Definition trusted (l : loan) : Prop := l_failed l = false \/ on_failure <> Ok tt.

Definition msg_ok (ln : gmap Z loan) (x : BlockMessage) : Prop :=
  match x with ReadRequest sector b tid => asked ln tid sector b | ReadComplete _ => True | ReadResponse _ => False end.

Definition completions (ib : list BlockMessage) : list (result unit BlockError) :=
  omap (fun x => match x with ReadComplete st => Some st | _ => None end) ib.

(** How many ends of transfers are still to come. *)
Definition flight (bz : bool) (iq : option (result unit BlockError)) (ib : list BlockMessage) : nat :=
  (if bz then 1 else 0) + length (option_list iq) + length (completions ib).

(** The read the device was last given is the one of thread [tid]. *)
Definition in_flight (d : dispatcher) (ib : list BlockMessage) (m : Z -> Z) (bz : bool) (iq : option (result unit BlockError)) (ln : gmap Z loan) (tid : Z) : Prop :=
  exists sector b p, asked ln tid sector b /\ dma_ok b /\ kernel_virt_to_phys (ptr b) = Some p /\
    (bz = true -> transfer (device d) = Some (sector, p, len b)) /\
    (forall l, ln !! tid = Some l -> trusted l -> Ok tt ∈ option_list iq ++ completions ib -> has_data m l).

Record core (d : dispatcher) (ib : list BlockMessage) (m : Z -> Z) (bz : bool) (iq : option (result unit BlockError)) (ln : gmap Z loan) : Prop := {
  c_driver : driver_ok (device d);
  c_msgs : Forall (msg_ok ln) ib;
  c_pend : Forall (fun x => asked ln (ptid x) (psector x) (pbuffer x)) (pending d);
  c_once : NoDup (requests ib ++ waiting d);
  c_all : forall t l, ln !! t = Some l -> l_status l = None -> t ∈ requests ib ++ waiting d;
  c_data : forall t l, ln !! t = Some l -> l_status l = Some (Ok tt) -> trusted l -> has_data m l;
  c_apart : forall t1 t2 l1 l2, t1 <> t2 -> ln !! t1 = Some l1 -> ln !! t2 = Some l2 -> apart (l_buf l1) (l_buf l2);
  c_flight : flight bz iq ib = length (option_list (REQUEST d));
  c_request : forall tid, REQUEST d = Some tid -> in_flight d ib m bz iq ln tid }.

(** The dispatcher, running or about to. *)
Definition cur (s : sys) : option (dispatcher (D := D)) :=
  match disp s with Some d => Some d | None => (fun x => mkDispatcher x None []) <$> DRIVER s end.

Definition inv (s : sys) : Prop := DISPATCHER_TID s <> 0 /\ exists d, cur s = Some d /\ core d (inbox s) (mem s) (busy s) (irq s) (loans s).

(** ** A turn of the dispatcher *)
Definition answer (st : result unit BlockError) (tid : Z) (ln : gmap Z loan) : gmap Z loan :=
  alter (fun l => mkLoan (l_sector l) (l_buf l) (Some st) (l_failed l)) tid ln.

Lemma asked_answer ln st t tid sector b : t <> tid -> asked ln tid sector b -> asked (answer st t ln) tid sector b.
Proof. intros Hne ((f & H1) & H2). split; [|done]. exists f. unfold answer. by rewrite lookup_alter_ne. Qed.

Lemma msg_ok_answer ln st t ib : t ∉ requests ib -> Forall (msg_ok ln) ib -> Forall (msg_ok (answer st t ln)) ib.
Proof.
  intros Ht Hf. induction Hf as [|x ib Hx Hf IH]; [done|]. destruct x as [sector b tid|st'|st'].
  - cbn in Ht. apply not_elem_of_cons in Ht as [Hne Ht]. constructor; [by apply asked_answer|by apply IH].
  - constructor; [done|by apply IH].
  - done.
Qed.

Lemma answered st t ln t' l : answer st t ln !! t' = Some l ->
  (t' <> t /\ ln !! t' = Some l) \/ (t' = t /\ exists l0, ln !! t = Some l0 /\ l = mkLoan (l_sector l0) (l_buf l0) (Some st) (l_failed l0)).
Proof.
  unfold answer. destruct (decide (t' = t)) as [->|Hne].
  - rewrite lookup_alter_eq. intros (l0 & E & ->)%fmap_Some. right. eauto.
  - rewrite lookup_alter_ne by done. auto.
Qed.

Lemma answer_buf st tid ln t l : answer st tid ln !! t = Some l -> exists l', ln !! t = Some l' /\ l_buf l' = l_buf l.
Proof. intros Hl. destruct (answered _ _ _ _ _ Hl) as [[_ ?]|(-> & l0 & E & ->)]; eauto. Qed.

Lemma core_perm d ib m bz iq ln d' ib' : core d ib m bz iq ln -> requests ib' ++ waiting d' ≡ₚ requests ib ++ waiting d ->
  device d' = device d -> REQUEST d' = REQUEST d -> completions ib' = completions ib -> Forall (msg_ok ln) ib' ->
  Forall (fun x => asked ln (ptid x) (psector x) (pbuffer x)) (pending d') -> core d' ib' m bz iq ln.
Proof.
  intros [] Hp Hd Hr Hc Hm Hq. split; try done.
  - by rewrite Hd.
  - by rewrite Hp.
  - intros t l. rewrite Hp. eauto.
  - unfold flight. by rewrite Hc, Hr.
  - intros tid. rewrite Hr. intros Ht. destruct (c_request0 tid Ht) as (sector & b & p & H1 & H2 & H3 & H4 & H5).
    exists sector, b, p. rewrite Hd, Hc. by split_and!.
Qed.

(** A response: the thread's loan is answered, and nothing is in flight. *)
Lemma core_reply d st rest m bz iq ln tid : core d (ReadComplete st :: rest) m bz iq ln -> REQUEST d = Some tid ->
  core (mkDispatcher (device d) None (pending d)) rest m bz iq (answer st tid ln).
Proof.
  intros [] Hr. pose proof (c_request0 _ Hr) as (sector & b & p & Ha & Hb & Hp & _ & Hdata).
  assert (Hone : tid ∉ requests rest /\ tid ∉ (ptid <$> pending d)).
  { unfold waiting in c_once0. rewrite Hr in c_once0. cbn in c_once0. rewrite NoDup_app in c_once0. destruct c_once0 as (_ & H1 & H2%NoDup_cons).
    split; [|by apply H2]. intros H. apply (H1 tid H). by left. }
  destruct Hone as [H1 H2]. apply Forall_cons in c_msgs0 as [_ Hm]. split; cbn [device REQUEST pending].
  - done.
  - by apply msg_ok_answer.
  - rewrite Forall_forall in *. intros x Hx. apply asked_answer; [|by apply c_pend0]. intros ->. apply H2, list_elem_of_fmap. by exists x.
  - unfold waiting in *. rewrite Hr in c_once0. cbn in *. eapply sublist_NoDup; [exact c_once0|]. apply sublist_app; [done|]. by apply sublist_cons.
  - intros t l Hl Hs. destruct (answered _ _ _ _ _ Hl) as [[Hne Hl']|(-> & l0 & _ & ->)]; [|done].
    pose proof (c_all0 t l Hl' Hs) as Hin. unfold waiting in *. rewrite Hr in Hin. cbn in *. rewrite elem_of_app, elem_of_cons in Hin. rewrite elem_of_app. naive_solver.
  - intros t l Hl Hs Htr. destruct (answered _ _ _ _ _ Hl) as [[Hne Hl']|(-> & l0 & E & ->)]; [by eapply c_data0|].
    cbn in Hs. injection Hs as ->. destruct (Hdata l0 E Htr) as (q & Hq); [cbn; rewrite elem_of_app, elem_of_cons; auto|]. by exists q.
  - intros t1 t2 l1 l2 Hne E1 E2.
    destruct (answer_buf _ _ _ _ _ E1) as (l1' & E1' & <-), (answer_buf _ _ _ _ _ E2) as (l2' & E2' & <-). by eapply c_apart0.
  - unfold flight in *. rewrite Hr in c_flight0. change (completions (ReadComplete st :: rest)) with (st :: completions rest) in c_flight0.
    change (length (option_list (Some tid))) with 1%nat in c_flight0. cbn [length] in c_flight0. cbn. lia.
  - done.
Qed.

(** A request given to the driver. *)
Definition busy_after (ev : list event) (bz : bool) : bool := fold_left (fun b e => match e with Started _ => true | Replied _ _ => b end) ev bz.
Definition loans_after (ev : list event) (ln : gmap Z loan) : gmap Z loan :=
  fold_left (fun ln e => match e with Started _ => ln | Replied t st => answer st t ln end) ev ln.

Lemma core_refuse d sector b tid rest m bz iq ln dev e : core d (ReadRequest sector b tid :: rest) m bz iq ln -> REQUEST d = None -> driver_ok dev ->
  core (mkDispatcher dev None (pending d)) rest m bz iq (answer (Err e) tid ln).
Proof.
  intros [] Hr Hd. cbn in c_once0. apply NoDup_cons in c_once0 as [Hn Ho]. rewrite elem_of_app in Hn. apply Forall_cons in c_msgs0 as [_ Hm].
  assert (Hw : waiting d = ptid <$> pending d) by (unfold waiting; by rewrite Hr). rewrite Hw in *.
  split; cbn [device REQUEST pending].
  - done.
  - apply msg_ok_answer; [naive_solver|done].
  - rewrite Forall_forall in *. intros x Hx. apply asked_answer; [|by apply c_pend0]. intros ->. apply Hn. right. apply list_elem_of_fmap. by exists x.
  - done.
  - intros t l Hl Hs. destruct (answered _ _ _ _ _ Hl) as [[Hne Hl']|(-> & l0 & _ & ->)]; [|done].
    pose proof (c_all0 t l Hl' Hs) as Hin. cbn in Hin. by apply elem_of_cons in Hin as [->|Hin].
  - intros t l Hl Hs. destruct (answered _ _ _ _ _ Hl) as [[Hne Hl']|(-> & l0 & E & ->)]; [by eapply c_data0|done].
  - intros t1 t2 l1 l2 Hne E1 E2.
    destruct (answer_buf _ _ _ _ _ E1) as (l1' & E1' & <-), (answer_buf _ _ _ _ _ E2) as (l2' & E2' & <-). by eapply c_apart0.
  - unfold flight in *. by rewrite Hr in c_flight0.
  - done.
Qed.

Lemma core_start d sector b tid rest m bz iq ln dev : core d (ReadRequest sector b tid :: rest) m bz iq ln -> REQUEST d = None ->
  start_read (device d) sector b = Ret (Ok tt, dev) -> driver_ok dev -> core (mkDispatcher dev (Some tid) (pending d)) rest m true iq ln.
Proof.
  intros [] Hr E Hd. apply Forall_cons in c_msgs0 as [Ha Hm]. pose proof Ha as (_ & Hb & Hs).
  destruct (dd_started _ _ _ _ c_driver0 Hb Hs E) as (Hdma & p & Hp & Ht).
  assert (Hw : waiting d = ptid <$> pending d) by (unfold waiting; by rewrite Hr). rewrite Hw in *.
  unfold flight in c_flight0. rewrite Hr in c_flight0. cbn in c_flight0.
  assert (Hz : bz = false /\ iq = None /\ completions rest = []).
  { fold (completions rest) in c_flight0. destruct bz; [cbn in c_flight0; lia|]. destruct iq; [cbn in c_flight0; lia|]. by destruct (completions rest). }
  destruct Hz as (-> & -> & Hc).
  assert (Hperm : requests rest ++ tid :: (ptid <$> pending d) ≡ₚ requests (ReadRequest sector b tid :: rest) ++ (ptid <$> pending d)) by (cbn; by rewrite <- Permutation_middle).
  split; cbn [device REQUEST pending]; [done|done|done|..].
  - unfold waiting. cbn. by rewrite Hperm.
  - intros t l Hl Hst. unfold waiting. cbn. rewrite Hperm. eauto.
  - done.
  - done.
  - unfold flight. by rewrite Hc.
  - intros t [= <-]. exists sector, b, p. rewrite Hc. split_and!; try done. intros l _ _ H. by apply elem_of_nil in H.
Qed.

(** A turn never panics, and keeps the invariant. *)
Lemma core_issue d sector b tid rest m bz iq ln : core d (ReadRequest sector b tid :: rest) m bz iq ln -> REQUEST d = None ->
  exists d' ev, issue_read d sector b tid = Ret (d', ev) /\ core d' rest m (busy_after ev bz) iq (loans_after ev ln).
Proof.
  intros Hc Hr. pose proof (c_msgs _ _ _ _ _ _ Hc) as [(_ & Hb & _) _]%Forall_cons. unfold issue_read.
  destruct (start_read_total (device d) sector b (c_driver _ _ _ _ _ _ Hc) Hb) as ([[]|e] & dev & E & Hd); rewrite E; cbn [obind].
  - eexists _, _. split; [done|]. by eapply core_start.
  - eexists _, _. split; [done|]. rewrite Hr. by eapply core_refuse.
Qed.

Lemma core_turn d x rest m bz iq ln : core d (x :: rest) m bz iq ln ->
  exists d' ev, dispatcher_main d x = Ret (d', ev) /\ core d' rest m (busy_after ev bz) iq (loans_after ev ln).
Proof.
  intros Hc. pose proof (c_msgs _ _ _ _ _ _ Hc) as [Hx Hm]%Forall_cons. destruct x as [sector b tid|st|st]; cbn [dispatcher_main]; [| |done].
  - destruct (REQUEST d) as [u|] eqn:Er; [|by apply core_issue]. eexists _, []. split; [done|].
    eapply core_perm; [exact Hc|..]; try done.
    + unfold waiting. cbn [REQUEST pending]. rewrite fmap_app, Er. cbn. rewrite <- Permutation_cons_append, <- !Permutation_middle. solve_Permutation.
    + cbn [pending]. apply Forall_app_2; [exact (c_pend _ _ _ _ _ _ Hc)|]. by constructor.
  - destruct (REQUEST d) as [u|] eqn:Er.
    2:{ exfalso. pose proof (c_flight _ _ _ _ _ _ Hc) as Hf. rewrite Er in Hf. unfold flight in Hf.
        change (completions (ReadComplete st :: rest)) with (st :: completions rest) in Hf. cbn in Hf. lia. }
    pose proof (core_reply _ _ _ _ _ _ _ _ Hc Er) as H1. destruct (pending d) as [|nx ps] eqn:Ep.
    + by eexists _, _.
    + assert (H2 : core (mkDispatcher (device d) None ps) (ReadRequest (psector nx) (pbuffer nx) (ptid nx) :: rest) m bz iq (answer st u ln)).
      { pose proof (c_pend _ _ _ _ _ _ H1) as [Hnx Hps]%Forall_cons. eapply core_perm; [exact H1|..]; try done; [|constructor; [done|exact (c_msgs _ _ _ _ _ _ H1)]].
        unfold waiting. cbn. by rewrite <- Permutation_middle. }
      destruct (core_issue _ _ _ _ _ _ _ _ _ H2 eq_refl) as (d' & ev & -> & H3). cbn [obind]. by eexists _, _.
Qed.

Lemma fold_deliver ev : forall s, fold_left (fun s e => deliver e s) ev s =
  mkSys (DISPATCHER_TID s) (DRIVER s) (disp s) (inbox s) (mem s) (busy_after ev (busy s)) (irq s) (loans_after ev (loans s)).
Proof. induction ev as [|[t|t st] ev IH]; intros s; cbn [fold_left deliver]; [by destruct s|by rewrite IH..]. Qed.

Lemma turn_inv s : inv s -> exists s', dispatcher_turn s = Ret s' /\ inv s'.
Proof.
  intros (Ht & d & Hd & Hc). pose proof Hd as Hd'. unfold cur in Hd. unfold dispatcher_turn. destruct (disp s) as [d0|] eqn:Ed; [|exists s; split; [done|]; split; [done|]; by exists d].
  injection Hd as ->. destruct (inbox s) as [|x rest] eqn:Ei; [exists s; split; [done|]; split; [done|]; exists d; by rewrite Ei|].
  destruct (core_turn _ _ _ _ _ _ _ Hc) as (d' & ev & -> & Hc'). cbn [obind]. eexists. split; [done|]. rewrite fold_deliver. split; [done|]. by exists d'.
Qed.

(** ** Memory *)
Lemma has_data_keep m m' l : has_data m l ->
  (forall p a, kernel_virt_to_phys (ptr (l_buf l)) = Some p -> p <= a < p + len (l_buf l) -> m' a = m a) -> has_data m' l.
Proof. intros (p & Hp & Hb & Hm) H. exists p. split_and!; [done..|]. intros i Hi. rewrite (H p) by (done || lia). by apply Hm. Qed.

Lemma core_mem d ib m bz iq ln m' : core d ib m bz iq ln ->
  (forall t l p a, ln !! t = Some l -> kernel_virt_to_phys (ptr (l_buf l)) = Some p -> p <= a < p + len (l_buf l) -> m' a = m a) ->
  core d ib m' bz iq ln.
Proof.
  intros [] Hm. split; try done.
  - intros t l Hl Hs Htr. eapply has_data_keep; [by eapply c_data0|]. intros p a. by eapply Hm.
  - intros tid Ht. destruct (c_request0 tid Ht) as (sector & b & p & H1 & H2 & H3 & H4 & H5). exists sector, b, p. split_and!; try done.
    intros l El Htr Hin. eapply has_data_keep; [by apply H5|]. intros q a. by eapply Hm.
Qed.

(** While the device works on a transfer, it is the one of the thread being
    served, and nothing else is in flight. *)
Lemma core_busy d ib m iq ln sector p n : core d ib m true iq ln -> transfer (device d) = Some (sector, p, n) ->
  iq = None /\ completions ib = [] /\ exists tid b, REQUEST d = Some tid /\ n = len b /\ asked ln tid sector b /\ dma_ok b /\ kernel_virt_to_phys (ptr b) = Some p.
Proof.
  intros [] Ht. unfold flight in c_flight0. destruct (REQUEST d) as [tid|] eqn:Er; [|cbn in c_flight0; lia].
  destruct iq; [cbn in c_flight0; lia|]. destruct (completions ib); [|cbn in c_flight0; lia].
  destruct (c_request0 tid eq_refl) as (sector' & b & p' & Ha & Hb & Hp & Ht' & _). rewrite Ht' in Ht by done. injection Ht as -> -> <-. split_and!; try done.
  by exists tid, b.
Qed.

(** Its end may only have changed that thread's buffer. *)
Lemma core_end d ib m iq ln m' sector p n r : core d ib m true iq ln -> transfer (device d) = Some (sector, p, n) -> differs_in p n m m' ->
  (forall tid l, REQUEST d = Some tid -> ln !! tid = Some l -> trusted l -> r = Ok tt -> forall i, 0 <= i < n -> m' (p + i) = disk (sector * 512 + i)) ->
  core d ib m' false (Some r) ln.
Proof.
  intros Hc Ht Hm Hr. destruct (core_busy _ _ _ _ _ _ _ _ Hc Ht) as (-> & Hcs & tid & b & Er & -> & Ha & Hb & Hp). pose proof Ha as ((f & Hl) & _).
  destruct Hc. split; try done.
  - intros t l El Es Htr. assert (Hne : tid <> t) by (intros ->; rewrite Hl in El; injection El as <-; done).
    destruct (c_data0 t l El Es Htr) as (q & Hq & Hdl & Hml). exists q. split_and!; [done..|]. intros i Hi. rewrite Hm; [by apply Hml|].
    destruct (c_apart0 tid t _ l Hne Hl El) as (Hh1 & Hh2 & Hab). pose proof (hm_apart b (l_buf l) p q Hh1 Hh2 Hb Hdl Hab Hp Hq). lia.
  - intros t. rewrite Er. intros [= <-]. exists sector, b, p. split_and!; [done..|]. intros l El Htr Hin. cbn in Hin. rewrite Hcs, list_elem_of_singleton in Hin.
    assert (l = mkLoan sector b None f) as -> by congruence. exists p. split_and!; [done..|]. intros i Hi. by eapply Hr.
Qed.

(** A failure changes no more of a loan than its mark. *)
Lemma failed_lookup r ln t l : mark_failed r ln !! t = Some l ->
  exists l0, ln !! t = Some l0 /\ l_sector l = l_sector l0 /\ l_buf l = l_buf l0 /\ l_status l = l_status l0 /\ (l_failed l = false -> l0 = l) /\ (r = Some t -> l_failed l = true).
Proof.
  destruct r as [tid|]; cbn; [|intros ?; exists l; by split_and!]. intros [(-> & l0 & E & ->)|(Hne & E)]%lookup_alter_Some.
  - exists l0. by split_and!.
  - exists l. split_and!; try done. congruence.
Qed.

Lemma failed_asked r ln t sector b : asked ln t sector b -> asked (mark_failed r ln) t sector b.
Proof.
  intros ((f & E) & H). split; [|done]. destruct r as [tid|]; cbn; [|by exists f]. destruct (decide (tid = t)) as [->|Hne].
  - rewrite lookup_alter_eq, E. by eexists.
  - rewrite lookup_alter_ne by done. by exists f.
Qed.

Lemma trusted_failed r ln t l : mark_failed r ln !! t = Some l -> trusted l -> exists l0, ln !! t = Some l0 /\ trusted l0 /\ forall m, has_data m l0 -> has_data m l.
Proof.
  intros (l0 & E & E1 & E2 & _ & E4 & _)%failed_lookup [Hf|Hf]; exists l0; (split; [done|]).
  - rewrite (E4 Hf). split; [by left|done].
  - split; [by right|]. unfold has_data. by rewrite E1, E2.
Qed.

Lemma core_failed r d ib m bz iq ln : core d ib m bz iq ln -> core d ib m bz iq (mark_failed r ln).
Proof.
  intros []. split; try done.
  - eapply Forall_impl; [exact c_msgs0|]. intros [sector b tid|st|st]; [apply failed_asked|done|done].
  - eapply Forall_impl; [exact c_pend0|]. intros x. apply failed_asked.
  - intros t l (l0 & E & _ & _ & E3 & _)%failed_lookup Hs. eapply c_all0; [exact E|congruence].
  - intros t l Hl Hs Htr. destruct (trusted_failed _ _ _ _ Hl Htr) as (l0 & E & Ht0 & Hd). apply Hd. eapply c_data0; [exact E| |done].
    apply failed_lookup in Hl as (l1 & E' & _ & _ & E3 & _). congruence.
  - intros t1 t2 l1 l2 Hne (l1' & E1 & _ & -> & _)%failed_lookup (l2' & E2 & _ & -> & _)%failed_lookup. by eapply c_apart0.
  - intros tid Ht. destruct (c_request0 tid Ht) as (sector & b & p & H1 & H2 & H3 & H4 & H5). exists sector, b, p. split_and!; try done; [by apply failed_asked|].
    intros l Hl Htr Hin. destruct (trusted_failed _ _ _ _ Hl Htr) as (l0 & E & Ht0 & Hd). by apply Hd, H5.
Qed.

Lemma core_irq d ib m bz r ln : core d ib m bz (Some r) ln -> core d (ib ++ [ReadComplete r]) m bz None ln.
Proof.
  intros []. assert (Hreq : requests (ib ++ [ReadComplete r]) = requests ib) by (unfold requests; rewrite omap_app; cbn; by rewrite app_nil_r).
  assert (Hcm : completions (ib ++ [ReadComplete r]) = completions ib ++ [r]) by (unfold completions; by rewrite omap_app).
  split; try done.
  - apply Forall_app_2; [done|]. by constructor.
  - by rewrite Hreq.
  - by rewrite Hreq.
  - unfold flight in *. rewrite Hcm, length_app. cbn in *. lia.
  - intros tid Ht. destruct (c_request0 tid Ht) as (sector & b & p & H1 & H2 & H3 & H4 & H5). exists sector, b, p. split_and!; try done.
    intros l El Htr Hin. apply (H5 l El Htr). revert Hin. rewrite Hcm. cbn. rewrite elem_of_app, !elem_of_cons. intros [?|[?|?%elem_of_nil]]; [by right|by left|done].
Qed.

(** ** Loans *)
Lemma core_loans d ib m bz iq ln ln' : core d ib m bz iq ln ->
  (forall t sector b, asked ln t sector b -> asked ln' t sector b) ->
  (forall t l, ln' !! t = Some l -> ln !! t = Some l) ->
  (forall t1 t2 l1 l2, t1 <> t2 -> ln' !! t1 = Some l1 -> ln' !! t2 = Some l2 -> apart (l_buf l1) (l_buf l2)) -> core d ib m bz iq ln'.
Proof.
  intros [] Ha Hn Hap. split; try done.
  - eapply Forall_impl; [exact c_msgs0|]. intros [sector b tid|st|st]; [apply Ha|done|done].
  - eapply Forall_impl; [exact c_pend0|]. intros x. apply Ha.
  - intros t l Hl Hs. eauto.
  - intros t l Hl Hs. eauto.
  - intros tid Ht. destruct (c_request0 tid Ht) as (sector & b & p & H1 & H2 & H3 & H4 & H5). exists sector, b, p. split_and!; eauto.
Qed.

(** A thread in the lists of the dispatcher has asked. *)
Lemma core_listed d ib m bz iq ln t : core d ib m bz iq ln -> t ∈ requests ib ++ waiting d -> exists sector b, asked ln t sector b.
Proof.
  intros [] [Hin|Hin]%elem_of_app.
  - unfold requests in Hin. apply list_elem_of_omap in Hin as (x & Hx & Hr). rewrite Forall_forall in c_msgs0. specialize (c_msgs0 x Hx).
    destruct x; try done. cbn in Hr. injection Hr as ->. by eexists _, _.
  - unfold waiting in Hin. apply elem_of_app in Hin as [Hin|Hin].
    + destruct (REQUEST d) as [u|] eqn:Er; [|by apply elem_of_nil in Hin]. apply list_elem_of_singleton in Hin as ->.
      destruct (c_request0 u eq_refl) as (sector & b & p & H1 & _). by eexists _, _.
    + apply list_elem_of_fmap in Hin as (x & -> & Hx). rewrite Forall_forall in c_pend0. by eexists _, _; apply c_pend0.
Qed.

Lemma core_read d ib m bz iq ln tid sector b : core d ib m bz iq ln -> ln !! tid = None -> buffer_ok b -> 0 <= sector < U32 ->
  (forall t l, ln !! t = Some l -> apart b (l_buf l)) ->
  core d (ib ++ [ReadRequest sector b tid]) m bz iq (<[tid := mkLoan sector b None false]> ln).
Proof.
  intros Hc Hn Hb Hs Hap. set (ln' := <[tid := mkLoan sector b None false]> ln).
  assert (Ha : forall t sec bf, asked ln t sec bf -> asked ln' t sec bf).
  { intros t sec bf [[f Hl] Hr]. split; [|done]. exists f. unfold ln'. rewrite lookup_insert_ne; [done|]. intros <-. congruence. }
  assert (Hreq : requests (ib ++ [ReadRequest sector b tid]) = requests ib ++ [tid]) by (unfold requests; by rewrite omap_app).
  assert (Hcm : completions (ib ++ [ReadRequest sector b tid]) = completions ib) by (unfold completions; rewrite omap_app; cbn; by rewrite app_nil_r).
  assert (Hnot : tid ∉ requests ib ++ waiting d) by (intros Hin; destruct (core_listed _ _ _ _ _ _ _ Hc Hin) as (? & ? & (? & H) & _); congruence).
  assert (Hperm : requests (ib ++ [ReadRequest sector b tid]) ++ waiting d ≡ₚ tid :: requests ib ++ waiting d) by (rewrite Hreq; solve_Permutation).
  destruct Hc. split; try done.
  - apply Forall_app_2; [|constructor; [|done]].
    + eapply Forall_impl; [exact c_msgs0|]. intros [sec bf t|st|st]; [apply Ha|done|done].
    + split; [exists false; apply lookup_insert_eq|done].
  - eapply Forall_impl; [exact c_pend0|]. intros x. apply Ha.
  - rewrite Hperm. by apply NoDup_cons.
  - intros t l Hl Hst. rewrite Hperm. unfold ln' in Hl. destruct (decide (t = tid)) as [->|Hne]; [left|right]. rewrite lookup_insert_ne in Hl by done. eauto.
  - intros t l Hl Hst Htr. unfold ln' in Hl. apply lookup_insert_Some in Hl as [[_ <-]|[_ Hl]]; [done|eauto].
  - intros t1 t2 l1 l2 Hne E1 E2. unfold ln' in E1, E2. apply lookup_insert_Some in E1 as [[<- <-]|[_ E1]], E2 as [[<- <-]|[_ E2]]; try done.
    + by eapply Hap.
    + cbn. destruct (Hap _ _ E1) as (? & ? & ?). unfold apart. tauto.
    + by eapply c_apart0.
  - unfold flight. by rewrite Hcm.
  - intros t Ht. destruct (c_request0 t Ht) as (sec & bf & p & H1 & H2 & H3 & H4 & H5). exists sec, bf, p. rewrite Hcm. split_and!; try done; [by apply Ha|].
    intros l Hl. unfold ln' in Hl. apply lookup_insert_Some in Hl as [[<- <-]|[_ Hl]]; [|by apply H5]. destruct H1 as ((? & ?) & _). congruence.
Qed.

(** Every step keeps the invariant. *)
Lemma io_step_inv s s' : inv s -> io_step s s' -> inv s'.
Proof.
  intros Hi Hst. pose proof Hi as (Ht & d & Hd & Hc).
  destruct Hst as [s s' Hn E|s s' _ _ E|s d0 sector p n Hbz Ed Etr|s d0 sector p n m Hbz Ed Etr Hm|s r Hr].
  - unfold dispatcher_entry in E. destruct (DRIVER s) as [drv|] eqn:Ed; [|done]. injection E as <-. split; [done|]. exists d. split; [|done].
    unfold cur in *. by rewrite Hn, Ed in Hd.
  - destruct (turn_inv s Hi) as (s1 & E1 & H1). rewrite E1 in E. by injection E as <-.
  - split; [done|]. exists d. split; [done|]. unfold cur in Hd. rewrite Ed in Hd. injection Hd as ->. cbn. rewrite Hbz in Hc. eapply core_end; [exact Hc|exact Etr|..].
    + intros a Ha. unfold dma_write. zcases; [lia|done..].
    + intros tid l _ _ _ _ i Hin. unfold dma_write. rewrite (proj2 (Z.leb_le _ _)), (proj2 (Z.ltb_lt _ _)) by lia. cbn [andb]. do 2 f_equal. lia.
  - split; [done|]. exists d. split; [done|]. unfold cur in Hd. rewrite Ed in Hd. injection Hd as ->. cbn. rewrite Hbz in Hc.
    eapply core_end; [by apply core_failed|exact Etr|exact Hm|]. intros tid l Hr (l0 & _ & _ & _ & _ & _ & Hf)%failed_lookup [Hl|Hl]; [by rewrite Hf in Hl|done].
  - unfold send_read_completion. cbn. rewrite (proj2 (Z.eqb_neq _ _)) by done. cbn. split; [done|]. exists d. split; [done|]. cbn. rewrite Hr in Hc. by apply core_irq.
Qed.

Lemma step_inv s s' : inv s -> step s s' -> inv s'.
Proof.
  intros Hi Hst. pose proof Hi as (Ht & d & Hd & Hc). destruct Hst as [s s' Hst|tid lba b s Hn Hb Hap|s tid l Hl Hst|s m Hm].
  - by eapply io_step_inv.
  - unfold read_blocks, request_read_block. rewrite (proj2 (Z.eqb_neq _ _)) by done. cbn [negb]. split; [done|]. exists d. split; [done|].
    cbn. apply core_read; try done. apply Z.mod_pos_bound. done.
  - split; [done|]. exists d. split; [done|]. cbn. eapply core_loans; [exact Hc|..].
    + intros t sector b [[f E] H]. split; [|done]. exists f. rewrite lookup_delete_ne; [done|]. intros <-. rewrite Hl in E. by injection E as ->.
    + intros t l' [_ ?]%lookup_delete_Some. done.
    + intros t1 t2 l1 l2 Hne [_ E1]%lookup_delete_Some [_ E2]%lookup_delete_Some. by eapply (c_apart _ _ _ _ _ _ Hc).
  - split; [done|]. exists d. split; [done|]. by eapply core_mem.
Qed.

Lemma disk_reachable_inv driver tid m s : driver_ok driver -> tid <> 0 -> reachable driver tid m s -> inv s.
Proof.
  intros Hd Ht (s0 & [= <-] & Hr). assert (H0 : inv (mkSys tid (Some driver) None [] m false None ∅)).
  { split; [done|]. eexists. split; [reflexivity|]. split; try done; try apply NoDup_nil_2. }
  clear Hd. induction Hr as [s|s s1 s2 Hst _ IH]; [done|]. by eapply IH, step_inv.
Qed.

Lemma turn_mem s s' : dispatcher_turn s = Ret s' -> mem s' = mem s.
Proof.
  unfold dispatcher_turn. destruct (disp s); [|by intros [= <-]]. destruct (inbox s); [by intros [= <-]|].
  destruct (dispatcher_main _ _) as [[d' ev]| |]; cbn [obind]; [|done..]. intros [= <-]. by rewrite fold_deliver.
Qed.

(** The dispatcher and the device change no memory but the buffers of the
    threads that wait. *)
Lemma io_mem s s' a : inv s -> io_step s s' ->
  (forall t l p, loans s !! t = Some l -> l_status l = None -> kernel_virt_to_phys (ptr (l_buf l)) = Some p -> ~ p <= a < p + len (l_buf l)) -> mem s' a = mem s a.
Proof.
  intros (_ & d & Hd & Hc) Hst Ha. destruct Hst as [s s' Hn E|s s' _ _ E|s d0 sector p n Hbz Ed Etr|s d0 sector p n m Hbz Ed Etr Hm|s r Hr].
  - unfold dispatcher_entry in E. destruct (DRIVER s); [|done]. by injection E as <-.
  - by rewrite (turn_mem s s' E).
  - unfold cur in Hd. rewrite Ed in Hd. injection Hd as ->. rewrite Hbz in Hc. destruct (core_busy _ _ _ _ _ _ _ _ Hc Etr) as (_ & _ & tid & b & _ & -> & ((f & El) & _) & _ & Hp).
    cbn. unfold dma_write. pose proof (Ha _ _ _ El eq_refl Hp). cbn in *. zcases; [lia|done..].
  - unfold cur in Hd. rewrite Ed in Hd. injection Hd as ->. rewrite Hbz in Hc. destruct (core_busy _ _ _ _ _ _ _ _ Hc Etr) as (_ & _ & tid & b & _ & -> & ((f & El) & _) & _ & Hp).
    cbn. apply Hm. pose proof (Ha _ _ _ El eq_refl Hp). cbn in *. lia.
  - unfold send_read_completion. by destruct (negb _).
Qed.


(** ** Every thread is answered *)

(** A buffer every driver takes. *)
Definition valid (b : buffer) : Prop := dma_ok b /\ exists p, kernel_virt_to_phys (ptr b) = Some p.

Definition all_valid (ln : gmap Z loan) : Prop := forall t l, ln !! t = Some l -> valid (l_buf l).

(** The device is not idle while requests wait. *)
Definition not_stalled (d : dispatcher (D := D)) : Prop := REQUEST d = None -> pending d = [].

(** What is left to do. *)
Definition effort (d : dispatcher (D := D)) (ib : list BlockMessage) (bz : bool) (iq : option (result unit BlockError)) : nat :=
  10 * length (requests ib) + 3 * length (completions ib) + 9 * length (pending d) + (if bz then 5 else 0) + 4 * length (option_list iq).

Lemma issue_progress d sector b tid ln : driver_ok (device d) -> asked ln tid sector b -> all_valid ln ->
  exists dev, issue_read d sector b tid = Ret (mkDispatcher dev (Some tid) (pending d), [Started tid]).
Proof.
  intros Hd ((f & Hl) & Hb & _) Hv. destruct (Hv _ _ Hl) as (Hdma & p & Hp). destruct (dd_accepts _ sector _ _ Hd Hb Hdma Hp) as (dev & E).
  unfold issue_read. rewrite E. by exists dev.
Qed.

Lemma turn_progress d x rest m bz iq ln d' ev : core d (x :: rest) m bz iq ln -> all_valid ln -> not_stalled d ->
  dispatcher_main d x = Ret (d', ev) -> not_stalled d' /\ (effort d' rest (busy_after ev bz) iq < effort d (x :: rest) bz iq)%nat.
Proof.
  intros Hc Hv Hn. pose proof (c_msgs _ _ _ _ _ _ Hc) as [Hx _]%Forall_cons. destruct x as [sector b tid|st|st]; cbn [dispatcher_main]; [| |done].
  - assert (Hr : length (requests (ReadRequest sector b tid :: rest)) = S (length (requests rest))) by done.
    assert (Hm : completions (ReadRequest sector b tid :: rest) = completions rest) by done.
    destruct (REQUEST d) as [u|] eqn:Er.
    + intros [= <- <-]. split; [done|]. unfold effort. rewrite Hr, Hm. cbn [pending busy_after fold_left]. rewrite length_app. cbn [length]. lia.
    + destruct (issue_progress d sector b tid ln (c_driver _ _ _ _ _ _ Hc) Hx Hv) as (dev & ->). intros [= <- <-]. split; [done|].
      unfold effort. rewrite Hr, Hm. cbn [pending busy_after fold_left]. destruct bz; lia.
  - assert (Hr : requests (ReadComplete st :: rest) = requests rest) by done.
    assert (Hm : length (completions (ReadComplete st :: rest)) = S (length (completions rest))) by done.
    destruct (REQUEST d) as [u|] eqn:Er.
    + pose proof (c_pend _ _ _ _ _ _ Hc) as Hp. destruct (pending d) as [|nx ps] eqn:Ep.
      * intros [= <- <-]. split; [done|]. unfold effort. rewrite Hr, Hm, Ep. cbn [pending busy_after fold_left length]. lia.
      * apply Forall_cons in Hp as [Hnx _].
        destruct (issue_progress (mkDispatcher (device d) None ps) (psector nx) (pbuffer nx) (ptid nx) ln (c_driver _ _ _ _ _ _ Hc) Hnx Hv) as (dev & ->).
        cbn [obind]. intros [= <- <-]. split; [done|]. unfold effort. rewrite Hr, Hm, Ep. cbn [pending busy_after fold_left length]. destruct bz; lia.
    + intros [= <- <-]. split; [done|]. unfold effort. rewrite Hr, Hm. cbn [busy_after fold_left]. lia.
Qed.

(** Answers change nothing else about a loan. *)
Definition keeps (ln ln' : gmap Z loan) : Prop := forall t l, ln !! t = Some l ->
  exists l', ln' !! t = Some l' /\ l_sector l' = l_sector l /\ l_buf l' = l_buf l.

#[local] Instance keeps_preorder : PreOrder keeps.
Proof.
  split.
  - intros ln t l Hl. by exists l.
  - intros a b c H1 H2 t l Hl. destruct (H1 t l Hl) as (l' & Hl' & E1 & E2), (H2 t l' Hl') as (l'' & Hl'' & E3 & E4). exists l''. split_and!; congruence.
Qed.

Lemma loans_after_keeps ev : forall ln, keeps ln (loans_after ev ln).
Proof.
  induction ev as [|[t|t st] ev IH]; intros ln; cbn [loans_after fold_left]; [done|apply IH|]. etrans; [|apply IH].
  intros t' l Hl. unfold answer. destruct (decide (t = t')) as [->|Hne].
  - rewrite lookup_alter_eq, Hl. by eexists.
  - rewrite lookup_alter_ne by done. by exists l.
Qed.

Lemma loans_after_valid ev : forall ln, all_valid ln -> all_valid (loans_after ev ln).
Proof.
  induction ev as [|[t|t st] ev IH]; intros ln Hv; cbn [loans_after fold_left]; [done|by apply IH|]. apply IH. intros t' l Hl.
  destruct (answer_buf _ _ _ _ _ Hl) as (l' & Hl' & <-). by eapply Hv.
Qed.

Lemma failed_keeps r ln : keeps ln (mark_failed r ln).
Proof.
  intros t l Hl. destruct r as [tid|]; cbn; [|by exists l]. destruct (decide (tid = t)) as [->|Hne].
  - rewrite lookup_alter_eq, Hl. by eexists.
  - rewrite lookup_alter_ne by done. by exists l.
Qed.

Definition good (s : sys) : Prop := inv s /\ all_valid (loans s) /\ forall d, cur s = Some d -> not_stalled d.

(** What is left to do, the start of the dispatcher thread included. *)
Definition work (s : sys) : nat :=
  match cur s with Some d => effort d (inbox s) (busy s) (irq s) | None => 0 end + (if disp s then 0 else 1).

Lemma turn_good s s' : good s -> disp s <> None -> inbox s <> [] -> dispatcher_turn s = Ret s' ->
  good s' /\ keeps (loans s) (loans s') /\ (work s' < work s)%nat.
Proof.
  intros (Hi & Hv & Hn) Hd Hib E. destruct (turn_inv s Hi) as (s1 & E1 & Hi1). rewrite E in E1. injection E1 as <-.
  destruct Hi as (Ht & d & Ed & Hc). assert (Ed' := Ed). unfold cur in Ed'. unfold work. rewrite Ed. unfold dispatcher_turn in E. destruct (disp s) as [d0|]; [|done]. injection Ed' as ->.
  destruct (inbox s) as [|x rest] eqn:Ei; [done|]. destruct (dispatcher_main d x) as [[d' ev]| |] eqn:Em; [|done..]. cbn [obind] in E. rewrite fold_deliver in E. injection E as <-.
  destruct (turn_progress _ _ _ _ _ _ _ _ _ Hc Hv (Hn d Ed) Em) as [Hn' Hlt]. cbn [loans cur disp inbox busy irq]. split; [|split; [apply loans_after_keeps|lia]].
  split; [done|]. split; [by apply loans_after_valid|]. by intros ? [= <-].
Qed.

(** Every move of the dispatcher, the device or its interrupt brings the answers
    closer. *)
Lemma io_good s s' : good s -> io_step s s' -> good s' /\ keeps (loans s) (loans s') /\ (work s' < work s)%nat.
Proof.
  intros Hg Hst. pose proof Hg as (Hi & Hv & Hn). pose proof (io_step_inv _ _ Hi Hst) as Hi'. pose proof Hi as (Ht & d & Ed & Hc). unfold work. rewrite Ed.
  destruct Hst as [s s' Hd E|s s' Hd Hib E|s d0 sector p n Hbz Ed0 Etr|s d0 sector p n m Hbz Ed0 Etr Hm|s r Hr].
  - unfold cur in Ed. rewrite Hd in *. unfold dispatcher_entry in E. destruct (DRIVER s) as [drv|]; [|done]. injection E as <-. injection Ed as <-.
    split; [split; [done|split; [done|by intros ? [= <-]]]|]. split; [done|]. cbn [cur disp inbox busy irq]. unfold effort. lia.
  - destruct (turn_good s s' Hg Hd Hib E) as (H1 & H2 & H3). unfold work in H3. by rewrite Ed in H3.
  - split; [by split|]. split; [done|]. unfold cur in *. cbn [with_device with_mem with_loans disp inbox busy irq loans] in *. rewrite Ed0 in *. injection Ed as ->. rewrite Hbz in *.
    destruct (core_busy _ _ _ _ _ _ _ _ Hc Etr) as (-> & _). unfold effort. unfold option_list. cbn [option_rect length]. lia.
  - assert (Hv' : all_valid (mark_failed (REQUEST d0) (loans s))) by (intros t l (l0 & E & _ & -> & _)%failed_lookup; by eapply Hv).
    split; [by split|]. split; [apply failed_keeps|]. unfold cur in *. cbn [with_device with_mem with_loans disp inbox busy irq loans] in *. rewrite Ed0 in *. injection Ed as ->. rewrite Hbz in *.
    destruct (core_busy _ _ _ _ _ _ _ _ Hc Etr) as (-> & _). unfold effort. unfold option_list. cbn [option_rect length]. lia.
  - assert (E : send_read_completion r (with_device (busy s) None s) =
      mkSys (DISPATCHER_TID s) (DRIVER s) (disp s) (inbox s ++ [ReadComplete r]) (mem s) (busy s) None (loans s)).
    { unfold send_read_completion. cbn. by rewrite (proj2 (Z.eqb_neq _ _)). }
    rewrite E in *. split; [by split|]. split; [done|]. unfold cur in *. cbn [disp inbox busy irq DRIVER]. rewrite Ed, Hr.
    unfold effort, requests, completions, option_list. rewrite !omap_app, !length_app. cbn [omap list_omap requester option_rect length]. lia.
Qed.

Lemma io_run n s s' : good s -> nsteps io_step n s s' -> good s' /\ keeps (loans s) (loans s') /\ (n + work s' <= work s)%nat.
Proof.
  intros Hg Hr. induction Hr as [s|n s s1 s2 Hst _ IH]; [done|]. destruct (io_good _ _ Hg Hst) as (Hg1 & Hk & Hlt), IH as (Hg2 & Hk2 & Hle); [done|].
  split; [done|]. split; [by etrans|lia].
Qed.

(** There is such a move, unless every answer is there. *)
Lemma io_progress s : good s -> (exists s', io_step s s') \/ forall t l, loans s !! t = Some l -> l_status l <> None.
Proof.
  intros Hg. pose proof Hg as (Hi & Hv & Hn). pose proof Hi as (Ht & d & Hd & Hc). assert (Hd' := Hd). unfold cur in Hd'.
  destruct (disp s) as [d0|] eqn:Ed.
  2:{ left. destruct (DRIVER s) as [drv|] eqn:Edr; [|done]. eexists. apply io_entry; [done|]. unfold dispatcher_entry. by rewrite Edr. }
  injection Hd' as ->. destruct (decide (inbox s = [])) as [Ei|Ei].
  2:{ left. destruct (turn_inv s Hi) as (s' & E & _). exists s'. apply io_turn; [congruence|done|done]. }
  pose proof (c_flight _ _ _ _ _ _ Hc) as Hf. unfold flight in Hf. rewrite Ei in Hf. cbn [completions omap length] in Hf.
  destruct (irq s) as [r|] eqn:Eq; [left; eexists; by apply io_irq|]. destruct (busy s) eqn:Eb.
  - left. destruct (REQUEST d) as [tid|] eqn:Er; [|cbn in Hf; lia]. destruct (c_request _ _ _ _ _ _ Hc tid Er) as (sector & b & p & _ & _ & _ & Htr & _).
    eexists. eapply io_done; [done|done|by apply Htr].
  - right. intros t l Hl Hs. assert (Er : REQUEST d = None) by (destruct (REQUEST d); [cbn in Hf; lia|done]).
    pose proof (c_all _ _ _ _ _ _ Hc t l Hl Hs) as Hin. rewrite Ei in Hin. unfold waiting in Hin. rewrite Er, (Hn d Hd Er) in Hin. by apply elem_of_nil in Hin.
Qed.

(** Nothing moves when nothing is left to do. *)
Lemma io_idle s s' : disp s <> None -> inbox s = [] -> busy s = false -> irq s = None -> ~ io_step s s'.
Proof. intros H1 H2 H3 H4 Hst. destruct Hst; congruence. Qed.

(** The reads not answered yet. *)
Definition unanswered (ln : gmap Z loan) : gmap Z loan := filter (fun x => l_status (snd x) = None) ln.

Lemma work_bound s : good s -> (work s <= 10 * size (unanswered (loans s)) + 1)%nat.
Proof.
  intros ((_ & d & Hd & Hc) & _). unfold work. rewrite Hd. pose proof (c_flight _ _ _ _ _ _ Hc) as Hf. unfold flight in Hf.
  assert (Hle : (length (requests (inbox s) ++ waiting d) <= size (unanswered (loans s)))%nat).
  { rewrite <- size_dom, <- (size_list_to_set (C := gset Z) _ (c_once _ _ _ _ _ _ Hc)). apply subseteq_size. intros t Hin%elem_of_list_to_set.
    destruct (core_listed _ _ _ _ _ _ _ Hc Hin) as (sector & b & (f & E) & _). apply elem_of_dom. eexists. by apply map_lookup_filter_Some. }
  unfold waiting in Hle. rewrite !length_app, length_fmap in Hle. unfold effort. destruct (busy s), (disp s); lia.
Qed.

(** Steps after which every lent buffer is one the drivers take. *)
Definition valid_step (s s' : sys) : Prop := step s s' /\ all_valid (loans s').

Lemma good_step s s' : good s -> valid_step s s' -> good s'.
Proof.
  intros Hg [Hst Hv']. pose proof Hg as (Hi & Hv & Hn). pose proof (step_inv _ _ Hi Hst) as Hi'.
  destruct Hst as [s s' Hst|tid lba b s Hl Hb Hap|s tid l Hl Hst|s m Hm].
  - by destruct (io_good _ _ Hg Hst) as [? _].
  - split; [done|]. split; [done|]. intros d. unfold read_blocks, request_read_block. destruct (negb _); apply Hn.
  - by split.
  - by split.
Qed.

(** C19: when every buffer lent is fit for DMA (in one page, whole sectors,
    aligned and mapped), every [read_blocks] is answered: from every state the
    system reaches, the moves of the dispatcher, the device and its interrupt,
    in whatever order they come and whether transfers succeed or fail, are at
    most ten for each thread that waits and one to start the dispatcher; and as
    long as a thread waits there is such a move.  So no request is lost, and
    the three do not wait for each other. *)
Theorem disk_answers driver tid m s0 s (Hd : driver_ok driver) (Ht : tid <> 0)
    (H0 : spawn_dispatcher driver tid (powered m) = Some s0) (Hr : rtc valid_step s0 s) :
  (forall n s', nsteps io_step n s s' -> (n <= 10 * size (unanswered (loans s)) + 1)%nat) /\
  (forall s', rtc io_step s s' -> (exists s'', io_step s' s'') \/
    forall t l, loans s !! t = Some l -> exists l', loans s' !! t = Some l' /\ l_sector l' = l_sector l /\ l_buf l' = l_buf l /\ l_status l' <> None).
Proof.
  assert (Hg : good s).
  { assert (Hg0 : good s0).
    { split; [by apply (disk_reachable_inv driver tid m); [..|exists s0]|]. injection H0 as <-. split; [by intros t l H|]. by intros d [= <-]. }
    clear H0. induction Hr as [s|s s1 s2 Hst _ IH]; [done|]. by eapply IH, good_step. }
  split.
  - intros n s' Hn. pose proof (work_bound s Hg). destruct (io_run _ _ _ Hg Hn) as (_ & _ & ?). lia.
  - intros s' (n & Hn)%rtc_nsteps. destruct (io_run _ _ _ Hg Hn) as (Hg' & Hk & _). destruct (io_progress s' Hg') as [H|Hall]; [by left|right].
    intros t l Hl. destruct (Hk t l Hl) as (l' & Hl' & E1 & E2). exists l'. split_and!; [done..|by eapply Hall].
Qed.

End system.
(** ** The drivers *)
Section virtio.
Context (kernel_virt_to_phys : Z -> option Z).

(** What a VirtIO device finds: the entry of the available ring behind the
    index names the chain of the request. *)
Definition virtio_transfer (d : Virtio.VirtioBlk) : option (Z * Z * Z) :=
  idx ← Virtio.avail d !! 1%nat;
  head ← Virtio.avail d !! Z.to_nat (2 + (idx - 1) mod U16 mod 4);
  match Virtio.device_chain 4 (Virtio.desc d) head with
  | [(_, _, false); (p, n, true); (_, _, true)] =>
      if Virtio.req_type (Virtio.req d) =? Virtio.BLK_T_IN then Some (Virtio.sector (Virtio.req d), p, n) else None
  | _ => None
  end.

(** [virtio_irq_handler] reports [Ok] for every used buffer: the status byte the
    device writes is not looked at. *)
#[global, refine] Instance virtio_dma : DmaDriver kernel_virt_to_phys Virtio.VirtioBlk (BD := Virtio.virtio_driver kernel_virt_to_phys) :=
  {| transfer := virtio_transfer; on_failure := Ok tt |}.
Proof.
  - intros d sector b d' Hd Hb _ E.
    destruct (Virtio.start_io_spec kernel_virt_to_phys Virtio.BLK_T_IN sector b (Z.lor Virtio.DESC_F_WRITE Virtio.DESC_F_NEXT) d Hd Hb)
      as [(Hok & p & Hp & idx & d1 & Hi & Hir & E1 & _ & Hc & Hreq & _ & Ha1 & Ha2 & _)|(e & E1 & _)]; cbn in E; unfold Virtio.virtio_start_read in E; rewrite E1 in E; [|done].
    injection E as <-. split; [done|]. exists p. split; [done|]. unfold virtio_transfer. rewrite Ha1. cbn [mbind option_bind].
    replace ((((idx + 1) mod U16 - 1) mod U16) mod 4) with (idx mod 4) by (unfold U16; lia). rewrite Ha2. cbn [mbind option_bind].
    rewrite Hc, Hreq. unfold Virtio.chain. destruct Hok as (? & ? & ? & ?). rewrite as_u32_small by (unfold U32; lia). done.
  - intros d sector b p Hd Hb Hdma Hp.
    destruct (Virtio.start_io_spec kernel_virt_to_phys Virtio.BLK_T_IN sector b (Z.lor Virtio.DESC_F_WRITE Virtio.DESC_F_NEXT) d Hd Hb)
      as [(_ & _ & _ & idx & d1 & _ & _ & E1 & _)|(e & _ & [?|?])]; [by exists d1|done|congruence].
Defined.
End virtio.

Section sd.
Context {D : Type} {MD : Mm.Mmio D} (cpu : Fdt.CpuType) {SH : Sd.Sdhci}.
Context (kernel_virt_to_phys : Z -> option Z) (Hphys : forall a p, kernel_virt_to_phys a = Some p -> 0 <= p < USIZE).

(** What an SD host controller finds: the last command, and the descriptor at
    the address it was given. *)
Definition sd_transfer (s : Sd.sd (D := D)) : option (Z * Z * Z) :=
  x ← last (Sd.issued (Sd.dev s));
  if (Sd.t_desc x =? Sd.desc_table_phys s) && ((Sd.t_command x =? 0x113a_0011) || (Sd.t_command x =? 0x123a_0037)) && (Sd.attr (Sd.seen s) =? 0x23)
  then Some (Sd.t_sector x, Sd.addr_lo (Sd.seen s) + Sd.addr_hi (Sd.seen s) * U32, Sd.length (Sd.seen s)) else None.

(** [sd_irq_handler] reports [IoError] when the error bit is set. *)
#[refine] Definition sd_dma : DmaDriver kernel_virt_to_phys (Sd.sd (D := D)) (BD := Sd.sd_driver cpu kernel_virt_to_phys) :=
  {| transfer := sd_transfer; on_failure := Err IoError |}.
Proof.
  - intros d sector b d' Hd Hb Hs E.
    destruct (Sd.start_io_ok cpu kernel_virt_to_phys d sector b Sd.XFER_MODE_DATA_DIR_READ Sd.SD_CMD17_READ_SINGLE Sd.SD_CMD18_READ_MULTIPLE Hd Hb Hs)
      as [(e & E1 & _)|(p & s' & Hok & Hp & E1 & (H1 & H2 & H3) & Hq & _ & _ & Hi)]; cbn in E; unfold Sd.sd_start_read in E; [by intros n; unfold Sd.command; destruct (n =? 1)|..];
      rewrite E1 in E; [done|]. injection E as <-.
    split; [done|]. exists p. split; [done|]. unfold sd_transfer. rewrite Hi, last_snoc. cbn [mbind option_bind Sd.t_desc Sd.t_command Sd.t_sector].
    rewrite Hq, Z.eqb_refl, H1, H2, (H3 (Hphys _ _ Hp)). unfold Sd.command. by destruct (_ =? 1).
  - intros d sector b p Hd Hb Hdma Hp. cbn. unfold Sd.sd_start_read, Sd.start_io.
    destruct (validate_spec b Hb) as [(_ & -> & _)|(Hno & _)]; [|done]. cbn [obind]. rewrite Hp. by eexists.
Defined.
End sd.

(** ** The heap

    The address space of the kernel, from start-up on, keeps buffers apart. *)
Section heap.
Context {A : Type} `{FrameAllocator A} (w : Kmap.world (A := A)) (sy : Kmap.symbols) (memory : Mem.Region) (fs stack tf : list Z).
Context (Hks : Kinit.kernel_space sy memory w fs stack tf).

Definition heap_buffer (b : buffer) : Prop := KERNEL_HEAP_START <= ptr b /\ ptr b + len b <= Kmap.KERNEL_HEAP_END w.

(** A buffer a driver takes lies in one page, at the same offset in its frame. *)
Lemma heap_buffer_frame b p : heap_buffer b -> dma_ok b -> Kmap.kernel_virt_to_phys w (ptr b) = Some p ->
  exists i f off, fs !! i = Some f /\ ptr b = KERNEL_HEAP_START + Z.of_nat i * 4096 + off /\ p = f + off /\ 0 <= off /\ off + len b <= 4096 /\ f mod 4096 = 0.
Proof.
  intros [H1 H2] (D1 & D2 & D3 & D4) Hp. rewrite (Kinit.ks_end _ _ _ _ _ _ Hks) in H2. unfold KERNEL_HEAP_START in *.
  set (i := Z.to_nat ((ptr b - 0xffff_ffff_c000_0000) / 4096)). destruct (lookup_lt_is_Some_2 fs i) as [f Hf]; [lia|].
  exists i, f, (ptr b mod 4096). assert (E : ptr b = KERNEL_HEAP_START + Z.of_nat i * 4096 + ptr b mod 4096) by (unfold KERNEL_HEAP_START; lia).
  rewrite E, (Kinit.space_heap _ _ _ _ _ _ _ _ (ptr b mod 4096) Hks Hf ltac:(lia)) in Hp. injection Hp as <-. unfold KERNEL_HEAP_START in E. split_and!; [done|done|done|lia|lia|].
  pose proof (Kinit.ks_frames _ _ _ _ _ _ Hks) as Ho. rewrite !Forall_app in Ho. destruct Ho as (_ & Ho & _). exact (proj1 (Forall_lookup_1 _ _ _ _ Ho Hf)).
Qed.

#[refine] Definition kernel_heap_map : HeapMap (Kmap.kernel_virt_to_phys w) := {| in_heap := heap_buffer |}.
Proof.
  intros b1 b2 p1 p2 B1 B2 D1 D2 Hab E1 E2.
  destruct (heap_buffer_frame b1 p1 B1 D1 E1) as (i & f & o1 & F1 & P1 & -> & ? & ? & ?), (heap_buffer_frame b2 p2 B2 D2 E2) as (j & g & o2 & F2 & P2 & -> & ? & ? & ?).
  destruct (decide (i = j)) as [->|Hne]; [rewrite F1 in F2; injection F2 as ->; lia|].
  assert (f <> g) by (intros ->; apply Hne; by eapply NoDup_lookup; [apply (Kinit.ks_heap_nodup _ _ _ _ _ _ Hks)|..]). lia.
Defined.
End heap.

(** ** An example run

    A VirtIO disk, memory mapped one to one, and one thread that reads sector 5. *)
#[local, refine] Instance identity_map : HeapMap Some := {| in_heap := fun _ => True |}.
Proof. intros b1 b2 p1 p2 _ _ _ _ H [= <-] [= <-]. exact H. Defined.

#[local] Instance demo_driver : BlockDriver Virtio.VirtioBlk := Virtio.virtio_driver Some.

Notation virtio_sys := (sys (D := Virtio.VirtioBlk)).

Definition demo_disk (a : Z) : Z := a mod 251.
Definition demo_buffer : buffer := mkBuffer 8192 512.
Definition or_else (s : virtio_sys) (o : outcome virtio_sys) : virtio_sys := match o with Ret s' => s' | _ => s end.

Definition run0 : virtio_sys := mkSys 4 (Some Virtio.demo_virtio) None [] (fun _ => 0) false None ∅.
Definition run1 : virtio_sys := or_else run0 (dispatcher_entry run0).
Definition run2 : virtio_sys := read_blocks 7 5 demo_buffer run1.
Definition run3 : virtio_sys := or_else run2 (dispatcher_turn run2).
Definition run4 : virtio_sys := with_device false (Some (Ok tt)) (with_mem (dma_write demo_disk 5 8192 512 (mem run3)) run3).
Definition run5 : virtio_sys := send_read_completion (Ok tt) (with_device (busy run4) None run4).
Definition run6 : virtio_sys := or_else run5 (dispatcher_turn run5).

Notation demo_step := (step (kernel_virt_to_phys := Some) (DD := virtio_dma Some) demo_disk).
Notation demo_io := (io_step (kernel_virt_to_phys := Some) (DD := virtio_dma Some) demo_disk).

Lemma run_asked : rtc demo_step run0 run2.
Proof.
  eapply rtc_l; [by apply (step_io demo_disk run0 run1), io_entry|]. apply rtc_once.
  apply (step_read demo_disk 7 5 demo_buffer run1); [done|unfold buffer_ok; cbn; unfold USIZE; lia|]. by intros t l Hl.
Qed.

Lemma run_answered : rtc demo_io run2 run6.
Proof.
  eapply rtc_l; [by apply (io_turn demo_disk run2 run3)|].
  eapply rtc_l; [eapply (io_done demo_disk run3); [reflexivity|reflexivity|vm_compute; reflexivity]|].
  eapply rtc_l; [by apply (io_irq demo_disk run4 (Ok tt))|]. apply rtc_once. by apply (io_turn demo_disk run5 run6).
Qed.

Lemma io_steps s s' : rtc demo_io s s' -> rtc demo_step s s'.
Proof. intros H. induction H as [s|s s1 s2 Hst _ IH]; [done|]. eapply rtc_l; [by apply step_io|done]. Qed.


Lemma disk_answers_witness : (forall n s', nsteps demo_io n run2 s' -> (n <= 11)%nat) /\ exists l', loans run6 !! 7 = Some l' /\ l_status l' <> None.
Proof.
  destruct (disk_answers (DD := virtio_dma Some) demo_disk Virtio.demo_virtio 4 (fun _ => 0) run0 run2 Virtio.demo_virtio_wf ltac:(done) ltac:(done)) as (Hb & H).
  - eapply rtc_l; [split; [by apply (step_io demo_disk run0 run1), io_entry|]|apply rtc_once; split].
    + by intros t l Hl.
    + apply (step_read demo_disk 7 5 demo_buffer run1); [done|unfold buffer_ok; cbn; unfold USIZE; lia|]. by intros t l Hl.
    + intros t l Hl. change (loans run2) with (<[7 := mkLoan 5 demo_buffer None false]> (∅ : gmap Z loan)) in Hl.
      apply lookup_insert_Some in Hl as [[_ <-]|[_ Hl]]; [|by rewrite lookup_empty in Hl]. split; [unfold dma_ok; cbn; lia|by eexists].
  - split; [exact Hb|]. destruct (H run6 run_answered) as [(s'' & Hst)|Hall].
    + exfalso. revert Hst. by apply io_idle; vm_compute.
    + destruct (Hall 7 (mkLoan 5 demo_buffer None false)) as (l' & Hl & _ & _ & Hs); [by vm_compute|]. by exists l'.
Defined.

(** The device fails the read, with no byte transferred: the thread is told of
    a success all the same. *)
Definition run4_failed : virtio_sys := with_device false (Some (Ok tt)) (with_mem (mem run3) (with_loans (mark_failed (Some 7) (loans run3)) run3)).
Definition run5_failed : virtio_sys := send_read_completion (Ok tt) (with_device (busy run4_failed) None run4_failed).
Definition run6_failed : virtio_sys := or_else run5_failed (dispatcher_turn run5_failed).

Theorem virtio_failed_read : rtc demo_step run0 run6_failed /\
  loans run6_failed !! 7 = Some (mkLoan 5 demo_buffer (Some (Ok tt)) true) /\ mem run6_failed 8192 <> demo_disk (5 * 512).
Proof.
  split; [|split; [by vm_compute|by vm_compute]]. etrans; [apply run_asked|]. apply io_steps.
  eapply rtc_l; [by apply (io_turn demo_disk run2 run3)|].
  eapply rtc_l; [eapply (io_fail demo_disk run3 _ _ _ _ (mem run3)); [reflexivity|reflexivity|vm_compute; reflexivity|done]|].
  eapply rtc_l; [by apply (io_irq demo_disk run4_failed (Ok tt))|]. apply rtc_once. by apply (io_turn demo_disk run5_failed run6_failed).
Qed.

End Disk.
