(* ===== verification/KernelMain.v ===== *)
(** * Start-up of the kernel

    Models [kernel_main] of [src/src/kernel_main.rs] up to its menu, [init] of
    [src/src/kprint.rs] and the thread of [src/src/kthread/fs_init.rs]: the
    interrupt controller and the console, the registration of the file systems,
    the root from the initial archive, [/proc], the console device, and the
    mount of the disk on [/newroot].

    The components come together here.  An inode is one of the RAM file system,
    of [/proc] or of ext2; [kernel_ops] dispatches to the operations of
    [Ramfs], [Procfs] and [Ext2] the way the operation tables do. *)

From S2P Require Import Prelude Bytes Dtb File Ramfs Ext2 Cpio Vfs Procfs Dispatcher Block BlockInit Plic Uart.

Module KMain.
Import Fl.

(** The static operation tables. *)
Inductive ops := RAMFS_FILE_OPS | PROCFS_DIR_OPS | PROCFS_FILE_OPS | EXT2_FILE_OPS | UART_FILE_OPS.

(** The data of an inode of [/proc]; an entry is its index in [ENTRIES]. *)
Inductive proc_node := ProcDir | ProcFile (idx : nat) | ProcData (ino : Z) (d : list Z).

(** [mnt] numbers the instances of a file system.  The tree of a RAM file
    system does not change once it is unpacked. *)
Inductive inode :=
| RamInode (mnt : nat) (fs : Ram.Ramfs) (a : Z)
| ProcInode (mnt : nat) (n : proc_node)
| Ext2Inode (mnt : nat) (v : BlockInit.dyn_volume) (s : Ext2.Ext2SuperBlock) (i : Ext2.Inode).

Notation vstate := (Vfs.state (I := inode) (O := ops)).
Notation kernel := (Procfs.kernel (I := inode) (O := ops) (V := BlockInit.dyn_volume)).
Notation file := (Vfs.File (I := inode) (O := ops)).

Definition proc_in (n : proc_node) : Procfs.Inode (I := inode) (O := ops) (V := BlockInit.dyn_volume) :=
  match n with
  | ProcDir => Procfs.root
  | ProcFile idx =>
      match Procfs.ENTRIES !! idx with
      | Some e => Procfs.mkInode (Z.of_nat idx + 2) RegularFile 0 (Procfs.File e)
      | None => Procfs.root
      end
  | ProcData ino d => Procfs.mkInode ino RegularFile (Z.of_nat (length d)) (Procfs.FileData d)
  end.

Definition proc_out (i : Procfs.Inode (I := inode) (O := ops) (V := BlockInit.dyn_volume)) : proc_node :=
  match Procfs.data i with
  | Procfs.Dir => ProcDir
  | Procfs.File _ => ProcFile (Z.to_nat (Procfs.ino i - 2))
  | Procfs.FileData d => ProcData (Procfs.ino i) d
  end.

Definition ram_inode (fs : Ram.Ramfs) (a : Z) : Ram.Inode := default (Ram.make_dir_inode 0) (Ram.store fs !! a).

(** [BlockVolume::get_block] of what is registered.  The cache of a partition
    does not change what is read. *)
Definition volume_get (v : BlockInit.dyn_volume) (lba : Z) : outcome (result (list Z) Blk.BlockError) :=
  match v with
  | BlockInit.Whole w => Vol.get_block w lba
  | BlockInit.CachedPart c => let! '(r, _) := Cached.cached_get_block (fun _ => false) c lba in Ret r
  end.

Section kernel_main.
(** Bound on the directory entries ext2 reads in one lookup. *)
Context (fuel : nat).

Definition file_type_of (i : inode) : FileType :=
  match i with
  | RamInode _ fs a => Ram.file_type (ram_inode fs a)
  | ProcInode _ n => Procfs.file_type (proc_in n)
  | Ext2Inode _ _ _ i => Ext2.file_type i
  end.

Definition rdev_of (i : inode) : option (Z * Z) :=
  match i with RamInode _ fs a => Ram.rdev (ram_inode fs a) | _ => None end.

Definition fops_of (i : inode) : ops :=
  match i with
  | RamInode _ _ _ => RAMFS_FILE_OPS
  | ProcInode _ ProcDir => PROCFS_DIR_OPS
  | ProcInode _ _ => PROCFS_FILE_OPS
  | Ext2Inode _ _ _ _ => EXT2_FILE_OPS
  end.

(** [iops.lookup] *)
Definition lookup (i : inode) (name : list Z) : outcome (result inode Error) :=
  match i with
  | RamInode m fs a => let? c := Ram.lookup fs a name in Ret (Ok (RamInode m fs c))
  | ProcInode m n => let? c := Procfs.lookup (proc_in n) name in Ret (Ok (ProcInode m (proc_out c)))
  | Ext2Inode m v s i => let? ' (c, _) := Ext2.lookup (volume_get v) fuel (fun _ => false) s i name in Ret (Ok (Ext2Inode m v s c))
  end.

(** [fops.open]: the default but for the files of [/proc]. *)
Definition open (k : kernel) (o : ops) (i : inode) : outcome (result (ops * inode) Error) :=
  match o, i with
  | PROCFS_FILE_OPS, ProcInode m n => let? f := Procfs.open k (proc_in n) in Ret (Ok (PROCFS_FILE_OPS, ProcInode m (proc_out f)))
  | PROCFS_FILE_OPS, _ => Ret (Err InvalidInput)
  | _, _ => Ret (Ok (fops_of i, i))
  end.

Definition readdir (o : ops) (i : inode) : outcome (result (list DirEntry) Error) :=
  match o, i with
  | RAMFS_FILE_OPS, RamInode _ fs a => Ram.readdir fs a
  | PROCFS_DIR_OPS, ProcInode _ n => Procfs.readdir (proc_in n)
  | EXT2_FILE_OPS, Ext2Inode _ v s i => Ext2.readdir (volume_get v) fuel s i
  | (PROCFS_FILE_OPS | UART_FILE_OPS), _ => Ret (Err InvalidInput)
  | _, _ => Panic
  end.

(** The address of an inode.  Of what lookups give, the inodes of a RAM file
    system keep theirs; those of [/proc] and ext2 do while they are in use, and
    nothing is mounted on them. *)
Definition id_of (i : inode) : Z :=
  Z.pos (encode (match i with
                 | RamInode m _ a => (0%nat, m, a)
                 | ProcInode m n => (1%nat, m, match n with ProcDir => 1 | ProcFile idx => Z.of_nat idx + 2 | ProcData ino _ => ino end)
                 | Ext2Inode m _ _ i => (2%nat, m, Ext2.ino i)
                 end)).

Definition kernel_ops (k : kernel) : Vfs.FileOps inode ops :=
  {| Vfs.inode_id := id_of; Vfs.file_type := file_type_of; Vfs.rdev := rdev_of; Vfs.fops := fops_of;
     Vfs.lookup_op := lookup; Vfs.open_op := open k; Vfs.readdir_op := readdir |}.

(** ** The globals *)
Inductive dyn_fs := RAMFS_FS | PROCFS_FS | EXT2_FS.

Record globals := mkGlobals {
  MOUNTS : option (list (Vfs.Mount (I := inode)));
  FILESYSTEMS : option (list dyn_fs);
  CHARDEVS : option (gmap (Z * Z) (Vfs.CharDevEntry (O := ops)));
  BLOCKDEVS : gmap (Z * Z) (Procfs.BlkdevEntry (V := BlockInit.dyn_volume));
  CONSOLE : option file;
  KERNEL_READY : bool }.

(** What lookups depend on. *)
Definition lookup_state (g : globals) : vstate := Vfs.mkState (MOUNTS g) None (CHARDEVS g).
Definition lookup_kernel (g : globals) : kernel := Procfs.mkKernel (lookup_state g) (BLOCKDEVS g).

Definition instance (g : globals) : nat := length (default [] (MOUNTS g)).

(** [Ext2FileSystem::mount] *)
Definition ext2_mount (g : globals) (source : option (list Z)) : outcome (result (Vfs.SuperBlock (I := inode)) Error) :=
  match source with
  | None => Ret (Err InvalidInput)
  | Some source =>
      let? i := Vfs.vfs_lookup (FileOps0 := kernel_ops (lookup_kernel g)) (lookup_state g) source in
      match rdev_of i with
      | None => Ret (Err InvalidInput)
      | Some (major, minor) =>
          match Procfs.blkdev_get (BLOCKDEVS g) major minor with
          | None => Ret (Err NotFound)
          | Some v =>
              let! r := Ext2.new (volume_get v) (fun _ => false) in
              match r with
              | Err _ => Ret (Err InvalidInput)
              | Ok s => let! root := expect (Ext2.root s) in Ret (Ok (Vfs.mkSuperBlock (Ext2Inode (instance g) v s root) (lit "ext2")))
              end
          end
      end
  end.

(** The trait [FileSystem] of the three statics. *)
Definition driver (g : globals) (d : dyn_fs) : Vfs.FileSystem (I := inode) :=
  match d with
  | RAMFS_FS => Vfs.mkFileSystem (lit "ramfs") true
      (fun _ => Ret (Ok (Vfs.mkSuperBlock (RamInode (instance g) Ram.new (Ram.root Ram.new)) (lit "ramfs"))))
  | PROCFS_FS => Vfs.mkFileSystem (lit "proc") true
      (fun _ => Ret (Ok (Vfs.mkSuperBlock (ProcInode (instance g) ProcDir) (lit "proc"))))
  | EXT2_FS => Vfs.mkFileSystem (lit "ext2") false (ext2_mount g)
  end.

Definition view (g : globals) : vstate := Vfs.mkState (MOUNTS g) (map (driver g) <$> FILESYSTEMS g) (CHARDEVS g).
Definition kernel_of (g : globals) : kernel := Procfs.mkKernel (view g) (BLOCKDEVS g).

(** The calls of the modules, on the globals. *)
Definition register_filesystem (d : dyn_fs) (g : globals) : globals :=
  mkGlobals (MOUNTS g) (Some (default [] (FILESYSTEMS g) ++ [d])) (CHARDEVS g) (BLOCKDEVS g) (CONSOLE g) (KERNEL_READY g).

Definition vfs_init (sb : Vfs.SuperBlock) (g : globals) : globals :=
  mkGlobals (Vfs.MOUNTS (Vfs.init sb (view g))) (FILESYSTEMS g) (CHARDEVS g) (BLOCKDEVS g) (CONSOLE g) (KERNEL_READY g).

Definition vfs_lookup (g : globals) (path : list Z) : outcome (result inode Error) :=
  Vfs.vfs_lookup (FileOps0 := kernel_ops (kernel_of g)) (view g) path.

Definition vfs_open (g : globals) (path : list Z) : outcome (result file Error) :=
  Vfs.vfs_open (FileOps0 := kernel_ops (kernel_of g)) (view g) path.

Definition vfs_mount_at (source : option (list Z)) (path fs_name : list Z) (g : globals) : outcome (result globals Error) :=
  let? st := Vfs.vfs_mount_at (FileOps0 := kernel_ops (kernel_of g)) source path fs_name (view g) in
  Ret (Ok (mkGlobals (Vfs.MOUNTS st) (FILESYSTEMS g) (CHARDEVS g) (BLOCKDEVS g) (CONSOLE g) (KERNEL_READY g))).

(** [uart::register_chrdev] *)
Definition register_chrdev (g : globals) : globals :=
  mkGlobals (MOUNTS g) (FILESYSTEMS g) (Vfs.CHARDEVS (Vfs.chrdev_register 5 1 (lit "/dev/console") UART_FILE_OPS (view g)))
    (BLOCKDEVS g) (CONSOLE g) (KERNEL_READY g).

(** [kprint::init] *)
Definition kprint_init (g : globals) : outcome globals :=
  let! r := vfs_open g (lit "/dev/console") in
  match r with
  | Ok f => Ret (mkGlobals (MOUNTS g) (FILESYSTEMS g) (CHARDEVS g) (BLOCKDEVS g) (Some f) (KERNEL_READY g))
  | Err _ => Panic
  end.

(** [vfs_read]; the default [read] fails. *)
Definition vfs_read (f : file) (n : Z) : outcome (result (list Z) Error * file) :=
  let o := Vfs.f_fops f in
  let at_ off := Vfs.mkFile o off (Vfs.inode f) in
  match o, Vfs.inode f with
  | RAMFS_FILE_OPS, RamInode _ fs a => let! '(r, off) := Ram.read (ram_inode fs a) (Vfs.offset f) n in Ret (r, at_ off)
  | PROCFS_FILE_OPS, ProcInode _ nd => let! '(r, off) := Procfs.read (proc_in nd) (Vfs.offset f) n in Ret (r, at_ off)
  | EXT2_FILE_OPS, Ext2Inode _ v s i => let! '(r, off) := Ext2.read (volume_get v) s i (Vfs.offset f) n in Ret (r, at_ off)
  | (PROCFS_DIR_OPS | PROCFS_FILE_OPS | UART_FILE_OPS), _ => Ret (Err InvalidInput, f)
  | _, _ => Panic
  end.

(** ** [kernel_main], up to the menu *)

(** The entry points of the threads it makes. *)
Inductive entry := writer_entry | idle_entry | init_thread | fs_init_thread.

Context {D : Type} {MD : Mm.Mmio D} {Rest : Type}.

Record boot := mkBoot { plic : Plic.plic (D := D) (S := Rest); uart : Uart.UartConfig; globs : globals; threads : list entry }.

(** The [init] functions of the threads, as what they add to the threads made;
    [Thread] has the table. *)
Definition make_thread (e : entry) (threads : list entry) : list entry := threads ++ [e].

Definition power_on : globals := mkGlobals None None None ∅ None false.

Definition kernel_main (cpu : Fdt.CpuType) (handle_irq : Z) (mem : Z -> Z -> list Z) (initrd_start initrd_end : Z) (p : Plic.plic (D := D) (S := Rest))
    : outcome boot :=
  let! p := Plic.init cpu p in
  let! ' (u, p) := Uart.init cpu handle_irq p in
  let g := register_filesystem RAMFS_FS power_on in
  let g := register_filesystem PROCFS_FS g in
  let g := register_filesystem EXT2_FS g in
  let! fs := Cpio.new mem initrd_start initrd_end in
  let g := vfs_init (Vfs.mkSuperBlock (RamInode (instance g) fs (Ram.root fs)) (lit "ramfs")) g in
  let! r := vfs_mount_at None (lit "/proc") (lit "proc") g in
  match r with
  | Err _ => Panic
  | Ok g =>
      let g := register_chrdev g in
      let threads := make_thread writer_entry [] in
      let! g := kprint_init g in
      let threads := make_thread idle_entry threads in
      let threads := make_thread init_thread threads in
      let threads := make_thread fs_init_thread threads in
      Ret (mkBoot p u g threads)
  end.

(** One turn of the loop of [fs_init_thread]; [false]: the thread yields. *)
Definition EXT2_DEV : list Z := lit "/dev/sda2".
Definition EXT2_MOUNTPOINT : list Z := lit "/newroot".

Definition fs_init_turn (g : globals) : outcome (bool * globals) :=
  let! r := vfs_mount_at (Some EXT2_DEV) EXT2_MOUNTPOINT (lit "ext2") g in
  match r with
  | Ok g => Ret (true, mkGlobals (MOUNTS g) (FILESYSTEMS g) (CHARDEVS g) (BLOCKDEVS g) (CONSOLE g) true)
  | Err _ => Ret (false, g)
  end.

(** The loop, with the block devices that are registered at each of its turns;
    the thread that brings up the disk runs in between. *)
Definition with_devs (devs : BlockInit.devices) (g : globals) : globals :=
  mkGlobals (MOUNTS g) (FILESYSTEMS g) (CHARDEVS g) devs (CONSOLE g) (KERNEL_READY g).

Fixpoint fs_init_loop (turns : list BlockInit.devices) (g : globals) : outcome (bool * globals) :=
  match turns with
  | [] => Ret (false, g)
  | devs :: turns =>
      let! '(done, g) := fs_init_turn (with_devs devs g) in
      if done then Ret (true, g) else fs_init_loop turns g
  end.

(** ** The devices *)

(** The interrupt controller and the console. *)
Lemma register_irq_ok irq h (q : Plic.plic (D := D) (S := Rest)) : 0 < irq < 64 -> length (Plic.IRQ_HANDLERS q) = 64%nat -> 0 <= Plic.PLIC_BASE q < 2 ^ 32 ->
  exists q', Plic.register_irq irq h q = Ret q' /\ Plic.IRQ_HANDLERS q' = <[Z.to_nat irq := h]> (Plic.IRQ_HANDLERS q) /\ Plic.PLIC_BASE q' = Plic.PLIC_BASE q.
Proof.
  intros Hi Hl Hb. unfold Plic.register_irq, Plic.set_handler, Plic.MAX_IRQ. rewrite (proj2 (Z.leb_gt _ _)), Hl, (proj2 (Z.ltb_lt _ _)) by lia. cbn [obind Plic.PLIC_BASE].
  destruct (_ =? 0); [by eexists|]. unfold Plic.PRIORITY_OFFSET, Plic.ENABLE_OFFSET, Plic.PLIC_ENABLE_CONTEXT_STRIDE, Plic.PLIC_S_MODE_CONTEXT_ID.
  rewrite uadd_ok by (unfold USIZE; lia). cbn [obind]. rewrite umul_ok by (unfold USIZE; lia). cbn [obind]. rewrite uadd_ok by (unfold USIZE; lia). cbn [obind].
  rewrite uadd_ok by (unfold USIZE; lia). cbn [obind]. rewrite uadd_ok by (unfold USIZE; lia). cbn [obind]. rewrite umul_ok by (unfold USIZE; lia). cbn [obind].
  rewrite uadd_ok by (unfold USIZE; lia). cbn [obind]. destruct (Mm.mmio_read _ _ _) as [cur d]. by eexists.
Qed.

Lemma devices_ok cpu h (q : Plic.plic (D := D) (S := Rest)) : length (Plic.IRQ_HANDLERS q) = 64%nat ->
  exists q1 q2, Plic.init cpu q = Ret q1 /\ Uart.init cpu h q1 = Ret ((Uart.config_of cpu).1, q2) /\
    Plic.IRQ_HANDLERS q2 = <[Z.to_nat (Uart.config_of cpu).2 := h]> (Plic.IRQ_HANDLERS q) /\
    Plic.PLIC_BASE q2 = match cpu with Fdt.LicheeRVNano => Plic.NANO_PLIC_BASE | _ => Plic.QEMU_PLIC_BASE end.
Proof.
  intros Hl. assert (exists q1, Plic.init cpu q = Ret q1 /\ Plic.IRQ_HANDLERS q1 = Plic.IRQ_HANDLERS q /\
    Plic.PLIC_BASE q1 = match cpu with Fdt.LicheeRVNano => Plic.NANO_PLIC_BASE | _ => Plic.QEMU_PLIC_BASE end) as (q1 & E1 & Eh & Eb) by (destruct cpu; by eexists).
  assert (exists d, Uart.write_reg (Uart.config_of cpu).1 Uart.FCR_OFFSET (Z.lor (Z.lor Uart.FCR_FIFO_ENABLE Uart.FCR_RX_RESET) Uart.FCR_TX_RESET) (Plic.dev q1) = Ret d) as (d & Ed)
    by (destruct cpu; by eexists).
  destruct (register_irq_ok (Uart.config_of cpu).2 h (Plic.with_dev d q1)) as (q2 & E2 & H1 & H2); [by destruct cpu|by rewrite <- Hl, <- Eh|by destruct cpu; cbn; rewrite Eb|].
  exists q1, q2. split; [done|]. unfold Uart.init. destruct (Uart.config_of cpu) as [config irq]. cbn [fst snd] in *. rewrite Ed. cbn [obind]. rewrite E2. split_and!; [done|by rewrite H1, <- Eh|by rewrite H2].
Qed.

(** ** Mounts on the archive *)

(** The inodes of [/proc] and of the disk; nothing is mounted on them. *)
Definition off_ram (i : inode) : bool := match i with RamInode _ _ _ => false | _ => true end.

Definition on_ram (ms : list (Vfs.Mount (I := inode))) : Prop :=
  Forall (fun m => match Vfs.mountpoint_inode m with Some i => off_ram i = false | None => True end) ms.

Lemma id_off_ram i j : off_ram i = false -> off_ram j = true -> id_of i <> id_of j.
Proof. intros Hi Hj. destruct i as [m f a| |]; [|done|done]. destruct j; [done| |]; unfold id_of; intros E; injection E as E; by apply (inj encode) in E. Qed.

Lemma cross_off_ram k ms i : on_ram ms -> off_ram i = true -> Vfs.cross_list (FileOps0 := kernel_ops k) ms i = i.
Proof.
  intros Hms Hi. induction Hms as [|m ms Hm _ IH]; [done|]. cbn [Vfs.cross_list]. destruct (Vfs.mountpoint_inode m) as [mp|]; [|done].
  cbn [Vfs.inode_id kernel_ops]. rewrite (proj2 (Z.eqb_neq _ _)) by (by apply id_off_ram). done.
Qed.

Lemma lookup_off_ram i n j : lookup i n = Ret (Ok j) -> off_ram j = off_ram i.
Proof.
  destruct i as [m f a|m nd|m v s i]; cbn [lookup]; unfold rbind.
  - destruct (Ram.lookup f a n) as [[x|e]| |]; cbn [obind]; intros [= <-]; done.
  - destruct (Procfs.lookup (proc_in nd) n) as [[x|e]| |]; cbn [obind]; intros [= <-]; done.
  - destruct (Ext2.lookup (volume_get v) fuel (fun _ => false) s i n) as [[[x y]|e]| |]; cbn [obind]; intros [= <-]; done.
Qed.

(** Lookups from an inode, with no mounts on the way. *)
Fixpoint descend (i : inode) (parts : list (list Z)) : outcome (result inode Error) :=
  match parts with
  | [] => Ret (Ok i)
  | n :: parts => let? c := lookup i n in descend c parts
  end.

Lemma resolve_off_ram k (st : vstate) ms parts : Vfs.MOUNTS st = Some ms -> on_ram ms -> forall i, off_ram i = true ->
  Vfs.resolve (FileOps0 := kernel_ops k) st i parts = descend i parts.
Proof.
  intros Hst Hms. induction parts as [|n parts IH]; intros i Hi; [done|]. cbn [Vfs.resolve descend Vfs.lookup_op kernel_ops]. unfold rbind.
  destruct (lookup i n) as [[j|e]| |] eqn:E; [|done..]. cbn [obind]. apply lookup_off_ram in E. rewrite (Vfs.cross_at _ ms), cross_off_ram by congruence. apply IH. congruence.
Qed.

Lemma avoids_off_ram k (st : vstate) ms parts mp : Vfs.MOUNTS st = Some ms -> on_ram ms -> off_ram mp = false -> forall i, off_ram i = true ->
  Vfs.avoids (FileOps0 := kernel_ops k) st i parts (id_of mp).
Proof.
  intros Hst Hms Hmp. induction parts as [|n parts IH]; intros i Hi; [done|]. cbn [Vfs.avoids Vfs.lookup_op kernel_ops].
  destruct (lookup i n) as [[j|e]| |] eqn:E; [|done..]. apply lookup_off_ram in E. split.
  - intros E'. symmetry in E'. revert E'. apply id_off_ram; congruence.
  - rewrite (Vfs.cross_at _ ms), cross_off_ram by congruence. apply IH. congruence.
Qed.

Lemma resolve_same k k' (st st' : vstate) parts : Vfs.MOUNTS st = Vfs.MOUNTS st' -> forall i,
  Vfs.resolve (FileOps0 := kernel_ops k) st i parts = Vfs.resolve (FileOps0 := kernel_ops k') st' i parts.
Proof.
  intros Hst. induction parts as [|n parts IH]; intros i; [done|]. cbn [Vfs.resolve Vfs.lookup_op kernel_ops]. unfold rbind.
  destruct (lookup i n) as [[j|e]| |]; [|done..]. cbn [obind]. rewrite IH. unfold Vfs.cross_mount. by rewrite Hst.
Qed.

(** Lookups depend on the mounts only. *)
Lemma lookup_same k k' (st st' : vstate) path : Vfs.MOUNTS st = Vfs.MOUNTS st' ->
  Vfs.vfs_lookup (FileOps0 := kernel_ops k) st path = Vfs.vfs_lookup (FileOps0 := kernel_ops k') st' path.
Proof.
  intros Hst. unfold Vfs.vfs_lookup, Vfs.root_inode. rewrite Hst. destruct (Vfs.MOUNTS st') as [[|m ms]|] eqn:E; [done| |done]. apply (resolve_same k k' st st'). by rewrite E.
Qed.

(** ** After start-up *)
Section booted.
Context (fs : Ram.Ramfs) (p c : Z) (ic : Ram.Inode).

Definition root_sb : Vfs.SuperBlock := Vfs.mkSuperBlock (RamInode 0 fs (Ram.root fs)) (lit "ramfs").
Definition proc_sb : Vfs.SuperBlock := Vfs.mkSuperBlock (ProcInode 1 ProcDir) (lit "proc").
Definition boot_mounts : list (Vfs.Mount (I := inode)) :=
  [Vfs.mkMount None [47] root_sb; Vfs.mkMount (Some (RamInode 0 fs p)) (lit "/proc") proc_sb].

Definition booted : globals :=
  mkGlobals (Some boot_mounts) (Some [RAMFS_FS; PROCFS_FS; EXT2_FS]) (Some {[ (5, 1) := Vfs.mkCharDevEntry (lit "/dev/console") UART_FILE_OPS ]})
    ∅ (Some (Vfs.mkFile UART_FILE_OPS 0 (RamInode 0 fs c))) false.

(** The archive has a directory for [/proc] and the console device. *)
Context (Hproc : Ram.lookup fs (Ram.root fs) (lit "proc") = Ret (Ok p)).
Context (Hcons : Ram.walk fs (Ram.root fs) [lit "dev"; lit "console"] = Ret (Ok c)).
Context (Hic : Ram.store fs !! c = Some ic) (Htype : Ram.file_type ic = CharDevice) (Hrdev : Ram.rdev ic = Some (5, 1)).
Context (Hwf : Ram.wf fs).

Lemma id_ram m a a' : id_of (RamInode m fs a) = id_of (RamInode m fs a') -> a = a'.
Proof. unfold id_of. intros H. injection H as H. apply (inj encode) in H. by injection H. Qed.

Lemma cross_ram k a : Vfs.cross_list (FileOps0 := kernel_ops k) boot_mounts (RamInode 0 fs a) = if decide (a = p) then ProcInode 1 ProcDir else RamInode 0 fs a.
Proof.
  cbn [Vfs.cross_list boot_mounts Vfs.mountpoint_inode Vfs.inode_id kernel_ops Vfs.sb Vfs.root_inode_of proc_sb root_sb]. destruct (decide (a = p)) as [->|Hne]; [by rewrite Z.eqb_refl|]. destruct (Z.eqb_spec (id_of (RamInode 0 fs p)) (id_of (RamInode 0 fs a))) as [E|]; [|done].
  apply id_ram in E. congruence.
Qed.

(** A path that does not lead to [/proc] resolves in the archive. *)
Lemma resolve_ram k (st : vstate) parts : Vfs.MOUNTS st = Some boot_mounts -> forall a,
  (forall pre, pre `prefix_of` parts -> pre <> [] -> Ram.walk fs a pre <> Ret (Ok p)) ->
  Vfs.resolve (FileOps0 := kernel_ops k) st (RamInode 0 fs a) parts = let? b := Ram.walk fs a parts in Ret (Ok (RamInode 0 fs b)).
Proof.
  intros Hst. induction parts as [|n parts IH]; intros a Hav; [done|]. cbn [Vfs.resolve Ram.walk Vfs.lookup_op kernel_ops lookup]. unfold rbind.
  destruct (Ram.lookup fs a n) as [[b|e]| |] eqn:El; [|done..]. cbn [obind]. rewrite (Vfs.cross_at _ boot_mounts), cross_ram by done.
  rewrite decide_False.
  - rewrite IH; [done|]. intros pre [post ->] Hne. specialize (Hav (n :: pre) ltac:(by exists post) ltac:(done)). cbn [Ram.walk] in Hav. unfold rbind in Hav. by rewrite El in Hav.
  - intros ->. apply (Hav [n]); [by exists parts|done|]. cbn [Ram.walk]. unfold rbind. by rewrite El.
Qed.

Lemma walk_proc : Ram.walk fs (Ram.root fs) [lit "proc"] = Ret (Ok p).
Proof. cbn [Ram.walk]. unfold rbind. by rewrite Hproc. Qed.

Definition outside_proc (parts : list (list Z)) : Prop := match parts with n :: _ => n <> lit "proc" | [] => True end.

Lemma lookup_ram k (st : vstate) path : Vfs.MOUNTS st = Some boot_mounts -> outside_proc (components path) ->
  Vfs.vfs_lookup (FileOps0 := kernel_ops k) st path = let? b := Ram.walk fs (Ram.root fs) (components path) in Ret (Ok (RamInode 0 fs b)).
Proof.
  intros Hst Hout. unfold Vfs.vfs_lookup, Vfs.root_inode. rewrite Hst. unfold rbind at 1. cbn [expect obind lookup]. apply (resolve_ram k st (components path) Hst).
  intros pre Hpre Hne Hw. pose proof (Ram.walk_inj fs pre Hwf _ _ Hw walk_proc) as ->. destruct Hpre as [post E]. by rewrite E in Hout.
Qed.

(** [/proc] itself. *)
Lemma lookup_proc k (st : vstate) path rest : Vfs.MOUNTS st = Some boot_mounts -> components path = lit "proc" :: rest ->
  Vfs.vfs_lookup (FileOps0 := kernel_ops k) st path = Vfs.resolve (FileOps0 := kernel_ops k) st (ProcInode 1 ProcDir) rest.
Proof.
  intros Hst E. unfold Vfs.vfs_lookup, Vfs.root_inode. rewrite Hst, E.
  change ((let? c0 := (let? b := Ram.lookup fs (Ram.root fs) (lit "proc") in Ret (Ok (RamInode 0 fs b))) in
    Vfs.resolve (FileOps0 := kernel_ops k) st (Vfs.cross_mount (FileOps0 := kernel_ops k) st c0) rest) = Vfs.resolve (FileOps0 := kernel_ops k) st (ProcInode 1 ProcDir) rest).
  rewrite Hproc. unfold rbind. cbn [obind]. by rewrite (Vfs.cross_at _ boot_mounts), cross_ram, decide_True by done.
Qed.

Lemma console_open k (st : vstate) : Vfs.MOUNTS st = Some boot_mounts -> Vfs.CHARDEVS st = CHARDEVS booted ->
  Vfs.vfs_open (FileOps0 := kernel_ops k) st (lit "/dev/console") = Ret (Ok (Vfs.mkFile UART_FILE_OPS 0 (RamInode 0 fs c))).
Proof.
  intros Hst Hcd. unfold Vfs.vfs_open. rewrite (lookup_ram k st) by (done || by vm_compute).
  change (components (lit "/dev/console")) with [lit "dev"; lit "console"]. rewrite Hcons. unfold rbind. cbn [obind].
  assert (Ei : ram_inode fs c = ic) by (unfold ram_inode; by rewrite Hic).
  rewrite bool_decide_true by (cbn [Vfs.file_type kernel_ops file_type_of]; by rewrite Ei).
  unfold Vfs.chrdev_open. cbn [Vfs.rdev kernel_ops rdev_of]. rewrite Ei, Hrdev, Hcd. reflexivity.
Qed.


Lemma kernel_main_run cpu h mem s e (q : Plic.plic (D := D) (S := Rest)) : length (Plic.IRQ_HANDLERS q) = 64%nat -> Cpio.new mem s e = Ret fs ->
  exists q', kernel_main cpu h mem s e q = Ret (mkBoot q' (Uart.config_of cpu).1 booted [writer_entry; idle_entry; init_thread; fs_init_thread]) /\
    Plic.IRQ_HANDLERS q' = <[Z.to_nat (Uart.config_of cpu).2 := h]> (Plic.IRQ_HANDLERS q).
Proof.
  intros Hl Hnew. destruct (devices_ok cpu h q Hl) as (q1 & q2 & E1 & E2 & Hh & _). exists q2. split; [|done].
  unfold kernel_main. rewrite E1. cbn [obind]. rewrite E2. cbn [obind]. rewrite Hnew. cbn [obind].
  set (g0 := vfs_init _ _).
  assert (Em : vfs_mount_at None (lit "/proc") (lit "proc") g0 = Ret (Ok (mkGlobals (Some boot_mounts) (FILESYSTEMS g0) None ∅ None false))).
  { unfold vfs_mount_at, Vfs.vfs_mount_at. 
    assert (El : Vfs.vfs_lookup (FileOps0 := kernel_ops (kernel_of g0)) (view g0) (lit "/proc") = Ret (Ok (RamInode 0 fs p))).
    { change (Vfs.vfs_lookup (FileOps0 := kernel_ops (kernel_of g0)) (view g0) (lit "/proc")) with
        (let? x := (let? b := Ram.lookup fs (Ram.root fs) (lit "proc") in Ret (Ok (RamInode 0 fs b))) in (Ret (Ok x) : outcome (result inode Error))).
      by rewrite Hproc. }
    rewrite El. reflexivity. }
  rewrite Em. cbn [obind]. unfold kprint_init, vfs_open. rewrite console_open; [|done|reflexivity]. reflexivity.
Qed.

(** ** Reading *)
Lemma lift_stream rd sok content o i : Vfs.Stream rd sok content ->
  (forall off n, vfs_read (Vfs.mkFile o off i) n = let! '(r, off') := rd off n in Ret (r, Vfs.mkFile o off' i)) ->
  Vfs.Stream vfs_read (fun f => exists off, f = Vfs.mkFile o off i /\ sok off) (fun f => content (Vfs.offset f)).
Proof.
  intros Hs Hrd f n (off & -> & Hok) Hn. destruct (Vfs.stream_read (Stream := Hs) off n Hok Hn) as (chunk & off' & E & Hok' & Hc & Hl & He).
  exists chunk, (Vfs.mkFile o off' i). rewrite Hrd, E. split_and!; [done|by exists off'|done|done|done].
Qed.

Lemma read_whole rd o i d : Vfs.Stream rd (fun off => 0 <= off <= Z.of_nat (length d)) (fun off => drop (Z.to_nat off) d) ->
  (forall off n, vfs_read (Vfs.mkFile o off i) n = let! '(r, off') := rd off n in Ret (r, Vfs.mkFile o off' i)) ->
  exists f', Vfs.vfs_read_exact vfs_read (Vfs.mkFile o 0 i) (Z.of_nat (length d)) = Ret (Ok d, f').
Proof.
  intros Hs Hrd. pose proof (lift_stream rd _ _ o i Hs Hrd) as Hs'.
  pose proof (Vfs.read_exact_loop_ok vfs_read _ _ (Hstream := Hs') (S (length d)) (Vfs.mkFile o 0 i) (Z.of_nat (length d)) []) as H.
  cbn [Vfs.offset] in H. rewrite drop_0, Z.leb_refl, Nat2Z.id, take_ge in H by lia.
  destruct H as (f' & E & _); [exists 0; split; [done|lia]|lia|]. exists f'. unfold Vfs.vfs_read_exact. by rewrite Nat2Z.id.
Qed.

Lemma read_text rd o i d n : Vfs.Stream rd (fun off => 0 <= off <= Z.of_nat (length d)) (fun off => drop (Z.to_nat off) d) ->
  (forall off n, vfs_read (Vfs.mkFile o off i) n = let! '(r, off') := rd off n in Ret (r, Vfs.mkFile o off' i)) ->
  (length d < n)%nat -> Forall (fun c => 0 <= c <= 127) d ->
  exists f', Vfs.vfs_read_to_string vfs_read n (Vfs.mkFile o 0 i) [] = Ret (Ok tt, d, f').
Proof.
  intros Hs Hrd Hn Ha. pose proof (lift_stream rd _ _ o i Hs Hrd) as Hs'.
  pose proof (Vfs.read_to_string_ok vfs_read _ _ (Hstream := Hs') n (Vfs.mkFile o 0 i) []) as H. cbn [Vfs.offset] in H. rewrite drop_0 in H.
  destruct H as (f' & E); [exists 0; split; [done|lia]|done|done|]. by exists f'.
Qed.

Lemma opened_ram g path a i : MOUNTS g = Some boot_mounts -> outside_proc (components path) -> Ram.walk fs (Ram.root fs) (components path) = Ret (Ok a) ->
  Ram.store fs !! a = Some i -> Ram.file_type i <> CharDevice -> vfs_open g path = Ret (Ok (Vfs.mkFile RAMFS_FILE_OPS 0 (RamInode 0 fs a))).
Proof.
  intros Hg Hout Hw Ha Ht. unfold vfs_open, Vfs.vfs_open. rewrite (lookup_ram _ (view g)), Hw by done. unfold rbind. cbn [obind].
  rewrite bool_decide_false; [done|]. cbn [Vfs.file_type kernel_ops file_type_of]. unfold ram_inode. by rewrite Ha.
Qed.

Lemma ram_reads a i : Ram.store fs !! a = Some i -> forall off n,
  vfs_read (Vfs.mkFile RAMFS_FILE_OPS off (RamInode 0 fs a)) n = let! '(r, off') := Ram.read i off n in Ret (r, Vfs.mkFile RAMFS_FILE_OPS off' (RamInode 0 fs a)).
Proof. intros Ha off n. unfold vfs_read, ram_inode. cbn [Vfs.f_fops Vfs.inode Vfs.offset]. by rewrite Ha. Qed.

Lemma open_ram g path a i d : MOUNTS g = Some boot_mounts -> outside_proc (components path) -> Ram.walk fs (Ram.root fs) (components path) = Ret (Ok a) ->
  Ram.store fs !! a = Some i -> Ram.file_type i = RegularFile -> Ram.node i = Ram.File d ->
  exists f f', vfs_open g path = Ret (Ok f) /\ Vfs.vfs_read_exact vfs_read f (Z.of_nat (length d)) = Ret (Ok d, f').
Proof.
  intros Hg Hout Hw Ha Ht Hn. destruct (read_whole (Ram.read i) RAMFS_FILE_OPS (RamInode 0 fs a) d (Vfs.ramfs_stream i d Hn) (ram_reads a i Ha)) as (f' & E).
  eexists. exists f'. split; [|exact E]. apply (opened_ram g path a i); by rewrite ?Ht.
Qed.

Lemma boot_on_ram : on_ram boot_mounts.
Proof. by repeat constructor. Qed.

Lemma opened_proc g path e : MOUNTS g = Some boot_mounts -> e ∈ Procfs.ENTRIES -> components path = [lit "proc"; Procfs.pe_name e] ->
  exists idx, vfs_open g path = Ret (Ok (Vfs.mkFile PROCFS_FILE_OPS 0 (ProcInode 1 (ProcData (Z.of_nat idx + 2) (Procfs.generate (Procfs.content e) (kernel_of g)))))).
Proof.
  intros Hg He Hpath.
  assert (exists idx, Procfs.ENTRIES !! idx = Some e /\ lookup (ProcInode 1 ProcDir) (Procfs.pe_name e) = Ret (Ok (ProcInode 1 (ProcFile idx)))) as (idx & Hidx & Hl).
  { unfold Procfs.ENTRIES in He. apply elem_of_cons in He as [->|He]; [by exists 0%nat|]. apply elem_of_cons in He as [->|He]; [by exists 1%nat|].
    apply elem_of_cons in He as [->|He]; [by exists 2%nat|]. apply elem_of_cons in He as [->|He]; [by exists 3%nat|]. by apply elem_of_nil in He. }
  exists idx. unfold vfs_open, Vfs.vfs_open. rewrite (lookup_proc _ (view g) path [Procfs.pe_name e]) by done. cbn [Vfs.resolve Vfs.lookup_op kernel_ops]. rewrite Hl. unfold rbind. cbn [obind].
  rewrite (Vfs.cross_at _ boot_mounts), cross_off_ram by (apply boot_on_ram || done). rewrite bool_decide_false by (cbn [Vfs.file_type kernel_ops file_type_of proc_in]; rewrite Hidx; done).
  cbn [Vfs.open_op kernel_ops Vfs.fops fops_of open]. unfold rbind. unfold Procfs.open. cbn [proc_in]. by rewrite Hidx.
Qed.

Lemma proc_reads n d off k : vfs_read (Vfs.mkFile PROCFS_FILE_OPS off (ProcInode 1 (ProcData n d))) k =
  let! '(r, off') := Procfs.read (proc_in (ProcData n d)) off k in Ret (r, Vfs.mkFile PROCFS_FILE_OPS off' (ProcInode 1 (ProcData n d))).
Proof. done. Qed.

Lemma open_proc g path e : MOUNTS g = Some boot_mounts -> e ∈ Procfs.ENTRIES -> components path = [lit "proc"; Procfs.pe_name e] ->
  let text := Procfs.generate (Procfs.content e) (kernel_of g) in
  exists f f', vfs_open g path = Ret (Ok f) /\ Vfs.vfs_read_exact vfs_read f (Z.of_nat (length text)) = Ret (Ok text, f').
Proof.
  intros Hg He Hpath text. destruct (opened_proc g path e Hg He Hpath) as (idx & E).
  destruct (read_whole (Procfs.read (proc_in (ProcData (Z.of_nat idx + 2) text))) PROCFS_FILE_OPS (ProcInode 1 (ProcData (Z.of_nat idx + 2) text)) text) as (f' & E'); [by apply Procfs.file_stream|apply proc_reads|].
  eexists. exists f'. by split.
Qed.

(** ** The disk on [/newroot] *)
Section newroot.
Context (w dv : Z) (idv : Ram.Inode).
Context (Hnewroot : Ram.lookup fs (Ram.root fs) (lit "newroot") = Ret (Ok w)).
Context (Hdev : Ram.walk fs (Ram.root fs) [lit "dev"; lit "sda2"] = Ret (Ok dv)).
Context (Hidv : Ram.store fs !! dv = Some idv) (Hdvr : Ram.rdev idv = Some (8, 2)).

Definition outside_newroot (parts : list (list Z)) : Prop := match parts with n :: _ => n <> lit "newroot" | [] => True end.

Lemma walk_newroot : Ram.walk fs (Ram.root fs) [lit "newroot"] = Ret (Ok w).
Proof. cbn [Ram.walk]. unfold rbind. by rewrite Hnewroot. Qed.

Lemma newroot_free k : Vfs.covered (FileOps0 := kernel_ops k) boot_mounts (RamInode 0 fs w) = false.
Proof.
  cbn [Vfs.covered existsb boot_mounts Vfs.mountpoint_inode Vfs.inode_id kernel_ops]. destruct (Z.eqb_spec (id_of (RamInode 0 fs p)) (id_of (RamInode 0 fs w))) as [E|]; [|done].
  apply id_ram in E. pose proof walk_proc as Hp. rewrite E in Hp. by pose proof (Ram.walk_inj fs _ Hwf _ _ walk_newroot Hp).
Qed.

Lemma avoids_ram k (st : vstate) parts : Vfs.MOUNTS st = Some boot_mounts -> forall a,
  (forall pre, pre `prefix_of` parts -> pre <> [] -> Ram.walk fs a pre <> Ret (Ok w)) ->
  Vfs.avoids (FileOps0 := kernel_ops k) st (RamInode 0 fs a) parts (id_of (RamInode 0 fs w)).
Proof.
  intros Hst. induction parts as [|n parts IH]; intros a Hav; [done|]. cbn [Vfs.avoids Vfs.lookup_op kernel_ops lookup Vfs.inode_id]. unfold rbind.
  destruct (Ram.lookup fs a n) as [[b|e]| |] eqn:El; [|done..]. cbn [obind]. split.
  - intros E%id_ram. rewrite E in El. apply (Hav [n]); [by exists parts|done|]. cbn [Ram.walk]. unfold rbind. by rewrite El.
  - rewrite (Vfs.cross_at _ boot_mounts), cross_ram by done. destruct (decide (b = p)).
    + by apply (avoids_off_ram k st boot_mounts parts (RamInode 0 fs w) Hst boot_on_ram).
    + apply IH. intros pre [post ->] Hne. specialize (Hav (n :: pre) ltac:(by exists post) ltac:(done)). cbn [Ram.walk] in Hav. unfold rbind in Hav. by rewrite El in Hav.
Qed.

Lemma avoids_newroot k (st : vstate) parts : Vfs.MOUNTS st = Some boot_mounts -> outside_newroot parts ->
  Vfs.avoids (FileOps0 := kernel_ops k) st (RamInode 0 fs (Ram.root fs)) parts (id_of (RamInode 0 fs w)).
Proof.
  intros Hst Hout. apply (avoids_ram k st parts Hst). intros pre [post ->] Hne Hw.
  by pose proof (Ram.walk_inj fs pre Hwf _ _ Hw walk_newroot) as ->.
Qed.

(** What the driver of ext2 does for [/dev/sda2]. *)
Lemma ext2_mount_sda2 g : MOUNTS g = Some boot_mounts ->
  ext2_mount g (Some EXT2_DEV) =
    match Procfs.blkdev_get (BLOCKDEVS g) 8 2 with
    | None => Ret (Err NotFound)
    | Some v =>
        let! r := Ext2.new (volume_get v) (fun _ => false) in
        match r with
        | Err _ => Ret (Err InvalidInput)
        | Ok s => let! root := expect (Ext2.root s) in Ret (Ok (Vfs.mkSuperBlock (Ext2Inode 2 v s root) (lit "ext2")))
        end
    end.
Proof.
  intros Hg. unfold ext2_mount. rewrite (lookup_ram (lookup_kernel g) (lookup_state g)) by (done || by vm_compute).
  change (components EXT2_DEV) with [lit "dev"; lit "sda2"]. rewrite Hdev. unfold rbind. cbn [obind rdev_of].
  assert (Ei : ram_inode fs dv = idv) by (unfold ram_inode; by rewrite Hidv). rewrite Ei, Hdvr. unfold instance. by rewrite Hg.
Qed.

(** The disk mounted. *)
Definition mounted (v : BlockInit.dyn_volume) (s : Ext2.Ext2SuperBlock) (root : Ext2.Inode) (g : globals) : globals :=
  mkGlobals (Some (boot_mounts ++ [Vfs.mkMount (Some (RamInode 0 fs w)) (lit "/newroot") (Vfs.mkSuperBlock (Ext2Inode 2 v s root) (lit "ext2"))]))
    (FILESYSTEMS g) (CHARDEVS g) (BLOCKDEVS g) (CONSOLE g) true.

Section turn.
Context (g : globals) (Hg : MOUNTS g = Some boot_mounts) (Hfs : FILESYSTEMS g = Some [RAMFS_FS; PROCFS_FS; EXT2_FS]).

Lemma find_ext2 : Vfs.find_filesystem (view g) (lit "ext2") = Some (driver g EXT2_FS).
Proof. unfold Vfs.find_filesystem, view. cbn [Vfs.FILESYSTEMS]. by rewrite Hfs. Qed.

Lemma lookup_newroot : Vfs.vfs_lookup (FileOps0 := kernel_ops (kernel_of g)) (view g) EXT2_MOUNTPOINT = Ret (Ok (RamInode 0 fs w)).
Proof.
  rewrite (lookup_ram (kernel_of g) (view g)) by (done || by vm_compute). change (components EXT2_MOUNTPOINT) with [lit "newroot"]. by rewrite walk_newroot.
Qed.

Lemma turn_waits e : ext2_mount g (Some EXT2_DEV) = Ret (Err e) -> fs_init_turn g = Ret (false, g).
Proof.
  intros E. unfold fs_init_turn, vfs_mount_at, Vfs.vfs_mount_at. rewrite lookup_newroot. unfold rbind. cbn [obind].
  rewrite find_ext2. cbn [Vfs.fs_mount driver]. by rewrite E.
Qed.

Lemma turn_mounts v s root : ext2_mount g (Some EXT2_DEV) = Ret (Ok (Vfs.mkSuperBlock (Ext2Inode 2 v s root) (lit "ext2"))) ->
  fs_init_turn g = Ret (true, mounted v s root g).
Proof.
  intros E. unfold fs_init_turn, vfs_mount_at, Vfs.vfs_mount_at. rewrite lookup_newroot. unfold rbind. cbn [obind].
  rewrite find_ext2. cbn [Vfs.fs_mount driver]. rewrite E. cbn [obind view Vfs.MOUNTS]. by rewrite Hg.
Qed.

Lemma mounted_lookup_outside v s root path : outside_newroot (components path) -> vfs_lookup (mounted v s root g) path = vfs_lookup g path.
Proof.
  intros Hout. unfold vfs_lookup. set (sb := Vfs.mkSuperBlock (Ext2Inode 2 v s root) (lit "ext2")).
  rewrite (lookup_same _ (kernel_of g) _ (Vfs.with_mount (Vfs.mkMount (Some (RamInode 0 fs w)) (lit "/newroot") sb) (view g) boot_mounts)) by done.
  apply (Vfs.mounted_outside (FileOps0 := kernel_ops (kernel_of g)) (view g) boot_mounts (RamInode 0 fs (Ram.root fs))); [done| |by apply avoids_newroot].
  unfold Vfs.root_inode, view. cbn [Vfs.MOUNTS]. by rewrite Hg.
Qed.

Lemma mounted_lookup_inside v s root path rest : components path = lit "newroot" :: rest ->
  vfs_lookup (mounted v s root g) path = descend (Ext2Inode 2 v s root) rest.
Proof.
  intros E. unfold vfs_lookup. set (sb := Vfs.mkSuperBlock (Ext2Inode 2 v s root) (lit "ext2")).
  rewrite (lookup_same _ (kernel_of g) _ (Vfs.with_mount (Vfs.mkMount (Some (RamInode 0 fs w)) (lit "/newroot") sb) (view g) boot_mounts)) by done.
  rewrite (Vfs.mounted_inside (FileOps0 := kernel_ops (kernel_of g)) (view g) boot_mounts (RamInode 0 fs (Ram.root fs)) (RamInode 0 fs (Ram.root fs)) (RamInode 0 fs w) [] (lit "newroot") _ sb) with (rest := rest); try done.
  - eapply resolve_off_ram; [done| |done]. by repeat constructor.
  - unfold Vfs.root_inode, view. cbn [Vfs.MOUNTS]. by rewrite Hg.
  - cbn [Vfs.lookup_op kernel_ops lookup]. unfold rbind. by rewrite Hnewroot.
  - apply newroot_free.
Qed.

(** The inode [j] is found from the directory [i] by the names [parts]: each
    directory on the way is stored on the volume and lists the next name. *)
Inductive at_path (v : BlockInit.dyn_volume) (s : Ext2.Ext2SuperBlock) (bs : Z) : Ext2.Inode -> list (list Z) -> Ext2.Inode -> Prop :=
| at_here i : at_path v s bs i [] i
| at_name i ps dbs n k e c s' parts j : Ext2.dir_stored (volume_get v) bs i ps dbs -> (length (mjoin dbs) < fuel)%nat ->
    list_find (fun e => Ext2.rname e = n) (mjoin dbs ≫= Ext2.visible) = Some (k, e) ->
    Ext2.get_or_read_inode (volume_get v) (fun _ => false) s (Ext2.rino e) = Ret (Ok (c, s')) ->
    at_path v s bs c parts j -> at_path v s bs i (n :: parts) j.

Lemma descend_path v s bs i parts j : Ext2.geometry s bs -> at_path v s bs i parts j -> descend (Ext2Inode 2 v s i) parts = Ret (Ok (Ext2Inode 2 v s j)).
Proof.
  intros Hgeo Hp. induction Hp as [i|i ps dbs n k e i1 s' parts j Hdir Hf Hfind Hget _ IH]; [done|].
  cbn [descend lookup]. rewrite (Ext2.ext2_lookup_spec _ s bs i ps dbs) by done. rewrite Hfind. unfold rbind, map_err. rewrite Hget. exact IH.
Qed.

Lemma mounted_open v s root path parts bs i qs data : components path = lit "newroot" :: parts ->
  Ext2.geometry s bs -> at_path v s bs root parts i -> Ext2.stored (volume_get v) bs i qs data ->
  exists f f', vfs_open (mounted v s root g) path = Ret (Ok f) /\ Vfs.vfs_read_exact vfs_read f (Z.of_nat (length data)) = Ret (Ok data, f').
Proof.
  intros E Hgeo Hp Hst. unfold vfs_open, Vfs.vfs_open. fold (vfs_lookup (mounted v s root g) path). rewrite (mounted_lookup_inside v s root path parts E).
  rewrite (descend_path v s bs root parts i Hgeo Hp). unfold rbind, map_err. cbn [obind].
  rewrite bool_decide_false by (cbn [Vfs.file_type kernel_ops file_type_of]; by rewrite (Ext2.sd_type _ _ _ _ _ Hst)). cbn [Vfs.open_op kernel_ops Vfs.fops fops_of open obind].
  eexists. destruct (read_whole (Ext2.read (volume_get v) s i) EXT2_FILE_OPS (Ext2Inode 2 v s i) data) as (f' & E'); [by eapply Vfs.ext2_stream|done|].
  exists f'. split; [reflexivity|exact E'].
Qed.
End turn.

(** What the thread waits for: the partition registered, with an ext2 volume. *)
Definition not_ready (devs : BlockInit.devices) : Prop :=
  match Procfs.blkdev_get devs 8 2 with
  | None => True
  | Some v => exists e, Ext2.new (volume_get v) (fun _ => false) = Ret (Err e)
  end.

Lemma loop_waits waits rest : Forall not_ready waits -> forall g, MOUNTS g = Some boot_mounts -> FILESYSTEMS g = Some [RAMFS_FS; PROCFS_FS; EXT2_FS] ->
  exists devs, fs_init_loop (waits ++ rest) g = fs_init_loop rest (with_devs devs g).
Proof.
  induction 1 as [|d waits Hd _ IH]; intros g Hg Hfs; [by exists (BLOCKDEVS g); destruct g|]. cbn [app fs_init_loop].
  assert (exists e, ext2_mount (with_devs d g) (Some EXT2_DEV) = Ret (Err e)) as (e & He).
  { rewrite ext2_mount_sda2 by done. unfold not_ready in Hd. cbn [with_devs BLOCKDEVS]. destruct (Procfs.blkdev_get d 8 2) as [v|]; [|by eexists].
    destruct Hd as (e & ->). by eexists. }
  rewrite (turn_waits (with_devs d g)) with (e := e) by done. cbn [obind]. destruct (IH (with_devs d g)) as (devs & ->); [done..|]. by exists devs.
Qed.

End newroot.
End booted.

(** What the kernel expects of the initial archive once it is unpacked: a
    directory for [/proc] and the console device. *)
Record bootable (fs : Ram.Ramfs) (p c : Z) : Prop := mkBootable {
  has_proc : Ram.lookup fs (Ram.root fs) (lit "proc") = Ret (Ok p);
  has_console : Ram.walk fs (Ram.root fs) [lit "dev"; lit "console"] = Ret (Ok c);
  console_device : exists ic, Ram.store fs !! c = Some ic /\ Ram.file_type ic = CharDevice /\ Ram.rdev ic = Some (5, 1) }.

(** C6: start-up gives a working file system.  With an archive as the archiver
    writes it between the addresses of the device tree, holding [/proc] and
    the console device, [kernel_main] runs to its menu without a panic: the
    handler is entered for the interrupt of the console and no other; the
    archive is mounted on [/] and the process file system on [/proc]; every
    path outside [/proc] resolves to what the archive was unpacked to, and its
    regular files open and read back as their bytes; the files of [/proc] open
    and read back as the text generated from the state of the kernel; kernel
    output has the console file; and the four threads are made, in order. *)
Theorem kernel_main_spec cpu handle_irq mem initrd_start initrd_end (q : Plic.plic (D := D) (S := Rest)) es t rest fs p c :
  length (Plic.IRQ_HANDLERS q) = 64%nat ->
  Forall (fun e => Cpio.entry_ok e /\ Cpio.e_name e <> Cpio.TRAILER) es -> Cpio.entry_ok t -> Cpio.e_name t = Cpio.TRAILER ->
  initrd_start <= initrd_end -> mem initrd_start (initrd_end - initrd_start) = Cpio.archive es ++ Cpio.encode t ++ rest ->
  Z.of_nat (length (Cpio.archive es ++ Cpio.encode t ++ rest)) < 2 ^ 63 ->
  Cpio.insert_all (map Cpio.insertion_of es) Ram.new = Ret fs -> bootable fs p c ->
  exists b, kernel_main cpu handle_irq mem initrd_start initrd_end q = Ret b /\
    Plic.IRQ_HANDLERS (plic b) = <[Z.to_nat (Uart.config_of cpu).2 := handle_irq]> (Plic.IRQ_HANDLERS q) /\
    uart b = (Uart.config_of cpu).1 /\ threads b = [writer_entry; idle_entry; init_thread; fs_init_thread] /\
    Vfs.mounts (view (globs b)) = [Vfs.mkMountInfo 0 (lit "ramfs") (lit "/"); Vfs.mkMountInfo 1 (lit "proc") (lit "/proc")] /\
    (forall path, outside_proc (components path) ->
       vfs_lookup (globs b) path = let? a := Ram.walk fs (Ram.root fs) (components path) in Ret (Ok (RamInode 0 fs a))) /\
    (forall path a i d, outside_proc (components path) -> Ram.walk fs (Ram.root fs) (components path) = Ret (Ok a) ->
       Ram.store fs !! a = Some i -> Ram.file_type i = RegularFile -> Ram.node i = Ram.File d ->
       exists f f', vfs_open (globs b) path = Ret (Ok f) /\ Vfs.vfs_read_exact vfs_read f (Z.of_nat (length d)) = Ret (Ok d, f')) /\
    (forall path e, e ∈ Procfs.ENTRIES -> components path = [lit "proc"; Procfs.pe_name e] ->
       let text := Procfs.generate (Procfs.content e) (kernel_of (globs b)) in
       exists f f', vfs_open (globs b) path = Ret (Ok f) /\ Vfs.vfs_read_exact vfs_read f (Z.of_nat (length text)) = Ret (Ok text, f')) /\
    CONSOLE (globs b) = Some (Vfs.mkFile UART_FILE_OPS 0 (RamInode 0 fs c)) /\ KERNEL_READY (globs b) = false.
Proof.
  intros Hl Hes Ht Hn Hse Hmem Hlen Hins [Hproc Hcons (ic & Hic & Hty & Hrd)].
  destruct (Cpio.insert_all_wf (map Cpio.insertion_of es) Ram.new Ram.new_wf) as (fs' & E & Hwf). rewrite Hins in E. injection E as <-.
  assert (Hnew : Cpio.new mem initrd_start initrd_end = Ret fs) by by apply (Cpio.new_archive es t rest).
  destruct (kernel_main_run fs p c ic Hproc Hcons Hic Hty Hrd Hwf cpu handle_irq mem initrd_start initrd_end q Hl Hnew) as (q' & E & Hh).
  eexists. split; [exact E|]. split; [done|]. do 3 (split; [done|]). cbn [globs]. split_and!; [..|done|done].
  - intros path Hout. by apply (lookup_ram fs p).
  - intros path a i d. by apply (open_ram fs p).
  - intros path e. by apply (open_proc fs p).
Qed.
End kernel_main.

(** ** A small system *)
Definition demo_mem (l : list Z) (start len : Z) : list Z := if start =? 0x88000000 then take (Z.to_nat len) l else [].

Definition demo_entry (mode : Z) (name data : list Z) (major minor : Z) : Cpio.entry :=
  Cpio.mkEntry mode name data major minor (lit "00000001") (replicate 32 48) (replicate 16 48) (replicate 8 48).

Definition demo_entries : list Cpio.entry :=
  [demo_entry 0x41ed (lit "proc") [] 0 0; demo_entry 0x2180 (lit "dev/console") [] 5 1; demo_entry 0x61b0 (lit "dev/sda2") [] 8 2;
   demo_entry 0x41ed (lit "newroot") [] 0 0; demo_entry 0x81a4 (lit "etc/motd") (lit "hello") 0 0].

Definition demo_archive : list Z := Cpio.archive demo_entries ++ Cpio.encode Cpio.entry_end ++ [0; 0; 0; 0].

Definition demo_fs : Ram.Ramfs :=
  match Cpio.insert_all (map Cpio.insertion_of demo_entries) Ram.new with Ret fs => fs | _ => Ram.new end.

Definition demo_at (names : list (list Z)) : Z := match Ram.walk demo_fs (Ram.root demo_fs) names with Ret (Ok a) => a | _ => 0 end.

(** Registers that read as 0. *)
#[local] Instance demo_mmio : Mm.Mmio unit := { mmio_read _ _ d := (0, d); mmio_write _ _ _ d := d }.

Definition demo_plic : Plic.plic (D := unit) (S := unit) := Plic.mkPlic 0 (replicate 64 0) tt tt.

Lemma demo_entries_ok : Forall (fun e => Cpio.entry_ok e /\ Cpio.e_name e <> Cpio.TRAILER) demo_entries.
Proof. unfold demo_entries. repeat constructor; vm_compute; done. Qed.

Lemma demo_bootable : bootable demo_fs (demo_at [lit "proc"]) (demo_at [lit "dev"; lit "console"]).
Proof. split; [by vm_compute..|]. eexists. split; [vm_compute; reflexivity|done]. Qed.

Lemma kernel_main_spec_witness :
  exists b f f', kernel_main 100 Fdt.Qemu 77 (demo_mem demo_archive) 0x88000000 (0x88000000 + Z.of_nat (length demo_archive)) demo_plic = Ret b /\
    vfs_open 100 (globs b) (lit "/etc/motd") = Ret (Ok f) /\ Vfs.vfs_read_exact vfs_read f 5 = Ret (Ok (lit "hello"), f').
Proof.
  destruct (kernel_main_spec 100 Fdt.Qemu 77 (demo_mem demo_archive) 0x88000000 (0x88000000 + Z.of_nat (length demo_archive)) demo_plic
    demo_entries Cpio.entry_end [0; 0; 0; 0] demo_fs (demo_at [lit "proc"]) (demo_at [lit "dev"; lit "console"])) as (b & E & _ & _ & _ & _ & _ & Hopen & _).
  - reflexivity.
  - apply demo_entries_ok.
  - split; vm_compute; done.
  - reflexivity.
  - vm_compute. discriminate.
  - vm_compute. reflexivity.
  - vm_compute. reflexivity.
  - vm_compute. reflexivity.
  - apply demo_bootable.
  - destruct (Hopen (lit "/etc/motd") (demo_at [lit "etc"; lit "motd"]) (ram_inode demo_fs (demo_at [lit "etc"; lit "motd"])) (lit "hello")) as (f & f' & H1 & H2); [vm_compute; done|vm_compute; reflexivity..|].
    exists b, f, f'. split; [exact E|]. split; [exact H1|exact H2].
Defined.

(** A disk of 64 blocks of 1 KiB: the superblock in block 1, the group
    descriptor in 2, the inodes in 5 and 6, a directory in 30 and a file in 20
    and 21. *)
Definition demo_inode_bytes (mode size : Z) (ptrs : list Z) : list Z :=
  to_le 2 mode ++ [0; 0] ++ to_le 4 size ++ replicate 32 0 ++ mjoin (to_le 4 <$> ptrs) ++ replicate 28 0.

Definition demo_block (b : Z) : list Z :=
  let l :=
    if b =? 1 then to_le 4 16 ++ to_le 4 64 ++ replicate 16 0 ++ to_le 4 0 ++ replicate 4 0 ++ to_le 4 64 ++ replicate 4 0 ++ to_le 4 16 ++
      replicate 12 0 ++ to_le 2 0xEF53 ++ replicate 30 0 ++ to_le 2 128
    else if b =? 2 then replicate 8 0 ++ to_le 4 5
    else if b =? 5 then replicate 128 0 ++ demo_inode_bytes 0x41ed 1024 (30 :: replicate 14 0)
    else if b =? 6 then replicate 384 0 ++ demo_inode_bytes 0x81a4 1500 ([20; 21] ++ replicate 13 0)
    else if b =? 20 then take 1024 Ext2.demo_data
    else if b =? 21 then drop 1024 Ext2.demo_data
    else if b =? 30 then Ext2.block_bytes Ext2.demo_dir
    else [] in
  l ++ replicate (1024 - length l) 0.

Definition demo_disk : Vol.BlockDisk :=
  Vol.mkDisk (fun sector n => Ok (take (Z.to_nat n) (demo_block (sector / 2) ++ demo_block (sector / 2 + 1) ++ demo_block (sector / 2 + 2) ++ demo_block (sector / 2 + 3)))).

Definition demo_volume : BlockInit.dyn_volume := BlockInit.Whole (Vol.mkWhole demo_disk).
Definition demo_devs : BlockInit.devices := {[ (8, 2) := Procfs.mkBlkdevEntry (lit "sda2") demo_volume ]}.

Definition demo_root : Ext2.Inode := Ext2.mkInode 2 Directory 1024 (30 :: replicate 14 0).
Definition demo_sb : Ext2.Ext2SuperBlock :=
  match Ext2.new (volume_get demo_volume) (fun _ => false) with Ret (Ok s) => s | _ => Ext2.sb_empty end.

Lemma demo_new : Ext2.new (volume_get demo_volume) (fun _ => false) = Ret (Ok demo_sb).
Proof. by vm_compute. Qed.

Lemma demo_disk_geometry : Ext2.geometry demo_sb 1024.
Proof. split; vm_compute; done. Qed.

Lemma demo_laid_out get bl ps : Forall Ext2.is_u32 ps -> (length ps <= 12)%nat -> ps `prefix_of` bl -> Ext2.laid_out get 1024 bl ps.
Proof. intros Hu Hl [k ->]. split; [done| |lia|lia]. intros i _ Hi. by rewrite lookup_app_l. Qed.

Lemma demo_file_stored : Ext2.stored (volume_get demo_volume) 1024 Ext2.demo_file [20; 21] Ext2.demo_data.
Proof.
  split; try done.
  - apply demo_laid_out; [|simpl; lia|by eexists]. repeat constructor; unfold U32; lia.
  - cbn [length]. lia.
  - vm_compute. lia.
  - intros [|[|k]] p; cbn [lookup list_lookup]; intros [= <-] _; (split; [lia|]);
      [exists (demo_block 21 ++ replicate 2048 0)|exists (replicate 3620 0)]; by vm_compute.
Qed.

Lemma demo_root_stored : Ext2.dir_stored (volume_get demo_volume) 1024 demo_root [30] [Ext2.demo_dir].
Proof.
  split; try done.
  - apply demo_laid_out; [|simpl; lia|by eexists]. repeat constructor; unfold U32; lia.
  - cbn [length]. lia.
  - intros [|k] p ds; simpl; intros [= <-] [= <-]. split_and!; [lia|done| |by vm_compute|].
    + repeat constructor; unfold U32, Ext2.rec_len, U16; simpl; lia.
    + exists (replicate 3072 0). by vm_compute.
Qed.


End KMain.
