(* ===== verification/Main.v ===== *)
(** * From the boot loader to the menu

    Models [rust_main] and [zero_bss] of [src/src/main.rs]: what the kernel does
    between the assembly entry ([Start]) and the menu of [kernel_main].  It
    composes the device tree ([Dtb]), the page allocator ([Boot]), the kernel's
    address space ([KernelMap], [KernelInit]) and the start-up of the file
    systems ([KernelMain]) over one physical memory.

    The statics of the kernel are values of the model's state ([world], the
    globals of [KernelMain]); what the compiled code stores for them in .data and
    .bss, and on the stack [_start] gave it, is a parameter, [own_stores], of
    which only the addresses are known. *)

From S2P Require Import Prelude Memory Bytes Dtb PageAllocator Boot PageMapper UserMem Allocator KernelMap KernelInit.
From S2P Require Import File Ramfs Cpio Vfs Procfs Dispatcher Block BlockInit Plic Uart KernelMain.
Import Mem Pte Mapper UMem Kmap Kinit.

Module Main.

(** The image is linked in the high half; the boot map shows it there. *)
Definition zero_bss (sy : symbols) (m : memory) : outcome memory :=
  let! size := usub (_bss_end sy) (_bss_start sy) in
  Ret (write_bytes m (_bss_start sy - HIGH_HALF_PHYS_START) (replicate (Z.to_nat size) 0)).

(** The bytes of the BSS become 0 and no other byte changes. *)
Definition cleared (sy : symbols) (m : memory) (a : Z) : Z :=
  if (_bss_start sy - HIGH_HALF_PHYS_START <=? a) && (a <? _bss_end sy - HIGH_HALF_PHYS_START) then 0 else bget m a.

Lemma bget_zeros n a : forall m p, bget (write_bytes m p (replicate n 0)) a = if (p <=? a) && (a <? p + Z.of_nat n) then 0 else bget m a.
Proof.
  induction n as [|n IH]; intros m p; cbn [replicate write_bytes]; [zcases; done || lia|].
  rewrite IH, bget_bput by lia. zcases; done || lia.
Qed.

Lemma zero_bss_bytes sy m m' a : zero_bss sy m = Ret m' -> bget m' a = cleared sy m a.
Proof.
  unfold zero_bss. intros Hz. bind_inv Hz. injection K as <-. apply usub_Ret_inv in E as [-> Hle].
  rewrite bget_zeros. unfold cleared. zcases; done || lia.
Qed.

(** The memory the compiled code of [rust_main] has for itself: its statics and
    the 16 pages from [_STACK_TOP] on. *)
Definition own (sy : symbols) (_STACK_TOP a : Z) : bool :=
  ((_data_start sy - HIGH_HALF_PHYS_START <=? a) && (a <? _data_end sy - HIGH_HALF_PHYS_START)) ||
  ((_bss_start sy - HIGH_HALF_PHYS_START <=? a) && (a <? _bss_end sy - HIGH_HALF_PHYS_START)) ||
  ((_STACK_TOP <=? a) && (a <? _STACK_TOP + 4096 * 16)).

Lemma own_bss sy st m m' a : zero_bss sy m = Ret m' -> own sy st a = false -> bget m' a = bget m a.
Proof.
  intros Hz Ho. rewrite (zero_bss_bytes _ _ _ a Hz). unfold cleared. unfold own in Ho.
  destruct ((_bss_start sy - HIGH_HALF_PHYS_START <=? a) && (a <? _bss_end sy - HIGH_HALF_PHYS_START)); [|done]. by rewrite orb_true_r in Ho.
Qed.

(** What a load from a virtual address gives under the kernel's map; an address
    that is not mapped, which faults, is given as 0. *)
Definition load_byte {A} (w : world (A := A)) (v : Z) : Z :=
  match kernel_virt_to_phys w v with Some p => bget (mem w) p | None => 0 end.

Definition load {A} (w : world (A := A)) (start len : Z) : list Z := (fun i => load_byte w (start + Z.of_nat i)) <$> seq 0 (Z.to_nat len).

(** The device tree as [dtb] shows it, with [n] bytes of memory behind it. *)
Definition blob_at (m : memory) (dtb : Z) (n : nat) : Fdt.blob := Fdt.mkBlob dtb (read_bytes m dtb n).

Section rust_main.
Context `{HeaplessVec} {D : Type} {MD : Mm.Mmio D} {Rest : Type} (fuel : nat).
Notation world := (@Kmap.world Pages.PageAllocator).

(** The statics are zero but for [KERNEL_HEAP_END]; output and the measuring of
    the clock are left out.  [own_stores] is what all the stores to the kernel's
    own memory amount to; no other step reads those bytes. *)
Definition rust_main (own_stores : memory -> memory) (sy : symbols) (dtb_ptr image_phys_end handle_irq : Z) (n : nat) (q : Plic.plic (D := D) (S := Rest)) (m : memory)
    : outcome (world * Alloc.heap * KMain.boot (D := D) (Rest := Rest)) :=
  let! m := zero_bss sy m in
  let m := own_stores m in
  let b := blob_at m dtb_ptr n in
  let! _ := Fdt.parse_dtb b dtb_ptr in
  let! cpu := Fdt.detect_cpu_type b dtb_ptr 0 in
  let! _ := Fdt.parse_timebase_frequency b dtb_ptr 0 in
  let! ' (memory, pages, i0, i1) := page_allocator_init b dtb_ptr image_phys_end 0 0 in
  let! ' (w, h) := Kmap.init sy (mkWorld m pages 0 (KERNEL_HEAP_START + KERNEL_HEAP_SIZE) 0 cpu 0 (0, 0)) memory in
  let! boot := KMain.kernel_main fuel (Fdt.get_cpu_type cpu) handle_irq (load w) i0 i1 q in
  Ret (w, h, boot).

(** ** Loads through the identity map *)
Lemma identity_translates sy memory (w : world) fs stack tf v : memory_ok memory -> kernel_space sy memory w fs stack tf ->
  start memory <= v < end_ memory -> kernel_virt_to_phys w v = Some v.
Proof.
  intros Hme Hks Hv. pose proof Hme as [M1 M2 M3 M4]. set (i := Z.to_nat ((v - start memory) / 2097152)). set (f := start memory + Z.of_nat i * 2097152).
  assert (Hin : memory_area memory ∈ kernel_layout sy (Fdt.get_cpu_type (CPU_TYPE w)) memory fs stack tf) by (unfold kernel_layout; rewrite elem_of_app; right; by left).
  assert (Hf : aframes (memory_area memory) !! i = Some f).
  { change (run_of (start memory) 2097152 (Z.to_nat ((end_ memory - start memory) / 2097152)) !! i = Some f). rewrite <- (Nat2Z.id i) at 1. rewrite run_lookup by lia. rewrite (proj2 (Z.ltb_lt _ _)) by lia. reflexivity. }
  pose proof (ks_in _ _ _ _ _ _ Hks _ i f ((v - start memory) mod 2097152) Hin Hf) as Hl. cbn [memory_area fixed_area av asize aflags] in Hl. change (psize Size2M) with 2097152 in Hl.
  replace (start memory + Z.of_nat i * 2097152 + (v - start memory) mod 2097152) with v in Hl by lia. specialize (Hl ltac:(lia)).
  unfold kernel_virt_to_phys. rewrite (translate _ _ v f (or_flags [READ; WRITE; EXECUTE; ACCESSED; DIRTY]) Size2M Hl); [|done|done|].
  - change (psize Size2M) with 2097152. f_equal. lia.
  - change (psize Size2M) with 2097152. split; lia.
Qed.

Lemma load_identity sy memory (w : world) fs stack tf s n : memory_ok memory -> kernel_space sy memory w fs stack tf ->
  start memory <= s -> s + Z.of_nat n <= end_ memory -> load w s (Z.of_nat n) = read_bytes (mem w) s n.
Proof.
  intros Hme Hks Hs. unfold load. rewrite Nat2Z.id. revert s Hs. induction n as [|n IH]; intros s Hs He; [done|].
  cbn [read_bytes]. change (seq 0 (S n)) with (0%nat :: seq 1 n). rewrite fmap_cons. f_equal.
  - unfold load_byte. rewrite Z.add_0_r. by erewrite identity_translates by (done || lia).
  - rewrite <- fmap_S_seq, <- list_fmap_compose, <- IH by lia. apply list_fmap_ext. intros k i _. cbn. f_equal. lia.
Qed.
(** ** The pages nobody needs *)
Definition free_page (memory : Region) (reserved : list Region) (img_e dtb_ptr dtb_e x : Z) : Prop :=
  x mod PAGE_SIZE = 0 /\ inside memory x /\ ~ covers reserved x /\ ~ (start memory <= x < img_e) /\ ~ (align_down dtb_ptr <= x < dtb_e).

(** The pages of the initial archive are not free. *)
Lemma archive_kept b dtb_ptr memory reserved j0 j1 img_e dtb_e a : Fdt.collect_memory_map MAX_RESERVED_MEMORY b dtb_ptr [] 0 0 = Ret (Some memory, reserved, j0, j1) ->
  (length reserved <= 14)%nat -> 0 < j0 -> j0 <= a < j1 -> ~ free_page memory reserved img_e dtb_ptr dtb_e (page a).
Proof.
  intros Hmap Hfew Hj Ha (_ & _ & Hn & _). apply Hn. destruct (Fdt.collect_initrd _ _ _ _ _ _ _ _ _ _ Hmap) as [[-> _]|[Hl|(e & He & Hin)]]; [lia|unfold MAX_RESERVED_MEMORY in Hl; lia|].
  eexists. split; [exact Hin|]. unfold inside. cbn [start end_]. unfold align_up in He. bind_inv He. injection K as <-. apply uadd_Ret_inv in E as [-> _].
  unfold align_down. change (PAGE_SIZE - 1) with (2 ^ 12 - 1). rewrite !andn_ones by lia. change (2 ^ 12) with 4096. unfold page, PAGE_SIZE. lia.
Qed.

Lemma read_bytes_same m m' n : forall p, (forall a, p <= a < p + Z.of_nat n -> bget m a = bget m' a) -> read_bytes m p n = read_bytes m' p n.
Proof.
  induction n as [|n IH]; intros p Hb; [done|]. cbn [read_bytes]. rewrite Hb by lia. f_equal. apply IH. intros a Ha. apply Hb. lia.
Qed.

Lemma memory_region memory : memory_ok memory -> Pages.region_ok memory.
Proof. intros [M1 M2 M3 M4]. unfold Pages.region_ok, aligned, PAGE_SIZE, USIZE. split_and!; lia. Qed.

(** The allocator with the pages of [l] among its free ones. *)
Lemma free_frames_of s bl memory reserved img_e dtb_ptr dtb_e l : Pages.rep s bl -> memory_ok memory ->
  (forall x, x ∈ Pages.pages bl <-> free_page memory reserved img_e dtb_ptr dtb_e x) -> NoDup l -> Forall (free_page memory reserved img_e dtb_ptr dtb_e) l ->
  frame_inv s /\ (forall f, f ∈ free_frames s -> frame_ok f) /\ (length l <= length (free_frames s))%nat /\
  forall f, f ∈ free_frames s -> free_page memory reserved img_e dtb_ptr dtb_e f.
Proof.
  intros Hrep Hme Hpg Hnd Hl. assert (E : free_frames s = Pages.pages bl) by exact (Pages.rep_frames _ _ Hrep). rewrite E. split_and!.
  - by exists bl.
  - intros f (Hf & [H1 H2] & _)%Hpg. pose proof Hme as [M1 M2 M3 M4]. split; [exact Hf|lia].
  - apply submseteq_length, NoDup_submseteq; [done|]. intros x Hx. apply Hpg. by eapply Forall_forall in Hl.
  - apply Hpg.
Qed.

End rust_main.

(** ** A machine that starts *)
#[local] Existing Instance list_heapless.
#[local] Existing Instance KMain.demo_mmio.

(** Memory given by its bytes. *)
Definition mem_of (f : Z -> Z) : memory := fun a => foldr (fun i acc => f (a + i) + 256 * acc) 0 [0; 1; 2; 3; 4; 5; 6; 7].

Definition demo_len : Z := Z.of_nat (length KMain.demo_archive).

Definition demo_dtb : Fdt.blob :=
  Fdt.make_blob 0x8200_0000 Fdt.demo_names
    [Fdt.IBegin []; Fdt.IBegin (lit "memory@80000000"); Fdt.IProp (lit "reg") (to_be 8 0x8000_0000 ++ to_be 8 0x1000_0000); Fdt.IEnd;
     Fdt.IBegin (lit "chosen"); Fdt.IProp (lit "linux,initrd-start") (to_be 8 0x8400_0000); Fdt.IProp (lit "linux,initrd-end") (to_be 8 (0x8400_0000 + demo_len)); Fdt.IEnd; Fdt.IEnd].

Definition demo_byte (a : Z) : Z :=
  if a <? 0x8400_0000 then nth (Z.to_nat (a - 0x8200_0000)) (Fdt.contents demo_dtb) 0 else nth (Z.to_nat (a - 0x8400_0000)) KMain.demo_archive 0.

Definition demo_memory : memory := mem_of demo_byte.

(** The segments of [qemu_symbols] behind the pages of [_start] and its stack, with
    a BSS of 64 bytes. *)
Definition demo_symbols : symbols :=
  mkSymbols 0xffff_ffff_8021_2000 0xffff_ffff_8023_1234 0xffff_ffff_8023_2000 0xffff_ffff_8024_0010
    0xffff_ffff_8024_1000 0xffff_ffff_8024_2100 0xffff_ffff_8024_3000 0xffff_ffff_8024_3040
    0xffff_ffff_fffe_0000 0x8024_9000 0xffff_ffff_fffe_1000.

Definition demo_cleared : memory := match zero_bss demo_symbols demo_memory with Ret m => m | _ => demo_memory end.
(** The stores of the demo: a byte of .data, one of .bss and one on the stack. *)
Definition demo_own (m : memory) : memory := bput (bput (bput m 0x8024_1008 7) 0x8024_3010 8) 0x8021_0ff0 9.
Definition demo_n : nat := length (Fdt.contents demo_dtb).
Definition demo_ram : Region := mkRegion 0x8000_0000 0x9000_0000.
Definition demo_pages : list Z := run_of 0x8100_0000 4096 (Z.to_nat 4096).
Definition demo_reserved : list Region := [mkRegion 0x8400_0000 0x8400_1000].

Lemma demo_free : Forall (free_page demo_ram demo_reserved 0x8025_0000 0x8200_0000 0x8200_1000) demo_pages.
Proof.
  apply Forall_fmap, Forall_forall. intros i Hi%elem_of_seq. unfold compose, free_page, PAGE_SIZE, inside. cbn [start end_ demo_ram].
  split_and!; [lia|lia|lia| |lia|].
  - intros (r & Hr%list_elem_of_singleton & Hin). subst r. unfold inside in Hin. cbn [start end_] in Hin. lia.
  - change (align_down 0x8200_0000) with 0x8200_0000. lia.
Qed.

Lemma demo_own_only m a : own demo_symbols 0x8020_1000 a = false -> bget (demo_own m) a = bget m a.
Proof.
  unfold own, demo_own. cbn [demo_symbols _data_start _data_end _bss_start _bss_end]. unfold HIGH_HALF_PHYS_START. rewrite !bget_bput by lia. intros Ho.
  zcases; try done; subst a; vm_compute in Ho; done.
Qed.


End Main.
