(* ===== verification/Polled.v ===== *)
(** * The polled block drivers of the demonstrations

    [src/src/demos/block_device.rs] is the interface of a device read one block
    at a time.  [Polled] models [src/src/demos/sd_read.rs], which reads the SD card
    through the data port; [AdmaPoll] models [src/src/demos/sd_adma.rs], which
    lets the controller write memory and polls for the end; [VirtioPoll] models
    [src/src/demos/virtio_blk.rs].  What they rely on of the hardware are the
    classes of each module, after the SD Host Controller and the VirtIO
    specifications.

    A loop that polls counts its turns in a [u32]; the count is the argument of
    the recursion, and running below zero, a panic, is shown not to happen. *)

From S2P Require Import Prelude Memory Bytes Dtb Dispatcher Plic Sd VirtioDev.

Module Polled.
Import Mm.

Inductive BlockError := Timeout | IoError.

Definition SD_BASE : Z := 0x0431_0000.
Definition REG_BLOCK_SIZE : Z := 0x04.
Definition REG_BLOCK_COUNT : Z := 0x06.
Definition REG_ARGUMENT : Z := 0x08.
Definition REG_XFER_MODE : Z := 0x0c.
Definition REG_BUFFER_DATA : Z := 0x20.
Definition REG_PRESENT_STATE : Z := 0x24.
Definition REG_NORMAL_INT_STATUS : Z := 0x30.
Definition REG_ERROR_INT_STATUS : Z := 0x32.
Definition REG_NORMAL_INT_STATUS_EN : Z := 0x34.
Definition REG_ERROR_INT_STATUS_EN : Z := 0x36.
Definition PRESENT_CMD_INHIBIT : Z := Z.shiftl 1 0.
Definition PRESENT_DAT_INHIBIT : Z := Z.shiftl 1 1.
Definition INT_COMMAND_COMPLETE : Z := Z.shiftl 1 0.
Definition INT_TRANSFER_COMPLETE : Z := Z.shiftl 1 1.
Definition INT_BUFFER_READ_READY : Z := Z.shiftl 1 5.
Definition ERR_CMD_TIMEOUT : Z := Z.shiftl 1 0.

Lemma bit_test x k : 0 <= k -> (Z.land x (Z.shiftl 1 k) =? 0) = negb (Z.testbit x k).
Proof.
  intros Hk. assert (E : Z.land x (Z.shiftl 1 k) = if Z.testbit x k then Z.shiftl 1 k else 0).
  { apply Z.bits_inj'. intros n Hn. rewrite Z.land_spec, Z.shiftl_spec by done. destruct (Z.eqb_spec n k) as [->|Hne].
    - rewrite Z.sub_diag. destruct (Z.testbit x k); [by rewrite Z.shiftl_spec, Z.sub_diag|by rewrite Z.bits_0].
    - destruct (Z.testbit x k); rewrite ?Z.shiftl_spec, ?Z.bits_0 by done;
        (assert (Z.testbit 1 (n - k) = false) as -> by (destruct (Z.ltb_spec (n - k) 0); [by apply Z.testbit_neg_r|change 1 with (2 ^ 0); by rewrite Z.pow2_bits_false by lia])); by rewrite andb_false_r. }
  rewrite E. destruct (Z.testbit x k); [|done]. apply Z.eqb_neq. rewrite Z.shiftl_1_l. pose proof (Z.pow_pos_nonneg 2 k). lia.
Qed.

Lemma ldiff_all v : 0 <= v < U16 -> Z.ldiff v 0xffff = 0.
Proof. intros H. change 0xffff with (Z.ones 16). rewrite Z.ldiff_ones_r by lia. rewrite Z.shiftr_div_pow2 by lia. rewrite Z.div_small by (unfold U16 in *; lia). done. Qed.

Lemma u16_all : 0 <= 0xffff < U16.
Proof. done. Qed.

Lemma u16_complete : 0 <= INT_TRANSFER_COMPLETE < U16.
Proof. done. Qed.

Section registers.
Context {D : Type} {MD : Mmio D}.

Definition read32 (offset : Z) (d : D) : Z * D := mmio_read 4 (SD_BASE + offset) d.
Definition read16 (offset : Z) (d : D) : Z * D := mmio_read 2 (SD_BASE + offset) d.
Definition write32 (offset val : Z) (d : D) : D := mmio_write 4 (SD_BASE + offset) val d.
Definition write16 (offset val : Z) (d : D) : D := mmio_write 2 (SD_BASE + offset) val d.
Definition write8 (offset val : Z) (d : D) : D := mmio_write 1 (SD_BASE + offset) val d.


(** Until command and data lines are free. *)
Fixpoint wait_ready (timeout : nat) (d : D) : outcome (result unit BlockError * D) :=
  let '(v, d) := read32 REG_PRESENT_STATE d in
  if Z.land v (Z.lor PRESENT_CMD_INHIBIT PRESENT_DAT_INHIBIT) =? 0 then Ret (Ok tt, d)
  else match timeout with
       | O => Panic
       | S O => Ret (Err Timeout, d)
       | S t => wait_ready t d
       end.

(** Until [bit] of the status is set, which is then cleared, or there is an
    error, which [on_error] tells the result of. *)
Fixpoint wait_bit (bit : Z) (on_error : Z -> BlockError) (timeout : nat) (d : D) : outcome (result unit BlockError * D) :=
  let '(status, d) := read16 REG_NORMAL_INT_STATUS d in
  if negb (Z.land status bit =? 0) then Ret (Ok tt, write16 REG_NORMAL_INT_STATUS bit d)
  else
    let '(err, d) := read16 REG_ERROR_INT_STATUS d in
    if negb (err =? 0) then Ret (Err (on_error err), write16 REG_ERROR_INT_STATUS 0xffff d)
    else match timeout with
         | O => Panic
         | S O => Ret (Err Timeout, d)
         | S t => wait_bit bit on_error t d
         end.

Definition command_error (err : Z) : BlockError := if negb (Z.land err ERR_CMD_TIMEOUT =? 0) then Timeout else IoError.
Definition io_error (err : Z) : BlockError := IoError.

(** The loops end. *)
Lemma wait_ready_total timeout d : (0 < timeout)%nat -> exists r d', wait_ready timeout d = Ret (r, d').
Proof.
  revert d. induction timeout as [|t IH]; intros d Ht; [lia|]. cbn [wait_ready]. destruct (read32 _ d) as [v d1].
  destruct (_ =? 0); [by eexists _, _|]. destruct t as [|t]; [by eexists _, _|]. apply IH. lia.
Qed.

Lemma wait_bit_total bit on_error timeout d : (0 < timeout)%nat -> exists r d', wait_bit bit on_error timeout d = Ret (r, d').
Proof.
  revert d. induction timeout as [|t IH]; intros d Ht; [lia|]. cbn [wait_bit]. destruct (read16 _ d) as [v d1].
  destruct (negb _); [by eexists _, _|]. destruct (read16 _ d1) as [e d2]. destruct (negb _); [by eexists _, _|].
  destruct t as [|t]; [by eexists _, _|]. apply IH. lia.
Qed.

(** What every access keeps, the loops do. *)
Lemma wait_ready_keeps (P : D -> Prop) (Hp : forall d v d', read32 REG_PRESENT_STATE d = (v, d') -> P d -> P d') timeout :
  forall d r d', wait_ready timeout d = Ret (r, d') -> P d -> P d'.
Proof.
  induction timeout as [|t IH]; intros d r d'; cbn [wait_ready]; destruct (read32 REG_PRESENT_STATE d) as [v d1] eqn:E1; destruct (_ =? 0).
  1, 3: intros [= <- <-]; by eapply Hp.
  - done.
  - destruct t as [|t]; [intros [= <- <-]; by eapply Hp|]. intros H Hd. eapply IH; [done|]. by eapply Hp.
Qed.

Lemma wait_bit_keeps (P : D -> Prop) (Hn : forall d v d', read16 REG_NORMAL_INT_STATUS d = (v, d') -> P d -> P d')
  (He : forall d v d', read16 REG_ERROR_INT_STATUS d = (v, d') -> P d -> P d') bit (Hb : 0 <= bit < U16)
  (Hw : forall d v, 0 <= v < U16 -> P d -> P (write16 REG_NORMAL_INT_STATUS v d)) (Hw' : forall d v, 0 <= v < U16 -> P d -> P (write16 REG_ERROR_INT_STATUS v d)) on_error timeout :
  forall d r d', wait_bit bit on_error timeout d = Ret (r, d') -> P d -> P d'.
Proof.
  induction timeout as [|t IH]; intros d r d' H Hd; revert H; cbn [wait_bit]; destruct (read16 REG_NORMAL_INT_STATUS d) as [v d1] eqn:E1; pose proof (Hn _ _ _ E1 Hd) as H1;
    (destruct (negb _); [intros [= <- <-]; by apply Hw|]); destruct (read16 REG_ERROR_INT_STATUS d1) as [e d2] eqn:E2; pose proof (He _ _ _ E2 H1) as H2;
    (destruct (negb _); [intros [= <- <-]; by apply Hw'|]); [done|]. destruct t as [|t]; [by intros [= <- <-]|]. intros H. by eapply IH.
Qed.

(** What the loops saw, for a device whose state is seen through [st] and goes on
    by itself with [R] while it is read. *)
Section seen.
Context {C : Type} (st : D -> C) (R : C -> C -> Prop) (norm : C -> Z).
Hypothesis Hnormal : forall d v d', read16 REG_NORMAL_INT_STATUS d = (v, d') -> v = norm (st d) /\ rtc R (st d) (st d').
Hypothesis Herror : forall d v d', read16 REG_ERROR_INT_STATUS d = (v, d') -> rtc R (st d) (st d').
Context (idle : C -> Prop).
Hypothesis Hpresent : forall d v d', read32 REG_PRESENT_STATE d = (v, d') -> rtc R (st d) (st d') /\
  (Z.land v (Z.lor PRESENT_CMD_INHIBIT PRESENT_DAT_INHIBIT) = 0 -> idle (st d)).

Lemma wait_ready_ok timeout : forall d u d', wait_ready timeout d = Ret (Ok u, d') ->
  exists d0, rtc R (st d) (st d0) /\ idle (st d0) /\ rtc R (st d0) (st d').
Proof.
  induction timeout as [|t IH]; intros d u d'; cbn [wait_ready]; destruct (read32 REG_PRESENT_STATE d) as [v d1] eqn:E1; destruct (Hpresent _ _ _ E1) as [A1 B1];
    destruct (Z.eqb_spec (Z.land v (Z.lor PRESENT_CMD_INHIBIT PRESENT_DAT_INHIBIT)) 0) as [E|E].
  1, 3: intros [= <- <-]; exists d; split_and!; [done|by apply B1|done].
  - done.
  - destruct t as [|t]; [done|]. intros H. destruct (IH _ _ _ H) as (d0 & H0 & H1). exists d0. split; [by etrans|done].
Qed.

Lemma wait_bit_ok bit on_error timeout : forall d u d', wait_bit bit on_error timeout d = Ret (Ok u, d') ->
  exists d0 d1, rtc R (st d) (st d0) /\ (Z.land (norm (st d0)) bit =? 0) = false /\ rtc R (st d0) (st d1) /\
    d' = write16 REG_NORMAL_INT_STATUS bit d1.
Proof.
  induction timeout as [|t IH]; intros d u d'; cbn [wait_bit]; destruct (read16 REG_NORMAL_INT_STATUS d) as [v d1] eqn:E1; destruct (Hnormal _ _ _ E1) as [-> A1];
    destruct (Z.land _ bit =? 0) eqn:Eb; cbn [negb].
  1, 3: destruct (read16 REG_ERROR_INT_STATUS d1) as [e d2] eqn:E2; pose proof (Herror _ _ _ E2) as A2; destruct (negb _); [done|].
  - done.
  - destruct t as [|t]; [done|]. intros H. destruct (IH _ _ _ H) as (d3 & d4 & H3 & H4). exists d3, d4. split; [|done]. by etrans; [|etrans].
  - intros [= <-]. exists d, d1. done.
  - intros [= <-]. exists d, d1. done.
Qed.
End seen.
End registers.
(** ** Through the data port *)
Section pio.
Context {D : Type} {MD : Mmio D}.

(** [SdCard::new] *)
Definition pio_new (d : D) : D := write16 REG_ERROR_INT_STATUS_EN 0xffff (write16 REG_NORMAL_INT_STATUS_EN 0xffff d).

(** Until the transfer is complete; errors are looked at only at the end. *)
Fixpoint wait_transfer (timeout : nat) (d : D) : outcome (result unit BlockError * D) :=
  let '(status, d) := read16 REG_NORMAL_INT_STATUS d in
  if negb (Z.land status INT_TRANSFER_COMPLETE =? 0) then Ret (Ok tt, write16 REG_NORMAL_INT_STATUS INT_TRANSFER_COMPLETE d)
  else match timeout with
       | O => Panic
       | S O =>
           let '(err, d) := read16 REG_ERROR_INT_STATUS d in
           let d := write16 REG_ERROR_INT_STATUS 0xffff d in
           Ret (Err (if negb (err =? 0) then IoError else Timeout), d)
       | S t => wait_transfer t d
       end.

(** The words of the buffer, and their four bytes each. *)
Fixpoint read_words (n : nat) (d : D) : list Z * D :=
  match n with
  | O => ([], d)
  | S n => let '(w, d) := read32 REG_BUFFER_DATA d in let '(ws, d) := read_words n d in (w :: ws, d)
  end.

Definition word_bytes (word : Z) : list Z :=
  [word mod 256; Z.shiftr word 8 mod 256; Z.shiftr word 16 mod 256; Z.shiftr word 24 mod 256].

(** The registers of a read of one block. *)
Definition pio_command (sector : Z) (d : D) : D :=
  let d := write16 REG_NORMAL_INT_STATUS 0xffff d in
  let d := write16 REG_ERROR_INT_STATUS 0xffff d in
  let d := write16 REG_NORMAL_INT_STATUS_EN 0xffff d in
  let d := write16 REG_ERROR_INT_STATUS_EN 0xffff d in
  let d := write16 REG_BLOCK_SIZE 0x0200 d in
  let d := write16 REG_BLOCK_COUNT 0x0001 d in
  let d := write8 0x2e 0x0e d in
  let d := write32 REG_ARGUMENT sector d in
  write32 REG_XFER_MODE (Z.lor 0x0010 (Z.shiftl 0x113a 16)) d.

(** The buffer comes back with the words of the port once they were read, also
    where the transfer then is not reported complete. *)
Definition read_block (sector : Z) (buf : list Z) (d : D) : outcome (result unit BlockError * list Z * D) :=
  let! '(r, d) := wait_ready (Z.to_nat 100_000) d in
  match r with Err e => Ret (Err e, buf, d) | Ok _ =>
    let d := pio_command sector d in
    let! '(r, d) := wait_bit INT_COMMAND_COMPLETE command_error (Z.to_nat 250_000) d in
    match r with Err e => Ret (Err e, buf, d) | Ok _ =>
      let! '(r, d) := wait_bit INT_BUFFER_READ_READY io_error (Z.to_nat 250_000) d in
      match r with Err e => Ret (Err e, buf, d) | Ok _ =>
        let '(ws, d) := read_words 128 d in
        let! '(r, d) := wait_transfer (Z.to_nat 250_000) d in
        Ret (r, ws ≫= word_bytes, d)
      end
    end
  end.

(** ** The card behind the controller *)

(** Where a command is: accepted, the words of the block waiting in the port,
    all of them taken, or the transfer complete. *)
Inductive phase := Idle | Issued (sector : Z) | Accepted (sector : Z) | Feeding (ws : list Z) | Drained | Complete | Failed.

Record controller := mkCtl { ph : phase; normal : Z; error : Z; argument : Z; block_size : Z; block_count : Z }.

Definition busy (p : phase) : bool := match p with Issued _ | Accepted _ | Feeding _ | Drained => true | _ => false end.

Definition with_ph (p : phase) (bits : Z) (c : controller) : controller := mkCtl p (Z.lor (normal c) bits) (error c) (argument c) (block_size c) (block_count c).

(** Four bytes of the port, the first lowest. *)
Fixpoint words_of (l : list Z) : list Z :=
  match l with
  | a :: b :: c :: d :: l => (a + 256 * b + 65536 * c + 16777216 * d) :: words_of l
  | _ => []
  end.

(** What the controller does by itself. *)
Inductive advance (card : Z -> list Z) (c : controller) : controller -> Prop :=
| adv_accept s : ph c = Issued s -> advance card c (with_ph (Accepted s) INT_COMMAND_COMPLETE c)
| adv_feed s : ph c = Accepted s -> advance card c (with_ph (Feeding (words_of (card s))) INT_BUFFER_READ_READY c)
| adv_done : ph c = Drained -> advance card c (with_ph Complete INT_TRANSFER_COMPLETE c)
| adv_fail s e : ph c = Issued s \/ ph c = Accepted s -> 0 < e < U16 ->
    advance card c (mkCtl Failed (normal c) e (argument c) (block_size c) (block_count c)).

(** Time passes with every access. *)
Class PioCard := {
  ctl : D -> controller;
  card : Z -> list Z;
  card_block : forall s, length (card s) = 512%nat /\ Forall byte_ok (card s);
  pc_bits : forall d, 0 <= normal (ctl d) < U16 /\ 0 <= error (ctl d) < U16;
  pc_present : forall d v d', read32 REG_PRESENT_STATE d = (v, d') -> rtc (advance card) (ctl d) (ctl d') /\
    (Z.land v (Z.lor PRESENT_CMD_INHIBIT PRESENT_DAT_INHIBIT) = 0 -> busy (ph (ctl d)) = false);
  pc_normal : forall d v d', read16 REG_NORMAL_INT_STATUS d = (v, d') -> v = normal (ctl d) /\ rtc (advance card) (ctl d) (ctl d');
  pc_error : forall d v d', read16 REG_ERROR_INT_STATUS d = (v, d') -> v = error (ctl d) /\ rtc (advance card) (ctl d) (ctl d');
  pc_data : forall d v d' w ws, ph (ctl d) = Feeding (w :: ws) -> read32 REG_BUFFER_DATA d = (v, d') ->
    v = w /\ rtc (advance card) (with_ph (match ws with [] => Drained | _ => Feeding ws end) 0 (ctl d)) (ctl d');
  pc_clear : forall d v, 0 <= v < U16 -> rtc (advance card)
    (mkCtl (ph (ctl d)) (Z.ldiff (normal (ctl d)) v) (error (ctl d)) (argument (ctl d)) (block_size (ctl d)) (block_count (ctl d)))
    (ctl (write16 REG_NORMAL_INT_STATUS v d));
  pc_clear_error : forall d v, 0 <= v < U16 -> rtc (advance card)
    (mkCtl (ph (ctl d)) (normal (ctl d)) (Z.ldiff (error (ctl d)) v) (argument (ctl d)) (block_size (ctl d)) (block_count (ctl d)))
    (ctl (write16 REG_ERROR_INT_STATUS v d));
  pc_enable : forall d off v, off = REG_NORMAL_INT_STATUS_EN \/ off = REG_ERROR_INT_STATUS_EN -> rtc (advance card) (ctl d) (ctl (write16 off v d));
  pc_timeout : forall d v, rtc (advance card) (ctl d) (ctl (write8 0x2e v d));
  pc_size : forall d v, rtc (advance card)
    (mkCtl (ph (ctl d)) (normal (ctl d)) (error (ctl d)) (argument (ctl d)) v (block_count (ctl d))) (ctl (write16 REG_BLOCK_SIZE v d));
  pc_count : forall d v, rtc (advance card)
    (mkCtl (ph (ctl d)) (normal (ctl d)) (error (ctl d)) (argument (ctl d)) (block_size (ctl d)) v) (ctl (write16 REG_BLOCK_COUNT v d));
  pc_argument : forall d v, rtc (advance card)
    (mkCtl (ph (ctl d)) (normal (ctl d)) (error (ctl d)) v (block_size (ctl d)) (block_count (ctl d))) (ctl (write32 REG_ARGUMENT v d));
  (** Command 17, a read of one block with the data port. *)
  pc_start : forall d, busy (ph (ctl d)) = false -> block_size (ctl d) = 512 -> block_count (ctl d) = 1 ->
    rtc (advance card) (with_ph (Issued (argument (ctl d))) 0 (ctl d)) (ctl (write32 REG_XFER_MODE 0x113a_0010 d)) }.

Context {PC : PioCard}.

(** Nothing happens outside a command. *)
Lemma idle_stays c c' : busy (ph c) = false -> rtc (advance card) c c' -> c' = c.
Proof. intros Hb. induction 1 as [c|c c1 c2 H1 _ IH]; [done|]. exfalso. destruct H1 as [? H1|? H1|H1|? ? [H1|H1] _]; rewrite H1 in Hb; done. Qed.

Lemma feeding_stays c c' ws : ph c = Feeding ws -> rtc (advance card) c c' -> c' = c.
Proof. intros Hp. induction 1 as [c|c c1 c2 H1 _ IH]; [done|]. exfalso. destruct H1 as [? H1|? H1|H1|? ? [H1|H1] _]; congruence. Qed.

(** A command for sector [s] on its way, as far as the words in the port. *)
Definition reading (s : Z) (c : controller) : Prop :=
  Z.testbit (normal c) 1 = false /\
  match ph c with
  | Issued s' | Accepted s' => s' = s /\ Z.testbit (normal c) 5 = false /\ error c = 0
  | Feeding ws => ws = words_of (card s) /\ error c = 0
  | Failed => Z.testbit (normal c) 5 = false
  | _ => False
  end.

Lemma reading_advance s c c' : reading s c -> rtc (advance card) c c' -> reading s c'.
Proof.
  intros Hr. induction 1 as [c|c c1 c2 H1 _ IH]; [done|]. apply IH. clear IH. unfold reading in *. destruct Hr as [H0 Hr].
  destruct H1 as [s' H1|s' H1|H1|s' e [H1|H1] _]; rewrite H1 in Hr; cbn [ph with_ph normal error]; rewrite ?Z.lor_spec.
  - destruct Hr as (-> & H5 & He). rewrite H0, H5. done.
  - destruct Hr as (-> & H5 & He). rewrite H0. done.
  - done.
  - destruct Hr as (-> & H5 & He). done.
  - destruct Hr as (-> & H5 & He). done.
Qed.

Lemma reading_clear s c v : reading s c -> reading s (mkCtl (ph c) (Z.ldiff (normal c) v) (error c) (argument c) (block_size c) (block_count c)).
Proof.
  unfold reading. cbn [ph normal error]. rewrite !Z.ldiff_spec. intros [-> Hr]. split; [done|]. destruct (ph c); try done; [by destruct Hr as (-> & -> & ->)..|by rewrite Hr].
Qed.

Lemma reading_ready s c : reading s c -> Z.testbit (normal c) 5 = true -> ph c = Feeding (words_of (card s)).
Proof. intros [_ Hr] H5. destruct (ph c); try done; [destruct Hr as (_ & Hr & _); congruence..|by destruct Hr as [-> _]|congruence]. Qed.

Lemma pio_command_reading s d : busy (ph (ctl d)) = false -> reading s (ctl (pio_command s d)).
Proof.
  intros Hb. destruct (pc_bits d) as [Hn He]. unfold pio_command.
  pose proof (idle_stays (mkCtl _ _ _ _ _ _) _ Hb (pc_clear d 0xffff u16_all)) as E1. set (d1 := write16 REG_NORMAL_INT_STATUS 0xffff d) in *.
  assert (B1 : busy (ph (ctl d1)) = false) by (by rewrite E1).
  pose proof (idle_stays (mkCtl _ _ _ _ _ _) _ B1 (pc_clear_error d1 0xffff u16_all)) as E2. set (d2 := write16 REG_ERROR_INT_STATUS 0xffff d1) in *.
  rewrite E1 in E2. cbn [ph normal error argument block_size block_count] in E2. rewrite (ldiff_all _ Hn), (ldiff_all _ He) in E2.
  assert (B2 : busy (ph (ctl d2)) = false) by (by rewrite E2).
  pose proof (idle_stays _ _ B2 (pc_enable d2 REG_NORMAL_INT_STATUS_EN 0xffff (or_introl eq_refl))) as E3. set (d3 := write16 REG_NORMAL_INT_STATUS_EN 0xffff d2) in *.
  rewrite <- E3 in B2. pose proof (idle_stays _ _ B2 (pc_enable d3 REG_ERROR_INT_STATUS_EN 0xffff (or_intror eq_refl))) as E4. set (d4 := write16 REG_ERROR_INT_STATUS_EN 0xffff d3) in *.
  rewrite <- E4 in B2. pose proof (idle_stays (mkCtl _ _ _ _ _ _) _ B2 (pc_size d4 0x0200)) as E5. set (d5 := write16 REG_BLOCK_SIZE 0x0200 d4) in *.
  rewrite E4, E3, E2 in E5. cbn [ph normal error argument block_size block_count] in E5.
  assert (B5 : busy (ph (ctl d5)) = false) by (by rewrite E5).
  pose proof (idle_stays (mkCtl _ _ _ _ _ _) _ B5 (pc_count d5 0x0001)) as E6. set (d6 := write16 REG_BLOCK_COUNT 0x0001 d5) in *.
  rewrite E5 in E6. cbn [ph normal error argument block_size block_count] in E6.
  assert (B6 : busy (ph (ctl d6)) = false) by (by rewrite E6).
  pose proof (idle_stays _ _ B6 (pc_timeout d6 0x0e)) as E7. set (d7 := write8 0x2e 0x0e d6) in *.
  rewrite <- E7 in B6. pose proof (idle_stays (mkCtl _ _ _ _ _ _) _ B6 (pc_argument d7 s)) as E8. set (d8 := write32 REG_ARGUMENT s d7) in *.
  rewrite E7, E6 in E8. cbn [ph normal error argument block_size block_count] in E8.
  change (Z.lor 0x0010 (Z.shiftl 0x113a 16)) with 0x113a_0010. eapply reading_advance; [|apply pc_start; rewrite E8; done].
  rewrite E8. done.
Qed.

Lemma read_words_feeding ws : forall d l d', ph (ctl d) = Feeding ws -> ws <> [] -> Z.testbit (normal (ctl d)) 1 = false ->
  read_words (length ws) d = (l, d') ->
  l = ws /\ exists c, ph c = Drained /\ Z.testbit (normal c) 1 = false /\ rtc (advance card) c (ctl d').
Proof.
  induction ws as [|w ws IH]; intros d l d' Hp Hne H1; [done|]. cbn [length read_words]. destruct (read32 REG_BUFFER_DATA d) as [v d1] eqn:E1.
  destruct (pc_data _ _ _ _ _ Hp E1) as [-> A1]. destruct (read_words (length ws) d1) as [l1 d2] eqn:E2. intros [= <- <-].
  assert (Hn : Z.testbit (normal (with_ph Drained 0 (ctl d))) 1 = false) by (cbn [with_ph normal]; by rewrite Z.lor_0_r).
  destruct ws as [|w' ws].
  - cbn in E2. injection E2 as <- <-. split; [done|]. by exists (with_ph Drained 0 (ctl d)).
  - pose proof (feeding_stays (with_ph _ _ _) _ (w' :: ws) eq_refl A1) as Ec. destruct (IH d1 l1 d2) as (-> & Hc); [by rewrite Ec|done|rewrite Ec; exact Hn|done|]. done.
Qed.

Definition draining (c : controller) : Prop := (ph c = Drained /\ Z.testbit (normal c) 1 = false) \/ ph c = Complete.

Lemma draining_advance c c' : draining c -> rtc (advance card) c c' -> draining c'.
Proof.
  intros Hr. induction 1 as [c|c c1 c2 H1 _ IH]; [done|]. apply IH. destruct Hr as [[Hr _]|Hr]; destruct H1 as [? H1|? H1|H1|? ? [H1|H1] _]; try congruence. by right.
Qed.

Lemma wait_transfer_total timeout d : (0 < timeout)%nat -> exists r d', wait_transfer timeout d = Ret (r, d').
Proof.
  revert d. induction timeout as [|t IH]; intros d Ht; [lia|]. cbn [wait_transfer]. destruct (read16 _ d) as [v d1].
  destruct (negb _); [by eexists _, _|]. destruct t as [|t]; [destruct (read16 _ d1); by eexists _, _|]. apply IH. lia.
Qed.

Lemma wait_transfer_ok timeout : forall d u d', draining (ctl d) -> wait_transfer timeout d = Ret (Ok u, d') -> ph (ctl d') = Complete.
Proof.
  induction timeout as [|t IH]; intros d u d' Hd; cbn [wait_transfer]; destruct (read16 REG_NORMAL_INT_STATUS d) as [v d1] eqn:E1; destruct (pc_normal _ _ _ E1) as [-> A1];
    pose proof (draining_advance _ _ Hd A1) as D1; unfold INT_TRANSFER_COMPLETE at 1; rewrite bit_test by done; destruct (Z.testbit _ 1) eqn:Eb; cbn [negb].
  1, 3: intros [= <- <-]; destruct Hd as [[_ Hd]|Hd]; [congruence|];
    pose proof (idle_stays _ _ ltac:(by rewrite Hd) A1) as E2; assert (B1 : busy (ph (ctl d1)) = false) by (by rewrite E2, Hd);
    rewrite (idle_stays (mkCtl _ _ _ _ _ _) _ B1 (pc_clear d1 _ u16_complete)); cbn [ph]; by rewrite E2.
  - done.
  - destruct t as [|t]; [by destruct (read16 _ d1)|]. apply IH. done.
Qed.

Lemma word_bytes_of a b c d : byte_ok a -> byte_ok b -> byte_ok c -> byte_ok d ->
  word_bytes (a + 256 * b + 65536 * c + 16777216 * d) = [a; b; c; d].
Proof.
  unfold byte_ok, word_bytes. intros. rewrite !Z.shiftr_div_pow2 by done. change (2 ^ 8) with 256. change (2 ^ 16) with 65536. change (2 ^ 24) with 16777216.
  repeat f_equal; lia.
Qed.

Lemma words_bytes n : forall l, Forall byte_ok l -> length l = (4 * n)%nat -> words_of l ≫= word_bytes = l /\ length (words_of l) = n.
Proof.
  induction n as [|n IH]; intros l Hl Hn; [by destruct l|]. destruct l as [|a [|b [|c [|d l]]]]; cbn in Hn; try lia.
  rewrite !Forall_cons in Hl. destruct Hl as (Ha & Hb & Hc & Hd & Hl). destruct (IH l Hl ltac:(lia)) as [E1 E2].
  cbn [words_of length]. rewrite bind_cons, E1, E2, word_bytes_of by done. done.
Qed.

Lemma wait_ready_idle timeout d u d' : wait_ready timeout d = Ret (Ok u, d') -> busy (ph (ctl d')) = false.
Proof. intros H. destruct (wait_ready_ok ctl (advance card) (fun c => busy (ph c) = false) pc_present _ _ _ _ H) as (d0 & _ & Hb & A). by rewrite (idle_stays _ _ Hb A). Qed.

Lemma wait_bit_reading s bit on_error timeout d u d' : 0 <= bit < U16 -> reading s (ctl d) -> wait_bit bit on_error timeout d = Ret (Ok u, d') -> reading s (ctl d').
Proof.
  intros Hb Hr H. destruct (wait_bit_ok ctl (advance card) normal pc_normal (fun d v d' E => proj2 (pc_error d v d' E)) _ _ _ _ _ _ H) as (d0 & d1 & A0 & _ & A1 & ->).
  eapply reading_advance; [|apply pc_clear; done]. apply reading_clear. eapply reading_advance; [|exact A1]. by eapply reading_advance.
Qed.

Lemma wait_bit_feeding s on_error timeout d u d' : reading s (ctl d) -> wait_bit INT_BUFFER_READ_READY on_error timeout d = Ret (Ok u, d') ->
  ph (ctl d') = Feeding (words_of (card s)) /\ Z.testbit (normal (ctl d')) 1 = false.
Proof.
  intros Hr H. destruct (wait_bit_reading s INT_BUFFER_READ_READY _ _ _ _ _ ltac:(done) Hr H) as [H1 _]. split; [|done].
  destruct (wait_bit_ok ctl (advance card) normal pc_normal (fun d v d' E => proj2 (pc_error d v d' E)) _ _ _ _ _ _ H) as (d0 & d1 & A0 & H5 & A1 & ->). unfold INT_BUFFER_READ_READY in H5. rewrite bit_test in H5 by done. apply negb_false_iff in H5.
  pose proof (reading_ready s _ (reading_advance _ _ _ Hr A0) H5) as F0. pose proof (feeding_stays _ _ _ F0 A1) as E1. rewrite <- E1 in F0.
  rewrite (feeding_stays (mkCtl _ _ _ _ _ _) _ _ F0 (pc_clear d1 INT_BUFFER_READ_READY ltac:(done))). done.
Qed.

(** Reading a block of the SD card through the data port ends whatever the
    controller answers, without a panic; where the card follows the
    specification and the driver reports success, the buffer is the sector and
    the transfer is complete, and where it gives up before the data the buffer
    is as it was. *)
Theorem pio_read_ok sector buf d : exists r buf' d', read_block sector buf d = Ret (r, buf', d') /\
  (r = Ok tt -> buf' = card sector /\ ph (ctl d') = Complete) /\ (buf' = buf \/ buf' = card sector).
Proof.
  unfold read_block. destruct (wait_ready_total (Z.to_nat 100_000) d ltac:(lia)) as (r0 & d0 & E0). rewrite E0. cbn [obind]. destruct r0 as [u0|e0]; [|by eexists _, _, _; split; [|split; [|left]]].
  pose proof (pio_command_reading sector d0 (wait_ready_idle _ _ _ _ E0)) as R1.
  destruct (wait_bit_total INT_COMMAND_COMPLETE command_error (Z.to_nat 250_000) (pio_command sector d0) ltac:(lia)) as (r1 & d1 & E1). rewrite E1. cbn [obind].
  destruct r1 as [u1|e1]; [|by eexists _, _, _; split; [|split; [|left]]].
  pose proof (wait_bit_reading _ INT_COMMAND_COMPLETE _ _ _ _ _ ltac:(done) R1 E1) as R2.
  destruct (wait_bit_total INT_BUFFER_READ_READY io_error (Z.to_nat 250_000) d1 ltac:(lia)) as (r2 & d2 & E2). rewrite E2. cbn [obind].
  destruct r2 as [u2|e2]; [|by eexists _, _, _; split; [|split; [|left]]].
  destruct (wait_bit_feeding _ _ _ _ _ _ R2 E2) as [F2 B2]. destruct (card_block sector) as [Hl Hb]. destruct (words_bytes 128 _ Hb Hl) as [W1 W2].
  destruct (read_words 128 d2) as [ws d3] eqn:E3. rewrite <- W2 in E3.
  destruct (read_words_feeding _ _ _ _ F2 ltac:(by intros E; rewrite E in W2) B2 E3) as (-> & c & C1 & C2 & C3).
  destruct (wait_transfer_total (Z.to_nat 250_000) d3 ltac:(lia)) as (r4 & d4 & E4). rewrite E4. cbn [obind].
  eexists _, _, _. split; [done|]. rewrite W1. split; [|by right]. intros ->. split; [done|]. eapply wait_transfer_ok; [|exact E4].
  eapply draining_advance; [|exact C3]. by left.
Qed.
End pio.

(** ** A simulated card *)

(** Sector [s] is filled with its number. *)
Definition sim_card (s : Z) : list Z := replicate 512 (s mod 256).

Lemma sim_card_block s : length (sim_card s) = 512%nat /\ Forall byte_ok (sim_card s).
Proof. split; [apply length_replicate|]. apply Forall_replicate. unfold byte_ok. lia. Qed.

Section sim.
(** The sectors and the capability registers of the card; every access is one
    step of time. *)
Context (content : Z -> list Z) (caps : Z) (Hcontent : forall s, length (content s) = 512%nat /\ Forall byte_ok (content s)).

Definition clamp (c : controller) : controller := mkCtl (ph c) (normal c mod U16) (error c mod U16) (argument c) (block_size c) (block_count c).

Definition tick (c : controller) : controller :=
  match ph c with
  | Issued s => with_ph (Accepted s) INT_COMMAND_COMPLETE c
  | Accepted s => with_ph (Feeding (words_of (content s))) INT_BUFFER_READ_READY c
  | Drained => with_ph Complete INT_TRANSFER_COMPLETE c
  | _ => c
  end.

Definition sim_write (w a v : Z) (c : controller) : controller :=
  let off := a - SD_BASE in
  if off =? REG_NORMAL_INT_STATUS then mkCtl (ph c) (Z.ldiff (normal c) v) (error c) (argument c) (block_size c) (block_count c)
  else if off =? REG_ERROR_INT_STATUS then mkCtl (ph c) (normal c) (Z.ldiff (error c) v) (argument c) (block_size c) (block_count c)
  else if off =? REG_BLOCK_SIZE then mkCtl (ph c) (normal c) (error c) (argument c) v (block_count c)
  else if off =? REG_BLOCK_COUNT then mkCtl (ph c) (normal c) (error c) (argument c) (block_size c) v
  else if off =? REG_ARGUMENT then mkCtl (ph c) (normal c) (error c) v (block_size c) (block_count c)
  else if off =? REG_XFER_MODE then with_ph (Issued (argument c)) 0 c
  else c.

Definition sim_read (w a : Z) (c : controller) : Z * controller :=
  let off := a - SD_BASE in
  if off =? REG_NORMAL_INT_STATUS then (normal c, c)
  else if off =? REG_ERROR_INT_STATUS then (error c, c)
  else if off =? REG_PRESENT_STATE then ((if busy (ph c) then 3 else 0), c)
  else if off =? REG_BUFFER_DATA then
    match ph c with
    | Feeding (w :: ws) => (w, with_ph (match ws with [] => Drained | _ => Feeding ws end) 0 c)
    | _ => (0, c)
    end
  else if off =? 0x40 then (caps, c)
  else (0, c).

#[local] Instance sim_mmio : Mmio controller := {
  mmio_read w a c := let '(v, c) := sim_read w a (clamp c) in (v, tick c);
  mmio_write w a v c := tick (sim_write w a v (clamp c)) }.

Definition bits_ok (c : controller) : Prop := 0 <= normal c < U16 /\ 0 <= error c < U16.

Lemma clamp_ok c : bits_ok (clamp c).
Proof. split; apply Z.mod_pos_bound; done. Qed.

Lemma clamp_id c : bits_ok c -> clamp c = c.
Proof. intros [H1 H2]. unfold clamp. rewrite !Z.mod_small by done. by destruct c. Qed.

Lemma u16_bits a : 0 <= a < U16 -> forall l, 16 <= l -> Z.testbit a l = false.
Proof. intros Ha. apply Z.bounded_iff_bits_nonneg; unfold U16 in *; lia. Qed.

Lemma lor_u16 a b : 0 <= a < U16 -> 0 <= b < U16 -> 0 <= Z.lor a b < U16.
Proof.
  intros Ha Hb. assert (Hn : 0 <= Z.lor a b) by (apply Z.lor_nonneg; lia). split; [done|]. apply Z.bounded_iff_bits_nonneg; [done..|].
  intros l Hl. by rewrite Z.lor_spec, (u16_bits a Ha), (u16_bits b Hb).
Qed.

Lemma ldiff_u16 a b : 0 <= a < U16 -> 0 <= Z.ldiff a b < U16.
Proof.
  intros Ha. assert (Hn : 0 <= Z.ldiff a b) by (apply Z.ldiff_nonneg; lia). split; [done|]. apply Z.bounded_iff_bits_nonneg; [done..|].
  intros l Hl. by rewrite Z.ldiff_spec, (u16_bits a Ha).
Qed.

Lemma tick_step c : bits_ok c -> rtc (advance content) c (clamp (tick c)).
Proof.
  intros Hc. assert (Hk : bits_ok (tick c)).
  { unfold tick. destruct Hc as [H1 H2]. destruct (ph c); split; cbn [normal error with_ph]; try done; by apply lor_u16. }
  rewrite clamp_id by done. unfold tick. destruct (ph c) eqn:Ep; try (by apply rtc_refl); apply rtc_once; by constructor.
Qed.

#[local, refine] Instance sim_pio : PioCard := { ctl := clamp; card := content }.
Proof.
  - exact Hcontent.
  - intros d. apply clamp_ok.
  - intros d v d' [= <- <-]. cbn. split; [apply tick_step, clamp_ok|]. by destruct (busy _).
  - intros d v d' [= <- <-]. split; [done|]. apply tick_step, clamp_ok.
  - intros d v d' [= <- <-]. split; [done|]. apply tick_step, clamp_ok.
  - intros d v d' w ws Hp. unfold read32. cbn. unfold sim_read. cbn. change (ph d) with (ph (clamp d)). rewrite Hp. intros [= <- <-]. split; [done|]. apply tick_step.
    destruct (clamp_ok d) as [H1 H2]. split; cbn [with_ph normal error]; [by rewrite Z.lor_0_r|done].
  - intros d v Hv. apply tick_step. destruct (clamp_ok d) as [H1 H2]. split; [by apply ldiff_u16|done].
  - intros d v Hv. apply tick_step. destruct (clamp_ok d) as [H1 H2]. split; [done|by apply ldiff_u16].
  - intros d off v [-> | ->]; apply tick_step, clamp_ok.
  - intros d v. apply tick_step, clamp_ok.
  - intros d v. apply tick_step, clamp_ok.
  - intros d v. apply tick_step, clamp_ok.
  - intros d v. apply tick_step, clamp_ok.
  - intros d Hb _ _. apply tick_step. destruct (clamp_ok d) as [H1 H2]. split; cbn; [by rewrite Z.lor_0_r|done].
Defined.

End sim.

Section demo.
#[local] Instance card_mmio : Mmio controller := sim_mmio sim_card 0.
#[local] Instance card_pio : PioCard := sim_pio sim_card 0 sim_card_block.

(** The read succeeds on this card. *)
Lemma pio_read_ok_witness : exists d', read_block 7 [] (mkCtl Idle 0xffff 3 0 0 0) = Ret (Ok tt, replicate 512 7, d') /\ ph (ctl d') = Complete.
Proof.
  destruct (pio_read_ok 7 [] (mkCtl Idle 0xffff 3 0 0 0)) as (r & b & d' & E & Hok & _). exists d'.
  assert (Er : r = Ok tt).
  { apply (f_equal (fun o => match o with Ret (r, _, _) => match r with Ok _ => true | _ => false end | _ => false end)) in E. vm_compute in E. destruct r as [[]|]; done. }
  destruct (Hok Er) as [Hb Hp]. split; [|done]. rewrite E, Er, Hb. done.
Defined.
End demo.


End Polled.

(** * Through memory *)
Module AdmaPoll.
Import Mm Polled.

#[local] Existing Instance Sd.CpuType_eq_dec.

Section adma.
Context {D : Type} {MD : Mmio D}.
Context (cpu : Fdt.CpuType).

Definition read8 (offset : Z) (d : D) : Z * D := mmio_read 1 (SD_BASE + offset) d.

(** The memory behind the caches: the descriptor and the 512 bytes at a physical
    address.  Only the descriptor is written by the processor. *)
Class DmaMemory := {
  desc_at : D -> Z -> Sd.Adma2Desc;
  data_at : D -> Z -> list Z;
  put_desc : Z -> Sd.Adma2Desc -> D -> D }.

Context {DM : DmaMemory}.

(** [SdCardAdma] with its statics as the processor sees them: on the board they
    are in its cache until the cache is cleaned and invalidated. *)
Record SdCardAdma := mkAdma { DESC_TABLE : Sd.Adma2Desc; DATA_BUF : list Z; desc_table_phys : Z; data_buf_phys : Z; adev : D }.

Definition cached : bool := if decide (cpu = Fdt.LicheeRVNano) then true else false.

Definition with_dev (d : D) (s : SdCardAdma) : SdCardAdma := mkAdma (DESC_TABLE s) (DATA_BUF s) (desc_table_phys s) (data_buf_phys s) d.

(** A store to the table. *)
Definition set_desc (x : Sd.Adma2Desc) (s : SdCardAdma) : SdCardAdma :=
  mkAdma x (DATA_BUF s) (desc_table_phys s) (data_buf_phys s) (if cached then adev s else put_desc (desc_table_phys s) x (adev s)).

(** What a load of the buffer sees. *)
Definition get_data (s : SdCardAdma) : list Z := if cached then DATA_BUF s else data_at (adev s) (data_buf_phys s).

Definition flush_dcache_for_dma (s : SdCardAdma) : SdCardAdma :=
  if cached then
    let d := put_desc (desc_table_phys s) (DESC_TABLE s) (adev s) in
    mkAdma (DESC_TABLE s) (data_at d (data_buf_phys s)) (desc_table_phys s) (data_buf_phys s) d
  else s.

(** [new], with the addresses of the two statics. *)
Definition adma_new (kernel_virt_to_phys : Z -> option Z) (table buf : Z) (d : D) : outcome SdCardAdma :=
  let! desc_table_phys := expect (kernel_virt_to_phys table) in
  let! data_buf_phys := expect (kernel_virt_to_phys buf) in
  let d := write16 REG_NORMAL_INT_STATUS_EN 0xffff d in
  let d := write16 REG_ERROR_INT_STATUS_EN 0xffff d in
  let '(host_ctrl2, d) := read16 Sd.REG_HOST_CONTROL2 d in
  let d := write16 Sd.REG_HOST_CONTROL2 (Z.lor host_ctrl2 Sd.HOST_CTRL2_64BIT_ADDR) d in
  let '(host_ctrl, d) := read8 Sd.REG_HOST_CONTROL d in
  let d := write8 Sd.REG_HOST_CONTROL (Z.lor (Z.land host_ctrl (255 - Sd.HOST_CTRL_DMA_MASK)) Sd.HOST_CTRL_ADMA2_64) d in
  Ret (mkAdma (Sd.mkDesc 0 0 0 0) (replicate 512 0) desc_table_phys data_buf_phys d).

Definition xfer_mode : Z := Z.lor (Z.shiftl 1 0) (Z.shiftl 1 4).
Definition cmd : Z := Z.lor (Z.lor (Z.lor (Z.lor (Z.shiftl 17 8) (Z.shiftl 1 5)) (Z.shiftl 1 4)) (Z.shiftl 1 3)) (Z.shiftl 1 1).

Definition issue (sector : Z) (d : D) : D :=
  let d := write16 REG_NORMAL_INT_STATUS 0xffff d in
  let d := write16 REG_ERROR_INT_STATUS 0xffff d in
  let d := write16 REG_BLOCK_SIZE 512 d in
  let d := write16 REG_BLOCK_COUNT 1 d in
  let d := write8 0x2e 0x0e d in
  let d := write32 REG_ARGUMENT sector d in
  write32 REG_XFER_MODE (Z.lor xfer_mode (Z.shiftl cmd 16)) d.

Definition issue_read_cmd (sector : Z) (s : SdCardAdma) : outcome (result unit BlockError * SdCardAdma) :=
  let s := set_desc (Sd.desc_new (data_buf_phys s) 512 true) s in
  let s := flush_dcache_for_dma s in
  let d := write32 Sd.REG_ADMA_ADDR_LOW (as_u32 (desc_table_phys s)) (adev s) in
  let d := write32 Sd.REG_ADMA_ADDR_HIGH (as_u32 (Z.shiftr (desc_table_phys s) 32)) d in
  let! '(r, d) := wait_ready (Z.to_nat 100_000) d in
  match r with Err e => Ret (Err e, with_dev d s) | Ok _ =>
    let! '(r, d) := wait_bit INT_COMMAND_COMPLETE command_error (Z.to_nat 250_000) (issue sector d) in
    Ret (r, with_dev d s)
  end.

(** [buf] is the caller's buffer. *)
Definition adma_read_block (sector : Z) (buf : list Z) (s : SdCardAdma) : outcome (result unit BlockError * list Z * SdCardAdma) :=
  let! '(r, s) := issue_read_cmd sector s in
  match r with Err e => Ret (Err e, buf, s) | Ok _ =>
    let! '(r, d) := wait_bit INT_TRANSFER_COMPLETE io_error (Z.to_nat 250_000) (adev s) in
    match r with Err e => Ret (Err e, buf, with_dev d s) | Ok _ =>
      let s := flush_dcache_for_dma (with_dev d s) in
      Ret (Ok tt, get_data s, s)
    end
  end.

(** ** The controller *)
Inductive dphase := DIdle | DIssued (sector table : Z) | DAccepted (sector table : Z) | DComplete | DFailed.

(** Registers other than the two status ones, and memory. *)
Record dcontroller := mkDma { dph : dphase; dnormal : Z; derror : Z; dregs : Z -> Z; descs : Z -> Sd.Adma2Desc; data : Z -> list Z }.

Definition dbusy (p : dphase) : bool := match p with DIssued _ _ | DAccepted _ _ => true | _ => false end.

(** The engine follows a table of one descriptor, which has to be marked valid
    and last and to give the address of a transfer; 64 bit addresses. *)
Inductive dadvance (card : Z -> list Z) (c : dcontroller) : dcontroller -> Prop :=
| dadv_accept s t : dph c = DIssued s t ->
    dadvance card c (mkDma (DAccepted s t) (Z.lor (dnormal c) INT_COMMAND_COMPLETE) (derror c) (dregs c) (descs c) (data c))
| dadv_done s t p : dph c = DAccepted s t -> Sd.attr (descs c t) = 0x23 -> Sd.length (descs c t) = 512 ->
    Sd.addr_lo (descs c t) + Sd.addr_hi (descs c t) * U32 = p ->
    dadvance card c (mkDma DComplete (Z.lor (dnormal c) INT_TRANSFER_COMPLETE) (derror c) (dregs c) (descs c) (fun a => if a =? p then card s else data c a))
| dadv_fail s t e : dph c = DIssued s t \/ dph c = DAccepted s t -> 0 < e < U16 ->
    dadvance card c (mkDma DFailed (dnormal c) e (dregs c) (descs c) (data c)).

Definition dset (o v : Z) (c : dcontroller) : dcontroller :=
  mkDma (dph c) (dnormal c) (derror c) (fun x => if x =? o then v else dregs c x) (descs c) (data c).

(** Where the address in the table register leads. *)
Definition dtable (c : dcontroller) : Z := dregs c Sd.REG_ADMA_ADDR_LOW + dregs c Sd.REG_ADMA_ADDR_HIGH * U32.

(** The engine is set to tables of 64 bit addresses. *)
Definition engine_on (regs : Z -> Z) : Prop :=
  Z.land (regs Sd.REG_HOST_CONTROL) Sd.HOST_CTRL_DMA_MASK = Sd.HOST_CTRL_ADMA2_64 /\ Z.testbit (regs Sd.REG_HOST_CONTROL2) 13 = true.

Class DmaCard := {
  dctl : D -> dcontroller;
  dcard : Z -> list Z;
  dc_desc : forall d a, desc_at d a = descs (dctl d) a;
  dc_data : forall d a, data_at d a = data (dctl d) a;
  dc_bits : forall d, 0 <= dnormal (dctl d) < U16 /\ 0 <= derror (dctl d) < U16;
  dc_put : forall t x d, rtc (dadvance dcard)
    (mkDma (dph (dctl d)) (dnormal (dctl d)) (derror (dctl d)) (dregs (dctl d)) (fun a => if a =? t then x else descs (dctl d) a) (data (dctl d)))
    (dctl (put_desc t x d));
  dc_present : forall d v d', read32 REG_PRESENT_STATE d = (v, d') -> rtc (dadvance dcard) (dctl d) (dctl d') /\
    (Z.land v (Z.lor PRESENT_CMD_INHIBIT PRESENT_DAT_INHIBIT) = 0 -> dbusy (dph (dctl d)) = false);
  dc_normal : forall d v d', read16 REG_NORMAL_INT_STATUS d = (v, d') -> v = dnormal (dctl d) /\ rtc (dadvance dcard) (dctl d) (dctl d');
  dc_error : forall d v d', read16 REG_ERROR_INT_STATUS d = (v, d') -> v = derror (dctl d) /\ rtc (dadvance dcard) (dctl d) (dctl d');
  dc_clear : forall d v, 0 <= v < U16 -> rtc (dadvance dcard)
    (mkDma (dph (dctl d)) (Z.ldiff (dnormal (dctl d)) v) (derror (dctl d)) (dregs (dctl d)) (descs (dctl d)) (data (dctl d)))
    (dctl (write16 REG_NORMAL_INT_STATUS v d));
  dc_clear_error : forall d v, 0 <= v < U16 -> rtc (dadvance dcard)
    (mkDma (dph (dctl d)) (dnormal (dctl d)) (Z.ldiff (derror (dctl d)) v) (dregs (dctl d)) (descs (dctl d)) (data (dctl d)))
    (dctl (write16 REG_ERROR_INT_STATUS v d));
  dc_set16 : forall d o v, o ∈ [REG_BLOCK_SIZE; REG_BLOCK_COUNT; Sd.REG_HOST_CONTROL2] -> rtc (dadvance dcard) (dset o v (dctl d)) (dctl (write16 o v d));
  dc_set32 : forall d o v, o ∈ [REG_ARGUMENT; Sd.REG_ADMA_ADDR_LOW; Sd.REG_ADMA_ADDR_HIGH] -> rtc (dadvance dcard) (dset o v (dctl d)) (dctl (write32 o v d));
  dc_set8 : forall d v, rtc (dadvance dcard) (dset Sd.REG_HOST_CONTROL v (dctl d)) (dctl (write8 Sd.REG_HOST_CONTROL v d));
  dc_host2 : forall d v d', read16 Sd.REG_HOST_CONTROL2 d = (v, d') -> v = dregs (dctl d) Sd.REG_HOST_CONTROL2 /\ rtc (dadvance dcard) (dctl d) (dctl d');
  dc_host : forall d v d', read8 Sd.REG_HOST_CONTROL d = (v, d') -> v = dregs (dctl d) Sd.REG_HOST_CONTROL /\ rtc (dadvance dcard) (dctl d) (dctl d');
  dc_enable : forall d off v, off = REG_NORMAL_INT_STATUS_EN \/ off = REG_ERROR_INT_STATUS_EN -> rtc (dadvance dcard) (dctl d) (dctl (write16 off v d));
  dc_timeout : forall d v, rtc (dadvance dcard) (dctl d) (dctl (write8 0x2e v d));
  (** Command 17, a read of one block through memory. *)
  dc_start : forall d, engine_on (dregs (dctl d)) -> dbusy (dph (dctl d)) = false -> dregs (dctl d) REG_BLOCK_SIZE = 512 -> dregs (dctl d) REG_BLOCK_COUNT = 1 ->
    rtc (dadvance dcard)
      (mkDma (DIssued (dregs (dctl d) REG_ARGUMENT) (dtable (dctl d))) (dnormal (dctl d)) (derror (dctl d)) (dregs (dctl d)) (descs (dctl d)) (data (dctl d)))
      (dctl (write32 REG_XFER_MODE 0x113a_0011 d)) }.

Context {DC : DmaCard}.

Lemma didle_stays c c' : dbusy (dph c) = false -> rtc (dadvance dcard) c c' -> c' = c.
Proof. intros Hb. induction 1 as [c|c c1 c2 H1 _ IH]; [done|]. exfalso. destruct H1 as [? ? H1|? ? ? H1|? ? ? [H1|H1] _]; rewrite H1 in Hb; done. Qed.

(** Registers and tables are the driver's. *)
Lemma dadvance_keeps c c' : rtc (dadvance dcard) c c' -> dregs c' = dregs c /\ descs c' = descs c.
Proof. induction 1 as [c|c c1 c2 H1 _ [IH1 IH2]]; [done|]. rewrite IH1, IH2. by destruct H1. Qed.

(** A read of sector [s] into [p] through the table at [t], up to its end. *)
Definition dreading (s t p : Z) (c : dcontroller) : Prop :=
  let x := descs c t in Sd.attr x = 0x23 /\ Sd.length x = 512 /\ Sd.addr_lo x + Sd.addr_hi x * U32 = p /\
  match dph c with
  | DIssued s' t' | DAccepted s' t' => s' = s /\ t' = t /\ Z.testbit (dnormal c) 1 = false
  | DComplete => data c p = dcard s
  | DFailed => Z.testbit (dnormal c) 1 = false
  | DIdle => False
  end.

Lemma dreading_advance s t p c c' : dreading s t p c -> rtc (dadvance dcard) c c' -> dreading s t p c'.
Proof.
  intros Hr. induction 1 as [c|c c1 c2 H1 _ IH]; [done|]. apply IH. clear IH. destruct Hr as (Ha & Hl & Hp & Hr). unfold dreading.
  destruct H1 as [s' t' H1|s' t' p' H1 A1 L1 P1|s' t' e [H1|H1] _]; rewrite H1 in Hr; destruct Hr as (-> & -> & Hn); cbn [descs dph dnormal data]; split_and!; try done.
  - by rewrite Z.lor_spec, Hn.
  - rewrite <- P1, Hp, Z.eqb_refl. done.
Qed.

Lemma dreading_clear s t p c v : dreading s t p c -> dreading s t p (mkDma (dph c) (Z.ldiff (dnormal c) v) (derror c) (dregs c) (descs c) (data c)).
Proof.
  intros (Ha & Hl & Hp & Hr). split_and!; [done..|]. cbn [dph dnormal data]. rewrite !Z.ldiff_spec. destruct (dph c); try done; [by destruct Hr as (-> & -> & ->)..|by rewrite Hr].
Qed.

Lemma dreading_done s t p c : dreading s t p c -> Z.testbit (dnormal c) 1 = true -> dph c = DComplete /\ data c p = dcard s.
Proof. intros (_ & _ & _ & Hr) H1. destruct (dph c); try done; [destruct Hr as (_ & _ & Hr); congruence..|congruence]. Qed.


Lemma issue_reading s t x p d : dbusy (dph (dctl d)) = false -> engine_on (dregs (dctl d)) -> dtable (dctl d) = t -> descs (dctl d) t = x ->
  Sd.attr x = 0x23 -> Sd.length x = 512 -> Sd.addr_lo x + Sd.addr_hi x * U32 = p -> dreading s t p (dctl (issue s d)).
Proof.
  intros Hb [He1 He2] Ht Hx Ha Hl Hp. destruct (dc_bits d) as [Hn He]. unfold issue.
  pose proof (didle_stays (mkDma _ _ _ _ _ _) _ Hb (dc_clear d 0xffff u16_all)) as E1. set (d1 := write16 REG_NORMAL_INT_STATUS 0xffff d) in *.
  assert (B1 : dbusy (dph (dctl d1)) = false) by (by rewrite E1).
  pose proof (didle_stays (mkDma _ _ _ _ _ _) _ B1 (dc_clear_error d1 0xffff u16_all)) as E2. set (d2 := write16 REG_ERROR_INT_STATUS 0xffff d1) in *.
  rewrite E1 in E2. cbn [dph dnormal derror dregs descs data] in E2. rewrite (ldiff_all _ Hn), (ldiff_all _ He) in E2.
  assert (B2 : dbusy (dph (dctl d2)) = false) by (by rewrite E2).
  pose proof (didle_stays (dset _ _ _) _ B2 (dc_set16 d2 REG_BLOCK_SIZE 512 ltac:(left))) as E3. set (d3 := write16 REG_BLOCK_SIZE 512 d2) in *.
  assert (B3 : dbusy (dph (dctl d3)) = false) by (by rewrite E3).
  pose proof (didle_stays (dset _ _ _) _ B3 (dc_set16 d3 REG_BLOCK_COUNT 1 ltac:(right; left))) as E4. set (d4 := write16 REG_BLOCK_COUNT 1 d3) in *.
  assert (B4 : dbusy (dph (dctl d4)) = false) by (by rewrite E4).
  pose proof (didle_stays _ _ B4 (dc_timeout d4 0x0e)) as E5. set (d5 := write8 0x2e 0x0e d4) in *. rewrite <- E5 in B4.
  pose proof (didle_stays (dset _ _ _) _ B4 (dc_set32 d5 REG_ARGUMENT s ltac:(left))) as E6. set (d6 := write32 REG_ARGUMENT s d5) in *.
  rewrite E5, E4, E3, E2 in E6. unfold dset in E6. cbn [dph dnormal derror dregs descs data] in E6.
  change (Z.lor xfer_mode (Z.shiftl cmd 16)) with 0x113a_0011. eapply dreading_advance; [|apply dc_start; rewrite E6; try done].
  rewrite E6. unfold dreading, dtable in *. cbn [dph dnormal derror dregs descs data]. cbn. rewrite Ht, Hx. done.
Qed.

(** What [new] establishes and a read keeps. *)
Definition adma_ok (s : SdCardAdma) : Prop :=
  0 <= desc_table_phys s < USIZE /\ 0 <= data_buf_phys s < USIZE /\ engine_on (dregs (dctl (adev s))).

(** The controller sees the descriptor that was stored, cache or not. *)
Lemma flush_desc x s : let s' := flush_dcache_for_dma (set_desc x s) in
  descs (dctl (adev s')) (desc_table_phys s) = x /\ dregs (dctl (adev s')) = dregs (dctl (adev s)) /\
  desc_table_phys s' = desc_table_phys s /\ data_buf_phys s' = data_buf_phys s.
Proof.
  cbn zeta. unfold flush_dcache_for_dma, set_desc. destruct cached; cbn [adev DESC_TABLE desc_table_phys data_buf_phys];
    destruct (dadvance_keeps _ _ (dc_put (desc_table_phys s) x (adev s))) as [-> ->]; cbn [dregs descs]; by rewrite Z.eqb_refl.
Qed.

Lemma flush_regs s : dregs (dctl (adev (flush_dcache_for_dma s))) = dregs (dctl (adev s)).
Proof. unfold flush_dcache_for_dma. destruct cached; [|done]. cbn [adev]. by destruct (dadvance_keeps _ _ (dc_put (desc_table_phys s) (DESC_TABLE s) (adev s))) as [-> _]. Qed.

Lemma on_normal d v d' : read16 REG_NORMAL_INT_STATUS d = (v, d') -> engine_on (dregs (dctl d)) -> engine_on (dregs (dctl d')).
Proof. intros E. destruct (dc_normal _ _ _ E) as [_ A]. by destruct (dadvance_keeps _ _ A) as [-> _]. Qed.

Lemma on_error d v d' : read16 REG_ERROR_INT_STATUS d = (v, d') -> engine_on (dregs (dctl d)) -> engine_on (dregs (dctl d')).
Proof. intros E. destruct (dc_error _ _ _ E) as [_ A]. by destruct (dadvance_keeps _ _ A) as [-> _]. Qed.

Lemma on_present d v d' : read32 REG_PRESENT_STATE d = (v, d') -> engine_on (dregs (dctl d)) -> engine_on (dregs (dctl d')).
Proof. intros E. destruct (dc_present _ _ _ E) as [A _]. by destruct (dadvance_keeps _ _ A) as [-> _]. Qed.

Lemma on_clear d v : 0 <= v < U16 -> engine_on (dregs (dctl d)) -> engine_on (dregs (dctl (write16 REG_NORMAL_INT_STATUS v d))).
Proof. intros Hv. by destruct (dadvance_keeps _ _ (dc_clear d v Hv)) as [-> _]. Qed.

Lemma on_clear_error d v : 0 <= v < U16 -> engine_on (dregs (dctl d)) -> engine_on (dregs (dctl (write16 REG_ERROR_INT_STATUS v d))).
Proof. intros Hv. by destruct (dadvance_keeps _ _ (dc_clear_error d v Hv)) as [-> _]. Qed.

Lemma on_wait_bit bit onerr timeout d r d' : 0 <= bit < U16 -> wait_bit bit onerr timeout d = Ret (r, d') -> engine_on (dregs (dctl d)) -> engine_on (dregs (dctl d')).
Proof.
  intros Hb. apply (wait_bit_keeps (fun d => engine_on (dregs (dctl d))) on_normal on_error bit Hb on_clear on_clear_error).
Qed.

Lemma dwait_reading s t p bit onerr timeout d u d' : 0 <= bit < U16 -> dreading s t p (dctl d) -> wait_bit bit onerr timeout d = Ret (Ok u, d') ->
  dreading s t p (dctl d').
Proof.
  intros Hb Hr H. destruct (wait_bit_ok dctl (dadvance dcard) dnormal dc_normal (fun d v d' E => proj2 (dc_error d v d' E)) _ _ _ _ _ _ H) as (d0 & d1 & A0 & _ & A1 & ->).
  eapply dreading_advance; [|apply dc_clear; done]. apply dreading_clear. eapply dreading_advance; [|exact A1]. by eapply dreading_advance.
Qed.

Lemma dwait_done s t p onerr timeout d u d' : dreading s t p (dctl d) -> wait_bit INT_TRANSFER_COMPLETE onerr timeout d = Ret (Ok u, d') ->
  dph (dctl d') = DComplete /\ data (dctl d') p = dcard s.
Proof.
  intros Hr H. destruct (wait_bit_ok dctl (dadvance dcard) dnormal dc_normal (fun d v d' E => proj2 (dc_error d v d' E)) _ _ _ _ _ _ H) as (d0 & d1 & A0 & H1 & A1 & ->).
  unfold INT_TRANSFER_COMPLETE in H1. rewrite bit_test in H1 by done. apply negb_false_iff in H1.
  destruct (dreading_done s t p _ (dreading_advance _ _ _ _ _ Hr A0) H1) as [F0 F1]. pose proof (didle_stays _ _ (f_equal dbusy F0) A1) as E1. rewrite <- E1 in F0, F1.
  pose proof (f_equal dbusy F0 : dbusy (dph (dctl d1)) = false) as B1.
  rewrite (didle_stays (mkDma _ _ _ _ _ _) _ B1 (dc_clear d1 INT_TRANSFER_COMPLETE u16_complete)). done.
Qed.

(** The same card, its registers still set. *)
Definition same_card (s s' : SdCardAdma) : Prop :=
  desc_table_phys s' = desc_table_phys s /\ data_buf_phys s' = data_buf_phys s /\ engine_on (dregs (dctl (adev s'))).

Lemma issue_regs sector d : dbusy (dph (dctl d)) = false -> engine_on (dregs (dctl d)) -> engine_on (dregs (dctl (issue sector d))).
Proof.
  intros Hb He. unfold issue. set (d1 := write16 REG_NORMAL_INT_STATUS 0xffff d).
  pose proof (didle_stays (mkDma _ _ _ _ _ _) _ Hb (dc_clear d 0xffff u16_all)) as E1.
  pose proof (on_clear d 0xffff u16_all He) as O1. fold d1 in O1, E1. assert (B1 : dbusy (dph (dctl d1)) = false) by (by rewrite E1). clear E1.
  pose proof (on_clear_error d1 0xffff u16_all O1) as O2. pose proof (didle_stays (mkDma _ _ _ _ _ _) _ B1 (dc_clear_error d1 0xffff u16_all)) as E2.
  set (d2 := write16 REG_ERROR_INT_STATUS 0xffff d1) in *.
  assert (B2 : dbusy (dph (dctl d2)) = false) by (by rewrite E2). clear E2.
  pose proof (didle_stays (dset _ _ _) _ B2 (dc_set16 d2 REG_BLOCK_SIZE 512 ltac:(left))) as E3. set (d3 := write16 REG_BLOCK_SIZE 512 d2) in *.
  assert (B3 : dbusy (dph (dctl d3)) = false) by (by rewrite E3). assert (O3 : engine_on (dregs (dctl d3))) by (rewrite E3; exact O2).
  pose proof (didle_stays (dset _ _ _) _ B3 (dc_set16 d3 REG_BLOCK_COUNT 1 ltac:(right; left))) as E4. set (d4 := write16 REG_BLOCK_COUNT 1 d3) in *.
  assert (B4 : dbusy (dph (dctl d4)) = false) by (by rewrite E4). assert (O4 : engine_on (dregs (dctl d4))) by (rewrite E4; exact O3).
  pose proof (didle_stays _ _ B4 (dc_timeout d4 0x0e)) as E5. set (d5 := write8 0x2e 0x0e d4) in *. rewrite <- E5 in B4, O4.
  pose proof (didle_stays (dset _ _ _) _ B4 (dc_set32 d5 REG_ARGUMENT sector ltac:(left))) as E6. set (d6 := write32 REG_ARGUMENT sector d5) in *.
  change (Z.lor xfer_mode (Z.shiftl cmd 16)) with 0x113a_0011.
  assert (B6 : dbusy (dph (dctl d6)) = false) by (by rewrite E6). assert (O6 : engine_on (dregs (dctl d6))) by (rewrite E6; exact O4).
  destruct (dadvance_keeps _ _ (dc_start d6 O6 B6 ltac:(by rewrite E6; cbn; rewrite E5, E4; cbn; rewrite E3) ltac:(by rewrite E6; cbn; rewrite E5, E4))) as [-> _]. done.
Qed.

Lemma issue_read_cmd_ok sector s : adma_ok s -> exists r s', issue_read_cmd sector s = Ret (r, s') /\ same_card s s' /\
  (r = Ok tt -> dreading sector (desc_table_phys s) (data_buf_phys s) (dctl (adev s'))).
Proof.
  intros (Ht & Hd & He). unfold issue_read_cmd. set (x := Sd.desc_new (data_buf_phys s) 512 true).
  destruct (flush_desc x s) as (F1 & F2 & F3 & F4). set (s1 := flush_dcache_for_dma (set_desc x s)) in *. cbn zeta. rewrite F3.
  set (d1 := write32 Sd.REG_ADMA_ADDR_LOW (as_u32 (desc_table_phys s)) (adev s1)).
  set (d2 := write32 Sd.REG_ADMA_ADDR_HIGH (as_u32 (Z.shiftr (desc_table_phys s) 32)) d1).
  destruct (dadvance_keeps _ _ (dc_set32 (adev s1) Sd.REG_ADMA_ADDR_LOW (as_u32 (desc_table_phys s)) ltac:(right; left))) as [R1 T1]. fold d1 in R1, T1.
  destruct (dadvance_keeps _ _ (dc_set32 d1 Sd.REG_ADMA_ADDR_HIGH (as_u32 (Z.shiftr (desc_table_phys s) 32)) ltac:(right; right; left))) as [R2 T2]. fold d2 in R2, T2.
  cbn [dset dregs descs] in R1, R2, T1, T2. rewrite R1, F2 in R2. rewrite T1 in T2. clear R1 T1.
  assert (O2 : engine_on (dregs (dctl d2))) by (rewrite R2; exact He).
  destruct (wait_ready_total (Z.to_nat 100_000) d2 ltac:(lia)) as (r3 & d3 & E3). rewrite E3. cbn [obind].
  pose proof (wait_ready_keeps (fun d => engine_on (dregs (dctl d))) on_present _ _ _ _ E3 O2) as O3.
  destruct r3 as [u3|e3]; [|by eexists _, _; split; [done|split; [done|]]].
  destruct (wait_ready_ok dctl (dadvance dcard) (fun c => dbusy (dph c) = false) dc_present _ _ _ _ E3) as (d0 & A0 & B0 & A3).
  pose proof (didle_stays _ _ B0 A3) as E0. rewrite <- E0 in B0, A0. destruct (dadvance_keeps _ _ A0) as [R3 T3].
  destruct (wait_bit_total INT_COMMAND_COMPLETE command_error (Z.to_nat 250_000) (issue sector d3) ltac:(lia)) as (r4 & d4 & E4). rewrite E4. cbn [obind].
  eexists _, _. split; [done|]. assert (Hb : 0 <= INT_COMMAND_COMPLETE < U16) by done.
  split; [split_and!; [done|done|]; exact (on_wait_bit _ _ _ _ _ _ Hb E4 (issue_regs sector d3 B0 O3))|].
  intros ->. eapply dwait_reading; [exact Hb| |exact E4]. apply (issue_reading _ _ x); [done|done| | |done|done|by apply u32_halves].
  - unfold dtable. rewrite R3, R2. cbn. by apply u32_halves.
  - rewrite T3, T2. done.
Qed.

(** Reading a block of the SD card through memory ends whatever the controller
    answers, without a panic; success means that the buffer is the sector, with
    a cache that does not see what the controller writes as without one; after
    an error the buffer is as it was. *)
Theorem adma_read_ok sector buf s (Hs : adma_ok s) : exists r buf' s', adma_read_block sector buf s = Ret (r, buf', s') /\ adma_ok s' /\
  match r with Ok _ => buf' = dcard sector | Err _ => buf' = buf end.
Proof.
  unfold adma_read_block. destruct (issue_read_cmd_ok sector s Hs) as (r1 & s1 & E1 & (S1 & S2 & S3) & R1). rewrite E1. cbn [obind]. destruct Hs as (Ht & Hd & _).
  assert (Hs1 : forall d, engine_on (dregs (dctl d)) -> adma_ok (with_dev d s1)) by (intros d Hd'; split_and!; cbn; rewrite ?S1, ?S2; done || lia).
  assert (Hs1' : adma_ok s1) by (split_and!; rewrite ?S1, ?S2; done || lia).
  destruct r1 as [[]|e1]; [|by eexists _, _, _]. specialize (R1 eq_refl).
  destruct (wait_bit_total INT_TRANSFER_COMPLETE io_error (Z.to_nat 250_000) (adev s1) ltac:(lia)) as (r2 & d2 & E2). rewrite E2. cbn [obind].
  pose proof (on_wait_bit _ _ _ _ _ _ u16_complete E2 S3) as O2. destruct r2 as [u2|e2]; [|eexists _, _, _; split; [done|split; [by apply Hs1|done]]].
  destruct (dwait_done _ _ _ _ _ _ _ _ R1 E2) as [P2 D2]. eexists _, _, _. split; [done|]. split.
  - destruct (Hs1 d2 O2) as (? & ? & ?). unfold adma_ok. rewrite flush_regs. unfold flush_dcache_for_dma. by destruct cached.
  - unfold get_data, flush_dcache_for_dma. destruct cached; cbn [DATA_BUF adev with_dev data_buf_phys]; [|by rewrite dc_data, S2].
    rewrite dc_data, S2. pose proof (didle_stays (mkDma _ _ _ _ _ _) _ (f_equal dbusy P2 : dbusy (dph (dctl d2)) = false) (dc_put (desc_table_phys (with_dev d2 s1)) (DESC_TABLE (with_dev d2 s1)) d2)) as ->.
    done.
Qed.

(** A new driver is ready to read. *)
Lemma adma_new_ok kernel_virt_to_phys table buf d t p : kernel_virt_to_phys table = Some t -> kernel_virt_to_phys buf = Some p -> 0 <= t < USIZE -> 0 <= p < USIZE ->
  exists s, adma_new kernel_virt_to_phys table buf d = Ret s /\ adma_ok s /\ desc_table_phys s = t /\ data_buf_phys s = p.
Proof.
  intros Et Ep Ht Hp. unfold adma_new. rewrite Et, Ep. cbn [expect obind].
  set (d1 := write16 REG_ERROR_INT_STATUS_EN _ _). destruct (read16 Sd.REG_HOST_CONTROL2 d1) as [h2 d2] eqn:E2.
  set (d3 := write16 Sd.REG_HOST_CONTROL2 _ d2). destruct (read8 Sd.REG_HOST_CONTROL d3) as [h d4] eqn:E4.
  eexists. split; [done|]. split; [split; [done|split; [done|]]|done]. cbn [adev].
  destruct (dadvance_keeps _ _ (dc_set8 d4 (Z.lor (Z.land h (255 - Sd.HOST_CTRL_DMA_MASK)) Sd.HOST_CTRL_ADMA2_64))) as [-> _].
  destruct (dc_host _ _ _ E4) as [_ A4]. destruct (dadvance_keeps _ _ A4) as [R4 _].
  destruct (dadvance_keeps _ _ (dc_set16 d2 Sd.REG_HOST_CONTROL2 (Z.lor h2 Sd.HOST_CTRL2_64BIT_ADDR) ltac:(right; right; left))) as [R3 _]. fold d3 in R3.
  cbn [dset dregs]. split; [|rewrite R4, R3].
  - rewrite Z.eqb_refl. rewrite Z.land_lor_distr_l. unfold Sd.HOST_CTRL_DMA_MASK, Sd.HOST_CTRL_ADMA2_64. rewrite <- Z.land_assoc. change (Z.land (255 - 24) 24) with 0. by rewrite Z.land_0_r.
  - change (Z.testbit (Z.lor h2 Sd.HOST_CTRL2_64BIT_ADDR) 13 = true). rewrite Z.lor_spec. by rewrite orb_true_r.
Qed.
End adma.

(** ** A simulated card *)
Section sim.
Definition dclamp (c : dcontroller) : dcontroller := mkDma (dph c) (dnormal c mod U16) (derror c mod U16) (dregs c) (descs c) (data c).

Definition dtick (c : dcontroller) : dcontroller :=
  match dph c with
  | DIssued s t => mkDma (DAccepted s t) (Z.lor (dnormal c) INT_COMMAND_COMPLETE) (derror c) (dregs c) (descs c) (data c)
  | DAccepted s t =>
      let x := descs c t in
      if (Sd.attr x =? 0x23) && (Sd.length x =? 512) then
        mkDma DComplete (Z.lor (dnormal c) INT_TRANSFER_COMPLETE) (derror c) (dregs c) (descs c)
          (fun a => if a =? Sd.addr_lo x + Sd.addr_hi x * U32 then sim_card s else data c a)
      else c
  | _ => c
  end.

Definition dsim_write (w a v : Z) (c : dcontroller) : dcontroller :=
  let off := a - SD_BASE in
  if off =? REG_NORMAL_INT_STATUS then mkDma (dph c) (Z.ldiff (dnormal c) v) (derror c) (dregs c) (descs c) (data c)
  else if off =? REG_ERROR_INT_STATUS then mkDma (dph c) (dnormal c) (Z.ldiff (derror c) v) (dregs c) (descs c) (data c)
  else if off =? REG_XFER_MODE then mkDma (DIssued (dregs c REG_ARGUMENT) (dtable c)) (dnormal c) (derror c) (dregs c) (descs c) (data c)
  else if bool_decide (off ∈ [REG_BLOCK_SIZE; REG_BLOCK_COUNT; REG_ARGUMENT; Sd.REG_ADMA_ADDR_LOW; Sd.REG_ADMA_ADDR_HIGH; Sd.REG_HOST_CONTROL; Sd.REG_HOST_CONTROL2]) then dset off v c
  else c.

Definition dsim_read (w a : Z) (c : dcontroller) : Z :=
  let off := a - SD_BASE in
  if off =? REG_NORMAL_INT_STATUS then dnormal c
  else if off =? REG_ERROR_INT_STATUS then derror c
  else if off =? REG_PRESENT_STATE then (if dbusy (dph c) then 3 else 0)
  else dregs c off.

#[local] Instance dsim_mmio : Mmio dcontroller := {
  mmio_read w a c := (dsim_read w a (dclamp c), dtick (dclamp c));
  mmio_write w a v c := dtick (dsim_write w a v (dclamp c)) }.

#[local] Instance dsim_memory : DmaMemory := {
  desc_at c a := descs (dclamp c) a;
  data_at c a := data (dclamp c) a;
  put_desc t x c := let c := dclamp c in
    dtick (mkDma (dph c) (dnormal c) (derror c) (dregs c) (fun a => if a =? t then x else descs c a) (data c)) }.

Definition dbits_ok (c : dcontroller) : Prop := 0 <= dnormal c < U16 /\ 0 <= derror c < U16.

Lemma dclamp_ok c : dbits_ok (dclamp c).
Proof. split; apply Z.mod_pos_bound; done. Qed.

Lemma dclamp_id c : dbits_ok c -> dclamp c = c.
Proof. intros [H1 H2]. unfold dclamp. rewrite !Z.mod_small by done. by destruct c. Qed.

Lemma dtick_step c : dbits_ok c -> rtc (dadvance sim_card) c (dclamp (dtick c)).
Proof.
  intros Hc. assert (Hk : dbits_ok (dtick c)).
  { unfold dtick. destruct Hc as [H1 H2]. destruct (dph c); [..|done|done]; [done| |destruct (_ && _)]; split; cbn [dnormal derror]; try done; by apply lor_u16. }
  rewrite dclamp_id by done. unfold dtick. destruct (dph c) eqn:Ep; try (by apply rtc_refl).
  - apply rtc_once. by constructor.
  - destruct (_ && _) eqn:Ex; [|by apply rtc_refl]. apply andb_true_iff in Ex as [E1 E2]. apply rtc_once. apply (dadv_done _ _ _ table); [done|lia|lia|done].
Qed.

#[local, refine] Instance dsim_card : DmaCard := { dctl := dclamp; dcard := sim_card }.
Proof.
  - done.
  - done.
  - intros d. apply dclamp_ok.
  - intros t x d. apply dtick_step, dclamp_ok.
  - intros d v d' [= <- <-]. cbn. split; [apply dtick_step, dclamp_ok|]. unfold dsim_read. cbn. by destruct (dbusy _).
  - intros d v d' [= <- <-]. split; [done|]. apply dtick_step, dclamp_ok.
  - intros d v d' [= <- <-]. split; [done|]. apply dtick_step, dclamp_ok.
  - intros d v Hv. apply dtick_step. destruct (dclamp_ok d) as [H1 H2]. split; [by apply ldiff_u16|done].
  - intros d v Hv. apply dtick_step. destruct (dclamp_ok d) as [H1 H2]. split; [done|by apply ldiff_u16].
  - intros d o v Ho. rewrite !elem_of_cons, elem_of_nil in Ho. destruct Ho as [->|[->|[->|[]]]]; exact (dtick_step (dset _ v (dclamp d)) (dclamp_ok d)).
  - intros d o v Ho. rewrite !elem_of_cons, elem_of_nil in Ho. destruct Ho as [->|[->|[->|[]]]]; exact (dtick_step (dset _ v (dclamp d)) (dclamp_ok d)).
  - intros d v. exact (dtick_step (dset _ v (dclamp d)) (dclamp_ok d)).
  - intros d v d' [= <- <-]. split; [done|]. apply dtick_step, dclamp_ok.
  - intros d v d' [= <- <-]. split; [done|]. apply dtick_step, dclamp_ok.
  - intros d off v [-> | ->]; apply dtick_step, dclamp_ok.
  - intros d v. apply dtick_step, dclamp_ok.
  - intros d _ _ _ _. apply dtick_step. exact (dclamp_ok d).
Defined.

Definition demo_card : SdCardAdma :=
  mkAdma (Sd.mkDesc 0 0 0 0) (replicate 512 0) 0x8020_1000 0x8020_2000
    (mkDma DIdle 0xffff 3 (fun o => if o =? Sd.REG_HOST_CONTROL then 0x18 else if o =? Sd.REG_HOST_CONTROL2 then 0x2000 else 0) (fun _ => Sd.mkDesc 0 0 0 0) (fun _ => [])).

(** On the board, through the cache. *)
Lemma adma_read_ok_witness : exists s', adma_read_block Fdt.LicheeRVNano 9 [] demo_card = Ret (Ok tt, replicate 512 9, s').
Proof.
  destruct (adma_read_ok Fdt.LicheeRVNano 9 [] demo_card) as (r & b & s' & E & _ & Hb); [by split_and!|]. exists s'.
  assert (Er : r = Ok tt).
  { apply (f_equal (fun o => match o with Ret (r, _, _) => match r with Ok _ => true | _ => false end | _ => false end)) in E. vm_compute in E. destruct r as [[]|]; done. }
  rewrite Er in *. rewrite E, Hb. done.
Defined.
End sim.

End AdmaPoll.

(** * The VirtIO disk, polled *)
Module VirtioPoll.
Import Mm Polled.

Definition VIRTIO_MMIO_DEVICE_FEATURES : Z := 0x010.
Definition VIRTIO_BLK_S_OK : Z := 0.

(** The statics the driver shares with the device; of the used ring only the
    first word, flags and index, is looked at. *)
Record vmem := mkMem { DESC : list Virtio.VirtqDesc; AVAIL : list Z; REQ : Virtio.VirtioBlkReq; USED0 : Z; STATUS : Z; DATA : list Z }.

Definition set_DESC i x m := mkMem (<[i := x]> (DESC m)) (AVAIL m) (REQ m) (USED0 m) (STATUS m) (DATA m).
Definition set_AVAIL i x m := mkMem (DESC m) (<[i := x]> (AVAIL m)) (REQ m) (USED0 m) (STATUS m) (DATA m).
Definition set_REQ x m := mkMem (DESC m) (AVAIL m) x (USED0 m) (STATUS m) (DATA m).
Definition set_STATUS x m := mkMem (DESC m) (AVAIL m) (REQ m) (USED0 m) x (DATA m).

Section driver.
Context {D : Type} {MD : Mmio D}.

(** Loads and stores of that memory, during which the device goes on. *)
Class SharedMemory := { peek : D -> vmem; loaded : D -> D; store : (vmem -> vmem) -> D -> D }.
Context {SM : SharedMemory}.

Definition load {A : Type} (f : vmem -> A) (d : D) : A * D := (f (peek d), loaded d).

Record VirtioBlk := mkBlk { base : Z; req_phys : Z; data_phys : Z; status_phys : Z }.

(** The addresses of the statics. *)
Record statics := mkStatics { at_DESC : Z; at_AVAIL : Z; at_USED : Z; at_REQ : Z; at_DATA : Z; at_STATUS : Z }.

Definition vnew (kernel_virt_to_phys : Z -> option Z) (x : statics) (base : Z) (d : D) : result VirtioBlk BlockError * D :=
  let d := VirtioDev.write32 base VirtioDev.REG_STATUS 0 d in
  let d := VirtioDev.write32 base VirtioDev.REG_STATUS (Z.lor VirtioDev.STATUS_ACKNOWLEDGE VirtioDev.STATUS_DRIVER) d in
  let '(_features, d) := VirtioDev.read32 base VIRTIO_MMIO_DEVICE_FEATURES d in
  let d := VirtioDev.write32 base VirtioDev.REG_DRIVER_FEATURES 0 d in
  let d := VirtioDev.write32 base VirtioDev.REG_STATUS (Z.lor (Z.lor VirtioDev.STATUS_ACKNOWLEDGE VirtioDev.STATUS_DRIVER) VirtioDev.STATUS_FEATURES_OK) d in
  let '(status, d) := VirtioDev.read32 base VirtioDev.REG_STATUS d in
  if Z.land status VirtioDev.STATUS_FEATURES_OK =? 0 then (Err IoError, d)
  else
    let d := VirtioDev.write32 base VirtioDev.REG_QUEUE_SEL 0 d in
    let '(max_size, d) := VirtioDev.read32 base VirtioDev.REG_QUEUE_NUM_MAX d in
    if max_size =? 0 then (Err IoError, d)
    else
      let d := VirtioDev.write32 base VirtioDev.REG_QUEUE_NUM 8 d in
      match kernel_virt_to_phys (at_DESC x), kernel_virt_to_phys (at_AVAIL x), kernel_virt_to_phys (at_USED x) with
      | Some desc_phys, Some avail_phys, Some used_phys =>
          let d := VirtioDev.go_live base desc_phys avail_phys used_phys d in
          match kernel_virt_to_phys (at_REQ x), kernel_virt_to_phys (at_DATA x), kernel_virt_to_phys (at_STATUS x) with
          | Some req_phys, Some data_phys, Some status_phys => (Ok (mkBlk base req_phys data_phys status_phys), d)
          | _, _, _ => (Err IoError, d)
          end
      | _, _, _ => (Err IoError, d)
      end.

(** The loop that waits for the used index to move on from [start_idx]. *)
Fixpoint poll (n : nat) (start_idx : Z) (buf : list Z) (d : D) : result unit BlockError * list Z * D :=
  match n with
  | O => (Err Timeout, buf, d)
  | S n =>
      let '(w, d) := load USED0 d in
      let current_idx := as_u16 (Z.shiftr w 16) in
      if negb (current_idx =? start_idx) then
        let '(st, d) := load STATUS d in
        if st =? VIRTIO_BLK_S_OK then let '(data, d) := load DATA d in (Ok tt, data, d) else (Err IoError, buf, d)
      else poll n start_idx buf d
  end.

(** The request and its three descriptors. *)
Definition build (v : VirtioBlk) (sector : Z) (d : D) : D :=
  let d := store (set_REQ (Virtio.mkReq Virtio.BLK_T_IN sector)) d in
  let d := store (set_STATUS 0xff) d in
  let d := store (set_DESC 0 (Virtio.mkDesc (req_phys v) 16 Virtio.DESC_F_NEXT 1)) d in
  let d := store (set_DESC 1 (Virtio.mkDesc (data_phys v) 512 (Z.lor Virtio.DESC_F_WRITE Virtio.DESC_F_NEXT) 2)) d in
  store (set_DESC 2 (Virtio.mkDesc (status_phys v) 1 Virtio.DESC_F_WRITE 0)) d.

(** [build], and the entry of the available ring. *)
Definition submit (v : VirtioBlk) (sector : Z) (d : D) : outcome D :=
  let d := build v sector d in
  let '(x, d) := load (fun m => AVAIL m !! 1%nat) d in
  let! avail_idx := expect x in
  let slot := Z.to_nat (2 + avail_idx mod 8) in
  let! _ := expect (AVAIL (peek d) !! slot) in
  let d := store (set_AVAIL slot 0) d in
  let d := store (set_AVAIL 1 ((avail_idx + 1) mod U16)) d in
  Ret (VirtioDev.write32 (base v) VirtioDev.REG_QUEUE_NOTIFY 0 d).

Definition vread_block (v : VirtioBlk) (sector : Z) (buf : list Z) (d : D) : outcome (result unit BlockError * list Z * D) :=
  let! d := submit v sector d in
  let '(w, d) := load USED0 d in
  let start_idx := as_u16 (Z.shiftr w 16) in
  Ret (poll (Z.to_nat 100_000) start_idx buf d).

(** ** The device *)

(** The index of the next entry of the available ring to take. *)
Record vdisk := mkDisk { mem : vmem; taken : Z }.

Definition pending (c : vdisk) : Prop := exists i, AVAIL (mem c) !! 1%nat = Some i /\ i <> taken c.

(** What the device knows of an entry: the chain at its head. *)
Definition chain_at (c : vdisk) : option (list (Z * Z * bool)) :=
  head ← AVAIL (mem c) !! Z.to_nat (2 + taken c mod 8); Some (Virtio.device_chain 8 (DESC (mem c)) head).

Definition used_word (w : Z) : Z := w mod U16 + (as_u16 (Z.shiftr w 16) + 1) mod U16 * U16.

Definition written (data : list Z) (st : Z) (c : vdisk) : vdisk :=
  mkDisk (mkMem (DESC (mem c)) (AVAIL (mem c)) (REQ (mem c)) (USED0 (mem c)) st data) (taken c).

Definition used (data : list Z) (st : Z) (c : vdisk) : vdisk :=
  mkDisk (mkMem (DESC (mem c)) (AVAIL (mem c)) (REQ (mem c)) (used_word (USED0 (mem c))) st data) ((taken c + 1) mod U16).

(** It may write data and status at any time of a request; at its end both are
    written before the used index. *)
Inductive serve (disk : Z -> list Z) (v : VirtioBlk) (c : vdisk) : vdisk -> Prop :=
| sv_work l st : pending c -> serve disk v c (written l st c)
| sv_done : pending c -> chain_at c = Some [(req_phys v, 16, false); (data_phys v, 512, true); (status_phys v, 1, true)] ->
    Virtio.req_type (REQ (mem c)) = Virtio.BLK_T_IN -> serve disk v c (used (disk (Virtio.sector (REQ (mem c)))) VIRTIO_BLK_S_OK c)
| sv_fail l st : pending c -> st <> VIRTIO_BLK_S_OK -> serve disk v c (used l st c).

Class VirtioDisk (v : VirtioBlk) := {
  vctl : D -> vdisk;
  disk : Z -> list Z;
  vd_peek : forall d, peek d = mem (vctl d);
  vd_load : forall d, rtc (serve disk v) (vctl d) (vctl (loaded d));
  vd_store : forall f d, rtc (serve disk v) (mkDisk (f (mem (vctl d))) (taken (vctl d))) (vctl (store f d));
  vd_notify : forall d, rtc (serve disk v) (vctl d) (vctl (VirtioDev.write32 (base v) VirtioDev.REG_QUEUE_NOTIFY 0 d)) }.

Context {v : VirtioBlk} {VD : VirtioDisk v}.

(** No request outstanding, and the statics of the sizes they have. *)
Definition quiet (c : vdisk) : Prop := AVAIL (mem c) !! 1%nat = Some (taken c).

Definition sizes_ok (c : vdisk) : Prop :=
  length (DESC (mem c)) = 8%nat /\ length (AVAIL (mem c)) = 12%nat /\ 0 <= taken c < U16 /\ 0 <= USED0 (mem c) < U32.

Lemma vquiet_stays c c' : quiet c -> rtc (serve disk v) c c' -> c' = c.
Proof. intros Hq. induction 1 as [c|c c1 c2 H1 _ IH]; [done|]. exfalso. unfold quiet in Hq. destruct H1 as [? ? (i & Hi & Hn)|(i & Hi & Hn) _ _|? ? (i & Hi & Hn) _]; congruence. Qed.

Definition used_idx (w : Z) : Z := as_u16 (Z.shiftr w 16).

Lemma used_idx_word w : used_idx (used_word w) = (used_idx w + 1) mod U16.
Proof.
  unfold used_idx, used_word, as_u16. rewrite (Z.shiftr_div_pow2 (_ + _)) by done. change (2 ^ 16) with U16.
  rewrite Z.div_add by done. rewrite (Z.div_small (w mod U16)) by (apply Z.mod_pos_bound; done). rewrite Z.add_0_l, Z.mod_mod by done. done.
Qed.

Lemma succ_moves x : x <> (x + 1) mod U16.
Proof. unfold U16. change (2 ^ 16) with 65536. intros E. assert (H : 0 <= x < 65536) by (rewrite E; apply Z.mod_pos_bound; done). destruct (Z.eq_dec x 65535) as [->|]; [done|]. rewrite Z.mod_small in E; lia. Qed.

Lemma used_idx_moves w : used_idx (used_word w) <> used_idx w.
Proof. rewrite used_idx_word. intros E. symmetry in E. by apply succ_moves in E. Qed.

Definition our_chain : list (Z * Z * bool) := [(req_phys v, 16, false); (data_phys v, 512, true); (status_phys v, 1, true)].

(** A read of sector [s], the used word having been [u]: under way, or ended in
    one of two ways. *)
Definition asked (s u : Z) (c : vdisk) : Prop :=
  chain_at c = Some our_chain /\ REQ (mem c) = Virtio.mkReq Virtio.BLK_T_IN s /\ USED0 (mem c) = u /\ AVAIL (mem c) !! 1%nat = Some ((taken c + 1) mod U16).

Definition served (s u : Z) (c : vdisk) : Prop :=
  quiet c /\ USED0 (mem c) = used_word u /\ ((STATUS (mem c) = VIRTIO_BLK_S_OK /\ DATA (mem c) = disk s) \/ STATUS (mem c) <> VIRTIO_BLK_S_OK).

Lemma asked_served s u c c' : asked s u c \/ served s u c -> rtc (serve disk v) c c' -> asked s u c' \/ served s u c'.
Proof.
  intros H Hs. induction Hs as [c|c c1 c2 H1 _ IH]; [done|]. apply IH. clear IH.
  destruct H as [(Hc & Hr & Hu & Ha)|(Hq & H)]; [|by rewrite (vquiet_stays _ _ Hq (rtc_once _ _ H1)); right].
  destruct H1 as [l st Hp|Hp _ Ht|l st Hp Hst].
  - left. done.
  - right. unfold served, quiet. cbn. rewrite Hu, Hr. split_and!; [done|done|by left].
  - right. unfold served, quiet. cbn. rewrite Hu. split_and!; [done|done|by right].
Qed.

Lemma served_stays s u c c' : served s u c -> rtc (serve disk v) c c' -> c' = c.
Proof. intros [Hq _]. by apply vquiet_stays. Qed.

(** Polling from the index of a read under way. *)
Lemma poll_asked s u n : forall buf d, asked s u (vctl d) \/ served s u (vctl d) ->
  match poll n (used_idx u) buf d with
  | (Ok _, buf', d') => buf' = disk s /\ quiet (vctl d')
  | (Err _, buf', _) => buf' = buf
  end.
Proof.
  induction n as [|n IH]; intros buf d Hd; [done|]. cbn [poll load]. fold (used_idx (USED0 (peek d))). rewrite (vd_peek d).
  pose proof (asked_served _ _ _ _ Hd (vd_load d)) as H1. destruct Hd as [(_ & _ & -> & _)|Hd].
  - rewrite Z.eqb_refl. cbn [negb]. by apply IH.
  - pose proof (served_stays _ _ _ _ Hd (vd_load d)) as E1. destruct Hd as (Hq & Hu & Hst). rewrite Hu, (proj2 (Z.eqb_neq _ _)) by apply used_idx_moves. cbn [negb].
    rewrite (vd_peek (loaded d)), E1. destruct (Z.eqb_spec (STATUS (mem (vctl d))) VIRTIO_BLK_S_OK) as [Es|Es]; [|done].
    destruct Hst as [[_ Hst]|Hst]; [|done]. assert (E2 : vctl (loaded (loaded d)) = vctl d).
    { rewrite <- E1. apply vquiet_stays; [by rewrite E1|apply vd_load]. }
    rewrite vd_peek, E2. split; [done|]. assert (E3 : vctl (loaded (loaded (loaded d))) = vctl d).
    { rewrite <- E2. apply vquiet_stays; [by rewrite E2|apply vd_load]. }
    by rewrite E3.
Qed.

(** Polling from the index of a read already served never sees it. *)
Lemma poll_served s u n : forall buf d, served s u (vctl d) -> exists d', poll n (used_idx (used_word u)) buf d = (Err Timeout, buf, d') /\ vctl d' = vctl d.
Proof.
  induction n as [|n IH]; intros buf d Hd; [by exists d|]. cbn [poll load]. fold (used_idx (USED0 (peek d))). rewrite (vd_peek d).
  pose proof (served_stays _ _ _ _ Hd (vd_load d)) as E1. pose proof Hd as (_ & Hu & _). rewrite Hu, Z.eqb_refl. cbn [negb].
  destruct (IH buf (loaded d)) as (d' & E & E'); [by rewrite E1|]. exists d'. by rewrite E', E1.
Qed.

Lemma store_quiet f d : quiet (mkDisk (f (mem (vctl d))) (taken (vctl d))) -> vctl (store f d) = mkDisk (f (mem (vctl d))) (taken (vctl d)).
Proof. intros Hq. exact (vquiet_stays _ _ Hq (vd_store f d)). Qed.

(** The stores of a request, none outstanding. *)
Lemma build_ok s d : quiet (vctl d) -> sizes_ok (vctl d) -> let c := vctl (build v s d) in
  taken c = taken (vctl d) /\ AVAIL (mem c) = AVAIL (mem (vctl d)) /\ USED0 (mem c) = USED0 (mem (vctl d)) /\ REQ (mem c) = Virtio.mkReq Virtio.BLK_T_IN s /\
  Virtio.device_chain 8 (DESC (mem c)) 0 = our_chain.
Proof.
  intros Hq (Hl & _). cbn zeta. unfold build. set (d1 := store _ d). set (d2 := store _ d1). set (d3 := store _ d2). set (d4 := store _ d3). set (d5 := store _ d4).
  assert (E1 : vctl d1 = _) by (apply store_quiet; exact Hq).
  assert (E2 : vctl d2 = _) by (apply store_quiet; rewrite E1; exact Hq).
  assert (E3 : vctl d3 = _) by (apply store_quiet; rewrite E2, E1; exact Hq).
  assert (E4 : vctl d4 = _) by (apply store_quiet; rewrite E3, E2, E1; exact Hq).
  assert (E5 : vctl d5 = _) by (apply store_quiet; rewrite E4, E3, E2, E1; exact Hq).
  rewrite E5, E4, E3, E2, E1. cbn. split_and!; try done. destruct (DESC (mem (vctl d))) as [|? [|? [|? l]]]; try done.
Qed.

Lemma submit_ok s d : quiet (vctl d) -> sizes_ok (vctl d) ->
  exists d', submit v s d = Ret d' /\ (asked s (USED0 (mem (vctl d))) (vctl d') \/ served s (USED0 (mem (vctl d))) (vctl d')).
Proof.
  intros Hq Hs. unfold submit. destruct (build_ok s d Hq Hs) as (B1 & B2 & B3 & B4 & B5). set (d1 := build v s d) in *. cbn [load]. rewrite (vd_peek d1), B2. destruct Hs as (_ & Hl & Ht & _).
  unfold quiet in Hq. rewrite Hq. cbn [expect obind].
  assert (Q1 : quiet (vctl d1)) by (unfold quiet; by rewrite B2, B1). pose proof (vquiet_stays _ _ Q1 (vd_load d1)) as E2.
  rewrite vd_peek, E2, B2. set (t := taken (vctl d)) in *. set (i := Z.to_nat (2 + t mod 8)). assert (Hi : (2 <= i < 10)%nat) by (unfold i; pose proof (Z.mod_pos_bound t 8); lia).
  destruct (lookup_lt_is_Some_2 (AVAIL (mem (vctl d))) i) as [y Hy]; [lia|]. rewrite Hy. cbn [expect obind]. eexists. split; [done|].
  assert (E3 : vctl (store (set_AVAIL i 0) (loaded d1)) = mkDisk (set_AVAIL i 0 (mem (vctl d1))) t).
  { rewrite (store_quiet (set_AVAIL i 0) (loaded d1)); rewrite E2; [by rewrite B1|]. unfold quiet. cbn. rewrite list_lookup_insert_ne by lia. by rewrite B2, B1. }
  eapply asked_served; [|apply vd_notify]. eapply asked_served; [|apply vd_store]. left. rewrite E3. unfold asked, chain_at, set_AVAIL. cbn [mem taken AVAIL DESC REQ USED0]. rewrite B2, B3, B4. fold i.
  rewrite list_lookup_insert_ne by lia. rewrite list_lookup_insert_eq by lia. cbn [mbind option_bind]. rewrite B5.
  split_and!; [done..|]. apply list_lookup_insert_eq. rewrite length_insert. lia.
Qed.

(** Reading a block of the VirtIO disk with no request outstanding ends without a
    panic; success means that the buffer is the sector and that nothing is
    outstanding; after an error the buffer is as it was. *)
Theorem virtio_poll_spec s buf d (Hq : quiet (vctl d)) (Hs : sizes_ok (vctl d)) :
  exists r buf' d', vread_block v s buf d = Ret (r, buf', d') /\
  match r with Ok _ => buf' = disk s /\ quiet (vctl d') | Err _ => buf' = buf end.
Proof.
  unfold vread_block. destruct (submit_ok s d Hq Hs) as (d1 & -> & H1). cbn [obind load]. rewrite vd_peek. fold (used_idx (USED0 (mem (vctl d1)))).
  set (u := USED0 (mem (vctl d))) in *. pose proof (asked_served _ _ _ _ H1 (vd_load d1)) as H2. destruct H1 as [(_ & _ & -> & _)|H1].
  - pose proof (poll_asked s u (Z.to_nat 100_000) buf (loaded d1) H2) as H. destruct (poll _ _ buf _) as [[r b] d']. exists r, b, d'. split; [done|]. by destruct r.
  - pose proof (served_stays _ _ _ _ H1 (vd_load d1)) as E1. pose proof H1 as (_ & -> & _).
    destruct (poll_served s u (Z.to_nat 100_000) buf (loaded d1)) as (d' & -> & _); [by rewrite E1|]. by eexists _, _, _.
Qed.

(** A disk that has ended the request before the driver first looks at the used
    index is not heard: the read times out, whatever it was. *)
Theorem virtio_poll_misses s buf d d1 (Hq : quiet (vctl d)) (Hs : sizes_ok (vctl d)) (H1 : submit v s d = Ret d1) (Hd : quiet (vctl d1)) :
  exists d', vread_block v s buf d = Ret (Err Timeout, buf, d').
Proof.
  destruct (submit_ok s d Hq Hs) as (d2 & E2 & H2). rewrite H1 in E2. injection E2 as <-. unfold vread_block. rewrite H1. cbn [obind load]. rewrite vd_peek.
  fold (used_idx (USED0 (mem (vctl d1)))). assert (H3 : served s (USED0 (mem (vctl d))) (vctl d1)).
  { destruct H2 as [(_ & _ & _ & Ha)|H2]; [|done]. exfalso. unfold quiet in Hd. rewrite Hd in Ha. injection Ha as Ha. revert Ha. apply succ_moves. }
  pose proof (served_stays _ _ _ _ H3 (vd_load d1)) as E1. pose proof H3 as (_ & -> & _).
  destruct (poll_served s (USED0 (mem (vctl d))) (Z.to_nat 100_000) buf (loaded d1)) as (d' & -> & _); [by rewrite E1|]. by eexists.
Qed.
End driver.

(** ** Bringing the device up *)
Section up.
Context {D : Type} {MD : Mmio D} {VB : VirtioDev.VirtioBus (D := D)}.

Definition new_writes (desc_phys avail_phys used_phys : Z) : list (Z * Z) :=
  VirtioDev.negotiate_writes ++ [(VirtioDev.REG_QUEUE_SEL, 0); (VirtioDev.REG_QUEUE_NUM, 8)] ++ VirtioDev.live_writes desc_phys avail_phys used_phys.

(** A device that the driver reports ready is live with the queue of eight where
    the statics are; of the rules of the specification on writes those of
    [VirtioDev.broken] and no others were broken. *)
Theorem vnew_spec kernel_virt_to_phys x base d v d' (Hk : forall a p, kernel_virt_to_phys a = Some p -> 0 <= p < USIZE) (Hn : vnew kernel_virt_to_phys x base d = (Ok v, d')) :
  exists ws desc_phys avail_phys used_phys, VirtioDev.log d' = VirtioDev.log d ++ VirtioDev.at_base base ws /\
    kernel_virt_to_phys (at_DESC x) = Some desc_phys /\ kernel_virt_to_phys (at_AVAIL x) = Some avail_phys /\ kernel_virt_to_phys (at_USED x) = Some used_phys /\
    (forall max s, exists s', VirtioDev.monitor max s ws = (VirtioDev.broken 8 max, s') /\ VirtioDev.live s' 8 desc_phys avail_phys used_phys) /\
    v = mkBlk base (req_phys v) (data_phys v) (status_phys v) /\ kernel_virt_to_phys (at_REQ x) = Some (req_phys v) /\
    kernel_virt_to_phys (at_DATA x) = Some (data_phys v) /\ kernel_virt_to_phys (at_STATUS x) = Some (status_phys v).
Proof.
  revert Hn. unfold vnew, VirtioDev.write32, VirtioDev.read32.
  match goal with |- context [mmio_read 4 (base + VIRTIO_MMIO_DEVICE_FEATURES) ?d0] => destruct (VirtioDev.vb_read (base + VIRTIO_MMIO_DEVICE_FEATURES) d0) as (v1 & d1 & -> & L1 & _) end.
  match goal with |- context [mmio_read 4 (base + VirtioDev.REG_STATUS) ?d0] => destruct (VirtioDev.vb_read (base + VirtioDev.REG_STATUS) d0) as (v2 & d2 & -> & L2 & _) end.
  destruct (_ =? 0); [done|].
  match goal with |- context [mmio_read 4 (base + VirtioDev.REG_QUEUE_NUM_MAX) ?d0] => destruct (VirtioDev.vb_read (base + VirtioDev.REG_QUEUE_NUM_MAX) d0) as (v3 & d3 & -> & L3 & _) end.
  destruct (_ =? 0); [done|].
  destruct (kernel_virt_to_phys (at_DESC x)) as [dp|] eqn:E1; [|done]. destruct (kernel_virt_to_phys (at_AVAIL x)) as [ap|] eqn:E2; [|done].
  destruct (kernel_virt_to_phys (at_USED x)) as [up|] eqn:E3; [|done]. destruct (kernel_virt_to_phys (at_REQ x)) as [rp|]; [|done].
  destruct (kernel_virt_to_phys (at_DATA x)) as [tp|]; [|done]. destruct (kernel_virt_to_phys (at_STATUS x)) as [sp|]; [|done].
  intros [= <- <-]. exists (new_writes dp ap up), dp, ap, up. split_and!; try done.
  - rewrite VirtioDev.go_live_log, !VirtioDev.vb_write, L3, !VirtioDev.vb_write, L2, !VirtioDev.vb_write, L1, !VirtioDev.vb_write, <- !app_assoc. done.
  - intros max s. apply VirtioDev.writes_observed; eauto.
Qed.
End up.


(** ** Simulated disks *)
Section sim.
Definition sim_blk : VirtioBlk := mkBlk 0x1000_8000 0x100 0x200 0x400.

Definition serve_now (c : vdisk) : vdisk :=
  match AVAIL (mem c) !! 1%nat with
  | Some i =>
      if negb (i =? taken c) && bool_decide (chain_at c = Some [(0x100, 16, false); (0x200, 512, true); (0x400, 1, true)]) && (Virtio.req_type (REQ (mem c)) =? 0)
      then used (sim_card (Virtio.sector (REQ (mem c)))) VIRTIO_BLK_S_OK c else c
  | None => c
  end.

Lemma serve_now_ok c : rtc (serve sim_card sim_blk) c (serve_now c).
Proof.
  unfold serve_now. destruct (AVAIL (mem c) !! 1%nat) as [i|] eqn:Ei; [|by apply rtc_refl]. destruct (_ && _) eqn:E; [|by apply rtc_refl].
  rewrite !andb_true_iff, bool_decide_eq_true in E. destruct E as [[E1 E2] E3]. apply rtc_once, sv_done; [exists i; split; [done|]|done|]; destruct (Z.eqb_spec i (taken c)); try done; by apply Z.eqb_eq.
Qed.

(** One that serves while its memory is read, and one that serves when notified. *)
Definition slow_mmio : Mmio vdisk := {| mmio_read := fun _ _ c => (0, c); mmio_write := fun _ _ _ c => c |}.
Definition fast_mmio : Mmio vdisk := {| mmio_read := fun _ _ c => (0, c); mmio_write := fun _ _ _ c => serve_now c |}.

#[local] Instance sim_memory : SharedMemory := {
  peek c := mem c; loaded c := serve_now c; store f c := mkDisk (f (mem c)) (taken c) }.

#[refine] Definition slow_disk : VirtioDisk (MD := slow_mmio) sim_blk := {| vctl := fun c => c; disk := sim_card |}.
Proof. all: try (intros; apply serve_now_ok); by intros; try apply rtc_refl. Defined.

#[refine] Definition fast_disk : VirtioDisk (MD := fast_mmio) sim_blk := {| vctl := fun c => c; disk := sim_card |}.
Proof. all: try (intros; apply serve_now_ok); by intros; try apply rtc_refl. Defined.

Definition sim_start : vdisk := mkDisk (mkMem (replicate 8 (Virtio.mkDesc 0 0 0 0)) (replicate 12 0) (Virtio.mkReq 0 0) 0 0xff (replicate 512 0)) 0.

Lemma virtio_poll_spec_witness : exists d', vread_block (MD := slow_mmio) sim_blk 5 [] sim_start = Ret (Ok tt, replicate 512 5, d') /\ quiet d'.
Proof.
  destruct (virtio_poll_spec (MD := slow_mmio) (VD := slow_disk) 5 [] sim_start) as (r & b & d' & E & H); [done|by split_and!|]. exists d'.
  assert (Er : r = Ok tt).
  { apply (f_equal (fun o => match o with Ret (r, _, _) => match r with Ok _ => true | _ => false end | _ => false end)) in E. vm_compute in E. destruct r as [[]|]; done. }
  rewrite Er in *. destruct H as [Hb Hq]. rewrite E, Hb. done.
Defined.

Lemma virtio_poll_misses_witness : exists d', vread_block (MD := fast_mmio) sim_blk 5 [] sim_start = Ret (Err Timeout, [], d').
Proof.
  destruct (submit (MD := fast_mmio) sim_blk 5 sim_start) as [d1| |] eqn:E; [|exfalso; vm_compute in E; discriminate..].
  apply (virtio_poll_misses (MD := fast_mmio) (VD := fast_disk) 5 [] sim_start d1); [done|by split_and!|exact E|].
  vm_compute in E. injection E as <-. done.
Defined.

Lemma vnew_spec_witness : exists v d', vnew (MD := VirtioDev.sim_mmio 8) VirtioDev.demo_phys (mkStatics 0x100 0x200 0x300 0x400 0x600 0x500) 0x1000_3000 [] = (Ok v, d') /\
  data_phys v = 0x8040_0600 /\ (VirtioDev.monitor 8 VirtioDev.used_dev (VirtioDev.from_base d')).1 = VirtioDev.broken 8 8.
Proof.
  destruct (vnew (MD := VirtioDev.sim_mmio 8) VirtioDev.demo_phys (mkStatics 0x100 0x200 0x300 0x400 0x600 0x500) 0x1000_3000 []) as [r d'] eqn:E.
  destruct r as [v|]; [|vm_compute in E; discriminate]. pose proof (vnew_spec (VB := VirtioDev.sim_bus 8) _ _ _ _ _ _ VirtioDev.demo_phys_ok E) as (ws & ? & ? & ? & _ & _ & _ & _ & _ & _ & _ & Hd & _).
  exists v, d'. split; [done|]. split; [change (Some 0x8040_0600 = Some (data_phys v)) in Hd; by injection Hd as <-|]. vm_compute in E. injection E as <- <-. vm_compute. reflexivity.
Defined.
End sim.

End VirtioPoll.

