(* ===== verification/Inspect.v ===== *)
(** * Reading a disk by hand

    Models [src/src/demos/disk_inspect.rs]: the partition table of a disk, the
    parameters of its first FAT32 volume and the volume's root directory, read
    through the interface of [src/src/demos/block_device.rs], which the polled
    drivers of [Polled] implement.  What is printed is a list of [line]s: the
    values of the rows; headings and column widths are left out. *)

From S2P Require Import Prelude Memory Bytes Dtb Dispatcher Plic Sd VirtioDev Polled.

Module Inspect.
Import Polled.

(** ** Fields *)
Definition byte_at (buf : list Z) (off : Z) : outcome Z := expect (buf !! Z.to_nat off).

Definition le_u16 (buf : list Z) (off : Z) : outcome Z :=
  let! a := byte_at buf off in
  let! b := byte_at buf (off + 1) in
  Ret (Z.lor a (Z.shiftl b 8)).

Definition le_u32 (buf : list Z) (off : Z) : outcome Z :=
  let! a := byte_at buf off in
  let! b := byte_at buf (off + 1) in
  let! c := byte_at buf (off + 2) in
  let! d := byte_at buf (off + 3) in
  Ret (Z.lor (Z.lor (Z.lor a (Z.shiftl b 8)) (Z.shiftl c 16)) (Z.shiftl d 24)).

Definition partition_type_name (t : Z) : string :=
  if t =? 0x00 then "Empty" else if t =? 0x01 then "FAT12" else if t =? 0x04 then "FAT16 (<32M)" else if t =? 0x05 then "Extended"
  else if t =? 0x06 then "FAT16 (>32M)" else if t =? 0x07 then "HPFS/NTFS/exFAT" else if t =? 0x0B then "FAT32 (CHS)"
  else if t =? 0x0C then "FAT32 (LBA)" else if t =? 0x0E then "FAT16 (LBA)" else if t =? 0x0F then "Extended (LBA)"
  else if t =? 0x82 then "Linux swap" else if t =? 0x83 then "Linux" else if t =? 0x85 then "Linux extended"
  else if t =? 0x8E then "Linux LVM" else if t =? 0xEE then "GPT protective" else if t =? 0xEF then "EFI System" else "Unknown".

(** Sizes in MiB, from 1024 of them on in tenths of a GiB. *)
Inductive unit_name := GiB | MiB.

Definition format_size (sectors : Z) : Z * unit_name :=
  let mb := Z.shiftr (sectors * 512) 20 in
  if 1024 <=? mb then (as_u32 ((mb * 10 + 512) / 1024), GiB) else (as_u32 mb, MiB).

(** ** What is printed *)
Inductive what := MBR | VBR | Dir (sector : Z).

Inductive line :=
| ReadError (x : what) (e : BlockError)
| Signature (sig : Z) (valid : bool)
| Partition (number : Z) (boot : bool) (kind : string) (lba_start sectors : Z) (size : Z * unit_name)
| Volume (label : list Z) (bytes_per_sector sectors_per_cluster cluster_bytes reserved_sectors num_fats fat_size total_sectors root_cluster : Z)
| Regions (data_start root_lba : Z)
| Entry (name attrs : list Z) (cluster_size : option (Z * Z)).

(** ** The root directory *)

(** Bytes up to the first space, into the display name. *)
Fixpoint copy_bytes (bs : list Z) (name : list Z) (len : nat) : outcome (list Z * nat) :=
  match bs with
  | [] => Ret (name, len)
  | b :: bs =>
      if b =? 32 then Ret (name, len)
      else
        let! _ := expect (name !! len) in
        copy_bytes bs (<[len := b]> name) (S len)
  end.

(** The name up to its first space, and after a dot the extension if there is one. *)
Definition display_name (name_bytes ext_bytes : list Z) : outcome (list Z * nat) :=
  let! '(name, len) := copy_bytes name_bytes (replicate 12 0) 0 in
  let! ext0 := byte_at ext_bytes 0 in
  if negb (ext0 =? 32) then
    let! _ := expect (name !! len) in
    copy_bytes ext_bytes (<[len := 46]> name) (S len)
  else Ret (name, len).

Definition attr_str (attr : Z) : list Z :=
  let flag mask c := if negb (Z.land attr mask =? 0) then c else 45 in
  [flag 0x01 82; flag 0x02 72; flag 0x04 83; flag 0x08 86; flag 0x10 68; flag 0x20 65].

Inductive turn := Return | Continue | Show (l : line).

(** The body of the loop over the sixteen entries of a sector. *)
Definition dir_entry (sector_buf : list Z) (entry_idx : Z) : outcome turn :=
  let off := entry_idx * 32 in
  let! first := byte_at sector_buf off in
  if first =? 0x00 then Ret Return
  else if first =? 0xE5 then Ret Continue
  else
    let! attr := byte_at sector_buf (off + 11) in
    if attr =? 0x0F then Ret Continue
    else
      let! name_bytes := slice sector_buf off (off + 8) in
      let! ext_bytes := slice sector_buf (off + 8) (off + 11) in
      let! '(name, len) := display_name name_bytes ext_bytes in
      let! cluster_hi := le_u16 sector_buf (off + 20) in
      let! cluster_lo := le_u16 sector_buf (off + 26) in
      let cluster := Z.lor (Z.shiftl cluster_hi 16) cluster_lo in
      let! size := le_u32 sector_buf (off + 28) in
      let cluster_size := if negb (Z.land attr 0x08 =? 0) then None else Some (cluster, size) in
      Ret (Show (Entry (take len name) (attr_str attr) cluster_size)).

(** [n] entries from [i]; whether the directory is at its end. *)
Fixpoint dir_sector (n : nat) (i : Z) (sector_buf : list Z) : outcome (list line * bool) :=
  match n with
  | O => Ret ([], false)
  | S n =>
      let! t := dir_entry sector_buf i in
      match t with
      | Return => Ret ([], true)
      | Continue => dir_sector n (i + 1) sector_buf
      | Show l => let! '(ls, e) := dir_sector n (i + 1) sector_buf in Ret (l :: ls, e)
      end
  end.

(** ** The device *)
Section device.
Context {D : Type}.

(** [trait BlockDevice] *)
Class BlockDevice := { device_read : Z -> list Z -> D -> outcome (result unit BlockError * list Z * D) }.
Context {BD : BlockDevice}.

(** [n] sectors from the [s]th on. *)
Fixpoint dir_sectors (n : nat) (s root_lba : Z) (d : D) : outcome (list line * D) :=
  match n with
  | O => Ret ([], d)
  | S n =>
      let! lba := u32_add root_lba s in
      let! '(r, sector_buf, d) := device_read lba (replicate 512 0) d in
      match r with
      | Err e => Ret ([ReadError (Dir lba) e], d)
      | Ok _ =>
          let! '(ls, e) := dir_sector 16 0 sector_buf in
          if e then Ret (ls, d) else let! '(ls', d) := dir_sectors n (s + 1) root_lba d in Ret (ls ++ ls', d)
      end
  end.

(** The printable characters at the start of the label. *)
Fixpoint label_of (bs : list Z) : list Z :=
  match bs with
  | [] => []
  | b :: bs => if (0x20 <=? b) && (b <? 0x7F) then b :: label_of bs else []
  end.

Definition u32_sub (a b : Z) : outcome Z := if b <=? a then Ret (a - b) else Panic.

Definition read_fat32_root (part_lba : Z) (d : D) : outcome (list line * D) :=
  let! '(r, vbr, d) := device_read part_lba (replicate 512 0) d in
  match r with
  | Err e => Ret ([ReadError VBR e], d)
  | Ok _ =>
      let! bytes_per_sector := le_u16 vbr 11 in
      let! sectors_per_cluster := byte_at vbr 13 in
      let! reserved_sectors := le_u16 vbr 14 in
      let! num_fats := byte_at vbr 16 in
      let! total_sectors := le_u32 vbr 32 in
      let! fat_size := le_u32 vbr 36 in
      let! root_cluster := le_u32 vbr 44 in
      let! label := slice vbr 71 82 in
      let! cluster_bytes := u32_mul bytes_per_sector sectors_per_cluster in
      let volume := Volume (label_of label) bytes_per_sector sectors_per_cluster cluster_bytes reserved_sectors num_fats fat_size total_sectors root_cluster in
      let! a := u32_add part_lba reserved_sectors in
      let! b := u32_mul num_fats fat_size in
      let! data_start := u32_add a b in
      let! c := u32_sub root_cluster 2 in
      let! e := u32_mul c sectors_per_cluster in
      let! root_lba := u32_add data_start e in
      let sectors_to_read := Z.min sectors_per_cluster 8 in
      let! '(ls, d) := dir_sectors (Z.to_nat sectors_to_read) 0 root_lba d in
      Ret (volume :: Regions data_start root_lba :: ls, d)
  end.

(** The rows of the partition table, and the first FAT32 partition. *)
Fixpoint partitions (n : nat) (i : Z) (buf : list Z) (fat32_lba : option Z) : outcome (list line * option Z) :=
  match n with
  | O => Ret ([], fat32_lba)
  | S n =>
      let base := 446 + i * 16 in
      let! status := byte_at buf base in
      let! ptype := byte_at buf (base + 4) in
      let! lba_start := le_u32 buf (base + 8) in
      let! sectors := le_u32 buf (base + 12) in
      if ptype =? 0x00 then partitions n (i + 1) buf fat32_lba
      else
        let fat32_lba := match fat32_lba with
                         | None => if (ptype =? 0x0B) || (ptype =? 0x0C) then Some lba_start else None
                         | Some _ => fat32_lba
                         end in
        let row := Partition (i + 1) (status =? 0x80) (partition_type_name ptype) lba_start sectors (format_size sectors) in
        let! '(ls, f) := partitions n (i + 1) buf fat32_lba in
        Ret (row :: ls, f)
  end.

Definition inspect_disk (d : D) : outcome (list line * D) :=
  let! '(r, buf, d) := device_read 0 (replicate 512 0) d in
  match r with
  | Err e => Ret ([ReadError MBR e], d)
  | Ok _ =>
      let! hi := byte_at buf 511 in
      let! lo := byte_at buf 510 in
      let sig := Z.lor (Z.shiftl hi 8) lo in
      if negb (sig =? 0xAA55) then Ret ([Signature sig false], d)
      else
        let! '(rows, fat32_lba) := partitions 4 0 buf None in
        match fat32_lba with
        | Some lba => let! '(ls, d) := read_fat32_root lba d in Ret (Signature sig true :: rows ++ ls, d)
        | None => Ret (Signature sig true :: rows, d)
        end
  end.

(** ** Little-endian fields *)
Lemma byte_at_app pre x post off : off = Z.of_nat (length pre) -> byte_at (pre ++ x :: post) off = Ret x.
Proof. intros ->. unfold byte_at. by rewrite Nat2Z.id, list_lookup_middle. Qed.

Lemma le_u16_at pre x post off : 0 <= x < U16 -> off = Z.of_nat (length pre) -> le_u16 (pre ++ to_le 2 x ++ post) off = Ret x.
Proof.
  intros Hx Ho. unfold le_u16, U16 in *. cbn [to_le app]. rewrite (byte_at_app pre) by done. cbn [obind].
  set (a := x mod 256). set (b := x / 256 mod 256). rewrite (app_assoc pre [a] (b :: post) : pre ++ a :: b :: post = (pre ++ [a]) ++ b :: post).
  rewrite byte_at_app by (rewrite length_app; cbn; lia). cbn [obind]. unfold a, b. rewrite lor_add by (change (2 ^ 8) with 256; lia). f_equal. change (2 ^ 8) with 256. lia.
Qed.

Lemma le_u32_at pre x post off : 0 <= x < U32 -> off = Z.of_nat (length pre) -> le_u32 (pre ++ to_le 4 x ++ post) off = Ret x.
Proof.
  intros Hx Ho. unfold le_u32, U32 in *. cbn [to_le app]. rewrite (byte_at_app pre) by done. cbn [obind].
  set (b := x / 256 mod 256). set (c := x / 256 / 256 mod 256). set (e := x / 256 / 256 / 256 mod 256). set (a := x mod 256).
  rewrite (app_assoc pre [a] (b :: c :: e :: post) : pre ++ a :: b :: c :: e :: post = (pre ++ [a]) ++ b :: c :: e :: post).
  rewrite byte_at_app by (rewrite length_app; cbn; lia). cbn [obind].
  rewrite (app_assoc (pre ++ [a]) [b] (c :: e :: post) : (pre ++ [a]) ++ b :: c :: e :: post = ((pre ++ [a]) ++ [b]) ++ c :: e :: post).
  rewrite byte_at_app by (rewrite !length_app; cbn; lia). cbn [obind].
  rewrite (app_assoc ((pre ++ [a]) ++ [b]) [c] (e :: post) : ((pre ++ [a]) ++ [b]) ++ c :: e :: post = (((pre ++ [a]) ++ [b]) ++ [c]) ++ e :: post).
  rewrite byte_at_app by (rewrite !length_app; cbn; lia). cbn [obind]. f_equal.
  rewrite (lor_add a b 8) by (change (2 ^ 8) with 256; lia). change (2 ^ 8) with 256. rewrite (lor_add (a + b * 256) c 16) by (change (2 ^ 16) with 65536; lia).
  change (2 ^ 16) with 65536. rewrite (lor_add (a + b * 256 + c * 65536) e 24) by (change (2 ^ 24) with 16777216; lia).
  change (2 ^ 16) with 65536. change (2 ^ 24) with 16777216. unfold a, b, c, e. lia.
Qed.

(** ** What is on the volume *)

(** An entry of the directory: free, which ends it; deleted; a part of a long
    name; or a short name with its attributes, first cluster and size, and the
    two fields the program does not look at. *)
Inductive dirent :=
| DFree (rest : list Z)
| DDeleted (rest : list Z)
| DLong (first : Z) (a b : list Z)
| DShort (base ext : list Z) (attr : Z) (times : list Z) (cluster : Z) (times' : list Z) (size : Z).

Definition pad (n : nat) (l : list Z) : list Z := l ++ replicate (n - length l) 32.

Definition encode (e : dirent) : list Z :=
  match e with
  | DFree rest => 0 :: rest
  | DDeleted rest => 0xE5 :: rest
  | DLong first a b => first :: a ++ 0x0F :: b
  | DShort base ext attr t cluster t' size =>
      pad 8 base ++ pad 3 ext ++ attr :: t ++ to_le 2 (cluster / U16) ++ t' ++ to_le 2 (cluster mod U16) ++ to_le 4 size
  end.

Definition dirent_ok (e : dirent) : Prop :=
  match e with
  | DFree rest | DDeleted rest => length rest = 31%nat
  | DLong first a b => first <> 0 /\ first <> 0xE5 /\ length a = 10%nat /\ length b = 20%nat
  | DShort base ext attr t cluster t' size =>
      (length base <= 8)%nat /\ (length ext <= 3)%nat /\ Forall (fun b => b <> 32) base /\ Forall (fun b => b <> 32) ext /\
      head base <> Some 0 /\ head base <> Some 0xE5 /\ attr <> 0x0F /\ length t = 8%nat /\ length t' = 4%nat /\ 0 <= cluster < U32 /\ 0 <= size < U32
  end.

(** The row of a short name. *)
Definition shown (base ext : list Z) (attr cluster size : Z) : line :=
  Entry (base ++ match ext with [] => [] | _ => 46 :: ext end) (attr_str attr) (if negb (Z.land attr 0x08 =? 0) then None else Some (cluster, size)).

Fixpoint listing (es : list dirent) : list line :=
  match es with
  | [] | DFree _ :: _ => []
  | DShort base ext attr _ cluster _ size :: es => shown base ext attr cluster size :: listing es
  | _ :: es => listing es
  end.

Lemma dirent_len e : dirent_ok e -> length (encode e) = 32%nat.
Proof.
  destruct e as [r|r|f a b|base ext attr t cl t' sz]; cbn [dirent_ok encode]; [cbn; lia|cbn; lia| |].
  - intros (_ & _ & Ha & Hb). cbn. rewrite length_app. cbn. lia.
  - intros (H1 & H2 & _ & _ & _ & _ & _ & H3 & H4 & _ & _). unfold pad. repeat (rewrite length_app || cbn [length] || rewrite length_replicate || rewrite to_le_len). lia.
Qed.

(** ** Display names *)
Lemma copy_bytes_ok l : forall rest name len, Forall (fun b => b <> 32) l -> (rest = [] \/ exists r, rest = 32 :: r) -> (len + length l <= length name)%nat ->
  exists name', copy_bytes (l ++ rest) name len = Ret (name', (len + length l)%nat) /\ length name' = length name /\ take (len + length l) name' = take len name ++ l.
Proof.
  induction l as [|b l IH]; intros rest name len Hl Hr Hn.
  - exists name. cbn [app length]. rewrite Nat.add_0_r, app_nil_r. split; [|done]. by destruct Hr as [->|[r ->]].
  - apply Forall_cons in Hl as [Hb Hl]. cbn [app copy_bytes length] in *. rewrite (proj2 (Z.eqb_neq b 32) Hb).
    destruct (lookup_lt_is_Some_2 name len) as [y Hy]; [lia|]. rewrite Hy. cbn [expect obind].
    destruct (IH rest (<[len := b]> name) (S len) Hl Hr) as (name' & E & L & T); [rewrite length_insert; lia|]. rewrite length_insert in L.
    exists name'. replace (len + S (length l))%nat with (S len + length l)%nat by lia. split_and!; [done|done|]. rewrite T.
    rewrite (take_S_r _ _ b) by (apply list_lookup_insert_eq; lia). rewrite take_insert_ge by lia. by rewrite <- app_assoc.
Qed.

(** ** An entry of a sector is the entry by itself *)
Section chunk.
Context (pre e post : list Z) (i : Z).
Hypothesis (Hpre : Z.of_nat (length pre) = i * 32) (He : length e = 32%nat).

Lemma byte_at_chunk k : 0 <= k < 32 -> byte_at (pre ++ e ++ post) (i * 32 + k) = byte_at e (0 * 32 + k).
Proof.
  intros Hk. unfold byte_at. rewrite lookup_app_r by lia. rewrite lookup_app_l by lia. do 2 f_equal. lia.
Qed.

Lemma slice_chunk a b : 0 <= a <= b -> b <= 32 -> slice (pre ++ e ++ post) (i * 32 + a) (i * 32 + b) = slice e (0 * 32 + a) (0 * 32 + b).
Proof.
  intros Hab Hb. unfold slice. rewrite !length_app. rewrite !(proj2 (Z.leb_le _ _)) by lia. cbn [andb]. f_equal.
  replace (Z.to_nat (i * 32 + a)) with (length pre + Z.to_nat (0 * 32 + a))%nat by lia. rewrite <- drop_drop, drop_app_length.
  rewrite drop_app_le by lia. rewrite take_app_le by (rewrite length_drop; lia). f_equal. lia.
Qed.

Lemma dir_entry_chunk : dir_entry (pre ++ e ++ post) i = dir_entry e 0.
Proof.
  unfold dir_entry, le_u16, le_u32. cbn zeta. rewrite <- (Z.add_0_r (i * 32)), <- (Z.add_0_r (0 * 32)). rewrite <- !Z.add_assoc.
  rewrite !byte_at_chunk by lia. rewrite !slice_chunk by lia. done.
Qed.
End chunk.

Lemma pad_len n l : (length l <= n)%nat -> length (pad n l) = n.
Proof. intros H. unfold pad. rewrite length_app, length_replicate. lia. Qed.

Lemma pad_rest n (l : list Z) : replicate (n - length l) 32 = [] \/ exists r, replicate (n - length l) 32 = 32 :: r.
Proof. destruct (n - length l)%nat; [by left|right]. by eexists. Qed.

(** The display name of a base and an extension. *)
Lemma display_ok base ext : (length base <= 8)%nat -> (length ext <= 3)%nat -> Forall (fun b => b <> 32) base -> Forall (fun b => b <> 32) ext ->
  exists name len, display_name (pad 8 base) (pad 3 ext) = Ret (name, len) /\
  take len name = base ++ match ext with [] => [] | _ => 46 :: ext end.
Proof.
  intros Hb He Fb Fe. destruct (copy_bytes_ok base (replicate (8 - length base) 32) (replicate 12 0) 0 Fb (pad_rest 8 base)) as (n1 & E1 & L1 & T1); [cbn; lia|].
  unfold display_name. unfold pad at 1. rewrite E1. cbn [obind]. cbn [Nat.add] in *. destruct ext as [|x ext].
  - cbn. exists n1, (length base). by rewrite T1, app_nil_r.
  - apply Forall_cons in Fe as Fe'. destruct Fe' as [Hx _]. change (byte_at (pad 3 (x :: ext)) 0) with (Ret x). cbn [obind]. rewrite (proj2 (Z.eqb_neq x 32) Hx). cbn [negb].
    destruct (lookup_lt_is_Some_2 n1 (length base)) as [y Hy]; [rewrite L1; cbn; lia|]. rewrite Hy. cbn [expect obind].
    destruct (copy_bytes_ok (x :: ext) (replicate (3 - length (x :: ext)) 32) (<[length base := 46]> n1) (S (length base)) Fe (pad_rest 3 _)) as (n2 & E2 & L2 & T2).
    { rewrite length_insert, L1. cbn in *. lia. }
    exists n2, (S (length base) + length (x :: ext))%nat. split; [exact E2|]. rewrite T2. rewrite (take_S_r _ _ 46) by (apply list_lookup_insert_eq; rewrite L1; cbn; lia).
    rewrite take_insert_ge by lia. rewrite T1, <- app_assoc. done.
Qed.

Lemma dir_entry_encode e : dirent_ok e -> dir_entry (encode e) 0 = Ret (
  match e with
  | DFree _ => Return
  | DShort base ext attr _ cluster _ size => Show (shown base ext attr cluster size)
  | _ => Continue
  end).
Proof.
  destruct e as [r|r|f a b|base ext attr t cl t' sz]; cbn [dirent_ok]; [done|done| |].
  - intros (H0 & H5 & Ha & Hb). unfold dir_entry. change (byte_at (encode (DLong f a b)) (0 * 32)) with (Ret f). cbn [obind].
    rewrite (proj2 (Z.eqb_neq f 0) H0), (proj2 (Z.eqb_neq f 0xE5) H5). cbn [encode]. rewrite app_comm_cons, byte_at_app by (cbn; lia). done.
  - intros (Lb & Le & Fb & Fe & H0 & H5 & Hat & Lt & Lt' & Hcl & Hsz). unfold dir_entry.
    assert (Hf : exists f, byte_at (encode (DShort base ext attr t cl t' sz)) (0 * 32) = Ret f /\ f <> 0 /\ f <> 0xE5).
    { destruct base as [|f base]; [by exists 32|]. exists f. split; [done|]. cbn in H0, H5. split; congruence. }
    destruct Hf as (f & -> & F0 & F5). cbn [obind]. rewrite (proj2 (Z.eqb_neq f 0) F0), (proj2 (Z.eqb_neq f 0xE5) F5). cbn [encode].
    pose proof (pad_len 8 base Lb) as P1. pose proof (pad_len 3 ext Le) as P2. set (B := pad 8 base) in *. set (X := pad 3 ext) in *.
    set (C1 := to_le 2 (cl / U16)). set (C2 := to_le 2 (cl mod U16)). set (S4 := to_le 4 sz).
    assert (LC1 : length C1 = 2%nat) by apply to_le_len. assert (LC2 : length C2 = 2%nat) by apply to_le_len.
    rewrite (app_assoc B X), byte_at_app by (rewrite length_app; lia). cbn [obind]. rewrite (proj2 (Z.eqb_neq attr 0x0F) Hat).
    rewrite <- (app_assoc B X). rewrite (slice_app [] B : forall l3 a b, _ -> _ -> slice (B ++ l3) a b = Ret B) by (rewrite ?P1; cbn; lia). cbn [obind]. rewrite (slice_app B X) by lia. cbn [obind].
    destruct (display_ok base ext Lb Le Fb Fe) as (name & len & Hd & Hn). fold B X in Hd. rewrite Hd. cbn [obind].
    rewrite !(app_comm_cons t), !(app_assoc B), !(app_assoc (B ++ X)). rewrite (le_u16_at ((B ++ X) ++ attr :: t) (cl / U16)) by (unfold U16, U32 in *; rewrite ?length_app; cbn; lia). cbn [obind].
    rewrite !(app_assoc _ C1), !(app_assoc _ t'). rewrite (le_u16_at _ (cl mod U16)) by (unfold U16 in *; rewrite ?length_app; cbn; lia). cbn [obind].
    rewrite !(app_assoc _ C2). rewrite <- (app_nil_r S4) at 1. rewrite (le_u32_at _ sz) by (rewrite ?length_app; cbn; lia). cbn [obind].
    unfold shown. rewrite Hn. do 4 f_equal. rewrite Z.lor_comm, lor_add by (unfold U16 in *; lia). destruct (negb _); [done|]. do 3 f_equal. unfold U16. lia.
Qed.

(** ** Sectors of entries *)
Definition is_free (e : dirent) : bool := match e with DFree _ => true | _ => false end.

Lemma listing_app a b : listing (a ++ b) = if existsb is_free a then listing a else listing a ++ listing b.
Proof. induction a as [|e a IH]; [done|]. destruct e; cbn [app listing existsb is_free orb]; [done|done|done|]. rewrite IH. by destruct (existsb is_free a). Qed.

Lemma dir_sector_encode es : forall pre i, Forall dirent_ok es -> 0 <= i -> Z.of_nat (length pre) = i * 32 ->
  dir_sector (length es) i (pre ++ (es ≫= encode)) = Ret (listing es, existsb is_free es).
Proof.
  induction es as [|e es IH]; intros pre i Hes Hi Hp; [done|]. apply Forall_cons in Hes as [He Hes]. cbn [length dir_sector]. rewrite bind_cons.
  pose proof (dirent_len e He) as Le. rewrite (dir_entry_chunk pre (encode e) _ i Hp Le), (dir_entry_encode e He). cbn [obind].
  assert (IH' := IH (pre ++ encode e) (i + 1) Hes ltac:(lia) ltac:(rewrite length_app; lia)). rewrite <- app_assoc in IH'.
  destruct e; [done|exact IH'|exact IH'|]. rewrite IH'. done.
Qed.

(** ** The device *)
Context (disk : Z -> list Z).

(** A device in order ends every read, and a successful one gives the sector. *)
Class Reads := {
  dev_ok : D -> Prop;
  dev_read : forall s buf d, 0 <= s < U32 -> length buf = 512%nat -> dev_ok d -> exists r buf' d', device_read s buf d = Ret (r, buf', d') /\ dev_ok d' /\ (r = Ok tt -> buf' = disk s) }.
Context {RD : Reads}.

(** What is printed: all there is, or a part of it up to a read that failed. *)
Definition reported (expected out : list line) : Prop :=
  out = expected \/ exists p x e, out = p ++ [ReadError x e] /\ p `prefix_of` expected.

Lemma reported_app l expected out : reported expected out -> reported (l ++ expected) (l ++ out).
Proof.
  intros [->|(p & x & e & -> & Hp)]; [by left|]. right. exists (l ++ p), x, e. split; [by rewrite app_assoc|]. by apply prefix_app.
Qed.

Lemma dir_sectors_ok root_lba dirs : forall s d, dev_ok d -> 0 <= root_lba -> 0 <= s -> root_lba + s + Z.of_nat (length dirs) <= U32 ->
  Forall (fun es => length es = 16%nat /\ Forall dirent_ok es) dirs ->
  (forall j es, dirs !! j = Some es -> disk (root_lba + s + Z.of_nat j) = es ≫= encode) ->
  exists out d', dir_sectors (length dirs) s root_lba d = Ret (out, d') /\ dev_ok d' /\ reported (listing (concat dirs)) out.
Proof.
  induction dirs as [|es dirs IH]; intros s d Hd Hr Hs Hb Hf Hon; [by exists [], d; split; [|split; [|left]]|]. apply Forall_cons in Hf as [[L16 Hes] Hf].
  cbn [length dir_sectors] in *. rewrite u32_add_ok by lia. cbn [obind].
  destruct (dev_read (root_lba + s) (replicate 512 0) d) as (r & buf & d1 & -> & D1 & Hok); [lia|done|done|]. cbn [obind]. destruct r as [[]|e].
  - rewrite (Hok eq_refl). pose proof (Hon 0%nat es eq_refl) as H0. rewrite Z.add_0_r in H0. rewrite H0. assert (E := dir_sector_encode es [] 0 Hes ltac:(done) ltac:(done)). rewrite L16 in E. cbn [app] in E. rewrite E. cbn [obind].
    cbn [concat]. rewrite listing_app. destruct (existsb is_free es); [by eexists _, d1; split; [|split; [|left]]|].
    destruct (IH (s + 1) d1 D1) as (out & d2 & -> & D2 & Ho); [lia|lia|lia|done| |].
    { intros j es' Hj. specialize (Hon (S j) es' Hj). by replace (root_lba + (s + 1) + Z.of_nat j) with (root_lba + s + Z.of_nat (S j)) by lia. }
    cbn [obind]. eexists _, d2. split_and!; [done|done|]. by apply reported_app.
  - eexists _, d1. split_and!; [done|done|]. right. eexists [], _, _. split; [done|]. apply prefix_nil.
Qed.

(** ** The volume *)
Record volume := mkVolume {
  v_jump : list Z; v_bytes_per_sector : Z; v_sectors_per_cluster : Z; v_reserved : Z; v_fats : Z; v_gap1 : list Z;
  v_total : Z; v_fat_size : Z; v_gap2 : list Z; v_root_cluster : Z; v_gap3 : list Z; v_label : list Z; v_code : list Z }.

Definition encode_vbr (v : volume) : list Z :=
  v_jump v ++ to_le 2 (v_bytes_per_sector v) ++ v_sectors_per_cluster v :: to_le 2 (v_reserved v) ++ v_fats v :: v_gap1 v ++
  to_le 4 (v_total v) ++ to_le 4 (v_fat_size v) ++ v_gap2 v ++ to_le 4 (v_root_cluster v) ++ v_gap3 v ++ v_label v ++ v_code v.

Definition volume_ok (v : volume) : Prop :=
  length (v_jump v) = 11%nat /\ length (v_gap1 v) = 15%nat /\ length (v_gap2 v) = 4%nat /\ length (v_gap3 v) = 23%nat /\ length (v_label v) = 11%nat /\
  0 <= v_bytes_per_sector v < U16 /\ byte_ok (v_sectors_per_cluster v) /\ 0 <= v_reserved v < U16 /\ byte_ok (v_fats v) /\
  0 <= v_total v < U32 /\ 0 <= v_fat_size v < U32 /\ 0 <= v_root_cluster v < U32.

Definition data_start (part_lba : Z) (v : volume) : Z := part_lba + v_reserved v + v_fats v * v_fat_size v.
Definition root_lba (part_lba : Z) (v : volume) : Z := data_start part_lba v + (v_root_cluster v - 2) * v_sectors_per_cluster v.

(** The sectors of the root cluster that are read have numbers of 32 bits, and
    clusters are counted from two. *)
Definition in_range (part_lba : Z) (v : volume) : Prop :=
  2 <= v_root_cluster v /\ root_lba part_lba v < U32 /\ root_lba part_lba v + Z.min (v_sectors_per_cluster v) 8 <= U32.

Definition volume_lines (part_lba : Z) (v : volume) : list line :=
  [Volume (label_of (v_label v)) (v_bytes_per_sector v) (v_sectors_per_cluster v) (v_bytes_per_sector v * v_sectors_per_cluster v) (v_reserved v) (v_fats v)
     (v_fat_size v) (v_total v) (v_root_cluster v);
   Regions (data_start part_lba v) (root_lba part_lba v)].

(** A field of known place. *)
Lemma in_field {A} (f : list Z -> Z -> outcome A) (r : A) pre x post b off : b = pre ++ x ++ post -> off = Z.of_nat (length pre) ->
  (forall pre post, f (pre ++ x ++ post) (Z.of_nat (length pre)) = Ret r) -> f b off = Ret r.
Proof. by intros -> -> H. Qed.

Lemma byte_field x : forall pre post, byte_at (pre ++ [x] ++ post) (Z.of_nat (length pre)) = Ret x.
Proof. intros. by apply byte_at_app. Qed.

Lemma u16_field x : 0 <= x < U16 -> forall pre post, le_u16 (pre ++ to_le 2 x ++ post) (Z.of_nat (length pre)) = Ret x.
Proof. intros Hx pre post. by apply le_u16_at. Qed.

Lemma u32_field x : 0 <= x < U32 -> forall pre post, le_u32 (pre ++ to_le 4 x ++ post) (Z.of_nat (length pre)) = Ret x.
Proof. intros Hx pre post. by apply le_u32_at. Qed.

(** What the fields of the sector are read as. *)
Lemma vbr_fields v : volume_ok v -> let b := encode_vbr v in
  le_u16 b 11 = Ret (v_bytes_per_sector v) /\ byte_at b 13 = Ret (v_sectors_per_cluster v) /\ le_u16 b 14 = Ret (v_reserved v) /\ byte_at b 16 = Ret (v_fats v) /\
  le_u32 b 32 = Ret (v_total v) /\ le_u32 b 36 = Ret (v_fat_size v) /\ le_u32 b 44 = Ret (v_root_cluster v) /\ slice b 71 82 = Ret (v_label v).
Proof.
  intros (L1 & L2 & L3 & L4 & L5 & H1 & H2 & H3 & H4 & H5 & H6 & H7). cbn zeta. unfold encode_vbr.
  set (T1 := to_le 2 (v_bytes_per_sector v)). set (T2 := to_le 2 (v_reserved v)). set (T3 := to_le 4 (v_total v)). set (T4 := to_le 4 (v_fat_size v)). set (T5 := to_le 4 (v_root_cluster v)).
  assert (E1 : length T1 = 2%nat) by apply to_le_len. assert (E2 : length T2 = 2%nat) by apply to_le_len. assert (E3 : length T3 = 4%nat) by apply to_le_len.
  assert (E4 : length T4 = 4%nat) by apply to_le_len. assert (E5 : length T5 = 4%nat) by apply to_le_len.
  assert (Len : forall (a b : list Z), length (a ++ b) = (length a + length b)%nat) by (intros; apply length_app).
  set (P1 := v_jump v ++ T1). set (P2 := P1 ++ [v_sectors_per_cluster v]). set (P3 := P2 ++ T2). set (P4 := (P3 ++ [v_fats v]) ++ v_gap1 v).
  set (P5 := P4 ++ T3). set (P6 := (P5 ++ T4) ++ v_gap2 v). set (P7 := (P6 ++ T5) ++ v_gap3 v).
  assert (LP1 : length P1 = 13%nat) by (unfold P1; rewrite Len; lia). assert (LP2 : length P2 = 14%nat) by (unfold P2; rewrite Len; cbn; lia).
  assert (LP3 : length P3 = 16%nat) by (unfold P3; rewrite Len; lia). assert (LP4 : length P4 = 32%nat) by (unfold P4; rewrite !Len; cbn; lia).
  assert (LP5 : length P5 = 36%nat) by (unfold P5; rewrite Len; lia). assert (LP6 : length P6 = 44%nat) by (unfold P6; rewrite !Len; lia).
  assert (LP7 : length P7 = 71%nat) by (unfold P7; rewrite !Len; lia).
  split_and!.
  - eapply (in_field _ _ (v_jump v) T1); [reflexivity|lia|by apply u16_field].
  - eapply (in_field _ _ P1 [v_sectors_per_cluster v]); [unfold P1; rewrite <- !app_assoc; reflexivity|lia|apply byte_field].
  - eapply (in_field _ _ P2 T2); [unfold P2, P1; rewrite <- !app_assoc; reflexivity|lia|by apply u16_field].
  - eapply (in_field _ _ P3 [v_fats v]); [unfold P3, P2, P1; rewrite <- !app_assoc; reflexivity|lia|apply byte_field].
  - eapply (in_field _ _ P4 T3); [unfold P4, P3, P2, P1; rewrite <- !app_assoc; reflexivity|lia|by apply u32_field].
  - eapply (in_field _ _ P5 T4); [unfold P5, P4, P3, P2, P1; rewrite <- !app_assoc; reflexivity|lia|by apply u32_field].
  - eapply (in_field _ _ P6 T5); [unfold P6, P5, P4, P3, P2, P1; rewrite <- !app_assoc; reflexivity|lia|by apply u32_field].
  - match goal with |- slice ?b _ _ = _ => assert (E : b = P7 ++ v_label v ++ v_code v) by (unfold P7, P6, P5, P4, P3, P2, P1; rewrite <- !app_assoc; reflexivity); rewrite E end.
    apply slice_app; lia.
Qed.

(** The root directory is on the disk. *)
Definition root_stored (part_lba : Z) (v : volume) (dirs : list (list dirent)) : Prop :=
  disk part_lba = encode_vbr v /\ Z.of_nat (length dirs) = Z.min (v_sectors_per_cluster v) 8 /\
  Forall (fun es => length es = 16%nat /\ Forall dirent_ok es) dirs /\
  forall j es, dirs !! j = Some es -> disk (root_lba part_lba v + Z.of_nat j) = es ≫= encode.

Lemma read_fat32_root_ok part_lba v dirs d : dev_ok d -> 0 <= part_lba < U32 -> volume_ok v -> in_range part_lba v -> root_stored part_lba v dirs ->
  exists out d', read_fat32_root part_lba d = Ret (out, d') /\ dev_ok d' /\ reported (volume_lines part_lba v ++ listing (concat dirs)) out.
Proof.
  intros Hd Hp Hv (Hc & Hr & Hr') (Hvbr & Hn & Hf & Hon). unfold read_fat32_root.
  destruct (dev_read part_lba (replicate 512 0) d) as (r & buf & d1 & -> & D1 & Hok); [done|done|done|]. cbn [obind].
  destruct r as [[]|e]; [|eexists _, d1; split_and!; [done|done|]; right; eexists [], _, _; split; [done|apply prefix_nil]].
  rewrite (Hok eq_refl), Hvbr. destruct (vbr_fields v Hv) as (-> & -> & -> & -> & -> & -> & -> & ->). cbn [obind].
  destruct Hv as (_ & _ & _ & _ & _ & H1 & H2 & H3 & H4 & H5 & H6 & H7). unfold byte_ok in *.
  set (rl := root_lba part_lba v) in *. set (ds := data_start part_lba v).
  assert (Hds : ds = part_lba + v_reserved v + v_fats v * v_fat_size v) by done.
  assert (Hrl : rl = ds + (v_root_cluster v - 2) * v_sectors_per_cluster v) by done.
  assert (0 <= v_fats v * v_fat_size v) by (apply Z.mul_nonneg_nonneg; lia).
  assert (0 <= (v_root_cluster v - 2) * v_sectors_per_cluster v) by (apply Z.mul_nonneg_nonneg; lia).
  assert (Hcb : v_bytes_per_sector v * v_sectors_per_cluster v < U32).
  { unfold U16 in H1. unfold U32. apply (Z.le_lt_trans _ (65535 * 255)); [apply Z.mul_le_mono_nonneg; lia|done]. }
  assert (0 <= Z.min (v_sectors_per_cluster v) 8) by lia.
  rewrite u32_mul_ok by done. cbn [obind]. rewrite u32_add_ok by lia. cbn [obind]. rewrite u32_mul_ok by lia. cbn [obind]. rewrite u32_add_ok by lia. cbn [obind].
  unfold u32_sub. rewrite (proj2 (Z.leb_le _ _) Hc). cbn [obind]. rewrite u32_mul_ok by lia. cbn [obind]. rewrite <- Hds, u32_add_ok by lia. rewrite <- Hrl. cbn [obind].
  replace (Z.to_nat (Z.min (v_sectors_per_cluster v) 8)) with (length dirs) by lia.
  destruct (dir_sectors_ok rl dirs 0 d1 D1) as (out & d2 & -> & D2 & Ho); [lia|done|lia|done| |].
  { intros j es Hj. rewrite Z.add_0_r. by apply Hon. }
  cbn [obind]. eexists _, d2. split_and!; [done|done|]. by apply (reported_app (volume_lines part_lba v)).
Qed.

(** ** The partition table *)
Record part := mkPart { p_status : Z; p_chs : list Z; p_type : Z; p_chs' : list Z; p_lba : Z; p_sectors : Z }.

Definition encode_part (p : part) : list Z := p_status p :: p_chs p ++ p_type p :: p_chs' p ++ to_le 4 (p_lba p) ++ to_le 4 (p_sectors p).

Definition part_ok (p : part) : Prop := length (p_chs p) = 3%nat /\ length (p_chs' p) = 3%nat /\ 0 <= p_lba p < U32 /\ 0 <= p_sectors p < U32.

Definition encode_mbr (code : list Z) (ps : list part) : list Z := code ++ (ps ≫= encode_part) ++ [0x55; 0xAA].

Definition is_fat32 (p : part) : bool := (p_type p =? 0x0B) || (p_type p =? 0x0C).

(** The rows of the partitions in use, numbered from [i + 1]. *)
Fixpoint part_rows (i : Z) (ps : list part) : list line :=
  match ps with
  | [] => []
  | p :: ps =>
      if p_type p =? 0 then part_rows (i + 1) ps
      else Partition (i + 1) (p_status p =? 0x80) (partition_type_name (p_type p)) (p_lba p) (p_sectors p) (format_size (p_sectors p)) :: part_rows (i + 1) ps
  end.

Definition first_fat32 (ps : list part) : option Z := p_lba <$> head (filter (fun p => is_fat32 p = true) ps).

Lemma encode_part_len p : part_ok p -> length (encode_part p) = 16%nat.
Proof. intros (H1 & H2 & _). unfold encode_part. cbn [length]. rewrite length_app. cbn [length]. rewrite !length_app, !to_le_len. lia. Qed.

Lemma part_fields pre p post : part_ok p -> let b := pre ++ encode_part p ++ post in let base := Z.of_nat (length pre) in
  byte_at b base = Ret (p_status p) /\ byte_at b (base + 4) = Ret (p_type p) /\ le_u32 b (base + 8) = Ret (p_lba p) /\ le_u32 b (base + 12) = Ret (p_sectors p).
Proof.
  intros (H1 & H2 & H3 & H4). cbn zeta. unfold encode_part. rewrite <- app_comm_cons, <- app_assoc, <- app_comm_cons, <- !app_assoc. split_and!.
  - by apply byte_at_app.
  - eapply (in_field _ _ (pre ++ p_status p :: p_chs p) [p_type p]); [rewrite <- !app_assoc; reflexivity|rewrite length_app; cbn; lia|apply byte_field].
  - eapply (in_field _ _ (pre ++ p_status p :: p_chs p ++ p_type p :: p_chs' p) (to_le 4 (p_lba p))); [rewrite <- !app_assoc; cbn [app]; rewrite <- !app_assoc; reflexivity| |by apply u32_field].
    rewrite length_app. cbn. rewrite length_app. cbn. lia.
  - eapply (in_field _ _ (pre ++ p_status p :: p_chs p ++ p_type p :: p_chs' p ++ to_le 4 (p_lba p)) (to_le 4 (p_sectors p))); [rewrite <- !app_assoc; cbn [app]; rewrite <- !app_assoc; cbn [app]; rewrite <- !app_assoc; reflexivity| |by apply u32_field].
    rewrite length_app. cbn. rewrite length_app. cbn. rewrite length_app. cbn. lia.
Qed.

Lemma partitions_ok ps : forall pre post i f, Forall part_ok ps -> Z.of_nat (length pre) = 446 + i * 16 ->
  partitions (length ps) i (pre ++ (ps ≫= encode_part) ++ post) f = Ret (part_rows i ps, match f with Some _ => f | None => first_fat32 ps end).
Proof.
  induction ps as [|p ps IH]; intros pre post i f Hps Hp; [by destruct f|]. apply Forall_cons in Hps as [Hp1 Hps]. cbn [length partitions]. rewrite bind_cons, <- app_assoc.
  destruct (part_fields pre p ((ps ≫= encode_part) ++ post) Hp1) as (E1 & E2 & E3 & E4). rewrite Hp in E1, E2, E3, E4. rewrite E1, E2, E3, E4. cbn [obind].
  assert (IH' := fun f => IH (pre ++ encode_part p) post (i + 1) f Hps ltac:(rewrite length_app, (encode_part_len p Hp1); lia)). rewrite <- !app_assoc in IH'. cbn [part_rows]. unfold first_fat32 in *. rewrite filter_cons.
  destruct (Z.eqb_spec (p_type p) 0) as [E0|E0].
  - rewrite IH'. by rewrite decide_False by (unfold is_fat32; rewrite E0; done).
  - rewrite IH'. cbn [obind]. destruct f; [done|]. fold (is_fat32 p). destruct (is_fat32 p) eqn:Ef; [by rewrite decide_True|by rewrite decide_False].
Qed.

(** What there is to print of a disk. *)
Definition disk_lines (ps : list part) (v : volume) (dirs : list (list dirent)) : list line :=
  Signature 0xAA55 true :: part_rows 0 ps ++
  match first_fat32 ps with Some lba => volume_lines lba v ++ listing (concat dirs) | None => [] end.

(** Inspecting a disk with a partition table ends without a panic and prints its
    partitions, and of the first FAT32 partition the parameters and the files of
    the root directory, each with name, attributes, first cluster and size, up
    to the entry that ends the directory; or a part of that up to a sector that
    could not be read. *)
Theorem inspect_disk_spec code ps v dirs d (Hd : dev_ok d) (Hm : disk 0 = encode_mbr code ps) (Hc : length code = 446%nat) (Hl : length ps = 4%nat)
  (Hps : Forall part_ok ps)
  (Hv : forall lba, first_fat32 ps = Some lba -> volume_ok v /\ in_range lba v /\ root_stored lba v dirs) :
  exists out d', inspect_disk d = Ret (out, d') /\ dev_ok d' /\ reported (disk_lines ps v dirs) out.
Proof.
  unfold inspect_disk. destruct (dev_read 0 (replicate 512 0) d) as (r & buf & d1 & -> & D1 & Hok); [done|done|done|]. cbn [obind].
  destruct r as [[]|e]; [|eexists _, d1; split_and!; [done|done|]; right; eexists [], _, _; split; [done|apply prefix_nil]]. rewrite (Hok eq_refl), Hm.
  assert (Lp : length (ps ≫= encode_part) = 64%nat).
  { destruct ps as [|p1 [|p2 [|p3 [|p4 [|]]]]]; try done. rewrite !Forall_cons in Hps. destruct Hps as (? & ? & ? & ? & _). cbn [mbind list_bind]. by rewrite !length_app, !encode_part_len. }
  assert (B1 : byte_at (encode_mbr code ps) 511 = Ret 0xAA).
  { unfold encode_mbr. rewrite app_assoc, (app_assoc _ [0x55] [0xAA] : (code ++ (ps ≫= encode_part)) ++ [0x55; 0xAA] = ((code ++ (ps ≫= encode_part)) ++ [0x55]) ++ [0xAA]). apply byte_at_app. rewrite !length_app, Lp, Hc. done. }
  assert (B2 : byte_at (encode_mbr code ps) 510 = Ret 0x55) by (unfold encode_mbr; rewrite app_assoc; apply byte_at_app; rewrite !length_app, Lp, Hc; done).
  rewrite B1, B2. cbn [obind]. change (negb (Z.lor (Z.shiftl 170 8) 85 =? 43605)) with false. cbn iota. unfold encode_mbr.
  pose proof (partitions_ok ps code [0x55; 0xAA] 0 None Hps) as E. rewrite Hl in E. rewrite E by (rewrite Hc; done). cbn [obind]. unfold disk_lines.
  destruct (first_fat32 ps) as [lba|] eqn:Ef; [|eexists _, d1; split_and!; [done|done|]; left; by rewrite app_nil_r].
  destruct (Hv lba eq_refl) as (V1 & V2 & V3). destruct (read_fat32_root_ok lba v dirs d1) as (out & d2 & -> & D2 & Ho); [done| |done..|].
  { unfold first_fat32 in Ef. destruct (filter _ ps) as [|p l] eqn:Efl; [done|]. injection Ef as <-.
    assert (Hin : p ∈ filter (fun p => is_fat32 p = true) ps) by (rewrite Efl; left). apply list_elem_of_filter in Hin as [_ Hin]. rewrite Forall_forall in Hps. by destruct (Hps p Hin) as (_ & _ & ? & _). }
  cbn [obind]. eexists _, d2. split_and!; [done|done|]. exact (reported_app (Signature 0xAA55 true :: part_rows 0 ps) _ _ Ho).
Qed.

(** A volume whose root cluster number is below two, the first there is, stops the
    kernel. *)
Theorem inspect_bad_root part_lba v d r buf d' (Hp : 0 <= part_lba) (Hr : device_read part_lba (replicate 512 0) d = Ret (Ok r, buf, d')) (Hb : buf = encode_vbr v) (Hv : volume_ok v)
  (Hc : v_root_cluster v < 2) : read_fat32_root part_lba d = Panic.
Proof.
  unfold read_fat32_root. rewrite Hr. cbn [obind]. rewrite Hb. destruct (vbr_fields v Hv) as (-> & -> & -> & -> & -> & -> & -> & ->). cbn [obind].
  unfold u32_mul at 1. destruct (_ <? U32); [|done]. cbn [obind]. unfold u32_add at 1. destruct (_ <? U32); [|done]. cbn [obind]. unfold u32_mul at 1. destruct (_ <? U32); [|done]. cbn [obind].
  unfold u32_add at 1. destruct (_ <? U32); [|done]. cbn [obind]. unfold u32_sub. rewrite (proj2 (Z.leb_gt _ _) Hc). done.
Qed.
End device.

(** ** The polled drivers are such devices *)
#[export] Instance pio_device {D} {MD : Mm.Mmio D} : BlockDevice := { device_read := Polled.read_block }.

#[export, refine] Instance pio_reads {D} {MD : Mm.Mmio D} {PC : PioCard} : Reads (BD := pio_device) card := { dev_ok d := True }.
Proof.
  intros s buf d _ _ _. destruct (pio_read_ok s buf d) as (r & buf' & d' & E & Hok & _). exists r, buf', d'. split_and!; [done|done|]. intros Hr. by destruct (Hok Hr).
Defined.

#[export] Instance adma_device {D} {MD : Mm.Mmio D} {DM : AdmaPoll.DmaMemory} (cpu : Fdt.CpuType) : BlockDevice := { device_read := AdmaPoll.adma_read_block cpu }.

#[export, refine] Instance adma_reads {D} {MD : Mm.Mmio D} {DM : AdmaPoll.DmaMemory} {DC : AdmaPoll.DmaCard} (cpu : Fdt.CpuType) : Reads (BD := adma_device cpu) AdmaPoll.dcard :=
  { dev_ok := AdmaPoll.adma_ok }.
Proof.
  intros s buf d _ _ Hd. destruct (AdmaPoll.adma_read_ok cpu s buf d Hd) as (r & buf' & d' & E & Hok & Hb). exists r, buf', d'. split_and!; [done|done|]. intros ->. done.
Defined.

(** ** A disk *)
Section demo.
Definition demo_parts : list part :=
  [mkPart 0x80 [0; 0; 0] 0x0C [0; 0; 0] 2048 131072; mkPart 0 [0; 0; 0] 0x83 [0; 0; 0] 133120 8388608; mkPart 0 [0; 0; 0] 0 [0; 0; 0] 0 0; mkPart 0 [0; 0; 0] 0 [0; 0; 0] 0 0].

Definition demo_volume : volume :=
  mkVolume (replicate 11 0) 512 1 32 2 (replicate 15 0) 131072 100 (replicate 4 0) 2 (replicate 23 0) (lit "BOOT       ") (replicate 430 0).

Definition demo_dir : list dirent :=
  [DShort (lit "BOOT") [] 0x08 (replicate 8 0) 0 (replicate 4 0) 0; DDeleted (replicate 31 65); DLong 0x41 (replicate 10 66) (replicate 20 67);
   DShort (lit "FIP") (lit "BIN") 0x20 (replicate 8 1) 70000 (replicate 4 2) 1234567; DShort (lit "KERNEL") [] 0x10 (replicate 8 1) 5 (replicate 4 2) 0] ++ replicate 11 (DFree (replicate 31 0)).

Definition demo_disk (s : Z) : list Z :=
  if s =? 0 then encode_mbr (replicate 446 0) demo_parts else if s =? 2048 then encode_vbr demo_volume else if s =? 2280 then demo_dir ≫= encode else replicate 512 0.

#[local] Instance demo_device : BlockDevice (D := unit) := { device_read s buf d := Ret (Ok tt, demo_disk s, d) }.

#[local, refine] Instance demo_reads : Reads demo_disk := { dev_ok d := True }.
Proof. intros s buf d _ _ _. by eexists _, _, _. Defined.

Lemma demo_dir_ok : Forall dirent_ok demo_dir.
Proof. repeat constructor; vm_compute; done. Qed.

Lemma inspect_disk_spec_witness : exists out, inspect_disk tt = Ret (out, tt) /\ reported (disk_lines demo_parts demo_volume [demo_dir]) out /\
  Entry (lit "FIP.BIN") (lit "-----A") (Some (70000, 1234567)) ∈ out.
Proof.
  destruct (inspect_disk_spec demo_disk (replicate 446 0) demo_parts demo_volume [demo_dir] tt) as (out & [] & E & _ & Ho).
  - done.
  - done.
  - done.
  - done.
  - repeat constructor; vm_compute; done.
  - intros lba [= <-]. split; [split_and!; vm_compute; done|]. split; [split_and!; vm_compute; done|]. split_and!; [done|done|apply Forall_singleton; split; [done|exact demo_dir_ok]|].
    intros j es Hj. destruct j; [|done]. injection Hj as <-. done.
  - exists out. split_and!; [done|done|]. vm_compute in E. injection E as <-. do 6 right. left.
Defined.
End demo.

End Inspect.

