(* ===== verification/Console.v ===== *)
(** * Printing

    Models [src/src/console.rs], the console of the firmware that [println!]
    writes to a character at a time, and [src/src/kprint.rs], whose macros
    collect a text and hand it over in one piece, to the UART writer thread of
    [Uart.Writer] once there are threads and to the firmware before.  A [&str]
    is the list of its characters, by code point; [core::fmt] hands a writer the
    text in pieces.  The firmware is the class [Sbi].

    [Clock] models [src/src/cpu_info.rs]. *)

From S2P Require Import Prelude Memory Bytes Dtb Collections Plic Uart.

Module Console.
Import Uart.

(** ** The firmware *)
Section firmware.
Context {F : Type}.

(** The legacy console calls of the supervisor binary interface: extension 1
    writes a byte, extension 2 returns one or a negative number. *)
Class Sbi := { sbi_putchar : Z -> F -> F; sbi_getchar : F -> Z * F }.
Context {SB : Sbi}.

Definition sbi_console_putchar (ch : Z) (f : F) : F := sbi_putchar ch f.

Definition sbi_console_getchar (f : F) : option Z * F :=
  let '(ret, f) := sbi_getchar f in
  (if ret <? 0 then None else Some (ret mod 256), f).

(** [getchar] polls; [n] bounds the turns. *)
Fixpoint getchar (n : nat) (f : F) : option Z * F :=
  match n with
  | O => (None, f)
  | S n =>
      let '(r, f) := sbi_console_getchar f in
      match r with Some ch => (Some ch, f) | None => getchar n f end
  end.

Definition is_ascii (c : Z) : bool := c <? 128.

(** [PutcharWriter::write_str] *)
Definition put_str (s : list Z) (f : F) : F :=
  foldl (fun f c => if is_ascii c then sbi_console_putchar c f else sbi_console_putchar 63 f) f s.

(** What the firmware is asked to print. *)
Class SbiLog := {
  printed : F -> list Z;
  sb_put : forall ch f, printed (sbi_putchar ch f) = printed f ++ [ch];
  sb_get : forall f, printed (snd (sbi_getchar f)) = printed f }.
Context {SL : SbiLog}.

Definition ascii (s : list Z) : list Z := map (fun c => if is_ascii c then c else 63) s.

Lemma put_str_ok s : forall f, printed (put_str s f) = printed f ++ ascii s.
Proof.
  induction s as [|c s IH]; intros f; [by rewrite app_nil_r|]. unfold put_str in *. cbn [foldl ascii map]. rewrite IH. unfold sbi_console_putchar.
  by destruct (is_ascii c); rewrite sb_put, <- app_assoc.
Qed.

(** The states the polls of an empty console go through. *)
Inductive silent : nat -> F -> F -> Prop :=
| silent_0 f : silent 0 f f
| silent_S n f f' : fst (sbi_getchar f) < 0 -> silent n (snd (sbi_getchar f)) f' -> silent (S n) f f'.

(** The first key is what [getchar] returns, however late it comes. *)
Lemma getchar_ok n f f' : silent n f f' -> 0 <= fst (sbi_getchar f') < 256 -> forall k, (n < k)%nat ->
  getchar k f = (Some (fst (sbi_getchar f')), snd (sbi_getchar f')).
Proof.
  induction 1 as [f|n f f' Hn _ IH]; intros Hc k Hk; (destruct k as [|k]; [lia|]); cbn [getchar]; unfold sbi_console_getchar.
  - destruct (sbi_getchar f) as [r f1]. cbn in *. rewrite (proj2 (Z.ltb_ge _ _)) by lia. by rewrite Z.mod_small.
  - destruct (sbi_getchar f) as [r f1] eqn:E. cbn in *. rewrite (proj2 (Z.ltb_lt _ _)) by lia. apply IH; [done|lia].
Qed.

(** ** kprint *)
Section kprint.
Context {D : Type} {MD : Mm.Mmio D} {u : UartConfig} {UD : Uart16550 (D := D) u}.

(** [as_bytes]: the UTF-8 form of a character. *)
Definition utf8 (c : Z) : list Z :=
  if c <? 0x80 then [c]
  else if c <? 0x800 then [0xC0 + c / 64; 0x80 + c mod 64]
  else if c <? 0x10000 then [0xE0 + c / 4096; 0x80 + c / 64 mod 64; 0x80 + c mod 64]
  else [0xF0 + c / 262144; 0x80 + c / 4096 mod 64; 0x80 + c / 64 mod 64; 0x80 + c mod 64].

Definition as_bytes (s : list Z) : list Z := s ≫= utf8.

(** The console handle, whether a thread runs, the firmware and the writer
    thread. *)
Record sys := mkSys { CONSOLE : bool; has_current : bool; fw : F; writer : Writer.conf (D := D) }.

Record KPrintWriter := mkWriter { buf : list Z }.

Definition kprint_new : KPrintWriter := mkWriter [].
Definition kprint_write_str (s : list Z) (w : KPrintWriter) : KPrintWriter := mkWriter (buf w ++ s).

(** [drop]; the file of the console has [UartFileOps]. *)
Definition kprint_drop (w : KPrintWriter) (s : sys) : sys :=
  match buf w with
  | [] => s
  | _ =>
      if CONSOLE s && has_current s then mkSys (CONSOLE s) (has_current s) (fw s) (snd (Writer.uart_file_write (as_bytes (buf w)) (writer s)))
      else mkSys (CONSOLE s) (has_current s) (put_str (buf w) (fw s)) (writer s)
  end.

(** [kprint!], whose arguments format to [pieces]. *)
Definition kprint (pieces : list (list Z)) (s : sys) : sys := kprint_drop (foldl (fun w p => kprint_write_str p w) kprint_new pieces) s.

Definition kprintln (pieces : list (list Z)) (s : sys) : sys := kprint (pieces ++ [[10]]) s.

Lemma kprint_text pieces s : kprint pieces s = kprint_drop (mkWriter (concat pieces)) s.
Proof.
  unfold kprint. f_equal. change kprint_new with (mkWriter []). change (concat pieces) with ([] ++ concat pieces). generalize (@nil Z). induction pieces as [|p pieces IH]; intros b; cbn [foldl concat].
  - by rewrite app_nil_r.
  - unfold kprint_write_str at 2. cbn [buf]. by rewrite IH, <- app_assoc.
Qed.

(** A run of the kernel: texts printed by it with no thread and by its threads,
    the writer thread and the interrupts at any time in between. *)
Inductive session (d : D) (f0 : F) : list (list Z) -> list (list Z) -> sys -> Prop :=
| ses_start : session d f0 [] [] (mkSys false false f0 (Writer.started d))
| ses_init c h early texts s : session d f0 early texts s -> session d f0 early texts (mkSys c h (fw s) (writer s))
| ses_print pieces early texts s : session d f0 early texts s ->
    session d f0 (if CONSOLE s && has_current s then early else early ++ [concat pieces])
      (if CONSOLE s && has_current s then texts ++ [concat pieces] else texts) (kprint pieces s)
| ses_run early texts s w : session d f0 early texts s -> Writer.run_step u (writer s) w -> session d f0 early texts (mkSys (CONSOLE s) (has_current s) (fw s) w).

Lemma as_bytes_app a b : as_bytes (a ++ b) = as_bytes a ++ as_bytes b.
Proof. apply bind_app. Qed.

Lemma ascii_app a b : ascii (a ++ b) = ascii a ++ ascii b.
Proof. apply map_app. Qed.

Lemma session_inv d f0 early texts s : session d f0 early texts s ->
  printed (fw s) = printed f0 ++ ascii (concat early) /\ exists msgs, Writer.reachable u d msgs (writer s) /\ concat msgs = as_bytes (concat texts).
Proof.
  induction 1 as [|c h early texts s _ (IH1 & IH2)|pieces early texts s _ (IH1 & msgs & IH2 & IH3)|early texts s w _ (IH1 & msgs & IH2 & IH3) Hw].
  - split; [by rewrite app_nil_r|]. exists []. split; [constructor|done].
  - done.
  - rewrite kprint_text. unfold kprint_drop. cbn [buf]. destruct (concat pieces) as [|x t] eqn:Et; [|rewrite <- Et; clear x t Et; set (t := concat pieces)].
    + destruct (CONSOLE s && has_current s); (split; [rewrite ?concat_app, ?app_nil_r; exact IH1|]); exists msgs; (split; [done|]); rewrite ?concat_app; cbn [concat]; by rewrite ?app_nil_r.
    + destruct (CONSOLE s && has_current s); cbn [fw writer].
      * split; [done|]. exists (msgs ++ [as_bytes t]). split; [by constructor|]. rewrite !concat_app, as_bytes_app. cbn [concat]. by rewrite !app_nil_r, IH3.
      * split; [|by exists msgs]. rewrite put_str_ok, IH1, concat_app, ascii_app. cbn [concat]. by rewrite app_nil_r, app_assoc.
  - split; [done|]. exists msgs. split; [|done]. by econstructor.
Qed.

(** Every text printed with [kprint!] arrives whole and in order: those printed
    before there are threads with the firmware, characters outside ASCII as
    question marks; those of the threads on the line, of which at any time a
    part is sent and the rest can be, a carriage return before every line
    feed. *)
Theorem kprint_delivered d f0 early texts s (Hs : session d f0 early texts s) :
  printed (fw s) = printed f0 ++ ascii (concat early) /\
  line (Writer.dev (Writer.st (writer s))) `prefix_of` line d ++ Writer.crlf (as_bytes (concat texts)) /\
  exists c', rtc (Writer.run_step u) (writer s) c' /\ Writer.inbox c' = [] /\ line (Writer.dev (Writer.st c')) = line d ++ Writer.crlf (as_bytes (concat texts)).
Proof.
  destruct (session_inv _ _ _ _ _ Hs) as (Hf & msgs & Hr & Hm). split; [done|]. rewrite <- Hm.
  destruct (Writer.reachable_winv _ _ _ _ Hr) as [Hw Ht]. pose proof Hw as (q & Hq & Hd & _). rewrite <- Ht. split.
  - rewrite Writer.crlf_app, app_assoc, <- Hd, <- !app_assoc. eexists. reflexivity.
  - destruct (Writer.sent_eventually u (line d) (S (Writer.effort q (writer s))) (writer s) q Hw Hq) as (c' & H1 & _ & H2 & H3); [lia|]. by exists c'.
Qed.
End kprint.
End firmware.

(** ** A simulated machine *)
Section sim.
(** A firmware with nothing typed, and the UART of [Uart.Writer]'s simulation. *)
#[local] Instance sim_sbi : Sbi (F := list Z) := { sbi_putchar ch f := f ++ [ch]; sbi_getchar f := (-1, f) }.
#[local, refine] Instance sim_sbi_log : SbiLog := { printed f := f }.
Proof. all: done. Defined.
#[local] Existing Instances Writer.sim_mmio Writer.sim_uart.

Definition hello : list Z := lit "hi".

Lemma kprint_delivered_witness : exists s, printed (fw s) = lit "hi?" /\ exists c', rtc (Writer.run_step QEMU_UART) (writer s) c' /\
  line (Writer.dev (Writer.st c')) = lit "hi" ++ [13; 10].
Proof.
  set (s0 := mkSys false false (@nil Z) (Writer.started Writer.idle_uart)). set (s1 := kprint [hello; [0xe9]] s0). set (s2 := mkSys true true (fw s1) (writer s1)).
  assert (H : session Writer.idle_uart (@nil Z) [hello ++ [0xe9]] [hello ++ [10]] (kprintln [hello] s2)).
  { apply (ses_print _ _ [hello; [10]] [hello ++ [0xe9]] [] s2). apply (ses_init _ _ true true _ _ s1). apply (ses_print _ _ [hello; [0xe9]] [] [] s0). constructor. }
  destruct (kprint_delivered _ _ _ _ _ H) as (H1 & _ & c' & H2 & _ & H3). exists (kprintln [hello] s2). split; [exact H1|]. exists c'. split; [exact H2|exact H3].
Defined.
End sim.
End Console.

(** * The speed of the processor *)
Module Clock.

Definition TIMEBASE_FREQUENCY : Z := 25_000_000.

Section clock.
Context {C : Type}.

(** The [time] and [cycle] registers. *)
Class Counters := { read_time : C -> Z * C; read_cycle : C -> Z * C }.
Context {CO : Counters}.

(** The busy wait; [n] bounds its turns. *)
Fixpoint wait_until (n : nat) (target : Z) (c : C) : option C :=
  match n with
  | O => None
  | S n => let '(t, c) := read_time c in if t <? target then wait_until n target c else Some c
  end.

Definition measure_cpu_frequency (n : nat) (c : C) : option (outcome (Z * C)) :=
  let '(start_time, c) := read_time c in
  let '(start_cycle, c) := read_cycle c in
  let duration := TIMEBASE_FREQUENCY / 10 in
  match uadd start_time duration with
  | Ret target =>
      match wait_until n target c with
      | None => None
      | Some c =>
          let '(t, c) := read_time c in
          let '(k, c) := read_cycle c in
          Some (let! elapsed_time := usub t start_time in
                let! elapsed_cycles := usub k start_cycle in
                let! p := umul elapsed_cycles TIMEBASE_FREQUENCY in
                let! f := udiv p elapsed_time in
                Ret (f, c))
      end
  | _ => Some Panic
  end.

(** The rows of [show_cpu_info]. *)
Inductive info := Platform (name : string) | Timebase (mhz : Z) | Frequency (mhz hz : Z) | Ratio (times : Z).

Definition platform_name (t : Fdt.CpuType) : string :=
  match t with
  | Fdt.Qemu => "QEMU virt"
  | Fdt.LicheeRVNano => "LicheeRV Nano (CV181x)"
  | Fdt.CpuUnknown => "Unknown"
  end.

Definition show_cpu_info (n : nat) (t : Fdt.CpuType) (c : C) : option (outcome (list info * C)) :=
  match measure_cpu_frequency n c with
  | None => None
  | Some m => Some (
      let! ' (cpu_freq, c) := m in
      let cpu_mhz := cpu_freq / 1_000_000 in
      let multiplier := cpu_freq / TIMEBASE_FREQUENCY in
      Ret ([Platform (platform_name t); Timebase (TIMEBASE_FREQUENCY / 1_000_000); Frequency cpu_mhz cpu_freq; Ratio multiplier], c))
  end.

(** Counters that go up: a read that finds no more time than the one before
    comes closer, by [lag], to one that does. *)
Class Ticking := {
  now : C -> Z; cycles : C -> Z; lag : C -> nat; bound : nat;
  ti_lag : forall c, (lag c <= bound)%nat;
  ti_time : forall c, exists c', read_time c = (now c, c') /\ cycles c <= cycles c' /\ (now c < now c' \/ (now c = now c' /\ (lag c' < lag c)%nat));
  ti_cycle : forall c, exists c', read_cycle c = (cycles c, c') /\ cycles c <= cycles c' /\ now c <= now c' }.
Context {TI : Ticking}.

Lemma wait_until_ok target : forall n c, (Z.to_nat (target - now c) * S bound + lag c < n)%nat -> exists c', wait_until n target c = Some c' /\ target <= now c' /\ now c <= now c' /\ cycles c <= cycles c'.
Proof.
  induction n as [|n IH]; intros c Hn; [by apply Nat.nlt_0_r in Hn|]. cbn [wait_until]. destruct (ti_time c) as (c1 & -> & Hc & Ht). pose proof (ti_lag c1) as Hl. destruct (Z.ltb_spec (now c) target) as [H|H].
  - destruct (IH c1) as (c' & E & H1 & H2 & H3).
    { destruct Ht as [Ht|[Ht Hg]]; [|rewrite <- Ht; clear - Hn Hg; lia]. assert (Hd : (S (Z.to_nat (target - now c1)) <= Z.to_nat (target - now c))%nat) by lia. nia. }
    exists c'. split_and!; [done|done|lia|lia].
  - exists c1. split_and!; [done|lia|lia|lia].
Qed.

(** The measurement ends, and never in a division by zero: the frequency is that
    of the cycles and the time that passed, at least a tenth of a second of the
    timebase it assumes; the product of cycles and timebase has to fit. *)
Theorem measure_spec c (H0 : now c + 2_500_000 < USIZE) : exists n0, forall n, (n0 <= n)%nat ->
  exists k t c', 2_500_000 <= t <= now c' - now c /\ 0 <= k <= cycles c' - cycles c /\
  measure_cpu_frequency n c = Some (if k * TIMEBASE_FREQUENCY <? USIZE then Ret (k * TIMEBASE_FREQUENCY / t, c') else Panic).
Proof.
  unfold measure_cpu_frequency. destruct (ti_time c) as (c1 & -> & Hc1 & Ht1). destruct (ti_cycle c1) as (c2 & -> & Hc2 & Ht2).
  change (TIMEBASE_FREQUENCY / 10) with 2_500_000. rewrite uadd_ok by lia. set (target := now c + 2_500_000).
  exists (S (Z.to_nat (target - now c2) * S bound + lag c2)). intros n Hn. destruct (wait_until_ok target n c2 ltac:(lia)) as (c3 & -> & H1 & H2 & H3).
  destruct (ti_time c3) as (c4 & -> & Hc4 & Ht4). destruct (ti_cycle c4) as (c5 & -> & Hc5 & Ht5).
  exists (cycles c4 - cycles c1), (now c3 - now c), c5. split; [lia|]. split; [lia|]. rewrite !usub_ok by lia. cbn [obind]. unfold umul. destruct (_ <? USIZE); [|done]. cbn [obind].
  rewrite udiv_ok by lia. done.
Qed.

(** The rows are printed, after a wait that ends, unless the product of cycles
    and timebase does not fit: the frequency is that of the [k] cycles in the
    [t] ticks that passed, and the ratio shown is the whole cycles of a tick,
    although it is computed from the rounded frequency. *)
Theorem show_cpu_info_spec cpu c (H0 : now c + 2_500_000 < USIZE) : exists n0, forall n, (n0 <= n)%nat ->
  exists k t c', 2_500_000 <= t <= now c' - now c /\ 0 <= k <= cycles c' - cycles c /\
  show_cpu_info n cpu c = Some (if k * TIMEBASE_FREQUENCY <? USIZE
    then let hz := k * TIMEBASE_FREQUENCY / t in Ret ([Platform (platform_name cpu); Timebase 25; Frequency (hz / 1_000_000) hz; Ratio (k / t)], c')
    else Panic).
Proof.
  destruct (measure_spec c H0) as [n0 H]. exists n0. intros n Hn. destruct (H n Hn) as (k & t & c' & Ht & Hk & E). exists k, t, c'. split_and!; [lia..|].
  unfold show_cpu_info. rewrite E. destruct (_ <? USIZE); [|done]. cbn [obind]. do 2 f_equal.
  replace (k * TIMEBASE_FREQUENCY / t / TIMEBASE_FREQUENCY) with (k / t); [done|]. unfold TIMEBASE_FREQUENCY.
  rewrite Z.div_div by lia. by rewrite Z.div_mul_cancel_r by lia.
Qed.
End clock.

(** A processor of forty cycles to the tick, which reads the time in one tick. *)
#[local] Instance sim_counters : Counters (C := Z) := { read_time c := (c, c + 1); read_cycle c := (40 * c, c) }.

#[local, refine] Instance sim_ticking : Ticking := { now c := c; cycles c := 40 * c; lag c := 0%nat; bound := 0%nat }.
Proof.
  - done.
  - intros c. exists (c + 1). split_and!; [done|lia|left; lia].
  - intros c. exists c. split_and!; [done|lia|lia].
Defined.

Lemma measure_spec_witness : exists n0, forall n, (n0 <= n)%nat -> exists k t c', 2_500_000 <= t <= c' - 7 /\ 0 <= k <= 40 * c' - 40 * 7 /\
  measure_cpu_frequency n 7 = Some (if k * TIMEBASE_FREQUENCY <? USIZE then Ret (k * TIMEBASE_FREQUENCY / t, c') else Panic).
Proof. exact (measure_spec 7 eq_refl). Defined.

Lemma show_cpu_info_spec_witness : exists n0, forall n, (n0 <= n)%nat -> exists k t c', 2_500_000 <= t <= c' - 7 /\ 0 <= k <= 40 * c' - 40 * 7 /\
  show_cpu_info n Fdt.Qemu 7 = Some (if k * TIMEBASE_FREQUENCY <? USIZE
    then let hz := k * TIMEBASE_FREQUENCY / t in Ret ([Platform "QEMU virt"; Timebase 25; Frequency (hz / 1_000_000) hz; Ratio (k / t)], c')
    else Panic).
Proof. exact (show_cpu_info_spec Fdt.Qemu 7 eq_refl). Defined.
End Clock.

