(* ===== verification/Listings.v ===== *)
(** * Listings from the menu

    Models the entries of the menu that look at the file systems:
    [src/src/demos/vfs_inspect.rs], [procfs_inspect.rs], [mount_inspect.rs] and
    [elf_inspect.rs] (Module [Listings]), and the thread of
    [src/src/kthread/ext2_inspect.rs] (Module [Ext2Inspect]), over the globals
    of [KernelMain].  What they print is a list of rows; blank lines, column
    widths and the addresses of inodes are left out. *)

From S2P Require Import Prelude Bytes File Ramfs Ext2 Cpio Vfs Procfs Block BlockInit Elf LoaderInv KernelMain.

Module Listings.
Import Fl KMain.

(** ** Directories of the RAM file system

    A file has its length, a device its numbers, and the entries of a directory
    are in the order of their names, which are not empty and without a slash. *)
Definition before {A} (x y : list Z * A) : Prop := bytes_ltb x.1 y.1 = true.

Definition plain_name (n : list Z) : Prop := n <> [] /\ 47 ∉ n.

Definition is_device (t : FileType) : bool := match t with CharDevice | BlockDevice => true | _ => false end.

Record tidy_inode (i : Ram.Inode) : Prop := {
  ti_len : forall d, Ram.node i = Ram.File d -> Ram.len i = Z.of_nat (length d);
  ti_device : is_device (Ram.file_type i) = true -> is_Some (Ram.rdev i);
  ti_names : forall cs, Ram.node i = Ram.Dir cs -> Ram.file_type i = Directory /\ StronglySorted before cs /\ Forall (fun e => plain_name e.1) cs }.

Definition tidy (fs : Ram.Ramfs) : Prop := map_Forall (fun _ i => tidy_inode i) (Ram.store fs).

Lemma bytes_ltb_trans a : forall b c, bytes_ltb a b = true -> bytes_ltb b c = true -> bytes_ltb a c = true.
Proof.
  induction a as [|x a IH]; intros [|y b] [|z c]; cbn [bytes_ltb]; try done.
  rewrite !orb_true_iff, !andb_true_iff, !Z.ltb_lt, !Z.eqb_eq. intros [H1|[-> H1]] [H2|[-> H2]]; [left; lia|by left|by left|right; eauto].
Qed.

Lemma bytes_ltb_total a : forall b, a <> b -> bytes_ltb a b = false -> bytes_ltb b a = true.
Proof.
  induction a as [|x a IH]; intros [|y b] Hne; cbn [bytes_ltb]; try done.
  rewrite orb_false_iff, andb_false_iff, orb_true_iff, andb_true_iff, Z.ltb_ge, Z.ltb_lt, Z.eqb_neq, Z.eqb_eq. intros [H1 [H2|H2]]; [left; lia|].
  destruct (decide (x = y)) as [->|]; [right|left; lia]. split; [done|]. apply IH; [congruence|done].
Qed.

Lemma bytes_ltb_irrefl a : bytes_ltb a a = false.
Proof. induction a as [|x a IH]; cbn [bytes_ltb]; [done|]. by rewrite Z.ltb_irrefl, Z.eqb_refl, IH. Qed.

Lemma bt_insert_Forall {A} (P : list Z * A -> Prop) k v l : P (k, v) -> Forall P l -> Forall P (bt_insert k v l).
Proof.
  intros Hk. induction 1 as [|[k1 v1] l H1 Hl IH]; cbn [bt_insert]; [by constructor|].
  destruct (decide (k = k1)); [by constructor|]. destruct (bytes_ltb k k1); by repeat constructor.
Qed.

Lemma bt_insert_sorted {A} k (v : A) l : StronglySorted before l -> StronglySorted before (bt_insert k v l).
Proof.
  induction 1 as [|[k1 v1] l Hs IH Hf]; cbn [bt_insert]; [by repeat constructor|].
  destruct (decide (k = k1)) as [->|Hne]; [by constructor|]. destruct (bytes_ltb k k1) eqn:E.
  - constructor; [by constructor|]. constructor; [done|]. eapply Forall_impl; [exact Hf|]. intros e He. by apply (bytes_ltb_trans _ k1).
  - constructor; [done|]. apply bt_insert_Forall; [|done]. by apply bytes_ltb_total.
Qed.

Lemma sorted_get {A} (cs : list (list Z * A)) : StronglySorted before cs -> Forall (fun e => bt_get e.1 cs = Some e.2) cs.
Proof.
  induction 1 as [|[k v] cs Hs IH Hf]; [done|]. constructor; [cbn; by rewrite decide_True|].
  apply Forall_forall. intros e He. pose proof (proj1 (Forall_forall _ _) Hf e He) as Hb. cbn [bt_get]. rewrite decide_False; [by apply (proj1 (Forall_forall _ _) IH)|].
  intros E. unfold before in Hb. cbn [fst] in Hb. rewrite E, bytes_ltb_irrefl in Hb. done.
Qed.

(** *** Insertions keep them tidy *)
Lemma tidy_arc i fs : tidy fs -> tidy_inode i -> tidy (Ram.new_arc i fs).2.
Proof. intros Hf Hi. by apply map_Forall_insert_2. Qed.

Lemma tidy_leaf n t l r nd : (forall d, nd = Ram.File d -> l = Z.of_nat (length d)) -> (is_device t = true -> is_Some r) -> (forall cs, nd <> Ram.Dir cs) -> tidy_inode (Ram.mkInode n t l r nd).
Proof. intros Hl Hr Hn. split; [done|done|]. intros cs E. by destruct (Hn cs). Qed.

Lemma tidy_dir n : tidy_inode (Ram.make_dir_inode n).
Proof. split; [done|done|]. intros cs [= <-]. split_and!; [done|constructor..]. Qed.

Lemma tidy_add p i cs n x fs : tidy fs -> Ram.store fs !! p = Some i -> Ram.node i = Ram.Dir cs -> plain_name n ->
  forall fs', tidy fs' -> tidy (Ram.set_node p (Ram.with_children (bt_insert n x cs) i) fs').
Proof.
  intros Hf Hp Hi Hn fs' Hf'. apply map_Forall_insert_2; [|done]. destruct (Hf p i Hp) as [_ H1 H2]. split; [done|done|].
  intros cs' [= <-]. destruct (H2 cs Hi) as (Ht & Hs & Ha). split_and!; [done|by apply bt_insert_sorted|by apply bt_insert_Forall].
Qed.

Lemma tidy_get_or_create p n fs r fs' : tidy fs -> plain_name n -> Ram.get_or_create_dir p n fs = Ret (r, fs') -> tidy fs'.
Proof.
  intros Hf Hn. unfold Ram.get_or_create_dir. destruct (Ram.store fs !! p) as [i|] eqn:Ep; [|done]. cbn [deref obind].
  destruct (Ram.node i) as [d|cs| |] eqn:Ei; [by intros [= <- <-]| |by intros [= <- <-]..].
  destruct (bt_get n cs); intros [= <- <-]; [done|]. apply (tidy_add _ _ _ _ _ fs); try done. by apply (tidy_arc (Ram.make_dir_inode _) (Ram.alloc_ino fs).2 Hf), tidy_dir.
Qed.

Lemma tidy_descend dirs : Forall plain_name dirs -> forall a fs r fs', tidy fs -> Ram.descend a dirs fs = Ret (r, fs') -> tidy fs'.
Proof.
  induction 1 as [|n dirs Hn _ IH]; intros a fs r fs' Hf; cbn [Ram.descend]; [by intros [= <- <-]|].
  destruct (Ram.get_or_create_dir a n fs) as [[r1 fs1]| |] eqn:E; [|done..]. cbn [obind]. apply tidy_get_or_create in E; [|done..].
  destruct r1; [by apply IH|by intros [= <- <-]].
Qed.

Lemma split_on_plain path : Forall (fun p => 47 ∉ p) (split_on 47 path).
Proof.
  induction path as [|x l IH]; cbn [split_on]; [by repeat constructor; apply not_elem_of_nil|].
  destruct (Z.eqb_spec x 47); [constructor; [apply not_elem_of_nil|done]|].
  destruct (split_on 47 l) as [|p ps]; [repeat constructor; set_solver|]. inversion IH; subst. constructor; [set_solver|done].
Qed.

Lemma components_plain path : Forall plain_name (components path).
Proof.
  apply Forall_forall. intros n Hn. apply list_elem_of_filter in Hn as [Hne Hin]. split; [done|].
  by apply (proj1 (Forall_forall _ _) (split_on_plain path)).
Qed.

Lemma tidy_insert_leaf path a fs r fs' : tidy fs -> Ram.insert_leaf path a fs = Ret (r, fs') -> tidy fs'.
Proof.
  intros Hf. unfold Ram.insert_leaf. destruct (last (components path)) as [n|] eqn:El; [|by intros [= <- <-]].
  destruct (Ram.descend _ _ fs) as [[r1 fs1]| |] eqn:E; [|done..]. cbn [obind]. apply tidy_descend in E; [|apply Forall_take, components_plain|done].
  destruct r1 as [d|e]; [|by intros [= <- <-]]. unfold Ram.dir_insert. destruct (Ram.store fs1 !! d) as [i|] eqn:Ed; [|done]. cbn [deref obind].
  assert (Hn : plain_name n) by (apply (proj1 (Forall_forall _ _) (components_plain path)); by apply last_Some_elem_of).
  destruct (Ram.node i) eqn:Ei; cbn [obind]; intros [= <- <-]; [done| |done..]. by apply (tidy_add _ _ _ _ _ fs1).
Qed.

Lemma tidy_insert o fs r fs' : tidy fs -> Ram.insert o fs = Ret (r, fs') -> tidy fs'.
Proof.
  intros Hf. assert (Ha : tidy (Ram.alloc_ino fs).2) by exact Hf. destruct o as [path|path d|path ma mi|path ma mi]; cbn [Ram.insert].
  - unfold Ram.insert_dir. pose proof (components_plain path) as Hp. destruct (components path) as [|n ps]; [by intros [= <- <-]|].
    destruct (Ram.descend _ _ fs) as [[r1 fs1]| |] eqn:E; [|done..]. cbn [obind]. apply tidy_descend in E; [|done..]. destruct r1; by intros [= <- <-].
  - apply tidy_insert_leaf, tidy_arc, tidy_leaf; [done|by intros ? [= ->]|done|done].
  - apply tidy_insert_leaf, tidy_arc, tidy_leaf; done.
  - apply tidy_insert_leaf, tidy_arc, tidy_leaf; done.
Qed.

(** What an archive is unpacked to is tidy. *)
Lemma tidy_unpacked os : forall fs fs', tidy fs -> Cpio.insert_all os fs = Ret fs' -> tidy fs'.
Proof.
  unfold Cpio.insert_all. induction os as [|o os IH]; intros fs fs' Hf; cbn [ofold]; [by intros [= <-]|].
  destruct (Ram.insert o fs) as [[r fs1]| |] eqn:E; [|done..]. cbn [obind]. apply IH. by eapply tidy_insert.
Qed.

Lemma tidy_new : tidy Ram.new.
Proof. apply map_Forall_singleton, tidy_dir. Qed.

(** ** What is printed *)
Inductive row :=
| Title (t : list Z)
| Listed (c : Z) (name : list Z)
| Device (c : Z) (name : list Z) (major minor : Z)
| Contents (t : list Z)
| Empty
| InodeType (t : FileType)
| InodeLen (n : Z)
| FsType (t : option (list Z))
| Failed (what : list Z) (e : Error)
| FsName (name : list Z)
| Mounted (id : Z) (fs_type mountpoint : list Z)
| Header (entry phoff phentsize phnum : Z)
| Segment (i : Z) (type_str : list Z) (ph : Elf.Elf64ProgramHeader) (vaddr_end : Z).

Definition type_char (t : FileType) : Z :=
  match t with Directory => 100 | RegularFile => 102 | CharDevice => 99 | BlockDevice => 98 end.

(** The fields [len] and [sb] of an inode: only ext2 sets the second. *)
Definition len_of (i : inode) : Z :=
  match i with
  | RamInode _ fs a => Ram.len (ram_inode fs a)
  | ProcInode _ n => Procfs.len (proc_in n)
  | Ext2Inode _ _ _ i => Ext2.len i
  end.

Definition fs_type_of (i : inode) : option (list Z) := match i with Ext2Inode _ _ _ _ => Some (lit "ext2") | _ => None end.

Section listings.
(** Bounds on the entries ext2 reads in one lookup, and on the reads of a file. *)
Context (fuel chunks : nat).
Notation globals := KMain.globals.

Definition vfs_readdir (g : globals) (path : list Z) : outcome (result (list DirEntry) Error) :=
  Vfs.vfs_readdir (FileOps0 := kernel_ops fuel (kernel_of fuel g)) (view fuel g) path.

(** Every table has the default [seek]. *)
Definition vfs_seek (f : file) (pos : SeekFrom) : outcome (result unit Error * file) :=
  let! offset := seek (Vfs.offset f) (len_of (Vfs.inode f)) pos in
  Ret (Ok tt, Vfs.mkFile (Vfs.f_fops f) offset (Vfs.inode f)).

Definition entry_path (path name : list Z) : list Z :=
  if bool_decide (path = lit "/") then 47 :: name else path ++ 47 :: name.

Definition list_entry (g : globals) (path : list Z) (e : DirEntry) : outcome row :=
  let c := type_char (entry_type e) in
  match entry_type e with
  | CharDevice | BlockDevice =>
      let! r := vfs_lookup fuel g (entry_path path (name e)) in
      match r with
      | Err _ => Panic
      | Ok inode => let! ' (major, minor) := expect (rdev_of inode) in Ret (Device c (name e) major minor)
      end
  | _ => Ret (Listed c (name e))
  end.

Definition list_dir (g : globals) (path : list Z) : outcome (list row) :=
  let! r := vfs_readdir g path in
  match r with
  | Ok entries => ofold (fun rows e => let! row := list_entry g path e in Ret (rows ++ [row])) entries [Title path]
  | Err e => Ret [Title path; Failed (lit "Error") e]
  end.

(** Opening a file and printing it; [show_empty]: nothing is printed as
    "(empty)". *)
Definition show_file (show_empty : bool) (g : globals) (path : list Z) : outcome (list row) :=
  let! r := vfs_open fuel g path in
  match r with
  | Err e => Ret [Failed (lit "Open error") e]
  | Ok f =>
      let! ' (r, contents, _) := Vfs.vfs_read_to_string vfs_read chunks f [] in
      match r with
      | Err e => Ret [Failed (lit "Read error") e]
      | Ok _ => Ret (if show_empty && bool_decide (contents = []) then [Empty] else [Contents contents])
      end
  end.

Definition inspect_vfs (g : globals) : outcome (list row) :=
  let! root := list_dir g (lit "/") in
  let! dev := list_dir g (lit "/dev") in
  let! motd := show_file false g (lit "/etc/motd") in
  Ret (root ++ dev ++ Title (lit "Reading /etc/motd via vfs_open") :: motd).

Definition inspect_procfs (g : globals) : outcome (list row) :=
  let! r := vfs_lookup fuel g (lit "/proc") in
  let inode_rows := match r with
    | Ok i => [InodeType (file_type_of i); InodeLen (len_of i); FsType (fs_type_of i)]
    | Err e => [Failed (lit "Lookup error") e]
    end in
  let! r := vfs_readdir g (lit "/proc") in
  let dir_rows := match r with
    | Ok [] => [Empty]
    | Ok entries => map (fun e => Listed (type_char (entry_type e)) (name e)) entries
    | Err e => [Failed (lit "Readdir error") e]
    end in
  let! version := show_file false g (lit "/proc/version") in
  let! mounts := show_file true g (lit "/proc/mounts") in
  let! devices := show_file true g (lit "/proc/devices") in
  Ret (Title (lit "/proc inode") :: inode_rows ++ Title (lit "/proc directory") :: dir_rows ++
       Title (lit "/proc/version") :: version ++ Title (lit "/proc/mounts") :: mounts ++ Title (lit "/proc/devices") :: devices).

Definition inspect_mounts (g : globals) : list row :=
  Title (lit "Registered Filesystems") :: map (fun f => FsName (Vfs.fs_name f)) (Vfs.filesystems (view fuel g)) ++
  Title (lit "Mount Table") :: map (fun m => Mounted (Vfs.mi_id m) (Vfs.mi_fs_type m) (Vfs.mi_mountpoint m)) (Vfs.mounts (view fuel g)).

(** *** ELF headers *)
Definition PT_NULL : Z := 0.
Definition PT_DYNAMIC : Z := 2.
Definition PT_INTERP : Z := 3.
Definition PT_NOTE : Z := 4.
Definition PT_PHDR : Z := 6.

Definition type_str (p_type : Z) : list Z :=
  if p_type =? PT_NULL then lit "NULL" else if p_type =? Elf.PT_LOAD then lit "LOAD" else if p_type =? PT_DYNAMIC then lit "DYNAMIC"
  else if p_type =? PT_INTERP then lit "INTERP" else if p_type =? PT_NOTE then lit "NOTE" else if p_type =? PT_PHDR then lit "PHDR" else lit "OTHER".

Fixpoint segment_rows (i : Z) (phs : list Elf.Elf64ProgramHeader) : outcome (list row) :=
  match phs with
  | [] => Ret []
  | ph :: phs =>
      let! e := uadd (Elf.p_vaddr ph) (Elf.p_memsz ph) in
      let! rows := segment_rows (i + 1) phs in
      Ret (Segment i (type_str (Elf.p_type ph)) ph e :: rows)
  end.

Definition inspect_elf (g : globals) : outcome (list row) :=
  let! r := vfs_open fuel g (lit "/prog_example") in
  match r with
  | Err e => Ret [Failed (lit "Failed to open") e]
  | Ok f =>
      let! ' (r, f) := Elf.read_elf64_header vfs_read f in
      match r with
      | Err e => Ret [Failed (lit "Failed to read ELF header") e]
      | Ok h =>
          let header := Header (Elf.e_entry h) (Elf.e_phoff h) (Elf.e_phentsize h) (Elf.e_phnum h) in
          let! ' (r, f) := Elf.read_program_headers vfs_read vfs_seek f h in
          match r with
          | Err e => Ret [header; Failed (lit "Failed to read program headers") e]
          | Ok phs => let! rows := segment_rows 0 phs in Ret (header :: rows)
          end
      end
  end.

(** ** After start-up *)
Section booted.
Context (fs : Ram.Ramfs) (p : Z) (g : globals) (Hg : MOUNTS g = Some (boot_mounts fs p)).
Context (Hproc : Ram.lookup fs (Ram.root fs) (lit "proc") = Ret (Ok p)) (Hpd : Ram.is_dir fs p) (Hwf : Ram.wf fs) (Ht : tidy fs).

(** The row of an entry of the archive. *)
Definition entry_row (e : list Z * Z) : row :=
  let i := ram_inode fs e.2 in
  match Ram.rdev i with
  | Some (major, minor) => if is_device (Ram.file_type i) then Device (type_char (Ram.file_type i)) e.1 major minor else Listed (type_char (Ram.file_type i)) e.1
  | None => Listed (type_char (Ram.file_type i)) e.1
  end.

Definition dir_entry (e : list Z * Z) : DirEntry := mkDirEntry e.1 (Ram.file_type (ram_inode fs e.2)).

Lemma split_on_slash l1 l2 : split_on 47 (l1 ++ 47 :: l2) = split_on 47 l1 ++ split_on 47 l2.
Proof.
  induction l1 as [|x l1 IH]; cbn [app split_on]; [by rewrite Z.eqb_refl|]. rewrite IH. destruct (x =? 47); [done|].
  by destruct (split_on 47 l1) as [|q qs] eqn:E; [destruct l1 as [|y l1]; cbn [split_on] in E; [done|destruct (y =? 47); [done|destruct (split_on 47 l1); done]]|].
Qed.

Lemma components_entry path n : plain_name n -> components (entry_path path n) = components path ++ [n].
Proof.
  intros [Hne Hs]. assert (En : filter (fun q => q <> []) (split_on 47 n) = [n]) by (rewrite Procfs.split_on_none by done; cbn; by rewrite decide_True).
  unfold entry_path, components. case_bool_decide as E.
  - subst path. change (47 :: n) with ([] ++ 47 :: n). rewrite split_on_slash, filter_app, En. done.
  - by rewrite split_on_slash, filter_app, En.
Qed.

Lemma ram_readdir a i cs : Ram.store fs !! a = Some i -> Ram.node i = Ram.Dir cs -> Ram.readdir fs a = Ret (Ok (map dir_entry cs)).
Proof.
  intros Ha Hi. unfold Ram.readdir. rewrite Ha. cbn [deref obind]. rewrite Hi.
  assert (Hc : Forall (fun e => is_Some (Ram.store fs !! e.2)) cs).
  { pose proof (sorted_get cs (proj1 (proj2 (ti_names _ (Ht a i Ha) cs Hi)))) as Hs. eapply Forall_impl; [exact Hs|]. intros [n c] Hb. by apply (Ram.wf_child fs Hwf a n c); exists i, cs. }
  assert (H : forall acc, ofold (fun acc '(n, c) => let! ci := deref (Ram.store fs !! c) in Ret (acc ++ [mkDirEntry n (Ram.file_type ci)])) cs acc = Ret (acc ++ map dir_entry cs));
    [|by rewrite H].
  clear Hi. induction Hc as [|[n c] cs [ci Hci] _ IH]; intros acc; cbn [ofold map]; [by rewrite app_nil_r|]. cbn [snd] in Hci. rewrite Hci. cbn [deref obind].
  rewrite IH, <- app_assoc. unfold dir_entry. cbn [fst snd app]. unfold ram_inode. by rewrite Hci.
Qed.

Lemma list_entry_ok path a i cs e : outside_proc (components path) -> Ram.walk fs (Ram.root fs) (components path) = Ret (Ok a) ->
  Ram.store fs !! a = Some i -> Ram.node i = Ram.Dir cs -> e ∈ cs -> list_entry g path (dir_entry e) = Ret (entry_row e).
Proof.
  intros Hout Hw Ha Hi He. destruct (ti_names _ (Ht a i Ha) cs Hi) as (_ & Hs & Hn). destruct e as [n c].
  pose proof (proj1 (Forall_forall _ _) (sorted_get cs Hs) _ He) as Hb. pose proof (proj1 (Forall_forall _ _) Hn _ He) as Hpl. cbn [fst snd] in Hb, Hpl.
  assert (Hch : Ram.child fs a n c) by by exists i, cs. destruct (Ram.wf_child fs Hwf a n c Hch) as [[ci Hci] _].
  assert (Ei : ram_inode fs c = ci) by (unfold ram_inode; by rewrite Hci). unfold list_entry, dir_entry, entry_row. cbn [entry_type name fst snd]. rewrite Ei.
  destruct (is_device (Ram.file_type ci)) eqn:Ed; [|destruct (Ram.file_type ci); try done; by destruct (Ram.rdev ci) as [[]|]].
  destruct (ti_device _ (Ht c ci Hci) Ed) as [[major minor] Er]. rewrite Er.
  assert (El : vfs_lookup fuel g (entry_path path n) = Ret (Ok (RamInode 0 fs c))).
  { unfold vfs_lookup. assert (Hw' : Ram.walk fs (Ram.root fs) (components path ++ [n]) = Ret (Ok c)) by (apply Ram.walk_snoc; by exists a).
    rewrite (lookup_ram fuel fs p Hproc Hwf), components_entry, Hw'; [done|done|done|]. rewrite components_entry by done.
    destruct (components path) as [|q qs]; [|done]. cbn [app outside_proc]. intros ->. cbn [app Ram.walk] in Hw'. rewrite Hproc in Hw'. injection Hw' as <-.
    destruct Hpd as (pi & pcs & Hpi & Epi). rewrite Hci in Hpi. injection Hpi as <-. by rewrite (proj1 (ti_names _ (Ht p ci Hci) pcs Epi)) in Ed. }
  rewrite El. cbn [obind rdev_of]. rewrite Ei, Er. cbn [expect obind]. destruct (Ram.file_type ci); done.
Qed.

Lemma list_dir_ok path a i cs : outside_proc (components path) -> Ram.walk fs (Ram.root fs) (components path) = Ret (Ok a) ->
  Ram.store fs !! a = Some i -> Ram.node i = Ram.Dir cs -> list_dir g path = Ret (Title path :: map entry_row cs).
Proof.
  intros Hout Hw Ha Hi. destruct (ti_names _ (Ht a i Ha) cs Hi) as (Hty & _).
  assert (Er : vfs_readdir g path = Ret (Ok (map dir_entry cs))).
  { unfold vfs_readdir, Vfs.vfs_readdir. fold (vfs_open fuel g path). rewrite (opened_ram fuel fs p Hproc Hwf g path a i) by (done || by rewrite Hty).
    unfold rbind. cbn [obind Vfs.readdir_op kernel_ops readdir Vfs.f_fops Vfs.inode]. by apply (ram_readdir a i). }
  unfold list_dir. rewrite Er. cbn [obind].
  assert (Hall : Forall (fun e => list_entry g path (dir_entry e) = Ret (entry_row e)) cs) by (apply Forall_forall; intros e He; by eapply list_entry_ok).
  assert (H : forall acc, ofold (fun rows e => let! row := list_entry g path e in Ret (rows ++ [row])) (map dir_entry cs) acc = Ret (acc ++ map entry_row cs));
    [|by rewrite H].
  clear Hi Er. induction Hall as [|e cs He _ IH]; intros acc; cbn [ofold map]; [by rewrite app_nil_r|]. rewrite He. cbn [obind]. by rewrite IH, <- app_assoc.
Qed.

Lemma show_proc b path e : e ∈ Procfs.ENTRIES -> components path = [lit "proc"; Procfs.pe_name e] ->
  let text := Procfs.generate (Procfs.content e) (kernel_of fuel g) in
  (length text < chunks)%nat -> Forall (fun c => 0 <= c <= 127) text ->
  show_file b g path = Ret (if b && bool_decide (text = []) then [Empty] else [Contents text]).
Proof.
  intros He Hpath text Hn Ha. unfold show_file. destruct (opened_proc fuel fs p Hproc g path e Hg He Hpath) as (idx & ->). cbn [obind]. fold text.
  destruct (read_text (Procfs.read (proc_in (ProcData (Z.of_nat idx + 2) text))) PROCFS_FILE_OPS (ProcInode 1 (ProcData (Z.of_nat idx + 2) text)) text chunks) as (f' & E);
    [by apply Procfs.file_stream|apply proc_reads|done|done|]. by rewrite E.
Qed.

Lemma show_ram b path a i d : outside_proc (components path) -> Ram.walk fs (Ram.root fs) (components path) = Ret (Ok a) ->
  Ram.store fs !! a = Some i -> Ram.file_type i = RegularFile -> Ram.node i = Ram.File d -> (length d < chunks)%nat -> Forall (fun c => 0 <= c <= 127) d ->
  show_file b g path = Ret (if b && bool_decide (d = []) then [Empty] else [Contents d]).
Proof.
  intros Hout Hw Ha Hty Hn Hl Has. unfold show_file. rewrite (opened_ram fuel fs p Hproc Hwf g path a i) by (done || by rewrite Hty). cbn [obind].
  destruct (read_text (Ram.read i) RAMFS_FILE_OPS (RamInode 0 fs a) d chunks (Vfs.ramfs_stream i d Hn) (ram_reads fs a i Ha) Hl Has) as (f' & E). by rewrite E.
Qed.

Lemma lift_seek a i d : Ram.store fs !! a = Some i -> Ram.node i = Ram.File d ->
  Elf.SeekFile vfs_read vfs_seek d (fun f => exists off, f = Vfs.mkFile RAMFS_FILE_OPS off (RamInode 0 fs a) /\ 0 <= off <= Z.of_nat (length d))
    (fun f => drop (Z.to_nat (Vfs.offset f)) d).
Proof.
  intros Ha Hn. split; [exact (lift_stream (Ram.read i) _ _ _ _ (Vfs.ramfs_stream i d Hn) (ram_reads fs a i Ha))|].
  intros f n (off & -> & Hoff) Hn0. unfold vfs_seek. cbn [Vfs.offset Vfs.inode Vfs.f_fops len_of seek obind].
  assert (El : Ram.len (ram_inode fs a) = Z.of_nat (length d)) by (unfold ram_inode; rewrite Ha; by apply (ti_len _ (Ht a i Ha))). rewrite El.
  eexists. split; [done|]. split; [eexists; split; [done|lia]|done].
Qed.

Lemma segment_rows_ok phs : forall n, Forall (fun ph => Elf.p_vaddr ph + Elf.p_memsz ph < USIZE) phs ->
  segment_rows (Z.of_nat n) phs = Ret (imap (fun k ph => Segment (Z.of_nat (n + k)) (type_str (Elf.p_type ph)) ph (Elf.p_vaddr ph + Elf.p_memsz ph)) phs).
Proof.
  induction phs as [|ph phs IH]; intros n Hs; [done|]. apply Forall_cons_1 in Hs as [H1 H2]. cbn [segment_rows imap]. rewrite uadd_ok by done. cbn [obind].
  replace (Z.of_nat n + 1) with (Z.of_nat (S n)) by lia. rewrite IH by done. cbn [obind]. do 2 f_equal; [f_equal; lia|]. apply imap_ext. intros k x _. cbn. f_equal. lia.
Qed.

Lemma segment_rows_overflow phs : forall n, Exists (fun ph => USIZE <= Elf.p_vaddr ph + Elf.p_memsz ph) phs -> segment_rows n phs = Panic.
Proof.
  induction phs as [|ph phs IH]; intros n He; [by apply Exists_nil in He|]. cbn [segment_rows]. destruct (decide (USIZE <= Elf.p_vaddr ph + Elf.p_memsz ph)) as [H|H].
  - unfold uadd. by rewrite (proj2 (Z.ltb_ge _ _)) by done.
  - apply Exists_cons in He as [He|He]; [done|]. rewrite uadd_ok by lia. cbn [obind]. by rewrite IH.
Qed.

(** Up to the rows of the segments. *)
Lemma inspect_elf_ok a i d : Ram.walk fs (Ram.root fs) [lit "prog_example"] = Ret (Ok a) -> Ram.store fs !! a = Some i -> Ram.file_type i = RegularFile ->
  Ram.node i = Ram.File d -> Forall byte_ok d -> let h := Elf.header_of (take 64 d) in
  64 <= Z.of_nat (length d) -> Elf.e_phoff h + 56 * Elf.e_phnum h <= Z.of_nat (length d) ->
  inspect_elf g = let! rows := segment_rows 0 (map (fun k => Elf.phdr_at d (Elf.e_phoff h + 56 * Z.of_nat k)) (seq 0 (Z.to_nat (Elf.e_phnum h)))) in
    Ret (Header (Elf.e_entry h) (Elf.e_phoff h) (Elf.e_phentsize h) (Elf.e_phnum h) :: rows).
Proof.
  intros Hw Ha Hty Hn Hb h H64 Hph. pose proof (lift_seek a i d Ha Hn) as HS. unfold inspect_elf.
  rewrite (opened_ram fuel fs p Hproc Hwf g (lit "/prog_example") a i) by (done || by rewrite Hty). cbn [obind]. set (f := Vfs.mkFile _ _ _).
  unfold Elf.read_elf64_header. destruct (Elf.read_exact_some vfs_read vfs_seek d _ _ f Elf.HEADER_SIZE) as (f1 & E1 & Hf1 & _); [exists 0; split; [done|lia]|done|exact H64|].
  rewrite E1. cbn [obind]. cbn [f Vfs.offset]. change (drop (Z.to_nat 0) d) with d. change (Z.to_nat Elf.HEADER_SIZE) with 64%nat. fold h.
  assert (Hpos : forall o n, 0 <= Elf.field (take 64 d) o n) by (intros o n; apply from_le_bound; by apply Forall_take, Forall_drop, Forall_take).
  assert (Hoff : 0 <= Elf.e_phoff h) by apply Hpos. assert (Hnum : 0 <= Elf.e_phnum h) by apply Hpos.
  unfold Elf.read_program_headers. destruct (Elf.sf_seek vfs_read vfs_seek f1 (Elf.e_phoff h) Hf1 Hoff) as (f2 & -> & Hf2 & Hc2). cbn [obind]. rewrite Z.min_l in Hc2 by lia.
  destruct (Elf.read_phdrs_ok vfs_read vfs_seek d _ _ (Z.to_nat (Elf.e_phnum h)) f2 (Elf.e_phoff h) [] Hf2 Hc2 Hoff) as (f3 & -> & _); [lia|]. done.
Qed.
End booted.

(** ** The entries of the menu *)
Section menu.
(** The globals after start-up, with an archive whose [/proc] is a directory. *)
Context (os : list Ram.insertion) (fs : Ram.Ramfs) (p : Z) (g : globals).
Context (Hos : Cpio.insert_all os Ram.new = Ret fs) (Hg : MOUNTS g = Some (boot_mounts fs p)).
Context (Hproc : Ram.lookup fs (Ram.root fs) (lit "proc") = Ret (Ok p)) (Hpd : Ram.is_dir fs p).

Lemma unpacked_wf : Ram.wf fs.
Proof. destruct (Cpio.insert_all_wf os Ram.new Ram.new_wf) as (fs' & E & Hw). rewrite Hos in E. by injection E as <-. Qed.

Lemma unpacked_tidy : tidy fs.
Proof. by eapply tidy_unpacked, Hos; apply tidy_new. Qed.

(** The contents of the file systems: whatever the archive, the listings of [/]
    and [/dev] have one row for every entry, in the order of the names, with
    the numbers of the devices, and neither [unwrap] of the listing panics; the
    message of the day is printed whole. *)
Theorem inspect_vfs_spec r rcs dv di dcs md mi d
  (Hroot : Ram.store fs !! Ram.root fs = Some r) (Hr : Ram.node r = Ram.Dir rcs)
  (Hdev : Ram.walk fs (Ram.root fs) [lit "dev"] = Ret (Ok dv)) (Hdi : Ram.store fs !! dv = Some di) (Hd : Ram.node di = Ram.Dir dcs)
  (Hmotd : Ram.walk fs (Ram.root fs) [lit "etc"; lit "motd"] = Ret (Ok md)) (Hmi : Ram.store fs !! md = Some mi)
  (Hmt : Ram.file_type mi = RegularFile) (Hm : Ram.node mi = Ram.File d) (Hl : (length d < chunks)%nat) (Ha : Forall (fun c => 0 <= c <= 127) d) :
  inspect_vfs g = Ret (Title (lit "/") :: map (entry_row fs) rcs ++ Title (lit "/dev") :: map (entry_row fs) dcs ++
    [Title (lit "Reading /etc/motd via vfs_open"); Contents d]).
Proof.
  unfold inspect_vfs. pose proof unpacked_wf as Hwf. pose proof unpacked_tidy as Ht.
  rewrite (list_dir_ok fs p g Hg Hproc Hpd Hwf Ht (lit "/") (Ram.root fs) r rcs) by done. cbn [obind].
  rewrite (list_dir_ok fs p g Hg Hproc Hpd Hwf Ht (lit "/dev") dv di dcs) by done. cbn [obind].
  by rewrite (show_ram fs p g Hg Hproc Hwf false (lit "/etc/motd") md mi d) by done.
Qed.

(** The contents of [/proc]: the four files are listed, and those shown are
    shown as the kernel generates them.  The type of the file system is never
    known, as the inodes of [/proc] have no superblock, and neither text is
    ever empty. *)
Theorem inspect_procfs_spec (k := kernel_of fuel g)
  (Hlen : Forall (fun t => (length t < chunks)%nat /\ Forall (fun c => 0 <= c <= 127) t)
    [Procfs.gen_devices k; Procfs.gen_mounts k; lit "Nano OS 0.1.0 (riscv64)" ++ [10]]) :
  inspect_procfs g = Ret [Title (lit "/proc inode"); InodeType Directory; InodeLen 0; FsType None;
    Title (lit "/proc directory"); Listed 102 (lit "devices"); Listed 102 (lit "filesystems"); Listed 102 (lit "mounts"); Listed 102 (lit "version");
    Title (lit "/proc/version"); Contents (lit "Nano OS 0.1.0 (riscv64)" ++ [10]);
    Title (lit "/proc/mounts"); Contents (Procfs.gen_mounts k); Title (lit "/proc/devices"); Contents (Procfs.gen_devices k)].
Proof.
  apply Forall_cons in Hlen as [[Hd1 Hd2] Hlen]. apply Forall_cons in Hlen as [[Hm1 Hm2] Hlen]. apply Forall_cons in Hlen as [[Hv1 Hv2] _].
  assert (El : vfs_lookup fuel g (lit "/proc") = Ret (Ok (ProcInode 1 ProcDir))) by (unfold vfs_lookup; by rewrite (lookup_proc fuel fs p Hproc _ _ (lit "/proc") [])).
  assert (Er : vfs_readdir g (lit "/proc") = Ret (Ok (map (fun e => mkDirEntry (Procfs.pe_name e) RegularFile) (Procfs.ENTRIES (I := inode) (O := ops) (V := BlockInit.dyn_volume))))).
  { unfold vfs_readdir, Vfs.vfs_readdir, Vfs.vfs_open. fold (vfs_lookup fuel g (lit "/proc")). by rewrite El. }
  unfold inspect_procfs. rewrite El. cbn [obind]. rewrite Er. cbn [obind].
  rewrite (show_proc fs p g Hg Hproc false (lit "/proc/version") (Procfs.mkProcEntry (lit "version") (Procfs.Static (lit "Nano OS 0.1.0 (riscv64)" ++ [10])))) by (done || by repeat constructor). cbn [obind].
  rewrite (show_proc fs p g Hg Hproc true (lit "/proc/mounts") (Procfs.mkProcEntry (lit "mounts") (Procfs.Dynamic Procfs.gen_mounts))) by (done || by repeat constructor). cbn [obind].
  rewrite (show_proc fs p g Hg Hproc true (lit "/proc/devices") (Procfs.mkProcEntry (lit "devices") (Procfs.Dynamic Procfs.gen_devices))) by (done || by repeat constructor). cbn [obind].
  cbn [Procfs.generate Procfs.content andb]. fold k. rewrite !bool_decide_false; [done|done|].
  unfold k, kernel_of, Procfs.gen_mounts, Vfs.mounts, view. cbn [Procfs.vfs Vfs.MOUNTS]. by rewrite Hg.
Qed.

(** The headers of the program: every field as it is in the file. *)
Theorem inspect_elf_spec a i d (h := Elf.header_of (take 64 d)) (phs := map (fun k => Elf.phdr_at d (Elf.e_phoff h + 56 * Z.of_nat k)) (seq 0 (Z.to_nat (Elf.e_phnum h))))
  (Hw : Ram.walk fs (Ram.root fs) [lit "prog_example"] = Ret (Ok a)) (Ha : Ram.store fs !! a = Some i) (Hty : Ram.file_type i = RegularFile)
  (Hn : Ram.node i = Ram.File d) (Hb : Forall byte_ok d) (H64 : 64 <= Z.of_nat (length d)) (Hph : Elf.e_phoff h + 56 * Elf.e_phnum h <= Z.of_nat (length d))
  (Hseg : Forall (fun ph => Elf.p_vaddr ph + Elf.p_memsz ph < USIZE) phs) :
  inspect_elf g = Ret (Header (Elf.e_entry h) (Elf.e_phoff h) (Elf.e_phentsize h) (Elf.e_phnum h) ::
    imap (fun k ph => Segment (Z.of_nat k) (type_str (Elf.p_type ph)) ph (Elf.p_vaddr ph + Elf.p_memsz ph)) phs).
Proof.
  rewrite (inspect_elf_ok fs p g Hg Hproc unpacked_wf unpacked_tidy a i d) by done. fold h phs.
  pose proof (segment_rows_ok phs 0 Hseg) as E. change (Z.of_nat 0) with 0 in E. by rewrite E.
Qed.

(** A program header whose segment ends past the last address stops the kernel. *)
Theorem inspect_elf_overflow a i d (h := Elf.header_of (take 64 d)) (phs := map (fun k => Elf.phdr_at d (Elf.e_phoff h + 56 * Z.of_nat k)) (seq 0 (Z.to_nat (Elf.e_phnum h))))
  (Hw : Ram.walk fs (Ram.root fs) [lit "prog_example"] = Ret (Ok a)) (Ha : Ram.store fs !! a = Some i) (Hty : Ram.file_type i = RegularFile)
  (Hn : Ram.node i = Ram.File d) (Hb : Forall byte_ok d) (H64 : 64 <= Z.of_nat (length d)) (Hph : Elf.e_phoff h + 56 * Elf.e_phnum h <= Z.of_nat (length d))
  (Hseg : Exists (fun ph => USIZE <= Elf.p_vaddr ph + Elf.p_memsz ph) phs) :
  inspect_elf g = Panic.
Proof.
  rewrite (inspect_elf_ok fs p g Hg Hproc unpacked_wf unpacked_tidy a i d) by done. fold h phs. by rewrite (segment_rows_overflow phs 0).
Qed.
End menu.
End listings.

(** ** An example *)
Definition demo_insertions (elf : list Z) : list Ram.insertion :=
  map Cpio.insertion_of demo_entries ++ [Ram.InsFile (lit "prog_example") elf].

Definition menu_fs (elf : list Z) : Ram.Ramfs := match Cpio.insert_all (demo_insertions elf) Ram.new with Ret fs => fs | _ => Ram.new end.

Definition menu_at (elf : list Z) (names : list (list Z)) : Z :=
  match Ram.walk (menu_fs elf) (Ram.root (menu_fs elf)) names with Ret (Ok a) => a | _ => 0 end.

Definition menu_globals (elf : list Z) : KMain.globals := booted (menu_fs elf) (menu_at elf [lit "proc"]) (menu_at elf [lit "dev"; lit "console"]).

Definition menu_children (elf : list Z) (a : Z) : list (list Z * Z) :=
  match Ram.node (ram_inode (menu_fs elf) a) with Ram.Dir cs => cs | _ => [] end.

Lemma menu_unpacked elf : Cpio.insert_all (demo_insertions elf) Ram.new = Ret (menu_fs elf).
Proof. unfold menu_fs. destruct (Cpio.insert_all_wf (demo_insertions elf) Ram.new Ram.new_wf) as (fs & E & _). by rewrite E. Qed.

Lemma inspect_vfs_spec_witness : inspect_vfs 100 100 (menu_globals []) = Ret
  [Title (lit "/"); Listed 100 (lit "dev"); Listed 100 (lit "etc"); Listed 100 (lit "newroot"); Listed 100 (lit "proc"); Listed 102 (lit "prog_example");
   Title (lit "/dev"); Device 99 (lit "console") 5 1; Device 98 (lit "sda2") 8 2;
   Title (lit "Reading /etc/motd via vfs_open"); Contents (lit "hello")].
Proof.
  rewrite (inspect_vfs_spec 100 100 (demo_insertions []) (menu_fs []) (menu_at [] [lit "proc"]) (menu_globals []) (menu_unpacked []) eq_refl)
    with (r := ram_inode (menu_fs []) (Ram.root (menu_fs []))) (rcs := menu_children [] (Ram.root (menu_fs [])))
      (dv := menu_at [] [lit "dev"]) (di := ram_inode (menu_fs []) (menu_at [] [lit "dev"])) (dcs := menu_children [] (menu_at [] [lit "dev"]))
      (md := menu_at [] [lit "etc"; lit "motd"]) (mi := ram_inode (menu_fs []) (menu_at [] [lit "etc"; lit "motd"])) (d := lit "hello");
    try (vm_compute; reflexivity).
  - eexists _, _. split; vm_compute; reflexivity.
  - vm_compute. lia.
  - repeat constructor; vm_compute; discriminate.
Defined.

Lemma inspect_procfs_spec_witness : inspect_procfs 100 1000 (menu_globals []) = Ret
  [Title (lit "/proc inode"); InodeType Directory; InodeLen 0; FsType None;
   Title (lit "/proc directory"); Listed 102 (lit "devices"); Listed 102 (lit "filesystems"); Listed 102 (lit "mounts"); Listed 102 (lit "version");
   Title (lit "/proc/version"); Contents (lit "Nano OS 0.1.0 (riscv64)" ++ [10]);
   Title (lit "/proc/mounts"); Contents (lit "ramfs / 0" ++ [10] ++ lit "proc /proc 1" ++ [10]);
   Title (lit "/proc/devices"); Contents (lit "Character devices:" ++ [10] ++ lit "  5 /dev/console (5:1)" ++ [10; 10] ++ lit "Block devices:" ++ [10])].
Proof.
  rewrite (inspect_procfs_spec 100 1000 (menu_fs []) (menu_at [] [lit "proc"]) (menu_globals []) eq_refl); [vm_compute; reflexivity|vm_compute; reflexivity|].
  repeat apply Forall_cons_2; [split..|apply Forall_nil_2].
  all: [> vm_compute; lia|apply (bool_decide_unpack _); vm_compute; exact I|vm_compute; lia|apply (bool_decide_unpack _); vm_compute; exact I|vm_compute; lia|apply (bool_decide_unpack _); vm_compute; exact I].
Defined.

(** The demonstration program and one whose segment does not end. *)
Definition long_elf : list Z := LoadInv.small_elf [(1, 64, USIZE - 1, 4, 4)].

Lemma inspect_elf_spec_witness : inspect_elf 100 (menu_globals LoadInv.demo_elf) = Ret
  [Header 0x10078 64 56 1; Segment 0 (lit "LOAD") (Elf.mkPhdr 1 5 0 0x10000 0x10000 124 200 4096) 0x100c8].
Proof.
  rewrite (inspect_elf_spec 100 (demo_insertions LoadInv.demo_elf) (menu_fs LoadInv.demo_elf) (menu_at LoadInv.demo_elf [lit "proc"]) (menu_globals LoadInv.demo_elf)
    (menu_unpacked _) eq_refl) with (a := menu_at LoadInv.demo_elf [lit "prog_example"]) (i := ram_inode (menu_fs LoadInv.demo_elf) (menu_at LoadInv.demo_elf [lit "prog_example"])) (d := LoadInv.demo_elf);
    [vm_compute; reflexivity..| | | |].
  - apply (bool_decide_unpack _). vm_compute. exact I.
  - vm_compute. discriminate.
  - vm_compute. discriminate.
  - apply (bool_decide_unpack _). vm_compute. exact I.
Defined.

Lemma inspect_elf_overflow_witness : inspect_elf 100 (menu_globals long_elf) = Panic.
Proof.
  apply (inspect_elf_overflow 100 (demo_insertions long_elf) (menu_fs long_elf) (menu_at long_elf [lit "proc"]) (menu_globals long_elf) (menu_unpacked _) eq_refl)
    with (a := menu_at long_elf [lit "prog_example"]) (i := ram_inode (menu_fs long_elf) (menu_at long_elf [lit "prog_example"])) (d := long_elf);
    [vm_compute; reflexivity..| | | |].
  - apply (bool_decide_unpack _). vm_compute. exact I.
  - vm_compute. discriminate.
  - vm_compute. discriminate.
  - apply (bool_decide_unpack _). vm_compute. exact I.
Defined.

End Listings.
