(* ===== verification/Ext2Inspect.v ===== *)
(** * The inspection of the disk

    Models the thread of [src/src/kthread/ext2_inspect.rs], which the menu
    starts: once the disk is mounted on [/newroot] it prints the superblock, the
    root directory and parts of two files, and looks names up again.  What is
    printed is a list of rows; the addresses of the inodes are left out. *)

From S2P Require Import Prelude Bytes File Ramfs Ext2 Cpio Vfs Procfs Block BlockInit Elf KernelMain Listings.

Module Ext2Inspect.
Import Fl KMain Listings.

Inductive row :=
| Volume (blocks bs inodes groups : Z) (label : option (list Z))
| Group (i inode_table : Z)
| Journal (inum blocks kb : Z)
| NoJournal
| Root (ino : Z) (t : FileType) (len : Z)
| Entries (n : Z)
| Entry (c : Z) (name : list Z)
| Text (what text : list Z)
| Failed (what : list Z) (e : Error)
| Found (n : Z) (name : list Z).

(** [from_utf8(..).unwrap_or("<invalid utf8>")] *)
Definition text_of (l : list Z) : list Z := if utf8_valid l then l else lit "<invalid utf8>".

Definition volume_rows (s : Ext2.Ext2SuperBlock) : outcome (list row) :=
  let! bs := Ext2.block_size s in
  let! groups := Ext2.num_groups s in
  let! journal := match Ext2.journal_inum s, Ext2.journal_blocks s with
    | Some inum, Some blocks => let! bytes := u32_mul blocks bs in Ret [Journal inum blocks (bytes / 1024)]
    | None, _ => Ret [NoJournal]
    | _, _ => Ret []
    end in
  Ret (Volume (Ext2.blocks_count s) bs (Ext2.inodes_count s) groups (Ext2.volume_label s) ::
       imap (fun i t => Group (Z.of_nat i) t) (Ext2.groups s) ++ journal).

Section inspect.
Context (fuel : nat).

(** One [fops.read] into a buffer of [n] bytes, printed. *)
Definition read_row (what err : list Z) (f : file) (n : Z) : outcome (row * file) :=
  let! ' (r, f) := vfs_read f n in
  Ret (match r with Ok chunk => Text what (text_of chunk) | Err e => Failed err e end, f).

(** [fops.open(inode).unwrap()]: the files of ext2 have the default [open]. *)
Definition open_file (i : inode) : file := Vfs.file_new (fops_of i) i.

Definition root_rows (root : inode) (ino : Z) : outcome (list row) :=
  let f := open_file root in
  let! r := readdir fuel (Vfs.f_fops f) (Vfs.inode f) in
  Ret (Root ino (file_type_of root) (len_of root) ::
       match r with
       | Ok entries => Entries (Z.of_nat (length entries)) :: map (fun e => Entry (type_char (entry_type e)) (name e)) entries
       | Err e => [Failed (lit "readdir failed") e]
       end).

(** The two files; [false]: a failed [seek] ends the thread. *)
Definition hello_rows (root : inode) : outcome (list row * bool) :=
  let! r := lookup fuel root (lit "hello.txt") in
  match r with
  | Err e => Ret ([Failed (lit "lookup hello.txt failed") e], true)
  | Ok i =>
      let! ' (full, _) := read_row (lit "hello.txt full") (lit "hello.txt full read failed") (open_file i) 256 in
      let! ' (r, f) := vfs_seek (open_file i) (Current 5) in
      match r with
      | Err e => Ret ([full; Failed (lit "hello.txt seek failed") e], false)
      | Ok _ =>
          let! ' (a, f) := read_row (lit "hello.txt [5..10]") (lit "hello.txt read [5..10] failed") f 5 in
          let! ' (b, _) := read_row (lit "hello.txt [10..]") (lit "hello.txt read [10..] failed") f 256 in
          Ret ([full; a; b], true)
      end
  end.

Definition large_rows (s : Ext2.Ext2SuperBlock) (root : inode) : outcome (list row * bool) :=
  let! r := lookup fuel root (lit "large.txt") in
  match r with
  | Err e => Ret ([Failed (lit "lookup large.txt failed") e], true)
  | Ok i =>
      let! bs := Ext2.block_size s in
      let! indirect_offset := umul 12 bs in
      let! ' (r, f) := vfs_seek (open_file i) (Start indirect_offset) in
      match r with
      | Err e => Ret ([Failed (lit "large.txt seek failed") e], false)
      | Ok _ =>
          let! ' (a, _) := read_row (lit "large.txt indirect") (lit "large.txt read failed") f 64 in
          Ret ([a], true)
      end
  end.

(** The lookups that show the inode cache: the failure of the first two is not
    printed. *)
Definition lookup_rows (root : inode) : outcome (list row) :=
  let found n name r := match r with Ok _ => [Found n name] | Err _ => [] end in
  let! inode1 := lookup fuel root (lit "hello.txt") in
  let! inode2 := lookup fuel root (lit "hello.txt") in
  let! inode3 := lookup fuel root (lit "hello.txt") in
  let! inode4 := lookup fuel root (lit "lost+found") in
  Ret (found 1 (lit "hello.txt") inode1 ++ found 2 (lit "hello.txt") inode2 ++
       match inode3 with Ok _ => [Found 3 (lit "hello.txt")] | Err e => [Failed (lit "lookup[3] hello.txt failed") e] end ++
       match inode4 with Ok _ => [Found 4 (lit "lost+found")] | Err e => [Failed (lit "lookup[4] lost+found failed") e] end).

(** The thread once the file systems are ready.  Only the inodes of ext2 have a
    superblock, so the cast to its type is sound. *)
Definition inspect (g : KMain.globals) : outcome (list row) :=
  let! r := vfs_lookup fuel g EXT2_MOUNTPOINT in
  match r with
  | Ok (Ext2Inode m v s _) =>
      let! volume := volume_rows s in
      let! root := expect (Ext2.root s) in
      let ino := Ext2.ino root in
      let root := Ext2Inode m v s root in
      let! dir := root_rows root ino in
      let! ' (hello, go) := hello_rows root in
      if negb go then Ret (volume ++ dir ++ hello)
      else
        let! ' (large, go) := large_rows s root in
        if negb go then Ret (volume ++ dir ++ hello ++ large)
        else
          let! lookups := lookup_rows root in
          Ret (volume ++ dir ++ hello ++ large ++ lookups)
  | Ok _ => Panic
  | Err _ => Panic
  end.

(** The whole thread: it yields until [KERNEL_READY], seen in the globals at
    each of its turns. *)
Fixpoint inspect_thread (turns : list KMain.globals) : outcome (option (list row)) :=
  match turns with
  | [] => Ret None
  | g :: turns => if KERNEL_READY g then let! rows := inspect g in Ret (Some rows) else inspect_thread turns
  end.

(** ** On a disk *)
Section disk.
Context (m : nat) (v : BlockInit.dyn_volume) (s : Ext2.Ext2SuperBlock) (root : Ext2.Inode) (bs : Z) (ps : list Z) (dbs : list (list Ext2.dirent)).
Context (Hgeo : Ext2.geometry s bs) (Hdir : Ext2.dir_stored (volume_get v) bs root ps dbs) (Hfuel : (length (mjoin dbs) < fuel)%nat).
Notation entries := (mjoin dbs ≫= Ext2.visible).

(** The root directory has an entry [n], of the inode [i]. *)
Definition named (n : list Z) (i : Ext2.Inode) : Prop :=
  exists k e s', list_find (fun e => Ext2.rname e = n) entries = Some (k, e) /\
    Ext2.get_or_read_inode (volume_get v) (fun _ => false) s (Ext2.rino e) = Ret (Ok (i, s')).

(** It is a file with the bytes [data]. *)
Definition holds (n : list Z) (i : Ext2.Inode) (data : list Z) : Prop :=
  named n i /\ exists qs, Ext2.stored (volume_get v) bs i qs data.

Lemma lookup_named n i : named n i -> lookup fuel (Ext2Inode m v s root) n = Ret (Ok (Ext2Inode m v s i)).
Proof.
  intros (k & e & s' & Hf & Hi). cbn [lookup]. rewrite (Ext2.ext2_lookup_spec _ s bs root ps dbs) by done. rewrite Hf. unfold rbind, map_err. by rewrite Hi.
Qed.

Lemma read_row_ok what err i qs data (off n : nat) : Ext2.stored (volume_get v) bs i qs data -> (off <= length data)%nat ->
  read_row what err (Vfs.mkFile EXT2_FILE_OPS (Z.of_nat off) (Ext2Inode m v s i)) (Z.of_nat n) =
    Ret (Text what (text_of (take n (drop off data))), Vfs.mkFile EXT2_FILE_OPS (Z.of_nat (off + length (take n (drop off data)))) (Ext2Inode m v s i)).
Proof.
  intros Hst Hoff. unfold read_row, vfs_read. cbn [Vfs.f_fops Vfs.inode Vfs.offset]. by rewrite (Ext2.read_stored _ s bs i qs data off n Hgeo Hst Hoff).
Qed.

Lemma drop_min {A} (l : list A) k : drop (Nat.min k (length l)) l = drop k l.
Proof. destruct (Nat.le_gt_cases k (length l)); [by rewrite Nat.min_l by lia|]. by rewrite Nat.min_r, !drop_ge by lia. Qed.

Lemma hello_rows_ok i data : holds (lit "hello.txt") i data -> hello_rows (Ext2Inode m v s root) =
  Ret ([Text (lit "hello.txt full") (text_of (take 256 data)); Text (lit "hello.txt [5..10]") (text_of (take 5 (drop 5 data)));
        Text (lit "hello.txt [10..]") (text_of (take 256 (drop 10 data)))], true).
Proof.
  intros [Hn (qs & Hst)]. unfold hello_rows. rewrite (lookup_named _ i Hn). cbn [obind]. set (f := open_file _). pose proof (Ext2.sd_len _ _ _ _ _ Hst) as Hlen.
  pose proof (read_row_ok (lit "hello.txt full") (lit "hello.txt full read failed") i qs data 0 256 Hst ltac:(lia)) as E. rewrite drop_0 in E.
  change (Vfs.mkFile EXT2_FILE_OPS (Z.of_nat 0) (Ext2Inode m v s i)) with f in E. change (Z.of_nat 256) with 256 in E. rewrite E. cbn [obind]. clear E.
  set (k := Nat.min 5 (length data)).
  assert (Es : vfs_seek f (Current 5) = Ret (Ok tt, Vfs.mkFile EXT2_FILE_OPS (Z.of_nat k) (Ext2Inode m v s i))).
  { unfold vfs_seek, f, open_file, Vfs.file_new. cbn [Vfs.offset Vfs.inode Vfs.f_fops len_of fops_of seek]. rewrite Hlen. unfold saturating_add. cbn [Z.leb Z.compare obind].
    do 3 f_equal. unfold USIZE. lia. }
  rewrite Es. cbn [obind].
  pose proof (read_row_ok (lit "hello.txt [5..10]") (lit "hello.txt read [5..10] failed") i qs data k 5 Hst ltac:(lia)) as E. change (Z.of_nat 5) with 5 in E. rewrite E. cbn [obind]. clear E.
  unfold k. rewrite drop_min. set (j := (_ + length (take 5 (drop 5 data)))%nat).
  assert (Hj : j = Nat.min 10 (length data)) by (unfold j; rewrite length_take, length_drop; lia).
  pose proof (read_row_ok (lit "hello.txt [10..]") (lit "hello.txt read [10..] failed") i qs data j 256 Hst ltac:(lia)) as E. change (Z.of_nat 256) with 256 in E. rewrite E. cbn [obind].
  by rewrite Hj, drop_min.
Qed.

Lemma large_rows_ok i data : holds (lit "large.txt") i data -> large_rows s (Ext2Inode m v s root) =
  Ret ([Text (lit "large.txt indirect") (text_of (take 64 (drop (Z.to_nat (12 * bs)) data)))], true).
Proof.
  intros [Hn (qs & Hst)]. unfold large_rows. rewrite (lookup_named _ i Hn). cbn [obind]. rewrite (Ext2.block_size_ok _ _ Hgeo). cbn [obind].
  pose proof (Ext2.geometry_cases _ _ Hgeo) as Hc. rewrite umul_ok by (unfold USIZE; lia). cbn [obind]. pose proof (Ext2.sd_len _ _ _ _ _ Hst) as Hlen.
  set (k := Nat.min (Z.to_nat (12 * bs)) (length data)).
  assert (Es : vfs_seek (open_file (Ext2Inode m v s i)) (Start (12 * bs)) = Ret (Ok tt, Vfs.mkFile EXT2_FILE_OPS (Z.of_nat k) (Ext2Inode m v s i))).
  { unfold vfs_seek, open_file, Vfs.file_new. cbn [Vfs.offset Vfs.inode Vfs.f_fops len_of fops_of seek obind]. rewrite Hlen. do 3 f_equal. lia. }
  rewrite Es. cbn [obind].
  pose proof (read_row_ok (lit "large.txt indirect") (lit "large.txt read failed") i qs data k 64 Hst ltac:(lia)) as E. change (Z.of_nat 64) with 64 in E. rewrite E. cbn [obind].
  unfold k. by rewrite drop_min.
Qed.

Lemma lookup_rows_ok i j : named (lit "hello.txt") i -> named (lit "lost+found") j ->
  lookup_rows (Ext2Inode m v s root) = Ret [Found 1 (lit "hello.txt"); Found 2 (lit "hello.txt"); Found 3 (lit "hello.txt"); Found 4 (lit "lost+found")].
Proof. intros Hi Hj. unfold lookup_rows. by rewrite (lookup_named _ i Hi), (lookup_named _ j Hj). Qed.

(** The superblock, without a journal or with one of at most 4 GiB. *)
Definition journal_row : list row :=
  match Ext2.journal_inum s, Ext2.journal_blocks s with
  | Some inum, Some blocks => [Journal inum blocks (blocks * bs / 1024)]
  | None, _ => [NoJournal]
  | _, _ => []
  end.

Lemma volume_rows_ok : 0 < Ext2.blocks_per_group s -> 0 <= Ext2.blocks_count s -> Ext2.blocks_count s + Ext2.blocks_per_group s < U32 ->
  (forall n, Ext2.journal_blocks s = Some n -> n * bs < U32) ->
  volume_rows s = Ret (Volume (Ext2.blocks_count s) bs (Ext2.inodes_count s) ((Ext2.blocks_count s + Ext2.blocks_per_group s - 1) / Ext2.blocks_per_group s) (Ext2.volume_label s) ::
    imap (fun i t => Group (Z.of_nat i) t) (Ext2.groups s) ++ journal_row).
Proof.
  intros Hb Hc Hn Hj. unfold volume_rows, Ext2.num_groups, journal_row. rewrite (Ext2.block_size_ok _ _ Hgeo). cbn [obind]. rewrite u32_add_ok by done. cbn [obind].
  rewrite usub_ok by lia. cbn [obind]. rewrite udiv_ok by lia. cbn [obind].
  destruct (Ext2.journal_inum s), (Ext2.journal_blocks s) as [n|]; cbn [obind]; try done. by rewrite u32_mul_ok by by apply Hj.
Qed.

Definition dir_rows : list row :=
  Root (Ext2.ino root) Fl.Directory (Ext2.len root) :: Entries (Z.of_nat (length entries)) ::
  map (fun e => Entry (type_char (Ext2.dirent_type (Ext2.rtype e))) (Ext2.rname e)) entries.

Lemma root_rows_ok : root_rows (Ext2Inode m v s root) (Ext2.ino root) = Ret dir_rows.
Proof.
  unfold root_rows, open_file, Vfs.file_new. cbn [Vfs.f_fops Vfs.inode fops_of readdir]. rewrite (Ext2.readdir_stored _ s bs root ps dbs) by done. cbn [obind].
  unfold dir_rows. cbn [file_type_of len_of]. rewrite (Ext2.ds_type _ _ _ _ _ Hdir), length_fmap, map_map. done.
Qed.

(** The thread waits for the file systems and then prints the disk as it is:
    the numbers of the superblock, every visible entry of the root directory,
    the parts of the two files at the offsets it names, whatever their length,
    with the blocks behind the indirect pointer, and finds the names again. *)
Theorem inspect_thread_spec waits g later x hi hd li ld fi
  (Hwait : Forall (fun g => KERNEL_READY g = false) waits) (Hready : KERNEL_READY g = true)
  (Hmnt : vfs_lookup fuel g EXT2_MOUNTPOINT = Ret (Ok (Ext2Inode m v s x))) (Hroot : Ext2.root s = Some root)
  (Hb : 0 < Ext2.blocks_per_group s) (Hc : 0 <= Ext2.blocks_count s) (Hn : Ext2.blocks_count s + Ext2.blocks_per_group s < U32)
  (Hj : forall n, Ext2.journal_blocks s = Some n -> n * bs < U32)
  (Hhello : holds (lit "hello.txt") hi hd) (Hlarge : holds (lit "large.txt") li ld) (Hlost : named (lit "lost+found") fi) :
  inspect_thread (waits ++ g :: later) = Ret (Some (
    Volume (Ext2.blocks_count s) bs (Ext2.inodes_count s) ((Ext2.blocks_count s + Ext2.blocks_per_group s - 1) / Ext2.blocks_per_group s) (Ext2.volume_label s) ::
    imap (fun i t => Group (Z.of_nat i) t) (Ext2.groups s) ++ journal_row ++ dir_rows ++
    [Text (lit "hello.txt full") (text_of (take 256 hd)); Text (lit "hello.txt [5..10]") (text_of (take 5 (drop 5 hd)));
     Text (lit "hello.txt [10..]") (text_of (take 256 (drop 10 hd))); Text (lit "large.txt indirect") (text_of (take 64 (drop (Z.to_nat (12 * bs)) ld)));
     Found 1 (lit "hello.txt"); Found 2 (lit "hello.txt"); Found 3 (lit "hello.txt"); Found 4 (lit "lost+found")])).
Proof.
  induction Hwait as [|g0 waits H0 _ IH]; cbn [app inspect_thread]; [|by rewrite H0]. rewrite Hready. unfold inspect. rewrite Hmnt. cbn [obind].
  rewrite volume_rows_ok by done. cbn [obind]. rewrite Hroot. cbn [expect obind]. rewrite root_rows_ok. cbn [obind].
  rewrite (hello_rows_ok hi hd Hhello). cbn [obind negb]. rewrite (large_rows_ok li ld Hlarge). cbn [obind negb].
  rewrite (lookup_rows_ok hi fi (proj1 Hhello) Hlost). cbn [obind]. by rewrite <- app_comm_cons, <- !app_assoc.
Qed.
End disk.
End inspect.

(** ** An example: the disk of [KernelMain] with another root directory, in
    which the two names are links to one file *)
Definition link_dir : list Ext2.dirent :=
  [Ext2.mkDirent 2 (lit ".") 2 [0; 0; 0]; Ext2.mkDirent 2 (lit "lost+found") 2 [0; 0]; Ext2.mkDirent 12 (lit "hello.txt") 1 [0; 0; 0];
   Ext2.mkDirent 12 (lit "large.txt") 1 (replicate 955 0)].

Definition link_block (b : Z) : list Z := if b =? 30 then Ext2.block_bytes link_dir else demo_block b.

Definition link_disk : Vol.BlockDisk :=
  Vol.mkDisk (fun sector n => Ok (take (Z.to_nat n) (link_block (sector / 2) ++ link_block (sector / 2 + 1) ++ link_block (sector / 2 + 2) ++ link_block (sector / 2 + 3)))).

Definition link_volume : BlockInit.dyn_volume := BlockInit.Whole (Vol.mkWhole link_disk).

Definition link_sb : Ext2.Ext2SuperBlock :=
  match Ext2.new (volume_get link_volume) (fun _ => false) with Ret (Ok s) => s | _ => Ext2.sb_empty end.

Definition link_globals (ready : bool) : KMain.globals :=
  let g := booted demo_fs (demo_at [lit "proc"]) (demo_at [lit "dev"; lit "console"]) in
  if ready then mounted demo_fs (demo_at [lit "proc"]) (demo_at [lit "newroot"]) link_volume link_sb demo_root g else g.

Lemma link_geometry : Ext2.geometry link_sb 1024.
Proof. split; vm_compute; done. Qed.

Lemma link_root_stored : Ext2.dir_stored (volume_get link_volume) 1024 demo_root [30] [link_dir].
Proof.
  split; try done.
  - apply demo_laid_out; [|simpl; lia|by eexists]. repeat constructor; unfold U32; lia.
  - cbn [length]. lia.
  - intros [|k] p ds; simpl; intros [= <-] [= <-]. split_and!; [lia|done| |by vm_compute|].
    + repeat constructor; unfold U32, Ext2.rec_len, U16; simpl; lia.
    + exists (replicate 3072 0). by vm_compute.
Qed.

Lemma link_file_stored : Ext2.stored (volume_get link_volume) 1024 Ext2.demo_file [20; 21] Ext2.demo_data.
Proof.
  split; try done.
  - apply demo_laid_out; [|simpl; lia|by eexists]. repeat constructor; unfold U32; lia.
  - cbn [length]. lia.
  - vm_compute. lia.
  - intros [|[|k]] p; cbn [lookup list_lookup]; intros [= <-] _; (split; [lia|]);
      [exists (link_block 21 ++ replicate 2048 0)|exists (replicate 3620 0)]; by vm_compute.
Qed.

Lemma link_named n k ino i : list_find (fun e => Ext2.rname e = n) (mjoin [link_dir] ≫= Ext2.visible) = Some (k, ino) ->
  (exists s', Ext2.get_or_read_inode (volume_get link_volume) (fun _ => false) link_sb (Ext2.rino ino) = Ret (Ok (i, s'))) -> named link_volume link_sb [link_dir] n i.
Proof. intros Hf (s' & Hi). exists k, ino, s'. split; [exact Hf|exact Hi]. Qed.

Lemma link_mounted : vfs_lookup 100 (link_globals true) EXT2_MOUNTPOINT = Ret (Ok (Ext2Inode 2 link_volume link_sb demo_root)).
Proof.
  unfold link_globals. rewrite (mounted_lookup_inside 100 demo_fs (demo_at [lit "proc"])) with (rest := []); [reflexivity|apply demo_bootable| | |reflexivity|reflexivity].
  - destruct (Cpio.insert_all_wf (map Cpio.insertion_of demo_entries) Ram.new Ram.new_wf) as (fs' & E & Hwf). unfold demo_fs. by rewrite E.
  - vm_compute. reflexivity.
Qed.

Lemma inspect_thread_spec_witness : inspect_thread 100 [link_globals false; link_globals false; link_globals true] = Ret (Some
  [Volume 64 1024 16 1 None; Group 0 5; NoJournal; Root 2 Directory 1024; Entries 4;
   Entry 100 (lit "."); Entry 100 (lit "lost+found"); Entry 102 (lit "hello.txt"); Entry 102 (lit "large.txt");
   Text (lit "hello.txt full") (lit "<invalid utf8>"); Text (lit "hello.txt [5..10]") [5; 6; 7; 8; 9]; Text (lit "hello.txt [10..]") (lit "<invalid utf8>");
   Text (lit "large.txt indirect") []; Found 1 (lit "hello.txt"); Found 2 (lit "hello.txt"); Found 3 (lit "hello.txt"); Found 4 (lit "lost+found")]).
Proof.
  assert (Hh : named link_volume link_sb [link_dir] (lit "hello.txt") Ext2.demo_file) by (eapply (link_named _ 2%nat (Ext2.mkRaw 12 (lit "hello.txt") 1)); [vm_compute; reflexivity|eexists; vm_compute; reflexivity]).
  assert (Hl : named link_volume link_sb [link_dir] (lit "large.txt") Ext2.demo_file) by (eapply (link_named _ 3%nat (Ext2.mkRaw 12 (lit "large.txt") 1)); [vm_compute; reflexivity|eexists; vm_compute; reflexivity]).
  assert (Hf : named link_volume link_sb [link_dir] (lit "lost+found") demo_root) by (eapply (link_named _ 1%nat (Ext2.mkRaw 2 (lit "lost+found") 2)); [vm_compute; reflexivity|eexists; vm_compute; reflexivity]).
  pose proof (inspect_thread_spec 100 2 link_volume link_sb demo_root 1024 [30] [link_dir] link_geometry link_root_stored ltac:(cbn; lia)
    [link_globals false; link_globals false] (link_globals true) [] demo_root Ext2.demo_file Ext2.demo_data Ext2.demo_file Ext2.demo_data demo_root) as H.
  cbn [app] in H. rewrite H; [vm_compute; reflexivity|..].
  - by repeat constructor.
  - reflexivity.
  - exact link_mounted.
  - vm_compute. reflexivity.
  - vm_compute. reflexivity.
  - vm_compute. discriminate.
  - vm_compute. reflexivity.
  - intros n Hn. vm_compute in Hn. discriminate Hn.
  - split; [exact Hh|]. exists [20; 21]. apply link_file_stored.
  - split; [exact Hl|]. exists [20; 21]. apply link_file_stored.
  - exact Hf.
Defined.

End Ext2Inspect.
