(* ===== verification/Waiting.v ===== *)
(** * Waiting for interrupts

    Models the loops that sleep in [wfi]: [idle_entry] of
    [src/src/kthread/idle.rs] (Module [Idle]) and the wait for a transfer in
    [src/src/demos/sd_adma.rs] and [virtio_blk.rs] (Module [DoneWait]), one
    instruction at a time.  Both depend on [kernel_trap_handler], which steps
    over a [wfi] it interrupted and returns with interrupts off.

    [pending] are the interrupts the hart has noticed and not served.  A pending
    interrupt is taken before the next instruction when interrupts are on; [wfi]
    ends, whether they are on or off, when one is pending. *)

From S2P Require Import Prelude Bytes Asm Trap KernelTrap Thread.

Module Wfi.
Section machine.
Context {K I : Type} (serve : I -> K -> K) (code : Z -> Z).

Record hart := mkHart { pc : Z; sie : bool; asleep : bool; pending : list I; kern : K }.

(** One interrupt is claimed and served. *)
Definition dispatch_irq (s : K * list I) : outcome (K * list I) :=
  Ret (match s.2 with [] => s | i :: q => (serve i s.1, q) end).

(** An interrupt taken at [pc]: [kernel_trap_entry] with its handler. *)
Definition trap (h : hart) : outcome hart :=
  let! ' (pc, (k, q)) := KTrap.kernel_trap_handler dispatch_irq code (2 ^ 63 + Trap.EXTERNAL) (pc h) (kern h, pending h) in
  Ret (mkHart pc false false q k).

(** [instr] is what the instruction at [pc] does; [wfi] sleeps unless an
    interrupt is pending. *)
Definition wfi (h : hart) : hart :=
  match pending h with
  | [] => mkHart (pc h) (sie h) true [] (kern h)
  | _ => mkHart (pc h + 4) (sie h) false (pending h) (kern h)
  end.

Lemma trap_at h i q n : pending h = i :: q -> pc h mod 2 = 0 -> 0 <= pc h < USIZE - 4 -> KTrap.instr_at code (pc h) = Ret n ->
  trap h = Ret (mkHart (if n =? KTrap.INSTR_WFI then pc h + 4 else pc h) false false q (serve i (kern h))).
Proof.
  intros Hp Hm Hb Hn. unfold trap, KTrap.kernel_trap_handler. change (Trap.is_interrupt (2 ^ 63 + Trap.EXTERNAL)) with true.
  change (Trap.interrupt_code (2 ^ 63 + Trap.EXTERNAL) =? Trap.EXTERNAL) with true. unfold dispatch_irq. cbn [snd fst obind]. rewrite Hp. cbn [obind].
  rewrite Hm, Z.eqb_refl, Hn. cbn [obind]. destruct (n =? KTrap.INSTR_WFI); [|done]. by rewrite uadd_ok by lia.
Qed.

Context (instr : hart -> outcome hart).

Inductive hstep (h : hart) : hart -> Prop :=
| hs_trap h' : asleep h = false -> sie h = true -> pending h <> [] -> trap h = Ret h' -> hstep h h'
| hs_wake : asleep h = true -> pending h <> [] -> hstep h (wfi h)
| hs_exec h' : asleep h = false -> (sie h = true -> pending h = []) -> instr h = Ret h' -> hstep h h'.

(** Interrupts arrive at any time. *)
Inductive step (h : hart) : hart -> Prop :=
| st_hart h' : hstep h h' -> step h h'
| st_arrive i : step h (mkHart (pc h) (sie h) (asleep h) (pending h ++ [i]) (kern h)).

(** Every run of the hart, with no further interrupts, comes to [P]. *)
Inductive eventually (P : hart -> Prop) (h : hart) : Prop :=
| ev_now : P h -> eventually P h
| ev_step h' : hstep h h' -> (forall h', hstep h h' -> eventually P h') -> eventually P h.

Lemma eventually_mono (P Q : hart -> Prop) h : (forall h, P h -> Q h) -> eventually P h -> eventually Q h.
Proof. intros HPQ. induction 1 as [h Hp|h h' Hs _ IH]; [by apply ev_now, HPQ|by eapply ev_step]. Qed.

Lemma eventually_trans (P Q : hart -> Prop) h : eventually P h -> (forall h, P h -> eventually Q h) -> eventually Q h.
Proof. intros H HPQ. induction H as [h Hp|h h' Hs _ IH]; [by apply HPQ|by eapply ev_step]. Qed.

(** The three ways to go on exclude each other. *)
Lemma run_trap h h' P : asleep h = false -> sie h = true -> pending h <> [] -> trap h = Ret h' -> eventually P h' -> eventually P h.
Proof. intros Ha Hs Hp Ht He. eapply ev_step; [by apply hs_trap|]. intros h2 [h3 _ _ _ E|E|h3 _ E _]; [congruence|congruence|]. destruct Hp. auto. Qed.

Lemma run_wake h P : asleep h = true -> pending h <> [] -> eventually P (wfi h) -> eventually P h.
Proof. intros Ha Hp He. eapply ev_step; [by apply hs_wake|]. intros h2 [h3 E|_|h3 E]; [congruence|done|congruence]. Qed.

Lemma run_exec h h' P : asleep h = false -> (sie h = true -> pending h = []) -> instr h = Ret h' -> eventually P h' -> eventually P h.
Proof. intros Ha Hs Hi He. eapply ev_step; [by eapply hs_exec|]. intros h2 [h3 _ E1 E2|E|h3 _ _ E]; [destruct E2; auto|congruence|congruence]. Qed.
End machine.
End Wfi.

Module Idle.
Import Wfi.

Section idle.
(** The loop of [idle_entry] at [base]: [csrs], [wfi], [csrc], and the call of
    [schedule_if_ready]. *)
Context (base : Z) (code : Z -> Z).
Notation hart := (hart (K := Thr.kernel) (I := list Thr.irq)).

(** What the handler of a device does to the threads. *)
Definition serve (i : list Thr.irq) (k : Thr.kernel) : Thr.kernel := foldl Thr.handle_irq k i.

(** When [schedule_if_ready] finds a thread it does not return: the thread has
    the hart, and the loop is over until [enter_idle] starts it again. *)
Definition idle_instr (h : hart) : outcome hart :=
  if negb (bool_decide (Thr.CURRENT_THREAD (kern h) = Some 0)) then Fault
  else if pc h =? base then Ret (mkHart (pc h + 4) true false (pending h) (kern h))
  else if pc h =? base + 4 then Ret (wfi h)
  else if pc h =? base + 8 then Ret (mkHart (pc h + 4) false false (pending h) (kern h))
  else if pc h =? base + 12 then
    let! k := Thr.schedule_if_ready (kern h) in
    Ret (mkHart base (sie h) false (pending h) k)
  else Fault.

(** The scheduler found nothing to run and [enter_idle] has just started the
    loop, with interrupts off. *)
Definition entered (h : hart) : Prop :=
  pc h = base /\ sie h = false /\ asleep h = false /\ Thr.CURRENT_THREAD (kern h) = Some 0 /\ Thr.queue (kern h) = [] /\
  exists boxes, Thr.reachable (Thr.mkSys (kern h) boxes).

Definition reachable (h : hart) : Prop := exists h0, entered h0 /\ rtc (step serve code idle_instr) h0 h.

Context (Hbase : base mod 2 = 0) (Hb : 0 <= base /\ base + 16 < USIZE).
Context (Hwfi : KTrap.instr_at code (base + 4) = Ret KTrap.INSTR_WFI).
Context (Hcsrc : exists n, KTrap.instr_at code (base + 8) = Ret n /\ n <> KTrap.INSTR_WFI).

Definition idle (h : hart) : Prop := Thr.CURRENT_THREAD (kern h) = Some 0.

(** Interrupts are on only around the [wfi], and a thread that is ready is seen
    before the loop comes to the [wfi] again. *)
Record idle_inv (h : hart) : Prop := {
  ii_minv : Thr.minv (Thr.manager (kern h)) None;
  ii_idle : Thr.has_idle (kern h);
  ii_asleep : asleep h = true -> pc h = base + 4;
  ii_pc : (pc h = base /\ sie h = false /\ Thr.queue (kern h) = []) \/ (pc h = base + 4 /\ sie h = true /\ Thr.queue (kern h) = []) \/
          pc h = base + 8 \/ (pc h = base + 12 /\ sie h = false) }.

Lemma serve_quiet i k : Thr.quiet k (serve i k).
Proof. apply Thr.irqs_quiet. Qed.

Lemma serve_keeps i k : Thr.minv (Thr.manager k) None -> Thr.has_idle k ->
  Thr.minv (Thr.manager (serve i k)) None /\ Thr.has_idle (serve i k) /\ Thr.CURRENT_THREAD (serve i k) = Thr.CURRENT_THREAD k.
Proof.
  intros Hm Hi. destruct (serve_quiet i k). split_and!; [auto| |done]. unfold Thr.has_idle in *. by rewrite q_idle.
Qed.

(** Interrupts put threads at the end of the queue. *)
Lemma irq_queue k i : exists l, Thr.queue (Thr.handle_irq k i) = Thr.queue k ++ l.
Proof.
  destruct i as [t m|t]; cbn [Thr.handle_irq]; unfold Thr.send_message, Thr.wake_thread; destruct (Thr.get_thread t (Thr.manager k)) as [u|];
    try (exists []; by rewrite app_nil_r); unfold Thr.wake; case_bool_decide; cbn; [by eexists|exists []; by rewrite app_nil_r|by eexists|exists []; by rewrite app_nil_r].
Qed.

Lemma serve_queue i : forall k, exists l, Thr.queue (serve i k) = Thr.queue k ++ l.
Proof.
  unfold serve. induction i as [|x i IH]; intros k; [exists []; by rewrite app_nil_r|]. cbn [foldl]. destruct (irq_queue k x) as [l E].
  destruct (IH (Thr.handle_irq k x)) as [l' E']. exists (l ++ l'). by rewrite E', E, <- app_assoc.
Qed.

(** [schedule_if_ready] in the idle loop. *)
Lemma schedule_ok k : Thr.minv (Thr.manager k) None -> Thr.has_idle k -> Thr.CURRENT_THREAD k = Some 0 ->
  exists k', Thr.schedule_if_ready k = Ret k' /\
    match Thr.queue k with i :: q => Thr.CURRENT_THREAD k' = Some i /\ i <> 0 | [] => k' = k end.
Proof.
  intros Hm Hi Hc. unfold Thr.schedule_if_ready. destruct (Thr.queue k) as [|i q] eqn:E.
  - rewrite bool_decide_true by done. by exists k.
  - rewrite bool_decide_false by done. destruct (Thr.schedule_spec k Hm Hi) as (k' & Ek & _ & _ & _ & Hq). rewrite E in Hq. exists k'. split; [done|]. split; [apply Hq|].
    assert (Hin : i ∈ Thr.queue k) by (rewrite E; by left). apply (Thr.mi_ready _ _ Hm) in Hin as (t & Ht & _). pose proof (Thr.mi_id _ _ Hm _ _ Ht). lia.
Qed.

Lemma at_trap h i q : idle_inv h -> asleep h = false -> sie h = true -> pending h = i :: q ->
  (pc h = base + 4 \/ pc h = base + 8) /\ trap serve code h = Ret (mkHart (base + 8) false false q (serve i (kern h))).
Proof.
  intros [Hm Hi Ha Hpc] Has Hs Hp. destruct Hcsrc as (n & Hn & Hne).
  destruct Hpc as [(E & Hs' & _)|[(E & _)|[E|(E & Hs')]]]; try congruence.
  - split; [by left|]. rewrite (trap_at serve code h i q KTrap.INSTR_WFI); rewrite ?E; try done; [|lia..]. rewrite Z.eqb_refl. f_equal. f_equal. lia.
  - split; [by right|]. rewrite (trap_at serve code h i q n); rewrite ?E; try done; [|lia..]. by rewrite (proj2 (Z.eqb_neq _ _) Hne).
Qed.

Lemma hstep_inv h h' : (idle h -> idle_inv h) -> hstep serve code idle_instr h h' -> idle h' -> idle_inv h'.
Proof.
  intros Hinv Hs Hid'. destruct Hs as [h' Ha Hsie Hp Ht|Ha Hp|h' Ha Hsie Hi].
  - destruct (pending h) as [|i q] eqn:Ep; [done|]. assert (Hid : idle h).
    { unfold trap, KTrap.kernel_trap_handler, dispatch_irq in Ht. rewrite Ep in Ht. cbn [snd fst obind] in Ht.
      change (Trap.is_interrupt (2 ^ 63 + Trap.EXTERNAL)) with true in Ht. change (Trap.interrupt_code (2 ^ 63 + Trap.EXTERNAL) =? Trap.EXTERNAL) with true in Ht. cbn [obind] in Ht.
      assert (Hk : kern h' = serve i (kern h)).
      { destruct (pc h mod 2 =? 0); [|by injection Ht as <-]. destruct (KTrap.instr_at code (pc h)) as [n| |]; [|done..]. cbn [obind] in Ht.
        destruct (n =? KTrap.INSTR_WFI); [|by injection Ht as <-]. destruct (uadd (pc h) 4); [|done..]. by injection Ht as <-. }
      unfold idle in *. by rewrite Hk, (Thr.q_current _ _ (serve_quiet i (kern h))) in Hid'. }
    specialize (Hinv Hid). destruct (at_trap h i q Hinv Ha Hsie Ep) as [_ E]. rewrite Ht in E. injection E as ->.
    destruct (serve_keeps i (kern h) (ii_minv _ Hinv) (ii_idle _ Hinv)) as (H1 & H2 & _). split; cbn; auto. done.
  - assert (Hid : idle h) by (unfold idle, wfi in *; by destruct (pending h)). destruct (Hinv Hid) as [Hm Hi Hpc _]. specialize (Hpc Ha).
    unfold wfi. destruct (pending h); [done|]. split; cbn; [done|done|done|]. right. right. left. lia.
  - unfold idle_instr in Hi. case_bool_decide as Hid; [|done]. destruct (Hinv Hid) as [Hm Hidl Has Hpc]. cbn [negb] in Hi.
    destruct Hpc as [(E & Hs' & Hq)|[(E & Hs' & Hq)|[E|(E & Hs')]]]; rewrite E in Hi; repeat (rewrite (proj2 (Z.eqb_neq _ _)) in Hi by lia); rewrite Z.eqb_refl in Hi.
    + injection Hi as <-. split; cbn; try done. right. left. done.
    + injection Hi as <-. unfold wfi. destruct (pending h) eqn:Ep; (split; cbn; [done|done|done|]); [right; left; done|right; right; left; lia].
    + injection Hi as <-. split; cbn; try done. right. right. right. split; [lia|done].
    + destruct (schedule_ok (kern h) Hm Hidl Hid) as (k' & Ek & Hq). rewrite Ek in Hi. cbn [obind] in Hi. injection Hi as <-. unfold idle in Hid'. cbn [kern] in Hid'.
      destruct (Thr.queue (kern h)) as [|i q] eqn:Eq; [subst k'|destruct Hq; congruence]. split; cbn; try done. left. by rewrite Hs'.
Qed.

Lemma idle_reachable_inv h : reachable h -> idle h -> idle_inv h.
Proof.
  intros (h0 & (E1 & E2 & E3 & E4 & E5 & boxes & Hs) & Hr).
  assert (H0 : idle h0 -> idle_inv h0).
  { intros _. destruct (Thr.reachable_inv _ Hs) as [Hm Hi _ _ _]. unfold Thr.running in Hm. cbn [Thr.kern] in *. rewrite E4 in Hm. split; [exact Hm|exact Hi|congruence|by left]. }
  clear E1 E2 E3 E4 E5 Hs. induction Hr as [h|h1 h2 h3 Hst _ IH]; [done|]. apply IH. destruct Hst as [h' Hh|i]; [by eapply hstep_inv|].
  intros Hid. destruct (H0 Hid). by split.
Qed.

(** ** What comes of a ready thread and of an interrupt *)
Notation eventually := (eventually serve code idle_instr).

Lemma instr_csrs h : idle h -> pc h = base -> idle_instr h = Ret (mkHart (base + 4) true false (pending h) (kern h)).
Proof. intros Hi E. unfold idle_instr. rewrite bool_decide_true by done. cbn [negb]. by rewrite E, Z.eqb_refl. Qed.

Lemma instr_csrc h : idle h -> pc h = base + 8 -> idle_instr h = Ret (mkHart (base + 12) false false (pending h) (kern h)).
Proof.
  intros Hi E. unfold idle_instr. rewrite bool_decide_true by done. cbn [negb]. rewrite E, !(proj2 (Z.eqb_neq _ _)) by lia. rewrite Z.eqb_refl. do 2 f_equal. lia.
Qed.

Lemma instr_check h k : idle h -> pc h = base + 12 -> Thr.schedule_if_ready (kern h) = Ret k -> idle_instr h = Ret (mkHart base (sie h) false (pending h) k).
Proof.
  intros Hi E Hk. unfold idle_instr. rewrite bool_decide_true by done. cbn [negb]. rewrite E, !(proj2 (Z.eqb_neq _ _)) by lia. by rewrite Z.eqb_refl, Hk.
Qed.

Lemma awake h : idle_inv h -> pc h <> base + 4 -> asleep h = false.
Proof. intros Hi Hn. destruct (asleep h) eqn:E; [|done]. by destruct Hn; apply (ii_asleep _ Hi). Qed.

(** From the [csrc] with interrupts off, or behind it. *)
Lemma checked h i q : idle h -> idle_inv h -> sie h = false -> pc h = base + 8 \/ pc h = base + 12 -> Thr.queue (kern h) = i :: q ->
  eventually (fun h' => Thr.CURRENT_THREAD (kern h') = Some i) h.
Proof.
  intros Hid Hi Hs Hpc Hq. destruct (schedule_ok (kern h) (ii_minv _ Hi) (ii_idle _ Hi) Hid) as (k' & Ek & Hc). rewrite Hq in Hc. destruct Hc as [Hc _].
  destruct Hpc as [E|E].
  - eapply run_exec; [apply awake; [done|lia]|congruence|by apply instr_csrc|].
    eapply run_exec; [done|done|by apply instr_check|]. by apply ev_now.
  - eapply run_exec; [apply awake; [done|lia]|congruence|by apply instr_check|]. by apply ev_now.
Qed.

Lemma ready_runs h i q : idle h -> idle_inv h -> Thr.queue (kern h) = i :: q -> eventually (fun h' => Thr.CURRENT_THREAD (kern h') = Some i) h.
Proof.
  intros Hid Hi Hq. destruct (ii_pc _ Hi) as [(_ & _ & E)|[(_ & _ & E)|[E|(E & Hs)]]]; [congruence|congruence| |by eapply checked; eauto].
  pose proof (awake h Hi ltac:(lia)) as Ha. destruct (sie h) eqn:Hs; [|by eapply checked; eauto]. destruct (pending h) as [|j ps] eqn:Ep.
  - destruct (schedule_ok (kern h) (ii_minv _ Hi) (ii_idle _ Hi) Hid) as (k' & Ek & Hc). rewrite Hq in Hc. destruct Hc as [Hc _].
    eapply run_exec; [done|done|by apply instr_csrc|]. eapply run_exec; [done|done|by apply instr_check|]. by apply ev_now.
  - destruct (at_trap h j ps Hi Ha Hs Ep) as [_ Et]. eapply run_trap; [done|done|by rewrite Ep|exact Et|].
    destruct (serve_keeps j (kern h) (ii_minv _ Hi) (ii_idle _ Hi)) as (H1 & H2 & H3). destruct (serve_queue j (kern h)) as [l El]. rewrite Hq in El.
    eapply checked; [|split; cbn; auto; done|done|by left|exact El]. unfold idle. cbn [kern]. by rewrite H3.
Qed.

(** An interrupt at the [wfi] or behind it. *)
Lemma taken h j ps : idle h -> idle_inv h -> asleep h = false -> sie h = true -> pending h = j :: ps ->
  eventually (fun h' => idle h' /\ idle_inv h' /\ pending h' = ps /\ kern h' = serve j (kern h)) h.
Proof.
  intros Hid Hi Ha Hs Ep. destruct (at_trap h j ps Hi Ha Hs Ep) as [_ Et]. eapply run_trap; [done|done|by rewrite Ep|exact Et|]. apply ev_now.
  destruct (serve_keeps j (kern h) (ii_minv _ Hi) (ii_idle _ Hi)) as (H1 & H2 & H3). split_and!; [unfold idle; cbn [kern]; by rewrite H3| |done|done]. split; cbn; auto; done.
Qed.

Lemma served h j ps : idle h -> idle_inv h -> Thr.queue (kern h) = [] -> pending h = j :: ps ->
  eventually (fun h' => idle h' /\ idle_inv h' /\ pending h' = ps /\ kern h' = serve j (kern h)) h.
Proof.
  intros Hid Hi Hq Ep.
  assert (Hstart : forall g, idle g -> idle_inv g -> pc g = base -> pending g = j :: ps -> kern g = kern h ->
    eventually (fun h' => idle h' /\ idle_inv h' /\ pending h' = ps /\ kern h' = serve j (kern h)) g).
  { intros g Hg Hig E Epg Ek. assert (Hsg : sie g = false) by (destruct (ii_pc _ Hig) as [(_ & ? & _)|[(? & _)|[?|(? & _)]]]; [done|lia..]).
    eapply run_exec; [apply awake; [done|lia]|congruence|by apply instr_csrs|]. rewrite <- Ek. apply (taken (mkHart (base + 4) true false (pending g) (kern g)) j ps); try done.
    destruct Hig. split; cbn; try done. right. left. by rewrite Ek. }
  assert (Hcheck : forall g, idle g -> idle_inv g -> pc g = base + 12 -> pending g = j :: ps -> kern g = kern h ->
    eventually (fun h' => idle h' /\ idle_inv h' /\ pending h' = ps /\ kern h' = serve j (kern h)) g).
  { intros g Hg Hig E Epg Ek. assert (Hsg : sie g = false) by (destruct (ii_pc _ Hig) as [(? & _)|[(? & _)|[?|(_ & ?)]]]; [lia|lia|lia|done]).
    assert (Es : Thr.schedule_if_ready (kern g) = Ret (kern g)) by (unfold Thr.schedule_if_ready; rewrite bool_decide_true; [done|by rewrite Ek]).
    eapply run_exec; [apply awake; [done|lia]|congruence|by apply instr_check|]. apply Hstart; try done.
    destruct Hig. split; cbn; try done. left. by rewrite Hsg, Ek. }
  destruct (asleep h) eqn:Ha.
  - pose proof (ii_asleep _ Hi Ha) as E. eapply run_wake; [done|by rewrite Ep|]. unfold wfi. rewrite Ep. cbn [pending].
    assert (Hs : sie h = true) by (destruct (ii_pc _ Hi) as [(? & _)|[(_ & ? & _)|[?|(? & _)]]]; [lia|done|lia|lia]).
    apply (taken (mkHart (pc h + 4) (sie h) false (j :: ps) (kern h))); try done. destruct Hi. split; cbn; try done. right. right. left. lia.
  - destruct (ii_pc _ Hi) as [(E & _)|[(E & Hs & _)|[E|(E & _)]]]; [by apply Hstart|by apply taken| |by apply Hcheck].
    destruct (sie h) eqn:Hs; [by apply taken|]. eapply run_exec; [done|congruence|by apply instr_csrc|]. apply Hcheck; try done.
    destruct Hi. split; cbn; try done. right. right. right. done.
Qed.

(** C22: The idle loop loses no wake-up.  Whenever it sleeps no thread is ready;
    once a thread is ready, every run of the hart gives the hart to the first
    in the queue; and an interrupt, wherever in the loop it arrives, between
    the instructions around the [wfi] too, is served by every run of the hart,
    after which the threads it made ready get the hart. *)
Theorem idle_no_lost_wakeup h (Hr : reachable h) (Hid : idle h) :
  (asleep h = true -> Thr.queue (kern h) = []) /\
  (forall i q, Thr.queue (kern h) = i :: q -> eventually (fun h' => Thr.CURRENT_THREAD (kern h') = Some i) h) /\
  (forall j ps, Thr.queue (kern h) = [] -> pending h = j :: ps ->
    eventually (fun h' => pending h' = ps /\ kern h' = serve j (kern h) /\
      forall i q, Thr.queue (kern h') = i :: q -> eventually (fun h'' => Thr.CURRENT_THREAD (kern h'') = Some i) h') h).
Proof.
  pose proof (idle_reachable_inv h Hr Hid) as Hi. split_and!.
  - intros Ha. pose proof (ii_asleep _ Hi Ha). destruct (ii_pc _ Hi) as [(? & _)|[(_ & _ & ?)|[?|(? & _)]]]; [lia|done|lia|lia].
  - intros i q. by apply ready_runs.
  - intros j ps Hq Ep. eapply eventually_mono; [|by apply (served h j ps)]. intros h' (H1 & H2 & H3 & H4). split_and!; [done|done|]. intros i q. by apply ready_runs.
Qed.
End idle.

(** ** An example: thread 1 waits for the interrupt that wakes it *)
Definition demo_base : Z := 0x8020_0100.

(** [csrs sstatus, a0; wfi; csrc sstatus, a0] *)
Definition demo_code (p : Z) : Z := nth (Z.to_nat (p - demo_base)) (to_le 4 0x10052073 ++ to_le 4 KTrap.INSTR_WFI ++ to_le 4 0x10053073) 0.

Definition demo_sys : Thr.sys := Thr.demo [Thr.op_block; Thr.op_exit].

Definition demo_hart (pc : Z) (sie asleep : bool) (pending : list (list Thr.irq)) : hart := mkHart pc sie asleep pending (Thr.kern demo_sys).

Lemma demo_entered : entered demo_base (demo_hart demo_base false false []).
Proof.
  split_and!; [done..|by vm_compute|by vm_compute|]. exists (Thr.boxes demo_sys). apply (Thr.demo_reachable [Thr.op_block; Thr.op_exit]). by vm_compute.
Qed.

(** Asleep when the interrupt arrives, and at the [wfi] with interrupts just
    turned on. *)
Lemma idle_no_lost_wakeup_witness :
  eventually serve demo_code (idle_instr demo_base) (fun h => Thr.CURRENT_THREAD (kern h) = Some 1) (demo_hart (demo_base + 4) true true [[Thr.irq_wake 1]]) /\
  eventually serve demo_code (idle_instr demo_base) (fun h => Thr.CURRENT_THREAD (kern h) = Some 1) (demo_hart (demo_base + 4) true false [[Thr.irq_wake 1]]).
Proof.
  assert (H1 : rtc (step serve demo_code (idle_instr demo_base)) (demo_hart demo_base false false []) (demo_hart (demo_base + 4) true false [])).
  { apply rtc_once, st_hart, hs_exec; [done|done|by vm_compute]. }
  assert (H2 : rtc (step serve demo_code (idle_instr demo_base)) (demo_hart (demo_base + 4) true false []) (demo_hart (demo_base + 4) true true [])).
  { apply rtc_once, st_hart, hs_exec; [done|done|by vm_compute]. }
  assert (Hlast : forall a, step serve demo_code (idle_instr demo_base) (demo_hart (demo_base + 4) true a []) (demo_hart (demo_base + 4) true a [[Thr.irq_wake 1]])).
  { intros a. apply (st_arrive serve demo_code (idle_instr demo_base) (demo_hart (demo_base + 4) true a []) [Thr.irq_wake 1]). }
  split.
  - destruct (idle_no_lost_wakeup demo_base demo_code ltac:(done) ltac:(done) ltac:(by vm_compute) ltac:(exists 0x10053073; by vm_compute)
      (demo_hart (demo_base + 4) true true [[Thr.irq_wake 1]])) as (_ & _ & H).
    + exists (demo_hart demo_base false false []). split; [apply demo_entered|]. etrans; [exact H1|]. etrans; [exact H2|]. apply rtc_once, Hlast.
    + by vm_compute.
    + eapply eventually_trans; [apply (H [Thr.irq_wake 1] []); by vm_compute|]. intros h' (_ & Hk & Hrun). apply (Hrun 1 []). rewrite Hk. by vm_compute.
  - destruct (idle_no_lost_wakeup demo_base demo_code ltac:(done) ltac:(done) ltac:(by vm_compute) ltac:(exists 0x10053073; by vm_compute)
      (demo_hart (demo_base + 4) true false [[Thr.irq_wake 1]])) as (_ & _ & H).
    + exists (demo_hart demo_base false false []). split; [apply demo_entered|]. etrans; [exact H1|]. apply rtc_once, Hlast.
    + by vm_compute.
    + eapply eventually_trans; [apply (H [Thr.irq_wake 1] []); by vm_compute|]. intros h' (_ & Hk & Hrun). apply (Hrun 1 []). rewrite Hk. by vm_compute.
Defined.

End Idle.

Module DoneWait.
Import Wfi.

(** [DONE], which the completion handler sets, and the register it is loaded
    into; an interrupt is that of the transfer or of another device. *)
Record state := mkState { DONE : bool; a0 : bool }.

Definition done_serve (transfer : bool) (s : state) : state := mkState (DONE s || transfer) (a0 s).

(** [loop { if DONE.load(..) { break; } wfi(); }] between [enable_interrupts]
    and [disable_interrupts]: [lbu a0, (a1); bnez a0, 12; wfi; j -12]. *)
Definition base : Z := 0x8020_0200.
Definition code (p : Z) : Z := nth (Z.to_nat (p - base)) (to_le 4 0x0005c503 ++ to_le 4 0x00051663 ++ to_le 4 KTrap.INSTR_WFI ++ to_le 4 0xff5ff06f) 0.
Definition left : Z := base + 16.

Notation hart := (hart (K := state) (I := bool)).

Definition done_instr (h : hart) : outcome hart :=
  let s := kern h in
  if pc h =? base then Ret (mkHart (pc h + 4) (sie h) false (pending h) (mkState (DONE s) (DONE s)))
  else if pc h =? base + 4 then Ret (mkHart (if a0 s then left else pc h + 4) (sie h) false (pending h) s)
  else if pc h =? base + 8 then Ret (wfi h)
  else if pc h =? base + 12 then Ret (mkHart base (sie h) false (pending h) s)
  else Fault.

(** The transfer is started and interrupts are on. *)
Definition started : hart := mkHart base true false [] (mkState false false).
Definition waiting (h : hart) : Prop := rtc (step done_serve code done_instr) started h.

(** The usual case: the interrupt of the transfer arrives while the loop
    sleeps, and the loop ends. *)
Theorem done_wait_returns : exists h, waiting h /\ asleep h = true /\ pending h = [true] /\
  eventually done_serve code done_instr (fun h' => pc h' = left /\ DONE (kern h') = true) h.
Proof.
  set (h1 := mkHart (base + 4) true false [] (mkState false false) : hart). set (h2 := mkHart (base + 8) true false [] (mkState false false) : hart).
  set (h3 := mkHart (base + 8) true true [] (mkState false false) : hart). exists (mkHart (base + 8) true true [true] (mkState false false)). split_and!; [|done|done|].
  - eapply (rtc_l _ _ h1); [by apply st_hart, hs_exec; vm_compute|]. eapply (rtc_l _ _ h2); [by apply st_hart, hs_exec; vm_compute|].
    eapply (rtc_l _ _ h3); [by apply st_hart, hs_exec; vm_compute|]. apply rtc_once. apply (st_arrive done_serve code done_instr h3 true).
  - eapply run_wake; [done|done|]. cbn [wfi pending]. eapply run_trap; [done|done|done|by vm_compute|].
    do 3 (eapply run_exec; [done|done|by vm_compute|]). by apply ev_now.
Qed.

(** When the interrupt is taken between the load of [DONE] and the branch on
    it, the handler does not see the [wfi] ahead, and the loop sleeps although
    [DONE] is set: the hart has no step left until another device interrupts. *)
Theorem done_wait_lost : exists h, waiting h /\ DONE (kern h) = true /\ asleep h = true /\ forall h', ~ hstep done_serve code done_instr h h'.
Proof.
  set (h1 := mkHart (base + 4) true false [] (mkState false false) : hart). set (h2 := mkHart (base + 4) true false [true] (mkState false false) : hart).
  set (h3 := mkHart (base + 4) false false [] (mkState true false) : hart). set (h4 := mkHart (base + 8) false false [] (mkState true false) : hart).
  exists (mkHart (base + 8) false true [] (mkState true false)). split_and!; [|done|done|].
  - eapply (rtc_l _ _ h1); [by apply st_hart, hs_exec; vm_compute|]. eapply (rtc_l _ _ h2); [apply (st_arrive done_serve code done_instr h1 true)|].
    eapply (rtc_l _ _ h3); [by apply st_hart, hs_trap; vm_compute|]. eapply (rtc_l _ _ h4); [by apply st_hart, hs_exec; vm_compute|].
    apply rtc_once. by apply st_hart, hs_exec; vm_compute.
  - intros h' Hs. by inversion Hs.
Qed.

(** Once another device has interrupted the loop, interrupts stay off: the
    transfer is never noticed, whatever arrives. *)
Record masked (h : hart) : Prop := {
  mk_sie : sie h = false;
  mk_done : kern h = mkState false false;
  mk_asleep : asleep h = true -> pc h = base + 8;
  mk_pc : pc h = base \/ pc h = base + 4 \/ pc h = base + 8 \/ pc h = base + 12 }.

Lemma masked_step h h' : masked h -> step done_serve code done_instr h h' -> masked h'.
Proof.
  intros [Hs Hd Ha Hpc] [h1 [h2 _ E|Has Hp|h2 Has _ Hi]|i]; [congruence| | |by split].
  - unfold wfi. destruct (pending h); [done|]. split; cbn; [done|done|done|]. right. right. right. rewrite (Ha Has). done.
  - unfold done_instr in Hi. rewrite Hd in Hi. cbn [DONE a0] in Hi.
    destruct Hpc as [E|[E|[E|E]]]; rewrite E in Hi; vm_compute (_ =? _) in Hi; injection Hi as <-; unfold wfi; rewrite ?Hd.
    + split; cbn; try done. right. by left.
    + split; cbn; try done. right. right. by left.
    + destruct (pending h); (split; cbn; try done); rewrite E; [right; right; by left|right; right; by right].
    + split; cbn; try done. by left.
Qed.

Theorem done_wait_masked : exists h, waiting h /\ forall h', rtc (step done_serve code done_instr) h h' -> DONE (kern h') = false /\ pc h' <> left.
Proof.
  set (h1 := mkHart base true false [false] (mkState false false) : hart). exists (mkHart base false false [] (mkState false false)). split.
  - eapply (rtc_l _ _ h1); [apply (st_arrive done_serve code done_instr started false)|]. apply rtc_once. by apply st_hart, hs_trap; vm_compute.
  - intros h' Hr. assert (Hm : masked (mkHart base false false [] (mkState false false))) by (split; cbn; try done; by left).
    induction Hr as [h|h1' h2 h3 Hst _ IH]; [|by apply IH; eapply masked_step]. destruct Hm as [_ Hd _ Hpc]. rewrite Hd. split; [done|]. unfold left. lia.
Qed.

End DoneWait.
