(* ===== verification/Probe.v ===== *)
(** * Probing partitions

    Models the module [probe] of [src/src/block/init.rs], which the feature
    [trace_volumes] compiles in, and the parts of [src/src/block/partition.rs] it
    uses: the rows it prints for the partition table and for the file system of
    a partition.  The theorems relate what it says to the partition table
    parser and to the ext2 driver, which read the same sectors. *)

From S2P Require Import Prelude Bytes Collections Dispatcher Block Ext2.

Module Probe.
Import Blk Mbr Vol.

Definition BOOT_SIGNATURE : Z := 0xaa55.
Definition BOOT_SIGNATURE_OFFSET : Z := 510.
Definition FAT32_FILESYSTEM_TYPE_OFFSET : Z := 82.
Definition FAT32_FILESYSTEM_TYPE_LEN : Z := 8.
Definition FAT32_VOLUME_LABEL_OFFSET : Z := 71.
Definition FAT32_VOLUME_LABEL_LEN : Z := 11.
Definition EXT2_SUPERBLOCK_SECTOR : Z := 2.
Definition EXT2_MAGIC_OFFSET : Z := 56.
Definition EXT2_MAGIC : Z := 0xef53.
Definition OEM_NAME_OFFSET : Z := 3.
Definition OEM_NAME_LEN : Z := 8.

(** ** Text *)

(** The white space of Unicode, as UTF-8. *)
Definition WHITE_SPACE : list (list Z) :=
  [[9]; [10]; [11]; [12]; [13]; [32]; [0xC2; 0x85]; [0xC2; 0xA0]; [0xE1; 0x9A; 0x80]] ++
  ((fun b => [0xE2; 0x80; b]) <$> [0x80; 0x81; 0x82; 0x83; 0x84; 0x85; 0x86; 0x87; 0x88; 0x89; 0x8A; 0xA8; 0xA9; 0xAF]) ++
  [[0xE2; 0x81; 0x9F]; [0xE3; 0x80; 0x80]].

Definition ends_with (w l : list Z) : bool := bool_decide (drop (length l - length w) l = w).

(** [str::trim_end]: characters are taken off the end while they are white
    space; there are at most as many as bytes. *)
Fixpoint trim_chars (n : nat) (l : list Z) : list Z :=
  match n with
  | O => l
  | S n =>
      match list_find (fun w => ends_with w l) WHITE_SPACE with
      | Some (_, w) => trim_chars n (take (length l - length w) l)
      | None => l
      end
  end.

Definition trim_end (l : list Z) : list Z := trim_chars (length l) l.

(** [from_utf8(l).unwrap_or(_)] with the empty string *)
Definition str_or_empty (l : list Z) : list Z := if utf8_valid l then l else [].

Definition starts_with (w l : list Z) : bool := bool_decide (take (length w) l = w).

(** ** What is printed for a partition *)

Inductive report :=
| Fat32Labelled (label : list Z)
| Fat32
| UnknownOem (oem : list Z)
| Ext2Found
| Unrecognized
| SuperblockError (e : BlockError)
| BootSectorError (e : BlockError).

Definition probe_filesystem {V} `{BlockVolume V} (volume : V) : outcome report :=
  let! r := read_blocks volume 0 BLOCK_SIZE in
  match r with
  | Err e => Ret (BootSectorError e)
  | Ok buf =>
      let! boot_sig := le_at 2 buf BOOT_SIGNATURE_OFFSET in
      if boot_sig =? BOOT_SIGNATURE then
        let! t := slice buf FAT32_FILESYSTEM_TYPE_OFFSET (FAT32_FILESYSTEM_TYPE_OFFSET + FAT32_FILESYSTEM_TYPE_LEN) in
        if starts_with (lit "FAT32") (str_or_empty t) then
          let! l := slice buf FAT32_VOLUME_LABEL_OFFSET (FAT32_VOLUME_LABEL_OFFSET + FAT32_VOLUME_LABEL_LEN) in
          let label := trim_end (str_or_empty l) in
          if negb (bool_decide (label = [])) && negb (bool_decide (label = lit "NO NAME")) then Ret (Fat32Labelled label)
          else Ret Fat32
        else
          let! o := slice buf OEM_NAME_OFFSET (OEM_NAME_OFFSET + OEM_NAME_LEN) in
          Ret (UnknownOem (trim_end (str_or_empty o)))
      else
        let! r := read_blocks volume EXT2_SUPERBLOCK_SECTOR BLOCK_SIZE in
        match r with
        | Err e => Ret (SuperblockError e)
        | Ok buf =>
            let! ext2_magic := le_at 2 buf EXT2_MAGIC_OFFSET in
            Ret (if ext2_magic =? EXT2_MAGIC then Ext2Found else Unrecognized)
        end
  end.

(** ** The partition table *)

Definition SECTOR_SIZE : Z := 512.
Definition BYTES_PER_MB : Z := 1024 * 1024.

(** With the feature a [Partition] has its type as well. *)
Record traced := mkTraced { plain : Partition; partition_type : Z }.

Definition traced_entry (block0 : list Z) (acc : list traced) (i : Z) : outcome (list traced) :=
  let offset := MBR_PARTITION_TABLE_OFFSET + i * MBR_PARTITION_ENTRY_SIZE in
  let! entry_bytes := slice block0 offset (offset + MBR_PARTITION_ENTRY_SIZE) in
  let! partition_type := expect (entry_bytes !! Z.to_nat PARTITION_TYPE_OFFSET) in
  let! lba_start := le_at 4 entry_bytes PARTITION_LBA_OFFSET in
  let! num_sectors := le_at 4 entry_bytes PARTITION_SECTORS_OFFSET in
  if (partition_type =? 0) && (num_sectors =? 0) then Ret acc
  else Ret (acc ++ [mkTraced (mkPartition (i + 1) lba_start num_sectors) partition_type]).

Definition traced_mbr (block0 : list Z) : outcome (list traced) :=
  let! signature := le_at 2 block0 MBR_SIGNATURE_OFFSET in
  if negb (signature =? MBR_SIGNATURE) then Ret []
  else ofold (traced_entry block0) [0; 1; 2; 3] [].

Definition size_bytes (p : traced) : outcome Z := umul (num_sectors (plain p)) SECTOR_SIZE.

Definition size_mb (p : traced) : outcome Z :=
  let! b := size_bytes p in Ret (b / BYTES_PER_MB).

Definition partition_type_name (type_id : Z) : string :=
  if type_id =? 0x00 then "Empty" else if type_id =? 0x01 then "FAT12" else if type_id =? 0x04 then "FAT16 <32M"
  else if type_id =? 0x05 then "Extended" else if type_id =? 0x06 then "FAT16" else if type_id =? 0x07 then "NTFS/exFAT"
  else if type_id =? 0x0B then "FAT32" else if type_id =? 0x0C then "FAT32 LBA" else if type_id =? 0x0E then "FAT16 LBA"
  else if type_id =? 0x0F then "Extended LBA" else if type_id =? 0x82 then "Linux swap" else if type_id =? 0x83 then "Linux"
  else if type_id =? 0x85 then "Linux extended" else if type_id =? 0x8E then "Linux LVM"
  else if type_id =? 0xEE then "GPT protective" else if type_id =? 0xEF then "EFI System" else "Unknown".

Definition type_name (p : traced) : string := partition_type_name (partition_type p).

Definition log_mbr_signature (buf : list Z) : outcome Z := le_at 2 buf BOOT_SIGNATURE_OFFSET.

(** A row: the partition, the name of its type and its size in MB. *)
Definition row : Type := traced * string * Z.

Definition log_row (rows : list row) (p : traced) : outcome (list row) :=
  let! mb := size_mb p in Ret (rows ++ [(p, type_name p, mb)]).

Definition log_partition_table (partitions : list traced) : outcome (list row) := ofold log_row partitions [].

(** What [read_partition_table] prints and returns after it read the sector. *)
Definition trace_table (buf : list Z) : outcome (Z * list row * list traced) :=
  let! signature := log_mbr_signature buf in
  let! partitions := traced_mbr buf in
  match partitions with
  | [] => Ret (signature, [], [])
  | _ => let! rows := log_partition_table partitions in Ret (signature, rows, partitions)
  end.

(** ** The partition table theorems *)

Definition sized (p : traced) : Prop := 0 <= num_sectors (plain p) < U32.

Lemma traced_entry_plain block0 ps i : parse_entry block0 (plain <$> ps) i = (let! r := traced_entry block0 ps i in Ret (plain <$> r)).
Proof.
  unfold parse_entry, traced_entry. destruct (slice _ _ _) as [l| |]; [cbn [obind]|done|done]. destruct (l !! _) as [t|]; [cbn [expect obind]|done].
  destruct (le_at 4 l PARTITION_LBA_OFFSET) as [a| |]; [cbn [obind]|done|done]. destruct (le_at 4 l PARTITION_SECTORS_OFFSET) as [n| |]; [cbn [obind]|done|done].
  destruct (_ && _); cbn [obind]; [done|]. by rewrite fmap_app.
Qed.

Lemma traced_fold_plain block0 ks : forall ps, ofold (parse_entry block0) ks (plain <$> ps) = (let! r := ofold (traced_entry block0) ks ps in Ret (plain <$> r)).
Proof.
  induction ks as [|i ks IH]; intros ps; [done|]. cbn [ofold]. rewrite traced_entry_plain.
  destruct (traced_entry block0 ps i) as [r| |]; [cbn [obind]|done|done]. apply IH.
Qed.

(** The table parsed with the trace feature is the one parsed without it. *)
Lemma traced_mbr_plain block0 : parse_mbr block0 = (let! r := traced_mbr block0 in Ret (plain <$> r)).
Proof.
  unfold parse_mbr, traced_mbr. destruct (le_at 2 block0 _) as [s| |]; [cbn [obind]|done|done].
  destruct (negb _); [done|]. apply (traced_fold_plain block0 _ []).
Qed.

Lemma le_at_ok n l o : Forall byte_ok l -> 0 <= n -> 0 <= o -> o + n <= Z.of_nat (length l) -> exists x, le_at n l o = Ret x /\ 0 <= x < 256 ^ n.
Proof.
  intros Hb Hn Ho Hl. destruct (slice_ok l o (o + n)) as (s & E & Hs); [lia..|]. unfold le_at. rewrite E. exists (from_le s). split; [done|].
  replace n with (Z.of_nat (length s)) by lia. apply from_le_bound. unfold slice in E. destruct (_ && _); [|done]. injection E as <-.
  by apply Forall_take, Forall_drop.
Qed.

Lemma slice_bytes l a b s : Forall byte_ok l -> slice l a b = Ret s -> Forall byte_ok s.
Proof. intros Hb E. unfold slice in E. destruct (_ && _); [|done]. injection E as <-. by apply Forall_take, Forall_drop. Qed.

Lemma traced_entry_ok block0 ps i : Forall byte_ok block0 -> length block0 = 512%nat -> 0 <= i < 4 -> Forall sized ps ->
  exists r, traced_entry block0 ps i = Ret r /\ Forall sized r.
Proof.
  intros Hb Hl Hi Hps. unfold traced_entry, MBR_PARTITION_TABLE_OFFSET, MBR_PARTITION_ENTRY_SIZE.
  destruct (slice_ok block0 (446 + i * 16) (446 + i * 16 + 16)) as (e & E & He); [lia..|]. rewrite E. cbn [obind].
  pose proof (slice_bytes _ _ _ _ Hb E) as Hbe.
  destruct (lookup_lt_is_Some_2 e (Z.to_nat PARTITION_TYPE_OFFSET)) as [t ->]; [unfold PARTITION_TYPE_OFFSET; lia|]. cbn [expect obind].
  destruct (le_at_ok 4 e PARTITION_LBA_OFFSET) as (a & -> & _); [done|unfold PARTITION_LBA_OFFSET; lia..|].
  destruct (le_at_ok 4 e PARTITION_SECTORS_OFFSET) as (n & -> & Hn); [done|unfold PARTITION_SECTORS_OFFSET; lia..|]. cbn [obind].
  destruct (_ && _); eexists; (split; [reflexivity|]); [done|]. apply Forall_app. split; [done|]. constructor; [|done]. unfold sized, U32. cbn. lia.
Qed.

Lemma log_rows_ok ps : forall rows, Forall sized ps ->
  ofold log_row ps rows = Ret (rows ++ ((fun p => (p, type_name p, num_sectors (plain p) / 2048)) <$> ps)).
Proof.
  induction ps as [|p ps IH]; intros rows H; [by rewrite app_nil_r|]. apply Forall_cons in H as [Hp H]. cbn [ofold].
  unfold log_row at 1, size_mb, size_bytes, SECTOR_SIZE. unfold sized, U32 in Hp. rewrite umul_ok by (unfold USIZE; lia). cbn [obind]. rewrite IH by done.
  replace (num_sectors (plain p) * 512 / BYTES_PER_MB) with (num_sectors (plain p) / 2048); [by rewrite <- (assoc_L (++))|].
  unfold BYTES_PER_MB. lia.
Qed.

(** Tracing does not change what is found, and cannot fail: for every sector
    of 512 bytes the trace is printed without a panic, its partitions are those
    the untraced parser returns, and each row shows a partition with the
    name of its type and its size, 2048 sectors to the megabyte. *)
Theorem trace_table_spec buf (Hb : Forall byte_ok buf) (Hl : length buf = 512%nat) :
  exists sig ps, trace_table buf = Ret (sig, (fun p => (p, type_name p, num_sectors (plain p) / 2048)) <$> ps, ps) /\
    parse_mbr buf = Ret (plain <$> ps) /\ (sig <> MBR_SIGNATURE -> ps = []).
Proof.
  destruct (le_at_ok 2 buf BOOT_SIGNATURE_OFFSET) as (sig & E & _); [done|unfold BOOT_SIGNATURE_OFFSET; lia..|].
  assert (H : exists ps, traced_mbr buf = Ret ps /\ Forall sized ps /\ (sig <> MBR_SIGNATURE -> ps = [])).
  { unfold traced_mbr. change MBR_SIGNATURE_OFFSET with BOOT_SIGNATURE_OFFSET. rewrite E. cbn [obind].
    destruct (Z.eqb_spec sig MBR_SIGNATURE) as [->|]; cbn [negb]; [|by exists []].
    destruct (traced_entry_ok buf [] 0) as (p1 & E1 & H1); [done|done|lia|done|]. destruct (traced_entry_ok buf p1 1) as (p2 & E2 & H2); [done|done|lia|done|].
    destruct (traced_entry_ok buf p2 2) as (p3 & E3 & H3); [done|done|lia|done|]. destruct (traced_entry_ok buf p3 3) as (p4 & E4 & H4); [done|done|lia|done|].
    exists p4. cbn [ofold]. rewrite E1. cbn [obind]. rewrite E2. cbn [obind]. rewrite E3. cbn [obind]. by rewrite E4. }
  destruct H as (ps & Ep & Hs & Hm). exists sig, ps. rewrite traced_mbr_plain, Ep. split_and!; [|done|done].
  unfold trace_table, log_mbr_signature. rewrite E. cbn [obind]. rewrite Ep. cbn [obind]. destruct ps as [|p ps]; [done|].
  unfold log_partition_table. by rewrite log_rows_ok.
Qed.

(** ** The volume theorems *)

(** The disk fills the buffer it is given with bytes, and serves a read of one
    sector with the start of what a read of a cache block gives. *)
Class SectorDisk (d : BlockDisk) : Prop := {
  reads_fill : forall s n b, disk_read d s n = Ok b -> length b = Z.to_nat n /\ Forall byte_ok b;
  reads_prefix : forall s b, disk_read d s CACHE_BLOCK_SIZE = Ok b ->
    disk_read d s BLOCK_SIZE = Ok (take (Z.to_nat BLOCK_SIZE) b) }.

Section volume.
Context (v : PartitionVolume) `{SD : SectorDisk (disk v)} (Hp : partition_ok (partition v)).

Lemma volume_reads lba n : 0 <= lba < U32 -> 0 <= n < U32 ->
  exists r, read_blocks v lba n = Ret r /\ match r with Ok b => length b = Z.to_nat n /\ Forall byte_ok b | Err _ => True end.
Proof.
  intros Hl Hn. destruct Hp as (H1 & H2 & H3). cbn [read_blocks partition_volume]. unfold partition_read_blocks, BLOCK_SIZE, U32 in *.
  rewrite uadd_ok by (unfold USIZE; lia). cbn [obind]. zcases; [by eexists|]. rewrite uadd_ok by (unfold USIZE; lia). cbn [obind].
  eexists. split; [reflexivity|]. unfold disk_read_blocks. destruct (disk_read _ _ _) eqn:E; [|done]. by eapply reads_fill.
Qed.

Lemma volume_prefix lba b : 0 <= lba < U32 -> get_block v lba = Ret (Ok b) ->
  length b = 4096%nat /\ read_blocks v lba BLOCK_SIZE = Ret (Ok (take 512 b)).
Proof.
  intros Hl H. unfold get_block in H. cbn [read_blocks partition_volume] in *. unfold partition_read_blocks, BLOCK_SIZE, CACHE_BLOCK_SIZE, U32 in *.
  destruct Hp as (H1 & H2 & H3). unfold U32 in *. rewrite uadd_ok in H by (unfold USIZE; lia). rewrite uadd_ok by (unfold USIZE; lia). cbn [obind] in *.
  destruct (Z.ltb_spec (num_sectors (partition v)) (lba + 4096 / 512)); [done|]. destruct (Z.ltb_spec (num_sectors (partition v)) (lba + 512 / 512)); [lia|].
  rewrite uadd_ok in H by (unfold USIZE; lia). rewrite uadd_ok by (unfold USIZE; lia). cbn [obind] in *. unfold disk_read_blocks in *. injection H as H.
  split; [by apply reads_fill in H as [-> _]|]. f_equal. by apply reads_prefix in H.
Qed.

(** The two sectors are readable, the first is not a boot sector and the second
    has the magic number. *)
Definition ext2_sectors : Prop :=
  exists boot sup, read_blocks v 0 BLOCK_SIZE = Ret (Ok boot) /\ read_blocks v EXT2_SUPERBLOCK_SECTOR BLOCK_SIZE = Ret (Ok sup) /\
    le_at 2 boot BOOT_SIGNATURE_OFFSET <> Ret BOOT_SIGNATURE /\ le_at 2 sup EXT2_MAGIC_OFFSET = Ret EXT2_MAGIC.

(** The branch of a boot sector. *)
Lemma probe_boot boot : read_blocks v 0 BLOCK_SIZE = Ret (Ok boot) -> length boot = 512%nat -> le_at 2 boot BOOT_SIGNATURE_OFFSET = Ret BOOT_SIGNATURE ->
  exists r, probe_filesystem v = Ret r /\ r <> Ext2Found.
Proof.
  intros E0 Hl Es. unfold probe_filesystem. rewrite E0. cbn [obind]. rewrite Es. cbn [obind]. rewrite Z.eqb_refl.
  destruct (slice_ok boot 82 (82 + 8)) as (t & Et & _); [lia..|]. destruct (slice_ok boot 71 (71 + 11)) as (l & El & _); [lia..|].
  destruct (slice_ok boot 3 (3 + 8)) as (o & Eo & _); [lia..|].
  unfold FAT32_FILESYSTEM_TYPE_OFFSET, FAT32_FILESYSTEM_TYPE_LEN, FAT32_VOLUME_LABEL_OFFSET, FAT32_VOLUME_LABEL_LEN, OEM_NAME_OFFSET, OEM_NAME_LEN.
  rewrite Et, El, Eo. cbn [obind]. destruct (starts_with _ _); [destruct (_ && _)|]; by eexists.
Qed.

(** What the probe says, from the two sectors it reads. *)
Lemma probe_cases : exists r, probe_filesystem v = Ret r /\ (r = Ext2Found <-> ext2_sectors).
Proof.
  destruct (volume_reads 0 BLOCK_SIZE) as (r0 & E0 & H0); [unfold U32, BLOCK_SIZE; lia..|].
  destruct r0 as [boot|e].
  2: { exists (BootSectorError e). unfold probe_filesystem. rewrite E0. split; [done|]. split; [done|]. intros (? & ? & K & _). by rewrite E0 in K. }
  destruct H0 as [Hl Hb]. unfold BLOCK_SIZE in Hl.
  destruct (le_at_ok 2 boot BOOT_SIGNATURE_OFFSET) as (sig & Es & _); [done|unfold BOOT_SIGNATURE_OFFSET; lia..|].
  destruct (Z.eqb_spec sig BOOT_SIGNATURE) as [->|Hs].
  { destruct (probe_boot boot E0 Hl Es) as (r & -> & Hr). exists r. split; [done|]. split; [done|].
    intros (? & ? & K & _ & Hn & _). rewrite E0 in K. injection K as <-. by rewrite Es in Hn. }
  unfold probe_filesystem. rewrite E0. cbn [obind]. rewrite Es. cbn [obind]. rewrite (proj2 (Z.eqb_neq _ _) Hs).
  destruct (volume_reads EXT2_SUPERBLOCK_SECTOR BLOCK_SIZE) as (r2 & E2 & H2); [unfold U32, BLOCK_SIZE, EXT2_SUPERBLOCK_SECTOR; lia..|]. rewrite E2. cbn [obind].
  destruct r2 as [sup|e]; [|eexists; split; [reflexivity|split; [done|intros (? & ? & _ & K & _); by rewrite E2 in K]]].
  destruct H2 as [Hl2 Hb2]. unfold BLOCK_SIZE in Hl2.
  destruct (le_at_ok 2 sup EXT2_MAGIC_OFFSET) as (m & Em & _); [done|unfold EXT2_MAGIC_OFFSET; lia..|]. rewrite Em. cbn [obind].
  eexists. split; [reflexivity|]. destruct (Z.eqb_spec m EXT2_MAGIC) as [->|Hm]; (split; [intros ?|intros (b1 & b2 & _ & K2 & _ & K)]); try done.
  - exists boot, sup. split_and!; [done|done| |done]. rewrite Es. congruence.
  - rewrite E2 in K2. injection K2 as <-. rewrite Em in K. by injection K.
Qed.

(** The driver's check of the magic number is the probe's. *)
Lemma superblock_magic s s' : Ext2.read_superblock_data (get_block v) s = Ret (Ok s') ->
  exists sup, read_blocks v EXT2_SUPERBLOCK_SECTOR BLOCK_SIZE = Ret (Ok sup) /\ le_at 2 sup EXT2_MAGIC_OFFSET = Ret EXT2_MAGIC.
Proof.
  intros H. unfold Ext2.read_superblock_data in H. change Ext2.SUPERBLOCK_SECTOR with 2 in H.
  destruct (get_block v 2) as [[b|e]| |] eqn:Eb; [cbn [obind] in H|done|done|done].
  apply volume_prefix in Eb as [Hl Hr]; [|unfold U32; lia]. exists (take 512 b). split; [done|].
  cbn [rbind obind] in H. bind_inv H. destruct (Z.eqb_spec r Ext2.SUPER_MAGIC) as [->|]; [|done]. clear K.
  unfold read_u16_le, Ext2.MAGIC_OFFSET in E. rewrite uadd_ok in E by (unfold USIZE; lia). cbn [obind] in E. unfold le_at, EXT2_MAGIC_OFFSET.
  unfold slice in *. rewrite Hl in E. rewrite length_take, Hl. cbn in E |- *. rewrite skipn_firstn_comm, take_take. exact E.
Qed.

(** The probe and the driver agree.  On a partition whose first sector is
    readable the probe always ends with a report; on a volume the ext2 driver
    mounts, the report is ext2 exactly when the first sector does not carry the
    boot signature.  A bootable ext2 volume is mounted but not recognised. *)
Theorem probe_agrees boot pinned s (Hboot : read_blocks v 0 BLOCK_SIZE = Ret (Ok boot))
    (Hnew : Ext2.new (get_block v) pinned = Ret (Ok s)) :
  exists r, probe_filesystem v = Ret r /\ (r = Ext2Found <-> le_at 2 boot BOOT_SIGNATURE_OFFSET <> Ret BOOT_SIGNATURE).
Proof using All.
  destruct probe_cases as (r & E & Hr). exists r. split; [done|]. rewrite Hr. unfold Ext2.new in Hnew.
  destruct (Ext2.read_superblock_data _ _) as [[s1|e]| |] eqn:Es; [|done|done|done].
  destruct (superblock_magic _ _ Es) as (sup & E2 & Em). split.
  - intros (b & ? & K & _ & Hn & _). rewrite Hboot in K. by injection K as <-.
  - intros Hn. by exists boot, sup.
Qed.

End volume.

(** ** Sample disks *)

(** A disk that holds the bytes [data] and zeros after them. *)
Definition byte (data : list Z) (i : nat) : Z := default 0 (data !! i) mod 256.

Definition bytes_disk (data : list Z) : BlockDisk :=
  mkDisk (fun s n => Ok (byte data <$> seq (Z.to_nat (s * 512)) (Z.to_nat n))).

Lemma take_bytes data a m n : (m <= n)%nat -> byte data <$> seq a m = take m (byte data <$> seq a n).
Proof. intros H. rewrite <- fmap_take, take_seq. do 2 f_equal. lia. Qed.

Lemma Ok_inj {A E} (a b : A) : @Ok A E a = Ok b -> a = b.
Proof. congruence. Qed.

#[local] Instance bytes_disk_sector data : SectorDisk (bytes_disk data).
Proof.
  split.
  - intros s n b H. apply Ok_inj in H. rewrite <- H. split; [by rewrite length_fmap, length_seq|]. apply Forall_fmap, Forall_forall. intros i _. cbn. unfold byte, byte_ok. lia.
  - intros s b H. cbn [disk_read bytes_disk] in *. apply Ok_inj in H. rewrite <- H. apply (f_equal Ok), take_bytes. unfold BLOCK_SIZE, CACHE_BLOCK_SIZE. lia.
Qed.

Definition block (l : list Z) : list Z := l ++ replicate (1024 - length l) 0.

(** A volume of seven blocks: superblock, group descriptors, inode table. *)
Definition demo_ext2 (boot : list Z) : list Z :=
  block boot ++
  block (to_le 4 16 ++ to_le 4 64 ++ replicate 16 0 ++ to_le 4 0 ++ replicate 4 0 ++ to_le 4 64 ++ replicate 4 0 ++ to_le 4 16 ++
    replicate 12 0 ++ to_le 2 0xEF53 ++ replicate 30 0 ++ to_le 2 128) ++
  block (replicate 8 0 ++ to_le 4 5) ++ block [] ++ block [] ++ block (replicate 128 0 ++ to_le 2 0x41ed ++ replicate 2 0 ++ to_le 4 1024).

Definition demo_volume (boot : list Z) : PartitionVolume := mkPartVol (bytes_disk (demo_ext2 boot)) (mkPartition 1 0 64).

Definition demo_sb (boot : list Z) : Ext2.Ext2SuperBlock :=
  match Ext2.new (get_block (demo_volume boot)) (fun _ => false) with Ret (Ok s) => s | _ => Ext2.sb_empty end.

Definition bootable : list Z := replicate 510 0 ++ to_le 2 BOOT_SIGNATURE.

Lemma demo_partition_ok boot : partition_ok (partition (demo_volume boot)).
Proof. unfold partition_ok, U32. cbn. lia. Qed.

Lemma probe_agrees_witness :
  probe_filesystem (demo_volume []) = Ret Ext2Found /\
  exists r, probe_filesystem (demo_volume bootable) = Ret r /\ r <> Ext2Found.
Proof.
  split.
  - destruct (probe_agrees (demo_volume []) (demo_partition_ok []) (replicate 512 0) (fun _ => false) (demo_sb [])) as (r & E & H);
      [vm_compute; reflexivity|vm_compute; reflexivity|]. rewrite E. f_equal. apply H. vm_compute. discriminate.
  - destruct (probe_agrees (demo_volume bootable) (demo_partition_ok bootable) bootable (fun _ => false) (demo_sb bootable)) as (r & E & H);
      [vm_compute; reflexivity|vm_compute; reflexivity|]. exists r. split; [exact E|]. intros K. apply H in K. apply K. vm_compute. reflexivity.
Defined.

Lemma trace_table_spec_witness :
  let e t a n := demo_entry t a n in
  exists sig ps, trace_table (image (replicate 446 144) (e 12 2048 32768) (e 131 34816 65536) (e 0 0 0) (e 0 0 0)) =
    Ret (sig, (fun p => (p, type_name p, num_sectors (plain p) / 2048)) <$> ps, ps) /\
    ps = [mkTraced (mkPartition 1 2048 32768) 12; mkTraced (mkPartition 2 34816 65536) 131].
Proof.
  intros e. destruct (trace_table_spec (image (replicate 446 144) (e 12 2048 32768) (e 131 34816 65536) (e 0 0 0) (e 0 0 0))) as (sig & ps & E & _).
  - apply (bool_decide_unpack _). vm_compute. exact I.
  - vm_compute. reflexivity.
  - exists sig, ps. split; [exact E|]. vm_compute in E. congruence.
Defined.

End Probe.
