(* ===== verification/BootMenu.v ===== *)
(** * The boot menu

    Models the loop at the end of [kernel_main] in [src/src/kernel_main.rs]: the
    menu is printed, a key read and echoed, and the key's action run.  The
    actions are modelled elsewhere ([Menu], [Listings], [Polled], [Uart],
    [Ext2Inspect]); here an action is a step of the machine that comes back or
    does not. *)

From S2P Require Import Prelude Bytes Console.

Module BootMenu.
Import Console.

Inductive action :=
| run_process_as_kthread | run_two_processes | test_message_passing | uart_demo | uart_flood | inspect_mounts | inspect_vfs | inspect_elf
| inspect_procfs | sd_read_demo | sd_adma_demo | virtio_blk_demo | spawn_block_dispatcher.

(** The lines of the menu. *)
Definition MENU : list string :=
  [""; "=== Nano OS Boot Menu ==="; "";
   "  Process:"; "    1) Run one process"; "    2) Run two processes"; "";
   "  Demos:"; "    3) Thread message passing"; "    4) UART RX interrupts"; "    5) UART TX flood"; "";
   "  Inspect:"; "    6) Mount table"; "    7) Filesystem contents"; "    8) ELF headers"; "    9) Procfs contents"; "";
   "  Hardware:"; "    s) SD card (PIO mode) (NanoRV)"; "    a) SD card (ADMA2 mode) (NanoRV)"; "    v) virtio-blk device (QEMU)"; "";
   "  Block Layer:"; "    d) Start block dispatcher thread"; ""].

Definition println_text (s : string) : list Z := lit s ++ [10].

Definition menu_text : list Z := concat (println_text <$> MENU) ++ lit "Select: ".

(** The code of a character literal. *)
Definition key (s : string) : Z := default 0 (head (lit s)).

Definition select (ch : Z) : option action :=
  if ch =? key "1" then Some run_process_as_kthread
  else if ch =? key "2" then Some run_two_processes
  else if ch =? key "3" then Some test_message_passing
  else if ch =? key "4" then Some uart_demo
  else if ch =? key "5" then Some uart_flood
  else if ch =? key "6" then Some inspect_mounts
  else if ch =? key "7" then Some inspect_vfs
  else if ch =? key "8" then Some inspect_elf
  else if ch =? key "9" then Some inspect_procfs
  else if ch =? key "s" then Some sd_read_demo
  else if ch =? key "a" then Some sd_adma_demo
  else if ch =? key "v" then Some virtio_blk_demo
  else if ch =? key "d" then Some spawn_block_dispatcher
  else None.

Section menu.
Context {F : Type} {SB : Sbi (F := F)}.

(** [None] when the action does not come back. *)
Context (perform : action -> F -> option F).

(** A turn of the loop: the polls found no key, the action did not come back,
    or the menu is shown again. *)
Inductive turn := NoKey | Gone (a : action) | Again (f : F).

(** What follows an action that came back. *)
Definition any_key (n : nat) (f : F) : turn :=
  let f := put_str (println_text "") f in
  let f := put_str (lit "Press any key to continue...") f in
  let '(r, f) := getchar n f in
  match r with None => NoKey | Some _ => Again (put_str (println_text "") f) end.

(** One turn; each [getchar] polls at most [n] times. *)
Definition menu_turn (n : nat) (f : F) : turn :=
  let f := put_str menu_text f in
  let '(r, f) := getchar n f in
  match r with
  | None => NoKey
  | Some ch =>
      let f := put_str (println_text "") (sbi_console_putchar ch f) in
      match select ch with
      | Some a => match perform a f with Some f => any_key n f | None => Gone a end
      | None => any_key n (put_str (println_text "Invalid selection") f)
      end
  end.

(** The key of a line of the menu. *)
Definition key_of (line : string) : option Z :=
  match lit line with
  | 32 :: 32 :: 32 :: 32 :: k :: 41 :: _ => Some k
  | _ => None
  end.

(** The keys shown in the menu are the keys that do something: every line with
    a key has an action, no key is shown twice, and no other key has one. *)
Theorem menu_keys ch : NoDup (omap key_of MENU) /\ (is_Some (select ch) <-> ch ∈ omap key_of MENU).
Proof.
  split; [apply (bool_decide_unpack _); by vm_compute|]. replace (omap key_of MENU) with (key <$> ["1"; "2"; "3"; "4"; "5"; "6"; "7"; "8"; "9"; "s"; "a"; "v"; "d"]%string) by by vm_compute.
  unfold select. cbn [fmap list_fmap]. rewrite !elem_of_cons, elem_of_nil. repeat case_match; rewrite ?Z.eqb_eq, ?Z.eqb_neq in *; split; intros Hk; try tauto; try by eexists.
  by destruct Hk.
Qed.

(** ** What a turn prints *)
Context {SL : SbiLog (F := F)}.

Definition keyed (n : nat) (f : F) (ch : Z) (f' : F) : Prop :=
  exists g, silent n f g /\ 0 <= ch < 256 /\ sbi_getchar g = (ch, f').

Lemma keyed_getchar n f ch f' k : keyed n f ch f' -> (n < k)%nat -> getchar k f = (Some ch, f') /\ printed f' = printed f.
Proof.
  intros (g & Hs & Hc & Hg) Hk. split.
  - rewrite (getchar_ok n f g Hs); [by rewrite Hg|by rewrite Hg|done].
  - replace f' with (snd (sbi_getchar g)) by by rewrite Hg. rewrite sb_get. clear -Hs. induction Hs as [|n f g _ _ IH]; [done|]. by rewrite IH, sb_get.
Qed.

Definition MORE : list Z := println_text "" ++ lit "Press any key to continue...".

Lemma any_key_ok n m f ch f' : keyed n (put_str (lit "Press any key to continue...") (put_str (println_text "") f)) ch f' -> (n < m)%nat ->
  exists f2, any_key m f = Again f2 /\ printed f2 = printed f ++ MORE ++ [10].
Proof.
  intros Hk Hm. unfold any_key. destruct (keyed_getchar _ _ _ _ m Hk Hm) as [-> Hp]. eexists. split; [done|].
  rewrite put_str_ok, Hp, !put_str_ok. by rewrite <- !app_assoc.
Qed.

(** A turn of the menu.  However late the keys come: a key of the menu is
    echoed and its action run, and the loop is left exactly when the action
    does not come back; any other key is echoed and refused; and the menu is
    shown again after one more key. *)
Theorem menu_turn_spec n m f ch f1 (Hkey : keyed n (put_str menu_text f) ch f1) (Hm : (n < m)%nat) :
  let f2 := put_str (println_text "") (sbi_console_putchar ch f1) in
  printed f2 = printed f ++ ascii menu_text ++ [ch; 10] /\
  match select ch with
  | Some a =>
      match perform a f2 with
      | None => menu_turn m f = Gone a
      | Some g => forall n' k f3, keyed n' (put_str (lit "Press any key to continue...") (put_str (println_text "") g)) k f3 -> (n' < m)%nat ->
          exists f', menu_turn m f = Again f' /\ printed f' = printed g ++ MORE ++ [10]
      end
  | None =>
      let g := put_str (println_text "Invalid selection") f2 in
      forall n' k f3, keyed n' (put_str (lit "Press any key to continue...") (put_str (println_text "") g)) k f3 -> (n' < m)%nat ->
        exists f', menu_turn m f = Again f' /\ printed f' = printed f ++ ascii menu_text ++ [ch; 10] ++ println_text "Invalid selection" ++ MORE ++ [10]
  end.
Proof.
  intros f2. destruct (keyed_getchar _ _ _ _ m Hkey Hm) as [Eg Hp]. rewrite put_str_ok in Hp.
  assert (H2 : printed f2 = printed f ++ ascii menu_text ++ [ch; 10]).
  { unfold f2. rewrite put_str_ok. unfold sbi_console_putchar. rewrite sb_put, Hp. by rewrite <- !app_assoc. }
  split; [done|]. unfold menu_turn. rewrite Eg. fold f2. destruct (select ch) as [a|].
  - destruct (perform a f2) as [g|]; [|done]. intros n' k f3 Hk Hn. by eapply any_key_ok.
  - intros n' k f3 Hk Hn. destruct (any_key_ok _ m _ _ _ Hk Hn) as (f' & E & Hf). exists f'. split; [exact E|]. rewrite Hf.
    rewrite put_str_ok, H2. by rewrite <- !app_assoc.
Qed.
End menu.

(** ** A simulated console *)

(** What was printed and what will be typed, a negative number where a poll
    finds nothing. *)
Definition sim : Type := list Z * list Z.

#[local] Instance menu_sbi : Sbi (F := sim) := {
  sbi_putchar ch f := (f.1 ++ [ch], f.2);
  sbi_getchar f := match f.2 with [] => (-1, f) | k :: ks => (k, (f.1, ks)) end }.

#[local, refine] Instance menu_sbi_log : SbiLog (F := sim) := { printed f := f.1 }.
Proof.
  - done.
  - by intros [p [|k ks]].
Defined.

(** A key that is not in the menu, and the menu again. *)
Lemma menu_turn_spec_witness :
  exists f', menu_turn (fun _ _ => None) 3 (([], [-1; -1; 120; 32]) : sim) = Again f' /\
    printed f' = ascii menu_text ++ [120; 10] ++ println_text "Invalid selection" ++ MORE ++ [10].
Proof.
  assert (Hs : forall p : list Z, keyed 2 ((p, [-1; -1; 120; 32]) : sim) 120 (p, [32])).
  { intros p. exists (p, [120; 32]). split_and!; [|lia|lia|done]. do 2 (apply silent_S; [cbn; lia|]). apply silent_0. }
  pose proof (menu_turn_spec (fun _ _ => None) 2 3 (([], [-1; -1; 120; 32]) : sim) 120 (put_str menu_text (([], [32]) : sim))) as H.
  destruct H as [_ H]; [|lia|].
  - vm_compute (put_str _ _). apply Hs.
  - change (select 120) with (@None action) in H. cbv beta iota zeta in H.
    set (g := put_str (lit "Press any key to continue...") _) in H. apply (H 0%nat 32 (g.1, [])); [|lia].
    exists g. split_and!; [apply silent_0|lia|lia|by vm_compute].
Defined.

End BootMenu.
