(* ===== verification/Demos.v ===== *)
(** * The demonstration of the polled SD card

    Models [sd_read_demo] and [print_capabilities] of [src/src/demos/sd_read.rs],
    which compose the driver of [Polled] with the inspector of [Inspect], and the
    search for a device of [src/src/demos/virtio_blk.rs], a copy of the one in
    the production driver.  Headings and column widths of what is printed are
    left out. *)

From S2P Require Import Prelude Memory Bytes Dtb Dispatcher Plic Sd VirtioDev Polled Inspect.

Module Demos.
Import Mm Polled Inspect.

Definition REG_CAPABILITIES : Z := 0x40.
Definition REG_CAPABILITIES_HI : Z := 0x44.

(** The values printed for the two capability registers. *)
Record capabilities := mkCaps {
  lower : Z; upper : Z;
  sdma : bool; adma1 : bool; adma2 : bool;
  bus64 : bool; high_speed : bool; v33 : bool; v30 : bool; v18 : bool;
  base_clock : Z; max_block : Z }.

Definition yes (cap k : Z) : bool := negb (Z.land cap (Z.shiftl 1 k) =? 0).

Definition max_block_of (bits : Z) : Z := if bits =? 0 then 512 else if bits =? 1 then 1024 else if bits =? 2 then 2048 else 0.

Section demo.
Context {D : Type} {MD : Mmio D}.

Definition print_capabilities (d : D) : capabilities * D :=
  let '(cap, d) := read32 REG_CAPABILITIES d in
  let '(cap_hi, d) := read32 REG_CAPABILITIES_HI d in
  (mkCaps cap cap_hi (yes cap 22) (yes cap 18) (yes cap 19) (yes cap 28) (yes cap 21) (yes cap 24) (yes cap 25) (yes cap 26)
     (Z.land (Z.shiftr cap 8) 0xFF) (max_block_of (Z.land (Z.shiftr cap 16) 0x3)), d).

(** [SdCard::new] always succeeds. *)
Definition sd_read_demo (d : D) : outcome (capabilities * list line * D) :=
  let '(caps, d) := print_capabilities d in
  let d := pio_new d in
  let! ' (lines, d) := inspect_disk d in
  Ret (caps, lines, d).

(** ** The capability register *)

(** The fields of the register as the specification of the controller lays
    them out: the clock in bits 8 to 15, the longest block in bits 16 and 17. *)
Definition cap_word (low clock block : Z) (s h3 h2 bus hs a b c : bool) (top : Z) : Z :=
  low + 2 ^ 8 * clock + 2 ^ 16 * block + 2 ^ 18 * Z.b2z h3 + 2 ^ 19 * Z.b2z h2 + 2 ^ 21 * Z.b2z hs + 2 ^ 22 * Z.b2z s +
  2 ^ 24 * Z.b2z a + 2 ^ 25 * Z.b2z b + 2 ^ 26 * Z.b2z c + 2 ^ 28 * Z.b2z bus + 2 ^ 29 * top.

Lemma yes_bit cap k : 0 <= k -> yes cap k = Z.odd (cap / 2 ^ k).
Proof. intros Hk. unfold yes. rewrite bit_test by done. rewrite negb_involutive. by rewrite Z.testbit_odd, Z.shiftr_div_pow2. Qed.

Lemma yes_at cap k b q r : 0 <= k -> cap = 2 ^ k * (2 * q + Z.b2z b) + r -> 0 <= r < 2 ^ k -> yes cap k = b.
Proof.
  intros Hk -> Hr. rewrite yes_bit by done. replace (2 ^ k * (2 * q + Z.b2z b) + r) with (r + (2 * q + Z.b2z b) * 2 ^ k) by ring.
  rewrite Z.div_add, Z.div_small by lia. rewrite Z.add_0_l, Z.add_comm, Z.odd_add_mul_2. by destruct b.
Qed.

Lemma cap_clock low clock block s h3 h2 bus hs a b c top : 0 <= low < 2 ^ 8 -> 0 <= clock < 2 ^ 8 -> 0 <= block < 2 ^ 2 ->
  let cap := cap_word low clock block s h3 h2 bus hs a b c top in Z.land (Z.shiftr cap 8) 0xFF = clock /\ Z.land (Z.shiftr cap 16) 0x3 = block.
Proof.
  intros H1 H2 H3 cap. rewrite (Z.land_ones _ 8), (Z.land_ones _ 2), !Z.shiftr_div_pow2 by lia. unfold cap, cap_word.
  set (x := Z.b2z s). set (y := Z.b2z h3). set (z := Z.b2z h2). set (t := Z.b2z bus). set (u := Z.b2z hs). set (v := Z.b2z a). set (w := Z.b2z b). set (q := Z.b2z c). lia.
Qed.

(** The flags that are shown are the bits of the register. *)
Lemma cap_flags low clock block s h3 h2 bus hs a b c top : 0 <= low < 2 ^ 8 -> 0 <= clock < 2 ^ 8 -> 0 <= block < 2 ^ 2 ->
  let cap := cap_word low clock block s h3 h2 bus hs a b c top in
  yes cap 22 = s /\ yes cap 18 = h3 /\ yes cap 19 = h2 /\ yes cap 28 = bus /\ yes cap 21 = hs /\ yes cap 24 = a /\ yes cap 25 = b /\ yes cap 26 = c.
Proof.
  intros H1 H2 H3 cap. assert (Hb : forall x, 0 <= Z.b2z x <= 1) by (intros []; cbn; lia).
  pose proof (Hb s). pose proof (Hb h3). pose proof (Hb h2). pose proof (Hb bus). pose proof (Hb hs). pose proof (Hb a). pose proof (Hb b). pose proof (Hb c). unfold cap, cap_word. split_and!.
  - apply (yes_at _ 22 _ (2 ^ 1 * Z.b2z a + 2 ^ 2 * Z.b2z b + 2 ^ 3 * Z.b2z c + 2 ^ 5 * Z.b2z bus + 2 ^ 6 * top) (low + 2 ^ 8 * clock + 2 ^ 16 * block + 2 ^ 18 * Z.b2z h3 + 2 ^ 19 * Z.b2z h2 + 2 ^ 21 * Z.b2z hs)); [done|ring|lia].
  - apply (yes_at _ 18 _ (2 ^ 0 * Z.b2z h2 + 2 ^ 2 * Z.b2z hs + 2 ^ 3 * Z.b2z s + 2 ^ 5 * Z.b2z a + 2 ^ 6 * Z.b2z b + 2 ^ 7 * Z.b2z c + 2 ^ 9 * Z.b2z bus + 2 ^ 10 * top) (low + 2 ^ 8 * clock + 2 ^ 16 * block)); [done|ring|lia].
  - apply (yes_at _ 19 _ (2 ^ 1 * Z.b2z hs + 2 ^ 2 * Z.b2z s + 2 ^ 4 * Z.b2z a + 2 ^ 5 * Z.b2z b + 2 ^ 6 * Z.b2z c + 2 ^ 8 * Z.b2z bus + 2 ^ 9 * top) (low + 2 ^ 8 * clock + 2 ^ 16 * block + 2 ^ 18 * Z.b2z h3)); [done|ring|lia].
  - apply (yes_at _ 28 _ (2 ^ 0 * top) (low + 2 ^ 8 * clock + 2 ^ 16 * block + 2 ^ 18 * Z.b2z h3 + 2 ^ 19 * Z.b2z h2 + 2 ^ 21 * Z.b2z hs + 2 ^ 22 * Z.b2z s + 2 ^ 24 * Z.b2z a + 2 ^ 25 * Z.b2z b + 2 ^ 26 * Z.b2z c)); [done|ring|lia].
  - apply (yes_at _ 21 _ (2 ^ 0 * Z.b2z s + 2 ^ 2 * Z.b2z a + 2 ^ 3 * Z.b2z b + 2 ^ 4 * Z.b2z c + 2 ^ 6 * Z.b2z bus + 2 ^ 7 * top) (low + 2 ^ 8 * clock + 2 ^ 16 * block + 2 ^ 18 * Z.b2z h3 + 2 ^ 19 * Z.b2z h2)); [done|ring|lia].
  - apply (yes_at _ 24 _ (2 ^ 0 * Z.b2z b + 2 ^ 1 * Z.b2z c + 2 ^ 3 * Z.b2z bus + 2 ^ 4 * top) (low + 2 ^ 8 * clock + 2 ^ 16 * block + 2 ^ 18 * Z.b2z h3 + 2 ^ 19 * Z.b2z h2 + 2 ^ 21 * Z.b2z hs + 2 ^ 22 * Z.b2z s)); [done|ring|lia].
  - apply (yes_at _ 25 _ (2 ^ 0 * Z.b2z c + 2 ^ 2 * Z.b2z bus + 2 ^ 3 * top) (low + 2 ^ 8 * clock + 2 ^ 16 * block + 2 ^ 18 * Z.b2z h3 + 2 ^ 19 * Z.b2z h2 + 2 ^ 21 * Z.b2z hs + 2 ^ 22 * Z.b2z s + 2 ^ 24 * Z.b2z a)); [done|ring|lia].
  - apply (yes_at _ 26 _ (2 ^ 1 * Z.b2z bus + 2 ^ 2 * top) (low + 2 ^ 8 * clock + 2 ^ 16 * block + 2 ^ 18 * Z.b2z h3 + 2 ^ 19 * Z.b2z h2 + 2 ^ 21 * Z.b2z hs + 2 ^ 22 * Z.b2z s + 2 ^ 24 * Z.b2z a + 2 ^ 25 * Z.b2z b)); [done|ring|lia].
Qed.

(** ** The demonstration *)
Context {PC : PioCard}.

(** The capability registers, which do not change. *)
Class Capable := {
  cap_lower : Z; cap_upper : Z;
  cr_lower : forall d, exists d', read32 REG_CAPABILITIES d = (cap_lower, d');
  cr_upper : forall d, exists d', read32 REG_CAPABILITIES_HI d = (cap_upper, d') }.
Context {CR : Capable}.

(** The demonstration on a card with a partition table ends without a panic.  It
    shows the fields of the capability register, then the partitions, the
    parameters of the first FAT32 volume and its root directory, or a part
    of that up to a sector that could not be read. *)
Theorem sd_read_demo_spec low clock block s h3 h2 bus hs a b c top code ps v dirs d
    (Hcap : cap_lower = cap_word low clock block s h3 h2 bus hs a b c top)
    (H1 : 0 <= low < 2 ^ 8) (H2 : 0 <= clock < 2 ^ 8) (H3 : 0 <= block < 2 ^ 2)
    (Hm : card 0 = encode_mbr code ps) (Hc : length code = 446%nat) (Hl : length ps = 4%nat) (Hps : Forall part_ok ps)
    (Hv : forall lba, first_fat32 ps = Some lba -> volume_ok v /\ in_range lba v /\ root_stored card lba v dirs) :
  exists out d', sd_read_demo d = Ret (mkCaps cap_lower cap_upper s h3 h2 bus hs a b c clock (max_block_of block), out, d') /\
    reported (disk_lines ps v dirs) out.
Proof.
  unfold sd_read_demo, print_capabilities. destruct (cr_lower d) as [d1 ->]. destruct (cr_upper d1) as [d2 ->].
  destruct (inspect_disk_spec (RD := pio_reads) card code ps v dirs (pio_new d2) I Hm Hc Hl Hps Hv) as (out & d' & E & _ & Ho). rewrite E. cbn [obind].
  exists out, d'. split; [|done]. rewrite Hcap. destruct (cap_flags low clock block s h3 h2 bus hs a b c top H1 H2 H3) as (-> & -> & -> & -> & -> & -> & -> & ->).
  by destruct (cap_clock low clock block s h3 h2 bus hs a b c top H1 H2 H3) as [-> ->].
Qed.
End demo.

(** ** The search for a VirtIO device *)
Section virtio.
Context {D : Type} {MD : Mmio D}.

Definition VIRTIO_BASE : Z := 0x1000_1000.
Definition VIRTIO_STRIDE : Z := 0x1000.
Definition VIRTIO_COUNT : nat := 8.
Definition VIRTIO_MMIO_MAGIC_VALUE : Z := 0x000.
Definition VIRTIO_MMIO_VERSION : Z := 0x004.
Definition VIRTIO_MMIO_DEVICE_ID : Z := 0x008.

Fixpoint probe_slots (n : nat) (i : Z) (d : D) : option Z * D :=
  match n with
  | O => (None, d)
  | S n =>
      let base := VIRTIO_BASE + i * VIRTIO_STRIDE in
      let '(magic, d) := VirtioDev.read32 base VIRTIO_MMIO_MAGIC_VALUE d in
      if negb (magic =? 0x74726976) then probe_slots n (i + 1) d
      else
        let '(version, d) := VirtioDev.read32 base VIRTIO_MMIO_VERSION d in
        if negb (version =? 2) then probe_slots n (i + 1) d
        else
          let '(device_id, d) := VirtioDev.read32 base VIRTIO_MMIO_DEVICE_ID d in
          if device_id =? 2 then (Some base, d) else probe_slots n (i + 1) d
  end.

Definition demo_probe (d : D) : option Z * D := probe_slots VIRTIO_COUNT 0 d.

(** The demonstration and the production driver find the same device, with the
    same accesses. *)
Theorem demo_probe_equiv d : demo_probe d = VirtioDev.probe d.
Proof.
  unfold demo_probe, VirtioDev.probe. change VirtioDev.VIRTIO_COUNT with VIRTIO_COUNT. generalize 0, d. induction VIRTIO_COUNT as [|n IH]; intros i e; [done|].
  cbn [probe_slots VirtioDev.probe_from]. fold VirtioDev.read32. unfold VIRTIO_BASE, VIRTIO_STRIDE, VIRTIO_MMIO_MAGIC_VALUE, VIRTIO_MMIO_VERSION, VIRTIO_MMIO_DEVICE_ID.
  unfold VirtioDev.VIRTIO_BASE, VirtioDev.VIRTIO_STRIDE, VirtioDev.REG_MAGIC_VALUE, VirtioDev.REG_VERSION, VirtioDev.REG_DEVICE_ID, VirtioDev.VIRTIO_MAGIC, VirtioDev.VERSION, VirtioDev.DEVICE_ID_BLOCK.
  destruct (VirtioDev.read32 _ _ e) as [m e1]. destruct (negb (m =? _)); [apply IH|]. destruct (VirtioDev.read32 _ _ e1) as [ve e2]. destruct (negb (ve =? _)); [apply IH|].
  destruct (VirtioDev.read32 _ _ e2) as [id e3]. destruct (id =? _); [done|apply IH].
Qed.
End virtio.

(** ** A card with two partitions *)
Definition demo_caps : Z := cap_word 0x81 200 0 true false true true true true false true 0.

Lemma demo_disk_block s : length (demo_disk s) = 512%nat /\ Forall byte_ok (demo_disk s).
Proof.
  unfold demo_disk. destruct (s =? 0); [|destruct (s =? 2048); [|destruct (s =? 2280)]]; (split; [vm_compute; reflexivity|apply (bool_decide_unpack _); vm_compute; exact I]).
Qed.

#[local] Instance demo_mmio : Mmio controller := sim_mmio demo_disk demo_caps.
#[local] Instance demo_pio : PioCard := sim_pio demo_disk demo_caps demo_disk_block.
#[local, refine] Instance demo_capable : Capable (MD := demo_mmio) := { cap_lower := demo_caps; cap_upper := 0 }.
Proof. all: by intros d; eexists. Defined.

Lemma sd_read_demo_spec_witness : exists out d', sd_read_demo (mkCtl Idle 0 0 0 0 0) = Ret (mkCaps demo_caps 0 true false true true true true false true 200 512, out, d') /\
  reported (disk_lines demo_parts demo_volume [demo_dir]) out.
Proof.
  apply (sd_read_demo_spec (CR := demo_capable) 0x81 200 0 true false true true true true false true 0 (replicate 446 0) demo_parts demo_volume [demo_dir] (mkCtl Idle 0 0 0 0 0)).
  - reflexivity.
  - lia.
  - lia.
  - lia.
  - reflexivity.
  - reflexivity.
  - reflexivity.
  - repeat constructor; vm_compute; done.
  - intros lba H. injection H as <-. split; [split_and!; vm_compute; done|]. split; [split_and!; vm_compute; done|]. split_and!; [done|done|apply Forall_singleton; split; [done|exact demo_dir_ok]|].
    intros j es Hj. destruct j; [|done]. injection Hj as <-. done.
Defined.

End Demos.
